(* ===== verification/_CoqProject ===== *)
-Q . S2P
Prelude.v
Target.v
Operation.v
Tp.v
ClusterFsm.v
Promotion.v
Admission.v
Bytes.v
Auth.v
Control.v
ControlRoles.v
Hello.v
Recovery.v
Process.v
Runtime.v
Production.v
Node.v
Supervised.v
Utf8.v
Json.v
WebRequest.v
WebSearch.v
WebResponse.v
WebServer.v
Disk.v
StateStore.v
Restart.v
Jobs.v
Download.v
Activation.v
FileTree.v
Registry.v
Catalog.v
RestartGate.v
Policy.v
TpRuntime.v
TpNode.v
TpPromotion.v
Network.v
Discovery.v
Effects.v
WorkerNode.v
Text.v
ChildLog.v
Config.v
Command.v
Launch.v
Sse.v
Headers.v
Metrics.v
Proxy.v
Canary.v
Notify.v
Canonical.v
Manifest.v
Deployment.v
RecoveryRun.v
Admin.v
Shutdown.v
