(* ===== verification/Prelude.v ===== *)
(** * siDeroStat: a verification development

    siDeroStat supervises DS4 language-model servers on one or two machines.  Each
    node runs a local standalone server, or, paired with its peer, one half of a
    distributed server, and a proxy in front of them.  This library models the part
    of the Rust program that decides: which upstream a request goes to, when a mode
    may change, which peer message counts, and what a failure leads to.

    ** Parts of the program and their interaction

    The proxy admits a request through the admission gate and sends it to the target
    that the cluster state machine published.  Lifecycle operations (pairing,
    promotion, demotion, recovery) run under the operation lease: they drain the
    gate, stop and start child processes, and apply events to the state machine,
    each tagged with the generation it was computed from.  The two nodes agree
    through signed control messages, which the authenticator checks, the control
    processor deduplicates and the control roles admit by phase; the worker's DS4
    child announces itself to the coordinator with a binary HELLO frame.  Failed
    promotions go to the failure tracker (backoff, then manual intervention); slow
    generation is detected from throughput samples and starts a bounded recovery.

    ** Files

    - [Prelude]: results, the state-and-error monad [method] with the predicates
      [keeps] and [wp], machine integers, list searches, automation.
    - [Target] (src/target.rs): roles, modes, states, [resolve_target].
    - [Operation] (src/cluster/operation.rs, policy.rs): the operation lease, its
      [try_acquire] split into the two atomic halves of the code, and an arbitrary
      interleaving of them.
    - [Tp] (src/cluster/tp.rs): readiness of a tensor-parallel session.
    - [ClusterFsm] (src/cluster/state.rs): the reducer [transition] and the
      single-writer task [machine_run] with its queue.
    - [Promotion] (src/cluster/state.rs, recovery_tp.rs, worker.rs): the promotion
      failure tracker, the TP recovery tracker and the TP worker tracker.
    - [Admission] (src/admission.rs): every critical section of the gate, and the
      concurrent system of requests and drains, one atomic step at a time, over
      [Notify], the interface of tokio's notification cell.
    - [Bytes]: ASCII text, decimal numbers, little-endian words, lexical order.
    - [Auth] (src/cluster/auth.rs): canonical message, signature, nonce table.
    - [Control] (src/cluster/control.rs): messages, peer lease, [ControlProcessor].
    - [ControlRoles] (src/cluster/coordinator/control.rs, worker.rs): the phases of
      the coordinator and of the worker.
    - [Hello] (src/cluster/ds4_hello.rs): parser, builder and reader of the frame,
      and the rendezvous.
    - [Recovery] (src/recovery.rs, canary.rs): throughput detector, recovery service,
      timestamps.
    - [Process] (src/cluster/process.rs): identity of a process, the check before every
      signal, the stop routines, the supervised slot, over the interface [Kernel].
    - [Runtime] (src/cluster/coordinator.rs, runtime.rs, worker.rs): the lifecycle
      operations on a [World] of state machine, gate, proxy target and trackers; the
      children, the peer and the lease answer calls through [Environment].
    - [Production] (src/cluster/production/): reconcile, promotion with its HELLO
      preflight, peer-loss recovery, route-loss monitor, promotion policy.
    - [Node]: a coordinator under any sequence of these operations.
    - [Supervised] (src/cluster/process/coordinator.rs): a supervised child meets the
      law that [Node] asks of its environment.
    - [Utf8], [Json]: Rust's strings and serde's JSON values, as far as they are used.
    - [WebRequest], [WebSearch], [WebResponse], [WebServer] (src/websearch/): the web
      search bridge, from the body of a request to the events of its answer.
    - [Disk]: a directory whose calls fail and whose machine may stop at any point.
    - [StateStore] (src/cluster/state_store.rs, policy_journal.rs): the cluster state on
      disk and the journal of policy intents.
    - [Restart] (src/cluster/restart.rs): what a restarted node does with the child of
      its previous run.
    - [Jobs], [Download], [Activation] (src/manager/jobs.rs, api.rs, download.rs,
      activation.rs, rollback.rs, src/cluster/production/activation.rs): the job
      journal, the resumable download and the two-node activation.
    - [FileTree], [Registry], [Catalog] (src/manager/registry.rs, verify.rs, catalog.rs,
      compatibility.rs, stage.rs, source.rs, build.rs): a tree of files with symbolic
      links, the artifact registry, catalog and build.
    - [RestartGate], [Policy] (src/cluster/production.rs, production/policy.rs): the
      planned-restart gate and the two-node policy transaction.
    - [TpRuntime], [TpNode], [TpPromotion] (src/cluster/production/tp_runtime.rs,
      tp_control.rs): the tensor-parallel sessions of both nodes, the invariant of a
      node that runs them, and the stages and attempts of a promotion.
    - [Network], [Discovery] (src/cluster/role.rs, network_*.rs, discovery.rs, bonjour.rs,
      platform/bonjour.rs, production.rs): the evidence for the direct link, its debounced
      event monitor, the detection of the role and the candidates for the peer.
    - [Effects], [WorkerNode] (src/cluster/production/effects.rs, worker.rs): the handler
      of control messages with the effects of its commands, and a worker under any
      sequence of them.
    - [Text] (the standard library's string searches, trimming and number texts),
      [ChildLog] (src/cluster/ds4_log.rs, process/coordinator.rs, process/tp.rs): the lines of
      a child, the events they stand for and what is made of them.
    - [Config] (src/config.rs): the configuration and its validation.
    - [Command] (src/cluster/ds4_command.rs): the command lines of the children.
    - [Launch] (src/cluster/process.rs, process/, src/startup_cleanup.rs): how the children
      are spawned and awaited, the supervisors and the cleanup of a former run.
    - [Sse], [Headers], [Proxy] (src/proxy.rs, error.rs): the framing of a stream of events,
      the headers of a forwarded request, and a request from the peer's check and the gate
      to the last byte of the answer.
    - [Metrics] (src/metrics.rs): the counters, the age of the generation, the labels.
    - [Canary] (src/canary.rs): the probe request of a recovery and its verdict.
    - [Notify] (src/notify.rs, localization.rs): the notification service with its
      deduplicator, the worker's relay, the texts and the notification centre.
    - [Canonical], [Manifest], [Deployment] (src/cluster/manifest.rs, capability.rs,
      deployment.rs, artifacts.rs): canonical JSON, the identity of a deployment, what a
      binary can do, and the checks between a manifest and the files that are started.
    - [RecoveryRun] (src/app.rs, src/recovery.rs, src/cluster/production/pairing.rs): a degraded
      recovery from the detector's tick or the operator's request to its report.
    - [Admin] (src/cluster/admin.rs): the jobs and policy requests of the admin interface.
    - [Shutdown] (src/app.rs): the planned restart, the shutdown's flags and gate, and the
      concurrent system of requests, jobs and the server that cleans up its children.

    ** What the theorems show

    - The node ([Node]): standalone and distributed child exclude each other; a
      serving gate has the route and the live child that belong to its state; the
      exact sequence of a promotion and of a worker's preparation.
    - Processes ([Process]): no signal without a matching observation of the pid just
      before it; a stop always returns, in bounded time, with the exit collected.
    - Children ([ChildLog], [Config], [Command], [Launch]): what the log says is what the
      route becomes, however it is cut into reads; the validation of a configuration accepts
      exactly the well-formed ones, and a command can be built from each; the options that
      the program generates cannot be overridden; a supervisor never has two children and
      leaves none behind; the cleanup only touches what it may.
    - Routing ([ClusterFsm]): the published target is the one of the state and mode,
      a paired worker never serves locally, the TP route needs a complete session;
      commands are serialised by generation; solo operation can always be regained.
    - Mutual exclusion ([Operation]) and quiescence ([Admission]): one lease owner
      under every interleaving; exact request counting, no public request after a
      drain, no lost wake-up, closing is final.
    - Peer protocol ([Auth], [Control], [ControlRoles], [Hello]): signatures bind the
      request and are canonical, no replay, at most one application of a message,
      presence only after authenticated evidence, phases only move by the protocol,
      the HELLO frame is a faithful encoding.
    - Failures ([Promotion], [Recovery]): bounded retries, sustained detection, one
      trigger per incident, exact start condition of a recovery, correct dates.
    - Durability ([StateStore], [Restart]): a save is atomic under every failing call
      and every crash, a recorded intent survives, a loaded state is well formed, a
      corrupt one is preserved; a restart always decides, and starts a child only when
      the recorded one is gone.
    - Model manager ([Jobs], [Download], [Activation], [Registry], [Catalog]): one job
      per piece of work, one activation at a time, a download ends with the bytes of the
      digest and an interrupted one is resumed, an activation commits on both nodes or
      is rolled back, and is refused when a file is not the one recorded.
    - Proxy ([Sse], [Headers], [Proxy], [Metrics], [Canary]): nothing reaches an upstream past
      the gate, the limit of the body and the peer's token; what a client of a completion
      sees is whole events up to the terminal one or one error event, however the upstream
      cut or broke the stream; the gauges count what is alive; what a canary reports.
    - Notifications ([Notify]): an incident is told once, no earlier than the cooldown.
    - Deployments ([Manifest], [Deployment]): two nodes have the same deployment identity
      exactly when what must agree agrees; what is started is what the manifest approves.
    - Application ([RecoveryRun], [Admin], [Shutdown]): there is one task per active recovery,
      which always ends it, and a reported success means a promoted node with a good canary;
      one task at most holds a lease, and jobs are shown as running exactly while they run; the
      children are cleaned up only when no accepted mutation runs, and a failed cleanup can be
      retried.
    - Policy and restart ([Policy], [RestartGate]): what each outcome of a policy
      transaction leaves on the two nodes, the force latch survives, the planned restart
      hands the pair over once and linearizes to its abstract counter.
    - Tensor parallelism ([TpNode], [TpPromotion]): a node that serves a session has its
      live child, the route is published only through all the stages, and every
      promotion is recorded before it has effects.
    - Worker node and network ([WorkerNode], [Network], [Discovery]): what a worker routes to
      in each of its states, when the evidence for the direct link is open, that a burst of
      network events leads to exactly one rescan, and which peer candidates are kept.
    - Web search ([WebRequest], [WebSearch], [WebResponse], [WebServer]): which requests
      are accepted, the bounds of the engine, that its answers come from the turns and
      searches made, that the events carry the response and the citations the sources.
    - A few theorems state behaviour at odds with the code's comments: a replay under
      another node id, evicted recovery attempts, a rejected pairing that changes the
      session, a TP route restored without readiness, a search nobody asked for, citations
      of the wrong search, long answers that never complete, a bridge that may call
      itself, a lower generation saved after a failed sync; the lemmas on the promotion
      gate, on a stuck promotion and on a refused recovery are of this kind too.

    ** Bounds, parameters and assumptions

    Integers are [Z]; wrap-around and saturation are written out at each operation,
    and ranges are hypotheses where a theorem needs them.  Recursion is structural;
    the printer of decimal numbers has fuel 20, the number of digits of [u64::MAX], and
    the polling loops of [Process] have fuel that the termination theorem shows to be
    enough.  The download loop has the length of the file as fuel, which the liveness
    theorem shows to be enough; symbolic links are followed 32 times, the limit of
    macOS; the handshake and the warm-up of a tensor-parallel session poll until their
    deadline, and the fuel is the number of polls that fit before it.
    SHA-256 and HMAC-SHA256 are parameters of [Auth], of which only the length of the
    digest is assumed; the theorem that a signature binds the request names the
    collision it excludes.  [Environment] is any function
    from the calls made so far to an answer; the only law assumed of it is that a
    stop of a child that was never started succeeds, which [Supervised] proves of a
    supervised slot.  Lifecycle operations run one after the other, as the operation lease
    makes them; within one, two joined futures run to their end in a fixed order.
    [WorkerNode] assumes of the lease that two reads of one reconcile agree
    ([StablePresence]); an example shows what happens when they do not.
    [Launch] asks for the loops' fuel in [ample]: the polls that fit before the deadlines.
    A spawn, a request to the child's port and a look at its log are answers of
    [Launcher]; the files of [Config] those of [HostFiles], and decoded TOML, parsed URLs,
    a full log channel and the text of IPv6 addresses are [ConfigDecoder], [UrlParser],
    [LogChannel] and [Texts]; the URLs of the proxy are [Urls], the text of a header is
    [HeaderText], and what an upstream sends and when is the answer of [Backend].  The
    files and the binaries of a deployment answer through [DeploymentHost], decoded manifests
    are [ManifestDecoder], the application's bundle is [Bundle], and [CanonicalText] asks of
    the JSON text that it determines the fields.  Sums of [f64] are exact, without rounding.
    The derived debug texts, the texts of foreign errors and what parses as a UUID are
    [Surroundings], and a decoded answer of a policy request is [NodeDecoder].
    A [Duration] is its nanoseconds, throughput values are rationals.

    ** Not modelled

    HTTP and the JSON text (serde), sockets and the platform's process table, which the
    sources only call; the start-up of the servers and the routing of their HTTP handlers, the
    command line, the diagnostics and the dry run (src/main.rs, cli.rs, diagnostics.rs,
    cluster/dry_run.rs); the monitor application and the build helpers (monitor/, xtask/). *)

From Stdlib Require Export ZArith Lia.
From stdpp Require Export base tactics list option numbers strings sets gmap finite.

Set Default Proof Using "Type*".

Declare Scope rust_scope.
Delimit Scope rust_scope with rust.
Global Open Scope Z_scope.
Coercion Z.of_nat : nat >-> Z.

(** ** Fallible computations

    Rust's [Result<A, E>]; [let? x := c in k] is the question-mark operator. *)

Inductive result (A E : Type) : Type :=
| Ok (a : A)
| Err (e : E).
Arguments Ok {A E} _.
Arguments Err {A E} _.

Definition result_bind {A B E} (c : result A E) (k : A → result B E) : result B E :=
  match c with
  | Ok a => k a
  | Err e => Err e
  end.

Definition map_err {A E F} (f : E → F) (c : result A E) : result A F :=
  match c with
  | Ok a => Ok a
  | Err e => Err (f e)
  end.

Definition ok_or {A E} (o : option A) (e : E) : result A E :=
  match o with
  | Some a => Ok a
  | None => Err e
  end.

Definition is_ok {A E} (c : result A E) : bool :=
  match c with Ok _ => true | Err _ => false end.

Notation "'let?' x := c 'in' k" := (result_bind c (fun x => k))
  (at level 200, x binder, c at level 100, k at level 200) : rust_scope.

(** [ensure b e]: the early return [if !b { return Err(e) }]. *)
Definition ensure {E} (b : bool) (e : E) : result unit E :=
  if b then Ok tt else Err e.

Global Instance result_eq_dec {A E} `{EqDecision A, EqDecision E} : EqDecision (result A E).
Proof. solve_decision. Defined.

Lemma result_bind_ok {A B E} (c : result A E) (k : A → result B E) b :
  result_bind c k = Ok b ↔ ∃ a, c = Ok a ∧ k a = Ok b.
Proof. destruct c; naive_solver. Qed.

Lemma ensure_ok {E} (b : bool) (e : E) u : ensure b e = Ok u ↔ b = true.
Proof. destruct b, u; naive_solver. Qed.

Lemma ensure_err {E} (b : bool) (e e' : E) : ensure b e = Err e' ↔ b = false ∧ e = e'.
Proof. destruct b; naive_solver. Qed.

(** ** Methods on [&mut self]

    A method that changes its state and may fail: an error keeps the changes made
    before it.  Written with stdpp's notation, [x ← c; k]. *)

Definition method (S E A : Type) : Type := S → result A E * S.

Global Instance method_ret S E : MRet (method S E) := fun A a s => (Ok a, s).
Global Instance method_bind S E : MBind (method S E) := fun A B k c s =>
  match c s with
  | (Ok a, s') => k a s'
  | (Err e, s') => (Err e, s')
  end.

Definition self {S E} : method S E S := fun s => (Ok s, s).
Definition modify {S E} (f : S → S) : method S E unit := fun s => (Ok tt, f s).
Definition fail {S E A} (e : E) : method S E A := fun s => (Err e, s).
Definition require {S E} (b : bool) (e : E) : method S E unit :=
  if b then mret tt else fail e.
Definition lift {S E A} (r : result A E) : method S E A := fun s => (r, s).

(** A method of a field, run on the structure that contains it. *)
Definition on_field {S T E A} (get : S → T) (set : T → S → S) (m : method T E A)
    : method S E A := fun s =>
  let '(r, t) := m (get s) in (r, set t s).

Lemma bind_method_ok {S E A B} (c : method S E A) (k : A → method S E B) s b s' :
  (c ≫= k) s = (Ok b, s') ↔ ∃ a s1, c s = (Ok a, s1) ∧ k a s1 = (Ok b, s').
Proof.
  unfold mbind, method_bind. destruct (c s) as [[a|e] s1]; naive_solver.
Qed.

Lemma require_ok {S E} (b : bool) (e : E) (s s' : S) u :
  require b e s = (Ok u, s') ↔ b = true ∧ s' = s.
Proof.
  destruct u, b; unfold require, fail, mret, method_ret.
  - split; [by intros [= <-]|by intros [_ ->]].
  - split; [done|by intros [? _]].
Qed.

(** [keeps R m]: whatever [m] returns, an error included, its state change is in
    the preorder [R]. *)
Definition keeps {S E A} (R : relation S) (m : method S E A) : Prop :=
  ∀ s, R s (snd (m s)).

Section keeps.
Context {S E : Type} (R : relation S) `{!PreOrder R}.

Lemma keeps_ret {A} (a : A) : keeps R (mret a : method S E A).
Proof. intros s. reflexivity. Qed.
Lemma keeps_fail {A} (e : E) : keeps R (fail e : method S E A).
Proof. intros s. reflexivity. Qed.
Lemma keeps_self : keeps R (self : method S E S).
Proof. intros s. reflexivity. Qed.
Lemma keeps_require b (e : E) : keeps R (require b e).
Proof. intros s. destruct b; reflexivity. Qed.
Lemma keeps_lift {A} (r : result A E) : keeps R (lift r).
Proof. intros s. reflexivity. Qed.
Lemma keeps_modify (f : S → S) : (∀ s, R s (f s)) → keeps R (modify f : method S E unit).
Proof. intros H s. apply H. Qed.
Lemma keeps_bind {A B} (c : method S E A) (k : A → method S E B) :
  keeps R c → (∀ a, keeps R (k a)) → keeps R (c ≫= k).
Proof.
  intros Hc Hk s. unfold mbind, method_bind. specialize (Hc s).
  destruct (c s) as [[a|e] s']; [|done]. simpl in *. etransitivity; [done|apply Hk].
Qed.
Lemma keeps_if {A} (b : bool) (c d : method S E A) :
  keeps R c → keeps R d → keeps R (if b then c else d).
Proof. by destruct b. Qed.
Lemma keeps_on_field {T A} (get : S → T) (set : T → S → S) (m : method T E A) (Q : relation T) :
  keeps Q m → (∀ s t, Q (get s) t → R s (set t s)) → keeps R (on_field get set m).
Proof.
  intros Hm HR s. unfold on_field. specialize (Hm (get s)).
  destruct (m (get s)) as [r t]. by apply HR.
Qed.
End keeps.

(** Run a method and go on with its result, an error included. *)
Definition attempt {S E F A} (m : method S E A) : method S F (result A E) := fun s =>
  let '(r, s') := m s in (Ok r, s').

Lemma keeps_attempt {S E F A} (R : relation S) (m : method S E A) :
  keeps R m → keeps R (attempt (F := F) m).
Proof. intros Hm s. specialize (Hm s). unfold attempt. by destruct (m s). Qed.

(** [map_err] on the error of a method. *)
Definition map_error {S E F A} (f : E → F) (m : method S E A) : method S F A := fun s =>
  let '(r, s') := m s in (map_err f r, s').

(** [wp m Q X s]: from [s] the method returns [Ok a] in a state of [Q a] or fails
    with [e] in a state of [X e]. *)
Definition wp {S E A} (m : method S E A) (Q : A → S → Prop) (X : E → S → Prop) (s : S)
    : Prop :=
  match m s with (Ok a, s') => Q a s' | (Err e, s') => X e s' end.

Section wp.
Context {S E : Type}.
Implicit Types (s : S) (X : E → S → Prop).

Lemma wp_bind {A B} (c : method S E A) (k : A → method S E B) Q X s :
  wp c (fun a => wp (k a) Q X) X s → wp (c ≫= k) Q X s.
Proof. unfold wp, mbind, method_bind. by destruct (c s) as [[a|e] s']. Qed.

Lemma wp_ret {A} (a : A) (Q : A → S → Prop) X s : Q a s → wp (mret a) Q X s.
Proof. done. Qed.
Lemma wp_fail {A} (e : E) (Q : A → S → Prop) X s : X e s → wp (fail e) Q X s.
Proof. done. Qed.
Lemma wp_self (Q : S → S → Prop) X s : Q s s → wp self Q X s.
Proof. done. Qed.
Lemma wp_modify (f : S → S) (Q : unit → S → Prop) X s : Q tt (f s) → wp (modify f) Q X s.
Proof. done. Qed.

Lemma wp_require b (e : E) (Q : unit → S → Prop) X s :
  (b = true → Q tt s) → (b = false → X e s) → wp (require b e) Q X s.
Proof. unfold wp. destruct b; simpl; auto. Qed.

Lemma wp_lift {A} (r : result A E) (Q : A → S → Prop) X s :
  match r with Ok a => Q a s | Err e => X e s end → wp (lift r) Q X s.
Proof. by destruct r. Qed.

Lemma wp_attempt {F A} (m : method S F A) (Q : result A F → S → Prop) X s :
  wp m (fun a => Q (Ok a)) (fun e => Q (Err e)) s → wp (attempt m) Q X s.
Proof. unfold wp, attempt. by destruct (m s) as [[a|e] s']. Qed.

Lemma wp_map_error {F A} (f : F → E) (m : method S F A) (Q : A → S → Prop) X s :
  wp m Q (fun e => X (f e)) s → wp (map_error f m) Q X s.
Proof. unfold wp, map_error. by destruct (m s) as [[a|e] s']. Qed.

Lemma wp_on_field {T A} (get : S → T) (set : T → S → S) (m : method T E A)
    (Q : A → S → Prop) X s :
  wp m (fun a t => Q a (set t s)) (fun e t => X e (set t s)) (get s) →
  wp (on_field get set m) Q X s.
Proof. unfold wp, on_field. by destruct (m (get s)) as [[a|e] t]. Qed.

(** Whatever happens before an early return of an error, there is no result. *)
Lemma wp_then_fail {A B} (c : method S E A) (e : E) (Q : B → S → Prop) s :
  wp (c ≫= fun _ => fail e) Q (fun _ _ => True) s.
Proof. unfold wp, mbind, method_bind. by destruct (c s) as [[a|e'] s']. Qed.

Lemma wp_mono {A} (m : method S E A) (Q Q' : A → S → Prop) (X X' : E → S → Prop) s :
  wp m Q X s → (∀ a s', Q a s' → Q' a s') → (∀ e s', X e s' → X' e s') → wp m Q' X' s.
Proof. unfold wp. destruct (m s) as [[a|e] s']; auto. Qed.
End wp.

(** ** Machine integers

    A [u64] (or [u32], [u16], [u8], and [usize] on the 64-bit targets) is a [Z]
    in range.  [saturating_add] and [saturating_sub] are written out;
    [wrapping_succ] is [x + 1] under the default release profile. *)

Definition u8_max : Z := 255.
Definition u16_max : Z := 65535.
Definition u32_max : Z := 4294967295.
Definition u64_max : Z := 18446744073709551615.

Definition is_u8 (x : Z) : Prop := 0 ≤ x ≤ u8_max.
Definition is_u16 (x : Z) : Prop := 0 ≤ x ≤ u16_max.
Definition is_u32 (x : Z) : Prop := 0 ≤ x ≤ u32_max.
Definition is_u64 (x : Z) : Prop := 0 ≤ x ≤ u64_max.

Definition sat_add64 (a b : Z) : Z := Z.min (a + b) u64_max.
Definition sat_add32 (a b : Z) : Z := Z.min (a + b) u32_max.
Definition sat_sub (a b : Z) : Z := Z.max (a - b) 0.
Definition abs_diff (a b : Z) : Z := Z.abs (a - b).
Definition wrap64 (x : Z) : Z := x mod 2 ^ 64.

Lemma wrap64_small x : is_u64 x → wrap64 x = x.
Proof. unfold wrap64, is_u64, u64_max. intros. apply Z.mod_small. lia. Qed.

Lemma wrap64_range x : is_u64 (wrap64 x).
Proof. unfold wrap64, is_u64, u64_max. pose proof (Z.mod_pos_bound x (2 ^ 64)). lia. Qed.

Lemma sat_add64_range a b : is_u64 a → is_u64 b → is_u64 (sat_add64 a b).
Proof. unfold sat_add64, is_u64, u64_max. lia. Qed.

Lemma sat_add64_le a b : 0 ≤ b → is_u64 a → a ≤ sat_add64 a b.
Proof. unfold sat_add64, is_u64. lia. Qed.

(** [Duration::as_millis] cut at [u64::MAX]; a [Duration] is its nanoseconds. *)
Definition duration_millis (nanos : Z) : Z := Z.min (nanos / 1000000) u64_max.

(** ** Options *)

Definition is_some_and {A} (o : option A) (p : A → bool) : bool :=
  match o with Some a => p a | None => false end.
Definition is_none_or {A} (o : option A) (p : A → bool) : bool :=
  match o with Some a => p a | None => true end.
Definition is_some {A} (o : option A) : bool :=
  match o with Some _ => true | None => false end.
Definition is_none {A} (o : option A) : bool :=
  match o with Some _ => false | None => true end.

(** ** Lists *)

(** [iter().find(p)] and [iter().rev().find(p)]. *)
Fixpoint find_first {A} (p : A → bool) (l : list A) : option A :=
  match l with
  | [] => None
  | x :: l => if p x then Some x else find_first p l
  end.

Definition find_last {A} (p : A → bool) (l : list A) : option A :=
  find_first p (reverse l).

Lemma find_first_Some {A} (p : A → bool) l x :
  find_first p l = Some x → x ∈ l ∧ p x = true.
Proof.
  induction l as [|y l IH]; simpl; [done|].
  destruct (p y) eqn:E; intros; simplify_eq.
  - split; [left|done].
  - destruct IH; [done|]. split; [by right|done].
Qed.

Lemma find_first_None {A} (p : A → bool) l :
  find_first p l = None ↔ ∀ x, x ∈ l → p x = false.
Proof.
  induction l as [|y l IH]; simpl.
  - split; [|done]. intros _ x Hx. by apply not_elem_of_nil in Hx.
  - setoid_rewrite elem_of_cons. destruct (p y) eqn:E; naive_solver congruence.
Qed.

Lemma find_last_Some {A} (p : A → bool) l x :
  find_last p l = Some x → x ∈ l ∧ p x = true.
Proof. unfold find_last. intros [H ?]%find_first_Some. by rewrite elem_of_reverse in H. Qed.

Lemma find_last_None {A} (p : A → bool) l :
  find_last p l = None ↔ ∀ x, x ∈ l → p x = false.
Proof. unfold find_last. rewrite find_first_None. by setoid_rewrite elem_of_reverse. Qed.

(** ** Addresses

    [std::net::IpAddr]: the 32 or 128 bits of the address as a number. *)

Module IpAddr.

Inductive IpAddr := V4 (octets : Z) | V6 (octets : Z).

End IpAddr.
Notation IpAddr := IpAddr.IpAddr.

(** [IpAddr::is_loopback]: 127.0.0.0/8 and ::1. *)
Definition is_loopback (ip : IpAddr) : bool :=
  match ip with
  | IpAddr.V4 o => o / 2 ^ 24 =? 127
  | IpAddr.V6 o => o =? 1
  end.
Definition localhost : IpAddr := IpAddr.V4 (127 * 2 ^ 24 + 1).

Global Instance IpAddr_eq_dec : EqDecision IpAddr.
Proof. solve_decision. Defined.

(** ** Automation *)

Create HintDb rust.

#[export] Hint Resolve wrap64_range sat_add64_range : rust.

#[export] Hint Resolve keeps_ret keeps_fail keeps_self keeps_require keeps_lift
  keeps_bind keeps_if : rust.

(** [method_inv]: take apart the hypotheses that say a method returned [Ok]. *)
Ltac method_inv :=
  repeat match goal with
  | H : mbind _ _ _ = (Ok _, _) |- _ => apply bind_method_ok in H as (? & ? & ? & ?)
  | H : require _ _ _ = (Ok _, _) |- _ => apply require_ok in H as [? ->]
  | H : fail _ _ = (Ok _, _) |- _ => discriminate H
  | H : self _ = (Ok _, _) |- _ => injection H as <- <-
  | H : mret _ _ = (Ok _, _) |- _ => injection H as <- <-
  | H : modify _ _ = (Ok _, _) |- _ => injection H as <- <-
  | H : lift _ _ = (Ok _, _) |- _ => injection H as ? <-
  end.

Ltac unfold_method :=
  unfold require, self, modify, fail, lift, mbind, method_bind, mret, method_ret.

(** [wp_use H]: the rest of a [wp] goal after the method [H] specifies. *)
Ltac wp_use H := eapply wp_mono; [eapply H|cbv beta|cbv beta].

(** [inv H]: inversion with substitution. *)
Ltac inv H := inversion H; subst; clear H.

(** [split_match]: case analysis on the scrutinee of a match in the goal or a
    hypothesis, closing contradictory branches. *)
Ltac split_match :=
  match goal with
  | |- context [match ?x with _ => _ end] => destruct x eqn:?; simplify_eq/=
  | H : context [match ?x with _ => _ end] |- _ => destruct x eqn:?; simplify_eq/=
  end.

(** [bool_to_prop]: turn boolean tests of the code into propositions. *)
Ltac bool_to_prop :=
  repeat match goal with
  | H : (_ && _)%bool = true |- _ => apply andb_true_iff in H as [? ?]
  | H : (_ || _)%bool = false |- _ => apply orb_false_iff in H as [? ?]
  | H : negb _ = true |- _ => apply negb_true_iff in H
  | H : negb _ = false |- _ => apply negb_false_iff in H
  | H : bool_decide _ = true |- _ => apply bool_decide_eq_true in H
  | H : bool_decide _ = false |- _ => apply bool_decide_eq_false in H
  | H : (_ =? _)%Z = true |- _ => apply Z.eqb_eq in H
  | H : (_ =? _)%Z = false |- _ => apply Z.eqb_neq in H
  | H : (_ <? _)%Z = true |- _ => apply Z.ltb_lt in H
  | H : (_ <? _)%Z = false |- _ => apply Z.ltb_ge in H
  | H : (_ <=? _)%Z = true |- _ => apply Z.leb_le in H
  | H : (_ <=? _)%Z = false |- _ => apply Z.leb_gt in H
  end.
