(* ===== verification/Target.v ===== *)
(** * Request routing: [src/src/target.rs]

    The vocabulary of the cluster state machine (role, stable mode, state, proxy
    target) and [resolve_target], the pure function that decides where the proxy
    sends a request.  The theorems about it that need reachability live in
    [ClusterFsm]; here is its complete case analysis. *)

From S2P Require Import Prelude.

(** ** Data *)

Module LocalRole.

(** src/src/target.rs:1-6 (LocalRole) *)
Inductive LocalRole := Coordinator | Worker | Unknown.

End LocalRole.
Notation LocalRole := LocalRole.LocalRole.

Module StableMode.

(** src/src/target.rs:18-24 (StableMode) *)
Inductive StableMode :=
| SoloStandalone
| PairedStandalone
| DistributedLayerParallel
| DistributedTensorParallel.

End StableMode.
Notation StableMode := StableMode.StableMode.

Module ClusterState.

(** src/src/target.rs:37-61 (ClusterState) *)
Inductive ClusterState :=
| Booting
| SoloStandaloneStarting
| SoloStandaloneReady
| Pairing
| PairedStandaloneReady
| AwaitingWorkerHello
| Promoting
| DistributedStarting
| DistributedReady
| Demoting
| Backoff
| ManualInterventionRequired
| TensorParallelStarting
| AwaitingTensorParallelWorkerHello
| TensorParallelReady
| DemotingTensorParallel
| TensorParallelBackoff.

End ClusterState.
Notation ClusterState := ClusterState.ClusterState.

Module UnavailableReason.

(** src/src/target.rs:96-101 (UnavailableReason) *)
Inductive UnavailableReason :=
| Transition
| InconsistentStableState
| UnknownRoleWithoutLocalStandalone.

End UnavailableReason.
Notation UnavailableReason := UnavailableReason.UnavailableReason.

Module ProxyTarget.

(** src/src/target.rs:89-94 (ProxyTarget) *)
Inductive ProxyTarget :=
| LocalStandalone
| Coordinator
| Unavailable (reason : UnavailableReason).

End ProxyTarget.
Notation ProxyTarget := ProxyTarget.ProxyTarget.

Global Instance LocalRole_eq_dec : EqDecision LocalRole.
Proof. solve_decision. Defined.
Global Instance StableMode_eq_dec : EqDecision StableMode.
Proof. solve_decision. Defined.
Global Instance ClusterState_eq_dec : EqDecision ClusterState.
Proof. solve_decision. Defined.
Global Instance UnavailableReason_eq_dec : EqDecision UnavailableReason.
Proof. solve_decision. Defined.
Global Instance ProxyTarget_eq_dec : EqDecision ProxyTarget.
Proof. solve_decision. Defined.

(** ** Names

    The strings of the diagnostics and of the persisted state. *)

(** src/src/target.rs:8-16 (LocalRole::name) *)
Definition LocalRole_name (self : LocalRole) : string :=
  match self with
  | LocalRole.Coordinator => "coordinator"
  | LocalRole.Worker => "worker"
  | LocalRole.Unknown => "unknown"
  end.

(** src/src/target.rs:26-35 (StableMode::name) *)
Definition StableMode_name (self : StableMode) : string :=
  match self with
  | StableMode.SoloStandalone => "solo-standalone"
  | StableMode.PairedStandalone => "paired-standalone"
  | StableMode.DistributedLayerParallel => "distributed-layer-parallel"
  | StableMode.DistributedTensorParallel => "distributed-tensor-parallel"
  end.

(** src/src/target.rs:63-87 (ClusterState::name) *)
Definition ClusterState_name (self : ClusterState) : string :=
  match self with
  | ClusterState.Booting => "booting"
  | ClusterState.SoloStandaloneStarting => "solo-standalone-starting"
  | ClusterState.SoloStandaloneReady => "solo-standalone-ready"
  | ClusterState.Pairing => "pairing"
  | ClusterState.PairedStandaloneReady => "paired-standalone-ready"
  | ClusterState.AwaitingWorkerHello => "awaiting-worker-hello"
  | ClusterState.Promoting => "promoting"
  | ClusterState.DistributedStarting => "distributed-starting"
  | ClusterState.DistributedReady => "distributed-ready"
  | ClusterState.Demoting => "demoting"
  | ClusterState.Backoff => "backoff"
  | ClusterState.ManualInterventionRequired => "manual-intervention-required"
  | ClusterState.TensorParallelStarting => "tensor-parallel-starting"
  | ClusterState.AwaitingTensorParallelWorkerHello =>
      "awaiting-tensor-parallel-worker-hello"
  | ClusterState.TensorParallelReady => "tensor-parallel-ready"
  | ClusterState.DemotingTensorParallel => "demoting-tensor-parallel"
  | ClusterState.TensorParallelBackoff => "tensor-parallel-backoff"
  end.

(** ** The routing decision *)

(** src/src/target.rs:103-189 (resolve_target) *)
Definition resolve_target (role : LocalRole) (stable_mode : StableMode)
    (state : ClusterState) (local_standalone_ready : bool) : ProxyTarget :=
  if bool_decide (state = ClusterState.ManualInterventionRequired)
     && local_standalone_ready
  then ProxyTarget.LocalStandalone
  else if bool_decide (state = ClusterState.Backoff) then
    match stable_mode, role, local_standalone_ready with
    | StableMode.SoloStandalone, _, true
    | StableMode.PairedStandalone, LocalRole.Coordinator, true =>
        ProxyTarget.LocalStandalone
    | StableMode.PairedStandalone, LocalRole.Worker, _ => ProxyTarget.Coordinator
    | _, _, _ => ProxyTarget.Unavailable UnavailableReason.Transition
    end
  else if negb match state with
               | ClusterState.SoloStandaloneReady
               | ClusterState.PairedStandaloneReady
               | ClusterState.DistributedReady
               | ClusterState.TensorParallelReady => true
               | _ => false
               end
  then ProxyTarget.Unavailable UnavailableReason.Transition
  else if bool_decide (role = LocalRole.Unknown) then
    if local_standalone_ready then ProxyTarget.LocalStandalone
    else ProxyTarget.Unavailable UnavailableReason.UnknownRoleWithoutLocalStandalone
  else
    match stable_mode, state, role with
    | StableMode.SoloStandalone, ClusterState.SoloStandaloneReady,
      (LocalRole.Coordinator | LocalRole.Worker) => ProxyTarget.LocalStandalone
    | StableMode.PairedStandalone, ClusterState.PairedStandaloneReady,
      LocalRole.Coordinator => ProxyTarget.LocalStandalone
    | StableMode.PairedStandalone, ClusterState.PairedStandaloneReady,
      LocalRole.Worker => ProxyTarget.Coordinator
    | StableMode.DistributedLayerParallel, ClusterState.DistributedReady,
      LocalRole.Coordinator => ProxyTarget.LocalStandalone
    | StableMode.DistributedLayerParallel, ClusterState.DistributedReady,
      LocalRole.Worker => ProxyTarget.Coordinator
    | StableMode.DistributedTensorParallel, ClusterState.TensorParallelReady,
      LocalRole.Coordinator => ProxyTarget.LocalStandalone
    | StableMode.DistributedTensorParallel, ClusterState.TensorParallelReady,
      LocalRole.Worker => ProxyTarget.Coordinator
    | _, ClusterState.SoloStandaloneReady, _
    | _, ClusterState.PairedStandaloneReady, _
    | _, ClusterState.DistributedReady, _
    | _, ClusterState.TensorParallelReady, _ =>
        ProxyTarget.Unavailable UnavailableReason.InconsistentStableState
    | _, _, _ => ProxyTarget.Unavailable UnavailableReason.Transition
    end.

(** The four states in which a stable mode is being served. *)
Definition ready_state (s : ClusterState) : bool :=
  match s with
  | ClusterState.SoloStandaloneReady | ClusterState.PairedStandaloneReady
  | ClusterState.DistributedReady | ClusterState.TensorParallelReady => true
  | _ => false
  end.

(** ** Facts shared by the clients of [resolve_target] *)

(** No target is available in a transitional state. *)
Lemma resolve_target_transition role mode state ready :
  ready_state state = false →
  state ≠ ClusterState.Backoff →
  state ≠ ClusterState.ManualInterventionRequired →
  resolve_target role mode state ready = ProxyTarget.Unavailable UnavailableReason.Transition.
Proof. by destruct state. Qed.

(** Only a worker is ever sent to the coordinator. *)
Lemma resolve_target_coordinator role mode state ready :
  resolve_target role mode state ready = ProxyTarget.Coordinator → role = LocalRole.Worker.
Proof. by destruct role, mode, state, ready. Qed.

(** A node of unknown role is served locally, and only when its child is ready. *)
Lemma resolve_target_unknown mode state ready :
  resolve_target LocalRole.Unknown mode state ready = ProxyTarget.LocalStandalone →
  ready = true.
Proof. by destruct mode, state, ready. Qed.

#[export] Hint Resolve resolve_target_transition : rust.
