(* ===== verification/Operation.v ===== *)
(** * Lifecycle operations: [src/src/cluster/operation.rs], [src/src/cluster/policy.rs]

    The newtypes shared by the control plane, and [OperationLease]: the lock that
    lets a single promotion, demotion, restart, recovery, activation or policy
    operation run at a time, with the registry that makes job submission
    idempotent.  [try_acquire] reads an atomic flag and then takes a mutex, so it
    is modelled as two atomic steps of a small concurrent system ([step] below);
    every other method is one critical section and one step. *)

From S2P Require Import Prelude.

(** ** Data *)

(** src/src/cluster/operation.rs:17-18 (OperationId) *)
Record OperationId := mkOperationId { operation_uuid : Z }.

(** src/src/cluster/operation.rs:26-27 (TpSessionId) *)
Record TpSessionId := mkTpSessionId { tp_session_number : Z }.

(** src/src/cluster/operation.rs:21-22 (PolicyEpoch) *)
Record PolicyEpoch := mkPolicyEpoch { policy_epoch_number : Z }.

Module OperationPolicy.

(** src/src/cluster/policy.rs:7-17 (OperationPolicy) *)
Inductive OperationPolicy := Automatic | ForcedStandalone.

End OperationPolicy.
Notation OperationPolicy := OperationPolicy.OperationPolicy.

Module OperationKind.

(** src/src/cluster/operation.rs:31-39 (OperationKind) *)
Inductive OperationKind :=
| Promotion | Demotion | Restart | Recovery | Activation | Policy.

End OperationKind.
Notation OperationKind := OperationKind.OperationKind.

Module IdempotencyOutcome.

(** src/src/cluster/operation.rs:54-63 (IdempotencyOutcome) *)
Inductive IdempotencyOutcome := New | Existing | Conflict.

End IdempotencyOutcome.
Notation IdempotencyOutcome := IdempotencyOutcome.IdempotencyOutcome.

Module OperationLeaseError.

(** src/src/cluster/operation.rs:183-189 (OperationLeaseError) *)
Inductive OperationLeaseError :=
| Busy (kind : OperationKind)
| PromotionBlocked.

End OperationLeaseError.
Notation OperationLeaseError := OperationLeaseError.OperationLeaseError.

Global Instance OperationId_eq_dec : EqDecision OperationId.
Proof. solve_decision. Defined.
Global Instance OperationId_countable : Countable OperationId.
Proof. refine (inj_countable' operation_uuid mkOperationId _). by intros []. Defined.
Global Instance TpSessionId_eq_dec : EqDecision TpSessionId.
Proof. solve_decision. Defined.
Global Instance OperationPolicy_eq_dec : EqDecision OperationPolicy.
Proof. solve_decision. Defined.
Global Instance OperationKind_eq_dec : EqDecision OperationKind.
Proof. solve_decision. Defined.
Global Instance OperationKind_countable : Countable OperationKind.
Proof.
  refine (inj_countable'
    (fun k => match k with
     | OperationKind.Promotion => 0 | OperationKind.Demotion => 1
     | OperationKind.Restart => 2 | OperationKind.Recovery => 3
     | OperationKind.Activation => 4 | OperationKind.Policy => 5 end)
    (fun n => match n with
     | 0 => OperationKind.Promotion | 1 => OperationKind.Demotion
     | 2 => OperationKind.Restart | 3 => OperationKind.Recovery
     | 4 => OperationKind.Activation | _ => OperationKind.Policy end) _).
  by intros [].
Defined.
Global Instance OperationLeaseError_eq_dec : EqDecision OperationLeaseError.
Proof. solve_decision. Defined.

(** src/src/cluster/operation.rs:41-52 (OperationKind::name) *)
Definition OperationKind_name (self : OperationKind) : string :=
  match self with
  | OperationKind.Promotion => "promotion"
  | OperationKind.Demotion => "demotion"
  | OperationKind.Restart => "restart"
  | OperationKind.Recovery => "recovery"
  | OperationKind.Activation => "activation"
  | OperationKind.Policy => "policy"
  end.

(** src/src/cluster/operation.rs:65-70 (OperationEnvelope) *)
Record OperationEnvelope := mkEnvelope {
  envelope_id : OperationId;
  envelope_body_hash : Z;
}.

(** src/src/cluster/operation.rs:76-85 (OperationLease) *)
Record OperationLease := mkLease {
  owners : gmap OperationKind OperationId;
  idempotency : gmap OperationId Z;
  promotion_blocked : bool;
}.

(** ** Operations *)

(** src/src/cluster/operation.rs:94-100 (OperationLease::new) *)
Definition lease_new : OperationLease := mkLease ∅ ∅ false.

(** src/src/cluster/operation.rs:103-116 (OperationLease::register_idempotent) *)
Definition register_idempotent (envelope : OperationEnvelope) (self : OperationLease)
    : IdempotencyOutcome * OperationLease :=
  match idempotency self !! envelope_id envelope with
  | Some existing =>
      if existing =? envelope_body_hash envelope
      then (IdempotencyOutcome.Existing, self)
      else (IdempotencyOutcome.Conflict, self)
  | None =>
      (IdempotencyOutcome.New,
       mkLease (owners self)
         (<[envelope_id envelope := envelope_body_hash envelope]> (idempotency self))
         (promotion_blocked self))
  end.

(** src/src/cluster/operation.rs:119-124 (OperationLease::release_idempotent) *)
Definition release_idempotent (id : OperationId) (self : OperationLease) : OperationLease :=
  mkLease (owners self) (delete id (idempotency self)) (promotion_blocked self).

(** The first half of [try_acquire], before the mutex is taken.
    src/src/cluster/operation.rs:128-135 (OperationLease::try_acquire) *)
Definition try_acquire_check (kind : OperationKind) (self : OperationLease)
    : result unit OperationLeaseError :=
  if bool_decide (kind = OperationKind.Promotion) && promotion_blocked self
  then Err OperationLeaseError.PromotionBlocked
  else Ok tt.

(** The second half, under the mutex; [owners.keys().next()] is some key of the
    map, if there is one.
    src/src/cluster/operation.rs:136-145 (OperationLease::try_acquire) *)
Definition try_acquire_commit (kind : OperationKind) (id : OperationId)
    (self : OperationLease) : result OperationLease OperationLeaseError :=
  match map_to_list (owners self) with
  | (active_kind, _) :: _ => Err (OperationLeaseError.Busy active_kind)
  | [] => Ok (mkLease (<[kind := id]> (owners self)) (idempotency self)
                (promotion_blocked self))
  end.

(** The two halves run without interference.
    src/src/cluster/operation.rs:128-145 (OperationLease::try_acquire) *)
Definition try_acquire (kind : OperationKind) (id : OperationId) (self : OperationLease)
    : result OperationLease OperationLeaseError :=
  result_bind (try_acquire_check kind self) (fun _ => try_acquire_commit kind id self).

(** src/src/cluster/operation.rs:148-156 (OperationLease::release) *)
Definition release (kind : OperationKind) (id : OperationId) (self : OperationLease)
    : OperationLease :=
  if bool_decide (owners self !! kind = Some id)
  then mkLease (delete kind (owners self)) (idempotency self) (promotion_blocked self)
  else self.

(** src/src/cluster/operation.rs:159-165 (OperationLease::owner) *)
Definition owner (kind : OperationKind) (self : OperationLease) : option OperationId :=
  owners self !! kind.

(** src/src/cluster/operation.rs:168-170 (OperationLease::block_promotion) *)
Definition block_promotion (self : OperationLease) : OperationLease :=
  mkLease (owners self) (idempotency self) true.

(** src/src/cluster/operation.rs:173-175 (OperationLease::unblock_promotion) *)
Definition unblock_promotion (self : OperationLease) : OperationLease :=
  mkLease (owners self) (idempotency self) false.

(** src/src/cluster/operation.rs:178-180 (OperationLease::promotion_allowed) *)
Definition promotion_allowed (self : OperationLease) : bool :=
  negb (promotion_blocked self).

(** ** The concurrent system

    Each caller is a thread: idle, or inside [try_acquire] between the flag test
    and the mutex.  [held] is the history variable of the leases granted and not
    yet given back by their owner. *)

Record Sys := mkSys {
  lease : OperationLease;
  pending : gmap nat (OperationKind * OperationId);
  held : list (OperationKind * OperationId);
}.

Definition sys_init : Sys := mkSys lease_new ∅ [].

Inductive step : Sys → Sys → Prop :=
| step_check_pass s t kind id :
    pending s !! t = None →
    try_acquire_check kind (lease s) = Ok tt →
    step s (mkSys (lease s) (<[t := (kind, id)]> (pending s)) (held s))
| step_check_fail s kind e :
    try_acquire_check kind (lease s) = Err e →
    step s s
| step_commit_ok s t kind id l :
    pending s !! t = Some (kind, id) →
    try_acquire_commit kind id (lease s) = Ok l →
    step s (mkSys l (delete t (pending s)) ((kind, id) :: held s))
| step_commit_busy s t kind id e :
    pending s !! t = Some (kind, id) →
    try_acquire_commit kind id (lease s) = Err e →
    step s (mkSys (lease s) (delete t (pending s)) (held s))
| step_release s kind id :
    step s (mkSys (release kind id (lease s)) (pending s)
              (filter (fun h => h ≠ (kind, id)) (held s)))
| step_register s env :
    step s (mkSys (snd (register_idempotent env (lease s))) (pending s) (held s))
| step_unregister s id :
    step s (mkSys (release_idempotent id (lease s)) (pending s) (held s))
| step_block s :
    step s (mkSys (block_promotion (lease s)) (pending s) (held s))
| step_unblock s :
    step s (mkSys (unblock_promotion (lease s)) (pending s) (held s)).

Definition reachable_sys : Sys → Prop := rtc step sys_init.

(** The invariant: the owner map is exactly the grants still held, and there is
    at most one. *)
Definition lease_inv (s : Sys) : Prop :=
  match held s with
  | [] => owners (lease s) = ∅
  | [(kind, id)] => owners (lease s) = {[kind := id]}
  | _ => False
  end.

(** ** Lemmas *)

Lemma try_acquire_commit_ok kind id l l' :
  try_acquire_commit kind id l = Ok l' →
  owners l = ∅ ∧ owners l' = {[kind := id]} ∧
  idempotency l' = idempotency l ∧ promotion_blocked l' = promotion_blocked l.
Proof.
  unfold try_acquire_commit. destruct (map_to_list (owners l)) as [|[]] eqn:E; [|done].
  apply map_to_list_empty_iff in E. intros [= <-]; simpl. by rewrite E, insert_empty.
Qed.

Lemma register_idempotent_owners env l :
  owners (snd (register_idempotent env l)) = owners l.
Proof. unfold register_idempotent. by repeat case_match. Qed.

Lemma lease_inv_owner s k i :
  lease_inv s → owners (lease s) !! k = Some i → held s = [(k, i)].
Proof.
  unfold lease_inv. destruct (held s) as [|[k' i'] [|]]; [intros ->|intros ->|done].
  - by rewrite lookup_empty.
  - by intros [-> ->]%lookup_singleton_Some.
Qed.

Lemma lease_inv_release s kind id :
  lease_inv s →
  lease_inv (mkSys (release kind id (lease s)) (pending s)
               (filter (fun h => h ≠ (kind, id)) (held s))).
Proof.
  intros H. unfold release. case_bool_decide as E.
  - pose proof (lease_inv_owner _ _ _ H E) as Hh.
    unfold lease_inv in *. cbn [held lease owners] in *. rewrite Hh in *.
    rewrite filter_cons_False by tauto. simpl. rewrite H. by rewrite delete_singleton_eq.
  - unfold lease_inv in *. cbn [held lease].
    destruct (held s) as [|[k i] [|]]; [done| |done].
    rewrite filter_cons_True; [done|].
    intros [= -> ->]. apply E. by rewrite H, lookup_singleton_eq.
Qed.

Lemma lease_inv_step s s' : lease_inv s → step s s' → lease_inv s'.
Proof.
  intros H Hs. destruct Hs; try done.
  - apply try_acquire_commit_ok in H1 as (E & E' & _).
    unfold lease_inv in *. simpl. destruct (held s) as [|[k i] [|]]; [by rewrite E'| |done].
    exfalso. rewrite E in H. apply (f_equal (lookup k)) in H.
    by rewrite lookup_empty, lookup_singleton_eq in H.
  - by apply lease_inv_release.
  - unfold lease_inv in *. simpl. by rewrite register_idempotent_owners.
Qed.

Lemma lease_inv_reachable s : reachable_sys s → lease_inv s.
Proof.
  intros H. refine (rtc_ind_r lease_inv _ _ _ _ H); [done|].
  intros. by eapply lease_inv_step.
Qed.

(** ** Properties *)

(** C8: under every interleaving of [try_acquire] (its flag test and its critical
    section as separate steps), [release], the idempotency registry and the
    promotion flag, at most one lifecycle operation of any kind holds the lease,
    and the owner map names exactly the operation that was granted and has not
    released it. *)
Theorem operation_lease_exclusive (s : Sys) :
  reachable_sys s →
  (length (held s) ≤ 1)%nat ∧
  (∀ kind id, owner kind (lease s) = Some id ↔ (kind, id) ∈ held s).
Proof.
  intros H%lease_inv_reachable. pose proof (lease_inv_owner s) as Ho.
  unfold owner. split.
  - unfold lease_inv in H. destruct (held s) as [|[] [|]]; simpl in *; [lia|lia|done].
  - intros k i. split.
    + intros E. rewrite (Ho _ _ H E). by left.
    + unfold lease_inv in H. destruct (held s) as [|[k' i'] [|]]; [| |done].
      * by intros ?%not_elem_of_nil.
      * intros ?%list_elem_of_singleton. simplify_eq. by rewrite H, lookup_singleton_eq.
Qed.

(** A run with a granted demotion and a promotion waiting at the mutex. *)
Definition sys_demo : Sys :=
  let id1 := mkOperationId 1 in
  mkSys (mkLease {[OperationKind.Demotion := id1]} ∅ false)
    {[2%nat := (OperationKind.Promotion, mkOperationId 2)]}
    [(OperationKind.Demotion, id1)].

Lemma sys_demo_reachable : reachable_sys sys_demo.
Proof.
  unfold reachable_sys.
  eapply rtc_l; [by apply (step_check_pass _ 1%nat OperationKind.Demotion (mkOperationId 1))|].
  eapply rtc_l; [by apply (step_check_pass _ 2%nat OperationKind.Promotion (mkOperationId 2))|].
  eapply rtc_l; [by apply (step_commit_ok _ 1%nat OperationKind.Demotion (mkOperationId 1))|].
  apply rtc_refl.
Defined.

Lemma operation_lease_exclusive_witness :
  reachable_sys sys_demo ∧
  owner OperationKind.Demotion (lease sys_demo) = Some (mkOperationId 1).
Proof.
  split; [exact sys_demo_reachable|].
  apply (proj2 (operation_lease_exclusive sys_demo sys_demo_reachable)). left.
Defined.

(** ** Idempotent submission *)

Inductive RegistryOp :=
| OpRegister (env : OperationEnvelope)
| OpUnregister (id : OperationId).

Definition registry_step (l : OperationLease) (op : RegistryOp) : OperationLease :=
  match op with
  | OpRegister env => snd (register_idempotent env l)
  | OpUnregister id => release_idempotent id l
  end.

Lemma registry_keeps ops : ∀ (l : OperationLease) id h,
  idempotency l !! id = Some h →
  OpUnregister id ∉ ops →
  idempotency (foldl registry_step l ops) !! id = Some h.
Proof.
  induction ops as [|op ops IH]; intros l id h H Hn; simpl; [done|].
  apply not_elem_of_cons in Hn as [Hne Hn]. apply IH; [|done].
  destruct op as [env|id']; simpl.
  - unfold register_idempotent.
    destruct (idempotency l !! envelope_id env) eqn:E; [by case_match|].
    simpl. rewrite lookup_insert_ne; [done|]. congruence.
  - rewrite lookup_delete_ne; congruence.
Qed.

(** Idempotent job submission.  Whatever other submissions and completions
    happen in between, once a job id has been accepted as [New], resubmitting it
    answers [Existing] exactly when the body hash is the accepted one and
    [Conflict] otherwise, and does not change the registry, until that job is
    released. *)
Lemma resubmission_is_idempotent (l : OperationLease) env ops env' :
  fst (register_idempotent env l) = IdempotencyOutcome.New →
  OpUnregister (envelope_id env) ∉ ops →
  envelope_id env' = envelope_id env →
  register_idempotent env' (foldl registry_step (snd (register_idempotent env l)) ops) =
    (if envelope_body_hash env =? envelope_body_hash env'
     then IdempotencyOutcome.Existing else IdempotencyOutcome.Conflict,
     foldl registry_step (snd (register_idempotent env l)) ops).
Proof.
  intros Hnew Hn Hid.
  assert (idempotency (snd (register_idempotent env l)) !! envelope_id env
          = Some (envelope_body_hash env)) as H0.
  { revert Hnew. unfold register_idempotent.
    repeat case_match; simpl; [done|done|]. by rewrite lookup_insert_eq. }
  pose proof (registry_keeps ops _ _ _ H0 Hn) as H.
  unfold register_idempotent at 1. rewrite Hid, H. by case_match.
Qed.

Lemma resubmission_is_idempotent_witness :
  let e n h := mkEnvelope (mkOperationId n) h in
  let l := snd (register_idempotent (e 7 100) lease_new) in
  let ops := [OpRegister (e 8 3); OpUnregister (mkOperationId 8)] in
  register_idempotent (e 7 200) (foldl registry_step l ops) =
    (IdempotencyOutcome.Conflict, foldl registry_step l ops).
Proof.
  intros e l ops.
  apply (resubmission_is_idempotent lease_new (e 7 100) ops (e 7 200)); [done| |done].
  intros [H|[H|H%not_elem_of_nil]%elem_of_cons]%elem_of_cons; done.
Defined.
