(* ===== verification/Tp.v ===== *)
(** * Tensor-parallel session readiness: [src/src/cluster/tp.rs]

    The readiness flags of a TP session, kept inside the cluster snapshot. *)

From S2P Require Import Prelude Operation.

(** src/src/cluster/tp.rs:19-30 (TpReadiness) *)
Record TpReadiness := mkTpReadiness {
  worker_prepared : bool;
  coordinator_started : bool;
  handshake_http_ready : bool;
  warmup_done : bool;
}.

Module TpReadinessEvent.

(** src/src/cluster/tp.rs:58-65 (TpReadinessEvent) *)
Inductive TpReadinessEvent :=
| WorkerPrepared | CoordinatorStarted | HandshakeHttpReady | WarmupDone.

End TpReadinessEvent.
Notation TpReadinessEvent := TpReadinessEvent.TpReadinessEvent.

(** src/src/cluster/tp.rs:67-74 (TpSessionState) *)
Record TpSessionState := mkTpSessionState {
  session : TpSessionId;
  readiness : TpReadiness;
}.

Global Instance TpReadiness_eq_dec : EqDecision TpReadiness.
Proof. solve_decision. Defined.
Global Instance TpSessionState_eq_dec : EqDecision TpSessionState.
Proof. solve_decision. Defined.

(** src/src/cluster/tp.rs:33-35 (TpReadiness::new) *)
Definition TpReadiness_new : TpReadiness := mkTpReadiness false false false false.

(** src/src/cluster/tp.rs:38-43 (TpReadiness::is_complete) *)
Definition is_complete (self : TpReadiness) : bool :=
  worker_prepared self && coordinator_started self
  && handshake_http_ready self && warmup_done self.

(** src/src/cluster/tp.rs:46-55 (TpReadiness::with) *)
Definition TpReadiness_with (self : TpReadiness) (event : TpReadinessEvent) : TpReadiness :=
  let '(mkTpReadiness w c h d) := self in
  match event with
  | TpReadinessEvent.WorkerPrepared => mkTpReadiness true c h d
  | TpReadinessEvent.CoordinatorStarted => mkTpReadiness w true h d
  | TpReadinessEvent.HandshakeHttpReady => mkTpReadiness w c true d
  | TpReadinessEvent.WarmupDone => mkTpReadiness w c h true
  end.

(** src/src/cluster/tp.rs:77-82 (TpSessionState::new) *)
Definition TpSessionState_new (s : TpSessionId) : TpSessionState :=
  mkTpSessionState s TpReadiness_new.

(** src/src/cluster/tp.rs:85-87 (TpSessionState::route_ready) *)
Definition route_ready (self : TpSessionState) : bool := is_complete (readiness self).

(** src/src/cluster/tp.rs:93-101 (TpSessionState::apply_event) *)
Definition apply_event (self : TpSessionState) (s : TpSessionId) (event : TpReadinessEvent)
    : option TpSessionState :=
  if negb (bool_decide (session self = s)) then None
  else Some (mkTpSessionState s (TpReadiness_with (readiness self) event)).

(** The readiness order: a flag that is up stays up. *)
Definition readiness_le (a b : TpReadiness) : Prop :=
  (worker_prepared a → worker_prepared b) ∧
  (coordinator_started a → coordinator_started b) ∧
  (handshake_http_ready a → handshake_http_ready b) ∧
  (warmup_done a → warmup_done b).

Global Instance readiness_le_preorder : PreOrder readiness_le.
Proof. split; unfold readiness_le; intros ?; intros; naive_solver. Qed.

Lemma TpReadiness_with_le r e : readiness_le r (TpReadiness_with r e).
Proof. by destruct r as [[] [] [] []], e. Qed.

Lemma apply_event_same_session t s e t' :
  apply_event t s e = Some t' → session t' = session t ∧ s = session t.
Proof. unfold apply_event. case_bool_decide; naive_solver. Qed.

#[export] Hint Resolve TpReadiness_with_le : rust.
