(* ===== verification/ClusterFsm.v ===== *)
(** * The cluster state machine: [src/src/cluster/state.rs]

    [transition] is the reducer that every lifecycle operation drives through
    [ClusterHandle::apply]; [machine_run] is the single-writer task of
    [spawn_state_machine] processing its command queue.  [generation + 1] is the
    wrap-around addition of a release build; the theorems that need it say that
    the counter has not reached its maximum. *)

From S2P Require Import Prelude Target Operation Tp.

(** ** Data *)

Module ClusterEventKind.

(** src/src/cluster/state.rs:58-89 (ClusterEventKind) *)
Inductive ClusterEventKind :=
| BeginSoloStandalone
| LocalStandaloneReady
| LocalStandaloneLost
| BeginPairing
| PairingReady
| WorkerHelloAccepted
| BeginPromotion
| DistributedChildStarted
| DistributedRouteReady
| PromotionFailed
| DeploymentMismatch
| BeginDemotion
| PeerLost
| EnterBackoff
| BackoffElapsed
| RequireManualIntervention
| OperatorReconcile
| BeginTensorParallel
| TensorParallelWorkerPrepared
| TensorParallelCoordinatorStarted
| TensorParallelHandshakeHttpReady
| TensorParallelWarmupDone
| BeginTensorParallelDemotion.

End ClusterEventKind.
Notation ClusterEventKind := ClusterEventKind.ClusterEventKind.

Module ClusterFailure.

(** src/src/cluster/state.rs:91-117 (ClusterFailure) *)
Inductive ClusterFailure :=
| PeerAbsent
| BridgeUnavailable
| BridgeAddressInvalid
| BonjourUnavailable (static_fallback : bool)
| UnauthenticatedDiscovery
| InvalidControlHmac
| InvalidPeerProxyToken
| DeploymentMismatch
| ManifestStale
| HelloTimeout
| UnknownDs4Schema
| CoordinatorStartupTimeout
| RouteIncomplete
| PeerLeaseLost
| ChildIdentityUnknown
| StandaloneStartFailed
| DrainTimeout
| FirstPrefillTimeout
| StateCorrupt (standalone_safe : bool).

End ClusterFailure.
Notation ClusterFailure := ClusterFailure.ClusterFailure.

Module FailureAction.

(** src/src/cluster/state.rs:142-152 (FailureAction) *)
Inductive FailureAction :=
| MaintainCurrent
| RejectRequest
| RetryStaticDiscovery
| SoloStandalone
| PairedStandalone
| PromotionBackoff
| ManualIntervention
| Unavailable.

End FailureAction.
Notation FailureAction := FailureAction.FailureAction.

Module EventOwner.

(** src/src/cluster/state.rs:119-127 (EventOwner) *)
Inductive EventOwner :=
| PeriodicReconcile | RouteLossMonitor | Admin | Control | Promotion | Recovery.

End EventOwner.
Notation EventOwner := EventOwner.EventOwner.

Global Instance ClusterEventKind_eq_dec : EqDecision ClusterEventKind.
Proof. solve_decision. Defined.
Global Instance ClusterFailure_eq_dec : EqDecision ClusterFailure.
Proof. solve_decision. Defined.
Global Instance FailureAction_eq_dec : EqDecision FailureAction.
Proof. solve_decision. Defined.

(** src/src/cluster/state.rs:129-140 (EventOwner::name) *)
Definition EventOwner_name (self : EventOwner) : string :=
  match self with
  | EventOwner.PeriodicReconcile => "periodic-reconcile"
  | EventOwner.RouteLossMonitor => "route-loss-monitor"
  | EventOwner.Admin => "admin"
  | EventOwner.Control => "control"
  | EventOwner.Promotion => "promotion"
  | EventOwner.Recovery => "recovery"
  end.

(** src/src/cluster/state.rs:8-19 (ClusterSnapshot) *)
Record ClusterSnapshot := mkSnapshot {
  generation : Z;
  role : LocalRole;
  stable_mode : StableMode;
  state : ClusterState;
  target : ProxyTarget;
  local_standalone_ready : bool;
  last_failure : option ClusterFailure;
  tp : option TpSessionState;
}.

(** src/src/cluster/state.rs:297-303 (ClusterEvent) *)
Record ClusterEvent := mkEvent {
  expected_generation : Z;
  kind : ClusterEventKind;
  tp_session : option TpSessionId;
}.

Module TransitionError.

(** src/src/cluster/state.rs:325-336 (TransitionError) *)
Inductive TransitionError :=
| StaleGeneration (expected current : Z)
| InvalidTransition (from : ClusterState) (event : ClusterEventKind)
| Stopped.

End TransitionError.
Notation TransitionError := TransitionError.TransitionError.

Global Instance ClusterSnapshot_eq_dec : EqDecision ClusterSnapshot.
Proof. solve_decision. Defined.

(** ** Construction *)

(** src/src/cluster/state.rs:37-55 (ClusterSnapshot::new) *)
Definition ClusterSnapshot_new (g : Z) (r : LocalRole) (m : StableMode)
    (s : ClusterState) (ready : bool) (t : option TpSessionState) : ClusterSnapshot :=
  mkSnapshot g r m s (resolve_target r m s ready) ready None t.

(** src/src/cluster/state.rs:22-35 (ClusterSnapshot::booting_at) *)
Definition booting_at (r : LocalRole) (g : Z) : ClusterSnapshot :=
  ClusterSnapshot_new g r StableMode.SoloStandalone ClusterState.Booting false None.

(** src/src/cluster/state.rs:307-313 (ClusterEvent::new) *)
Definition ClusterEvent_new (g : Z) (k : ClusterEventKind) : ClusterEvent :=
  mkEvent g k None.

(** src/src/cluster/state.rs:316-322 (ClusterEvent::tp) *)
Definition ClusterEvent_tp (g : Z) (k : ClusterEventKind) (s : TpSessionId) : ClusterEvent :=
  mkEvent g k (Some s).

(** src/src/cluster/state.rs:752-759 (stable_ready_state) *)
Definition stable_ready_state (m : StableMode) : ClusterState :=
  match m with
  | StableMode.SoloStandalone => ClusterState.SoloStandaloneReady
  | StableMode.PairedStandalone => ClusterState.PairedStandaloneReady
  | StableMode.DistributedLayerParallel => ClusterState.DistributedReady
  | StableMode.DistributedTensorParallel => ClusterState.TensorParallelReady
  end.

(** ** The reducer

    The match over [(current.state, event.kind)] is one function of the source;
    its arms are split at the TP comment into two tables tried in order. *)

Section Tables.
  Context (current : ClusterSnapshot) (ev : ClusterEvent).

Definition not_worker : bool := negb (bool_decide (role current = LocalRole.Worker)).

(** Local standalone, pairing and layer-parallel arms.
    src/src/cluster/state.rs:480-587 (transition) *)
Definition transition_standalone_and_lp
    : option (StableMode * ClusterState * bool) :=
  match state current, kind ev with
  | (ClusterState.ManualInterventionRequired | ClusterState.DemotingTensorParallel
    | ClusterState.PairedStandaloneReady | ClusterState.SoloStandaloneReady),
    ClusterEventKind.BeginSoloStandalone
  | ClusterState.Booting, ClusterEventKind.BeginSoloStandalone
  | ClusterState.Backoff, ClusterEventKind.BeginSoloStandalone =>
      Some (StableMode.SoloStandalone, ClusterState.SoloStandaloneStarting, false)
  | ClusterState.SoloStandaloneStarting, ClusterEventKind.LocalStandaloneReady =>
      Some (StableMode.SoloStandalone, ClusterState.SoloStandaloneReady, true)
  | ClusterState.SoloStandaloneReady, ClusterEventKind.LocalStandaloneLost =>
      Some (StableMode.SoloStandalone, ClusterState.SoloStandaloneStarting, false)
  | ClusterState.SoloStandaloneReady, ClusterEventKind.BeginPairing =>
      Some (StableMode.SoloStandalone, ClusterState.Pairing,
            local_standalone_ready current)
  | ClusterState.Pairing, ClusterEventKind.PairingReady =>
      Some (StableMode.PairedStandalone, ClusterState.PairedStandaloneReady, not_worker)
  | ClusterState.PairedStandaloneReady, ClusterEventKind.BeginPromotion =>
      Some (StableMode.PairedStandalone, ClusterState.AwaitingWorkerHello,
            local_standalone_ready current)
  | ClusterState.AwaitingWorkerHello, ClusterEventKind.WorkerHelloAccepted =>
      Some (StableMode.PairedStandalone, ClusterState.Promoting,
            local_standalone_ready current)
  | ClusterState.Promoting, ClusterEventKind.DistributedChildStarted =>
      Some (StableMode.PairedStandalone, ClusterState.DistributedStarting, false)
  | ClusterState.DistributedStarting, ClusterEventKind.DistributedRouteReady =>
      Some (StableMode.DistributedLayerParallel, ClusterState.DistributedReady, not_worker)
  | (ClusterState.AwaitingWorkerHello | ClusterState.Promoting
    | ClusterState.DistributedStarting), ClusterEventKind.PromotionFailed =>
      Some (StableMode.PairedStandalone, ClusterState.PairedStandaloneReady, not_worker)
  | (ClusterState.Pairing | ClusterState.PairedStandaloneReady
    | ClusterState.AwaitingWorkerHello | ClusterState.Promoting
    | ClusterState.DistributedStarting | ClusterState.DistributedReady
    | ClusterState.Demoting), ClusterEventKind.DeploymentMismatch =>
      Some (StableMode.SoloStandalone, ClusterState.SoloStandaloneStarting, false)
  | ClusterState.SoloStandaloneReady, ClusterEventKind.DeploymentMismatch =>
      Some (StableMode.SoloStandalone, ClusterState.SoloStandaloneReady, true)
  | ClusterState.DistributedReady, ClusterEventKind.BeginDemotion =>
      Some (StableMode.DistributedLayerParallel, ClusterState.Demoting, false)
  | ClusterState.Demoting, ClusterEventKind.PairingReady =>
      Some (StableMode.PairedStandalone, ClusterState.PairedStandaloneReady, not_worker)
  | (ClusterState.Pairing | ClusterState.PairedStandaloneReady
    | ClusterState.AwaitingWorkerHello | ClusterState.Promoting
    | ClusterState.DistributedStarting | ClusterState.DistributedReady
    | ClusterState.Demoting | ClusterState.Backoff), ClusterEventKind.PeerLost =>
      Some (StableMode.SoloStandalone, ClusterState.SoloStandaloneStarting, false)
  | _, _ => None
  end.

(** src/src/cluster/state.rs:469-479 (transition) *)
Definition tp_pre_warmup_complete : bool :=
  match tp current with
  | Some t => worker_prepared (readiness t) && coordinator_started (readiness t)
              && handshake_http_ready (readiness t)
  | None => false
  end.

(** Tensor-parallel arms and the arms that match any state.
    src/src/cluster/state.rs:588-699 (transition) *)
Definition transition_tp_and_generic : option (StableMode * ClusterState * bool) :=
  match state current, kind ev with
  | (ClusterState.SoloStandaloneReady | ClusterState.PairedStandaloneReady),
    ClusterEventKind.BeginTensorParallel =>
      Some (StableMode.DistributedTensorParallel, ClusterState.TensorParallelStarting, false)
  | ClusterState.TensorParallelStarting, ClusterEventKind.TensorParallelWorkerPrepared =>
      Some (StableMode.DistributedTensorParallel,
            ClusterState.AwaitingTensorParallelWorkerHello, false)
  | ClusterState.AwaitingTensorParallelWorkerHello,
    ClusterEventKind.TensorParallelCoordinatorStarted =>
      Some (StableMode.DistributedTensorParallel,
            ClusterState.AwaitingTensorParallelWorkerHello, false)
  | ClusterState.AwaitingTensorParallelWorkerHello,
    ClusterEventKind.TensorParallelHandshakeHttpReady =>
      Some (StableMode.DistributedTensorParallel,
            ClusterState.AwaitingTensorParallelWorkerHello, false)
  | ClusterState.AwaitingTensorParallelWorkerHello,
    ClusterEventKind.TensorParallelWarmupDone =>
      if tp_pre_warmup_complete
      then Some (StableMode.DistributedTensorParallel,
                 ClusterState.TensorParallelReady, not_worker)
      else Some (StableMode.DistributedTensorParallel,
                 ClusterState.AwaitingTensorParallelWorkerHello, false)
  | (ClusterState.TensorParallelReady | ClusterState.TensorParallelStarting
    | ClusterState.AwaitingTensorParallelWorkerHello
    | ClusterState.DemotingTensorParallel), ClusterEventKind.BeginTensorParallelDemotion =>
      Some (StableMode.DistributedTensorParallel,
            ClusterState.DemotingTensorParallel, false)
  | ClusterState.DemotingTensorParallel, ClusterEventKind.PairingReady =>
      Some (StableMode.PairedStandalone, ClusterState.PairedStandaloneReady, not_worker)
  | (ClusterState.TensorParallelReady | ClusterState.TensorParallelStarting
    | ClusterState.AwaitingTensorParallelWorkerHello
    | ClusterState.DemotingTensorParallel), ClusterEventKind.EnterBackoff =>
      Some (StableMode.DistributedTensorParallel, ClusterState.TensorParallelBackoff,
            local_standalone_ready current)
  | ClusterState.TensorParallelBackoff, ClusterEventKind.BackoffElapsed =>
      Some (StableMode.DistributedTensorParallel, ClusterState.TensorParallelStarting, false)
  | _, ClusterEventKind.EnterBackoff =>
      Some (stable_mode current, ClusterState.Backoff, local_standalone_ready current)
  | ClusterState.Backoff, ClusterEventKind.BackoffElapsed
  | ClusterState.ManualInterventionRequired, ClusterEventKind.OperatorReconcile =>
      Some (stable_mode current, stable_ready_state (stable_mode current),
            local_standalone_ready current)
  | _, ClusterEventKind.RequireManualIntervention =>
      Some (stable_mode current, ClusterState.ManualInterventionRequired,
            local_standalone_ready current)
  | _, _ => None
  end.

(** src/src/cluster/state.rs:711-739 (transition) *)
Definition transition_tp : option TpSessionState :=
  let advance e :=
    t ← tp current; apply_event t (default (mkTpSessionId 0) (tp_session ev)) e in
  match kind ev with
  | ClusterEventKind.BeginTensorParallel => TpSessionState_new <$> tp_session ev
  | ClusterEventKind.TensorParallelWorkerPrepared =>
      advance TpReadinessEvent.WorkerPrepared
  | ClusterEventKind.TensorParallelCoordinatorStarted =>
      advance TpReadinessEvent.CoordinatorStarted
  | ClusterEventKind.TensorParallelHandshakeHttpReady =>
      advance TpReadinessEvent.HandshakeHttpReady
  | ClusterEventKind.TensorParallelWarmupDone =>
      advance TpReadinessEvent.WarmupDone
  | ClusterEventKind.BeginTensorParallelDemotion => tp current
  | _ => tp current
  end.

(** src/src/cluster/state.rs:740-748 (transition) *)
Definition transition_last_failure : option ClusterFailure :=
  match kind ev with
  | ClusterEventKind.DeploymentMismatch => Some ClusterFailure.DeploymentMismatch
  | ClusterEventKind.LocalStandaloneReady =>
      if bool_decide (state current = ClusterState.SoloStandaloneStarting)
      then last_failure current else None
  | _ => None
  end.

(** src/src/cluster/state.rs:456-468 (transition) *)
Definition wrong_tp_session : bool :=
  match tp_session ev with
  | Some s =>
      negb (bool_decide (kind ev = ClusterEventKind.BeginTensorParallel))
      && negb (bool_decide (session <$> tp current = Some s))
  | None => false
  end.

(** src/src/cluster/state.rs:701-710 (transition) *)
Definition transition_next (m : StableMode) (s : ClusterState) (ready : bool)
    : ClusterSnapshot :=
  let base := ClusterSnapshot_new (wrap64 (generation current + 1)) (role current)
                m s ready (tp current) in
  mkSnapshot (generation base) (role base) (stable_mode base) (state base)
    (target base) (local_standalone_ready base) transition_last_failure transition_tp.

(** src/src/cluster/state.rs:447-750 (transition) *)
Definition transition : result ClusterSnapshot TransitionError :=
  if negb (expected_generation ev =? generation current) then
    Err (TransitionError.StaleGeneration (expected_generation ev) (generation current))
  else if wrong_tp_session then Ok current
  else
    match transition_standalone_and_lp with
    | Some (m, s, ready) => Ok (transition_next m s ready)
    | None =>
        match transition_tp_and_generic with
        | Some (m, s, ready) => Ok (transition_next m s ready)
        | None => Err (TransitionError.InvalidTransition (state current) (kind ev))
        end
    end.

End Tables.

(** ** The single-writer task *)

(** One iteration of the command loop: the reply sent, and the snapshot kept
    and published.
    src/src/cluster/state.rs:379-408 (spawn_state_machine) *)
Definition machine_step (current : ClusterSnapshot) (ev : ClusterEvent)
    : result ClusterSnapshot TransitionError * ClusterSnapshot :=
  match transition current ev with
  | Ok next => (Ok next, next)
  | Err e => (Err e, current)
  end.

(** The commands in the order the channel delivers them: the replies, in order,
    the values sent to the watch channel, and the last snapshot.
    src/src/cluster/state.rs:368-416 (spawn_state_machine) *)
Fixpoint machine_run (current : ClusterSnapshot) (queue : list ClusterEvent)
    : list (result ClusterSnapshot TransitionError) * list ClusterSnapshot * ClusterSnapshot :=
  match queue with
  | [] => ([], [], current)
  | ev :: queue =>
      let '(reply, next) := machine_step current ev in
      let '(replies, published, last) := machine_run next queue in
      (reply :: replies,
       if is_ok reply then next :: published else published,
       last)
  end.

(** ** Inversion of the reducer *)

Definition transition_table (s : ClusterSnapshot) (ev : ClusterEvent)
    : option (StableMode * ClusterState * bool) :=
  match transition_standalone_and_lp s ev with
  | Some r => Some r
  | None => transition_tp_and_generic s ev
  end.

Lemma transition_unfold s ev :
  transition s ev =
  if negb (expected_generation ev =? generation s) then
    Err (TransitionError.StaleGeneration (expected_generation ev) (generation s))
  else if wrong_tp_session s ev then Ok s
  else match transition_table s ev with
       | Some (m, st, r) => Ok (transition_next s ev m st r)
       | None => Err (TransitionError.InvalidTransition (state s) (kind ev))
       end.
Proof.
  unfold transition, transition_table.
  destruct (transition_standalone_and_lp s ev) as [[[] ?]|]; [done|].
  by destruct (transition_tp_and_generic s ev) as [[[] ?]|].
Qed.

(** An accepted event matched the generation, and either was ignored for a
    foreign TP session or took an arm of the table. *)
Lemma transition_ok s ev s' :
  transition s ev = Ok s' →
  expected_generation ev = generation s ∧
  ((wrong_tp_session s ev = true ∧ s' = s) ∨
   (wrong_tp_session s ev = false ∧ ∃ m st r,
      transition_table s ev = Some (m, st, r) ∧ s' = transition_next s ev m st r)).
Proof.
  rewrite transition_unfold.
  destruct (expected_generation ev =? generation s) eqn:E; simpl; [|done].
  bool_to_prop. destruct (wrong_tp_session s ev) eqn:W; [naive_solver|].
  destruct (transition_table s ev) as [[[] ?]|] eqn:T; naive_solver.
Qed.

(** Case analysis on the state and the event; the arms that do not exist close. *)
Ltac table_cases s ev :=
  unfold transition_table, transition_standalone_and_lp, transition_tp_and_generic in *;
  destruct (state s) eqn:?, (kind ev) eqn:?; simplify_eq/=; try done.

(** ** Runs *)

Inductive fsm_step : ClusterSnapshot → ClusterSnapshot → Prop :=
| FsmStep s ev s' : transition s ev = Ok s' → fsm_step s s'.

Definition reachable (r : LocalRole) (g : Z) : ClusterSnapshot → Prop :=
  rtc fsm_step (booting_at r g).

(** The stable mode a state belongs to; [Backoff] and
    [ManualInterventionRequired] keep the mode they were entered from. *)
Definition mode_of_state (s : ClusterState) : option StableMode :=
  match s with
  | ClusterState.Booting | ClusterState.SoloStandaloneStarting
  | ClusterState.SoloStandaloneReady | ClusterState.Pairing =>
      Some StableMode.SoloStandalone
  | ClusterState.PairedStandaloneReady | ClusterState.AwaitingWorkerHello
  | ClusterState.Promoting | ClusterState.DistributedStarting =>
      Some StableMode.PairedStandalone
  | ClusterState.DistributedReady | ClusterState.Demoting =>
      Some StableMode.DistributedLayerParallel
  | ClusterState.TensorParallelStarting
  | ClusterState.AwaitingTensorParallelWorkerHello
  | ClusterState.TensorParallelReady | ClusterState.DemotingTensorParallel
  | ClusterState.TensorParallelBackoff => Some StableMode.DistributedTensorParallel
  | ClusterState.Backoff | ClusterState.ManualInterventionRequired => None
  end.

Record snapshot_inv (s : ClusterSnapshot) : Prop := {
  inv_target :
    target s = resolve_target (role s) (stable_mode s) (state s) (local_standalone_ready s);
  inv_mode : ∀ m, mode_of_state (state s) = Some m → stable_mode s = m;
  inv_worker : role s = LocalRole.Worker → stable_mode s ≠ StableMode.SoloStandalone →
               local_standalone_ready s = false;
}.

Lemma snapshot_inv_booting r g : snapshot_inv (booting_at r g).
Proof. split; [done| |done]. intros m [= <-]. done. Qed.

Lemma table_mode s ev m st r :
  snapshot_inv s →
  transition_table s ev = Some (m, st, r) →
  ∀ m', mode_of_state st = Some m' → m = m'.
Proof.
  intros Hinv H m' Hm. table_cases s ev;
    try (by destruct (tp_pre_warmup_complete s); simplify_eq/=);
    by destruct (stable_mode s); simplify_eq/=.
Qed.

Lemma table_worker s ev m st r :
  snapshot_inv s →
  transition_table s ev = Some (m, st, r) →
  role s = LocalRole.Worker → m ≠ StableMode.SoloStandalone → r = false.
Proof.
  intros [_ Hmode Hw] H Hr Hm. unfold transition_table in *.
  assert (not_worker s = false) as Hn.
  { unfold not_worker. by rewrite bool_decide_true. }
  table_cases s ev; rewrite ?Hn; try done;
    try (by destruct (tp_pre_warmup_complete s); simplify_eq/=);
    apply Hw; try done; rewrite (Hmode _ eq_refl); congruence.
Qed.

Lemma snapshot_inv_step s s' : snapshot_inv s → fsm_step s s' → snapshot_inv s'.
Proof.
  intros Hinv Hs. inversion Hs as [? ev ? H]; subst.
  apply transition_ok in H as [_ [[_ ->]|[_ (m & st & r & HT & ->)]]]; [done|].
  split; simpl.
  - done.
  - intros m' Hm. by eapply table_mode.
  - by eapply table_worker.
Qed.

Lemma reachable_inv r g s : reachable r g s → snapshot_inv s.
Proof.
  intros H. refine (rtc_ind_r snapshot_inv _ _ _ _ H); [apply snapshot_inv_booting|].
  intros. by eapply snapshot_inv_step.
Qed.

Lemma reachable_role r g s : reachable r g s → role s = r.
Proof.
  intros H. refine (rtc_ind_r (fun s => role s = r) _ _ _ _ H); [done|].
  intros s1 s2 _ Hs <-. inversion Hs as [? ev ? Ht]; subst.
  by apply transition_ok in Ht as [_ [[_ ->]|[_ (? & ? & ? & _ & ->)]]].
Qed.

#[export] Hint Resolve snapshot_inv_booting reachable_inv : rust.

(** ** Routing follows the mode *)

(** C3: in every snapshot the reducer can reach from boot, the published target is
    the routing decision for that snapshot's own role, mode, state and readiness,
    every state other than [Backoff] and [ManualInterventionRequired] fixes its
    stable mode, and hence the defensive [InconsistentStableState] answer of
    [resolve_target] is never given. *)
Theorem routing_consistent_with_mode r g s :
  reachable r g s →
  target s = resolve_target r (stable_mode s) (state s) (local_standalone_ready s) ∧
  (∀ m, mode_of_state (state s) = Some m → stable_mode s = m) ∧
  target s ≠ ProxyTarget.Unavailable UnavailableReason.InconsistentStableState.
Proof.
  intros H. pose proof (reachable_role _ _ _ H) as Hr.
  destruct (reachable_inv _ _ _ H) as [Ht Hm _]. rewrite Hr in Ht.
  split_and!; [done|done|]. rewrite Ht. clear Ht.
  destruct (state s); try (by destruct r, (stable_mode s), (local_standalone_ready s));
    rewrite (Hm _ eq_refl); by destruct r, (local_standalone_ready s).
Qed.

(** A run to [DistributedReady] on the coordinator. *)
Definition ev_at (g : Z) (k : ClusterEventKind) : ClusterEvent := ClusterEvent_new g k.

Definition distributed_run : list ClusterEventKind :=
  [ClusterEventKind.BeginSoloStandalone; ClusterEventKind.LocalStandaloneReady;
   ClusterEventKind.BeginPairing; ClusterEventKind.PairingReady;
   ClusterEventKind.BeginPromotion; ClusterEventKind.WorkerHelloAccepted;
   ClusterEventKind.DistributedChildStarted; ClusterEventKind.DistributedRouteReady].

(** Events sent one after the other, each with the generation just observed. *)
Fixpoint drive (s : ClusterSnapshot) (ks : list (ClusterEventKind * option TpSessionId))
    : option ClusterSnapshot :=
  match ks with
  | [] => Some s
  | (k, o) :: ks =>
      match transition s (mkEvent (generation s) k o) with
      | Ok s' => drive s' ks
      | Err _ => None
      end
  end.

Definition plain (ks : list ClusterEventKind) : list (ClusterEventKind * option TpSessionId) :=
  (fun k => (k, None)) <$> ks.

Lemma drive_steps ks : ∀ s s', drive s ks = Some s' → rtc fsm_step s s'.
Proof.
  induction ks as [|[k o] ks IH]; intros s s'; simpl; [intros [= <-]; apply rtc_refl|].
  destruct (transition _ _) eqn:E; [|done].
  intros H. eapply rtc_l; [by econstructor|eauto].
Qed.

Lemma drive_reachable r g ks s : drive (booting_at r g) ks = Some s → reachable r g s.
Proof. apply drive_steps. Qed.

Definition distributed_coordinator : ClusterSnapshot :=
  default (booting_at LocalRole.Coordinator 0)
    (drive (booting_at LocalRole.Coordinator 0) (plain distributed_run)).

Definition distributed_worker : ClusterSnapshot :=
  default (booting_at LocalRole.Worker 0)
    (drive (booting_at LocalRole.Worker 0) (plain distributed_run)).

Lemma routing_consistent_with_mode_witness :
  state distributed_coordinator = ClusterState.DistributedReady ∧
  stable_mode distributed_coordinator = StableMode.DistributedLayerParallel.
Proof.
  split; [by vm_compute|].
  apply (proj1 (proj2 (routing_consistent_with_mode LocalRole.Coordinator 0
    distributed_coordinator
    (drive_reachable LocalRole.Coordinator 0 (plain distributed_run)
       distributed_coordinator ltac:(by vm_compute))))).
  by vm_compute.
Defined.

(** A worker that has left solo operation never routes requests to a local
    child: in every reachable snapshot of a worker whose stable mode is paired or
    distributed, the target is the coordinator or unavailable. *)
Lemma paired_worker_never_serves_locally g s :
  reachable LocalRole.Worker g s →
  stable_mode s ≠ StableMode.SoloStandalone →
  target s ≠ ProxyTarget.LocalStandalone.
Proof.
  intros H Hm. pose proof (reachable_role _ _ _ H) as Hr.
  destruct (reachable_inv _ _ _ H) as [Ht _ Hw].
  rewrite Ht, Hr, (Hw Hr Hm). by destruct (stable_mode s), (state s).
Qed.

Lemma paired_worker_never_serves_locally_witness :
  target distributed_worker = ProxyTarget.Coordinator ∧
  target distributed_worker ≠ ProxyTarget.LocalStandalone.
Proof.
  split; [by vm_compute|].
  apply (paired_worker_never_serves_locally 0).
  - apply (drive_reachable _ _ (plain distributed_run)). by vm_compute.
  - vm_compute. discriminate.
Defined.

(** ** Tensor-parallel route publication *)

Definition is_tp_kind (k : ClusterEventKind) : bool :=
  match k with
  | ClusterEventKind.BeginTensorParallel
  | ClusterEventKind.TensorParallelWorkerPrepared
  | ClusterEventKind.TensorParallelCoordinatorStarted
  | ClusterEventKind.TensorParallelHandshakeHttpReady
  | ClusterEventKind.TensorParallelWarmupDone
  | ClusterEventKind.BeginTensorParallelDemotion => true
  | _ => false
  end.

(** The events the runtimes build: TP kinds through [ClusterEvent::tp], the others
    without a session ([ProductionClusterRuntime::tp_event]). *)
Definition event_wf (ev : ClusterEvent) : Prop :=
  is_tp_kind (kind ev) = is_some (tp_session ev).

(** The two arms that re-enter a ready state from the remembered stable mode. *)
Definition restores_mode (s : ClusterSnapshot) (ev : ClusterEvent) : bool :=
  match state s, kind ev with
  | ClusterState.Backoff, ClusterEventKind.BackoffElapsed
  | ClusterState.ManualInterventionRequired, ClusterEventKind.OperatorReconcile => true
  | _, _ => false
  end.

Inductive tp_run : ClusterSnapshot → Prop :=
| tp_run_boot r g : tp_run (booting_at r g)
| tp_run_step s ev s' :
    tp_run s → event_wf ev →
    (restores_mode s ev = true → stable_mode s ≠ StableMode.DistributedTensorParallel) →
    transition s ev = Ok s' →
    tp_run s'.

Lemma table_tp_ready s ev m r :
  transition_table s ev = Some (m, ClusterState.TensorParallelReady, r) →
  (restores_mode s ev = true ∧ stable_mode s = StableMode.DistributedTensorParallel) ∨
  (kind ev = ClusterEventKind.TensorParallelWarmupDone ∧ tp_pre_warmup_complete s = true).
Proof.
  intros H. unfold restores_mode. table_cases s ev.
  - destruct (stable_mode s); naive_solver.
  - destruct (stable_mode s); naive_solver.
  - destruct (tp_pre_warmup_complete s) eqn:E; simplify_eq. by right.
Qed.

Lemma warmup_completes s ev :
  event_wf ev → wrong_tp_session s ev = false →
  kind ev = ClusterEventKind.TensorParallelWarmupDone →
  tp_pre_warmup_complete s = true →
  ∃ t, transition_tp s ev = Some t ∧ route_ready t = true ∧ tp_session ev = Some (session t).
Proof.
  unfold event_wf, wrong_tp_session, transition_tp, tp_pre_warmup_complete.
  intros Hwf Hw Hk Hc. rewrite Hk in *. simpl in *.
  destruct (tp_session ev) as [sid|]; [|done].
  destruct (tp s) as [[sid' [w c h d]]|]; [|done]. simpl in *.
  destruct (bool_decide (Some sid' = Some sid)) eqn:E; [|done]. bool_to_prop. simplify_eq.
  unfold apply_event. simpl. rewrite bool_decide_true by done. simpl.
  eexists. split_and!; [done| |done].
  done.
Qed.

(** C5: the TP route is published only by a complete session.  In every run of
    well-formed events in which no [OperatorReconcile] or plain [BackoffElapsed]
    restores the tensor-parallel mode, a snapshot in [TensorParallelReady] carries
    a session whose worker, coordinator, handshake and warm-up flags are all up. *)
Theorem tp_route_only_when_complete s :
  tp_run s →
  state s = ClusterState.TensorParallelReady →
  ∃ t, tp s = Some t ∧ route_ready t = true.
Proof.
  induction 1 as [|s ev s' _ IH Hwf Hq Ht]; [done|]. intros Hs'.
  apply transition_ok in Ht as [_ [[_ ->]|[Hw (m & st & rr & HT & ->)]]]; [by apply IH|].
  simpl in *. subst st. apply table_tp_ready in HT as [[Hr Hm]|[Hk Hc]].
  - by apply Hq in Hr.
  - destruct (warmup_completes s ev) as (t & ? & ? & _); eauto.
Qed.

Definition tp_events (sid : TpSessionId) : list (ClusterEventKind * option TpSessionId) :=
  plain [ClusterEventKind.BeginSoloStandalone; ClusterEventKind.LocalStandaloneReady] ++
  ((fun k => (k, Some sid)) <$>
    [ClusterEventKind.BeginTensorParallel; ClusterEventKind.TensorParallelWorkerPrepared;
     ClusterEventKind.TensorParallelCoordinatorStarted;
     ClusterEventKind.TensorParallelHandshakeHttpReady;
     ClusterEventKind.TensorParallelWarmupDone]).

Definition tp_ready_coordinator : ClusterSnapshot :=
  default (booting_at LocalRole.Coordinator 0)
    (drive (booting_at LocalRole.Coordinator 0) (tp_events (mkTpSessionId 9))).

Lemma drive_tp_run ks : ∀ s s',
  tp_run s → drive s ks = Some s' →
  Forall (fun ko => is_tp_kind (fst ko) = is_some (snd ko) ∧
            fst ko ≠ ClusterEventKind.BackoffElapsed ∧
            fst ko ≠ ClusterEventKind.OperatorReconcile) ks →
  tp_run s'.
Proof.
  induction ks as [|[k o] ks IH]; intros s s' Hs; simpl; [naive_solver|].
  destruct (transition _ _) as [s1|] eqn:E; [|done].
  intros Hd [[? [? ?]] Hk]%Forall_cons. eapply IH; [|done|done].
  eapply tp_run_step; [exact Hs| |intros Hr|exact E]; [done|].
  unfold restores_mode in Hr. simpl in *. by destruct (state s), k.
Qed.

Lemma tp_route_only_when_complete_witness :
  state tp_ready_coordinator = ClusterState.TensorParallelReady ∧
  target tp_ready_coordinator = ProxyTarget.LocalStandalone ∧
  ∃ t, tp tp_ready_coordinator = Some t ∧ route_ready t = true.
Proof.
  split; [by vm_compute|]. split; [by vm_compute|].
  apply (tp_route_only_when_complete tp_ready_coordinator); [|by vm_compute].
  apply (drive_tp_run (tp_events (mkTpSessionId 9)) (booting_at LocalRole.Coordinator 0));
    [constructor|by vm_compute|].
  repeat (apply Forall_cons; split; [by vm_compute|]). apply Forall_nil. done.
Defined.

(** A session is begun, sent to manual intervention and reconciled. *)
Definition tp_reconcile_run : list (ClusterEventKind * option TpSessionId) :=
  plain [ClusterEventKind.BeginSoloStandalone; ClusterEventKind.LocalStandaloneReady]
  ++ [(ClusterEventKind.BeginTensorParallel, Some (mkTpSessionId 1))]
  ++ plain [ClusterEventKind.RequireManualIntervention; ClusterEventKind.OperatorReconcile].

Definition tp_reconciled : ClusterSnapshot :=
  default (booting_at LocalRole.Coordinator 0)
    (drive (booting_at LocalRole.Coordinator 0) tp_reconcile_run).

(** A run that restores a mode can publish the TP route without readiness.  A node that starts a TP
    session, is sent to manual intervention before any readiness element has been
    observed and is then reconciled by the operator is put in
    [TensorParallelReady] with an empty readiness record, and its requests are
    routed to the local child. *)
Lemma tp_route_restored_without_readiness :
  ∃ s t, reachable LocalRole.Coordinator 0 s ∧
    state s = ClusterState.TensorParallelReady ∧
    target s = ProxyTarget.LocalStandalone ∧
    local_standalone_ready s = false ∧
    tp s = Some t ∧ readiness t = TpReadiness_new.
Proof.
  exists tp_reconciled, (TpSessionState_new (mkTpSessionId 1)).
  split; [|by vm_compute].
  by apply (drive_reachable _ _ tp_reconcile_run); vm_compute.
Qed.

(** ** Serialised updates *)

(** The commands of a queue that changed the machine. *)
Fixpoint applied_events (current : ClusterSnapshot) (queue : list ClusterEvent)
    : list ClusterEvent :=
  match queue with
  | [] => []
  | ev :: queue =>
      let next := snd (machine_step current ev) in
      if bool_decide (next = current) then applied_events next queue
      else ev :: applied_events next queue
  end.

Definition replies_of (s : ClusterSnapshot) (q : list ClusterEvent) := fst (fst (machine_run s q)).
Definition published_of (s : ClusterSnapshot) (q : list ClusterEvent) := snd (fst (machine_run s q)).
Definition last_of (s : ClusterSnapshot) (q : list ClusterEvent) := snd (machine_run s q).

Lemma machine_run_cons s ev q :
  let next := snd (machine_step s ev) in
  published_of s (ev :: q) =
    (if is_ok (fst (machine_step s ev)) then next :: published_of next q
     else published_of next q) ∧
  last_of s (ev :: q) = last_of next q.
Proof.
  unfold published_of, last_of. simpl. destruct (machine_step s ev) as [reply next]. simpl.
  destruct (machine_run next q) as [[] ?]. by destruct reply.
Qed.

(** Either nothing changed, or the event carried the current generation and the
    next snapshot carries the following one. *)
Lemma machine_step_generation s ev :
  is_u64 (generation s) → generation s < u64_max →
  let next := snd (machine_step s ev) in
  next = s ∨
  (expected_generation ev = generation s ∧ generation next = generation s + 1).
Proof.
  intros Hu Hlt. unfold machine_step. destruct (transition s ev) as [s'|] eqn:E; simpl; [|by left].
  apply transition_ok in E as [He [[_ ->]|[_ (m & st & rr & _ & ->)]]]; [by left|].
  right. split; [done|]. simpl. apply wrap64_small. unfold is_u64 in *. lia.
Qed.

Lemma published_ge q : ∀ s,
  0 ≤ generation s → generation s + length q ≤ u64_max →
  ∀ p, p ∈ published_of s q →
  generation s ≤ generation p ∧ (generation p = generation s → p = s).
Proof.
  induction q as [|ev q IH]; intros s H0 Hlen p Hp; [by apply not_elem_of_nil in Hp|].
  destruct (machine_run_cons s ev q) as [Hpub _]. rewrite Hpub in Hp. clear Hpub.
  simpl length in Hlen.
  destruct (machine_step_generation s ev) as [E|[_ E]]; [unfold is_u64; lia|lia| |].
  - rewrite E in Hp. case_match; [apply elem_of_cons in Hp as [->|Hp]|];
      [split; [lia|done]| |]; apply IH; try done; lia.
  - assert (generation (snd (machine_step s ev)) ≤ generation p) as Hge.
    { case_match; [apply elem_of_cons in Hp as [->|Hp]|]; [lia| |];
        apply IH in Hp; lia. }
    split; [lia|]. intros Hx. lia.
Qed.

Lemma applied_generations q : ∀ s,
  0 ≤ generation s → generation s + length q ≤ u64_max →
  expected_generation <$> applied_events s q =
    seqZ (generation s) (length (applied_events s q)) ∧
  generation (last_of s q) = generation s + length (applied_events s q).
Proof.
  induction q as [|ev q IH]; intros s H0 Hlen; [simpl; split; [done|unfold last_of; simpl; lia]|].
  destruct (machine_run_cons s ev q) as [_ ->]. simpl length in Hlen.
  destruct (machine_step_generation s ev) as [E|[He E]]; [unfold is_u64; lia|lia| |];
    simpl applied_events.
  - rewrite E, bool_decide_true by done. apply IH; lia.
  - rewrite bool_decide_false by (intros Hx; rewrite Hx in E; lia).
    destruct (IH (snd (machine_step s ev))) as [IH1 IH2]; [lia|lia|].
    rewrite fmap_cons, IH1, He, E, IH2, E. simpl length. split; [|lia].
    rewrite (seqZ_cons (generation s)) by lia. f_equal. f_equal; lia.
Qed.

Lemma published_functional q : ∀ s,
  0 ≤ generation s → generation s + length q ≤ u64_max →
  ∀ p p', p ∈ published_of s q → p' ∈ published_of s q →
  generation p = generation p' → p = p'.
Proof.
  induction q as [|ev q IH]; intros s H0 Hlen p p' Hp Hp' Hg;
    [by apply not_elem_of_nil in Hp|].
  destruct (machine_run_cons s ev q) as [Hpub _]. rewrite Hpub in Hp, Hp'. clear Hpub.
  simpl length in Hlen.
  assert (0 ≤ generation (snd (machine_step s ev)) ∧
          generation (snd (machine_step s ev)) + length q ≤ u64_max) as [Hn Hn'].
  { destruct (machine_step_generation s ev) as [E|[_ E]];
      [unfold is_u64; lia|lia|rewrite E; lia|lia]. }
  pose proof (published_ge q _ Hn Hn') as Hge.
  case_match; [|by eapply IH].
  apply elem_of_cons in Hp as [->|Hp]; apply elem_of_cons in Hp' as [->|Hp'].
  - done.
  - symmetry. by apply Hge.
  - by apply Hge.
  - by eapply IH.
Qed.

(** Optimistic concurrency.  Whatever commands the single-writer task
    receives, and in whatever order, the commands that changed the snapshot carry
    consecutive expected generations starting at the current one (so of several
    commands computed from the same observation at most one takes effect), the
    generation counts them, and observers of the watch channel never see two
    different snapshots with the same generation. *)
Lemma commands_serialised s queue :
  0 ≤ generation s → generation s + length queue ≤ u64_max →
  expected_generation <$> applied_events s queue =
    seqZ (generation s) (length (applied_events s queue)) ∧
  generation (last_of s queue) = generation s + length (applied_events s queue) ∧
  (∀ p p', p ∈ s :: published_of s queue → p' ∈ s :: published_of s queue →
     generation p = generation p' → p = p').
Proof.
  intros H0 Hlen. destruct (applied_generations queue s H0 Hlen) as [H1 H2].
  split_and!; [done|done|]. intros p p' Hp Hp' Hg.
  pose proof (published_ge queue s H0 Hlen) as Hge.
  apply elem_of_cons in Hp as [->|Hp]; apply elem_of_cons in Hp' as [->|Hp'].
  - done.
  - symmetry. by apply Hge.
  - by apply Hge.
  - by eapply published_functional.
Qed.

(** Two pairing attempts and a peer loss computed from the same snapshot. *)
Definition contended_queue : list ClusterEvent :=
  [ev_at 2 ClusterEventKind.BeginPairing; ev_at 2 ClusterEventKind.BeginPairing;
   ev_at 2 ClusterEventKind.LocalStandaloneLost; ev_at 3 ClusterEventKind.PairingReady].

Definition solo_ready_worker : ClusterSnapshot :=
  default (booting_at LocalRole.Worker 0)
    (drive (booting_at LocalRole.Worker 0)
       (plain [ClusterEventKind.BeginSoloStandalone; ClusterEventKind.LocalStandaloneReady])).

Lemma commands_serialised_witness :
  applied_events solo_ready_worker contended_queue =
    [ev_at 2 ClusterEventKind.BeginPairing; ev_at 3 ClusterEventKind.PairingReady] ∧
  generation (last_of solo_ready_worker contended_queue) = 4.
Proof.
  split; [by vm_compute|].
  rewrite (proj1 (proj2 (commands_serialised solo_ready_worker contended_queue
    ltac:(by vm_compute) ltac:(by vm_compute)))).
  by vm_compute.
Defined.

(** ** No dead ends *)

Definition solo_recovery : list ClusterEventKind :=
  [ClusterEventKind.RequireManualIntervention; ClusterEventKind.BeginSoloStandalone;
   ClusterEventKind.LocalStandaloneReady].

(** Recoverability.  From any snapshot whatever, the three events that give up
    on the cluster, restart the local child and observe it ready are accepted in
    that order and lead to [SoloStandaloneReady] with requests routed to the local
    child; no state of the machine is a dead end. *)
Lemma solo_always_recoverable s :
  ∃ s', drive s (plain solo_recovery) = Some s' ∧
    state s' = ClusterState.SoloStandaloneReady ∧
    stable_mode s' = StableMode.SoloStandalone ∧
    target s' = ProxyTarget.LocalStandalone.
Proof.
  unfold solo_recovery. simpl.
  assert (transition s (mkEvent (generation s) ClusterEventKind.RequireManualIntervention None)
    = Ok (transition_next s
            (mkEvent (generation s) ClusterEventKind.RequireManualIntervention None)
            (stable_mode s) ClusterState.ManualInterventionRequired
            (local_standalone_ready s))) as ->.
  { rewrite transition_unfold. simpl. rewrite Z.eqb_refl. simpl.
    unfold wrong_tp_session, transition_table. simpl.
    unfold transition_standalone_and_lp, transition_tp_and_generic. simpl.
    by destruct (state s). }
  rewrite transition_unfold. simpl. rewrite Z.eqb_refl. simpl.
  rewrite transition_unfold. simpl. rewrite Z.eqb_refl. simpl.
  eexists. split_and!; [reflexivity| | |]; try reflexivity.
  simpl. by destruct (role s).
Qed.
