(* ===== verification/Promotion.v ===== *)
(** * Promotion failures and TP recovery bounds

    The failure table and [PromotionFailureTracker] of [src/src/cluster/state.rs],
    [TpRecoveryTracker] of [src/src/cluster/recovery_tp.rs] and [TpWorkerTracker]
    of [src/src/cluster/worker.rs]: the counters that bound how often a failed
    promotion or TP session is retried.  A [Duration] is its number of
    nanoseconds. *)

From S2P Require Import Prelude Target Operation Tp ClusterFsm.

(** ** What a failure leads to *)

(** src/src/cluster/state.rs:154-193 (failure_action) *)
Definition failure_action (failure : ClusterFailure) : FailureAction :=
  match failure with
  | ClusterFailure.PeerAbsent | ClusterFailure.BridgeUnavailable
  | ClusterFailure.BridgeAddressInvalid | ClusterFailure.PeerLeaseLost =>
      FailureAction.SoloStandalone
  | ClusterFailure.BonjourUnavailable true => FailureAction.RetryStaticDiscovery
  | ClusterFailure.BonjourUnavailable false => FailureAction.SoloStandalone
  | ClusterFailure.UnauthenticatedDiscovery => FailureAction.MaintainCurrent
  | ClusterFailure.InvalidControlHmac | ClusterFailure.InvalidPeerProxyToken =>
      FailureAction.RejectRequest
  | ClusterFailure.DeploymentMismatch => FailureAction.SoloStandalone
  | ClusterFailure.ManifestStale => FailureAction.PairedStandalone
  | ClusterFailure.HelloTimeout | ClusterFailure.CoordinatorStartupTimeout =>
      FailureAction.PromotionBackoff
  | ClusterFailure.UnknownDs4Schema => FailureAction.PairedStandalone
  | ClusterFailure.RouteIncomplete => FailureAction.PairedStandalone
  | ClusterFailure.ChildIdentityUnknown => FailureAction.ManualIntervention
  | ClusterFailure.StandaloneStartFailed => FailureAction.Unavailable
  | ClusterFailure.DrainTimeout => FailureAction.ManualIntervention
  | ClusterFailure.FirstPrefillTimeout => FailureAction.PairedStandalone
  | ClusterFailure.StateCorrupt true => FailureAction.SoloStandalone
  | ClusterFailure.StateCorrupt false => FailureAction.ManualIntervention
  end.

(** ** [PromotionFailureTracker] *)

Module PromotionRetryDecision.

(** src/src/cluster/state.rs:195-199 (PromotionRetryDecision) *)
Inductive PromotionRetryDecision :=
| Backoff (retry_at_millis : Z)
| ManualIntervention.

End PromotionRetryDecision.
Notation PromotionRetryDecision := PromotionRetryDecision.PromotionRetryDecision.

Module PromotionTrackerError.

(** src/src/cluster/state.rs:289-295 (PromotionTrackerError) *)
Inductive PromotionTrackerError := InvalidPolicy | NotPromotionFailure.

End PromotionTrackerError.
Notation PromotionTrackerError := PromotionTrackerError.PromotionTrackerError.

(** src/src/cluster/state.rs:201-207 (PromotionFailureStatus) *)
Record PromotionFailureStatus := mkPromotionStatus {
  failure : option ClusterFailure;
  consecutive : Z;
  retry_at_millis : option Z;
  manual : bool;
}.

(** src/src/cluster/state.rs:209-214 (PromotionFailureTracker) *)
Record PromotionFailureTracker := mkTracker {
  backoff_nanos : Z;
  maximum : Z;
  status : PromotionFailureStatus;
}.

(** src/src/cluster/state.rs:279-286 (PromotionFailureTracker::reset) *)
Definition tracker_reset (self : PromotionFailureTracker) : PromotionFailureTracker :=
  mkTracker (backoff_nanos self) (maximum self) (mkPromotionStatus None 0 None false).

(** src/src/cluster/state.rs:217-231 (PromotionFailureTracker::new) *)
Definition tracker_new (backoff max : Z) : result PromotionFailureTracker PromotionTrackerError :=
  if (backoff =? 0) || (max =? 0) then Err PromotionTrackerError.InvalidPolicy
  else Ok (mkTracker backoff max (mkPromotionStatus None 0 None false)).

(** src/src/cluster/state.rs:233-257 (PromotionFailureTracker::record) *)
Definition tracker_record (f : ClusterFailure) (now_millis : Z)
    (self : PromotionFailureTracker)
    : result PromotionRetryDecision PromotionTrackerError * PromotionFailureTracker :=
  if negb (bool_decide (failure_action f = FailureAction.PromotionBackoff))
  then (Err PromotionTrackerError.NotPromotionFailure, self)
  else
    let n := if bool_decide (failure (status self) = Some f)
             then sat_add32 (consecutive (status self)) 1 else 1 in
    if maximum self <=? n then
      (Ok PromotionRetryDecision.ManualIntervention,
       mkTracker (backoff_nanos self) (maximum self)
         (mkPromotionStatus (Some f) n None true))
    else
      let retry_at := sat_add64 now_millis (duration_millis (backoff_nanos self)) in
      (Ok (PromotionRetryDecision.Backoff retry_at),
       mkTracker (backoff_nanos self) (maximum self)
         (mkPromotionStatus (Some f) n (Some retry_at) false)).

(** src/src/cluster/state.rs:259-265 (PromotionFailureTracker::can_retry) *)
Definition can_retry (self : PromotionFailureTracker) (now_millis : Z) : bool :=
  negb (manual (status self))
  && is_none_or (retry_at_millis (status self)) (fun retry_at => retry_at <=? now_millis).

(** src/src/cluster/state.rs:267-269 (PromotionFailureTracker::note_success) *)
Definition note_success (self : PromotionFailureTracker) : PromotionFailureTracker :=
  tracker_reset self.

(** src/src/cluster/state.rs:271-273 (PromotionFailureTracker::operator_reconcile) *)
Definition tracker_operator_reconcile (self : PromotionFailureTracker)
    : PromotionFailureTracker :=
  tracker_reset self.

(** The same failure recorded at each of the given times. *)
Fixpoint record_all (f : ClusterFailure) (times : list Z) (self : PromotionFailureTracker)
    : list (result PromotionRetryDecision PromotionTrackerError) * PromotionFailureTracker :=
  match times with
  | [] => ([], self)
  | t :: times =>
      let '(d, self) := tracker_record f t self in
      let '(ds, self) := record_all f times self in
      (d :: ds, self)
  end.

(** The decision for the [n]-th consecutive occurrence. *)
Definition expected_decision (backoff max n t : Z)
    : result PromotionRetryDecision PromotionTrackerError :=
  Ok (if n <? max
      then PromotionRetryDecision.Backoff (sat_add64 t (duration_millis backoff))
      else PromotionRetryDecision.ManualIntervention).

Definition count_of (f : ClusterFailure) (self : PromotionFailureTracker) : Z :=
  if bool_decide (failure (status self) = Some f) then consecutive (status self) else 0.

Lemma tracker_record_spec f t self :
  failure_action f = FailureAction.PromotionBackoff →
  0 ≤ count_of f self < u32_max →
  let '(d, self') := tracker_record f t self in
  d = expected_decision (backoff_nanos self) (maximum self) (count_of f self + 1) t ∧
  count_of f self' = count_of f self + 1 ∧
  maximum self' = maximum self ∧ backoff_nanos self' = backoff_nanos self ∧
  (∀ now, can_retry self' now =
     (count_of f self + 1 <? maximum self)
     && (sat_add64 t (duration_millis (backoff_nanos self)) <=? now)).
Proof.
  intros Ha Hc. unfold tracker_record. rewrite bool_decide_true by done. simpl negb. cbv iota.
  assert ((if bool_decide (failure (status self) = Some f)
           then sat_add32 (consecutive (status self)) 1 else 1) = count_of f self + 1) as ->.
  { unfold count_of, sat_add32 in *. case_bool_decide; lia. }
  unfold expected_decision. rewrite Z.ltb_antisym.
  by destruct (maximum self <=? count_of f self + 1); simpl; unfold count_of, can_retry;
    simpl; rewrite !bool_decide_true by done.
Qed.

Lemma record_all_spec f times : ∀ self,
  failure_action f = FailureAction.PromotionBackoff →
  0 ≤ count_of f self → count_of f self + length times ≤ u32_max →
  fst (record_all f times self) =
    imap (fun i t => expected_decision (backoff_nanos self) (maximum self)
                       (count_of f self + 1 + i) t) times.
Proof.
  induction times as [|t times IH]; intros self Ha H0 Hlen; [done|].
  simpl length in Hlen. simpl record_all.
  pose proof (tracker_record_spec f t self Ha ltac:(lia)) as Hr.
  destruct (tracker_record f t self) as [d self'].
  destruct Hr as (-> & Hc & Hm & Hb & _).
  specialize (IH self' Ha). rewrite Hc, Hm, Hb in IH.
  destruct (record_all f times self') as [ds last]. simpl in *.
  rewrite IH by lia. f_equal; [f_equal; lia|].
  apply imap_ext. intros i t' _. simpl. f_equal. lia.
Qed.

Lemma record_all_app f times t self :
  record_all f (times ++ [t]) self =
    (fst (record_all f times self)
       ++ [fst (tracker_record f t (snd (record_all f times self)))],
     snd (tracker_record f t (snd (record_all f times self)))).
Proof.
  revert self. induction times as [|t' times IH]; intros self; simpl.
  - by destruct (tracker_record f t self).
  - destruct (tracker_record f t' self) as [d self']. rewrite IH.
    by destruct (record_all f times self').
Qed.

Lemma record_all_state f times : ∀ self,
  failure_action f = FailureAction.PromotionBackoff →
  0 ≤ count_of f self → count_of f self + length times ≤ u32_max →
  let last := snd (record_all f times self) in
  count_of f last = count_of f self + length times ∧
  maximum last = maximum self ∧ backoff_nanos last = backoff_nanos self.
Proof.
  induction times as [|t times IH]; intros self Ha H0 Hlen; simpl; [split_and!; [lia|done|done]|].
  simpl length in Hlen.
  pose proof (tracker_record_spec f t self Ha ltac:(lia)) as Hr.
  destruct (tracker_record f t self) as [d self'].
  destruct Hr as (_ & Hc & Hm & Hb & _).
  destruct (IH self' Ha) as (E1 & E2 & E3); [lia|lia|].
  destruct (record_all f times self') as [ds last]. simpl in *. split_and!; lia || congruence.
Qed.

(** Bounded promotion retries.  Starting from a fresh tracker, the [i]-th
    consecutive occurrence of the same retryable failure is answered with a
    backoff until [now + backoff] (saturating) while [i] is below the configured
    maximum and with manual intervention from the maximum on; after the last
    occurrence, a retry is allowed exactly when the maximum has not been reached
    and the backoff has elapsed. *)
Lemma promotion_retries_bounded backoff max tr f times t now :
  tracker_new backoff max = Ok tr →
  failure_action f = FailureAction.PromotionBackoff →
  length (times ++ [t]) ≤ u32_max →
  fst (record_all f (times ++ [t]) tr) =
    imap (fun i t => expected_decision backoff max (i + 1) t) (times ++ [t]) ∧
  can_retry (snd (record_all f (times ++ [t]) tr)) now =
    (length (times ++ [t]) <? max)
    && (sat_add64 t (duration_millis backoff) <=? now).
Proof.
  unfold tracker_new. case_match; [done|]. intros [= <-] Ha Hlen.
  rewrite length_app in Hlen. simpl in Hlen. split.
  - rewrite record_all_spec; [|done|by vm_compute|].
    2: { unfold count_of. simpl. rewrite length_app. simpl. lia. }
    apply imap_ext. intros i t' _. simpl. f_equal. unfold count_of. simpl. lia.
  - rewrite record_all_app. simpl.
    destruct (record_all_state f times
      (mkTracker backoff max (mkPromotionStatus None 0 None false)) Ha) as (Hc & Hm & Hb);
      [by vm_compute|unfold count_of; simpl; lia|].
    set (self := snd _) in *. unfold count_of in Hc at 2. simpl in Hc, Hm, Hb.
    pose proof (tracker_record_spec f t self Ha ltac:(lia)) as Hr.
    destruct (tracker_record f t self) as [d self'].
    destruct Hr as (_ & _ & _ & _ & ->). rewrite Hc, Hm, Hb, length_app. simpl.
    f_equal. f_equal. lia.
Qed.

Lemma promotion_retries_bounded_witness :
  let tr := mkTracker 5000000000 3 (mkPromotionStatus None 0 None false) in
  fst (record_all ClusterFailure.HelloTimeout [100; 6000; 12000] tr) =
    [Ok (PromotionRetryDecision.Backoff 5100); Ok (PromotionRetryDecision.Backoff 11000);
     Ok PromotionRetryDecision.ManualIntervention] ∧
  can_retry (snd (record_all ClusterFailure.HelloTimeout [100; 6000; 12000] tr)) 99999 = false.
Proof.
  intros tr.
  destruct (promotion_retries_bounded 5000000000 3 tr ClusterFailure.HelloTimeout
    [100; 6000] 12000 99999 eq_refl eq_refl ltac:(by vm_compute)) as [H1 H2].
  cbn [app] in H1, H2. split; [rewrite H1; by vm_compute|rewrite H2; by vm_compute].
Defined.

(** ** [TpRecoveryTracker] *)

Module TpFailureKind.

(** src/src/cluster/recovery_tp.rs:17-35 (TpFailureKind) *)
Inductive TpFailureKind :=
| WorkerCrash
| CoordinatorCrash
| RouteLoss
| RoleSwap
| FirstPrefillTimeout
| ModelMismatch
| IdentityUnknown
| DrainTimeout.

End TpFailureKind.
Notation TpFailureKind := TpFailureKind.TpFailureKind.

Module TpRecoveryDecision.

(** src/src/cluster/recovery_tp.rs:66-77 (TpRecoveryDecision) *)
Inductive TpRecoveryDecision :=
| Retry | StopAndFallback | ManualIntervention | Suppressed.

End TpRecoveryDecision.
Notation TpRecoveryDecision := TpRecoveryDecision.TpRecoveryDecision.

Global Instance TpFailureKind_eq_dec : EqDecision TpFailureKind.
Proof. solve_decision. Defined.
Global Instance TpRecoveryDecision_eq_dec : EqDecision TpRecoveryDecision.
Proof. solve_decision. Defined.

(** src/src/cluster/recovery_tp.rs:38-49 (TpFailureKind::name) *)
Definition TpFailureKind_name (self : TpFailureKind) : string :=
  match self with
  | TpFailureKind.WorkerCrash => "worker-crash"
  | TpFailureKind.CoordinatorCrash => "coordinator-crash"
  | TpFailureKind.RouteLoss => "route-loss"
  | TpFailureKind.RoleSwap => "role-swap"
  | TpFailureKind.FirstPrefillTimeout => "first-prefill-timeout"
  | TpFailureKind.ModelMismatch => "model-mismatch"
  | TpFailureKind.IdentityUnknown => "identity-unknown"
  | TpFailureKind.DrainTimeout => "drain-timeout"
  end.

(** src/src/cluster/recovery_tp.rs:52-63 (TpFailureKind::cluster_failure) *)
Definition tp_cluster_failure (self : TpFailureKind) : ClusterFailure :=
  match self with
  | TpFailureKind.WorkerCrash | TpFailureKind.CoordinatorCrash
  | TpFailureKind.RouteLoss | TpFailureKind.RoleSwap => ClusterFailure.RouteIncomplete
  | TpFailureKind.FirstPrefillTimeout => ClusterFailure.FirstPrefillTimeout
  | TpFailureKind.ModelMismatch => ClusterFailure.DeploymentMismatch
  | TpFailureKind.IdentityUnknown => ClusterFailure.ChildIdentityUnknown
  | TpFailureKind.DrainTimeout => ClusterFailure.DrainTimeout
  end.

(** src/src/cluster/recovery_tp.rs:80-89 (TpRecoveryTracker) *)
Record TpRecoveryTracker := mkTpTracker {
  attempts : Z;
  max_attempts : Z;
  tp_incident_active : bool;
}.

(** src/src/cluster/recovery_tp.rs:92-98 (TpRecoveryTracker::new) *)
Definition tp_tracker_new (max : Z) : TpRecoveryTracker := mkTpTracker 0 (Z.max max 1) false.

(** src/src/cluster/recovery_tp.rs:152-156 (TpRecoveryTracker::default) *)
Definition tp_tracker_default : TpRecoveryTracker := tp_tracker_new 2.

(** src/src/cluster/recovery_tp.rs:114-136 (TpRecoveryTracker::classify) *)
Definition classify (k : TpFailureKind) (policy : OperationPolicy)
    (self : TpRecoveryTracker) : TpRecoveryDecision * TpRecoveryTracker :=
  if bool_decide (policy = OperationPolicy.ForcedStandalone)
  then (TpRecoveryDecision.Suppressed, self)
  else
    match k with
    | TpFailureKind.ModelMismatch | TpFailureKind.IdentityUnknown
    | TpFailureKind.DrainTimeout =>
        (TpRecoveryDecision.ManualIntervention,
         mkTpTracker (attempts self) (max_attempts self) true)
    | TpFailureKind.WorkerCrash | TpFailureKind.CoordinatorCrash
    | TpFailureKind.RouteLoss | TpFailureKind.RoleSwap
    | TpFailureKind.FirstPrefillTimeout =>
        if attempts self <? max_attempts self
        then (TpRecoveryDecision.Retry,
              mkTpTracker (attempts self + 1) (max_attempts self) true)
        else (TpRecoveryDecision.StopAndFallback,
              mkTpTracker (attempts self) (max_attempts self) true)
    end.

(** src/src/cluster/recovery_tp.rs:139-142 (TpRecoveryTracker::note_healthy_fallback) *)
Definition note_healthy_fallback (self : TpRecoveryTracker) : TpRecoveryTracker :=
  mkTpTracker 0 (max_attempts self) false.

(** src/src/cluster/recovery_tp.rs:145-149 (TpRecoveryTracker::note_unverifiable_fallback) *)
Definition note_unverifiable_fallback (self : TpRecoveryTracker)
    : TpRecoveryDecision * TpRecoveryTracker :=
  (TpRecoveryDecision.ManualIntervention, mkTpTracker 0 (max_attempts self) false).

(** The failures of one incident, in order, each with the policy in force. *)
Fixpoint incident (fs : list (TpFailureKind * OperationPolicy)) (self : TpRecoveryTracker)
    : list TpRecoveryDecision * TpRecoveryTracker :=
  match fs with
  | [] => ([], self)
  | (k, p) :: fs =>
      let '(d, self) := classify k p self in
      let '(ds, self) := incident fs self in
      (d :: ds, self)
  end.

Definition count_retries (ds : list TpRecoveryDecision) : Z :=
  length (filter (fun d => d = TpRecoveryDecision.Retry) ds).

Definition transient (k : TpFailureKind) : bool :=
  match k with
  | TpFailureKind.ModelMismatch | TpFailureKind.IdentityUnknown
  | TpFailureKind.DrainTimeout => false
  | _ => true
  end.

(** Failures that may be retried: transient ones under the automatic policy. *)
Definition count_retryable (fs : list (TpFailureKind * OperationPolicy)) : Z :=
  length (filter (fun kp => transient (fst kp) = true ∧ snd kp = OperationPolicy.Automatic) fs).

Lemma count_retries_cons d ds :
  count_retries (d :: ds) =
  count_retries ds + (if bool_decide (d = TpRecoveryDecision.Retry) then 1 else 0).
Proof. unfold count_retries. rewrite filter_cons. case_bool_decide; case_decide; simpl; tauto || lia. Qed.

Lemma incident_retries fs : ∀ self,
  0 ≤ attempts self ≤ max_attempts self →
  let '(ds, last) := incident fs self in
  count_retries ds = Z.min (count_retryable fs) (max_attempts self - attempts self) ∧
  attempts last = attempts self + count_retries ds ∧
  max_attempts last = max_attempts self.
Proof.
  induction fs as [|[k p] fs IH]; intros self Ha.
  - unfold count_retries, count_retryable. simpl. lia.
  - simpl incident.
    assert (count_retryable ((k, p) :: fs) = count_retryable fs
      + (if transient k && bool_decide (p = OperationPolicy.Automatic) then 1 else 0)) as Hc.
    { unfold count_retryable. rewrite filter_cons. simpl.
      case_decide as E; destruct (transient k), p; simpl; try lia; naive_solver. }
    rewrite Hc. unfold classify.
    assert (0 ≤ count_retryable fs) by (unfold count_retryable; lia).
    destruct p; simpl; rewrite ?andb_true_r, ?andb_false_r.
    + destruct k; simpl; try destruct (attempts self <? max_attempts self) eqn:E; bool_to_prop;
      match goal with |- context [incident fs ?s] =>
        specialize (IH s); destruct (incident fs s) as [ds last] end;
      simpl in *; rewrite count_retries_cons; simpl; lia.
    + specialize (IH self). destruct (incident fs self) as [ds last].
      rewrite count_retries_cons. simpl. lia.
Qed.

(** Bounded TP recovery.  Over any sequence of failures of one incident, under
    any changes of the operator policy, the number of retries granted is exactly
    the number of transient failures seen under the automatic policy, capped at
    the configured maximum: a forced-standalone policy grants none, and the
    tracker never grants more than [max_attempts] between two healthy fallbacks. *)
Lemma tp_retries_bounded max fs :
  is_u32 max →
  let '(ds, last) := incident fs (tp_tracker_new max) in
  count_retries ds = Z.min (count_retryable fs) (Z.max max 1) ∧
  attempts last ≤ max_attempts last.
Proof.
  intros Hu. pose proof (incident_retries fs (tp_tracker_new max)) as H.
  destruct (incident fs (tp_tracker_new max)) as [ds last].
  unfold is_u32 in Hu. simpl in H. lia.
Qed.

Lemma tp_retries_bounded_witness :
  let fs := [(TpFailureKind.WorkerCrash, OperationPolicy.Automatic);
             (TpFailureKind.RouteLoss, OperationPolicy.ForcedStandalone);
             (TpFailureKind.RouteLoss, OperationPolicy.Automatic);
             (TpFailureKind.RoleSwap, OperationPolicy.Automatic)] in
  fst (incident fs (tp_tracker_new 2)) =
    [TpRecoveryDecision.Retry; TpRecoveryDecision.Suppressed;
     TpRecoveryDecision.Retry; TpRecoveryDecision.StopAndFallback] ∧
  count_retries (fst (incident fs (tp_tracker_new 2))) = 2.
Proof.
  intros fs. split; [by vm_compute|].
  pose proof (tp_retries_bounded 2 fs ltac:(by vm_compute)) as H.
  destruct (incident fs (tp_tracker_new 2)) as [ds last].
  transitivity (Z.min (count_retryable fs) (Z.max 2 1)); [exact (proj1 H)|by vm_compute].
Defined.

(** ** [TpWorkerTracker] *)

Module TpWorkerPhase.

(** src/src/cluster/worker.rs:76-88 (TpWorkerPhase) *)
Inductive TpWorkerPhase := Idle | Prepared | Connected | Failed | Cancelled.

End TpWorkerPhase.
Notation TpWorkerPhase := TpWorkerPhase.TpWorkerPhase.

Global Instance TpWorkerPhase_eq_dec : EqDecision TpWorkerPhase.
Proof. solve_decision. Defined.

(** src/src/cluster/worker.rs:90-100 (TpWorkerPhase::name) *)
Definition TpWorkerPhase_name (self : TpWorkerPhase) : string :=
  match self with
  | TpWorkerPhase.Idle => "idle"
  | TpWorkerPhase.Prepared => "prepared"
  | TpWorkerPhase.Connected => "connected"
  | TpWorkerPhase.Failed => "failed"
  | TpWorkerPhase.Cancelled => "cancelled"
  end.

(** src/src/cluster/worker.rs:103-109 (TpWorkerTracker) *)
Record TpWorkerTracker := mkWorkerTracker {
  worker_phase : TpWorkerPhase;
  worker_generation : Z;
  worker_cancelled : bool;
}.

(** src/src/cluster/worker.rs:112-118 (TpWorkerTracker::new) *)
Definition worker_tracker_new : TpWorkerTracker :=
  mkWorkerTracker TpWorkerPhase.Idle 0 false.

(** src/src/cluster/worker.rs:125-133 (TpWorkerTracker::note_prepared) *)
Definition note_prepared (generation : Z) (self : TpWorkerTracker) : TpWorkerTracker :=
  if worker_cancelled self
  then mkWorkerTracker TpWorkerPhase.Cancelled (worker_generation self) true
  else mkWorkerTracker TpWorkerPhase.Prepared generation false.

(** src/src/cluster/worker.rs:137-147 (TpWorkerTracker::note_connected) *)
Definition note_connected (generation : Z) (self : TpWorkerTracker) : TpWorkerTracker :=
  if worker_cancelled self
     || negb (bool_decide (worker_phase self = TpWorkerPhase.Prepared))
  then self
  else if negb (generation =? worker_generation self) then self
  else mkWorkerTracker TpWorkerPhase.Connected (worker_generation self)
         (worker_cancelled self).

(** src/src/cluster/worker.rs:150-157 (TpWorkerTracker::note_failed) *)
Definition note_failed (self : TpWorkerTracker) : TpWorkerTracker :=
  if worker_cancelled self
  then mkWorkerTracker TpWorkerPhase.Cancelled (worker_generation self) true
  else mkWorkerTracker TpWorkerPhase.Failed (worker_generation self) false.

(** src/src/cluster/worker.rs:160-168 (TpWorkerTracker::cancel) *)
Definition worker_cancel (self : TpWorkerTracker) : TpWorkerTracker :=
  if bool_decide (worker_phase self = TpWorkerPhase.Connected)
  then mkWorkerTracker (worker_phase self) (worker_generation self) true
  else mkWorkerTracker TpWorkerPhase.Cancelled (worker_generation self) true.

(** The observations a worker session can make. *)
Inductive WorkerNote :=
| NotePrepared (generation : Z)
| NoteConnected (generation : Z)
| NoteFailed
| NoteCancel.

Definition worker_note (self : TpWorkerTracker) (n : WorkerNote) : TpWorkerTracker :=
  match n with
  | NotePrepared g => note_prepared g self
  | NoteConnected g => note_connected g self
  | NoteFailed => note_failed self
  | NoteCancel => worker_cancel self
  end.

Definition worker_run (ns : list WorkerNote) : TpWorkerTracker :=
  foldl worker_note worker_tracker_new ns.

Definition is_connected_note (n : WorkerNote) : Prop :=
  match n with NoteConnected _ => True | _ => False end.
Definition is_connected_or_cancel (n : WorkerNote) : Prop :=
  match n with NoteConnected _ | NoteCancel => True | _ => False end.

(** The histories that end in a [Prepared], respectively [Connected], session. *)
Definition prepared_history (g : Z) (ns : list WorkerNote) : Prop :=
  ∃ pre mid, ns = pre ++ NotePrepared g :: mid ∧ NoteCancel ∉ pre ∧
             Forall is_connected_note mid.
Definition connected_history (ns : list WorkerNote) : Prop :=
  ∃ g hist post, ns = hist ++ NoteConnected g :: post ∧ prepared_history g hist ∧
                 Forall is_connected_or_cancel post.

Lemma worker_run_snoc ns n : worker_run (ns ++ [n]) = worker_note (worker_run ns) n.
Proof. unfold worker_run. by rewrite foldl_app. Qed.

Lemma worker_cancelled_iff ns : worker_cancelled (worker_run ns) = true ↔ NoteCancel ∈ ns.
Proof.
  induction ns as [|n ns IH] using rev_ind.
  - split; [done|]. by intros ?%not_elem_of_nil.
  - rewrite worker_run_snoc, elem_of_app, list_elem_of_singleton, <- IH.
    destruct n; simpl; unfold note_prepared, note_connected, note_failed, worker_cancel;
      repeat case_match; simpl; naive_solver congruence.
Qed.

Lemma worker_history ns :
  (worker_phase (worker_run ns) = TpWorkerPhase.Prepared →
   prepared_history (worker_generation (worker_run ns)) ns) ∧
  (worker_phase (worker_run ns) = TpWorkerPhase.Connected → connected_history ns).
Proof.
  induction ns as [|n ns [IHp IHc]] using rev_ind; [done|].
  pose proof (worker_cancelled_iff ns) as Hcan. rewrite worker_run_snoc.
  destruct (worker_run ns) as [ph gen can]; simpl in *.
  assert (can = false → NoteCancel ∉ ns) as Hnc by (intros -> ?; naive_solver).
  destruct n as [g|g| |]; simpl;
    unfold note_prepared, note_connected, note_failed, worker_cancel; simpl.
  - destruct can; simpl; split; intros; try done. exists ns, []. split_and!; auto.
  - assert (ph = TpWorkerPhase.Prepared → prepared_history gen (ns ++ [NoteConnected g])).
    { intros H. destruct (IHp H) as (pre & mid & -> & ? & ?).
      exists pre, (mid ++ [NoteConnected g]). rewrite <- app_assoc. split_and!; [done|done|].
      apply Forall_app; repeat constructor. done. }
    assert (ph = TpWorkerPhase.Connected → connected_history (ns ++ [NoteConnected g])).
    { intros H'. destruct (IHc H') as (g' & hist & post & -> & ? & ?).
      exists g', hist, (post ++ [NoteConnected g]). rewrite <- app_assoc. split_and!; [done|done|].
      apply Forall_app; repeat constructor. done. }
    repeat case_match; simpl; bool_to_prop; subst; split; try done; intros _.
    exists gen, ns, []. split_and!; auto.
  - destruct can; simpl; split; intros; done.
  - case_bool_decide; simpl; subst; split; try done. intros _.
    destruct IHc as (g' & hist & post & -> & ? & ?); [done|].
    exists g', hist, (post ++ [NoteCancel]). rewrite <- app_assoc. split_and!; [done|done|].
    apply Forall_app; repeat constructor. done.
Qed.

Lemma prepared_history_run g ns :
  prepared_history g ns → NoteCancel ∉ ns ∧
  worker_generation (worker_run ns) = g ∧
  (worker_phase (worker_run ns) = TpWorkerPhase.Prepared ∨
   worker_phase (worker_run ns) = TpWorkerPhase.Connected).
Proof.
  intros (pre & mid & -> & Hp & Hm). induction mid as [|n mid IH] using rev_ind.
  - pose proof (worker_cancelled_iff pre) as Hc.
    rewrite worker_run_snoc. simpl. unfold note_prepared.
    destruct (worker_cancelled (worker_run pre)); [naive_solver|]. simpl.
    split_and!; [|done|by left]. rewrite elem_of_app, list_elem_of_singleton. naive_solver.
  - apply Forall_app in Hm as [Hm [Hn _]%Forall_cons]. destruct (IH Hm) as (H1 & H2 & H3).
    rewrite app_comm_cons, app_assoc, worker_run_snoc.
    set (hist := pre ++ NotePrepared g :: mid) in *.
    destruct n; try done. simpl. split.
    + rewrite elem_of_app, list_elem_of_singleton. naive_solver.
    + unfold note_connected. repeat case_match; simpl; split; try done; by right.
Qed.

Lemma connected_stable ns post :
  worker_phase (worker_run ns) = TpWorkerPhase.Connected →
  Forall is_connected_or_cancel post →
  worker_phase (worker_run (ns ++ post)) = TpWorkerPhase.Connected.
Proof.
  intros H. induction post as [|n post IH] using rev_ind; [by rewrite app_nil_r|].
  intros [Hp [Hn _]%Forall_cons]%Forall_app. specialize (IH Hp).
  rewrite app_assoc, worker_run_snoc.
  destruct n; try done; simpl; unfold note_connected, worker_cancel; rewrite IH;
    repeat case_match; done.
Qed.

(** A TP worker session counts as connected exactly when its history says so:
    a preparation of some generation before any cancellation, followed only by
    ready observations up to one of that same generation, and afterwards by
    nothing but further ready observations or cancellations.  A late ready of an
    older generation, one after a failure, and one after a cancellation are
    ignored. *)
Lemma tp_worker_connected_iff ns :
  worker_phase (worker_run ns) = TpWorkerPhase.Connected ↔ connected_history ns.
Proof.
  split; [apply worker_history|].
  intros (g & hist & post & -> & Hh & Hp).
  destruct (prepared_history_run g hist Hh) as (Hn & Hg & Hph).
  change (NoteConnected g :: post) with ([NoteConnected g] ++ post).
  rewrite app_assoc. apply connected_stable; [|done].
  rewrite worker_run_snoc. simpl. unfold note_connected.
  pose proof (worker_cancelled_iff hist).
  destruct (worker_cancelled (worker_run hist)); [naive_solver|].
  destruct Hph as [E|E]; rewrite E; simpl; [|done].
  rewrite Hg, Z.eqb_refl. done.
Qed.
