(* ===== verification/Admission.v ===== *)
(** * The admission gate: [src/src/admission.rs]

    [AdmissionGate] counts the requests in flight, refuses new ones unless it is
    serving, and drains them before the upstream changes.  Each method is one
    critical section of the mutex; [drain] is several, with the waiting loop
    between them.  The concurrent system below interleaves all of them, one
    atomic step at a time, for any number of request and drain tasks. *)

From S2P Require Import Prelude.

(** ** Data *)

Module AdmissionState.

(** src/src/admission.rs:6-11 (AdmissionState) *)
Inductive AdmissionState := Serving | Draining | Blocked.

End AdmissionState.
Notation AdmissionState := AdmissionState.AdmissionState.

Module AdmissionError.

(** src/src/admission.rs:21-29 (AdmissionError) *)
Inductive AdmissionError := NotServing | UpstreamNotReady | AtCapacity.

End AdmissionError.
Notation AdmissionError := AdmissionError.AdmissionError.

Module DrainError.

(** src/src/admission.rs:31-37 (DrainError) *)
Inductive DrainError := Timeout | GenerationChanged.

End DrainError.
Notation DrainError := DrainError.DrainError.

Global Instance AdmissionState_eq_dec : EqDecision AdmissionState.
Proof. solve_decision. Defined.
Global Instance AdmissionError_eq_dec : EqDecision AdmissionError.
Proof. solve_decision. Defined.
Global Instance DrainError_eq_dec : EqDecision DrainError.
Proof. solve_decision. Defined.

(** src/src/admission.rs:39-46 (Inner) *)
Record Inner := mkInner {
  state : AdmissionState;
  closed : bool;
  in_flight : Z;
  max_in_flight : Z;
  drain_generation : option Z;
}.

(** src/src/admission.rs:13-19 (AdmissionSnapshot) *)
Record AdmissionSnapshot := mkAdmissionSnapshot {
  snapshot_state : AdmissionState;
  snapshot_in_flight : Z;
  snapshot_max_in_flight : Z;
  snapshot_drain_generation : option Z;
}.

(** ** Operations *)

(** [None] is the failed assertion.  src/src/admission.rs:65-79 (AdmissionGate::new) *)
Definition gate_new (max : Z) : option Inner :=
  if 0 <? max then Some (mkInner AdmissionState.Blocked false 0 max None) else None.

(** src/src/admission.rs:81-89 (AdmissionGate::snapshot) *)
Definition snapshot (inner : Inner) : AdmissionSnapshot :=
  mkAdmissionSnapshot (state inner) (in_flight inner) (max_in_flight inner)
    (drain_generation inner).

(** src/src/admission.rs:91-98 (AdmissionGate::start_serving) *)
Definition start_serving (inner : Inner) : Inner :=
  if closed inner then inner
  else mkInner AdmissionState.Serving (closed inner) (in_flight inner)
         (max_in_flight inner) None.

(** src/src/admission.rs:100-102 (AdmissionGate::block) *)
Definition block (inner : Inner) : Inner :=
  mkInner AdmissionState.Blocked (closed inner) (in_flight inner)
    (max_in_flight inner) (drain_generation inner).

(** src/src/admission.rs:105-109 (AdmissionGate::close) *)
Definition close (inner : Inner) : Inner :=
  mkInner AdmissionState.Blocked true (in_flight inner)
    (max_in_flight inner) (drain_generation inner).

(** In a release build the debug assertions are compiled out.
    src/src/admission.rs:116-121 (AdmissionGate::reset_blocked_generation) *)
Definition reset_blocked_generation (inner : Inner) : Inner :=
  mkInner (state inner) (closed inner) (in_flight inner) (max_in_flight inner) None.

(** src/src/admission.rs:141-159 (AdmissionGate::acquire_permit) *)
Definition acquire_permit (upstream_ready : bool) (inner : Inner)
    : result Inner AdmissionError :=
  if closed inner then Err AdmissionError.NotServing
  else if negb upstream_ready then Err AdmissionError.UpstreamNotReady
  else if max_in_flight inner <=? in_flight inner then Err AdmissionError.AtCapacity
  else Ok (mkInner (state inner) (closed inner) (wrap64 (in_flight inner + 1))
             (max_in_flight inner) (drain_generation inner)).

(** src/src/admission.rs:123-129 (AdmissionGate::try_acquire) *)
Definition try_acquire (upstream_ready : bool) (inner : Inner)
    : result Inner AdmissionError :=
  if negb (bool_decide (state inner = AdmissionState.Serving))
  then Err AdmissionError.NotServing
  else acquire_permit upstream_ready inner.

(** src/src/admission.rs:133-139 (AdmissionGate::try_acquire_recovery) *)
Definition try_acquire_recovery (upstream_ready : bool) (inner : Inner)
    : result Inner AdmissionError :=
  acquire_permit upstream_ready inner.

(** src/src/admission.rs:161-171 (AdmissionGate::begin_drain) *)
Definition begin_drain (generation : Z) (inner : Inner) : result Inner DrainError :=
  if is_some_and (drain_generation inner) (fun active => negb (active =? generation))
  then Err DrainError.GenerationChanged
  else Ok (mkInner AdmissionState.Draining (closed inner) (in_flight inner)
             (max_in_flight inner) (Some generation)).

(** src/src/admission.rs:173-176 (AdmissionGate::accepts_drained_ack) *)
Definition accepts_drained_ack (generation : Z) (inner : Inner) : bool :=
  bool_decide (state inner = AdmissionState.Draining)
  && bool_decide (drain_generation inner = Some generation).

(** The last critical section of [drain], after the wait.
    src/src/admission.rs:195-200 (AdmissionGate::drain) *)
Definition finish_drain (generation : Z) (inner : Inner) : result Inner DrainError :=
  if negb (bool_decide (drain_generation inner = Some generation))
  then Err DrainError.GenerationChanged
  else Ok (mkInner AdmissionState.Blocked (closed inner) (in_flight inner)
             (max_in_flight inner) (drain_generation inner)).

(** The critical section of a dropped permit: the new state and whether the
    waiters are to be notified afterwards.
    src/src/admission.rs:211-226 (AdmissionPermit::drop) *)
Definition permit_drop (inner : Inner) : Inner * bool :=
  let n := wrap64 (in_flight inner - 1) in
  (mkInner (state inner) (closed inner) n (max_in_flight inner) (drain_generation inner),
   n =? 0).

(** ** [tokio::sync::Notify]

    The interface of the notification cell [zero_in_flight]: a waiter obtains a
    ticket with [notified], and [notify_waiters] completes every ticket that has
    been issued, awaited or not, as the documentation of [Notify] says. *)

Class Notify (N T : Type) := {
  notify_new : N;
  notified : N → T;
  notify_waiters : N → N;
  woken : N → T → bool;
  issued : N → T → Prop;
  notified_issued n : issued n (notified n);
  issued_mono n t : issued n t → issued (notify_waiters n) t;
  notify_wakes n t : issued n t → woken (notify_waiters n) t = true;
}.

(** ** The concurrent system *)

Inductive PermitKind := Public | Recovery.
Global Instance PermitKind_eq_dec : EqDecision PermitKind.
Proof. solve_decision. Defined.

Section system.
Context {N T : Type} `{!Notify N T}.

(** Where a task inside [drain] stands in the loop of [wait_for_zero]: a ticket
    taken, asleep on it, out of the loop, or returned. *)
Inductive DrainPhase :=
| Subscribed (ticket : T)
| Sleeping (ticket : T)
| AtZero
| Returned (r : result unit DrainError).

(** The shared cell, the outstanding permits, the drain tasks with their
    generation, and the permits dropped to zero whose [notify_waiters] call is
    still to come. *)
Record Gate := mkGate {
  inner : Inner;
  notify : N;
  permits : gmap nat PermitKind;
  drains : gmap nat (Z * DrainPhase);
  notifies_due : nat;
}.

Inductive Label :=
| LStartServing
| LBlock
| LClose
| LResetBlocked
| LAcquire (p : nat) (k : PermitKind) (ready : bool)
| LDrop (p : nat)
| LNotify
| LBeginDrain (t : nat) (generation : Z)
| LCheckZero (t : nat)
| LWake (t : nat)
| LTimeout (t : nat)
| LFinishDrain (t : nat).

Definition set_inner (s : Gate) (i : Inner) : Gate :=
  mkGate i (notify s) (permits s) (drains s) (notifies_due s).
Definition set_drain (s : Gate) (t : nat) (g : Z) (ph : DrainPhase) : Gate :=
  mkGate (inner s) (notify s) (permits s) (<[t := (g, ph)]> (drains s)) (notifies_due s).

Definition acquire (k : PermitKind) (ready : bool) (i : Inner) : result Inner AdmissionError :=
  match k with
  | Public => try_acquire ready i
  | Recovery => try_acquire_recovery ready i
  end.

(** One pass of the waiting loop: take a ticket, then look at the counter.
    src/src/admission.rs:178-190 (AdmissionGate::wait_for_zero) *)
Definition wait_for_zero_check (s : Gate) (t : nat) : option Gate :=
  match drains s !! t with
  | Some (g, Subscribed ticket) =>
      Some (set_drain s t g
              (if in_flight (inner s) =? 0 then AtZero else Sleeping ticket))
  | _ => None
  end.

Definition wait_for_zero_wake (s : Gate) (t : nat) : option Gate :=
  match drains s !! t with
  | Some (g, Sleeping ticket) =>
      if woken (notify s) ticket
      then Some (set_drain s t g (Subscribed (notified (notify s))))
      else None
  | _ => None
  end.

(** The critical sections of [drain] in their order.
    src/src/admission.rs:192-201 (AdmissionGate::drain) *)
Definition drain_begin (s : Gate) (t : nat) (g : Z) : option Gate :=
  match drains s !! t with
  | None | Some (_, Returned _) =>
      Some (match begin_drain g (inner s) with
            | Ok i => set_drain (set_inner s i) t g (Subscribed (notified (notify s)))
            | Err e => set_drain s t g (Returned (Err e))
            end)
  | _ => None
  end.

Definition drain_timeout (s : Gate) (t : nat) : option Gate :=
  match drains s !! t with
  | Some (g, Subscribed _) | Some (g, Sleeping _) =>
      Some (set_drain s t g (Returned (Err DrainError.Timeout)))
  | _ => None
  end.

Definition drain_finish (s : Gate) (t : nat) : option Gate :=
  match drains s !! t with
  | Some (g, AtZero) =>
      Some (match finish_drain g (inner s) with
            | Ok i => set_drain (set_inner s i) t g (Returned (Ok tt))
            | Err e => set_drain s t g (Returned (Err e))
            end)
  | _ => None
  end.

(** One atomic step; [None] when the step is not enabled. *)
Definition exec (s : Gate) (l : Label) : option Gate :=
  match l with
  | LStartServing => Some (set_inner s (start_serving (inner s)))
  | LBlock => Some (set_inner s (block (inner s)))
  | LClose => Some (set_inner s (close (inner s)))
  | LResetBlocked => Some (set_inner s (reset_blocked_generation (inner s)))
  | LAcquire p k ready =>
      match permits s !! p, acquire k ready (inner s) with
      | None, Ok i =>
          Some (mkGate i (notify s) (<[p := k]> (permits s)) (drains s) (notifies_due s))
      | _, _ => None
      end
  | LDrop p =>
      match permits s !! p with
      | Some _ =>
          let '(i, became_zero) := permit_drop (inner s) in
          Some (mkGate i (notify s) (delete p (permits s)) (drains s)
                  (if became_zero then S (notifies_due s) else notifies_due s))
      | None => None
      end
  | LNotify =>
      match notifies_due s with
      | S n => Some (mkGate (inner s) (notify_waiters (notify s)) (permits s) (drains s) n)
      | O => None
      end
  | LBeginDrain t g => drain_begin s t g
  | LCheckZero t => wait_for_zero_check s t
  | LWake t => wait_for_zero_wake s t
  | LTimeout t => drain_timeout s t
  | LFinishDrain t => drain_finish s t
  end.

Fixpoint run (s : Gate) (ls : list Label) : option Gate :=
  match ls with
  | [] => Some s
  | l :: ls => s' ← exec s l; run s' ls
  end.

Definition gate_init (i : Inner) : Gate := mkGate i notify_new ∅ ∅ 0.

(** ** Invariant *)

Definition waiting_ok (s : Gate) (ph : DrainPhase) : Prop :=
  match ph with
  | Subscribed tk => issued (notify s) tk
  | Sleeping tk =>
      issued (notify s) tk ∧
      (woken (notify s) tk = true ∨ (0 < notifies_due s)%nat ∨ 0 < in_flight (inner s))
  | _ => True
  end.

Record gate_inv (max : Z) (s : Gate) : Prop := {
  inv_max : max_in_flight (inner s) = max;
  inv_max_range : is_u64 max;
  inv_count : in_flight (inner s) = size (permits s);
  inv_cap : in_flight (inner s) ≤ max;
  inv_closed : closed (inner s) = true → state (inner s) ≠ AdmissionState.Serving;
  inv_waiting : ∀ t g ph, drains s !! t = Some (g, ph) → waiting_ok s ph;
}.

Lemma permit_drop_inflight i :
  0 < in_flight i ≤ u64_max → in_flight (fst (permit_drop i)) = in_flight i - 1.
Proof. intros H. simpl. apply wrap64_small. unfold is_u64. lia. Qed.

Lemma acquire_permit_ok ready i i' :
  acquire_permit ready i = Ok i' →
  closed i = false ∧ in_flight i < max_in_flight i ∧
  i' = mkInner (state i) false (wrap64 (in_flight i + 1)) (max_in_flight i)
         (drain_generation i).
Proof. unfold acquire_permit. repeat case_match; intros [=]; subst; bool_to_prop; naive_solver. Qed.

Lemma acquire_ok k ready i i' :
  acquire k ready i = Ok i' →
  (k = Public → state i = AdmissionState.Serving) ∧
  closed i = false ∧ in_flight i < max_in_flight i ∧
  i' = mkInner (state i) false (wrap64 (in_flight i + 1)) (max_in_flight i)
         (drain_generation i).
Proof.
  destruct k; simpl; unfold try_acquire, try_acquire_recovery.
  - case_bool_decide; simpl; [|done]. by intros ?%acquire_permit_ok.
  - by intros ?%acquire_permit_ok.
Qed.

(** A step that only moves [drains] or flags keeps what the waiters need. *)
Lemma inv_set_inner max s i :
  gate_inv max s →
  max_in_flight i = max_in_flight (inner s) → in_flight i = in_flight (inner s) →
  (closed i = true → state i ≠ AdmissionState.Serving) →
  gate_inv max (set_inner s i).
Proof.
  intros [] Hm Hf Hc. split; simpl; try (done || congruence).
  intros t g ph H. specialize (inv_waiting0 t g ph H).
  destruct ph; simpl in *; try done. by rewrite Hf.
Qed.

Lemma inv_set_drain max s t g ph :
  gate_inv max s → waiting_ok s ph → gate_inv max (set_drain s t g ph).
Proof.
  intros [] Hw. split; simpl; try done.
  intros t' g' ph' [[-> [= <- <-]]|[? H]]%lookup_insert_Some; [by destruct ph|].
  specialize (inv_waiting0 t' g' ph' H). by destruct ph'.
Qed.

Lemma inv_acquire max s p k ready i :
  gate_inv max s → permits s !! p = None → acquire k ready (inner s) = Ok i →
  gate_inv max (mkGate i (notify s) (<[p := k]> (permits s)) (drains s) (notifies_due s)).
Proof.
  intros [] Hp Hacq. apply acquire_ok in Hacq as (_ & Hc & Hlt & ->).
  assert (wrap64 (in_flight (inner s) + 1) = in_flight (inner s) + 1) as E.
  { apply wrap64_small. unfold is_u64 in *. lia. }
  split; simpl; try done; rewrite ?E.
  - rewrite map_size_insert_None by done. lia.
  - lia.
  - intros t g ph H. specialize (inv_waiting0 t g ph H).
    destruct ph; simpl in *; try done. split; [naive_solver|]. right; right. lia.
Qed.

Lemma inv_drop max s p k :
  gate_inv max s → permits s !! p = Some k →
  gate_inv max (mkGate (fst (permit_drop (inner s))) (notify s) (delete p (permits s)) (drains s)
    (if snd (permit_drop (inner s)) then S (notifies_due s) else notifies_due s)).
Proof.
  intros [] Hp.
  assert (size (permits s) = S (size (delete p (permits s)))) as Hs.
  { rewrite <- (map_size_insert_None p k) by apply lookup_delete_eq.
    by rewrite insert_delete_id. }
  assert (wrap64 (in_flight (inner s) - 1) = size (delete p (permits s))) as E.
  { rewrite inv_count0, Hs. rewrite wrap64_small; unfold is_u64 in *; lia. }
  split; simpl; try done; rewrite ?E; try lia.
  intros t g ph H. specialize (inv_waiting0 t g ph H).
  destruct ph; simpl in *; try done. split; [naive_solver|].
  destruct (Z.eqb_spec (size (delete p (permits s))) 0); lia.
Qed.

Lemma inv_notify max s n :
  gate_inv max s →
  gate_inv max (mkGate (inner s) (notify_waiters (notify s)) (permits s) (drains s) n).
Proof.
  intros []. split; simpl; try done.
  intros t g ph H. specialize (inv_waiting0 t g ph H). destruct ph; simpl in *; try done.
  - by apply issued_mono.
  - destruct inv_waiting0 as [Hi _]. split; [by apply issued_mono|]. left. by apply notify_wakes.
Qed.

Lemma begin_drain_ok g i i' :
  begin_drain g i = Ok i' →
  i' = mkInner AdmissionState.Draining (closed i) (in_flight i) (max_in_flight i) (Some g).
Proof. unfold begin_drain. case_match; by intros [= <-]. Qed.

Lemma begin_drain_err g i e : begin_drain g i = Err e → drain_generation i ≠ Some g.
Proof.
  unfold begin_drain. destruct (drain_generation i) as [a|]; simpl; [|done].
  destruct (Z.eqb_spec a g); simpl; congruence.
Qed.

Lemma finish_drain_ok g i i' :
  finish_drain g i = Ok i' →
  drain_generation i = Some g ∧
  i' = mkInner AdmissionState.Blocked (closed i) (in_flight i) (max_in_flight i) (Some g).
Proof. unfold finish_drain. case_bool_decide as E; simpl; [|done]. rewrite E. by intros [= <-]. Qed.

Lemma inv_exec max s l s' : gate_inv max s → exec s l = Some s' → gate_inv max s'.
Proof.
  intros Hi. destruct l; simpl.
  - intros [= <-]. apply inv_set_inner; unfold start_serving; repeat case_match; try done.
    apply Hi.
  - intros [= <-]. by apply inv_set_inner.
  - intros [= <-]. by apply inv_set_inner.
  - intros [= <-]. apply inv_set_inner; try done. apply Hi.
  - repeat case_match; intros [= <-]. by eapply inv_acquire.
  - case_match eqn:E; intros [= <-]. by apply (inv_drop _ _ _ _ Hi E).
  - case_match; intros [= <-]. by apply inv_notify.
  - unfold drain_begin. repeat case_match; intros [= <-]; try (by apply inv_set_drain);
      match goal with H : begin_drain _ _ = Ok _ |- _ => apply begin_drain_ok in H as -> end;
      (apply inv_set_drain; [by apply inv_set_inner|apply notified_issued]).
  - unfold wait_for_zero_check. repeat case_match; intros [= <-]; simplify_eq;
      (apply inv_set_drain; [done|]); simpl; [done|].
    destruct Hi. split; [by eapply (inv_waiting0 _ _ (Subscribed _))|]. right; right. bool_to_prop.
    lia.
  - unfold wait_for_zero_wake. repeat case_match; intros [= <-].
    apply inv_set_drain; [done|]. apply notified_issued.
  - unfold drain_timeout. repeat case_match; intros [= <-]; by apply inv_set_drain.
  - unfold drain_finish. repeat case_match; intros [= <-]; try (by apply inv_set_drain).
    match goal with H : finish_drain _ _ = Ok _ |- _ => apply finish_drain_ok in H as [_ ->] end.
    apply inv_set_drain; [by apply inv_set_inner|done].
Qed.

Lemma inv_run max ls : ∀ s s', gate_inv max s → run s ls = Some s' → gate_inv max s'.
Proof.
  induction ls as [|l ls IH]; simpl; intros s s' Hi; [by intros [= <-]|].
  intros (s1 & H1 & H2)%bind_Some. eapply IH; [|done]. by eapply inv_exec.
Qed.

Lemma inv_init max i : is_u64 max → gate_new max = Some i → gate_inv max (gate_init i).
Proof.
  unfold gate_new. intros Hu. case_match; intros [= <-]. bool_to_prop.
  split; simpl; try done; unfold is_u64 in *; lia.
Qed.

Lemma inv_reachable max i ls s :
  is_u64 max → gate_new max = Some i → run (gate_init i) ls = Some s → gate_inv max s.
Proof. intros Hu Hn. apply inv_run. by apply inv_init. Qed.

(** ** A drain excludes public requests *)

(** What holds of the drain task [t] of generation [g] until the generation is
    retired by somebody else. *)
Definition drain_guard (t : nat) (g : Z) (s : Gate) : Prop :=
  drain_generation (inner s) = Some g →
  state (inner s) ≠ AdmissionState.Serving ∧
  (drains s !! t = Some (g, AtZero) ∨ drains s !! t = Some (g, Returned (Ok tt)) →
   ∀ p, permits s !! p ≠ Some Public).

Definition begins (g : Z) (l : Label) : bool :=
  match l with LBeginDrain _ g' => g' =? g | _ => false end.

Lemma guard_set_inner t g s i :
  drain_guard t g s →
  (drain_generation i = Some g →
   drain_generation (inner s) = Some g ∧
   (state i = AdmissionState.Serving → state (inner s) = AdmissionState.Serving)) →
  drain_guard t g (set_inner s i).
Proof. unfold drain_guard. simpl. naive_solver. Qed.

Lemma guard_set_drain t g s t' g' ph :
  drain_guard t g s →
  (drain_generation (inner s) = Some g → t = t' →
   (ph = AtZero ∨ ph = Returned (Ok tt)) → ∀ p, permits s !! p ≠ Some Public) →
  drain_guard t g (set_drain s t' g' ph).
Proof.
  unfold drain_guard. simpl. intros Hg Hn E. destruct (Hg E) as [Hs Hp]. split; [done|].
  destruct (decide (t = t')) as [->|].
  - rewrite lookup_insert_eq. intros H. apply Hn; try done. naive_solver.
  - by rewrite lookup_insert_ne by done.
Qed.

Lemma guard_exec max t g s l s' :
  gate_inv max s → drain_guard t g s → begins g l = false →
  exec s l = Some s' → drain_guard t g s'.
Proof.
  intros Hi Hg Hb. destruct l; simpl.
  - intros [= <-]. apply guard_set_inner; [done|]. unfold start_serving. by case_match.
  - intros [= <-]. by apply guard_set_inner.
  - intros [= <-]. by apply guard_set_inner.
  - intros [= <-]. by apply guard_set_inner.
  - repeat case_match; intros [= <-]. rename select (acquire _ _ _ = _) into Ha.
    apply acquire_ok in Ha as (Hk & _ & _ & ->).
    unfold drain_guard in *. simpl. intros E. destruct (Hg E) as [Hs Hp]. split; [done|].
    intros Hd p' [[-> [= ->]]|[? ?]]%lookup_insert_Some; [by apply Hs, Hk|by eapply Hp].
  - case_match; intros [= <-]. unfold drain_guard in *. simpl. intros E.
    destruct (Hg E) as [Hs Hp]. split; [done|].
    intros Hd p' [? ?]%lookup_delete_Some. by eapply Hp.
  - case_match; intros [= <-]. done.
  - simpl in Hb. bool_to_prop. unfold drain_begin.
    repeat case_match; intros [= <-];
    try (apply guard_set_drain; [done|]; naive_solver);
    match goal with H : begin_drain _ _ = Ok _ |- _ => apply begin_drain_ok in H as -> end;
    (apply guard_set_drain; simpl; [apply guard_set_inner; simpl|]; congruence || naive_solver).
  - unfold wait_for_zero_check. repeat case_match; intros [= <-];
    apply guard_set_drain; try done; [|naive_solver].
    intros _ -> _ p' Hp. destruct Hi. bool_to_prop.
    assert (permits s = ∅) as Hem by (apply map_size_empty_iff; lia).
    by rewrite Hem, lookup_empty in Hp.
  - unfold wait_for_zero_wake. repeat case_match; intros [= <-].
    apply guard_set_drain; [done|]; naive_solver.
  - unfold drain_timeout. repeat case_match; intros [= <-];
    (apply guard_set_drain; [done|]; naive_solver).
  - unfold drain_finish. repeat case_match; intros [= <-];
      [|apply guard_set_drain; [done|]; naive_solver].
    rename select (finish_drain _ _ = _) into Hf. apply finish_drain_ok in Hf as [E ->].
    apply guard_set_drain; simpl.
    + apply guard_set_inner; [done|]. simpl. naive_solver.
    + intros Eg -> _. apply Hg; [congruence|]. left. naive_solver.
Qed.

Lemma guard_run max t g ls : ∀ s s',
  gate_inv max s → drain_guard t g s → forallb (fun l => negb (begins g l)) ls = true →
  run s ls = Some s' → drain_guard t g s'.
Proof.
  induction ls as [|l ls IH]; simpl; intros s s' Hi Hg Hb; [by intros [= <-]|].
  bool_to_prop. intros (s1 & H1 & H2)%bind_Some.
  apply (IH s1 s'); [by eapply inv_exec|by eapply guard_exec|done|done].
Qed.

(** ** A closed gate *)

Lemma closed_exec s l s' :
  closed (inner s) = true → exec s l = Some s' →
  closed (inner s') = true ∧ permits s' ⊆ permits s.
Proof.
  intros Hc. destruct l; simpl.
  - intros [= <-]. unfold start_serving. rewrite Hc. done.
  - by intros [= <-].
  - by intros [= <-].
  - by intros [= <-].
  - repeat case_match; intros [= <-].
    rename select (acquire _ _ _ = _) into Ha. apply acquire_ok in Ha as (_ & ? & _). congruence.
  - case_match; intros [= <-]. split; [done|]. apply delete_subseteq.
  - case_match; by intros [= <-].
  - unfold drain_begin. repeat case_match; intros [= <-]; simpl; try done;
    match goal with H : begin_drain _ _ = Ok _ |- _ => by apply begin_drain_ok in H as -> end.
  - unfold wait_for_zero_check. repeat case_match; by intros [= <-].
  - unfold wait_for_zero_wake. repeat case_match; by intros [= <-].
  - unfold drain_timeout. repeat case_match; by intros [= <-].
  - unfold drain_finish. repeat case_match; intros [= <-]; simpl; try done.
    rename select (finish_drain _ _ = _) into Hf. by apply finish_drain_ok in Hf as [_ ->].
Qed.

Lemma closed_run ls : ∀ s s',
  closed (inner s) = true → run s ls = Some s' →
  closed (inner s') = true ∧ permits s' ⊆ permits s.
Proof.
  induction ls as [|l ls IH]; simpl; intros s s' Hc; [by intros [= <-]|].
  intros (s1 & H1 & H2)%bind_Some. destruct (closed_exec _ _ _ Hc H1) as [Hc1 Hs1].
  destruct (IH _ _ Hc1 H2). split; [done|]. by etransitivity.
Qed.

(** ** Properties *)

(** Exact accounting.  Under every interleaving, from a new gate of capacity
    [max], the in-flight counter is the number of permits acquired and not yet
    dropped, so it never wraps and never exceeds the capacity, and every dropped
    permit is given back. *)
Lemma admission_counts_permits max i ls (s : Gate) :
  is_u64 max → gate_new max = Some i → run (gate_init i) ls = Some s →
  in_flight (inner s) = size (permits s) ∧ in_flight (inner s) ≤ max.
Proof. intros Hu Hn Hr. by destruct (inv_reachable _ _ _ _ Hu Hn Hr). Qed.

(** C6: a successful drain is quiescent for public traffic.  If task [t] begins a
    drain of generation [g] and later returns [Ok] from it, and nobody else began
    a drain of the same generation in between, then whatever else happened
    concurrently (recovery canaries, blocking, even a restart of serving) the gate
    is blocked, still carries the generation, and no public request is in flight. *)
Theorem drain_ok_excludes_public max i ls0 (s0 s1 s2 s3 : Gate) t g ls :
  is_u64 max → gate_new max = Some i → run (gate_init i) ls0 = Some s0 →
  exec s0 (LBeginDrain t g) = Some s1 →
  forallb (fun l => negb (begins g l)) ls = true →
  run s1 ls = Some s2 →
  exec s2 (LFinishDrain t) = Some s3 →
  drains s3 !! t = Some (g, Returned (Ok tt)) →
  state (inner s3) = AdmissionState.Blocked ∧
  drain_generation (inner s3) = Some g ∧
  (∀ p, permits s3 !! p ≠ Some Public).
Proof.
  intros Hu Hn Hr H1 Hb H2 H3 Hd.
  pose proof (inv_reachable _ _ _ _ Hu Hn Hr) as Hi.
  pose proof (inv_exec _ _ _ _ Hi H1) as Hi1.
  assert (drain_guard t g s1) as Hg.
  { revert H1. simpl. unfold drain_begin. unfold drain_guard.
    repeat case_match; intros [= <-]; simpl; rewrite lookup_insert_eq;
    match goal with
    | H : begin_drain _ _ = Ok _ |- _ => apply begin_drain_ok in H as ->; naive_solver
    | H : begin_drain _ _ = Err _ |- _ => apply begin_drain_err in H; naive_solver
    end. }
  pose proof (guard_run _ _ _ _ _ _ Hi1 Hg Hb H2) as Hg2.
  pose proof (guard_exec max t g s2 (LFinishDrain t) s3 (inv_run _ _ _ _ Hi1 H2) Hg2 eq_refl H3)
    as Hg3.
  revert H3 Hd Hg3. simpl. unfold drain_finish, drain_guard.
  repeat case_match; intros [= <-]; simpl; rewrite lookup_insert_eq; intros [= ->];
    rename select (finish_drain _ _ = _) into Hf;
    apply finish_drain_ok in Hf as [_ ->]; simpl; naive_solver.
Qed.

(** C37: no lost wake-up.  Under every interleaving, a drain task that sleeps in
    [wait_for_zero] without having been woken has a reason to: a request is still
    in flight, or the permit that took the counter to zero is about to notify. *)
Theorem drain_no_lost_wakeup max i ls (s : Gate) t g ticket :
  is_u64 max → gate_new max = Some i → run (gate_init i) ls = Some s →
  drains s !! t = Some (g, Sleeping ticket) → woken (notify s) ticket = false →
  0 < in_flight (inner s) ∨ (0 < notifies_due s)%nat.
Proof.
  intros Hu Hn Hr Hd Hw. destruct (inv_reachable _ _ _ _ Hu Hn Hr).
  destruct (inv_waiting0 t g _ Hd) as [_ [H|[H|H]]]; [congruence|by right|by left].
Qed.

(** Closing is final.  Once the gate has been closed, no sequence of
    operations, recovery canaries and [start_serving] included, reopens it or
    grants another permit. *)
Lemma closed_gate_is_final (s s' : Gate) ls :
  closed (inner s) = true → run s ls = Some s' →
  closed (inner s') = true ∧ permits s' ⊆ permits s ∧
  (∀ k ready, acquire k ready (inner s') = Err AdmissionError.NotServing).
Proof.
  intros Hc Hr. destruct (closed_run _ _ _ Hc Hr) as [Hc' Hs]. split_and!; [done|done|].
  intros k ready. destruct k; simpl; unfold try_acquire, try_acquire_recovery, acquire_permit;
    rewrite Hc'; by repeat case_match.
Qed.

End system.
Arguments Gate : clear implicits.
Arguments DrainPhase : clear implicits.

(** ** Witnesses

    A notification cell that counts its notifications: a ticket is the count at
    which it was issued. *)
#[refine] Instance counting_notify : Notify Z Z := {
  notify_new := 0;
  notified n := n;
  notify_waiters n := n + 1;
  woken n t := t <? n;
  issued n t := t ≤ n;
}.
Proof. all: intros; lia. Defined.

Definition gate2 : Inner := mkInner AdmissionState.Blocked false 0 2 None.

(** A request is admitted, a drain begins and sleeps, a second request is refused,
    the request ends and wakes the drain, and a recovery canary slips in. *)
Definition demo_before : list Label := [LStartServing; LAcquire 1 Public true].
Definition demo_wait : list Label := [LCheckZero 7].
Definition demo_rest : list Label :=
  [LDrop 1; LNotify; LWake 7; LCheckZero 7; LAcquire 2 Recovery true].

Definition get_gate (o : option (Gate Z Z)) : Gate Z Z := default (gate_init gate2) o.

Lemma admission_counts_permits_witness :
  in_flight (inner (get_gate (run (gate_init gate2) demo_before))) = 1.
Proof.
  destruct (admission_counts_permits 2 gate2 demo_before
    (get_gate (run (gate_init gate2) demo_before))) as [H _]; [by vm_compute..|].
  rewrite H. by vm_compute.
Defined.

Lemma drain_ok_excludes_public_witness :
  let s0 := get_gate (run (gate_init gate2) demo_before) in
  let s1 := get_gate (exec s0 (LBeginDrain 7 40)) in
  let s2 := get_gate (run s1 (demo_wait ++ demo_rest)) in
  let s3 := get_gate (exec s2 (LFinishDrain 7)) in
  in_flight (inner s3) = 1 ∧ permits s3 !! 2%nat ≠ Some Public.
Proof.
  intros s0 s1 s2 s3. split; [by vm_compute|].
  refine (proj2 (proj2 (drain_ok_excludes_public 2 gate2 demo_before s0 s1 s2 s3 7 40
    (demo_wait ++ demo_rest) _ _ _ _ _ _ _ _)) 2%nat); by vm_compute.
Defined.

Lemma drain_no_lost_wakeup_witness :
  let s := get_gate (run (gate_init gate2) (demo_before ++ LBeginDrain 7 40 :: demo_wait)) in
  0 < in_flight (inner s) ∨ (0 < notifies_due s)%nat.
Proof.
  intros s.
  apply (drain_no_lost_wakeup 2 gate2 (demo_before ++ LBeginDrain 7 40 :: demo_wait) s 7 40 0);
    by vm_compute.
Defined.

Lemma closed_gate_is_final_witness :
  let s := get_gate (run (gate_init gate2) [LStartServing; LAcquire 1 Public true; LClose]) in
  closed (inner (get_gate (run s [LStartServing; LDrop 1]))) = true.
Proof.
  intros s.
  apply (closed_gate_is_final s (get_gate (run s [LStartServing; LDrop 1]))
    [LStartServing; LDrop 1]); by vm_compute.
Defined.
