(* ===== verification/Bytes.v ===== *)
(** * Byte strings

    A Rust [String], [&str] or [&[u8]] is the list of its bytes.  This file has
    what the source uses of the standard library on them: the ASCII classes,
    [Display] and [FromStr] of [u64], [starts_with], and the facts about separators
    and digits the components share. *)

From S2P Require Import Prelude.

Notation bytes := (list Z).

(** A string literal as its bytes. *)
Definition str (s : string) : bytes :=
  (fun a => Z.of_N (Ascii.N_of_ascii a)) <$> String.list_ascii_of_string s.

Definition is_bytes (l : bytes) : Prop := Forall is_u8 l.

(** ** ASCII classes *)

Definition is_ascii_digit (b : Z) : bool := (48 <=? b) && (b <=? 57).
Definition is_ascii_uppercase (b : Z) : bool := (65 <=? b) && (b <=? 90).
Definition is_ascii_lowercase (b : Z) : bool := (97 <=? b) && (b <=? 122).
Definition is_ascii_alphanumeric (b : Z) : bool :=
  is_ascii_digit b || is_ascii_uppercase b || is_ascii_lowercase b.

(** [eq_ignore_ascii_case]. *)
Definition ascii_lower (b : Z) : Z := if is_ascii_uppercase b then b + 32 else b.
Definition eq_ignore_ascii_case (a b : bytes) : bool :=
  bool_decide (map ascii_lower a = map ascii_lower b).

Definition byte_newline : Z := 10.
Definition byte_return : Z := 13.

Definition contains_byte (b : Z) (l : bytes) : bool := existsb (Z.eqb b) l.

Fixpoint starts_with (p l : bytes) : bool :=
  match p, l with
  | [], _ => true
  | x :: p, y :: l => (x =? y) && starts_with p l
  | _ :: _, [] => false
  end.

Lemma contains_byte_false b l : contains_byte b l = false ↔ b ∉ l.
Proof.
  unfold contains_byte. induction l as [|x l IH]; simpl.
  - split; [|done]. intros _ ?%not_elem_of_nil. done.
  - rewrite orb_false_iff, not_elem_of_cons, IH, Z.eqb_neq. done.
Qed.

Lemma forallb_not_elem (p : Z → bool) b l : forallb p l = true → p b = false → b ∉ l.
Proof.
  intros H Hb Hin. induction l as [|x l IH]; [by apply not_elem_of_nil in Hin|].
  simpl in H. bool_to_prop. apply elem_of_cons in Hin as [->|]; [congruence|by apply IH].
Qed.

(** The first separator splits a string in one way only. *)
Lemma sep_inj (b : Z) (x x' y y' : bytes) :
  b ∉ x → b ∉ x' → x ++ b :: y = x' ++ b :: y' → x = x' ∧ y = y'.
Proof.
  revert x'. induction x as [|c x IH]; intros [|c' x'] Hx Hx' H; simpl in H.
  - by simplify_eq.
  - destruct Hx'. simplify_eq. left.
  - destruct Hx. simplify_eq. left.
  - apply not_elem_of_cons in Hx as [_ Hx]. apply not_elem_of_cons in Hx' as [_ Hx'].
    injection H as -> H. by destruct (IH x' Hx Hx' H) as [-> ->].
Qed.

(** ** [u64] as decimal text *)

(** [Display for u64]: at most twenty digits. *)
Fixpoint dec_digits (fuel : nat) (n : Z) (acc : bytes) : bytes :=
  match fuel with
  | O => acc
  | S fuel =>
      let acc := 48 + n mod 10 :: acc in
      if n / 10 =? 0 then acc else dec_digits fuel (n / 10) acc
  end.

Definition u64_to_string (n : Z) : bytes := dec_digits 20 n [].

(** [FromStr for u64]: an optional plus sign and at least one digit, refusing a
    value that overflows. *)
Fixpoint parse_digits (l : bytes) (acc : Z) : option Z :=
  match l with
  | [] => Some acc
  | b :: l =>
      if is_ascii_digit b then
        let v := acc * 10 + (b - 48) in
        if v <=? u64_max then parse_digits l v else None
      else None
  end.

Definition parse_u64 (l : bytes) : option Z :=
  match l with
  | [] => None
  | [43] => None
  | 43 :: l => parse_digits l 0
  | l => parse_digits l 0
  end.

Definition dec_value (l : bytes) : Z := foldl (fun a d => a * 10 + (d - 48)) 0 l.

Lemma dec_value_snoc l d : dec_value (l ++ [d]) = dec_value l * 10 + (d - 48).
Proof. unfold dec_value. by rewrite foldl_app. Qed.

Lemma dec_digits_spec (fuel : nat) : ∀ n acc,
  0 ≤ n < 10 ^ fuel → (0 < fuel)%nat →
  ∃ ds, dec_digits fuel n acc = ds ++ acc ∧ ds ≠ [] ∧
        forallb is_ascii_digit ds = true ∧ dec_value ds = n.
Proof.
  induction fuel as [|fuel IH]; intros n acc Hn Hf; [lia|]. simpl.
  pose proof (Z.mod_pos_bound n 10 ltac:(lia)) as Hm.
  pose proof (Z.div_mod n 10 ltac:(lia)) as Hd.
  assert (is_ascii_digit (48 + n mod 10) = true) as Hdig
    by (unfold is_ascii_digit; rewrite andb_true_iff, !Z.leb_le; lia).
  destruct (Z.eqb_spec (n / 10) 0) as [E|E].
  - exists [48 + n mod 10]. rewrite E in Hd. split_and!; [done|done| |].
    + simpl. by rewrite Hdig.
    + unfold dec_value. simpl. lia.
  - assert (0 ≤ n / 10) by (apply Z.div_pos; lia).
    assert (n / 10 < 10 ^ fuel) as Hlt.
    { apply Z.div_lt_upper_bound; [lia|]. rewrite Nat2Z.inj_succ, Z.pow_succ_r in Hn; lia. }
    destruct (IH (n / 10) (48 + n mod 10 :: acc)) as (ds & -> & ? & Hds & Hv); [lia| |].
    { destruct fuel; [|lia]. simpl in Hlt. lia. }
    exists (ds ++ [48 + n mod 10]). rewrite <- app_assoc. split_and!; [done| | |].
    + by destruct ds.
    + by rewrite forallb_app, Hds; simpl; rewrite Hdig.
    + rewrite dec_value_snoc, Hv. lia.
Qed.

Lemma u64_to_string_spec n :
  is_u64 n → u64_to_string n ≠ [] ∧ forallb is_ascii_digit (u64_to_string n) = true ∧
             dec_value (u64_to_string n) = n.
Proof.
  intros Hn. destruct (dec_digits_spec 20 n []) as (ds & E & ?); [|lia|].
  - unfold is_u64, u64_max in Hn. lia.
  - unfold u64_to_string. rewrite E, app_nil_r. done.
Qed.

Lemma u64_to_string_inj n m :
  is_u64 n → is_u64 m → u64_to_string n = u64_to_string m → n = m.
Proof.
  intros Hn Hm E. apply u64_to_string_spec in Hn as (_ & _ & <-).
  apply u64_to_string_spec in Hm as (_ & _ & <-). by rewrite E.
Qed.

Lemma u64_to_string_not_elem b n : is_u64 n → is_ascii_digit b = false → b ∉ u64_to_string n.
Proof. intros (_ & H & _)%u64_to_string_spec Hb. by eapply forallb_not_elem. Qed.

Lemma parse_digits_spec l : ∀ acc,
  0 ≤ acc → forallb is_ascii_digit l = true →
  acc ≤ foldl (fun a d => a * 10 + (d - 48)) acc l ∧
  (foldl (fun a d => a * 10 + (d - 48)) acc l ≤ u64_max →
   parse_digits l acc = Some (foldl (fun a d => a * 10 + (d - 48)) acc l)).
Proof.
  induction l as [|b l IH]; intros acc Ha Hd; simpl in *; [split; [lia|done]|].
  apply andb_true_iff in Hd as [Hb Hl]. rewrite Hb.
  unfold is_ascii_digit in Hb. bool_to_prop.
  destruct (IH (acc * 10 + (b - 48)) ltac:(lia) Hl) as [Hge Hp]. split; [lia|].
  intros Hm. destruct (Z.leb_spec (acc * 10 + (b - 48)) u64_max); [by apply Hp|lia].
Qed.

(** Reading back what was printed. *)
Lemma parse_u64_to_string n : is_u64 n → parse_u64 (u64_to_string n) = Some n.
Proof.
  intros Hn. pose proof (u64_to_string_spec n Hn) as (Hne & Hd & Hv).
  destruct (u64_to_string n) as [|b l] eqn:E; [done|].
  assert (parse_u64 (b :: l) = parse_digits (b :: l) 0) as ->.
  { apply andb_true_iff in Hd as [Hb _]. unfold is_ascii_digit in Hb. bool_to_prop.
    unfold parse_u64. destruct b as [|p|p]; try lia. repeat (destruct p as [p|p|]; try lia; try done). }
  pose proof (parse_digits_spec (b :: l) 0 ltac:(lia) Hd) as [_ Hp].
  unfold dec_value in Hv. rewrite Hv in Hp. apply Hp. unfold is_u64 in Hn. lia.
Qed.

(** A parsed number is in range. *)
Lemma parse_digits_range l : ∀ acc n,
  is_u64 acc → parse_digits l acc = Some n → is_u64 n.
Proof.
  induction l as [|b l IH]; intros acc n Ha; simpl; [by intros [= <-]|].
  destruct (is_ascii_digit b) eqn:Hb; [|done].
  destruct (Z.leb_spec (acc * 10 + (b - 48)) u64_max); [|done].
  apply IH. unfold is_ascii_digit in Hb. bool_to_prop. unfold is_u64 in *. lia.
Qed.

Lemma parse_u64_range l n : parse_u64 l = Some n → is_u64 n.
Proof.
  unfold parse_u64. repeat case_match; intros H'; simplify_eq;
    by eapply parse_digits_range in H'.
Qed.

(** ** UTF-8

    [std::str::from_utf8] accepts exactly the well-formed sequences of the Unicode
    standard: no overlong forms, no surrogates, nothing above U+10FFFF. *)

Definition between (lo hi b : Z) : bool := (lo <=? b) && (b <=? hi).

Fixpoint utf8_valid (l : bytes) : bool :=
  match l with
  | [] => true
  | b0 :: l1 =>
      if b0 <? 128 then utf8_valid l1
      else match l1 with
      | [] => false
      | b1 :: l2 =>
          if between 194 223 b0 then between 128 191 b1 && utf8_valid l2
          else match l2 with
          | [] => false
          | b2 :: l3 =>
              if b0 =? 224 then between 160 191 b1 && between 128 191 b2 && utf8_valid l3
              else if b0 =? 237 then between 128 159 b1 && between 128 191 b2 && utf8_valid l3
              else if between 225 239 b0
              then between 128 191 b1 && between 128 191 b2 && utf8_valid l3
              else match l3 with
              | [] => false
              | b3 :: l4 =>
                  if b0 =? 240
                  then between 144 191 b1 && between 128 191 b2 && between 128 191 b3
                       && utf8_valid l4
                  else if b0 =? 244
                  then between 128 143 b1 && between 128 191 b2 && between 128 191 b3
                       && utf8_valid l4
                  else if between 241 243 b0
                  then between 128 191 b1 && between 128 191 b2 && between 128 191 b3
                       && utf8_valid l4
                  else false
              end
          end
      end
  end.

(** ** Big-endian words: [u32::to_be_bytes], [u32::from_be_bytes] *)

Definition to_be_bytes (v : Z) : bytes :=
  [v / 16777216 mod 256; v / 65536 mod 256; v / 256 mod 256; v mod 256].

Definition from_be_bytes (l : bytes) : Z := foldl (fun a b => a * 256 + b) 0 l.

Lemma to_be_bytes_is_bytes v : is_bytes (to_be_bytes v).
Proof.
  unfold to_be_bytes, is_bytes, is_u8, u8_max.
  repeat (constructor; [match goal with |- context [?x mod 256] =>
    pose proof (Z.mod_pos_bound x 256); lia end|]). constructor.
Qed.

Lemma from_to_be_bytes v : is_u32 v → from_be_bytes (to_be_bytes v) = v.
Proof.
  unfold is_u32, u32_max, from_be_bytes, to_be_bytes. simpl. intros H.
  pose proof (Z.div_mod v 256). pose proof (Z.div_mod (v / 256) 256).
  pose proof (Z.div_mod (v / 65536) 256).
  rewrite (Z.mod_small (v / 16777216)).
  - assert (v / 65536 = v / 256 / 256) by (rewrite Z.div_div by lia; done).
    assert (v / 16777216 = v / 65536 / 256) by (rewrite Z.div_div by lia; done). lia.
  - split; [apply Z.div_pos; lia|]. apply Z.div_lt_upper_bound; lia.
Qed.

Lemma be_word_range a b c d :
  is_u8 a → is_u8 b → is_u8 c → is_u8 d → is_u32 (from_be_bytes [a; b; c; d]).
Proof. unfold is_u8, is_u32, u8_max, u32_max, from_be_bytes. simpl. lia. Qed.

Lemma to_from_be_bytes a b c d :
  is_u8 a → is_u8 b → is_u8 c → is_u8 d → to_be_bytes (from_be_bytes [a; b; c; d]) = [a; b; c; d].
Proof.
  unfold is_u8, u8_max, to_be_bytes, from_be_bytes. simpl. intros Ha Hb Hc Hd.
  set (v := (((0 * 256 + a) * 256 + b) * 256 + c) * 256 + d).
  assert (v / 16777216 = a ∧ v / 65536 = a * 256 + b ∧ v / 256 = (a * 256 + b) * 256 + c)
    as (-> & -> & ->).
  { split_and!; symmetry;
    [apply (Z.div_unique _ _ _ (b * 65536 + c * 256 + d))
    |apply (Z.div_unique _ _ _ (c * 256 + d))
    |apply (Z.div_unique _ _ _ d)]; subst v; lia. }
  f_equal; [apply Z.mod_small; lia|].
  f_equal; [symmetry; apply (Z.mod_unique _ _ a); lia|].
  f_equal; [symmetry; apply (Z.mod_unique _ _ (a * 256 + b)); lia|].
  f_equal. symmetry. apply (Z.mod_unique _ _ ((a * 256 + b) * 256 + c)); subst v; lia.
Qed.

(** ** Order *)

(** The order of [String]: by bytes. *)
Fixpoint lex_leb (a b : bytes) : bool :=
  match a, b with
  | [], _ => true
  | _ :: _, [] => false
  | x :: a, y :: b => (x <? y) || ((x =? y) && lex_leb a b)
  end.

Lemma lex_leb_total a b : lex_leb a b = true ∨ lex_leb b a = true.
Proof.
  revert b. induction a as [|x a IH]; intros [|y b]; simpl; auto.
  destruct (Z.lt_total x y) as [Hlt|[->|Hlt]].
  - left. by rewrite (proj2 (Z.ltb_lt _ _) Hlt).
  - rewrite Z.ltb_irrefl, Z.eqb_refl. simpl. apply IH.
  - right. by rewrite (proj2 (Z.ltb_lt _ _) Hlt).
Qed.
