(* ===== verification/Auth.v ===== *)
(** * Control-plane authentication: [src/src/cluster/auth.rs]

    Every control request carries an HMAC over a canonical message, a timestamp
    and a nonce.  HMAC-SHA256 and SHA-256 are library code: the interface [Crypto]
    has them as operations with the length of their results. *)

From S2P Require Import Prelude Bytes.

(** ** Data *)

(** src/src/cluster/auth.rs:8-10 (CONTROL_BODY_LIMIT) *)
Definition CONTROL_BODY_LIMIT : Z := 64 * 1024.
Definition CONTROL_CLOCK_SKEW_MILLIS : Z := 30000.
Definition CONTROL_NONCE_TTL_MILLIS : Z := 5 * 60000.

Module AuthError.

(** src/src/cluster/auth.rs:125-149 (AuthError) *)
Inductive AuthError :=
| InvalidSecret
| BodyTooLarge
| InvalidCanonicalFields
| InvalidNonce
| ClockSkew
| InvalidTimestamp
| WrongNode
| WrongSource
| InvalidSignature
| Replay
| Unavailable.

End AuthError.
Notation AuthError := AuthError.AuthError.

Global Instance AuthError_eq_dec : EqDecision AuthError.
Proof. solve_decision. Defined.

(** src/src/cluster/auth.rs:36-42 (SignedControlHeaders) *)
Record SignedControlHeaders := mkHeaders {
  node_id : bytes;
  timestamp_millis : Z;
  nonce : bytes;
  signature_hex : bytes;
}.

(** src/src/cluster/auth.rs:91-96 (AuthenticatedPeer) *)
Record AuthenticatedPeer := mkPeer {
  peer_node_id : bytes;
  peer_source_ip : IpAddr;
  peer_timestamp_millis : Z;
}.

(** src/src/cluster/auth.rs:12-12 (ControlSecret) *)
Record ControlSecret := mkSecret { secret_bytes : bytes }.

(** src/src/cluster/auth.rs:151-161 (ControlAuthenticator) *)
Record ControlAuthenticator := mkAuthenticator {
  secret : ControlSecret;
  expected_node_id : option bytes;
  expected_source_ip : IpAddr;
  nonce_expiry : gmap (bytes * bytes) Z;
}.

(** ** Validation *)

(** src/src/cluster/auth.rs:15-21 (ControlSecret::new) *)
Definition secret_new (b : bytes) : result ControlSecret AuthError :=
  if (length b : Z) <? 32 then Err AuthError.InvalidSecret else Ok (mkSecret b).

(** src/src/cluster/auth.rs:45-60 (SignedControlHeaders::from_header_values) *)
Definition from_header_values (node ts nonce sig : bytes)
    : result SignedControlHeaders AuthError :=
  result_bind (ok_or (parse_u64 ts) AuthError.InvalidTimestamp) (fun t =>
  Ok (mkHeaders node t nonce sig)).

(** src/src/cluster/auth.rs:288-305 (validate_body_and_fields) *)
Definition validate_body_and_fields (method path_and_query body : bytes)
    : result unit AuthError :=
  if CONTROL_BODY_LIMIT <? length body then Err AuthError.BodyTooLarge
  else if bool_decide (method = [])
       || negb (forallb is_ascii_uppercase method)
       || negb (starts_with (str "/") path_and_query)
       || (contains_byte byte_return method || contains_byte byte_newline method)
       || (contains_byte byte_return path_and_query
           || contains_byte byte_newline path_and_query)
  then Err AuthError.InvalidCanonicalFields
  else Ok tt.

(** src/src/cluster/auth.rs:307-317 (validate_nonce) *)
Definition validate_nonce (nonce : bytes) : result unit AuthError :=
  if ((16 <=? (length nonce : Z)) && ((length nonce : Z) <=? 128))
     && forallb (fun v => is_ascii_alphanumeric v || (v =? 45) || (v =? 95) || (v =? 46)) nonce
  then Ok tt
  else Err AuthError.InvalidNonce.

(** ** Hexadecimal *)

Definition HEX : bytes := str "0123456789abcdef".

(** src/src/cluster/auth.rs:358-366 (encode_lower_hex) *)
Fixpoint encode_lower_hex (b : bytes) : bytes :=
  match b with
  | [] => []
  | x :: b =>
      nth (Z.to_nat (Z.shiftr x 4)) HEX 0 :: nth (Z.to_nat (Z.land x 15)) HEX 0
        :: encode_lower_hex b
  end.

(** src/src/cluster/auth.rs:381-387 (lower_hex_value) *)
Definition lower_hex_value (value : Z) : option Z :=
  if (48 <=? value) && (value <=? 57) then Some (value - 48)
  else if (97 <=? value) && (value <=? 102) then Some (value - 97 + 10)
  else None.

(** The loop over [chunks_exact(2)].
    src/src/cluster/auth.rs:373-378 (decode_lower_hex_32) *)
Fixpoint decode_pairs (value : bytes) : result bytes AuthError :=
  match value with
  | h :: l :: rest =>
      result_bind (ok_or (lower_hex_value h) AuthError.InvalidSignature) (fun high =>
      result_bind (ok_or (lower_hex_value l) AuthError.InvalidSignature) (fun low =>
      result_bind (decode_pairs rest) (fun out =>
      Ok (Z.lor (Z.shiftl high 4 mod 256) low :: out))))
  | _ => Ok []
  end.

(** src/src/cluster/auth.rs:368-380 (decode_lower_hex_32) *)
Definition decode_lower_hex_32 (value : bytes) : result bytes AuthError :=
  if negb ((length value : Z) =? 64) then Err AuthError.InvalidSignature
  else decode_pairs value.

(** ** Signing and verifying *)

(** [hmac] and [sha2]: keyed and plain digests of 32 bytes. *)
Class Crypto := {
  hmac_sha256 : bytes → bytes → bytes;
  sha256 : bytes → bytes;
  hmac_length k m : length (hmac_sha256 k m) = 32%nat;
  hmac_bytes k m : is_bytes (hmac_sha256 k m);
  sha256_length m : length (sha256 m) = 32%nat;
  sha256_bytes m : is_bytes (sha256 m);
}.

Section auth.
Context {crypto : Crypto}.

(** src/src/cluster/auth.rs:343-356 (canonical_message) *)
Definition canonical_message (method path_and_query : bytes) (ts : Z) (nonce body : bytes)
    : bytes :=
  method ++ byte_newline :: path_and_query ++ byte_newline :: u64_to_string ts
    ++ byte_newline :: nonce ++ byte_newline :: encode_lower_hex (sha256 body).

(** src/src/cluster/auth.rs:319-341 (signature) *)
Definition signature (secret : ControlSecret) (method path_and_query : bytes) (ts : Z)
    (nonce body : bytes) : bytes :=
  hmac_sha256 (secret_bytes secret) (canonical_message method path_and_query ts nonce body).

(** src/src/cluster/auth.rs:174-187 (ControlAuthenticator::new) *)
Definition authenticator_new (secret : ControlSecret) (expected_node : bytes)
    (expected_source : IpAddr) : ControlAuthenticator :=
  mkAuthenticator secret (Some expected_node) expected_source ∅.

(** src/src/cluster/auth.rs:191-200 (ControlAuthenticator::new_at_source) *)
Definition new_at_source (secret : ControlSecret) (expected_source : IpAddr)
    : ControlAuthenticator :=
  mkAuthenticator secret None expected_source ∅.

(** src/src/cluster/auth.rs:202-228 (ControlAuthenticator::sign) *)
Definition sign (self : ControlAuthenticator) (node method path_and_query : bytes) (ts : Z)
    (nonce body : bytes) : result SignedControlHeaders AuthError :=
  result_bind (validate_body_and_fields method path_and_query body) (fun _ =>
  result_bind (validate_nonce nonce) (fun _ =>
  Ok (mkHeaders node ts nonce
        (encode_lower_hex (signature (secret self) method path_and_query ts nonce body))))).

(** The checks of [verify] that do not touch the nonce table; [verify_slice]
    compares the supplied tag with the computed one.
    src/src/cluster/auth.rs:240-269 (ControlAuthenticator::verify) *)
Definition verify_request (self : ControlAuthenticator) (method path_and_query body : bytes)
    (source_ip : IpAddr) (headers : SignedControlHeaders) (now : Z)
    : result unit AuthError :=
  result_bind (validate_body_and_fields method path_and_query body) (fun _ =>
  result_bind (validate_nonce (nonce headers)) (fun _ =>
  if is_some_and (expected_node_id self) (fun e => negb (bool_decide (node_id headers = e)))
  then Err AuthError.WrongNode
  else if negb (bool_decide (source_ip = expected_source_ip self))
  then Err AuthError.WrongSource
  else if CONTROL_CLOCK_SKEW_MILLIS <? abs_diff (timestamp_millis headers) now
  then Err AuthError.ClockSkew
  else
    result_bind (decode_lower_hex_32 (signature_hex headers)) (fun supplied =>
    if bool_decide (supplied =
         signature (secret self) method path_and_query (timestamp_millis headers)
           (nonce headers) body)
    then Ok tt else Err AuthError.InvalidSignature))).

(** src/src/cluster/auth.rs:278-278 (ControlAuthenticator::verify) *)
Definition retain_nonces (now : Z) (nonces : gmap (bytes * bytes) Z)
    : gmap (bytes * bytes) Z :=
  filter (fun ke => now < snd ke) nonces.

(** [verify]; the mutex is never poisoned, since nothing panics while it is held.
    src/src/cluster/auth.rs:230-285 (ControlAuthenticator::verify) *)
Definition verify (self : ControlAuthenticator) (method path_and_query body : bytes)
    (source_ip : IpAddr) (headers : SignedControlHeaders) (now : Z)
    : result AuthenticatedPeer AuthError * ControlAuthenticator :=
  match verify_request self method path_and_query body source_ip headers now with
  | Err e => (Err e, self)
  | Ok _ =>
      let key := (node_id headers, nonce headers) in
      let nonces := retain_nonces now (nonce_expiry self) in
      match nonces !! key with
      | Some _ =>
          (Err AuthError.Replay,
           mkAuthenticator (secret self) (expected_node_id self) (expected_source_ip self)
             nonces)
      | None =>
          (Ok (mkPeer (node_id headers) source_ip (timestamp_millis headers)),
           mkAuthenticator (secret self) (expected_node_id self) (expected_source_ip self)
             (<[key := sat_add64 now CONTROL_NONCE_TTL_MILLIS]> nonces))
      end
  end.

(** ** Hexadecimal round trip *)

Definition byte_range : list Z := seqZ 0 256.
Definition hex_chars : list Z := HEX.

Lemma elem_of_byte_range b : is_u8 b → b ∈ byte_range.
Proof. intros H. apply elem_of_seqZ. unfold is_u8, u8_max in H. lia. Qed.

Definition encode_ok (b : Z) : bool :=
  bool_decide (decode_pairs (encode_lower_hex [b]) = Ok [b]).
Definition decode_ok (h l : Z) : bool :=
  match decode_pairs [h; l] with
  | Ok [b] => bool_decide (encode_lower_hex [b] = [h; l]) && (0 <=? b) && (b <=? 255)
  | _ => false
  end.

Lemma encode_byte b : is_u8 b → decode_pairs (encode_lower_hex [b]) = Ok [b].
Proof.
  intros H. apply elem_of_byte_range in H.
  assert (forallb encode_ok byte_range = true) as Hall by by vm_compute.
  rewrite forallb_forall in Hall. apply list_elem_of_In in H.
  by specialize (Hall b H); apply bool_decide_eq_true in Hall.
Qed.

Lemma lower_hex_value_HEX c v : lower_hex_value c = Some v → c ∈ hex_chars.
Proof.
  unfold lower_hex_value. intros H.
  assert (48 ≤ c ≤ 57 ∨ 97 ≤ c ≤ 102) as Hc by (repeat case_match; simplify_eq; bool_to_prop; lia).
  assert (c ∈ seqZ 48 10 ++ seqZ 97 6) as Hin
    by (apply elem_of_app; rewrite !elem_of_seqZ; lia).
  assert (hex_chars = seqZ 48 10 ++ seqZ 97 6) as -> by by vm_compute. done.
Qed.

Lemma decode_pair h l b :
  decode_pairs [h; l] = Ok [b] → encode_lower_hex [b] = [h; l] ∧ is_u8 b.
Proof.
  intros H. assert (forallb (fun h => forallb (decode_ok h) hex_chars) hex_chars = true) as Hall
    by by vm_compute.
  assert (h ∈ hex_chars ∧ l ∈ hex_chars) as [Hh Hl].
  { cbn [decode_pairs] in H.
    destruct (lower_hex_value h) eqn:E1; [|done]. destruct (lower_hex_value l) eqn:E2; [|done].
    by apply lower_hex_value_HEX in E1, E2. }
  apply list_elem_of_In in Hh, Hl. rewrite forallb_forall in Hall.
  specialize (Hall h Hh). cbv beta in Hall. rewrite forallb_forall in Hall.
  specialize (Hall l Hl). unfold decode_ok in Hall. rewrite H in Hall. bool_to_prop.
  by split.
Qed.

Lemma decode_pairs_cons h l rest :
  decode_pairs (h :: l :: rest) =
  result_bind (decode_pairs [h; l]) (fun b =>
  result_bind (decode_pairs rest) (fun out => Ok (b ++ out))).
Proof.
  cbn [decode_pairs]. destruct (lower_hex_value h); [|done]. destruct (lower_hex_value l); [|done].
  simpl. by destruct (decode_pairs rest).
Qed.

Lemma encode_cons b l : encode_lower_hex (b :: l) = encode_lower_hex [b] ++ encode_lower_hex l.
Proof. done. Qed.

Lemma decode_encode b : is_bytes b → decode_pairs (encode_lower_hex b) = Ok b.
Proof.
  induction 1 as [|x b Hx Hb IH]; [done|]. apply encode_byte in Hx.
  cbn [encode_lower_hex] in *. rewrite decode_pairs_cons, Hx. cbn [result_bind].
  by rewrite IH.
Qed.

Lemma encode_length b : length (encode_lower_hex b) = (2 * length b)%nat.
Proof. induction b; simpl; lia. Qed.

Lemma encode_decode v : ∀ n b,
  length v = (2 * n)%nat → decode_pairs v = Ok b →
  encode_lower_hex b = v ∧ is_bytes b ∧ length b = n.
Proof.
  induction v as [v IH] using (well_founded_induction (well_founded_ltof _ length)).
  intros n b Hlen Hd. destruct v as [|h [|l rest]]; simpl in Hlen; [|lia|].
  - simpl in Hd. simplify_eq. split_and!; [done|constructor|simpl; lia].
  - rewrite decode_pairs_cons in Hd.
    apply result_bind_ok in Hd as (b1 & E1 & (out & E2 & [= <-])%result_bind_ok).
    assert (∃ x, b1 = [x]) as [x ->].
    { simpl in E1. repeat (destruct (lower_hex_value _); [|done]; simpl in E1). naive_solver. }
    apply decode_pair in E1 as [E1 Hx].
    destruct (IH rest) with (n := (n - 1)%nat) (b := out) as (Hr & Hb & Hl);
      [unfold ltof; simpl; lia|lia|done|].
    cbn [app]. rewrite encode_cons, E1, Hr. split_and!; [done|by constructor|simpl; lia].
Qed.

(** ** Canonical messages *)

Lemma validate_fields_ok m p b u :
  validate_body_and_fields m p b = Ok u → byte_newline ∉ m ∧ byte_newline ∉ p.
Proof.
  unfold validate_body_and_fields. case_match; [done|]. case_match eqn:E; [done|]. intros _.
  bool_to_prop. by rewrite <- !contains_byte_false.
Qed.

Lemma validate_nonce_ok n u : validate_nonce n = Ok u → byte_newline ∉ n.
Proof.
  unfold validate_nonce. case_match eqn:E; [|done]. intros _. bool_to_prop.
  by eapply forallb_not_elem.
Qed.

Lemma canonical_message_inj m p ts n b m' p' ts' n' b' :
  byte_newline ∉ m → byte_newline ∉ p → byte_newline ∉ n → is_u64 ts →
  byte_newline ∉ m' → byte_newline ∉ p' → byte_newline ∉ n' → is_u64 ts' →
  canonical_message m p ts n b = canonical_message m' p' ts' n' b' →
  m = m' ∧ p = p' ∧ ts = ts' ∧ n = n' ∧ sha256 b = sha256 b'.
Proof.
  intros Hm Hp Hn Ht Hm' Hp' Hn' Ht' E. unfold canonical_message in E.
  apply sep_inj in E as [-> E]; [|done..].
  apply sep_inj in E as [-> E]; [|done..].
  apply sep_inj in E as [E1 E]; [|by apply u64_to_string_not_elem..].
  apply sep_inj in E as [-> E]; [|done..].
  apply u64_to_string_inj in E1 as ->; [|done..].
  split_and!; try done.
  apply (f_equal decode_pairs) in E. rewrite !decode_encode in E by apply sha256_bytes.
  by injection E.
Qed.

(** ** What an accepted request satisfies *)

Lemma verify_request_ok self m p b ip h now u :
  verify_request self m p b ip h now = Ok u ↔
  validate_body_and_fields m p b = Ok tt ∧ validate_nonce (nonce h) = Ok tt ∧
  is_some_and (expected_node_id self) (fun e => negb (bool_decide (node_id h = e))) = false ∧
  ip = expected_source_ip self ∧
  abs_diff (timestamp_millis h) now ≤ CONTROL_CLOCK_SKEW_MILLIS ∧
  signature_hex h = encode_lower_hex
    (signature (secret self) m p (timestamp_millis h) (nonce h) b).
Proof.
  destruct u. unfold verify_request. rewrite result_bind_ok. split.
  - intros ([] & E1 & ([] & E2 & E3)%result_bind_ok).
    destruct (is_some_and _ _); [done|]. case_bool_decide; [|done]. simpl in E3.
    destruct (Z.ltb_spec CONTROL_CLOCK_SKEW_MILLIS (abs_diff (timestamp_millis h) now)); [done|].
    apply result_bind_ok in E3 as (sup & E3 & E4). case_bool_decide as Es; [|done]. subst.
    split_and!; try done. unfold decode_lower_hex_32 in E3.
    case_match eqn:El; [done|]. bool_to_prop.
    symmetry. apply (encode_decode _ 32%nat); [lia|done].
  - intros (E1 & E2 & E3 & -> & E4 & E5). exists tt. split; [done|].
    rewrite E2. simpl. rewrite E3, bool_decide_true by done. simpl.
    destruct (Z.ltb_spec CONTROL_CLOCK_SKEW_MILLIS (abs_diff (timestamp_millis h) now)); [lia|].
    unfold decode_lower_hex_32, signature in *.
    rewrite E5, encode_length, hmac_length, decode_encode by apply hmac_bytes.
    simpl. by rewrite bool_decide_true.
Qed.

Lemma verify_ok self m p b ip h now peer :
  fst (verify self m p b ip h now) = Ok peer ↔
  verify_request self m p b ip h now = Ok tt ∧
  retain_nonces now (nonce_expiry self) !! (node_id h, nonce h) = None ∧
  peer = mkPeer (node_id h) ip (timestamp_millis h).
Proof.
  unfold verify. destruct (verify_request _ _ _ _ _ _ _) as [[]|e]; [|naive_solver].
  destruct (retain_nonces _ _ !! _); simpl; naive_solver.
Qed.

Lemma retain_lookup now nonces k e :
  nonces !! k = Some e → now < e → retain_nonces now nonces !! k = Some e.
Proof. intros H Hlt. by apply map_lookup_filter_Some. Qed.

(** ** Sequences of requests *)

Record Call := mkCall {
  call_method : bytes;
  call_path : bytes;
  call_body : bytes;
  call_source : IpAddr;
  call_headers : SignedControlHeaders;
  call_now : Z;
}.

Definition verify_call (self : ControlAuthenticator) (c : Call)
    : result AuthenticatedPeer AuthError * ControlAuthenticator :=
  verify self (call_method c) (call_path c) (call_body c) (call_source c)
    (call_headers c) (call_now c).

Definition verify_calls (self : ControlAuthenticator) (cs : list Call)
    : ControlAuthenticator :=
  foldl (fun a c => snd (verify_call a c)) self cs.

Lemma verify_keeps_nonce self c key e :
  nonce_expiry self !! key = Some e → call_now c < e →
  nonce_expiry (snd (verify_call self c)) !! key = Some e.
Proof.
  intros H Hlt. unfold verify_call, verify.
  destruct (verify_request _ _ _ _ _ _ _); [|done].
  pose proof (retain_lookup _ _ _ _ H Hlt) as Hr.
  destruct (retain_nonces _ _ !! (node_id _, _)) eqn:E; simpl; [done|].
  rewrite lookup_insert_ne; congruence.
Qed.

Lemma verify_calls_keep_nonce cs : ∀ self key e,
  nonce_expiry self !! key = Some e → Forall (fun c => call_now c < e) cs →
  nonce_expiry (verify_calls self cs) !! key = Some e.
Proof.
  induction cs as [|c cs IH]; intros self key e H Hf; [done|].
  apply Forall_cons in Hf as [Hc Hf]. simpl. apply IH; [|done]. by apply verify_keeps_nonce.
Qed.

Lemma verify_records self c peer :
  fst (verify_call self c) = Ok peer →
  nonce_expiry (snd (verify_call self c)) !! (node_id (call_headers c), nonce (call_headers c))
  = Some (sat_add64 (call_now c) CONTROL_NONCE_TTL_MILLIS).
Proof.
  unfold verify_call, verify. destruct (verify_request _ _ _ _ _ _ _); [|done].
  case_match; [done|]. intros _. simpl. by rewrite lookup_insert_eq.
Qed.

(** ** Properties *)

(** The signature encoding is canonical.  A string decodes to a 32-byte tag
    exactly when it is the lower-case hexadecimal of that tag: encoding and
    decoding are inverse, and no second spelling of a tag is accepted. *)
Lemma hex_signature_canonical v b :
  decode_lower_hex_32 v = Ok b ↔ v = encode_lower_hex b ∧ length b = 32%nat ∧ is_bytes b.
Proof.
  unfold decode_lower_hex_32. split.
  - case_match eqn:E; [done|]. bool_to_prop. intros Hd.
    destruct (encode_decode v 32%nat b) as (<- & ? & ?); [lia|done|done].
  - intros (-> & Hl & Hb). rewrite encode_length, Hl. by rewrite decode_encode.
Qed.

(** A signed request is accepted.  Headers produced by [sign] under the same
    secret verify at the receiver, provided the node and source are the expected
    ones, the clocks differ by at most the allowed skew, and the nonce is not one
    the receiver still remembers. *)
Lemma signed_request_accepted sender self node m p ts n b ip now h :
  sign sender node m p ts n b = Ok h →
  secret sender = secret self →
  (∀ e, expected_node_id self = Some e → node = e) →
  ip = expected_source_ip self →
  Z.abs (ts - now) ≤ 30000 →
  (∀ e, nonce_expiry self !! (node, n) = Some e → e ≤ now) →
  fst (verify self m p b ip h now) = Ok (mkPeer node ip ts).
Proof.
  unfold sign. intros ([] & E1 & ([] & E2 & [= <-])%result_bind_ok)%result_bind_ok.
  intros Hs Hn -> Hc Hl. apply verify_ok. split_and!; [| |done].
  2: { apply map_lookup_filter_None_2. right. intros e He. simpl. specialize (Hl e He). lia. }
  apply verify_request_ok. rewrite <- Hs. split_and!; try done.
  simpl. destruct (expected_node_id self) as [e|]; [|done]. simpl.
  by rewrite bool_decide_true by naive_solver.
Qed.

(** A signature binds the request.  If the same signature string is accepted
    with two requests under one secret, then method, path and query, timestamp,
    nonce and body digest agree, unless HMAC-SHA256 has a collision on the two
    canonical messages. *)
Lemma signature_binds_request self1 self2 m1 p1 b1 ip1 h1 now1 m2 p2 b2 ip2 h2 now2 peer1 peer2 :
  fst (verify self1 m1 p1 b1 ip1 h1 now1) = Ok peer1 →
  fst (verify self2 m2 p2 b2 ip2 h2 now2) = Ok peer2 →
  secret self1 = secret self2 →
  signature_hex h1 = signature_hex h2 →
  is_u64 (timestamp_millis h1) → is_u64 (timestamp_millis h2) →
  let msg1 := canonical_message m1 p1 (timestamp_millis h1) (nonce h1) b1 in
  let msg2 := canonical_message m2 p2 (timestamp_millis h2) (nonce h2) b2 in
  (m1 = m2 ∧ p1 = p2 ∧ timestamp_millis h1 = timestamp_millis h2 ∧
   nonce h1 = nonce h2 ∧ sha256 b1 = sha256 b2) ∨
  (msg1 ≠ msg2 ∧
   hmac_sha256 (secret_bytes (secret self1)) msg1 =
   hmac_sha256 (secret_bytes (secret self1)) msg2).
Proof.
  intros (H1 & _ & _)%verify_ok (H2 & _ & _)%verify_ok Hs Hh Ht1 Ht2 msg1 msg2.
  apply verify_request_ok in H1 as (F1 & N1 & _ & _ & _ & S1).
  apply verify_request_ok in H2 as (F2 & N2 & _ & _ & _ & S2).
  destruct (decide (msg1 = msg2)) as [E|E]; [left|right].
  - apply validate_fields_ok in F1 as [? ?], F2 as [? ?]. apply validate_nonce_ok in N1, N2.
    by apply canonical_message_inj.
  - split; [done|]. rewrite S1, S2, <- Hs in Hh. apply (f_equal decode_pairs) in Hh.
    unfold signature in Hh. rewrite !decode_encode in Hh by apply hmac_bytes. by injection Hh.
Qed.

(** C7: no replay.  After a request has been accepted, no later request with the
    same node id, nonce and timestamp is accepted, whatever requests are verified
    in between, as long as the receiver's clock stays below the time at which the
    nonce was due to expire: the nonce outlives the window in which its timestamp
    is fresh.  Every other field of the second request is arbitrary. *)
Theorem replay_rejected self c cs c' peer peer' :
  fst (verify_call self c) = Ok peer →
  Forall (fun k => call_now k < call_now c + CONTROL_NONCE_TTL_MILLIS) cs →
  call_now c + CONTROL_NONCE_TTL_MILLIS ≤ u64_max →
  node_id (call_headers c') = node_id (call_headers c) →
  nonce (call_headers c') = nonce (call_headers c) →
  timestamp_millis (call_headers c') = timestamp_millis (call_headers c) →
  fst (verify_call (verify_calls (snd (verify_call self c)) cs) c') ≠ Ok peer'.
Proof.
  intros H1 Hf Hmax Hid Hn Hts (H2 & Hnone & _)%verify_ok.
  pose proof (verify_records _ _ _ H1) as Hrec.
  assert (sat_add64 (call_now c) CONTROL_NONCE_TTL_MILLIS
          = call_now c + CONTROL_NONCE_TTL_MILLIS) as E by (unfold sat_add64; lia).
  rewrite E in Hrec. pose proof (verify_calls_keep_nonce cs _ _ _ Hrec Hf) as Hk.
  apply verify_ok in H1 as (H1 & _ & _).
  apply verify_request_ok in H1 as (_ & _ & _ & _ & T1 & _).
  apply verify_request_ok in H2 as (_ & _ & _ & _ & T2 & _).
  rewrite Hid, Hn in Hnone. rewrite Hts in T2.
  rewrite (retain_lookup _ _ _ _ Hk) in Hnone; [done|].
  unfold abs_diff, CONTROL_CLOCK_SKEW_MILLIS, CONTROL_NONCE_TTL_MILLIS in *. lia.
Qed.

(** The node id is not covered by the signature.  An authenticator that
    expects a source address only ([new_at_source]) accepts a request it has just
    accepted a second time when the node id header alone is changed: the replay
    table is keyed by the unsigned node id. *)
Lemma replay_under_other_node_id self m p b ip h now peer other :
  expected_node_id self = None →
  fst (verify self m p b ip h now) = Ok peer →
  other ≠ node_id h →
  nonce_expiry self !! (other, nonce h) = None →
  let h' := mkHeaders other (timestamp_millis h) (nonce h) (signature_hex h) in
  fst (verify (snd (verify self m p b ip h now)) m p b ip h' now)
  = Ok (mkPeer other ip (timestamp_millis h)).
Proof.
  intros Hn H1 Ho Hfree h'. apply verify_ok in H1 as (Hr & Hnone & _).
  assert (snd (verify self m p b ip h now) =
    mkAuthenticator (secret self) None (expected_source_ip self)
      (<[(node_id h, nonce h) := sat_add64 now CONTROL_NONCE_TTL_MILLIS]>
         (retain_nonces now (nonce_expiry self)))) as ->.
  { unfold verify. by rewrite Hr, Hnone, Hn. }
  apply verify_request_ok in Hr as (F & N & _ & I & T & S).
  apply verify_ok. split_and!; [by apply verify_request_ok|simpl|done].
  apply map_lookup_filter_None_2. left. rewrite lookup_insert_ne by naive_solver.
  apply map_lookup_filter_None_2. by left.
Qed.

End auth.

(** ** Witnesses

    A stand-in for the digests: the message folded into the first byte. *)
Definition toy_digest (m : bytes) : bytes :=
  foldl (fun a b => (a * 31 + b) mod 256) 7 m :: replicate 31 0.

Lemma toy_digest_bytes m : is_bytes (toy_digest m).
Proof.
  constructor.
  - assert (∀ a, is_u8 a → is_u8 (foldl (fun a b => (a * 31 + b) mod 256) a m)) as H.
    { induction m as [|x m IH]; intros a Ha; simpl; [done|]. apply IH.
      unfold is_u8, u8_max. pose proof (Z.mod_pos_bound (a * 31 + x) 256). lia. }
    apply H. by vm_compute.
  - apply Forall_replicate. by vm_compute.
Qed.

#[refine] Instance toy_crypto : Crypto := {
  hmac_sha256 k m := toy_digest (k ++ m);
  sha256 m := toy_digest m;
}.
Proof. all: intros; apply toy_digest_bytes || done. Defined.

Definition demo_ip : IpAddr := IpAddr.V4 174260226.
Definition demo_auth : ControlAuthenticator :=
  new_at_source (mkSecret (replicate 32 90)) demo_ip.
Definition demo_headers : SignedControlHeaders :=
  match sign demo_auth (str "peer-node") (str "POST") (str "/v1/pair") 1800000000000
          (str "nonce-0000000001") (str "body") with
  | Ok h => h
  | Err _ => mkHeaders [] 0 [] []
  end.
Definition demo_call (now : Z) : Call :=
  mkCall (str "POST") (str "/v1/pair") (str "body") demo_ip demo_headers now.

Lemma signed_request_accepted_witness :
  fst (verify demo_auth (str "POST") (str "/v1/pair") (str "body") demo_ip demo_headers
         1800000020000) = Ok (mkPeer (str "peer-node") demo_ip 1800000000000).
Proof.
  apply (signed_request_accepted demo_auth demo_auth (str "peer-node") (str "POST")
    (str "/v1/pair") 1800000000000 (str "nonce-0000000001") (str "body") demo_ip);
    [by vm_compute..|].
  intros e H. exfalso. by vm_compute in H.
Defined.

Lemma signature_binds_request_witness :
  timestamp_millis demo_headers = timestamp_millis demo_headers ∧
  sha256 (str "body") = sha256 (str "body").
Proof.
  destruct (signature_binds_request demo_auth demo_auth
    (str "POST") (str "/v1/pair") (str "body") demo_ip demo_headers 1800000000000
    (str "POST") (str "/v1/pair") (str "body") demo_ip demo_headers 1800000000009
    (mkPeer (str "peer-node") demo_ip 1800000000000)
    (mkPeer (str "peer-node") demo_ip 1800000000000)) as [H|[H _]];
    [by vm_compute..|split; apply H|by destruct H].
Defined.

Lemma replay_rejected_witness :
  fst (verify_call (verify_calls (snd (verify_call demo_auth (demo_call 1800000000000)))
         [demo_call 1800000010000]) (demo_call 1800000029999))
  ≠ Ok (mkPeer (str "peer-node") demo_ip 1800000000000).
Proof.
  apply (replay_rejected demo_auth (demo_call 1800000000000) [demo_call 1800000010000]
    (demo_call 1800000029999) (mkPeer (str "peer-node") demo_ip 1800000000000));
    [by vm_compute|repeat constructor; by vm_compute|by vm_compute..].
Defined.

Lemma replay_under_other_node_id_witness :
  let a := snd (verify demo_auth (str "POST") (str "/v1/pair") (str "body") demo_ip
                  demo_headers 1800000000000) in
  fst (verify a (str "POST") (str "/v1/pair") (str "body") demo_ip
         (mkHeaders (str "x") 1800000000000 (nonce demo_headers) (signature_hex demo_headers))
         1800000000000)
  = Ok (mkPeer (str "x") demo_ip 1800000000000).
Proof.
  apply (replay_under_other_node_id demo_auth (str "POST") (str "/v1/pair") (str "body")
    demo_ip demo_headers 1800000000000
    (mkPeer (str "peer-node") demo_ip 1800000000000) (str "x")); by vm_compute.
Defined.
