(* ===== verification/Control.v ===== *)
(** * The control protocol: [src/src/cluster/control.rs]

    Messages, the peer lease and [ControlProcessor], the part of the protocol both
    roles share: endpoint and generation checks, idempotency of request ids, and
    the lease that says whether the peer is present.  Methods are written in the
    [method] monad, so that an error keeps the state changes made before it. *)

From S2P Require Import Prelude Bytes Auth.

(** ** Data *)

Module ControlRole.

(** src/src/cluster/control.rs:14-19 (ControlRole) *)
Inductive ControlRole := Coordinator | Worker.

End ControlRole.
Notation ControlRole := ControlRole.ControlRole.

Module ControlMode.

(** src/src/cluster/control.rs:21-30 (ControlMode) *)
Inductive ControlMode :=
| SoloStandalone
| PairedStandalone
| DistributedLayerParallel
| DistributedTensorParallel
| Transitioning.

End ControlMode.
Notation ControlMode := ControlMode.ControlMode.

Module DistributedControlPhase.

(** src/src/cluster/control.rs:32-40 (DistributedControlPhase) *)
Inductive DistributedControlPhase :=
| Unpaired | Paired | WorkerPreparing | WorkerReady | Draining | Drained.

End DistributedControlPhase.
Notation DistributedControlPhase := DistributedControlPhase.DistributedControlPhase.

Module WorkerEventKind.

(** src/src/cluster/control.rs:42-54 (WorkerEventKind) *)
Inductive WorkerEventKind :=
| Ready
| ReadyWithChildGeneration (child_generation : Z)
| Exited
| Reconnecting.

End WorkerEventKind.
Notation WorkerEventKind := WorkerEventKind.WorkerEventKind.

Module ControlEndpoint.

(** src/src/cluster/control.rs:506-519 (ControlEndpoint) *)
Inductive ControlEndpoint :=
| Node
| Pair
| PrepareWorker
| BeginDrain
| Drained
| CancelGeneration
| WorkerEvent
| DistributedReady
| Demote
| PrepareRestart
| CancelRestart.

End ControlEndpoint.
Notation ControlEndpoint := ControlEndpoint.ControlEndpoint.

(** src/src/cluster/control.rs:56-65 (NodeDescriptor) *)
Record NodeDescriptor := mkDescriptor {
  protocol_version : Z;
  descriptor_node_id : bytes;
  role : ControlRole;
  descriptor_generation : Z;
  mode : ControlMode;
  descriptor_deployment_id : option bytes;
}.

Module ControlCommand.

(** src/src/cluster/control.rs:67-80 (ControlCommand) *)
Inductive ControlCommand :=
| Pair (descriptor : NodeDescriptor)
| PrepareWorker
| BeginDrain
| Drained
| CancelGeneration
| WorkerEvent (event : WorkerEventKind)
| DistributedReady
| Demote
| PrepareRestart
| CancelRestart.

End ControlCommand.
Notation ControlCommand := ControlCommand.ControlCommand.

Module ControlResponseStatus.

(** src/src/cluster/control.rs:112-117 (ControlResponseStatus) *)
Inductive ControlResponseStatus := Applied | Duplicate.

End ControlResponseStatus.
Notation ControlResponseStatus := ControlResponseStatus.ControlResponseStatus.

Module ControlError.

(** src/src/cluster/control.rs:128-152 (ControlError) *)
Inductive ControlError :=
| EndpointMismatch
| InvalidRequestId
| GenerationMismatch (expected received : Z)
| DeploymentMismatch
| InvalidDescriptor
| RouteNotScoped
| PeerNotPaired
| IdempotencyConflict
| CommandNotAllowed
| PlannedRestartInProgress
| InvalidPhase (phase : DistributedControlPhase).

End ControlError.
Notation ControlError := ControlError.ControlError.

Global Instance ControlRole_eq_dec : EqDecision ControlRole.
Proof. solve_decision. Defined.
Global Instance ControlMode_eq_dec : EqDecision ControlMode.
Proof. solve_decision. Defined.
Global Instance DistributedControlPhase_eq_dec : EqDecision DistributedControlPhase.
Proof. solve_decision. Defined.
Global Instance WorkerEventKind_eq_dec : EqDecision WorkerEventKind.
Proof. solve_decision. Defined.
Global Instance ControlEndpoint_eq_dec : EqDecision ControlEndpoint.
Proof. solve_decision. Defined.
Global Instance NodeDescriptor_eq_dec : EqDecision NodeDescriptor.
Proof. solve_decision. Defined.
Global Instance ControlCommand_eq_dec : EqDecision ControlCommand.
Proof. solve_decision. Defined.
Global Instance ControlResponseStatus_eq_dec : EqDecision ControlResponseStatus.
Proof. solve_decision. Defined.
Global Instance ControlError_eq_dec : EqDecision ControlError.
Proof. solve_decision. Defined.

(** src/src/cluster/control.rs:103-110 (ControlMessage) *)
Record ControlMessage := mkMessage {
  request_id : bytes;
  message_generation : Z;
  message_deployment_id : option bytes;
  command : ControlCommand;
}.

Global Instance ControlMessage_eq_dec : EqDecision ControlMessage.
Proof. solve_decision. Defined.

(** src/src/cluster/control.rs:119-126 (ControlResponse) *)
Record ControlResponse := mkResponse {
  response_status : ControlResponseStatus;
  response_generation : Z;
  response_descriptor : NodeDescriptor;
  lease_expires_at_millis : option Z;
}.

(** src/src/cluster/control.rs:83-96 (ControlCommand::endpoint) *)
Definition command_endpoint (self : ControlCommand) : ControlEndpoint :=
  match self with
  | ControlCommand.Pair _ => ControlEndpoint.Pair
  | ControlCommand.PrepareWorker => ControlEndpoint.PrepareWorker
  | ControlCommand.BeginDrain => ControlEndpoint.BeginDrain
  | ControlCommand.Drained => ControlEndpoint.Drained
  | ControlCommand.CancelGeneration => ControlEndpoint.CancelGeneration
  | ControlCommand.WorkerEvent _ => ControlEndpoint.WorkerEvent
  | ControlCommand.DistributedReady => ControlEndpoint.DistributedReady
  | ControlCommand.Demote => ControlEndpoint.Demote
  | ControlCommand.PrepareRestart => ControlEndpoint.PrepareRestart
  | ControlCommand.CancelRestart => ControlEndpoint.CancelRestart
  end.

(** src/src/cluster/control.rs:98-100 (ControlCommand::requires_matching_deployment) *)
Definition requires_matching_deployment (self : ControlCommand) : bool :=
  match self with
  | ControlCommand.Pair _ | ControlCommand.Demote => false
  | _ => true
  end.

Definition is_pair (c : ControlCommand) : bool :=
  match c with ControlCommand.Pair _ => true | _ => false end.

(** src/src/cluster/control.rs:155-169 (ControlError::http_status) *)
Definition http_status (self : ControlError) : Z :=
  match self with
  | ControlError.DeploymentMismatch => 412
  | ControlError.GenerationMismatch _ _ | ControlError.IdempotencyConflict
  | ControlError.PeerNotPaired | ControlError.PlannedRestartInProgress
  | ControlError.InvalidPhase _ => 409
  | ControlError.CommandNotAllowed => 403
  | ControlError.EndpointMismatch | ControlError.InvalidRequestId
  | ControlError.InvalidDescriptor | ControlError.RouteNotScoped => 400
  end.

(** src/src/cluster/control.rs:522-537 (ControlEndpoint::parse) *)
Definition endpoint_parse (method path : bytes) : option ControlEndpoint :=
  if bool_decide (method = str "GET") then
    if bool_decide (path = str "/v1/node") then Some ControlEndpoint.Node else None
  else if bool_decide (method = str "POST") then
    if bool_decide (path = str "/v1/pair") then Some ControlEndpoint.Pair
    else if bool_decide (path = str "/v1/prepare-worker") then Some ControlEndpoint.PrepareWorker
    else if bool_decide (path = str "/v1/begin-drain") then Some ControlEndpoint.BeginDrain
    else if bool_decide (path = str "/v1/drained") then Some ControlEndpoint.Drained
    else if bool_decide (path = str "/v1/cancel-generation")
    then Some ControlEndpoint.CancelGeneration
    else if bool_decide (path = str "/v1/worker-event") then Some ControlEndpoint.WorkerEvent
    else if bool_decide (path = str "/v1/distributed-ready")
    then Some ControlEndpoint.DistributedReady
    else if bool_decide (path = str "/v1/demote") then Some ControlEndpoint.Demote
    else if bool_decide (path = str "/v1/prepare-restart") then Some ControlEndpoint.PrepareRestart
    else if bool_decide (path = str "/v1/cancel-restart") then Some ControlEndpoint.CancelRestart
    else None
  else None.

(** ** [BoundedControlBody] *)

(** src/src/cluster/control.rs:484-495 (BoundedControlBody::extend) *)
Definition body_extend (chunk : bytes) : method bytes AuthError unit :=
  b ← self;
  let next_len : Z := length b + length chunk in
  _ ← require (negb (u64_max <? next_len)) AuthError.BodyTooLarge;
  _ ← require (negb (CONTROL_BODY_LIMIT <? next_len)) AuthError.BodyTooLarge;
  modify (fun b => b ++ chunk).

(** ** [PeerLease] *)

(** src/src/cluster/control.rs:172-181 (PeerLease) *)
Record PeerLease := mkPeerLease {
  lease_millis : Z;
  required_stability_millis : Z;
  lease_generation : option Z;
  lease_descriptor : option NodeDescriptor;
  first_authenticated_at_millis : option Z;
  expires_at_millis : option Z;
  route_scoped : bool;
}.

(** src/src/cluster/control.rs:184-194 (PeerLease::new) *)
Definition peer_lease_new (lease required_stability : Z) : PeerLease :=
  mkPeerLease (duration_millis lease) (duration_millis required_stability)
    None None None None false.

(** src/src/cluster/control.rs:257-260 (PeerLease::expired) *)
Definition lease_expired (self : PeerLease) (now : Z) : bool :=
  is_none_or (expires_at_millis self) (fun expires_at => expires_at <=? now).

(** src/src/cluster/control.rs:250-255 (PeerLease::peer_present) *)
Definition peer_present (self : PeerLease) (now : Z) : bool :=
  let stable := is_some_and (first_authenticated_at_millis self) (fun first =>
    sat_add64 first (required_stability_millis self) <=? now) in
  route_scoped self && stable && negb (lease_expired self now)
  && is_some (lease_descriptor self).

(** src/src/cluster/control.rs:270-274 (PeerLease::matches_peer) *)
Definition matches_peer (self : PeerLease) (authenticated : AuthenticatedPeer) : bool :=
  is_some_and (lease_descriptor self) (fun d =>
    bool_decide (descriptor_node_id d = peer_node_id authenticated)).

(** src/src/cluster/control.rs:280-282 (PeerLease::invalidate_route) *)
Definition invalidate_route (self : PeerLease) : PeerLease :=
  mkPeerLease (lease_millis self) (required_stability_millis self) (lease_generation self)
    (lease_descriptor self) (first_authenticated_at_millis self) (expires_at_millis self) false.

Definition same_membership (self : PeerLease) (d : NodeDescriptor) (generation now : Z)
    : bool :=
  bool_decide (lease_generation self = Some generation)
  && is_some_and (lease_descriptor self) (fun current =>
       bool_decide (descriptor_node_id current = descriptor_node_id d))
  && negb (lease_expired self now).

(** src/src/cluster/control.rs:196-224 (PeerLease::establish) *)
Definition establish (authenticated : AuthenticatedPeer) (d : NodeDescriptor)
    (generation : Z) (scoped : bool) (now : Z) : method PeerLease ControlError unit :=
  _ ← require scoped ControlError.RouteNotScoped;
  _ ← require (bool_decide (descriptor_node_id d = peer_node_id authenticated)
               && (descriptor_generation d =? generation)) ControlError.InvalidDescriptor;
  modify (fun l =>
    mkPeerLease (lease_millis l) (required_stability_millis l) (Some generation) (Some d)
      (if same_membership l d generation now
       then first_authenticated_at_millis l else Some now)
      (Some (sat_add64 now (lease_millis l))) true).

(** src/src/cluster/control.rs:226-248 (PeerLease::renew) *)
Definition renew (authenticated : AuthenticatedPeer) (generation : Z) (scoped : bool)
    (now : Z) : method PeerLease ControlError unit :=
  if negb scoped then
    _ ← modify invalidate_route;
    fail ControlError.RouteNotScoped
  else
    l ← self;
    let matching := bool_decide (lease_generation l = Some generation)
                    && matches_peer l authenticated in
    _ ← require (negb (negb matching || lease_expired l now)) ControlError.PeerNotPaired;
    modify (fun l =>
      mkPeerLease (lease_millis l) (required_stability_millis l) (lease_generation l)
        (lease_descriptor l) (first_authenticated_at_millis l)
        (Some (sat_add64 now (lease_millis l))) true).

(** src/src/cluster/control.rs:284-289 (PeerLease::advance_generation) *)
Definition lease_advance_generation (generation : Z) (self : PeerLease) : PeerLease :=
  mkPeerLease (lease_millis self) (required_stability_millis self)
    ((fun _ => generation) <$> lease_generation self)
    ((fun d => mkDescriptor (protocol_version d) (descriptor_node_id d) (role d) generation
                 (mode d) (descriptor_deployment_id d)) <$> lease_descriptor self)
    (first_authenticated_at_millis self) (expires_at_millis self) (route_scoped self).

(** ** [ControlProcessor] *)

(** src/src/cluster/control.rs:292-298 (ControlProcessor) *)
Record ControlProcessor := mkProcessor {
  local : NodeDescriptor;
  expected_peer_role : ControlRole;
  lease : PeerLease;
  processed : gmap (Z * bytes) ControlMessage;
}.

Definition generation (self : ControlProcessor) : Z := descriptor_generation (local self).
Definition deployment_id (self : ControlProcessor) : option bytes :=
  descriptor_deployment_id (local self).

Definition set_lease (l : PeerLease) (self : ControlProcessor) : ControlProcessor :=
  mkProcessor (local self) (expected_peer_role self) l (processed self).

Definition on_lease {A} (m : method PeerLease ControlError A)
    : method ControlProcessor ControlError A := on_field lease set_lease m.

(** src/src/cluster/control.rs:301-313 (ControlProcessor::new) *)
Definition processor_new (local : NodeDescriptor) (expected : ControlRole)
    (lease required_stability : Z) : ControlProcessor :=
  mkProcessor local expected (peer_lease_new lease required_stability) ∅.

(** src/src/cluster/control.rs:438-442 (ControlProcessor::advance_generation) *)
Definition processor_advance_generation (generation : Z) (self : ControlProcessor)
    : ControlProcessor :=
  let d := local self in
  mkProcessor
    (mkDescriptor (protocol_version d) (descriptor_node_id d) (role d) generation (mode d)
       (descriptor_deployment_id d))
    (expected_peer_role self) (lease_advance_generation generation (lease self)) ∅.

(** src/src/cluster/control.rs:421-428 (ControlProcessor::response) *)
Definition response (self : ControlProcessor) (status : ControlResponseStatus)
    : ControlResponse :=
  mkResponse status (generation self) (local self) (expires_at_millis (lease self)).

(** src/src/cluster/control.rs:444-451 (ControlProcessor::message) *)
Definition processor_message (self : ControlProcessor) (request_id : bytes)
    (command : ControlCommand) : ControlMessage :=
  mkMessage request_id (generation self) (deployment_id self) command.

(** src/src/cluster/control.rs:465-471 (ControlProcessor::candidate_generation) *)
Definition candidate_generation (self : ControlProcessor) (peer_generation : Z)
    : result Z ControlError :=
  Ok (if generation self <? peer_generation then peer_generation else generation self).

(** src/src/cluster/control.rs:315-350 (ControlProcessor::descriptor_response) *)
Definition descriptor_response (authenticated : AuthenticatedPeer) (scoped : bool) (now : Z)
    : method ControlProcessor ControlError ControlResponse :=
  _ ← require scoped ControlError.RouteNotScoped;
  p ← self;
  expires ←
    (match lease_descriptor (lease p) with
     | None => mret None
     | Some _ =>
         if lease_expired (lease p) now then
           _ ← require (matches_peer (lease p) authenticated) ControlError.PeerNotPaired;
           mret None
         else
           _ ← on_lease (renew authenticated (generation p) true now);
           p ← self;
           mret (expires_at_millis (lease p))
     end);
  p ← self;
  mret (mkResponse ControlResponseStatus.Applied (generation p) (local p) expires).

(** The part of [handle_validated] before the idempotency lookup: endpoint, request
    id, generation (advanced by a newer [Pair]) and deployment.
    src/src/cluster/control.rs:364-386 (ControlProcessor::handle_validated) *)
Definition check_message (endpoint : ControlEndpoint) (message : ControlMessage)
    : method ControlProcessor ControlError unit :=
  _ ← require (bool_decide (endpoint = command_endpoint (command message)))
        ControlError.EndpointMismatch;
  _ ← require (negb (bool_decide (request_id message = [])
                     || (128 <? (length (request_id message) : Z))))
        ControlError.InvalidRequestId;
  p ← self;
  _ ← (if is_pair (command message) && (generation p <? message_generation message)
       then modify (processor_advance_generation (message_generation message))
       else mret tt);
  p ← self;
  _ ← require (message_generation message =? generation p)
        (ControlError.GenerationMismatch (generation p) (message_generation message));
  require (negb (requires_matching_deployment (command message)
                 && (is_none (deployment_id p)
                     || negb (bool_decide (message_deployment_id message = deployment_id p)))))
    ControlError.DeploymentMismatch.

(** The lease update of an accepted command.
    src/src/cluster/control.rs:400-415 (ControlProcessor::handle_validated) *)
Definition apply_to_lease (message : ControlMessage) (authenticated : AuthenticatedPeer)
    (scoped : bool) (now : Z) : method ControlProcessor ControlError unit :=
  match command message with
  | ControlCommand.Pair d =>
      p ← self;
      _ ← require (negb (negb (protocol_version d =? 1)
                         || negb (bool_decide (role d = expected_peer_role p))))
            ControlError.InvalidDescriptor;
      on_lease (establish authenticated d (message_generation message) scoped now)
  | _ => on_lease (renew authenticated (message_generation message) scoped now)
  end.

Definition insert_processed (key : Z * bytes) (message : ControlMessage)
    (self : ControlProcessor) : ControlProcessor :=
  mkProcessor (local self) (expected_peer_role self) (lease self)
    (<[key := message]> (processed self)).

(** The part from the idempotency lookup on.
    src/src/cluster/control.rs:388-418 (ControlProcessor::handle_validated) *)
Definition handle_checked (message : ControlMessage) (authenticated : AuthenticatedPeer)
    (scoped : bool) (now : Z) (validate : ControlCommand → result unit ControlError)
    : method ControlProcessor ControlError ControlResponse :=
  p ← self;
  let key := (message_generation message, request_id message) in
  match processed p !! key with
  | Some previous =>
      _ ← require (bool_decide (previous = message)) ControlError.IdempotencyConflict;
      _ ← on_lease (renew authenticated (message_generation message) scoped now);
      p ← self;
      mret (response p ControlResponseStatus.Duplicate)
  | None =>
      _ ← lift (validate (command message));
      _ ← apply_to_lease message authenticated scoped now;
      _ ← modify (insert_processed key message);
      p ← self;
      mret (response p ControlResponseStatus.Applied)
  end.

(** src/src/cluster/control.rs:352-419 (ControlProcessor::handle_validated) *)
Definition handle_validated (endpoint : ControlEndpoint) (message : ControlMessage)
    (authenticated : AuthenticatedPeer) (scoped : bool) (now : Z)
    (validate : ControlCommand → result unit ControlError)
    : method ControlProcessor ControlError ControlResponse :=
  _ ← check_message endpoint message;
  handle_checked message authenticated scoped now validate.

(** ** Lemmas on the lease *)

Lemma on_lease_ok {A} (m : method PeerLease ControlError A) p a p' :
  on_lease m p = (Ok a, p') ↔ ∃ l, m (lease p) = (Ok a, l) ∧ p' = set_lease l p.
Proof.
  unfold on_lease, on_field. destruct (m (lease p)) as [r l]. split.
  - intros [= -> <-]. eauto.
  - intros (? & [= -> ->] & ->). done.
Qed.

Lemma renew_ok a g scoped now l u l' :
  renew a g scoped now l = (Ok u, l') →
  scoped = true ∧ lease_generation l = Some g ∧ matches_peer l a = true ∧
  lease_expired l now = false ∧
  l' = mkPeerLease (lease_millis l) (required_stability_millis l) (lease_generation l)
         (lease_descriptor l) (first_authenticated_at_millis l)
         (Some (sat_add64 now (lease_millis l))) true.
Proof.
  unfold renew. destruct scoped; simpl; intros H; method_inv. bool_to_prop. naive_solver.
Qed.

Lemma establish_ok a d g scoped now l u l' :
  establish a d g scoped now l = (Ok u, l') →
  scoped = true ∧ descriptor_node_id d = peer_node_id a ∧ descriptor_generation d = g ∧
  l' = mkPeerLease (lease_millis l) (required_stability_millis l) (Some g) (Some d)
         (if same_membership l d g now then first_authenticated_at_millis l else Some now)
         (Some (sat_add64 now (lease_millis l))) true.
Proof. unfold establish. intros H; method_inv. bool_to_prop. naive_solver. Qed.

(** ** Accepted messages *)

(** The state the generation check sees. *)
Definition advanced (m : ControlMessage) (p : ControlProcessor) : ControlProcessor :=
  if is_pair (command m) && (generation p <? message_generation m)
  then processor_advance_generation (message_generation m) p else p.

Lemma check_message_ok e m p u p' :
  check_message e m p = (Ok u, p') →
  e = command_endpoint (command m) ∧ request_id m ≠ [] ∧ length (request_id m) ≤ 128 ∧
  p' = advanced m p ∧ message_generation m = generation p' ∧
  (requires_matching_deployment (command m) = true →
   ∃ d, deployment_id p' = Some d ∧ message_deployment_id m = Some d).
Proof.
  unfold check_message, advanced. intros H; method_inv.
  destruct (is_pair (command m) && _); method_inv; bool_to_prop;
    (split_and!; [done|done|lia|done|done|]);
    (intros Hr; rewrite Hr in *; simpl in *; bool_to_prop;
     match goal with H : is_none ?o = false |- _ => destruct o as [d|]; [|done] end; eauto).
Qed.

Lemma apply_to_lease_ok m a scoped now p u p' :
  apply_to_lease m a scoped now p = (Ok u, p') →
  scoped = true ∧ ∃ l, p' = set_lease l p ∧
  match command m with
  | ControlCommand.Pair d =>
      protocol_version d = 1 ∧ role d = expected_peer_role p ∧
      establish a d (message_generation m) scoped now (lease p) = (Ok tt, l)
  | _ => renew a (message_generation m) scoped now (lease p) = (Ok tt, l)
  end.
Proof.
  unfold apply_to_lease. destruct u, (command m); intros H; method_inv;
    apply on_lease_ok in H as (l & H & ->) ||
    (rename select (on_lease _ _ = _) into H; apply on_lease_ok in H as (l & H & ->)).
  1: bool_to_prop; split; [by apply establish_ok in H as [? _]|]; eauto 10.
  all: split; [by apply renew_ok in H as [? _]|]; eauto.
Qed.

Lemma handle_ok e m a scoped now v p r p' :
  handle_validated e m a scoped now v p = (Ok r, p') →
  check_message e m p = (Ok tt, advanced m p) ∧
  response_generation r = generation p' ∧
  match processed (advanced m p) !! (message_generation m, request_id m) with
  | Some previous =>
      previous = m ∧ response_status r = ControlResponseStatus.Duplicate ∧
      ∃ l, renew a (message_generation m) scoped now (lease (advanced m p)) = (Ok tt, l) ∧
           p' = set_lease l (advanced m p)
  | None =>
      response_status r = ControlResponseStatus.Applied ∧ v (command m) = Ok tt ∧
      ∃ p1, apply_to_lease m a scoped now (advanced m p) = (Ok tt, p1) ∧
            p' = insert_processed (message_generation m, request_id m) m p1
  end.
Proof.
  unfold handle_validated. intros H; method_inv.
  rename select (handle_checked _ _ _ _ _ _ = _) into H'. unfold handle_checked in H'.
  method_inv. rename select unit into u. destruct u.
  rename select (check_message _ _ _ = _) into Hc.
  pose proof (check_message_ok _ _ _ _ _ Hc) as (_ & _ & _ & -> & _).
  split; [done|]. case_match; method_inv.
  - rename select (on_lease _ _ = _) into Hr. apply on_lease_ok in Hr as ([] & Hr & ->).
    bool_to_prop. split; [done|]. split_and!; [done|done|].
    match goal with x : unit |- _ => destruct x end. eauto.
  - split; [done|]. repeat match goal with x : unit |- _ => destruct x end. eauto.
Qed.

(** ** Sequences of operations on a processor *)

Inductive ProcessorOp :=
| OpHandle (e : ControlEndpoint) (m : ControlMessage) (a : AuthenticatedPeer)
    (scoped : bool) (now : Z) (v : ControlCommand → result unit ControlError)
| OpDescribe (a : AuthenticatedPeer) (scoped : bool) (now : Z)
| OpInvalidateRoute
| OpAdvance (g : Z).

Definition processor_op (p : ControlProcessor) (op : ProcessorOp) : ControlProcessor :=
  match op with
  | OpHandle e m a scoped now v => snd (handle_validated e m a scoped now v p)
  | OpDescribe a scoped now => snd (descriptor_response a scoped now p)
  | OpInvalidateRoute => set_lease (invalidate_route (lease p)) p
  | OpAdvance g => processor_advance_generation g p
  end.

Definition is_advance (op : ProcessorOp) : bool :=
  match op with OpAdvance _ => true | _ => false end.

(** The generation never goes down, and within one generation no processed request
    is forgotten. *)
Definition remembers (p p' : ControlProcessor) : Prop :=
  generation p ≤ generation p' ∧
  (generation p' = generation p → processed p ⊆ processed p').

Global Instance remembers_preorder : PreOrder remembers.
Proof.
  split; [by intros p|].
  intros p1 p2 p3 [H1 S1] [H2 S2]. split; [lia|].
  intros E. etransitivity; [apply S1|apply S2]; lia.
Qed.

Lemma remembers_on_lease {A} (m : method PeerLease ControlError A) :
  keeps remembers (on_lease m).
Proof. intros p. unfold on_lease, on_field. by destruct (m (lease p)). Qed.

Lemma remembers_advance m p : remembers p (advanced m p).
Proof.
  unfold advanced. destruct (is_pair _ && _) eqn:E; [|reflexivity]. bool_to_prop.
  split; unfold generation in *; simpl; [lia|intros; lia].
Qed.

Lemma check_message_state e m p :
  snd (check_message e m p) = p ∨ snd (check_message e m p) = advanced m p.
Proof.
  unfold check_message, advanced. unfold_method.
  repeat (case_match; simplify_eq/=; try (by left)); auto.
Qed.

Lemma remembers_check_message e m : keeps remembers (check_message e m).
Proof.
  intros p. destruct (check_message_state e m p) as [->| ->]; [reflexivity|].
  apply remembers_advance.
Qed.

Lemma remembers_apply m a scoped now : keeps remembers (apply_to_lease m a scoped now).
Proof.
  unfold apply_to_lease. destruct (command m); try apply remembers_on_lease.
  apply keeps_bind; [apply _|auto with rust typeclass_instances|]. intros p.
  apply keeps_bind; [apply _|auto with rust typeclass_instances|]. intros _.
  apply remembers_on_lease.
Qed.

Lemma apply_processed m a scoped now p :
  processed (snd (apply_to_lease m a scoped now p)) = processed p.
Proof.
  unfold apply_to_lease, on_lease, on_field. unfold_method.
  repeat case_match; simplify_eq/=; done.
Qed.

Lemma remembers_insert key m p :
  processed p !! key = None → remembers p (insert_processed key m p).
Proof. intros H. split; [done|]. intros _. by apply insert_subseteq. Qed.

Lemma remembers_handle e m a scoped now v : keeps remembers (handle_validated e m a scoped now v).
Proof.
  intros p. unfold handle_validated. unfold mbind at 1, method_bind at 1.
  pose proof (remembers_check_message e m p) as Hc.
  destruct (check_message e m p) as [[[]|] p1]; [|done]. simpl in Hc.
  etransitivity; [exact Hc|]. clear p Hc.
  unfold handle_checked. unfold mbind at 1, method_bind at 1. simpl.
  case_match eqn:Ek.
  - repeat (apply keeps_bind; [apply _|apply remembers_on_lease || auto with rust typeclass_instances|intros]).
    apply keeps_ret, _.
  - unfold mbind at 1, method_bind at 1, lift. destruct (v _) as [[]|]; [|reflexivity].
    unfold mbind at 1, method_bind at 1.
    pose proof (remembers_apply m a scoped now p1) as Ha.
    pose proof (apply_processed m a scoped now p1) as Hp.
    destruct (apply_to_lease _ _ _ _ _) as [[[]|] p2]; [|done]. simpl in *.
    etransitivity; [exact Ha|]. apply remembers_insert. by rewrite Hp.
Qed.

Lemma remembers_describe a scoped now : keeps remembers (descriptor_response a scoped now).
Proof.
  unfold descriptor_response.
  repeat (apply keeps_bind; [apply _| |intros]); auto with rust typeclass_instances.
  case_match; [|auto with rust typeclass_instances]. apply keeps_if; [apply _| |].
  - apply keeps_bind; auto with rust typeclass_instances.
  - repeat (apply keeps_bind; [apply _|apply remembers_on_lease || auto with rust typeclass_instances|intros]).
    apply keeps_ret, _.
Qed.

Lemma remembers_ops ops : ∀ p,
  forallb (fun op => negb (is_advance op)) ops = true →
  remembers p (foldl processor_op p ops).
Proof.
  induction ops as [|op ops IH]; intros p H; simpl in *; [reflexivity|]. bool_to_prop.
  etransitivity; [|by apply IH]. destruct op; simpl in *; try done.
  - apply remembers_handle.
  - apply remembers_describe.
Qed.

(** ** What a present peer has shown *)

(** An authenticated request that established ([contact_pair]) or renewed the
    lease. *)
Record Contact := mkContact {
  contact_node : bytes;
  contact_time : Z;
  contact_pair : bool;
}.

Definition contacts (p : ControlProcessor) (op : ProcessorOp) : list Contact :=
  match op with
  | OpHandle e m a scoped now v =>
      match fst (handle_validated e m a scoped now v p) with
      | Ok r => [mkContact (peer_node_id a) now
                   (is_pair (command m)
                    && bool_decide (response_status r = ControlResponseStatus.Applied))]
      | Err _ => []
      end
  | OpDescribe a scoped now =>
      match fst (descriptor_response a scoped now p) with
      | Ok r => if is_some (lease_expires_at_millis r)
                then [mkContact (peer_node_id a) now false] else []
      | Err _ => []
      end
  | _ => []
  end.

Fixpoint contact_log (p : ControlProcessor) (ops : list ProcessorOp) : list Contact :=
  match ops with
  | [] => []
  | op :: ops => contacts p op ++ contact_log (processor_op p op) ops
  end.

Definition backed (log : list Contact) (l : PeerLease) : Prop :=
  match lease_descriptor l with
  | None => first_authenticated_at_millis l = None ∧ expires_at_millis l = None
  | Some d => ∃ f t b,
      first_authenticated_at_millis l = Some f ∧
      expires_at_millis l = Some (sat_add64 t (lease_millis l)) ∧
      mkContact (descriptor_node_id d) f true ∈ log ∧
      mkContact (descriptor_node_id d) t b ∈ log
  end.

Definition same_terms (l l' : PeerLease) : Prop :=
  lease_millis l' = lease_millis l ∧
  required_stability_millis l' = required_stability_millis l.

Lemma backed_mono log log' l : log ⊆ log' → backed log l → backed log' l.
Proof. unfold backed. intros H. case_match; [naive_solver|done]. Qed.

Lemma backed_renew log a g scoped now l l' :
  backed log l → renew a g scoped now l = (Ok tt, l') →
  backed (mkContact (peer_node_id a) now false :: log) l' ∧ same_terms l l'.
Proof.
  intros Hb (_ & _ & Hm & _ & ->)%renew_ok. split; [|done].
  unfold matches_peer in Hm. unfold backed in *. simpl.
  destruct (lease_descriptor l) as [d|]; simpl in *; [|done]. bool_to_prop.
  destruct Hb as (f & t & b & ? & ? & ? & ?). exists f, now, false. rewrite Hm.
  split_and!; [done|done|right; congruence|left].
Qed.

Lemma backed_establish log a d g scoped now l l' :
  backed log l → establish a d g scoped now l = (Ok tt, l') →
  backed (mkContact (peer_node_id a) now true :: log) l' ∧ same_terms l l'.
Proof.
  intros Hb (_ & Hn & _ & ->)%establish_ok. split; [|done]. unfold backed. simpl.
  destruct (same_membership l d g now) eqn:E.
  - unfold same_membership in E. bool_to_prop. unfold backed in Hb.
    destruct (lease_descriptor l) as [d'|]; simpl in *; [|done]. bool_to_prop.
    destruct Hb as (f & t & b & ? & ? & ? & ?). exists f, now, true.
    rewrite Hn in *. split_and!; [done|done|right; congruence|left].
  - exists now, now, true. rewrite Hn. split_and!; [done|done|left|left].
Qed.

Lemma backed_advance log g l : backed log l → backed log (lease_advance_generation g l).
Proof. unfold backed. simpl. by destruct (lease_descriptor l). Qed.

Lemma backed_advanced log m p : backed log (lease p) → backed log (lease (advanced m p)).
Proof. unfold advanced. case_match; [apply backed_advance|done]. Qed.

Lemma renew_err_state a g scoped now l e l' :
  renew a g scoped now l = (Err e, l') → l' = l ∨ l' = invalidate_route l.
Proof.
  unfold renew. unfold_method. destruct scoped; simpl; [|naive_solver].
  repeat case_match; naive_solver.
Qed.

Lemma backed_renew_err log a g scoped now l e l' :
  backed log l → renew a g scoped now l = (Err e, l') → backed log l' ∧ same_terms l l'.
Proof. intros Hb [-> | ->]%renew_err_state; done. Qed.

Lemma establish_err_state a d g scoped now l e l' :
  establish a d g scoped now l = (Err e, l') → l' = l.
Proof. unfold establish. unfold_method. repeat case_match; naive_solver. Qed.

Lemma advanced_terms m p : same_terms (lease p) (lease (advanced m p)).
Proof. unfold advanced. by repeat case_match. Qed.

(** One operation keeps the lease backed by the extended log. *)
Lemma backed_apply_err log m a scoped now p e p' :
  backed log (lease p) → apply_to_lease m a scoped now p = (Err e, p') →
  backed log (lease p') ∧ same_terms (lease p) (lease p').
Proof.
  intros Hb. unfold apply_to_lease.
  destruct (command m) as [d| | | | | | | | |]; [|unfold on_lease, on_field; intros Hr;
    destruct (renew _ _ _ _ _) as [r l] eqn:E; simplify_eq; by eapply backed_renew_err..].
  unfold on_lease, on_field. unfold_method.
  destruct (negb _); [|by intros [= <- <-]]. intros Hr.
  destruct (establish _ _ _ _ _ _) as [r l] eqn:E. simplify_eq.
  by apply establish_err_state in E as ->.
Qed.

Lemma backed_apply_ok log m a scoped now p p' :
  backed log (lease p) → apply_to_lease m a scoped now p = (Ok tt, p') →
  backed (mkContact (peer_node_id a) now (is_pair (command m)) :: log) (lease p') ∧
  same_terms (lease p) (lease p').
Proof.
  intros Hb (_ & l & -> & H)%apply_to_lease_ok.
  destruct (command m); simpl in *; [|by eapply backed_renew..].
  destruct H as (_ & _ & H). by eapply backed_establish.
Qed.

Lemma backed_handle_tail log m a scoped now v p er p' :
  backed log (lease p) →
  handle_checked m a scoped now v p = (Err er, p') →
  backed log (lease p') ∧ same_terms (lease p) (lease p').
Proof.
  intros Hb. unfold handle_checked, on_lease, on_field. unfold_method.
  destruct (processed p !! _) as [prev|].
  - destruct (bool_decide _); [|by intros [= <- <-]].
    destruct (renew _ _ _ _ _) as [[]l] eqn:E; intros Hr; simplify_eq. by eapply backed_renew_err.
  - destruct (v _); [|by intros [= <- <-]].
    destruct (apply_to_lease _ _ _ _ _) as [[]p1] eqn:E; intros Hr; simplify_eq.
    by eapply backed_apply_err.
Qed.

Lemma backed_handle log e m a scoped now v p :
  backed log (lease p) →
  let p' := snd (handle_validated e m a scoped now v p) in
  backed (contacts p (OpHandle e m a scoped now v) ++ log) (lease p') ∧
  same_terms (lease p) (lease p').
Proof.
  intros Hb. simpl. destruct (handle_validated e m a scoped now v p) as [[r|er] p'] eqn:E; simpl.
  - apply handle_ok in E as (_ & _ & H).
    pose proof (backed_advanced _ m _ Hb) as Hb'. pose proof (advanced_terms m p) as Ht.
    destruct (processed _ !! _) as [prev|].
    + destruct H as (-> & Hs & l & Hr & ->). rewrite Hs, bool_decide_false, andb_false_r by done.
      destruct (backed_renew _ _ _ _ _ _ _ Hb' Hr). unfold same_terms in *. split; [done|].
      simpl. naive_solver congruence.
    + destruct H as (Hs & _ & p1 & Ha & ->). rewrite Hs, bool_decide_true, andb_true_r by done.
      destruct (backed_apply_ok _ _ _ _ _ _ _ Hb' Ha). unfold same_terms in *. split; [done|].
      simpl. naive_solver congruence.
  - assert (backed log (lease p') ∧ same_terms (lease p) (lease p')) as [? ?]; [|done].
    revert E. unfold handle_validated. unfold mbind at 1, method_bind at 1.
    pose proof (backed_advanced _ m _ Hb) as Hb'. pose proof (advanced_terms m p) as Ht.
    pose proof (check_message_state e m p) as Hs.
    destruct (check_message e m p) as [[[]|] p1] eqn:Ec; simpl in Hs.
    + apply check_message_ok in Ec as (_ & _ & _ & -> & _). intros Hh.
      destruct (backed_handle_tail _ _ _ _ _ _ _ _ _ Hb' Hh).
      unfold same_terms in *. intuition congruence.
    + intros [= <- <-]. destruct Hs as [-> | ->]; done.
Qed.

Lemma backed_describe log a scoped now p :
  backed log (lease p) →
  let p' := snd (descriptor_response a scoped now p) in
  backed (contacts p (OpDescribe a scoped now) ++ log) (lease p') ∧
  same_terms (lease p) (lease p').
Proof.
  intros Hb. simpl. unfold descriptor_response, on_lease, on_field. unfold_method.
  destruct scoped; simpl; [|done].
  destruct (lease_descriptor (lease p)) eqn:Ed; simpl; [|done].
  destruct (lease_expired (lease p) now); simpl; [by destruct (matches_peer _ _)|].
  destruct (renew _ _ _ _ _) as [[[]|er] l] eqn:E; simpl.
  - destruct (backed_renew _ _ _ _ _ _ _ Hb E). apply renew_ok in E as (_ & _ & _ & _ & ->). done.
  - by eapply backed_renew_err.
Qed.

Lemma backed_ops ops : ∀ p log,
  backed log (lease p) →
  let p' := foldl processor_op p ops in
  backed (log ++ contact_log p ops) (lease p') ∧ same_terms (lease p) (lease p').
Proof.
  induction ops as [|op ops IH]; intros p log Hb; simpl.
  - by rewrite app_nil_r.
  - assert (backed (contacts p op ++ log) (lease (processor_op p op)) ∧
            same_terms (lease p) (lease (processor_op p op))) as [Hb1 Ht1].
    { destruct op.
      - by apply backed_handle.
      - by apply backed_describe.
      - done.
      - split; [by apply backed_advance|done]. }
    destruct (IH (processor_op p op) (log ++ contacts p op)) as [Hb2 Ht2].
    { eapply backed_mono; [|exact Hb1]. set_solver. }
    rewrite <- app_assoc in Hb2. split; [done|]. unfold same_terms in *. intuition congruence.
Qed.

(** ** Properties *)

(** A message is accepted only if it is meant for this session.  Whatever the
    state, an accepted message came to its own endpoint, over a scoped route, from
    the authenticated node the lease names, with the generation the processor has
    afterwards (never below the one it had) and, except for pairing and demotion,
    with the deployment of this node; and it is remembered. *)
Lemma accepted_message_matches e m a scoped now v p r p' :
  handle_validated e m a scoped now v p = (Ok r, p') →
  e = command_endpoint (command m) ∧ scoped = true ∧
  message_generation m = generation p' ∧ generation p ≤ generation p' ∧
  matches_peer (lease p') a = true ∧
  (requires_matching_deployment (command m) = true →
   ∃ d, deployment_id p = Some d ∧ message_deployment_id m = Some d) ∧
  processed p' !! (message_generation m, request_id m) = Some m.
Proof.
  intros H. pose proof (remembers_handle e m a scoped now v p) as [Hle _]. rewrite H in Hle.
  apply handle_ok in H as (Hc & _ & H). apply check_message_ok in Hc as (-> & _ & _ & _ & Hg & Hd).
  assert (deployment_id (advanced m p) = deployment_id p) as Edep
    by (unfold advanced; by repeat case_match).
  rewrite Edep in Hd. split; [done|].
  destruct (processed (advanced m p) !! _) as [prev|] eqn:Ep.
  - destruct H as (-> & _ & l & Hr & ->). apply renew_ok in Hr as (-> & _ & Hm & _ & ->).
    split_and!; done.
  - destruct H as (_ & _ & p1 & Ha & ->). apply apply_to_lease_ok in Ha as (-> & l & -> & Hl).
    split_and!; try done; [|by simpl; rewrite lookup_insert_eq].
    simpl. destruct (command m); try (by apply renew_ok in Hl as (_ & _ & Hm & _ & ->)).
    destruct Hl as (_ & _ & Hl). apply establish_ok in Hl as (_ & Hn & _ & ->).
    unfold matches_peer. simpl. by apply bool_decide_eq_true.
Qed.

(** C9: at most once.  After a message has been applied, no later message with the
    same generation and request id is applied again, whatever messages, descriptor
    reads and route invalidations come in between; and one with different content
    is not accepted at all. *)
Theorem request_applied_at_most_once e m a scoped now v p r p1 ops e' m' a' scoped' now' v' r' p2 :
  handle_validated e m a scoped now v p = (Ok r, p1) →
  forallb (fun op => negb (is_advance op)) ops = true →
  message_generation m' = message_generation m →
  request_id m' = request_id m →
  handle_validated e' m' a' scoped' now' v' (foldl processor_op p1 ops) = (Ok r', p2) →
  m' = m ∧ response_status r' = ControlResponseStatus.Duplicate.
Proof.
  intros H1 Hops Hg Hid H2.
  assert (message_generation m = generation p1 ∧
          processed p1 !! (message_generation m, request_id m) = Some m) as [Hg1 Hp1].
  { pose proof H1 as H. apply handle_ok in H as (Hc & _ & H).
    apply check_message_ok in Hc as (_ & _ & _ & _ & Hgm & _).
    destruct (processed (advanced m p) !! _) eqn:Ep.
    - destruct H as (-> & _ & l & _ & ->). done.
    - destruct H as (_ & _ & q & (_ & l & -> & _)%apply_to_lease_ok & ->). simpl.
      by rewrite lookup_insert_eq. }
  pose proof (remembers_ops ops p1 Hops) as [Hle Hsub].
  set (q := foldl processor_op p1 ops) in *.
  apply handle_ok in H2 as (Hc & _ & H2). apply check_message_ok in Hc as (_ & _ & _ & _ & Hg2 & _).
  pose proof (remembers_advance m' q) as [Hle2 Hsub2].
  assert (processed (advanced m' q) !! (message_generation m', request_id m') = Some m) as Hl.
  { rewrite Hg, Hid. eapply lookup_weaken; [exact Hp1|].
    etransitivity; [apply Hsub; lia|apply Hsub2; lia]. }
  rewrite Hl in H2. destruct H2 as (<- & Hs & _). done.
Qed.

(** A peer counted as present has shown itself.  Starting from a new processor,
    after any sequence of messages, descriptor reads, route invalidations and
    generation changes, if the peer is present at [now] then its node paired at
    some time at least the required stability ago, and a request of the same node
    was accepted within the lease. *)
Lemma peer_present_sound d0 expected lease_ns stability_ns ops now :
  let p := foldl processor_op (processor_new d0 expected lease_ns stability_ns) ops in
  let log := contact_log (processor_new d0 expected lease_ns stability_ns) ops in
  peer_present (lease p) now = true →
  ∃ node first last pair,
    mkContact node first true ∈ log ∧
    sat_add64 first (duration_millis stability_ns) ≤ now ∧
    mkContact node last pair ∈ log ∧
    now < sat_add64 last (duration_millis lease_ns).
Proof.
  intros p log H. destruct (backed_ops ops (processor_new d0 expected lease_ns stability_ns) [])
    as [Hb [Hm Hs]]; [done|]. fold p log in Hb, Hm, Hs. simpl in Hb, Hm, Hs.
  unfold peer_present, lease_expired in H. bool_to_prop. unfold backed in Hb.
  destruct (lease_descriptor (lease p)) as [d|]; [|done].
  destruct Hb as (f & t & b & Hf & He & Hin1 & Hin2). rewrite Hf, He in *. simpl in *.
  bool_to_prop. exists (descriptor_node_id d), f, t, b. rewrite <- Hm, <- Hs. done.
Qed.

(** A rejected pairing can still change the session.  A well-formed [Pair]
    request with a newer generation moves the processor to that generation and
    forgets the processed requests even when the role's phase check then rejects
    it. *)
Lemma rejected_pair_advances_generation m d a scoped now v p er :
  command m = ControlCommand.Pair d →
  request_id m ≠ [] → length (request_id m) ≤ 128 →
  generation p < message_generation m →
  v (command m) = Err er →
  let '(r, p') := handle_validated ControlEndpoint.Pair m a scoped now v p in
  r = Err er ∧ generation p' = message_generation m ∧ processed p' = ∅.
Proof.
  intros Hc Hid Hlen Hlt Hv. unfold handle_validated, check_message, handle_checked.
  rewrite Hc in *. unfold_method. simpl.
  rewrite (bool_decide_false (request_id m = [])) by done.
  destruct (Z.ltb_spec 128 (length (request_id m))); [lia|]. simpl.
  destruct (Z.ltb_spec (generation p) (message_generation m)); [|lia]. simpl.
  unfold generation at 1. simpl. rewrite Z.eqb_refl. simpl.
  rewrite lookup_empty. rewrite Hv. done.
Qed.

(** ** Witnesses: a coordinator's processor, a worker that pairs and renews. *)

Definition demo_coordinator : NodeDescriptor :=
  mkDescriptor 1 (str "coordinator") ControlRole.Coordinator 7 ControlMode.SoloStandalone
    (Some (str "deployment-a")).
Definition demo_worker (g : Z) : NodeDescriptor :=
  mkDescriptor 1 (str "worker") ControlRole.Worker g ControlMode.SoloStandalone
    (Some (str "deployment-a")).
Definition demo_processor : ControlProcessor :=
  processor_new demo_coordinator ControlRole.Worker 15000000000 5000000000.
Definition demo_peer : AuthenticatedPeer := mkPeer (str "worker") (IpAddr.V4 174260226) 1000.
Definition demo_pair (g : Z) (rid : string) : ControlMessage :=
  mkMessage (str rid) g (Some (str "deployment-a")) (ControlCommand.Pair (demo_worker g)).
Definition demo_drained : ControlMessage :=
  mkMessage (str "request-2") 7 (Some (str "deployment-a")) ControlCommand.Drained.

Definition allow (_ : ControlCommand) : result unit ControlError := Ok tt.
Definition deny (_ : ControlCommand) : result unit ControlError :=
  Err (ControlError.InvalidPhase DistributedControlPhase.WorkerReady).

Definition handle_pair (rid : string) (now : Z) :=
  handle_validated ControlEndpoint.Pair (demo_pair 7 rid) demo_peer true now allow.

Definition demo_response (status : ControlResponseStatus) (expires : Z) : ControlResponse :=
  mkResponse status 7 demo_coordinator (Some expires).

Lemma accepted_message_matches_witness :
  generation demo_processor = 7 ∧
  processed (snd (handle_pair "request-1" 1000 demo_processor)) !! (7, str "request-1")
  = Some (demo_pair 7 "request-1").
Proof.
  split; [by vm_compute|].
  apply (accepted_message_matches ControlEndpoint.Pair (demo_pair 7 "request-1") demo_peer true
    1000 allow demo_processor (demo_response ControlResponseStatus.Applied 16000)).
  by vm_compute.
Defined.

Lemma request_applied_at_most_once_witness :
  demo_pair 7 "request-1" = demo_pair 7 "request-1" ∧
  response_status (demo_response ControlResponseStatus.Duplicate 17000)
  = ControlResponseStatus.Duplicate.
Proof.
  pose (p1 := snd (handle_pair "request-1" 1000 demo_processor)).
  pose (ops := [OpHandle ControlEndpoint.Drained demo_drained demo_peer true 1500 allow]).
  apply (request_applied_at_most_once ControlEndpoint.Pair (demo_pair 7 "request-1") demo_peer true
    1000 allow demo_processor (demo_response ControlResponseStatus.Applied 16000) p1 ops
    ControlEndpoint.Pair (demo_pair 7 "request-1") demo_peer true 2000 allow
    (demo_response ControlResponseStatus.Duplicate 17000)
    (snd (handle_pair "request-1" 2000 (foldl processor_op p1 ops)))); by vm_compute.
Defined.

Lemma peer_present_sound_witness :
  let ops := [OpHandle ControlEndpoint.Pair (demo_pair 7 "request-1") demo_peer true 1000 allow;
              OpDescribe demo_peer true 9000] in
  ∃ node first last pair,
    mkContact node first true ∈ contact_log demo_processor ops ∧
    sat_add64 first 5000 ≤ 20000 ∧
    mkContact node last pair ∈ contact_log demo_processor ops ∧
    20000 < sat_add64 last 15000.
Proof.
  intros ops.
  apply (peer_present_sound demo_coordinator ControlRole.Worker 15000000000 5000000000 ops 20000).
  by vm_compute.
Defined.

Lemma rejected_pair_advances_generation_witness :
  let '(r, p') := handle_validated ControlEndpoint.Pair (demo_pair 9 "request-3") demo_peer true
                    1000 deny demo_processor in
  r = Err (ControlError.InvalidPhase DistributedControlPhase.WorkerReady) ∧
  generation p' = 9 ∧ processed p' = ∅.
Proof.
  apply (rejected_pair_advances_generation (demo_pair 9 "request-3") (demo_worker 9) demo_peer
    true 1000 deny demo_processor); by vm_compute.
Defined.
