(* ===== verification/ControlRoles.v ===== *)
(** * The two roles of the control protocol

    [CoordinatorControl] of [src/src/cluster/coordinator/control.rs] and
    [WorkerControl] of [src/src/cluster/worker.rs]: the phase each side is in, the
    commands it accepts there, and the messages it sends. *)

From S2P Require Import Prelude Bytes Auth Control.

Import DistributedControlPhase.

(** ** The coordinator *)

(** src/src/cluster/coordinator/control.rs:12-17 (CoordinatorControl) *)
Record CoordinatorControl := mkCoordinator {
  c_processor : ControlProcessor;
  c_phase : DistributedControlPhase;
  peer_distributed_child_generation : option Z;
}.

Definition set_c_processor (p : ControlProcessor) (s : CoordinatorControl)
    : CoordinatorControl :=
  mkCoordinator p (c_phase s) (peer_distributed_child_generation s).
Definition set_c_phase (ph : DistributedControlPhase) (s : CoordinatorControl)
    : CoordinatorControl :=
  mkCoordinator (c_processor s) ph (peer_distributed_child_generation s).
Definition set_c_phase_child (ph : DistributedControlPhase) (child : option Z)
    (s : CoordinatorControl) : CoordinatorControl :=
  mkCoordinator (c_processor s) ph child.

Definition on_c_processor {A} (m : method ControlProcessor ControlError A)
    : method CoordinatorControl ControlError A :=
  on_field c_processor set_c_processor m.

Definition phase_in (phase : DistributedControlPhase) (l : list DistributedControlPhase)
    : bool := existsb (fun q => bool_decide (phase = q)) l.
Arguments phase_in : simpl never.

(** src/src/cluster/coordinator/control.rs:20-38 (CoordinatorControl::new) *)
Definition coordinator_new (descriptor : NodeDescriptor) (lease required_stability : Z)
    : result CoordinatorControl ControlError :=
  if negb (bool_decide (role descriptor = ControlRole.Coordinator))
     || negb (protocol_version descriptor =? 1)
  then Err ControlError.InvalidDescriptor
  else Ok (mkCoordinator
             (processor_new descriptor ControlRole.Worker lease required_stability)
             Unpaired None).

(** src/src/cluster/coordinator/control.rs:328-368 (validate_coordinator_command) *)
Definition validate_coordinator_command (phase : DistributedControlPhase) (present : bool)
    (command : ControlCommand) : result unit ControlError :=
  let valid :=
    match command with
    | ControlCommand.Pair _ => phase_in phase [Unpaired; Paired] || negb present
    | ControlCommand.WorkerEvent
        (WorkerEventKind.Ready | WorkerEventKind.ReadyWithChildGeneration _) =>
        bool_decide (phase = WorkerPreparing)
    | ControlCommand.WorkerEvent _ => negb (phase_in phase [Unpaired])
    | ControlCommand.Drained => bool_decide (phase = Draining)
    | ControlCommand.DistributedReady => false
    | ControlCommand.CancelGeneration =>
        phase_in phase [WorkerPreparing; WorkerReady; Draining; Drained]
    | ControlCommand.Demote => phase_in phase [WorkerReady; Draining; Drained]
    | _ => false
    end in
  if valid then Ok tt else Err (ControlError.InvalidPhase phase).

(** The commands a coordinator receives at all, and what an applied one does to
    the phase and the worker's child generation.
    src/src/cluster/coordinator/control.rs:58-67 (CoordinatorControl::handle) *)
Definition coordinator_accepts (command : ControlCommand) : bool :=
  match command with
  | ControlCommand.Pair _ | ControlCommand.Drained | ControlCommand.WorkerEvent _
  | ControlCommand.CancelGeneration | ControlCommand.Demote => true
  | _ => false
  end.

(** src/src/cluster/coordinator/control.rs:79-108 (CoordinatorControl::handle) *)
Definition coordinator_apply (command : ControlCommand) (s : CoordinatorControl)
    : CoordinatorControl :=
  match command with
  | ControlCommand.Pair _ => set_c_phase_child Paired None s
  | ControlCommand.WorkerEvent WorkerEventKind.Ready => set_c_phase_child WorkerReady None s
  | ControlCommand.WorkerEvent (WorkerEventKind.ReadyWithChildGeneration child) =>
      set_c_phase_child WorkerReady (Some child) s
  | ControlCommand.WorkerEvent _ => set_c_phase_child (c_phase s) None s
  | ControlCommand.Drained => set_c_phase Drained s
  | ControlCommand.CancelGeneration | ControlCommand.Demote =>
      set_c_phase_child Paired None s
  | _ => s
  end.

(** src/src/cluster/coordinator/control.rs:50-110 (CoordinatorControl::handle) *)
Definition coordinator_handle (endpoint : ControlEndpoint) (message : ControlMessage)
    (authenticated : AuthenticatedPeer) (scoped : bool) (now : Z)
    : method CoordinatorControl ControlError ControlResponse :=
  _ ← require (coordinator_accepts (command message)) ControlError.CommandNotAllowed;
  s ← self;
  let present := peer_present (lease (c_processor s)) now in
  response ← on_c_processor (handle_validated endpoint message authenticated scoped now
                               (validate_coordinator_command (c_phase s) present));
  _ ← (if bool_decide (response_status response = ControlResponseStatus.Applied)
       then modify (coordinator_apply (command message)) else mret tt);
  mret response.

(** src/src/cluster/coordinator/control.rs:40-48 (CoordinatorControl::node_descriptor) *)
Definition coordinator_node_descriptor (authenticated : AuthenticatedPeer) (scoped : bool)
    (now : Z) : method CoordinatorControl ControlError ControlResponse :=
  on_c_processor (descriptor_response authenticated scoped now).

(** src/src/cluster/coordinator/control.rs:124-126 (CoordinatorControl::invalidate_route) *)
Definition coordinator_invalidate_route (s : CoordinatorControl) : CoordinatorControl :=
  set_c_processor (set_lease (invalidate_route (lease (c_processor s))) (c_processor s)) s.

Definition paired_if_described (p : ControlProcessor) : DistributedControlPhase :=
  if is_some (lease_descriptor (lease p)) then Paired else Unpaired.

(** src/src/cluster/coordinator/control.rs:128-136 (CoordinatorControl::advance_generation) *)
Definition coordinator_advance_generation (g : Z) (s : CoordinatorControl)
    : CoordinatorControl :=
  let p := processor_advance_generation g (c_processor s) in
  mkCoordinator p (paired_if_described p) None.

(** src/src/cluster/coordinator/control.rs:138-145 (CoordinatorControl::reset_for_repair) *)
Definition coordinator_reset_for_repair (now : Z) (s : CoordinatorControl)
    : CoordinatorControl :=
  mkCoordinator (c_processor s)
    (if peer_present (lease (c_processor s)) now then Paired else Unpaired) None.

(** src/src/cluster/coordinator/control.rs:151-162 (CoordinatorControl::propose_candidate) *)
Definition propose_candidate (peer_generation : Z)
    : method CoordinatorControl ControlError Z :=
  s ← self;
  candidate ← lift (candidate_generation (c_processor s) peer_generation);
  _ ← (if generation (c_processor s) <? candidate then
         modify (fun s =>
           let p := processor_advance_generation candidate (c_processor s) in
           mkCoordinator p (paired_if_described p) (peer_distributed_child_generation s))
       else mret tt);
  mret candidate.

(** src/src/cluster/coordinator/control.rs:316-325 (CoordinatorControl::require_generation) *)
Definition require_generation (g : Z) : method CoordinatorControl ControlError unit :=
  s ← self;
  require (g =? generation (c_processor s))
    (ControlError.GenerationMismatch (generation (c_processor s)) g).

Definition require_phase (l : list DistributedControlPhase)
    : method CoordinatorControl ControlError unit :=
  s ← self;
  require (phase_in (c_phase s) l) (ControlError.InvalidPhase (c_phase s)).

Definition c_message (rid : bytes) (c : ControlCommand)
    : method CoordinatorControl ControlError ControlMessage :=
  s ← self; mret (processor_message (c_processor s) rid c).

(** src/src/cluster/coordinator/control.rs:164-171 (CoordinatorControl::note_prepare_sent) *)
Definition note_prepare_sent (g : Z) : method CoordinatorControl ControlError unit :=
  _ ← require_generation g;
  _ ← require_phase [Paired];
  modify (set_c_phase WorkerPreparing).

(** src/src/cluster/coordinator/control.rs:173-183 (CoordinatorControl::prepare_worker_message) *)
Definition prepare_worker_message (rid : bytes)
    : method CoordinatorControl ControlError ControlMessage :=
  _ ← require_phase [Paired];
  c_message rid ControlCommand.PrepareWorker.

(** src/src/cluster/coordinator/control.rs:185-192 (CoordinatorControl::note_begin_drain_sent) *)
Definition note_begin_drain_sent (g : Z) : method CoordinatorControl ControlError unit :=
  _ ← require_generation g;
  _ ← require_phase [WorkerReady];
  modify (set_c_phase Draining).

(** src/src/cluster/coordinator/control.rs:194-204 (CoordinatorControl::begin_drain_message) *)
Definition begin_drain_message (rid : bytes)
    : method CoordinatorControl ControlError ControlMessage :=
  _ ← require_phase [WorkerReady];
  c_message rid ControlCommand.BeginDrain.

(** src/src/cluster/coordinator/control.rs:206-216 (CoordinatorControl::prepare_restart_message) *)
Definition prepare_restart_message (rid : bytes)
    : method CoordinatorControl ControlError ControlMessage :=
  _ ← require_phase [WorkerReady];
  c_message rid ControlCommand.PrepareRestart.

(** src/src/cluster/coordinator/control.rs:218-228 (CoordinatorControl::cancel_restart_message) *)
Definition cancel_restart_message (rid : bytes)
    : method CoordinatorControl ControlError ControlMessage :=
  _ ← require_phase [Paired; WorkerPreparing; WorkerReady; Draining; Drained];
  c_message rid ControlCommand.CancelRestart.

(** src/src/cluster/coordinator/control.rs:238-249 (CoordinatorControl::distributed_ready_message) *)
Definition distributed_ready_message (rid : bytes)
    : method CoordinatorControl ControlError ControlMessage :=
  _ ← require_phase [Drained];
  _ ← modify (set_c_phase WorkerReady);
  c_message rid ControlCommand.DistributedReady.

(** src/src/cluster/coordinator/control.rs:251-268 (CoordinatorControl::cancel_generation_message) *)
Definition cancel_generation_message (rid : bytes)
    : method CoordinatorControl ControlError ControlMessage :=
  _ ← require_phase [WorkerPreparing; WorkerReady; Draining; Drained];
  _ ← modify (set_c_phase Paired);
  c_message rid ControlCommand.CancelGeneration.

(** src/src/cluster/coordinator/control.rs:270-285 (CoordinatorControl::demote_message) *)
Definition demote_message (rid : bytes)
    : method CoordinatorControl ControlError ControlMessage :=
  _ ← require_phase [WorkerReady; Draining; Drained];
  c_message rid ControlCommand.Demote.

(** src/src/cluster/coordinator/control.rs:287-300 (CoordinatorControl::note_demote_complete) *)
Definition note_demote_complete (g : Z) : method CoordinatorControl ControlError unit :=
  _ ← require_generation g;
  _ ← require_phase [WorkerReady; Draining; Drained];
  modify (set_c_phase_child Paired None).

(** ** The worker *)

(** src/src/cluster/worker.rs:342-346 (WorkerControl) *)
Record WorkerControl := mkWorker {
  w_processor : ControlProcessor;
  w_phase : DistributedControlPhase;
}.

Definition set_w_processor (p : ControlProcessor) (s : WorkerControl) : WorkerControl :=
  mkWorker p (w_phase s).
Definition set_w_phase (ph : DistributedControlPhase) (s : WorkerControl) : WorkerControl :=
  mkWorker (w_processor s) ph.

Definition on_w_processor {A} (m : method ControlProcessor ControlError A)
    : method WorkerControl ControlError A :=
  on_field w_processor set_w_processor m.

(** src/src/cluster/worker.rs:349-366 (WorkerControl::new) *)
Definition worker_new (descriptor : NodeDescriptor) (lease required_stability : Z)
    : result WorkerControl ControlError :=
  if negb (bool_decide (role descriptor = ControlRole.Worker))
     || negb (protocol_version descriptor =? 1)
  then Err ControlError.InvalidDescriptor
  else Ok (mkWorker
             (processor_new descriptor ControlRole.Coordinator lease required_stability)
             Unpaired).

(** src/src/cluster/worker.rs:517-554 (validate_worker_command) *)
Definition validate_worker_command (phase : DistributedControlPhase) (present : bool)
    (command : ControlCommand) : result unit ControlError :=
  let valid :=
    match command with
    | ControlCommand.Pair _ => phase_in phase [Unpaired; Paired] || negb present
    | ControlCommand.PrepareWorker => bool_decide (phase = Paired)
    | ControlCommand.BeginDrain => bool_decide (phase = WorkerReady)
    | ControlCommand.DistributedReady => bool_decide (phase = Drained)
    | ControlCommand.CancelGeneration =>
        phase_in phase [WorkerPreparing; WorkerReady; Draining; Drained]
    | ControlCommand.Demote => negb (phase_in phase [Unpaired])
    | ControlCommand.PrepareRestart | ControlCommand.CancelRestart =>
        negb (phase_in phase [Unpaired])
    | _ => false
    end in
  if valid then Ok tt else Err (ControlError.InvalidPhase phase).

(** src/src/cluster/worker.rs:386-398 (WorkerControl::handle) *)
Definition worker_accepts (command : ControlCommand) : bool :=
  match command with
  | ControlCommand.Pair _ | ControlCommand.PrepareWorker | ControlCommand.BeginDrain
  | ControlCommand.DistributedReady | ControlCommand.CancelGeneration
  | ControlCommand.Demote | ControlCommand.PrepareRestart
  | ControlCommand.CancelRestart => true
  | _ => false
  end.

(** src/src/cluster/worker.rs:410-422 (WorkerControl::handle) *)
Definition worker_apply (command : ControlCommand) (s : WorkerControl) : WorkerControl :=
  set_w_phase
    (match command with
     | ControlCommand.Pair _ => Paired
     | ControlCommand.PrepareWorker => WorkerPreparing
     | ControlCommand.BeginDrain => Draining
     | ControlCommand.DistributedReady => WorkerReady
     | ControlCommand.CancelGeneration | ControlCommand.Demote => Paired
     | _ => w_phase s
     end) s.

(** src/src/cluster/worker.rs:378-424 (WorkerControl::handle) *)
Definition worker_handle (endpoint : ControlEndpoint) (message : ControlMessage)
    (authenticated : AuthenticatedPeer) (scoped : bool) (now : Z)
    : method WorkerControl ControlError ControlResponse :=
  _ ← require (worker_accepts (command message)) ControlError.CommandNotAllowed;
  s ← self;
  let present := peer_present (lease (w_processor s)) now in
  response ← on_w_processor (handle_validated endpoint message authenticated scoped now
                               (validate_worker_command (w_phase s) present));
  _ ← (if bool_decide (response_status response = ControlResponseStatus.Applied)
       then modify (worker_apply (command message)) else mret tt);
  mret response.

(** src/src/cluster/worker.rs:368-376 (WorkerControl::node_descriptor) *)
Definition worker_node_descriptor (authenticated : AuthenticatedPeer) (scoped : bool)
    (now : Z) : method WorkerControl ControlError ControlResponse :=
  on_w_processor (descriptor_response authenticated scoped now).

(** src/src/cluster/worker.rs:438-440 (WorkerControl::invalidate_route) *)
Definition worker_invalidate_route (s : WorkerControl) : WorkerControl :=
  set_w_processor (set_lease (invalidate_route (lease (w_processor s))) (w_processor s)) s.

(** src/src/cluster/worker.rs:442-449 (WorkerControl::advance_generation) *)
Definition worker_advance_generation (g : Z) (s : WorkerControl) : WorkerControl :=
  let p := processor_advance_generation g (w_processor s) in
  mkWorker p (paired_if_described p).

(** src/src/cluster/worker.rs:451-457 (WorkerControl::reset_for_repair) *)
Definition worker_reset_for_repair (now : Z) (s : WorkerControl) : WorkerControl :=
  mkWorker (w_processor s)
    (if peer_present (lease (w_processor s)) now then Paired else Unpaired).

Definition w_require_phase (l : list DistributedControlPhase)
    : method WorkerControl ControlError unit :=
  s ← self;
  require (phase_in (w_phase s) l) (ControlError.InvalidPhase (w_phase s)).

Definition w_message (rid : bytes) (c : ControlCommand)
    : method WorkerControl ControlError ControlMessage :=
  s ← self; mret (processor_message (w_processor s) rid c).

(** src/src/cluster/worker.rs:459-474 (WorkerControl::worker_ready_message) *)
Definition worker_ready_message (rid : bytes) (child : Z)
    : method WorkerControl ControlError ControlMessage :=
  _ ← w_require_phase [WorkerPreparing];
  _ ← modify (set_w_phase WorkerReady);
  w_message rid (ControlCommand.WorkerEvent (WorkerEventKind.ReadyWithChildGeneration child)).

(** src/src/cluster/worker.rs:476-487 (WorkerControl::drained_message) *)
Definition drained_message (rid : bytes) : method WorkerControl ControlError ControlMessage :=
  _ ← w_require_phase [Draining];
  _ ← modify (set_w_phase Drained);
  w_message rid ControlCommand.Drained.

(** src/src/cluster/worker.rs:491-510 (WorkerControl::child_exited_message) *)
Definition child_exited_message (rid : bytes)
    : method WorkerControl ControlError ControlMessage :=
  _ ← w_require_phase [WorkerReady; Draining; Drained];
  _ ← modify (set_w_phase Paired);
  w_message rid (ControlCommand.WorkerEvent WorkerEventKind.Exited).

(** ** How a handled message moves the phase *)

Lemma phase_in_spec ph l : phase_in ph l = true ↔ ph ∈ l.
Proof.
  unfold phase_in. induction l as [|q l IH]; simpl.
  - split; [done|]. by intros ?%not_elem_of_nil.
  - rewrite orb_true_iff, bool_decide_eq_true, elem_of_cons, IH. done.
Qed.

Lemma worker_handle_cases e m a scoped now s r s' :
  worker_handle e m a scoped now s = (r, s') →
  w_phase s' = w_phase s ∨
  ∃ resp, r = Ok resp ∧ response_status resp = ControlResponseStatus.Applied ∧
    validate_worker_command (w_phase s) (peer_present (lease (w_processor s)) now) (command m)
      = Ok tt ∧
    message_generation m = generation (w_processor s') ∧
    w_phase s' = w_phase (worker_apply (command m) s).
Proof.
  unfold worker_handle, on_w_processor, on_field. unfold_method.
  destruct (worker_accepts _); [|intros [= <- <-]; by left].
  destruct (handle_validated _ _ _ _ _ _ _) as [[resp|er] p] eqn:E;
    [|intros [= <- <-]; by left].
  case_bool_decide as Hs; intros [= <- <-]; [right|by left].
  exists resp. apply handle_ok in E as (Hc & _ & H).
  apply check_message_ok in Hc as (_ & _ & _ & _ & Hg & _).
  destruct (processed _ !! _); [destruct H as (_ & ? & _); congruence|].
  destruct H as (_ & Hv & q & (_ & l & -> & _)%apply_to_lease_ok & ->). done.
Qed.

Lemma coordinator_handle_cases e m a scoped now s r s' :
  coordinator_handle e m a scoped now s = (r, s') →
  (c_phase s' = c_phase s ∧
   peer_distributed_child_generation s' = peer_distributed_child_generation s ∧
   (∀ resp, r = Ok resp → response_status resp = ControlResponseStatus.Duplicate)) ∨
  ∃ resp, r = Ok resp ∧ response_status resp = ControlResponseStatus.Applied ∧
    validate_coordinator_command (c_phase s) (peer_present (lease (c_processor s)) now)
      (command m) = Ok tt ∧
    message_generation m = generation (c_processor s') ∧
    c_phase s' = c_phase (coordinator_apply (command m) s) ∧
    peer_distributed_child_generation s'
      = peer_distributed_child_generation (coordinator_apply (command m) s).
Proof.
  unfold coordinator_handle, on_c_processor, on_field. unfold_method.
  destruct (coordinator_accepts _); [|intros [= <- <-]; by left].
  destruct (handle_validated _ _ _ _ _ _ _) as [[resp|er] p] eqn:E;
    [|intros [= <- <-]; by left].
  pose proof E as E'. apply handle_ok in E' as (Hc & _ & H).
  case_bool_decide as Hs; intros [= <- <-]; [right|left].
  - exists resp. apply check_message_ok in Hc as (_ & _ & _ & _ & Hg & _).
    destruct (processed _ !! _); [destruct H as (_ & ? & _); congruence|].
    destruct H as (_ & Hv & q & (_ & l & -> & _)%apply_to_lease_ok & ->).
    split_and!; try done; by destruct (command m) as [| | | | |[]| | | |].
  - split_and!; [done|done|]. intros resp' [= <-].
    destruct (processed _ !! _); [by destruct H as (_ & ? & _)|]. by destruct H.
Qed.

(** ** Operations of each role *)

Inductive WorkerOp :=
| WHandle (e : ControlEndpoint) (m : ControlMessage) (a : AuthenticatedPeer)
    (scoped : bool) (now : Z)
| WDescribe (a : AuthenticatedPeer) (scoped : bool) (now : Z)
| WInvalidateRoute
| WAdvance (g : Z)
| WResetForRepair (now : Z)
| WReady (rid : bytes) (child : Z)
| WDrained (rid : bytes)
| WExited (rid : bytes).

Definition worker_op (s : WorkerControl) (op : WorkerOp) : WorkerControl :=
  match op with
  | WHandle e m a scoped now => snd (worker_handle e m a scoped now s)
  | WDescribe a scoped now => snd (worker_node_descriptor a scoped now s)
  | WInvalidateRoute => worker_invalidate_route s
  | WAdvance g => worker_advance_generation g s
  | WResetForRepair now => worker_reset_for_repair now s
  | WReady rid child => snd (worker_ready_message rid child s)
  | WDrained rid => snd (drained_message rid s)
  | WExited rid => snd (child_exited_message rid s)
  end.

Inductive CoordinatorOp :=
| CHandle (e : ControlEndpoint) (m : ControlMessage) (a : AuthenticatedPeer)
    (scoped : bool) (now : Z)
| CDescribe (a : AuthenticatedPeer) (scoped : bool) (now : Z)
| CInvalidateRoute
| CAdvance (g : Z)
| CResetForRepair (now : Z)
| CPropose (peer_generation : Z)
| CPrepareSent (g : Z)
| CBeginDrainSent (g : Z)
| CDistributedReady (rid : bytes)
| CCancelGeneration (rid : bytes)
| CDemoteComplete (g : Z).

Definition coordinator_op (s : CoordinatorControl) (op : CoordinatorOp)
    : CoordinatorControl :=
  match op with
  | CHandle e m a scoped now => snd (coordinator_handle e m a scoped now s)
  | CDescribe a scoped now => snd (coordinator_node_descriptor a scoped now s)
  | CInvalidateRoute => coordinator_invalidate_route s
  | CAdvance g => coordinator_advance_generation g s
  | CResetForRepair now => coordinator_reset_for_repair now s
  | CPropose g => snd (propose_candidate g s)
  | CPrepareSent g => snd (note_prepare_sent g s)
  | CBeginDrainSent g => snd (note_begin_drain_sent g s)
  | CDistributedReady rid => snd (distributed_ready_message rid s)
  | CCancelGeneration rid => snd (cancel_generation_message rid s)
  | CDemoteComplete g => snd (note_demote_complete g s)
  end.

(** The steps that move a session forward, on each side. *)
Definition worker_forward (s : WorkerControl) (op : WorkerOp) (s' : WorkerControl) : Prop :=
  match op with
  | WHandle e m a scoped now =>
      message_generation m = generation (w_processor s') ∧
      ((command m = ControlCommand.PrepareWorker ∧
        w_phase s = Paired ∧ w_phase s' = WorkerPreparing) ∨
       (command m = ControlCommand.BeginDrain ∧
        w_phase s = WorkerReady ∧ w_phase s' = Draining) ∨
       (command m = ControlCommand.DistributedReady ∧
        w_phase s = Drained ∧ w_phase s' = WorkerReady))
  | WReady _ _ => w_phase s = WorkerPreparing ∧ w_phase s' = WorkerReady
  | WDrained _ => w_phase s = Draining ∧ w_phase s' = Drained
  | _ => False
  end.

Definition is_ready_event (c : ControlCommand) : bool :=
  match c with
  | ControlCommand.WorkerEvent
      (WorkerEventKind.Ready | WorkerEventKind.ReadyWithChildGeneration _) => true
  | _ => false
  end.

Definition coordinator_forward (s : CoordinatorControl) (op : CoordinatorOp)
    (s' : CoordinatorControl) : Prop :=
  match op with
  | CHandle e m a scoped now =>
      message_generation m = generation (c_processor s') ∧
      ((is_ready_event (command m) = true ∧
        c_phase s = WorkerPreparing ∧ c_phase s' = WorkerReady) ∨
       (command m = ControlCommand.Drained ∧
        c_phase s = Draining ∧ c_phase s' = Drained))
  | CPrepareSent g =>
      g = generation (c_processor s) ∧ c_phase s = Paired ∧ c_phase s' = WorkerPreparing
  | CBeginDrainSent g =>
      g = generation (c_processor s) ∧ c_phase s = WorkerReady ∧ c_phase s' = Draining
  | CDistributedReady _ => c_phase s = Drained ∧ c_phase s' = WorkerReady
  | _ => False
  end.

(** ** What the worker last reported *)

Definition reported_child (ev : WorkerEventKind) : option Z :=
  match ev with
  | WorkerEventKind.ReadyWithChildGeneration child => Some child
  | _ => None
  end.

(** The child generation in the latest applied worker event. *)
Definition report_after (s : CoordinatorControl) (op : CoordinatorOp) (report : option Z)
    : option Z :=
  match op with
  | CHandle e m a scoped now =>
      match fst (coordinator_handle e m a scoped now s), command m with
      | Ok r, ControlCommand.WorkerEvent ev =>
          if bool_decide (response_status r = ControlResponseStatus.Applied)
          then reported_child ev else report
      | _, _ => report
      end
  | _ => report
  end.

Fixpoint run_reports (s : CoordinatorControl) (report : option Z) (ops : list CoordinatorOp)
    : CoordinatorControl * option Z :=
  match ops with
  | [] => (s, report)
  | op :: ops => run_reports (coordinator_op s op) (report_after s op report) ops
  end.

Definition in_session (s : CoordinatorControl) : bool :=
  phase_in (c_phase s) [WorkerReady; Draining; Drained].

Definition report_inv (s : CoordinatorControl) (report : option Z) : Prop :=
  in_session s = true → peer_distributed_child_generation s = report.

Lemma validate_coordinator_ok ph present c :
  validate_coordinator_command ph present c = Ok tt →
  match c with
  | ControlCommand.Pair _ => ph = Unpaired ∨ ph = Paired ∨ present = false
  | ControlCommand.WorkerEvent
      (WorkerEventKind.Ready | WorkerEventKind.ReadyWithChildGeneration _) =>
      ph = WorkerPreparing
  | ControlCommand.WorkerEvent _ => ph ≠ Unpaired
  | ControlCommand.Drained => ph = Draining
  | ControlCommand.CancelGeneration => ph ≠ Unpaired ∧ ph ≠ Paired
  | ControlCommand.Demote => ph = WorkerReady ∨ ph = Draining ∨ ph = Drained
  | _ => False
  end.
Proof.
  unfold validate_coordinator_command.
  destruct c as [| | | | |[]| | | |], ph, present; simpl; intros [=]; naive_solver.
Qed.

Lemma validate_worker_ok ph present c :
  validate_worker_command ph present c = Ok tt →
  match c with
  | ControlCommand.Pair _ => ph = Unpaired ∨ ph = Paired ∨ present = false
  | ControlCommand.PrepareWorker => ph = Paired
  | ControlCommand.BeginDrain => ph = WorkerReady
  | ControlCommand.DistributedReady => ph = Drained
  | ControlCommand.CancelGeneration => ph ≠ Unpaired ∧ ph ≠ Paired
  | ControlCommand.Demote | ControlCommand.PrepareRestart | ControlCommand.CancelRestart =>
      ph ≠ Unpaired
  | _ => False
  end.
Proof.
  unfold validate_worker_command.
  destruct c, ph, present; simpl; intros [=]; naive_solver.
Qed.

Lemma paired_if_described_cases p :
  paired_if_described p = Paired ∨ paired_if_described p = Unpaired.
Proof. unfold paired_if_described. destruct (is_some _); auto. Qed.

Lemma propose_candidate_state g s :
  snd (propose_candidate g s) =
  if generation (c_processor s) <? g then
    let p := processor_advance_generation g (c_processor s) in
    mkCoordinator p (paired_if_described p) (peer_distributed_child_generation s)
  else s.
Proof.
  unfold propose_candidate, candidate_generation. unfold_method.
  destruct (generation (c_processor s) <? g) eqn:E; [by rewrite E|].
  by rewrite Z.ltb_irrefl.
Qed.

Lemma report_inv_step s report op :
  report_inv s report → report_inv (coordinator_op s op) (report_after s op report).
Proof.
  intros H. destruct op; simpl.
  - destruct (coordinator_handle e m a scoped now s) as [r s'] eqn:E. simpl.
    destruct (coordinator_handle_cases _ _ _ _ _ _ _ _ E) as [(Hp & Hc & Hd)|Happ].
    + unfold report_inv, in_session in *. rewrite Hp, Hc. intros Hs. rewrite (H Hs).
      destruct r as [resp|]; [|done]. specialize (Hd resp eq_refl).
      destruct (command m); try done. by rewrite Hd.
    + destruct Happ as (resp & -> & Hs & Hv & _ & Hp & Hc).
      apply validate_coordinator_ok in Hv. unfold report_inv, in_session in *. rewrite Hp, Hc.
      destruct (command m) as [| | | | |[]| | | |]; simpl in *; try done; rewrite ?Hs; simpl; try done.
      intros _. apply H. by rewrite Hv.
  - unfold coordinator_node_descriptor, on_c_processor, on_field.
    by destruct (descriptor_response _ _ _ _).
  - done.
  - unfold report_inv, in_session. simpl.
    by destruct (paired_if_described_cases (processor_advance_generation g (c_processor s))) as [-> | ->].
  - unfold report_inv, in_session. simpl. by case_match.
  - rewrite propose_candidate_state. case_match; [|done]. unfold report_inv, in_session. simpl.
    match goal with |- context [paired_if_described ?p] =>
      by destruct (paired_if_described_cases p) as [-> | ->] end.
  - unfold note_prepare_sent, require_generation, require_phase. unfold_method.
    by repeat (case_match; simplify_eq/=).
  - unfold note_begin_drain_sent, require_generation, require_phase. unfold_method.
    repeat (case_match; simplify_eq/=); try done.
    unfold report_inv, in_session in *. simpl. intros _. apply H.
    rename select (phase_in _ [WorkerReady] = true) into Hph.
    apply phase_in_spec, list_elem_of_singleton in Hph. by rewrite Hph.
  - unfold distributed_ready_message, require_phase, c_message. unfold_method.
    repeat (case_match; simplify_eq/=); try done.
    unfold report_inv, in_session in *. simpl. intros _. apply H.
    rename select (phase_in _ [Drained] = true) into Hph.
    apply phase_in_spec, list_elem_of_singleton in Hph. by rewrite Hph.
  - unfold cancel_generation_message, require_phase, c_message. unfold_method.
    by repeat (case_match; simplify_eq/=).
  - unfold note_demote_complete, require_generation, require_phase. unfold_method.
    by repeat (case_match; simplify_eq/=).
Qed.

Lemma report_inv_run ops : ∀ s report,
  report_inv s report →
  let '(s', report') := run_reports s report ops in report_inv s' report'.
Proof.
  induction ops as [|op ops IH]; intros s report H; simpl; [done|].
  apply IH. by apply report_inv_step.
Qed.

(** ** Properties *)

(** C34: only the protocol moves a worker's session forward.  Whatever operation is
    performed on a worker in whatever state, the phase stays, falls back to paired
    or unpaired, or takes the one forward step the protocol has for it: paired to
    preparing on an applied prepare command, preparing to ready on its own ready
    message, ready to draining on an applied drain command, draining to drained on
    its own drained message, drained to ready on an applied distributed-ready
    command, the commands all carrying the current generation. *)
Theorem worker_progress_only_by_protocol s op :
  let s' := worker_op s op in
  w_phase s' = w_phase s ∨ w_phase s' ∈ [Unpaired; Paired] ∨ worker_forward s op s'.
Proof.
  destruct op; simpl.
  - destruct (worker_handle e m a scoped now s) as [r s'] eqn:E. simpl.
    destruct (worker_handle_cases _ _ _ _ _ _ _ _ E) as [?|(resp & _ & _ & Hv & Hg & Hp)]; [by left|].
    apply validate_worker_ok in Hv. rewrite Hp. rewrite Hg.
    destruct (command m); simpl in *; set_solver.
  - unfold worker_node_descriptor, on_w_processor, on_field.
    destruct (descriptor_response _ _ _ _). by left.
  - by left.
  - right; left.
    destruct (paired_if_described_cases (processor_advance_generation g (w_processor s))) as [-> | ->];
      set_solver.
  - right; left. case_match; set_solver.
  - unfold worker_ready_message, w_require_phase, w_message. unfold_method.
    destruct (phase_in _ _) eqn:Ep; simpl; [|by left].
    apply phase_in_spec, list_elem_of_singleton in Ep. auto.
  - unfold drained_message, w_require_phase, w_message. unfold_method.
    destruct (phase_in _ _) eqn:Ep; simpl; [|by left].
    apply phase_in_spec, list_elem_of_singleton in Ep. auto.
  - unfold child_exited_message, w_require_phase, w_message. unfold_method.
    destruct (phase_in _ _) eqn:Ep; simpl; [|by left]. set_solver.
Qed.

(** Only the protocol moves a coordinator's session forward: paired to
    preparing and ready to draining when it has sent the command of the current
    generation, preparing to ready on an applied ready event, draining to drained
    on an applied drained message, drained to ready when it announces the
    distributed mode; every other operation leaves the phase or falls back to
    paired or unpaired. *)
Lemma coordinator_progress_only_by_protocol s op :
  let s' := coordinator_op s op in
  c_phase s' = c_phase s ∨ c_phase s' ∈ [Unpaired; Paired] ∨ coordinator_forward s op s'.
Proof.
  destruct op; simpl.
  - destruct (coordinator_handle e m a scoped now s) as [r s'] eqn:E. simpl.
    destruct (coordinator_handle_cases _ _ _ _ _ _ _ _ E)
      as [[? _]|(resp & _ & _ & Hv & Hg & Hp & _)]; [by left|].
    apply validate_coordinator_ok in Hv. rewrite Hp. rewrite Hg.
    destruct (command m) as [| | | | |[]| | | |]; simpl in *; set_solver.
  - unfold coordinator_node_descriptor, on_c_processor, on_field.
    destruct (descriptor_response _ _ _ _). by left.
  - by left.
  - right; left.
    destruct (paired_if_described_cases (processor_advance_generation g (c_processor s))) as [-> | ->];
      set_solver.
  - right; left. case_match; set_solver.
  - rewrite propose_candidate_state. case_match; [|by left]. simpl.
    right; left. match goal with |- context [paired_if_described ?p] =>
      destruct (paired_if_described_cases p) as [-> | ->]; set_solver end.
  - unfold note_prepare_sent, require_generation, require_phase. unfold_method.
    repeat (case_match; simplify_eq/=); try (by left). right; right.
    rename select (phase_in _ _ = true) into Hph.
    apply phase_in_spec, list_elem_of_singleton in Hph. bool_to_prop. auto.
  - unfold note_begin_drain_sent, require_generation, require_phase. unfold_method.
    repeat (case_match; simplify_eq/=); try (by left). right; right.
    rename select (phase_in _ _ = true) into Hph.
    apply phase_in_spec, list_elem_of_singleton in Hph. bool_to_prop. auto.
  - unfold distributed_ready_message, require_phase, c_message. unfold_method.
    destruct (phase_in _ _) eqn:Ep; simpl; [|by left].
    apply phase_in_spec, list_elem_of_singleton in Ep. auto.
  - unfold cancel_generation_message, require_phase, c_message. unfold_method.
    destruct (phase_in _ _) eqn:Ep; simpl; [|by left]. set_solver.
  - unfold note_demote_complete, require_generation, require_phase. unfold_method.
    repeat (case_match; simplify_eq/=); try (by left). set_solver.
Qed.

(** A delayed pairing does not reset a live session.  While the peer is present
    and a session is past pairing, no [Pair] message, whatever it contains, is
    applied or changes the phase, on either side. *)
Lemma live_session_survives_pair e m d a scoped now w c :
  command m = ControlCommand.Pair d →
  (peer_present (lease (w_processor w)) now = true →
   w_phase w ∉ [Unpaired; Paired] →
   w_phase (snd (worker_handle e m a scoped now w)) = w_phase w) ∧
  (peer_present (lease (c_processor c)) now = true →
   c_phase c ∉ [Unpaired; Paired] →
   c_phase (snd (coordinator_handle e m a scoped now c)) = c_phase c ∧
   peer_distributed_child_generation (snd (coordinator_handle e m a scoped now c))
     = peer_distributed_child_generation c).
Proof.
  intros Hm. split; intros Hp Hph.
  - destruct (worker_handle e m a scoped now w) as [r s'] eqn:E.
    destruct (worker_handle_cases _ _ _ _ _ _ _ _ E) as [?|(resp & _ & _ & Hv & _)]; [done|].
    rewrite Hm, Hp in Hv. apply validate_worker_ok in Hv. set_solver.
  - destruct (coordinator_handle e m a scoped now c) as [r s'] eqn:E.
    destruct (coordinator_handle_cases _ _ _ _ _ _ _ _ E) as [(? & ? & _)|(resp & _ & _ & Hv & _)];
      [done|].
    rewrite Hm, Hp in Hv. apply validate_coordinator_ok in Hv. set_solver.
Qed.

(** During a session the coordinator's record of the worker's child generation
    is the one in the latest worker event it applied, after any sequence of
    operations on a new coordinator. *)
Lemma child_generation_is_latest_report d lease_ns stability_ns c ops :
  coordinator_new d lease_ns stability_ns = Ok c →
  let '(s, report) := run_reports c None ops in
  in_session s = true → peer_distributed_child_generation s = report.
Proof.
  intros H. pose proof (report_inv_run ops c None) as Hr.
  destruct (run_reports c None ops). apply Hr. unfold coordinator_new in H.
  case_match; simplify_eq. done.
Qed.

(** ** Witnesses: a session up to the ready event, on both sides. *)

Definition demo_c0 : CoordinatorControl :=
  mkCoordinator demo_processor Unpaired None.
Definition demo_ready : ControlMessage :=
  mkMessage (str "ready-1") 7 (Some (str "deployment-a"))
    (ControlCommand.WorkerEvent (WorkerEventKind.ReadyWithChildGeneration 3)).
Definition demo_c_ops : list CoordinatorOp :=
  [CHandle ControlEndpoint.Pair (demo_pair 7 "pair-1") demo_peer true 1000;
   CPrepareSent 7;
   CHandle ControlEndpoint.WorkerEvent demo_ready demo_peer true 7000].
Definition demo_c : CoordinatorControl := foldl coordinator_op demo_c0 demo_c_ops.

Definition demo_w0 : WorkerControl :=
  mkWorker (processor_new (demo_worker 7) ControlRole.Coordinator 15000000000 5000000000)
    Unpaired.
Definition demo_c_peer : AuthenticatedPeer :=
  mkPeer (str "coordinator") (IpAddr.V4 174260225) 1000.
Definition demo_c_pair (g : Z) (rid : string) : ControlMessage :=
  mkMessage (str rid) g (Some (str "deployment-a")) (ControlCommand.Pair demo_coordinator).
Definition demo_prepare : ControlMessage :=
  mkMessage (str "prepare-1") 7 (Some (str "deployment-a")) ControlCommand.PrepareWorker.
Definition demo_w : WorkerControl :=
  foldl worker_op demo_w0
    [WHandle ControlEndpoint.Pair (demo_c_pair 7 "pair-1") demo_c_peer true 1000;
     WHandle ControlEndpoint.PrepareWorker demo_prepare demo_c_peer true 6500;
     WReady (str "ready-1") 3].

Lemma live_session_survives_pair_witness :
  w_phase (snd (worker_handle ControlEndpoint.Pair (demo_c_pair 7 "pair-2") demo_c_peer true
                  8000 demo_w)) = WorkerReady ∧
  peer_distributed_child_generation
    (snd (coordinator_handle ControlEndpoint.Pair (demo_c_pair 7 "pair-2") demo_peer true
            8000 demo_c)) = Some 3.
Proof.
  destruct (live_session_survives_pair ControlEndpoint.Pair (demo_c_pair 7 "pair-2")
    demo_coordinator demo_c_peer true 8000 demo_w demo_c eq_refl) as [Hw _].
  destruct (live_session_survives_pair ControlEndpoint.Pair (demo_c_pair 7 "pair-2")
    demo_coordinator demo_peer true 8000 demo_w demo_c eq_refl) as [_ Hc].
  split.
  - rewrite Hw; [by vm_compute|by vm_compute|].
    apply (bool_decide_unpack _). by vm_compute.
  - destruct Hc as [_ ->]; [by vm_compute| |by vm_compute].
    apply (bool_decide_unpack _). by vm_compute.
Defined.

Lemma child_generation_is_latest_report_witness :
  peer_distributed_child_generation (fst (run_reports demo_c0 None demo_c_ops)) = Some 3.
Proof.
  pose proof (child_generation_is_latest_report demo_coordinator 15000000000 5000000000
    demo_c0 demo_c_ops) as H.
  destruct (run_reports demo_c0 None demo_c_ops) as [s report] eqn:E.
  assert (s = demo_c ∧ report = Some 3) as [-> ->].
  { assert (run_reports demo_c0 None demo_c_ops = (demo_c, Some 3)) as E' by by vm_compute.
    rewrite E' in E. by injection E as <- <-. }
  apply H; by vm_compute.
Defined.
