(* ===== verification/Hello.v ===== *)
(** * The DS4 HELLO frame: [src/src/cluster/ds4_hello.rs]

    The binary frame a worker sends to the coordinator's rendezvous listener, its
    parser and builder, the reader that bounds it, and the checks of the rendezvous
    against the expectation. *)

From S2P Require Import Prelude Bytes Target.

(** ** Data *)

(** src/src/cluster/ds4_hello.rs:10-14 (DS4D_MAGIC) *)
Definition DS4D_MAGIC : Z := 0x44533444.
Definition DS4D_HELLO_KIND : Z := 1.
Definition HELLO_FIXED_BYTES : Z := 40.
Definition HELLO_MAX_MODEL_NAME_BYTES : Z := 127.
Definition HEADER_BYTES : Z := 12.

(** src/src/cluster/ds4_hello.rs:16-28 (Ds4Hello) *)
Record Ds4Hello := mkHello {
  model_id : Z;
  quant_bits : Z;
  layer_start : Z;
  layer_end : Z;
  has_output : bool;
  has_hidden : bool;
  context_size : Z;
  layer_count : Z;
  listen_port : Z;
  model_name : bytes;
}.

(** src/src/cluster/ds4_hello.rs:30-36 (RendezvousControlSnapshot) *)
Record RendezvousControlSnapshot := mkRendezvous {
  rendezvous_state : ClusterState;
  rendezvous_generation : Z;
  rendezvous_deployment_id : option bytes;
  lease_valid : bool;
}.

(** src/src/cluster/ds4_hello.rs:38-48 (WorkerHelloExpectation) *)
Record WorkerHelloExpectation := mkExpectation {
  coordinator_address : IpAddr;
  worker_address : IpAddr;
  control : RendezvousControlSnapshot;
  expected_layer_start : Z;
  expected_layer_end : Z;
  expected_has_output : bool;
  expected_context_size : Z;
  expected_model_name : bytes;
}.

Module Ds4HelloError.

(** src/src/cluster/ds4_hello.rs:55-95 (Ds4HelloError) *)
Inductive Ds4HelloError :=
| Timeout
| Truncated
| InvalidMagic
| InvalidKind
| InvalidSize
| ModelNameTooLong
| InvalidModelName
| InvalidField
| TrailingData
| WrongState
| WrongBindAddress
| WrongSource
| InvalidLease
| GenerationChanged
| DeploymentMismatch
| LayerMismatch
| ContextMismatch
| ModelMismatch
| Io.

End Ds4HelloError.
Notation Ds4HelloError := Ds4HelloError.Ds4HelloError.

Global Instance Ds4HelloError_eq_dec : EqDecision Ds4HelloError.
Proof. solve_decision. Defined.
Global Instance Ds4Hello_eq_dec : EqDecision Ds4Hello.
Proof. solve_decision. Defined.

Open Scope rust_scope.

(** ** The frame *)

(** src/src/cluster/ds4_hello.rs:313-317 (read_u32) *)
Definition read_u32 (b : bytes) (offset : nat) : Z := from_be_bytes (take 4 (drop offset b)).

(** src/src/cluster/ds4_hello.rs:347-349 (put_u32) *)
Definition put_u32 (offset : nat) (value : Z) (b : bytes) : bytes :=
  take offset b ++ to_be_bytes value ++ drop (offset + 4) b.

Definition u32_from_bool (b : bool) : Z := if b then 1 else 0.

(** src/src/cluster/ds4_hello.rs:324-345 (build_hello_frame) *)
Definition build_hello_frame (hello : Ds4Hello) : bytes :=
  let name := model_name hello in
  let payload_bytes := HELLO_FIXED_BYTES + length name in
  let frame := to_be_bytes DS4D_MAGIC ++ to_be_bytes DS4D_HELLO_KIND
                 ++ to_be_bytes (payload_bytes mod 2 ^ 32) in
  let fixed := replicate 40 0 in
  let fixed := put_u32 0 (model_id hello) fixed in
  let fixed := put_u32 4 (quant_bits hello) fixed in
  let fixed := put_u32 8 (layer_start hello) fixed in
  let fixed := put_u32 12 (layer_end hello) fixed in
  let fixed := put_u32 16 (u32_from_bool (has_output hello)) fixed in
  let fixed := put_u32 20 (u32_from_bool (has_hidden hello)) fixed in
  let fixed := put_u32 24 (context_size hello) fixed in
  let fixed := put_u32 28 (layer_count hello) fixed in
  let fixed := put_u32 32 (listen_port hello) fixed in
  let fixed := put_u32 36 (length name mod 2 ^ 32) fixed in
  frame ++ fixed ++ name.

Definition bool_field (fixed : bytes) (offset : nat) : result bool Ds4HelloError :=
  let v := read_u32 fixed offset in
  if v =? 0 then Ok false else if v =? 1 then Ok true else Err Ds4HelloError.InvalidField.

Definition payload_in_range (payload_bytes : Z) : bool :=
  (HELLO_FIXED_BYTES <=? payload_bytes)
  && (payload_bytes <=? HELLO_FIXED_BYTES + HELLO_MAX_MODEL_NAME_BYTES).

(** The envelope: magic, kind and sizes; the result is the length of the name.
    src/src/cluster/ds4_hello.rs:190-222 (parse_hello_frame) *)
Definition parse_envelope (frame : bytes) : result Z Ds4HelloError :=
  let? _ := ensure (HEADER_BYTES <=? length frame) Ds4HelloError.Truncated in
  let magic := read_u32 frame 0 in
  let kind := read_u32 frame 4 in
  let payload_bytes := read_u32 frame 8 in
  let? _ := ensure (magic =? DS4D_MAGIC) Ds4HelloError.InvalidMagic in
  let? _ := ensure (kind =? DS4D_HELLO_KIND) Ds4HelloError.InvalidKind in
  let? _ := ensure (payload_in_range payload_bytes) Ds4HelloError.InvalidSize in
  let expected := HEADER_BYTES + payload_bytes in
  let? _ := ensure (expected <=? length frame) Ds4HelloError.Truncated in
  let? _ := ensure (length frame <=? expected) Ds4HelloError.TrailingData in
  let model_name_len := read_u32 (take 40 (drop 12 frame)) 36 in
  let? _ := ensure (model_name_len <=? HELLO_MAX_MODEL_NAME_BYTES)
              Ds4HelloError.ModelNameTooLong in
  let? _ := ensure (payload_bytes =? HELLO_FIXED_BYTES + model_name_len)
              Ds4HelloError.InvalidSize in
  Ok model_name_len.

(** src/src/cluster/ds4_hello.rs:190-258 (parse_hello_frame) *)
Definition parse_hello_frame (frame : bytes) : result Ds4Hello Ds4HelloError :=
  let? model_name_len := parse_envelope frame in
  let fixed := take 40 (drop 12 frame) in
  let layer_start := read_u32 fixed 8 in
  let layer_end := read_u32 fixed 12 in
  let context_size := read_u32 fixed 24 in
  let layer_count := read_u32 fixed 28 in
  let listen_port := read_u32 fixed 32 in
  let? _ := ensure (negb ((layer_end <? layer_start) || (context_size =? 0)
                          || (layer_count =? 0) || (listen_port =? 0)
                          || (u16_max <? listen_port) || (model_name_len =? 0)))
              Ds4HelloError.InvalidField in
  let model_name := drop 52 frame in
  let? _ := ensure (utf8_valid model_name) Ds4HelloError.InvalidModelName in
  let? has_output := bool_field fixed 16 in
  let? has_hidden := bool_field fixed 20 in
  Ok (mkHello (read_u32 fixed 0) (read_u32 fixed 4) layer_start layer_end has_output
        has_hidden context_size layer_count (listen_port mod 65536) model_name).

(** ** Reading it from a connection *)

(** What a peer does within the deadline: the bytes it sends, and then whether it
    closes, stays silent or the connection fails. *)
Inductive Ending := Closed | Silent | Failed.
Record Connection := mkConnection { sent : bytes; ending : Ending }.

(** src/src/cluster/ds4_hello.rs:296-311 (read_exact_or_truncated) *)
Definition read_exact_or_truncated (n : Z) (c : Connection)
    : result (bytes * Connection) Ds4HelloError :=
  if n <=? length (sent c) then
    Ok (take (Z.to_nat n) (sent c), mkConnection (drop (Z.to_nat n) (sent c)) (ending c))
  else
    match ending c with
    | Closed => Err Ds4HelloError.Truncated
    | Silent => Err Ds4HelloError.Timeout
    | Failed => Err Ds4HelloError.Io
    end.

(** src/src/cluster/ds4_hello.rs:260-294 (read_hello_frame) *)
Definition read_hello_frame (deadline : Z) (c : Connection)
    : result Ds4Hello Ds4HelloError :=
  let? _ := ensure (negb (deadline =? 0)) Ds4HelloError.Timeout in
  let? hc := read_exact_or_truncated HEADER_BYTES c in
  let header := fst hc in
  let payload_bytes := read_u32 header 8 in
  let? _ := ensure (payload_in_range payload_bytes) Ds4HelloError.InvalidSize in
  let? pc := read_exact_or_truncated payload_bytes (snd hc) in
  let frame := header ++ fst pc in
  match sent (snd pc), ending (snd pc) with
  | _ :: _, _ => Err Ds4HelloError.TrailingData
  | [], Failed => Err Ds4HelloError.Io
  | [], _ => parse_hello_frame frame
  end.

(** ** Rendezvous *)

(** src/src/cluster/ds4_hello.rs:140-161 (validate_worker_hello) *)
Definition validate_worker_hello (hello : Ds4Hello) (e : WorkerHelloExpectation)
    : result unit Ds4HelloError :=
  let output_end_matches :=
    expected_has_output e && (expected_layer_end e =? u32_max) && has_output hello
    && ((layer_end hello + 1 <=? u32_max) && (layer_end hello + 1 =? layer_count hello)) in
  if negb (layer_start hello =? expected_layer_start e)
     || negb (bool_decide (has_output hello = expected_has_output e))
     || (negb output_end_matches && negb (layer_end hello =? expected_layer_end e))
  then Err Ds4HelloError.LayerMismatch
  else if negb (context_size hello =? expected_context_size e)
  then Err Ds4HelloError.ContextMismatch
  else if negb (bool_decide (model_name hello = expected_model_name e))
  then Err Ds4HelloError.ModelMismatch
  else Ok tt.

(** src/src/cluster/ds4_hello.rs:163-174 (validate_control_snapshot) *)
Definition validate_control_snapshot (s : RendezvousControlSnapshot)
    : result unit Ds4HelloError :=
  let? _ := ensure (bool_decide (rendezvous_state s = ClusterState.AwaitingWorkerHello))
              Ds4HelloError.WrongState in
  let? _ := ensure (lease_valid s) Ds4HelloError.InvalidLease in
  ensure (is_some (rendezvous_deployment_id s)) Ds4HelloError.DeploymentMismatch.

(** src/src/cluster/ds4_hello.rs:176-188 (validate_rendezvous_control) *)
Definition validate_rendezvous_control (expected current : RendezvousControlSnapshot)
    : result unit Ds4HelloError :=
  let? _ := validate_control_snapshot current in
  let? _ := ensure (rendezvous_generation expected =? rendezvous_generation current)
              Ds4HelloError.GenerationChanged in
  ensure (bool_decide (rendezvous_deployment_id expected = rendezvous_deployment_id current))
    Ds4HelloError.DeploymentMismatch.

(** The checks before the socket is bound.
    src/src/cluster/ds4_hello.rs:98-111 (RendezvousListener::bind) *)
Definition rendezvous_bind (address : IpAddr) (e : WorkerHelloExpectation)
    : result WorkerHelloExpectation Ds4HelloError :=
  let? _ := validate_control_snapshot (control e) in
  let? _ := ensure (bool_decide (address = coordinator_address e))
              Ds4HelloError.WrongBindAddress in
  Ok e.

(** The next connection within the timeout, if any, with its source address; the
    control snapshot is read after the frame.
    src/src/cluster/ds4_hello.rs:117-137 (RendezvousListener::accept_one) *)
Definition accept_one (e : WorkerHelloExpectation) (timeout : Z)
    (incoming : option (Connection * IpAddr)) (current : RendezvousControlSnapshot)
    : result Ds4Hello Ds4HelloError :=
  match incoming with
  | None => Err Ds4HelloError.Timeout
  | Some (stream, source) =>
      let? _ := ensure (bool_decide (source = worker_address e)) Ds4HelloError.WrongSource in
      let read_deadline := Z.min timeout 3000000000 in
      let? hello := read_hello_frame read_deadline stream in
      let? _ := validate_rendezvous_control (control e) current in
      let? _ := validate_worker_hello hello e in
      Ok hello
  end.

(** ** Words *)

Lemma read_u32_here v l : is_u32 v → read_u32 (to_be_bytes v ++ l) 0 = v.
Proof. intros H. rewrite <- (from_to_be_bytes v H) at 2. done. Qed.

Lemma read_u32_skip v l n : read_u32 (to_be_bytes v ++ l) (4 + n) = read_u32 l n.
Proof. done. Qed.

Lemma read_u32_fixed frame n :
  (n + 4 ≤ 40)%nat → read_u32 (take 40 (drop 12 frame)) n = read_u32 frame (12 + n).
Proof.
  intros H. unfold read_u32. rewrite skipn_firstn_comm, take_take, drop_drop.
  by rewrite Nat.min_l by lia.
Qed.

(** The words of a byte string and what follows them. *)
Lemma split_word l : is_bytes l → (4 ≤ length l)%nat →
  l = to_be_bytes (read_u32 l 0) ++ drop 4 l ∧ is_u32 (read_u32 l 0) ∧ is_bytes (drop 4 l).
Proof.
  intros Hb Hl. destruct l as [|a [|b [|c [|d l]]]]; simpl in Hl; try lia.
  unfold is_bytes in Hb. rewrite !Forall_cons in Hb. destruct Hb as (Ha & Hb & Hc & Hd & Hr).
  split_and!; [|by apply be_word_range|done].
  unfold read_u32. rewrite drop_0. cbn [take firstn]. by rewrite to_from_be_bytes.
Qed.

Lemma split_words n : ∀ l, is_bytes l → (4 * n ≤ length l)%nat →
  l = mjoin (to_be_bytes <$> ((fun i => read_u32 l (4 * i)) <$> seq 0 n)) ++ drop (4 * n) l ∧
  Forall is_u32 ((fun i => read_u32 l (4 * i)) <$> seq 0 n).
Proof.
  induction n as [|n IH]; intros l Hb Hl; [by rewrite drop_0|].
  destruct (split_word l Hb) as (E & Hu & Hb'); [lia|].
  destruct (IH (drop 4 l) Hb') as [IH1 IH2]; [rewrite length_drop; lia|].
  assert (((fun i => read_u32 l (4 * i)) <$> seq 1 n) =
          (fun i => read_u32 (drop 4 l) (4 * i)) <$> seq 0 n) as Hseq.
  { rewrite <- fmap_S_seq, <- list_fmap_compose. apply list_fmap_ext. intros i x _.
    unfold read_u32, compose. rewrite drop_drop.
    by replace (4 * S x)%nat with (4 + 4 * x)%nat by lia. }
  cbn [seq fmap list_fmap]. rewrite Hseq. split.
  - rewrite drop_drop in IH1. replace (4 + 4 * n)%nat with (4 * S n)%nat in IH1 by lia.
    etransitivity; [exact E|]. rewrite IH1 at 1. by rewrite app_assoc.
  - by constructor.
Qed.

(** ** Round trip *)

(** The HELLO values a frame can carry. *)
Definition hello_wf (h : Ds4Hello) : Prop :=
  is_u32 (model_id h) ∧ is_u32 (quant_bits h) ∧ is_u32 (layer_start h) ∧
  is_u32 (layer_end h) ∧ is_u32 (context_size h) ∧ is_u32 (layer_count h) ∧
  layer_start h ≤ layer_end h ∧ context_size h ≠ 0 ∧ layer_count h ≠ 0 ∧
  1 ≤ listen_port h ≤ u16_max ∧
  1 ≤ length (model_name h) ≤ HELLO_MAX_MODEL_NAME_BYTES ∧
  is_bytes (model_name h) ∧ utf8_valid (model_name h) = true.

(** The thirteen words of a frame. *)
Definition hello_words (h : Ds4Hello) : list Z :=
  [DS4D_MAGIC; DS4D_HELLO_KIND; HELLO_FIXED_BYTES + length (model_name h);
   model_id h; quant_bits h; layer_start h; layer_end h; u32_from_bool (has_output h);
   u32_from_bool (has_hidden h); context_size h; layer_count h; listen_port h;
   (length (model_name h) : Z)].

Lemma build_layout h : hello_wf h →
  build_hello_frame h = mjoin (to_be_bytes <$> hello_words h) ++ model_name h.
Proof.
  intros (_ & _ & _ & _ & _ & _ & _ & _ & _ & _ & Hn & _).
  unfold HELLO_MAX_MODEL_NAME_BYTES in Hn.
  assert (HELLO_FIXED_BYTES + length (model_name h) < 2 ^ 32) by (unfold HELLO_FIXED_BYTES; lia).
  unfold build_hello_frame. cbv zeta.
  rewrite (Z.mod_small (HELLO_FIXED_BYTES + length (model_name h))) by (unfold HELLO_FIXED_BYTES in *; lia).
  rewrite (Z.mod_small (length (model_name h))) by lia.
  unfold hello_words. generalize (model_name h). intros name. unfold put_u32, to_be_bytes.
  reflexivity.
Qed.

Lemma hello_words_u32 h : hello_wf h → Forall is_u32 (hello_words h).
Proof.
  unfold hello_wf, u16_max, HELLO_MAX_MODEL_NAME_BYTES. intros H.
  repeat constructor; unfold u32_from_bool, HELLO_FIXED_BYTES, DS4D_MAGIC, DS4D_HELLO_KIND; try tauto;
    repeat case_match; unfold is_u32, u32_max in *; lia.
Qed.

Lemma read_word ws : ∀ rest i w,
  Forall is_u32 ws → ws !! i = Some w →
  read_u32 (mjoin (to_be_bytes <$> ws) ++ rest) (4 * i) = w.
Proof.
  induction ws as [|v ws IH]; intros rest i w Hf Hw; [done|].
  apply Forall_cons in Hf as [Hv Hf]. cbn [fmap list_fmap mjoin list_join].
  rewrite <- app_assoc. destruct i as [|i]; simpl in Hw.
  - simplify_eq. by apply read_u32_here.
  - replace (4 * S i)%nat with (4 + 4 * i)%nat by lia. rewrite read_u32_skip. by apply IH.
Qed.

Lemma words_length ws : length (mjoin (to_be_bytes <$> ws)) = (4 * length ws)%nat.
Proof.
  induction ws as [|v ws IH]; [done|].
  change (mjoin _) with (to_be_bytes v ++ mjoin (to_be_bytes <$> ws)).
  rewrite length_app, IH. simpl. lia.
Qed.

Lemma bool_field_from_bool fixed n b :
  read_u32 fixed n = u32_from_bool b → bool_field fixed n = Ok b.
Proof. intros H. unfold bool_field. rewrite H. by destruct b. Qed.

Lemma bool_field_ok fixed n b :
  bool_field fixed n = Ok b → read_u32 fixed n = u32_from_bool b.
Proof.
  unfold bool_field. intros H. repeat case_match; simplify_eq; bool_to_prop; done.
Qed.

Lemma parse_build h : hello_wf h → parse_hello_frame (build_hello_frame h) = Ok h.
Proof.
  intros Hwf. pose proof (hello_words_u32 h Hwf) as Hu. rewrite build_layout by done.
  set (frame := mjoin _ ++ _).
  assert (∀ i w, hello_words h !! i = Some w → read_u32 frame (4 * i) = w) as Hr
    by (intros; by apply read_word).
  assert (length frame = (52 + length (model_name h))%nat) as Hl
    by (unfold frame; rewrite length_app, words_length; done).
  assert (drop 52 frame = model_name h) as Hd
    by (unfold frame; apply drop_app_length'; by rewrite words_length).
  clearbody frame. destruct Hwf as (_ & _ & _ & _ & _ & _ & H1 & H2 & H3 & H4 & H5 & _ & H6).
  unfold parse_hello_frame, parse_envelope, HEADER_BYTES, payload_in_range.
  rewrite !read_u32_fixed by lia.
  pose proof (Hr 0%nat _ eq_refl) as R0. pose proof (Hr 1%nat _ eq_refl) as R1.
  pose proof (Hr 2%nat _ eq_refl) as R2. pose proof (Hr 3%nat _ eq_refl) as R3.
  pose proof (Hr 4%nat _ eq_refl) as R4. pose proof (Hr 5%nat _ eq_refl) as R5.
  pose proof (Hr 6%nat _ eq_refl) as R6. pose proof (Hr 7%nat _ eq_refl) as R7.
  pose proof (Hr 8%nat _ eq_refl) as R8. pose proof (Hr 9%nat _ eq_refl) as R9.
  pose proof (Hr 10%nat _ eq_refl) as R10. pose proof (Hr 11%nat _ eq_refl) as R11.
  pose proof (Hr 12%nat _ eq_refl) as R12. clear Hr.
  cbn [Nat.mul Nat.add] in R0, R1, R2, R3, R4, R5, R6, R7, R8, R9, R10, R11, R12 |- *.
  rewrite R0, R1, R2, R12.
  unfold HELLO_FIXED_BYTES, HELLO_MAX_MODEL_NAME_BYTES in *. rewrite !Hl.
  rewrite (proj2 (Z.leb_le 12 _)) by lia. rewrite !Z.eqb_refl.
  rewrite (proj2 (Z.leb_le 40 _)), (proj2 (Z.leb_le (40 + _) (40 + 127))) by lia.
  rewrite !(proj2 (Z.leb_le _ _)) by lia. cbn [andb ensure result_bind].
  rewrite R3, R4, R5, R6, R9, R10, R11.
  rewrite (bool_field_from_bool _ _ (has_output h)),
    (bool_field_from_bool _ _ (has_hidden h)), Hd, H6.
  - rewrite (proj2 (Z.ltb_ge _ _)), (proj2 (Z.ltb_ge u16_max _)) by lia.
    rewrite !(proj2 (Z.eqb_neq _ _)) by lia. cbn.
    rewrite Z.mod_small by (unfold u16_max in *; lia). by destruct h.
  - rewrite read_u32_fixed by lia. exact R8.
  - rewrite read_u32_fixed by lia. exact R7.
Qed.

Lemma parse_sound frame h :
  is_bytes frame → parse_hello_frame frame = Ok h →
  hello_wf h ∧ frame = build_hello_frame h.
Proof.
  intros Hb H. unfold parse_hello_frame in H.
  apply result_bind_ok in H as (n & He & H).
  apply result_bind_ok in H as (u1 & Hf%ensure_ok & H).
  apply result_bind_ok in H as (u2 & Hu8%ensure_ok & H).
  apply result_bind_ok in H as (ho & Ho%bool_field_ok & H).
  apply result_bind_ok in H as (hh & Hh%bool_field_ok & [= <-]).
  unfold parse_envelope in He.
  repeat match type of He with result_bind (ensure _ _) _ = _ =>
    apply result_bind_ok in He as (? & ?%ensure_ok & He) end.
  injection He as <-. unfold payload_in_range in *. bool_to_prop.
  rewrite !read_u32_fixed in * by lia. cbn [Nat.add] in *.
  unfold HEADER_BYTES, HELLO_FIXED_BYTES, HELLO_MAX_MODEL_NAME_BYTES in *.
  assert (52 ≤ length frame)%nat as Hlen by lia.
  destruct (split_words 13 frame Hb) as [Hsplit Hu]; [lia|].
  cbn [seq fmap list_fmap Nat.mul Nat.add] in Hsplit, Hu.
  rewrite !Forall_cons in Hu. destruct Hu as (_ & _ & _ & U3 & U4 & U5 & U6 & U7 & U8 & U9 & U10 & U11 & U12 & _).
  cbn [Nat.add].
  assert (length (drop 52 frame) = Z.to_nat (read_u32 frame 48)) as Hname
    by (rewrite length_drop; lia).
  assert (is_bytes (drop 52 frame)) as Hbn by by apply Forall_drop.
  set (h := mkHello _ _ _ _ _ _ _ _ _ _).
  assert (read_u32 frame 44 mod 65536 = read_u32 frame 44) as Hport
    by (apply Z.mod_small; unfold u16_max, is_u32 in *; lia).
  assert (hello_wf h) as Hwf.
  { unfold hello_wf, h, u16_max, HELLO_MAX_MODEL_NAME_BYTES in *. simpl.
    rewrite Hname, Hport. unfold is_u32 in *. split_and!; try done; lia. }
  split; [done|]. rewrite build_layout by done. unfold hello_words, h. simpl.
  rewrite Hname, Hport, <- Ho, <- Hh. rewrite Hsplit at 1.
  unfold HELLO_FIXED_BYTES. rewrite !Z2Nat.id by (unfold is_u32 in *; lia).
  replace (40 + read_u32 frame 48) with (read_u32 frame 8) by lia.
  replace DS4D_MAGIC with (read_u32 frame 0) by lia.
  replace DS4D_HELLO_KIND with (read_u32 frame 4) by lia. reflexivity.
Qed.

(** ** Properties *)

(** The HELLO frame is a faithful and canonical encoding.  The parser accepts a
    byte string exactly when it is the frame built from a well-formed HELLO (fields
    in range, ordered layers, a non-empty UTF-8 name of at most 127 bytes), and
    returns that HELLO: parsing inverts building, and there is no second encoding. *)
Lemma hello_frame_roundtrip frame h :
  is_bytes frame →
  parse_hello_frame frame = Ok h ↔ hello_wf h ∧ frame = build_hello_frame h.
Proof.
  intros Hb. split; [by apply parse_sound|]. intros [Hwf ->]. by apply parse_build.
Qed.

Lemma read_exact_ok n c b c' :
  0 ≤ n → read_exact_or_truncated n c = Ok (b, c') →
  sent c = b ++ sent c' ∧ length b = Z.to_nat n ∧ ending c' = ending c.
Proof.
  unfold read_exact_or_truncated. intros Hn H. destruct (n <=? length (sent c)) eqn:E.
  - injection H as <- <-. bool_to_prop. simpl. rewrite take_drop, length_take. split_and!; try done. lia.
  - by destruct (ending c).
Qed.

(** The rendezvous hands out a HELLO only when everything about it was checked:
    the connection came from the configured worker, it carried exactly the frame of
    that HELLO and nothing more, the control session still waits for the HELLO with
    a valid lease and the generation and deployment of the expectation, and layers,
    context and model are the expected ones. *)
Lemma accepted_hello_is_expected e timeout stream source current h :
  is_bytes (sent stream) →
  accept_one e timeout (Some (stream, source)) current = Ok h →
  source = worker_address e ∧
  sent stream = build_hello_frame h ∧ hello_wf h ∧
  rendezvous_state current = ClusterState.AwaitingWorkerHello ∧ lease_valid current = true ∧
  rendezvous_generation current = rendezvous_generation (control e) ∧
  rendezvous_deployment_id current = rendezvous_deployment_id (control e) ∧
  is_some (rendezvous_deployment_id current) = true ∧
  layer_start h = expected_layer_start e ∧ has_output h = expected_has_output e ∧
  (layer_end h = expected_layer_end e ∨
   expected_layer_end e = u32_max ∧ has_output h = true ∧ layer_end h + 1 = layer_count h) ∧
  context_size h = expected_context_size e ∧ model_name h = expected_model_name e.
Proof.
  intros Hb H. unfold accept_one in H.
  apply result_bind_ok in H as (u1 & Hs%ensure_ok & H).
  apply result_bind_ok in H as (h' & Hr & H).
  apply result_bind_ok in H as (u2 & Hc & H).
  apply result_bind_ok in H as (u3 & Hv & [= <-]).
  assert (sent stream = build_hello_frame h' ∧ hello_wf h') as [Hf Hwf].
  { unfold read_hello_frame in Hr.
    apply result_bind_ok in Hr as (u4 & _ & Hr).
    apply result_bind_ok in Hr as ([hd c1] & H1 & Hr).
    apply result_bind_ok in Hr as (u5 & Hp%ensure_ok & Hr).
    apply result_bind_ok in Hr as ([pl c2] & H2 & Hr).
    unfold payload_in_range, HELLO_FIXED_BYTES in Hp. bool_to_prop.
    apply read_exact_ok in H1 as (E1 & _ & _); [|done].
    apply read_exact_ok in H2 as (E2 & _ & _); [|simpl in *; lia]. simpl in *.
    destruct (sent c2) eqn:E3; [|done]. rewrite app_nil_r in E2.
    assert (parse_hello_frame (hd ++ pl) = Ok h') as Hp by by destruct (ending c2).
    rewrite E1, E2 in Hb |- *. by apply and_comm, parse_sound. }
  unfold validate_rendezvous_control, validate_control_snapshot in Hc.
  apply result_bind_ok in Hc as (u4 & Hc1 & Hc).
  apply result_bind_ok in Hc as (u5 & Hg%ensure_ok & Hd%ensure_ok).
  apply result_bind_ok in Hc1 as (u6 & Hst%ensure_ok & Hc1).
  apply result_bind_ok in Hc1 as (u7 & Hlv%ensure_ok & Hsome%ensure_ok).
  unfold validate_worker_hello in Hv. repeat case_match; simplify_eq. bool_to_prop.
  split_and!; try done.
  destruct (layer_end h' =? expected_layer_end e) eqn:El; bool_to_prop; [by left|right].
  rename select (negb (_ && _) && negb false = false) into Hout.
  rewrite andb_true_r in Hout. bool_to_prop. done.
Qed.

(** ** Witnesses *)

Definition demo_hello : Ds4Hello :=
  mkHello 7 4 22 42 true false 131072 43 9100 (str "deepseek-v4").
Definition demo_control : RendezvousControlSnapshot :=
  mkRendezvous ClusterState.AwaitingWorkerHello 7 (Some (str "deployment-a")) true.
Definition demo_expectation : WorkerHelloExpectation :=
  mkExpectation (IpAddr.V4 174260225) (IpAddr.V4 174260226) demo_control 22 u32_max true 131072
    (str "deepseek-v4").

Lemma demo_hello_wf : hello_wf demo_hello.
Proof.
  unfold hello_wf, is_u32, is_bytes, is_u8. cbn [model_id quant_bits layer_start layer_end
    context_size layer_count listen_port model_name demo_hello].
  split_and!; try (by vm_compute); repeat constructor; by vm_compute.
Defined.

Lemma is_bytes_decide l : forallb (fun b => (0 <=? b) && (b <=? 255)) l = true → is_bytes l.
Proof.
  induction l as [|b l IH]; simpl; intros H; [constructor|]. bool_to_prop.
  constructor; [by split|by apply IH].
Defined.

Lemma hello_frame_roundtrip_witness :
  parse_hello_frame (build_hello_frame demo_hello) = Ok demo_hello.
Proof.
  apply (hello_frame_roundtrip (build_hello_frame demo_hello) demo_hello).
  - apply is_bytes_decide. by vm_compute.
  - split; [exact demo_hello_wf|done].
Defined.

Lemma accepted_hello_is_expected_witness :
  accept_one demo_expectation 5000000000
    (Some (mkConnection (build_hello_frame demo_hello) Silent, IpAddr.V4 174260226))
    demo_control = Ok demo_hello ∧
  model_name demo_hello = expected_model_name demo_expectation.
Proof.
  assert (accept_one demo_expectation 5000000000
    (Some (mkConnection (build_hello_frame demo_hello) Silent, IpAddr.V4 174260226))
    demo_control = Ok demo_hello) as H by by vm_compute.
  split; [exact H|].
  apply (accepted_hello_is_expected demo_expectation 5000000000
    (mkConnection (build_hello_frame demo_hello) Silent) (IpAddr.V4 174260226) demo_control);
    [|exact H].
  apply is_bytes_decide. by vm_compute.
Defined.
