(* ===== verification/Recovery.v ===== *)
(** * Degradation recovery: [src/src/recovery.rs]

    [RecoveryDetector] turns throughput observations into at most one trigger per
    incident; [RecoveryService] decides whether a trigger starts a recovery job and
    keeps the bounded history of jobs; [civil_date_from_days] dates them.  A
    throughput is an [f64]: a rational number, an infinity or not a number. *)

From Stdlib Require Import QArith.
From S2P Require Import Prelude Bytes Target.
Open Scope Z_scope.

(** ** Data *)

(** src/src/recovery.rs:13-20 (RECOVERY_HISTORY_LIMIT) *)
Definition RECOVERY_HISTORY_LIMIT : Z := 32.
Definition RECOVERY_COOLDOWN_MILLIS : Z := 60 * 60 * 1000.
Definition RECOVERY_WINDOW_MILLIS : Z := 12 * 60 * 60 * 1000.
Definition RECOVERY_MAX_ATTEMPTS : Z := 2.
Definition RECOVERY_IDEMPOTENCY_KEY_MAX_BYTES : Z := 128.
Definition RECOVERY_ADMISSION_DRAIN_TIMEOUT_MILLIS : Z := 60 * 1000.
Definition RECOVERY_LOW_TPS_SUSTAINED_MILLIS : Z := 30 * 1000.
Definition RECOVERY_FIRST_TOKEN_TIMEOUT_MILLIS : Z := 30 * 1000.

(** src/src/recovery.rs:22-26 (RecoveryReason) *)
Inductive RecoveryReason := ThroughputDegraded.

Module RecoveryTrigger.

(** src/src/recovery.rs:36-43 (RecoveryTrigger) *)
Inductive RecoveryTrigger :=
| ManualCanaryFailure | ProgressStall | LowDecodeTps | FirstTokenTimeout.

End RecoveryTrigger.
Notation RecoveryTrigger := RecoveryTrigger.RecoveryTrigger.

Module CanaryReason.

(** src/src/canary.rs:39-47 (CanaryReason) *)
Inductive CanaryReason := Healthy | Deadline | HttpError | LowDecodeTps | ProgressStall.

End CanaryReason.
Notation CanaryReason := CanaryReason.CanaryReason.

Global Instance RecoveryReason_eq_dec : EqDecision RecoveryReason.
Proof. solve_decision. Defined.
Global Instance RecoveryTrigger_eq_dec : EqDecision RecoveryTrigger.
Proof. solve_decision. Defined.
Global Instance CanaryReason_eq_dec : EqDecision CanaryReason.
Proof. solve_decision. Defined.

Inductive f64 := NotANumber | Infinite (negative : bool) | Finite (q : Q).

Definition f64_is_finite (x : f64) : bool := match x with Finite _ => true | _ => false end.
Definition f64_le (x y : f64) : bool :=
  match x, y with
  | NotANumber, _ | _, NotANumber => false
  | Infinite true, _ | _, Infinite false => true
  | Infinite false, _ | _, Infinite true => false
  | Finite p, Finite q => Qle_bool p q
  end.
Definition f64_lt (x y : f64) : bool :=
  match x, y with
  | NotANumber, _ | _, NotANumber => false
  | _, _ => negb (f64_le y x)
  end.

(** ** The detector *)

(** src/src/recovery.rs:167-176 (RecoveryObservation) *)
Inductive RecoveryObservation :=
| Idle
| Active (first_progress_observed : bool) (active_age_millis : Z)
    (progress_age_millis : option Z) (chunk_tps : option f64).

(** src/src/recovery.rs:178-184 (RecoveryDetectorPolicy) *)
Record RecoveryDetectorPolicy := mkDetectorPolicy {
  low_decode_tps : f64;
  low_decode_duration_millis : Z;
  progress_stall_millis : Z;
  first_token_timeout_millis : Z;
}.

(** src/src/recovery.rs:186-195 (RecoveryDetectorPolicy::default) *)
Definition detector_policy_default : RecoveryDetectorPolicy :=
  mkDetectorPolicy (Finite 5) RECOVERY_LOW_TPS_SUSTAINED_MILLIS
    RECOVERY_ADMISSION_DRAIN_TIMEOUT_MILLIS RECOVERY_FIRST_TOKEN_TIMEOUT_MILLIS.

(** src/src/recovery.rs:203-209 (RecoveryDetector) *)
Record RecoveryDetector := mkDetector {
  detector_policy : RecoveryDetectorPolicy;
  low_tps_since_millis : option Z;
  incident_active : bool;
  last_observed_millis : Z;
}.

(** [None]: a policy the constructor refuses.
    src/src/recovery.rs:212-235 (RecoveryDetector::new) *)
Definition detector_new (p : RecoveryDetectorPolicy) : option RecoveryDetector :=
  if f64_is_finite (low_decode_tps p) && f64_le (Finite 0) (low_decode_tps p)
     && (0 <? low_decode_duration_millis p) && (0 <? progress_stall_millis p)
     && (0 <? first_token_timeout_millis p)
  then Some (mkDetector p None false 0) else None.

(** src/src/recovery.rs:302-308 (RecoveryDetector::emit_once) *)
Definition emit_once (t : RecoveryTrigger) (s : RecoveryDetector)
    : option RecoveryTrigger * RecoveryDetector :=
  if incident_active s then (None, s)
  else (Some t, mkDetector (detector_policy s) (low_tps_since_millis s) true
                  (last_observed_millis s)).

(** src/src/recovery.rs:310-313 (RecoveryDetector::reset_incident) *)
Definition reset_incident (s : RecoveryDetector) : RecoveryDetector :=
  mkDetector (detector_policy s) None false (last_observed_millis s).

Definition set_since (since : option Z) (s : RecoveryDetector) : RecoveryDetector :=
  mkDetector (detector_policy s) since (incident_active s) (last_observed_millis s).
Definition set_observed (now : Z) (s : RecoveryDetector) : RecoveryDetector :=
  mkDetector (detector_policy s) (low_tps_since_millis s) (incident_active s) now.

Definition is_low_tps (p : RecoveryDetectorPolicy) (tps : option f64) : bool :=
  is_some_and tps (fun t => f64_is_finite t && f64_le (Finite 0) t && f64_lt t (low_decode_tps p)).

(** src/src/recovery.rs:237-281 (RecoveryDetector::observe_at) *)
Definition observe_at (now : Z) (o : RecoveryObservation) (s : RecoveryDetector)
    : option RecoveryTrigger * RecoveryDetector :=
  let now := Z.max now (last_observed_millis s) in
  let s := set_observed now s in
  match o with
  | Idle => (None, reset_incident s)
  | Active first_progress active_age progress_age tps =>
      if negb first_progress then
        let s := set_since None s in
        if first_token_timeout_millis (detector_policy s) <=? active_age
        then emit_once RecoveryTrigger.FirstTokenTimeout s
        else (None, s)
      else if is_some_and progress_age (fun age =>
                progress_stall_millis (detector_policy s) <=? age)
      then emit_once RecoveryTrigger.ProgressStall s
      else if is_low_tps (detector_policy s) tps then
        let since := default now (low_tps_since_millis s) in
        let s := set_since (Some since) s in
        if low_decode_duration_millis (detector_policy s) <=? sat_sub now since
        then emit_once RecoveryTrigger.LowDecodeTps s
        else (None, s)
      else (None, set_since None s)
  end.

(** src/src/recovery.rs:283-300 (RecoveryDetector::observe_canary_at) *)
Definition observe_canary_at (now : Z) (reason : CanaryReason) (s : RecoveryDetector)
    : option RecoveryTrigger * RecoveryDetector :=
  let s := set_observed (Z.max now (last_observed_millis s)) s in
  match reason with
  | CanaryReason.Healthy => (None, reset_incident s)
  | CanaryReason.Deadline => emit_once RecoveryTrigger.FirstTokenTimeout s
  | CanaryReason.LowDecodeTps => emit_once RecoveryTrigger.LowDecodeTps s
  | CanaryReason.ProgressStall => emit_once RecoveryTrigger.ProgressStall s
  | CanaryReason.HttpError => emit_once RecoveryTrigger.ManualCanaryFailure s
  end.

(** Observations of either kind, in order. *)
Inductive Sample := Observed (o : RecoveryObservation) | Canary (r : CanaryReason).

Definition sample_at (now : Z) (x : Sample) (s : RecoveryDetector)
    : option RecoveryTrigger * RecoveryDetector :=
  match x with
  | Observed o => observe_at now o s
  | Canary r => observe_canary_at now r s
  end.

Definition resets (x : Sample) : bool :=
  match x with
  | Observed Idle | Canary CanaryReason.Healthy => true
  | _ => false
  end.

Fixpoint samples (xs : list (Z * Sample)) (s : RecoveryDetector)
    : list (option RecoveryTrigger) * RecoveryDetector :=
  match xs with
  | [] => ([], s)
  | (now, x) :: xs =>
      let '(t, s) := sample_at now x s in
      let '(ts, s) := samples xs s in
      (t :: ts, s)
  end.

Definition count_triggers (ts : list (option RecoveryTrigger)) : nat :=
  length (omap id ts).

(** ** The service *)

Module RecoveryState.

(** src/src/recovery.rs:323-330 (RecoveryState) *)
Inductive RecoveryState := Running | Succeeded | Failed | Suppressed.

End RecoveryState.
Notation RecoveryState := RecoveryState.RecoveryState.

Module RecoveryPhase.

(** src/src/recovery.rs:332-347 (RecoveryPhase) *)
Inductive RecoveryPhase :=
| Accepted | Snapshot | AdmissionBlocked | Draining | Demoting | PairedStandalone
| Promoting | PostRecoveryCanary | Serving | Completed | Failed | Suppressed.

End RecoveryPhase.
Notation RecoveryPhase := RecoveryPhase.RecoveryPhase.

Module RecoveryFailureReason.

(** src/src/recovery.rs:349-365 (RecoveryFailureReason) *)
Inductive RecoveryFailureReason :=
| NotCoordinator | NotDistributedReady | Cooldown | AttemptLimit | SnapshotWrite
| UnknownRecoveryId | RecoveryOwnerBusy | DrainTimeout | DemotionFailed
| PromotionFailed | ChildIdentityMismatch | PeerLoss | CanaryFailed.

End RecoveryFailureReason.
Notation RecoveryFailureReason := RecoveryFailureReason.RecoveryFailureReason.

Global Instance RecoveryState_eq_dec : EqDecision RecoveryState.
Proof. solve_decision. Defined.
Global Instance RecoveryPhase_eq_dec : EqDecision RecoveryPhase.
Proof. solve_decision. Defined.
Global Instance RecoveryFailureReason_eq_dec : EqDecision RecoveryFailureReason.
Proof. solve_decision. Defined.

(** src/src/recovery.rs:387-393 (RecoveryGate) *)
Record RecoveryGate := mkRecoveryGate {
  gate_role : LocalRole;
  gate_mode : StableMode;
  gate_state : ClusterState;
  gate_generation : Z;
}.

(** src/src/recovery.rs:395-400 (RecoveryRequest) *)
Record RecoveryRequest := mkRequest {
  request_reason : RecoveryReason;
  request_trigger : RecoveryTrigger;
  request_key : bytes;
}.

(** [char::is_control] on UTF-8: C0, DEL and C1. *)
Fixpoint has_control (l : bytes) : bool :=
  match l with
  | [] => false
  | b :: l =>
      (b <? 32) || (b =? 127)
      || ((b =? 194) && match l with c :: _ => between 128 159 c | [] => false end)
      || has_control l
  end.

(** [None]: a key the constructor refuses.
    src/src/recovery.rs:403-423 (RecoveryRequest::new) *)
Definition request_new (reason : RecoveryReason) (trigger : RecoveryTrigger) (key : bytes)
    : option RecoveryRequest :=
  if bool_decide (key = []) || (RECOVERY_IDEMPOTENCY_KEY_MAX_BYTES <? length key) then None
  else if has_control key then None
  else Some (mkRequest reason trigger key).

(** src/src/recovery.rs:426-432 (RecoveryPolicy) *)
Record RecoveryPolicy := mkPolicy {
  history_limit : Z;
  cooldown : Z;
  window : Z;
  max_attempts : Z;
}.

(** src/src/recovery.rs:434-443 (RecoveryPolicy::default) *)
Definition policy_default : RecoveryPolicy :=
  mkPolicy RECOVERY_HISTORY_LIMIT RECOVERY_COOLDOWN_MILLIS RECOVERY_WINDOW_MILLIS
    RECOVERY_MAX_ATTEMPTS.

(** The fields [operation] and [owner] are the constants [recover-degraded] and
    [coordinator] and are left out.
    src/src/recovery.rs:445-475 (RecoveryJob) *)
Record RecoveryJob := mkJob {
  recovery_id : bytes;
  job_state : RecoveryState;
  job_phase : RecoveryPhase;
  job_reason : RecoveryReason;
  job_trigger : RecoveryTrigger;
  started_at_millis : Z;
  finished_at_millis : option Z;
  cluster_generation : Z;
  new_cluster_generation : option Z;
  idempotency_key : bytes;
  failure_reason : option RecoveryFailureReason;
  snapshot_path : option bytes;
  post_recovery_canary : option CanaryReason;
  admission : option bytes;
}.

Module RecoveryStart.

(** src/src/recovery.rs:477-482 (RecoveryStart) *)
Inductive RecoveryStart :=
| Created (job : RecoveryJob)
| Existing (job : RecoveryJob)
| Suppressed (job : RecoveryJob).

End RecoveryStart.
Notation RecoveryStart := RecoveryStart.RecoveryStart.

(** src/src/recovery.rs:489-493 (RecoveryInner) *)
Record RecoveryInner := mkRecoveryInner {
  service_policy : RecoveryPolicy;
  active : option RecoveryJob;
  history : list RecoveryJob;
}.

(** src/src/recovery.rs:500-509 (RecoveryService::with_policy) *)
Definition with_policy (p : RecoveryPolicy) : RecoveryInner :=
  mkRecoveryInner
    (mkPolicy (Z.max (history_limit p) 1) (cooldown p) (window p) (max_attempts p)) None [].

(** src/src/recovery.rs:737-747 (gate_failure) *)
Definition gate_failure (g : RecoveryGate) : option RecoveryFailureReason :=
  if negb (bool_decide (gate_role g = LocalRole.Coordinator))
  then Some RecoveryFailureReason.NotCoordinator
  else if negb (bool_decide (gate_mode g = StableMode.DistributedLayerParallel))
          || negb (bool_decide (gate_state g = ClusterState.DistributedReady))
  then Some RecoveryFailureReason.NotDistributedReady
  else None.

Definition is_attempt (j : RecoveryJob) : bool :=
  match job_state j with RecoveryState.Succeeded | RecoveryState.Failed => true | _ => false end.

(** [Iterator::max] of the finish times. *)
Definition max_finished (js : list RecoveryJob) : option Z :=
  foldl (fun m j =>
    match (if is_attempt j then finished_at_millis j else None), m with
    | Some f, Some x => Some (Z.max x f)
    | Some f, None => Some f
    | None, m => m
    end) None js.

(** src/src/recovery.rs:749-757 (in_cooldown) *)
Definition in_cooldown (s : RecoveryInner) (now : Z) : bool :=
  is_some_and (max_finished (history s)) (fun finished =>
    now <? sat_add64 finished (cooldown (service_policy s))).

(** src/src/recovery.rs:759-766 (attempts_in_window) *)
Definition attempts_in_window (s : RecoveryInner) (now : Z) : Z :=
  length (filter (fun j => is_attempt j = true ∧
    (sat_sub now (started_at_millis j) <=? window (service_policy s)) = true) (history s)).

(** The fresh UUID is an argument.  src/src/recovery.rs:768-793 (new_job) *)
Definition new_job (uuid : bytes) (g : RecoveryGate) (r : RecoveryRequest) (started : Z)
    (st : RecoveryState) (ph : RecoveryPhase) : RecoveryJob :=
  mkJob uuid st ph (request_reason r) (request_trigger r) started None (gate_generation g)
    None (request_key r) None None None None.

(** src/src/recovery.rs:795-820 (with_failure) *)
Definition with_failure (j : RecoveryJob) (reason : RecoveryFailureReason) (finished : Z)
    : RecoveryJob :=
  let st := match reason with
            | RecoveryFailureReason.NotCoordinator | RecoveryFailureReason.NotDistributedReady
            | RecoveryFailureReason.Cooldown | RecoveryFailureReason.AttemptLimit
            | RecoveryFailureReason.UnknownRecoveryId => RecoveryState.Suppressed
            | _ => RecoveryState.Failed
            end in
  let ph := if bool_decide (st = RecoveryState.Failed)
            then RecoveryPhase.Failed else RecoveryPhase.Suppressed in
  mkJob (recovery_id j) st ph (job_reason j) (job_trigger j) (started_at_millis j)
    (Some finished) (cluster_generation j) (new_cluster_generation j) (idempotency_key j)
    (Some reason) (snapshot_path j) (post_recovery_canary j) (admission j).

(** src/src/recovery.rs:822-827 (push_history) *)
Definition push_history (s : RecoveryInner) (j : RecoveryJob) : RecoveryInner :=
  let h := history s ++ [j] in
  mkRecoveryInner (service_policy s) (active s)
    (drop (length h - Z.to_nat (history_limit (service_policy s))) h).

Definition suppress (uuid : bytes) (g : RecoveryGate) (r : RecoveryRequest) (now : Z)
    (reason : RecoveryFailureReason) (s : RecoveryInner) : RecoveryStart * RecoveryInner :=
  let j := with_failure
    (new_job uuid g r now RecoveryState.Suppressed RecoveryPhase.Suppressed) reason now in
  (RecoveryStart.Suppressed j, push_history s j).

(** src/src/recovery.rs:515-580 (RecoveryService::begin_at) *)
Definition begin_at (uuid : bytes) (g : RecoveryGate) (r : RecoveryRequest) (now : Z)
    (s : RecoveryInner) : RecoveryStart * RecoveryInner :=
  match active s with
  | Some j => (RecoveryStart.Existing j, s)
  | None =>
      match find_last (fun j => bool_decide (idempotency_key j = request_key r)) (history s) with
      | Some j => (RecoveryStart.Existing j, s)
      | None =>
          match gate_failure g with
          | Some reason => suppress uuid g r now reason s
          | None =>
              if in_cooldown s now
              then suppress uuid g r now RecoveryFailureReason.Cooldown s
              else if max_attempts (service_policy s) <=? attempts_in_window s now
              then suppress uuid g r now RecoveryFailureReason.AttemptLimit s
              else
                let j := new_job uuid g r now RecoveryState.Running RecoveryPhase.Snapshot in
                (RecoveryStart.Created j, mkRecoveryInner (service_policy s) (Some j) (history s))
          end
      end
  end.

Definition update_active (id : bytes) (f : RecoveryJob → RecoveryJob) (s : RecoveryInner)
    : option RecoveryJob * RecoveryInner :=
  match active s with
  | None => (None, s)
  | Some j =>
      if negb (bool_decide (recovery_id j = id)) then (None, s)
      else (Some (f j), mkRecoveryInner (service_policy s) (Some (f j)) (history s))
  end.

(** src/src/recovery.rs:582-594 (RecoveryService::mark_snapshot_succeeded) *)
Definition mark_snapshot_succeeded (id path : bytes) : RecoveryInner → option RecoveryJob * RecoveryInner :=
  update_active id (fun j =>
    mkJob (recovery_id j) (job_state j) (job_phase j) (job_reason j) (job_trigger j)
      (started_at_millis j) (finished_at_millis j) (cluster_generation j)
      (new_cluster_generation j) (idempotency_key j) (failure_reason j) (Some path)
      (post_recovery_canary j) (admission j)).

(** src/src/recovery.rs:596-610 (RecoveryService::mark_phase) *)
Definition mark_phase (id : bytes) (ph : RecoveryPhase) (adm : option bytes)
    : RecoveryInner → option RecoveryJob * RecoveryInner :=
  update_active id (fun j =>
    mkJob (recovery_id j) (job_state j) ph (job_reason j) (job_trigger j)
      (started_at_millis j) (finished_at_millis j) (cluster_generation j)
      (new_cluster_generation j) (idempotency_key j) (failure_reason j) (snapshot_path j)
      (post_recovery_canary j) adm).

(** src/src/recovery.rs:612-624 (RecoveryService::mark_post_recovery_canary) *)
Definition mark_post_recovery_canary (id : bytes) (r : CanaryReason)
    : RecoveryInner → option RecoveryJob * RecoveryInner :=
  update_active id (fun j =>
    mkJob (recovery_id j) (job_state j) (job_phase j) (job_reason j) (job_trigger j)
      (started_at_millis j) (finished_at_millis j) (cluster_generation j)
      (new_cluster_generation j) (idempotency_key j) (failure_reason j) (snapshot_path j)
      (Some r) (admission j)).

(** Take the active job, finish it and move it to the history. *)
Definition finish_active (id : bytes) (f : RecoveryJob → RecoveryJob) (s : RecoveryInner)
    : option RecoveryJob * RecoveryInner :=
  match active s with
  | None => (None, s)
  | Some j =>
      if negb (bool_decide (recovery_id j = id)) then (None, s)
      else (Some (f j), push_history (mkRecoveryInner (service_policy s) None (history s)) (f j))
  end.

(** src/src/recovery.rs:626-641 (RecoveryService::mark_snapshot_failed) *)
Definition mark_snapshot_failed (id : bytes) (reason : RecoveryFailureReason) (finished : Z)
    : RecoveryInner → option RecoveryJob * RecoveryInner :=
  finish_active id (fun j => with_failure j reason finished).

(** src/src/recovery.rs:700-722 (RecoveryService::mark_terminal) *)
Definition mark_terminal (id : bytes) (finished : Z) (st : RecoveryState) (ph : RecoveryPhase)
    (reason : option RecoveryFailureReason) (new_generation : option Z)
    : RecoveryInner → option RecoveryJob * RecoveryInner :=
  finish_active id (fun j =>
    mkJob (recovery_id j) st ph (job_reason j) (job_trigger j) (started_at_millis j)
      (Some finished) (cluster_generation j) new_generation (idempotency_key j) reason
      (snapshot_path j) (post_recovery_canary j) (admission j)).

(** src/src/recovery.rs:643-657 (RecoveryService::mark_succeeded) *)
Definition mark_succeeded (id : bytes) (finished new_generation : Z) :=
  mark_terminal id finished RecoveryState.Succeeded RecoveryPhase.Completed None
    (Some new_generation).

(** src/src/recovery.rs:659-673 (RecoveryService::mark_failed) *)
Definition mark_failed (id : bytes) (finished : Z) (reason : RecoveryFailureReason) :=
  mark_terminal id finished RecoveryState.Failed RecoveryPhase.Failed (Some reason) None.

(** src/src/recovery.rs:675-690 (RecoveryService::status) *)
Definition status (s : RecoveryInner) (id : bytes) : option RecoveryJob :=
  match (match active s with
         | Some j => if bool_decide (recovery_id j = id) then Some j else None
         | None => None
         end) with
  | Some j => Some j
  | None => find_last (fun j => bool_decide (recovery_id j = id)) (history s)
  end.

(** ** Dates *)

(** Truncating division on [i64].
    src/src/recovery.rs:863-880 (civil_date_from_days) *)
Definition civil_date_from_days (days : Z) : Z * Z * Z :=
  let shifted_days := days + 719468 in
  let era := if 0 <=? shifted_days then Z.quot shifted_days 146097
             else Z.quot (shifted_days - 146096) 146097 in
  let day_of_era := shifted_days - era * 146097 in
  let year_of_era := Z.quot (day_of_era - Z.quot day_of_era 1460 + Z.quot day_of_era 36524
                             - Z.quot day_of_era 146096) 365 in
  let year := year_of_era + era * 400 in
  let day_of_year :=
    day_of_era - (365 * year_of_era + Z.quot year_of_era 4 - Z.quot year_of_era 100) in
  let month_part := Z.quot (5 * day_of_year + 2) 153 in
  let day := day_of_year - Z.quot (153 * month_part + 2) 5 + 1 in
  let month := month_part + (if month_part <? 10 then 3 else -9) in
  let year := year + (if month <=? 2 then 1 else 0) in
  (year, month, day).

(** ** The detector fires once per incident *)

Lemma emit_once_spec t s :
  snd (emit_once t s) =
    mkDetector (detector_policy s) (low_tps_since_millis s) true (last_observed_millis s) ∧
  fst (emit_once t s) = if incident_active s then None else Some t.
Proof. destruct s as [p l [] o]; done. Qed.

(** What one sample does to the incident flag. *)
Lemma sample_incident now x s :
  let '(t, s') := sample_at now x s in
  detector_policy s' = detector_policy s ∧
  (incident_active s = true → t = None) ∧
  incident_active s' =
    (if resets x then false else incident_active s || is_some t).
Proof.
  destruct x as [[|fp aa pa tps]|[]]; simpl; unfold observe_at; try done;
    repeat (case_match; simpl); try done;
    unfold emit_once in *; simpl in *;
    destruct (incident_active s) eqn:E; simplify_eq; simpl; rewrite ?E; done.
Qed.

Lemma count_triggers_cons t ts :
  count_triggers (t :: ts) = ((if is_some t then 1 else 0) + count_triggers ts)%nat.
Proof. by destruct t. Qed.

Lemma samples_one_shot xs : ∀ s,
  forallb (fun nx => negb (resets (snd nx))) xs = true →
  let '(ts, s') := samples xs s in
  (count_triggers ts ≤ if incident_active s then 0 else 1)%nat ∧
  detector_policy s' = detector_policy s.
Proof.
  induction xs as [|[now x] xs IH]; intros s H; simpl in *.
  - split; [|done]. apply Nat.le_0_l.
  - bool_to_prop. pose proof (sample_incident now x s) as Hs.
    destruct (sample_at now x s) as [t s1]. destruct Hs as (Hp & Hn & Hi).
    rename select (resets x = false) into Hr. rewrite Hr in Hi.
    specialize (IH s1 ltac:(done)). destruct (samples xs s1) as [ts s2].
    destruct IH as [IH ?]. split; [|congruence]. rewrite count_triggers_cons. rewrite Hi in IH.
    destruct (incident_active s).
    + rewrite Hn in * by done. simpl in *. lia.
    + destruct t; simpl in *; lia.
Qed.

(** ** Low throughput must be sustained *)

(** A sample that does not interrupt a run of low throughput. *)
Definition keeps_low (p : RecoveryDetectorPolicy) (x : Sample) : bool :=
  match x with
  | Observed Idle => false
  | Observed (Active fp _ age tps) =>
      fp && (is_some_and age (fun a => progress_stall_millis p <=? a) || is_low_tps p tps)
  | Canary r => negb (bool_decide (r = CanaryReason.Healthy))
  end.

Definition low_sample (p : RecoveryDetectorPolicy) (x : Sample) : bool :=
  match x with
  | Observed (Active true _ age tps) =>
      negb (is_some_and age (fun a => progress_stall_millis p <=? a)) && is_low_tps p tps
  | _ => false
  end.

(** The clock of the detector after the samples: the maximum of their times. *)
Definition clock (t0 : Z) (xs : list (Z * Sample)) : Z := foldl (fun c nx => Z.max (fst nx) c) t0 xs.

(** Where a pending low-throughput run began. *)
Definition low_run (p : RecoveryDetectorPolicy) (t0 : Z) (xs : list (Z * Sample)) (since : Z)
    : Prop :=
  ∃ pre now x post, xs = pre ++ (now, x) :: post ∧ low_sample p x = true ∧
    since = clock t0 (pre ++ [(now, x)]) ∧
    forallb (fun nx => keeps_low p (snd nx)) post = true.

Lemma clock_snoc t0 xs nx : clock t0 (xs ++ [nx]) = Z.max (fst nx) (clock t0 xs).
Proof. unfold clock. by rewrite foldl_app. Qed.

Lemma low_run_snoc p t0 xs since now x :
  low_run p t0 xs since → keeps_low p x = true → low_run p t0 (xs ++ [(now, x)]) since.
Proof.
  intros (pre & n & y & post & -> & Hl & Hs & Hf) Hk.
  exists pre, n, y, (post ++ [(now, x)]). rewrite <- app_assoc. split_and!; try done.
  by rewrite forallb_app, Hf; simpl; rewrite Hk.
Qed.

Definition run_state (s : RecoveryDetector) (xs : list (Z * Sample)) : RecoveryDetector :=
  foldl (fun s nx => snd (sample_at (fst nx) (snd nx) s)) s xs.

Definition run_inv (s0 : RecoveryDetector) (xs : list (Z * Sample)) : Prop :=
  let s := run_state s0 xs in
  detector_policy s = detector_policy s0 ∧
  last_observed_millis s = clock (last_observed_millis s0) xs ∧
  ∀ since, low_tps_since_millis s = Some since →
    low_run (detector_policy s0) (last_observed_millis s0) xs since.

Lemma run_state_snoc s xs nx :
  run_state s (xs ++ [nx]) = snd (sample_at (fst nx) (snd nx) (run_state s xs)).
Proof. unfold run_state. by rewrite foldl_app. Qed.

Lemma emit_once_fields t s :
  detector_policy (snd (emit_once t s)) = detector_policy s ∧
  last_observed_millis (snd (emit_once t s)) = last_observed_millis s ∧
  low_tps_since_millis (snd (emit_once t s)) = low_tps_since_millis s.
Proof. unfold emit_once. by case_match. Qed.

Ltac emit_fields :=
  match goal with |- context [emit_once ?t ?b] =>
    destruct (emit_once_fields t b) as (-> & -> & ->) end.

Lemma sample_since now x s since :
  let p := detector_policy s in
  let s' := snd (sample_at now x s) in
  detector_policy s' = p ∧
  last_observed_millis s' = Z.max now (last_observed_millis s) ∧
  (low_tps_since_millis s' = Some since →
   (keeps_low p x = true ∧ low_tps_since_millis s = Some since) ∨
   (low_sample p x = true ∧ since = Z.max now (last_observed_millis s))).
Proof.
  unfold sample_at, observe_at, observe_canary_at, keeps_low, low_sample.
  destruct x as [[|fp aa pa tps]|r]; simpl.
  - done.
  - destruct fp; simpl; [|case_match; [emit_fields|]; done].
    destruct (is_some_and pa _) eqn:Ea; simpl.
    { emit_fields. simpl. split_and!; auto. }
    destruct (is_low_tps (detector_policy s) tps) eqn:El; simpl; [|done].
    case_match; [emit_fields|]; simpl; (split_and!; [done|done|]);
      destruct (low_tps_since_millis s); simpl; intros [= <-]; auto.
  - destruct r; simpl; [done|..]; emit_fields; simpl; split_and!; auto.
Qed.

Lemma run_inv_all s0 xs :
  low_tps_since_millis s0 = None → run_inv s0 xs.
Proof.
  intros H0. induction xs as [|[now x] xs IH] using rev_ind; unfold run_inv in *.
  - split_and!; [done|done|]. intros since H. simpl in H. congruence.
  - destruct IH as (Hp & Hc & Hs). rewrite run_state_snoc, clock_snoc. cbn [fst snd].
    set (s := run_state s0 xs) in *.
    destruct (sample_since now x s 0) as (E1 & E2 & _). split_and!; [congruence|congruence|].
    intros since Hsince. destruct (sample_since now x s since) as (_ & _ & E3).
    rewrite Hp in E3. destruct (E3 Hsince) as [[Hk Ho]|[Hl ->]].
    + apply low_run_snoc; auto.
    + exists xs, now, x, []. split_and!; [done|done| |done].
      rewrite clock_snoc. simpl. by rewrite Hc.
Qed.

(** ** Properties of the detector *)

(** A degradation incident raises at most one trigger.  Over any sequence of
    observations and canary results in which nothing idle or healthy occurs, at any
    times, the detector emits at most one trigger, and none if an incident was
    already open. *)
Lemma detector_fires_once_per_incident s xs :
  forallb (fun nx => negb (resets (snd nx))) xs = true →
  (count_triggers (fst (samples xs s)) ≤ if incident_active s then 0 else 1)%nat.
Proof.
  intros H. pose proof (samples_one_shot xs s H) as Hs. destruct (samples xs s). apply Hs.
Qed.

(** Low throughput is reported only when sustained.  If an observation makes a
    new detector report low throughput, then an earlier low-throughput observation
    (or this one) lies at least the configured duration back on the detector's
    monotonic clock, and no observation since was idle, healthy, without progress or
    of sufficient throughput. *)
Lemma low_tps_must_be_sustained p s0 xs now o :
  detector_new p = Some s0 →
  fst (observe_at now o (run_state s0 xs)) = Some RecoveryTrigger.LowDecodeTps →
  ∃ since, low_run p 0 (xs ++ [(now, Observed o)]) since ∧
    low_decode_duration_millis p ≤ clock 0 (xs ++ [(now, Observed o)]) - since.
Proof.
  unfold detector_new. case_match eqn:Ep; [|done]. intros [= <-] H. bool_to_prop.
  set (s0 := mkDetector p None false 0) in *.
  pose proof (run_inv_all s0 xs eq_refl) as (Hp & Hc & _).
  pose proof (run_inv_all s0 (xs ++ [(now, Observed o)]) eq_refl) as (_ & _ & Hs).
  rewrite run_state_snoc in Hs. cbn [fst snd sample_at] in Hs.
  change (detector_policy s0) with p in *. change (last_observed_millis s0) with 0 in *.
  rewrite clock_snoc. cbn [fst]. rewrite <- Hc. set (s := run_state s0 xs) in *.
  unfold observe_at in H, Hs. destruct o as [|fp aa pa tps]; [done|]. simpl in H, Hs.
  destruct fp; simpl in H, Hs.
  2: { case_match; [|done]. unfold emit_once in H. by case_match. }
  destruct (is_some_and pa _); simpl in H, Hs.
  { unfold emit_once in H. by case_match. }
  rewrite Hp in *. destruct (is_low_tps p tps); [|done]. simpl in H, Hs.
  destruct (_ <=? sat_sub _ _) eqn:E; [|done]. bool_to_prop.
  exists (default (Z.max now (last_observed_millis s)) (low_tps_since_millis s)). split.
  - apply Hs. by rewrite (proj2 (proj2 (emit_once_fields _ _))).
  - unfold sat_sub in E. lia.
Qed.

(** ** The service's invariant *)

Inductive ServiceOp :=
| OpBegin (uuid : bytes) (g : RecoveryGate) (r : RecoveryRequest) (now : Z)
| OpSnapshotSucceeded (id path : bytes)
| OpPhase (id : bytes) (ph : RecoveryPhase) (adm : option bytes)
| OpCanary (id : bytes) (r : CanaryReason)
| OpSnapshotFailed (id : bytes) (reason : RecoveryFailureReason) (finished : Z)
| OpSucceeded (id : bytes) (finished new_generation : Z)
| OpFailed (id : bytes) (finished : Z) (reason : RecoveryFailureReason).

Definition service_op (s : RecoveryInner) (op : ServiceOp) : RecoveryInner :=
  match op with
  | OpBegin uuid g r now => snd (begin_at uuid g r now s)
  | OpSnapshotSucceeded id path => snd (mark_snapshot_succeeded id path s)
  | OpPhase id ph adm => snd (mark_phase id ph adm s)
  | OpCanary id r => snd (mark_post_recovery_canary id r s)
  | OpSnapshotFailed id reason finished => snd (mark_snapshot_failed id reason finished s)
  | OpSucceeded id finished g => snd (mark_succeeded id finished g s)
  | OpFailed id finished reason => snd (mark_failed id finished reason s)
  end.

Definition finished_job (j : RecoveryJob) : Prop :=
  job_state j ≠ RecoveryState.Running ∧ is_some (finished_at_millis j) = true.

Record service_inv (p : RecoveryPolicy) (s : RecoveryInner) : Prop := {
  inv_policy : service_policy s = service_policy (with_policy p);
  inv_history : length (history s) ≤ Z.max (history_limit p) 1;
  inv_active : ∀ j, active s = Some j →
    job_state j = RecoveryState.Running ∧ finished_at_millis j = None;
  inv_finished : Forall finished_job (history s);
}.

Lemma with_failure_finished j reason t : finished_job (with_failure j reason t).
Proof. by destruct reason. Qed.

Lemma inv_push p s j :
  service_inv p s → finished_job j → service_inv p (push_history s j).
Proof.
  intros [Hp Hh Ha Hf] Hj. split; simpl; try done.
  - rewrite Hp. simpl. rewrite length_drop, length_app. simpl. lia.
  - apply Forall_drop, Forall_app. split; [done|by constructor].
Qed.

Lemma inv_suppress p s uuid g r now reason :
  service_inv p s → service_inv p (snd (suppress uuid g r now reason s)).
Proof. intros H. apply inv_push; [done|]. apply with_failure_finished. Qed.

Lemma inv_update p s id f :
  service_inv p s →
  (∀ j, job_state (f j) = job_state j ∧ finished_at_millis (f j) = finished_at_millis j) →
  service_inv p (snd (update_active id f s)).
Proof.
  intros Hi Hj. unfold update_active. destruct (active s) as [j|] eqn:E; [|done].
  case_match; [done|]. destruct Hi as [Hp Hh Ha Hf]. split; simpl; try done.
  intros j' [= <-]. destruct (Hj j) as [-> ->]. by apply Ha.
Qed.

Lemma inv_finish p s id f :
  service_inv p s → (∀ j, finished_job (f j)) → service_inv p (snd (finish_active id f s)).
Proof.
  intros Hi Hj. unfold finish_active. destruct (active s) as [j|]; [|done].
  case_match; [done|]. apply inv_push; [|done]. by destruct Hi.
Qed.

Lemma inv_service_op p s op : service_inv p s → service_inv p (service_op s op).
Proof.
  intros Hi. destruct op; simpl.
  - unfold begin_at. repeat case_match; try done; try (by apply inv_suppress).
    destruct Hi. split; simpl; try done. by intros j [= <-].
  - by apply inv_update.
  - by apply inv_update.
  - by apply inv_update.
  - apply inv_finish; [done|]. intros. apply with_failure_finished.
  - by apply inv_finish.
  - by apply inv_finish.
Qed.

(** ** Starting a recovery *)

Definition in_cooldown_of (s : RecoveryInner) (now : Z) (j : RecoveryJob) : Prop :=
  is_attempt j = true ∧
  ∃ f, finished_at_millis j = Some f ∧ now < sat_add64 f (cooldown (service_policy s)).

Definition finished_attempt (j : RecoveryJob) : option Z :=
  if is_attempt j then finished_at_millis j else None.

Lemma max_finished_snoc js j :
  max_finished (js ++ [j]) =
    match finished_attempt j, max_finished js with
    | Some f, Some x => Some (Z.max x f)
    | Some f, None => Some f
    | None, m => m
    end.
Proof. unfold max_finished, finished_attempt. by rewrite foldl_app. Qed.

Lemma max_finished_upper js j f :
  j ∈ js → finished_attempt j = Some f → ∃ m, max_finished js = Some m ∧ f ≤ m.
Proof.
  induction js as [|k js IH] using rev_ind; [by intros ?%not_elem_of_nil|].
  rewrite elem_of_app, list_elem_of_singleton, max_finished_snoc. intros [Hj| ->] Hf.
  - destruct (IH Hj Hf) as (m & -> & Hm).
    destruct (finished_attempt k) as [g|]; eexists; (split; [done|]); lia.
  - rewrite Hf. destruct (max_finished js) as [m|]; eexists; (split; [done|]); lia.
Qed.

Lemma max_finished_attained js m :
  max_finished js = Some m → ∃ j, j ∈ js ∧ finished_attempt j = Some m.
Proof.
  revert m. induction js as [|k js IH] using rev_ind; intros m; [done|].
  rewrite max_finished_snoc. setoid_rewrite elem_of_app. setoid_rewrite list_elem_of_singleton.
  destruct (finished_attempt k) as [g|] eqn:Eg, (max_finished js) as [x|] eqn:Ex;
    intros [= <-]; [|naive_solver..].
  destruct (Z.max_spec x g) as [[_ ->]|[_ ->]]; [naive_solver|].
  destruct (IH x eq_refl) as (j & ? & ?). naive_solver.
Qed.

Lemma in_cooldown_iff s now :
  in_cooldown s now = true ↔ ∃ j, j ∈ history s ∧ in_cooldown_of s now j.
Proof.
  unfold in_cooldown, in_cooldown_of. split.
  - destruct (max_finished (history s)) as [m|] eqn:E; simpl; [|done]. intros Hlt. bool_to_prop.
    destruct (max_finished_attained _ _ E) as (j & Hj & Hf). exists j. split; [done|].
    unfold finished_attempt in Hf. case_match; naive_solver.
  - intros (j & Hj & Ha & f & Hf & Hlt).
    destruct (max_finished_upper (history s) j f Hj) as (m & -> & Hm).
    { unfold finished_attempt. by rewrite Ha. }
    simpl. apply Z.ltb_lt. unfold sat_add64 in *. lia.
Qed.

(** ** Properties of the service *)

(** When a recovery starts.  A request creates a recovery job exactly when no
    job is running, its key is not the key of a remembered job, this node is the
    coordinator of a ready layer-parallel cluster, every remembered attempt finished
    at least the cooldown ago, and fewer than the allowed number of remembered
    attempts started within the window; the job created carries the request and
    becomes the running one. *)
Lemma recovery_created_iff uuid g r now s :
  (begin_at uuid g r now s =
     let j := new_job uuid g r now RecoveryState.Running RecoveryPhase.Snapshot in
     (RecoveryStart.Created j, mkRecoveryInner (service_policy s) (Some j) (history s))) ↔
  active s = None ∧
  (∀ j, j ∈ history s → idempotency_key j ≠ request_key r) ∧
  gate_role g = LocalRole.Coordinator ∧
  gate_mode g = StableMode.DistributedLayerParallel ∧
  gate_state g = ClusterState.DistributedReady ∧
  (∀ j, j ∈ history s → ¬ in_cooldown_of s now j) ∧
  attempts_in_window s now < max_attempts (service_policy s).
Proof.
  unfold begin_at. split.
  - destruct (active s); [done|]. case_match eqn:Ef; [done|].
    destruct (gate_failure g) eqn:Eg; [done|].
    destruct (in_cooldown s now) eqn:Ec; [done|].
    case_match; [done|]. intros _. bool_to_prop.
    pose proof (proj1 (find_last_None _ _) Ef) as Hk.
    unfold gate_failure in Eg. repeat case_match; simplify_eq. bool_to_prop.
    split_and!; try done.
    + intros j Hj. specialize (Hk j Hj). by apply bool_decide_eq_false in Hk.
    + intros j Hj Hcd. assert (in_cooldown s now = true) as E'; [|congruence].
      apply in_cooldown_iff. eauto.
  - intros (-> & Hk & H1 & H2 & H3 & Hcd & Hw).
    rewrite (proj2 (find_last_None _ _)).
    2: { intros j Hj. apply bool_decide_eq_false. auto. }
    unfold gate_failure. rewrite H1, H2, H3. simpl.
    destruct (in_cooldown s now) eqn:Ec.
    { apply in_cooldown_iff in Ec as (j & Hj & Hc). by destruct (Hcd j Hj). }
    by destruct (Z.leb_spec (max_attempts (service_policy s)) (attempts_in_window s now)); [lia|].
Qed.

(** One job at a time, a bounded history.  After any sequence of requests and
    progress reports the running job, if any, is in state running and unfinished,
    every remembered job is finished and not running, and the history holds at most
    the configured number of jobs. *)
Lemma recovery_service_invariant p ops s :
  s = foldl service_op (with_policy p) ops →
  length (history s) ≤ Z.max (history_limit p) 1 ∧
  (∀ j, active s = Some j → job_state j = RecoveryState.Running ∧ finished_at_millis j = None) ∧
  Forall finished_job (history s).
Proof.
  intros ->. assert (∀ s0, service_inv p s0 → service_inv p (foldl service_op s0 ops)) as H.
  { induction ops as [|op ops IH]; intros s0 Hi; simpl; [done|]. apply IH. by apply inv_service_op. }
  destruct (H (with_policy p)) as [_ ? ? ?]; [|done]. split; simpl; try done. lia.
Qed.

(** The requests of a busy hour: a recovery that fails at one second, and then
    requests with fresh keys, one per second, all within its cooldown. *)
Definition demo_gate : RecoveryGate :=
  mkRecoveryGate LocalRole.Coordinator StableMode.DistributedLayerParallel
    ClusterState.DistributedReady 7.
Definition demo_request (k : Z) : RecoveryRequest :=
  mkRequest ThroughputDegraded RecoveryTrigger.LowDecodeTps [k].
Definition demo_failed : RecoveryInner :=
  foldl service_op (with_policy policy_default)
    [OpBegin [0] demo_gate (demo_request 0) 0;
     OpFailed [0] 1000 RecoveryFailureReason.CanaryFailed].
Definition demo_begin (k : Z) : ServiceOp :=
  OpBegin [k] demo_gate (demo_request k) (1000 + 1000 * k).

(** Suppressed requests can lift the cooldown.  They share the history of 32
    jobs with the attempts, so under the default policy 32 suppressed requests
    within a minute of a failed attempt evict it, and the next request, still 59
    minutes inside the cooldown, starts a second recovery. *)
Lemma suppressed_requests_evict_attempt :
  let s := foldl service_op demo_failed (demo_begin <$> seqZ 1 32) in
  (∃ j, j ∈ history demo_failed ∧ in_cooldown_of demo_failed 34000 j) ∧
  Forall (fun j => job_state j = RecoveryState.Suppressed) (history s) ∧
  (∃ j, fst (begin_at [33] demo_gate (demo_request 33) 34000 s) = RecoveryStart.Created j).
Proof.
  split_and!.
  - apply in_cooldown_iff. by vm_compute.
  - apply (bool_decide_unpack _). by vm_compute.
  - eexists. by vm_compute.
Qed.

(** ** The calendar *)

(** The Gregorian calendar, as a reference: the day after a date. *)
Definition is_leap (y : Z) : bool :=
  ((y mod 4 =? 0) && negb (y mod 100 =? 0)) || (y mod 400 =? 0).
Definition days_in_month (leap : bool) (m : Z) : Z :=
  if m =? 2 then (if leap then 29 else 28)
  else if (m =? 4) || (m =? 6) || (m =? 9) || (m =? 11) then 30 else 31.
Definition next_day (ymd : Z * Z * Z) : Z * Z * Z :=
  let '(y, m, d) := ymd in
  if d <? days_in_month (is_leap y) m then (y, m, d + 1)
  else if m <? 12 then (y, m + 1, 1) else (y + 1, 1, 1).

(** The days before the March-based year [y] of an era, and the length of it. *)
Definition year_start (y : Z) : Z := 365 * y + y / 4 - y / 100.
Definition year_leap (y : Z) : bool := is_leap (y + 1).
Definition year_length (y : Z) : Z := if year_leap y then 366 else 365.

(** Month, day and calendar-year offset of the day of a March-based year. *)
Definition date_in_year (doy : Z) : Z * Z * Z :=
  let mp := (5 * doy + 2) / 153 in
  let m := mp + (if mp <? 10 then 3 else -9) in
  ((if m <=? 2 then 1 else 0), m, doy - (153 * mp + 2) / 5 + 1).

Definition year_of_era (doe : Z) : Z :=
  (doe - doe / 1460 + doe / 36524 - doe / 146096) / 365.

Lemma year_of_era_mono a b : 0 ≤ a → a ≤ b → b < 146097 → year_of_era a ≤ year_of_era b.
Proof.
  intros Ha Hab Hb. unfold year_of_era. apply Z.div_le_mono; [lia|].
  assert (∀ n : nat, a + n < 146097 →
    a - a / 1460 + a / 36524 - a / 146096 ≤
    (a + n) - (a + n) / 1460 + (a + n) / 36524 - (a + n) / 146096) as H.
  { induction n as [|n IH]; intros Hn; [rewrite Z.add_0_r; lia|].
    etransitivity; [apply IH; lia|].
    replace (a + S n) with ((a + n) + 1) in * by lia. set (x := a + n) in *. assert (0 ≤ x) by lia.
    clearbody x. clear - H Hn.
    assert (x / 36524 ≤ (x + 1) / 36524) by (apply Z.div_le_mono; lia).
    Z.div_mod_to_equations. lia. }
  specialize (H (Z.to_nat (b - a)) ltac:(lia)).
  replace (a + Z.to_nat (b - a)) with b in H by lia. done.
Qed.

(** The first and the last day of each of the 400 years of an era. *)
Definition year_bounds_ok (y : Z) : bool :=
  (year_of_era (year_start y) =? y) &&
  (year_of_era (year_start y + year_length y - 1) =? y) &&
  (if y =? 399 then year_start y + year_length y =? 146097
   else year_start (y + 1) =? year_start y + year_length y).

Lemma year_bounds y : 0 ≤ y < 400 → year_bounds_ok y = true.
Proof.
  intros Hy. assert (forallb year_bounds_ok (seqZ 0 400) = true) as H by by vm_compute.
  rewrite forallb_forall in H. apply H, list_elem_of_In, elem_of_seqZ. lia.
Qed.

(** The day [doy] of year [y]. *)
Lemma year_of_era_in y doy :
  0 ≤ y < 400 → 0 ≤ doy < year_length y → year_of_era (year_start y + doy) = y.
Proof.
  intros Hy Hd. pose proof (year_bounds y Hy) as H. unfold year_bounds_ok in H. bool_to_prop.
  assert (0 ≤ year_start y) by (unfold year_start; Z.div_mod_to_equations; lia).
  assert (year_start y + year_length y ≤ 146097) as Hmax.
  { destruct (y =? 399) eqn:E; bool_to_prop; [lia|].
    unfold year_start, year_length in *. case_match; Z.div_mod_to_equations; lia. }
  apply Z.le_antisymm.
  - etransitivity; [apply (year_of_era_mono _ (year_start y + year_length y - 1)); lia|lia].
  - transitivity (year_of_era (year_start y)); [lia|]. apply year_of_era_mono; lia.
Qed.

Lemma decompose_doe doe :
  0 ≤ doe < 146097 →
  ∃ y doy, 0 ≤ y < 400 ∧ 0 ≤ doy < year_length y ∧ doe = year_start y + doy.
Proof.
  intros H.
  assert (∀ n : nat, n ≤ 400 → doe < (if n =? 400 then 146097 else year_start n) →
    ∃ y doy, 0 ≤ y < 400 ∧ 0 ≤ doy < year_length y ∧ doe = year_start y + doy) as Hall.
  { induction n as [|n IH]; intros Hn Hd.
    - assert (doe < 0) by exact Hd. lia.
    - destruct (Z_lt_ge_dec doe (year_start n)) as [Hlt|Hge].
      + apply IH; [lia|]. destruct (Z.eqb_spec n 400); lia.
      + exists n, (doe - year_start n). split_and!; try lia.
        pose proof (year_bounds n ltac:(lia)) as Hb. unfold year_bounds_ok in Hb. bool_to_prop.
        destruct (Z.eqb_spec n 399), (Z.eqb_spec (S n) 400); bool_to_prop; try lia.
        replace (Z.of_nat n + 1) with (Z.of_nat (S n)) in * by lia. lia. }
  apply (Hall 400%nat); [lia|]. simpl. lia.
Qed.

Lemma year_start_range y : 0 ≤ y < 400 →
  0 ≤ year_start y ∧ year_start y + year_length y ≤ 146097.
Proof.
  intros Hy. pose proof (year_bounds y Hy) as H. unfold year_bounds_ok in H. bool_to_prop.
  split; [unfold year_start; Z.div_mod_to_equations; lia|].
  destruct (y =? 399) eqn:E; bool_to_prop; [lia|].
  unfold year_start, year_length in *. case_match; Z.div_mod_to_equations; lia.
Qed.

Lemma civil_in_year era y doy :
  0 ≤ y < 400 → 0 ≤ doy < year_length y →
  civil_date_from_days (era * 146097 + year_start y + doy - 719468) =
    let '(dy, m, d) := date_in_year doy in (y + era * 400 + dy, m, d).
Proof.
  intros Hy Hd. pose proof (year_start_range y Hy) as [Hs0 Hs1].
  unfold civil_date_from_days. set (x := era * 146097 + year_start y + doy - 719468 + 719468).
  assert ((if 0 <=? x then Z.quot x 146097 else Z.quot (x - 146096) 146097) = era) as ->.
  { transitivity (x / 146097);
      [|symmetry; apply (Z.div_unique x 146097 era (year_start y + doy)); lia].
    clearbody x. destruct (Z.leb_spec 0 x); [by apply Z.quot_div_nonneg|].
    rewrite <- (Z.opp_involutive (x - 146096)), Z.quot_opp_l, Z.quot_div_nonneg by lia.
    Z.div_mod_to_equations. lia. }
  replace (x - era * 146097) with (year_start y + doy) by lia.
  set (doe := year_start y + doy). assert (0 ≤ doe < 146097) by lia.
  assert (Z.quot (doe - Z.quot doe 1460 + Z.quot doe 36524 - Z.quot doe 146096) 365
          = year_of_era doe) as ->.
  { rewrite !(Z.quot_div_nonneg doe) by lia. unfold year_of_era.
    apply Z.quot_div_nonneg; [Z.div_mod_to_equations; lia|lia]. }
  assert (year_of_era doe = y) as -> by by apply year_of_era_in.
  rewrite !(Z.quot_div_nonneg y) by lia.
  replace (doe - (365 * y + y / 4 - y / 100)) with doy by (unfold doe, year_start; lia).
  rewrite (Z.quot_div_nonneg (5 * doy + 2)) by lia. unfold date_in_year.
  assert (0 ≤ (5 * doy + 2) / 153) by (apply Z.div_pos; lia).
  rewrite (Z.quot_div_nonneg (153 * _ + 2)) by lia. done.
Qed.

Definition next_in_year (leap : bool) (r : Z * Z * Z) : Z * Z * Z :=
  let '(dy, m, d) := r in
  if d <? days_in_month leap m then (dy, m, d + 1)
  else if m <? 12 then (dy, m + 1, 1) else (dy + 1, 1, 1).

Definition doy_ok (leap : bool) (doy : Z) : bool :=
  let '(dy, m, d) := date_in_year doy in
  bool_decide (next_in_year leap (date_in_year doy) =
    if doy + 1 <? (if leap then 366 else 365) then date_in_year (doy + 1) else (1, 3, 1)) &&
  ((dy =? 1) || negb (m =? 2)).

Lemma doy_table y doy : 0 ≤ doy < year_length y → doy_ok (year_leap y) doy = true.
Proof.
  assert (forallb (doy_ok true) (seqZ 0 366) = true) as H1 by by vm_compute.
  assert (forallb (doy_ok false) (seqZ 0 365) = true) as H2 by by vm_compute.
  rewrite forallb_forall in H1, H2. unfold year_length. intros Hd.
  destruct (year_leap y); [apply H1|apply H2]; apply list_elem_of_In, elem_of_seqZ; lia.
Qed.

Lemma is_leap_era y era : is_leap (y + era * 400) = is_leap y.
Proof.
  unfold is_leap. rewrite Z.mod_add by lia.
  replace (y + era * 400) with (y + era * 100 * 4) at 1 by lia. rewrite Z.mod_add by lia.
  replace (y + era * 400) with (y + era * 4 * 100) by lia. by rewrite Z.mod_add by lia.
Qed.

Lemma next_day_in_year y era doy :
  0 ≤ doy < year_length y →
  next_day (let '(dy, m, d) := date_in_year doy in (y + era * 400 + dy, m, d)) =
  let '(dy, m, d) := next_in_year (year_leap y) (date_in_year doy) in
  (y + era * 400 + dy, m, d).
Proof.
  intros Hd. pose proof (doy_table y doy Hd) as H. unfold doy_ok in H.
  destruct (date_in_year doy) as [[dy m] d]. bool_to_prop.
  assert (days_in_month (is_leap (y + era * 400 + dy)) m = days_in_month (year_leap y) m) as E.
  { unfold days_in_month. destruct (m =? 2) eqn:Em; [|done]. bool_to_prop.
    destruct (Z.eqb_spec dy 1) as [-> |]; [|simpl in *; bool_to_prop; done].
    unfold year_leap. replace (y + era * 400 + 1) with (y + 1 + era * 400) by lia.
    by rewrite is_leap_era. }
  unfold next_day, next_in_year. rewrite E.
  destruct (d <? _); [done|]. destruct (m <? 12); [done|]. f_equal. f_equal. lia.
Qed.

(** Recovery timestamps carry the right date.  Day 0 is the first of January
    1970, and the date of each next day is the next day of the Gregorian calendar,
    leap years included, for every day number, negative ones too: the era arithmetic
    is the calendar. *)
Lemma civil_date_is_gregorian days :
  civil_date_from_days 0 = (1970, 1, 1) ∧
  civil_date_from_days (days + 1) = next_day (civil_date_from_days days).
Proof.
  split; [by vm_compute|].
  set (era := (days + 719468) / 146097).
  destruct (decompose_doe ((days + 719468) mod 146097)) as (y & doy & Hy & Hd & E);
    [by apply Z.mod_pos_bound|].
  assert (days = era * 146097 + year_start y + doy - 719468) as Hdays.
  { pose proof (Z.div_mod (days + 719468) 146097). subst era. lia. }
  rewrite Hdays, civil_in_year, next_day_in_year by done.
  pose proof (doy_table y doy Hd) as Ht. unfold doy_ok in Ht.
  destruct (date_in_year doy) as [[dy m] d] eqn:Edate. bool_to_prop.
  rename select (next_in_year _ _ = _) into Hn. rewrite Hn. fold (year_length y).
  destruct (Z.ltb_spec (doy + 1) (year_length y)) as [Hlt|Hge].
  - replace (era * 146097 + year_start y + doy - 719468 + 1)
      with (era * 146097 + year_start y + (doy + 1) - 719468) by lia.
    rewrite civil_in_year by lia. done.
  - pose proof (year_bounds y Hy) as Hb. unfold year_bounds_ok in Hb. bool_to_prop.
    destruct (Z.eqb_spec y 399); bool_to_prop.
    + replace (era * 146097 + year_start y + doy - 719468 + 1)
        with ((era + 1) * 146097 + year_start 0 + 0 - 719468)
        by (change (year_start 0) with 0; lia).
      rewrite civil_in_year by (split; vm_compute; done).
      change (date_in_year 0) with (0, 3, 1). f_equal. f_equal. lia.
    + replace (era * 146097 + year_start y + doy - 719468 + 1)
        with (era * 146097 + year_start (y + 1) + 0 - 719468) by lia.
      assert (0 ≤ 0 < year_length (y + 1)) by (unfold year_length; destruct (year_leap (y + 1)); lia).
      rewrite civil_in_year by (done || lia).
      change (date_in_year 0) with (0, 3, 1). f_equal. f_equal. lia.
Qed.

(** ** Witnesses *)

Definition demo_detector : RecoveryDetector := mkDetector detector_policy_default None false 0.
Definition slow_sample : Sample := Observed (Active true 10000 (Some 100) (Some (Finite (49 # 10)))).

Definition slow_samples : list (Z * Sample) :=
  [(0, slow_sample); (30000, slow_sample); (60000, slow_sample)].

Lemma detector_fires_once_per_incident_witness :
  (count_triggers (fst (samples slow_samples demo_detector)) ≤ 1)%nat.
Proof.
  apply (detector_fires_once_per_incident demo_detector slow_samples).
  by vm_compute.
Defined.

Lemma low_tps_must_be_sustained_witness :
  ∃ since, low_run detector_policy_default 0 ([(0, slow_sample)] ++ [(30000, slow_sample)]) since ∧
    30000 ≤ clock 0 ([(0, slow_sample)] ++ [(30000, slow_sample)]) - since.
Proof.
  apply (low_tps_must_be_sustained detector_policy_default demo_detector [(0, slow_sample)] 30000
    (Active true 10000 (Some 100) (Some (Finite (49 # 10))))); by vm_compute.
Defined.

Lemma recovery_service_invariant_witness : length (history demo_failed) ≤ 32.
Proof.
  apply (recovery_service_invariant policy_default
    [OpBegin [0] demo_gate (demo_request 0) 0;
     OpFailed [0] 1000 RecoveryFailureReason.CanaryFailed] demo_failed).
  by vm_compute.
Defined.
