(* ===== verification/Process.v ===== *)
(** * Child processes: [src/src/cluster/process.rs]

    What stands between the runtime and the operating system: the identity of an
    owned process, the check of it before every signal, the stop routines with their
    deadlines, and the slot of a supervised child.  The kernel and the clock are the
    interface [Kernel]: each system call is answered from the calls made before it,
    a sleep lasts at least as long as asked.  The loops have fuel; [None] is fuel
    exhausted, which the theorems exclude. *)

From S2P Require Import Prelude Bytes Auth.

(** ** Data *)

(** src/src/cluster/process.rs:42-48 (ObservedProcess) *)
Record ObservedProcess := mkObserved {
  observed_pid : Z;
  observed_executable : bytes;
  observed_argv : list bytes;
  start_time_micros : Z;
}.

(** src/src/cluster/process.rs:56-62 (ProcessIdentity) *)
Record ProcessIdentity := mkProcessIdentity {
  pid : Z;
  executable : bytes;
  argv_digest : bytes;
  process_start_micros : Z;
}.

(** src/src/cluster/process.rs:122-131 (ChildIdentity) *)
Record ChildIdentity := mkChildIdentity {
  child_process : ProcessIdentity;
  profile_id : bytes;
  child_generation : Z;
  spawned_at_millis : Z;
}.

Module ProcessSignal.

(** src/src/cluster/process.rs:175-179 (ProcessSignal) *)
Inductive ProcessSignal := Terminate | Kill.

End ProcessSignal.
Notation ProcessSignal := ProcessSignal.ProcessSignal.

Module ProcessControlError.

(** src/src/cluster/process.rs:181-207 (ProcessControlError) *)
Inductive ProcessControlError :=
| NotRunning
| IdentityMismatch
| MissingPid
| StopTimeout
| SigkillNotAllowed
| MissingLogPipe
| InvalidLogCapacity
| EarlyExit
| ReadinessTimeout
| DsparkActivationTimeout
| InvalidReadinessTiming
| Io.

End ProcessControlError.
Notation ProcessControlError := ProcessControlError.ProcessControlError.

Global Instance ProcessSignal_eq_dec : EqDecision ProcessSignal.
Proof. solve_decision. Defined.
Global Instance ProcessControlError_eq_dec : EqDecision ProcessControlError.
Proof. solve_decision. Defined.

(** ** Identity *)

(** [u64::to_be_bytes] *)
Definition u64_be (v : Z) : bytes := to_be_bytes (v / 4294967296) ++ to_be_bytes (v mod 4294967296).

(** src/src/cluster/process.rs:793-797 (update_os_string) *)
Definition update_os_string (value : bytes) : bytes := u64_be (length value) ++ value.

(** What [argv_sha256] feeds to the digest. *)
Definition argv_preimage (exe : bytes) (argv : list bytes) : bytes :=
  concat (update_os_string <$> (exe :: argv)).

Section Identity.
Context {crypto : Crypto}.

(** src/src/cluster/process.rs:783-790 (argv_sha256) *)
Definition argv_sha256 (exe : bytes) (argv : list bytes) : bytes :=
  sha256 (argv_preimage exe argv).

(** src/src/cluster/process.rs:65-72 (ProcessIdentity::from_observed) *)
Definition from_observed (o : ObservedProcess) : ProcessIdentity :=
  mkProcessIdentity (observed_pid o) (observed_executable o)
    (argv_sha256 (observed_executable o) (observed_argv o)) (start_time_micros o).

(** src/src/cluster/process.rs:74-79 (ProcessIdentity::matches) *)
Definition identity_matches (self : ProcessIdentity) (o : ObservedProcess) : bool :=
  (pid self =? observed_pid o)
  && bool_decide (executable self = observed_executable o)
  && bool_decide (argv_digest self
                  = argv_sha256 (observed_executable o) (observed_argv o))
  && (process_start_micros self =? start_time_micros o).

End Identity.

(** ** The kernel *)

(** What a start does besides: [Reaped] is the kill of a child by its handle, [Dropped] the
    end of a handle, which kills its child ([kill_on_drop]), [Looked] a look at what the log
    task has handled. *)
Inductive LaunchEvent :=
| Canonicalized (r : result bytes unit)
| Spawned (r : result (option Z) unit)
| Reaped
| Dropped
| HttpAsked (success : bool)
| Looked
| Waited (nanos : Z).

Inductive SysEvent :=
| Launched (e : LaunchEvent)
| TryWaited (r : result bool unit)
| Observed (p : Z) (r : result (option ObservedProcess) unit)
| Signalled (p : Z) (s : ProcessSignal) (r : result unit unit)
| Slept (nanos : Z).

(** The events so far, latest first. *)
Notation syslog := (list SysEvent).

(** [try_wait] is whether the child has exited; [oversleep] how much longer than
    asked a sleep took. *)
Class Kernel := {
  sys_try_wait : syslog → result bool unit;
  sys_observe : syslog → Z → result (option ObservedProcess) unit;
  sys_signal : syslog → Z → ProcessSignal → result unit unit;
  oversleep : syslog → nat;
}.

Record Machine := mkMachine { clock : Z; log : syslog }.

Section Control.
Context {crypto : Crypto} {kernel : Kernel}.

Notation process_method A := (method Machine ProcessControlError A).

Definition emit (e : SysEvent) (m : Machine) : Machine := mkMachine (clock m) (e :: log m).

(** [Instant::now()] *)
Definition now : process_method Z := fun m => (Ok (clock m), m).

(** [tokio::time::sleep(d)] *)
Definition sleep (d : Z) : process_method unit := fun m =>
  (Ok tt, mkMachine (clock m + d + oversleep (log m)) (Slept d :: log m)).

Definition io {A} (r : result A unit) : result A ProcessControlError :=
  map_err (fun _ => ProcessControlError.Io) r.

(** src/src/cluster/process.rs:662-664 (ManagedChild::try_wait) *)
Definition try_wait : process_method bool := fun m =>
  let r := sys_try_wait (log m) in (io r, emit (TryWaited r) m).

(** src/src/cluster/process.rs:161-163 (ProcessInspector) *)
Definition observe (p : Z) : process_method (option ObservedProcess) := fun m =>
  let r := sys_observe (log m) p in (io r, emit (Observed p r) m).

(** src/src/cluster/process.rs:165-173 (ProcessSignaler) *)
Definition signal_process (p : Z) (s : ProcessSignal) : process_method unit := fun m =>
  let r := sys_signal (log m) p s in (io r, emit (Signalled p s r) m).

(** ** The controller *)

(** src/src/cluster/process.rs:357-369 (ProcessController::verify_process) *)
Definition verify_process (identity : ProcessIdentity) : process_method unit :=
  found ← observe (pid identity);
  o ← lift (ok_or found ProcessControlError.NotRunning);
  require (identity_matches identity o) ProcessControlError.IdentityMismatch.

(** src/src/cluster/process.rs:223-234 (ProcessController::verify) *)
Definition verify_child (identity : ChildIdentity) : process_method unit :=
  verify_process (child_process identity).

(** src/src/cluster/process.rs:236-245 (ProcessController::signal_owned) *)
Definition signal_owned (identity : ChildIdentity) (s : ProcessSignal) : process_method unit :=
  verify_child identity;; signal_process (pid (child_process identity)) s.

(** src/src/cluster/process.rs:247-262 (ProcessController::signal_approved_process) *)
Definition signal_approved_process (identity : ProcessIdentity) (s : ProcessSignal)
    : process_method unit :=
  found ← observe (pid identity);
  o ← lift (ok_or found ProcessControlError.NotRunning);
  require (identity_matches identity o) ProcessControlError.IdentityMismatch;;
  signal_process (pid identity) s.

(** [Err(NotRunning)] is [false], the other errors are returned. *)
Definition still_running {A} (m : process_method A) : process_method bool :=
  r ← attempt m;
  match r with
  | Ok _ => mret true
  | Err ProcessControlError.NotRunning => mret false
  | Err e => fail e
  end.

(** One of the two polling loops: [Some true] when the process is gone, [Some false]
    when it is there at the deadline.
    src/src/cluster/process.rs:280-293 (ProcessController::stop_recovered_owned) *)
Fixpoint poll_gone (fuel : nat) (verify : process_method unit) (poll_interval deadline : Z)
    : process_method (option bool) :=
  match fuel with
  | O => mret None
  | S fuel =>
      t ← now;
      sleep (Z.min poll_interval (sat_sub deadline t));;
      there ← still_running verify;
      if negb there then mret (Some true)
      else
        t ← now;
        if t <? deadline then poll_gone fuel verify poll_interval deadline
        else mret (Some false)
  end.

(** The two phases, [Terminate] and [Kill], after the checks and the permission.
    src/src/cluster/process.rs:314-355 (ProcessController::force_stop_approved) *)
Definition stop_in_two_phases (fuel : nat) (verify : process_method unit)
    (signal : ProcessSignal → process_method unit) (timeout poll_interval : Z)
    (allow_sigkill : bool) : process_method (option unit) :=
  require (negb ((timeout =? 0) || (poll_interval =? 0)))
    ProcessControlError.InvalidReadinessTiming;;
  there ← still_running (signal ProcessSignal.Terminate);
  if negb there then mret (Some tt)
  else
    t ← now;
    gone ← poll_gone fuel verify poll_interval (t + timeout);
    match gone with
    | None => mret None
    | Some true => mret (Some tt)
    | Some false =>
        require allow_sigkill ProcessControlError.SigkillNotAllowed;;
        signal ProcessSignal.Kill;;
        t ← now;
        gone ← poll_gone fuel verify poll_interval (t + timeout);
        match gone with
        | None => mret None
        | Some true => mret (Some tt)
        | Some false => fail ProcessControlError.StopTimeout
        end
    end.

(** src/src/cluster/process.rs:264-307 (ProcessController::stop_recovered_owned) *)
Definition stop_recovered_owned (fuel : nat) (identity : ChildIdentity)
    (timeout poll_interval : Z) (allow_sigkill : bool) : process_method (option unit) :=
  stop_in_two_phases fuel (verify_child identity) (signal_owned identity) timeout
    poll_interval allow_sigkill.

(** src/src/cluster/process.rs:314-355 (ProcessController::force_stop_approved) *)
Definition force_stop_approved (fuel : nat) (identity : ProcessIdentity)
    (timeout poll_interval : Z) : process_method (option unit) :=
  stop_in_two_phases fuel (verify_process identity) (signal_approved_process identity)
    timeout poll_interval true.

(** ** The managed child *)

Definition millis (n : Z) : Z := n * 1000000.

(** src/src/cluster/process.rs:21-26 (sigkill_reap_window) *)
Definition sigkill_reap_window (stop_timeout : Z) : Z := Z.min stop_timeout (millis 5000).

(** [Some true] when the child exited, [Some false] at the deadline.
    src/src/cluster/process.rs:723-737 (wait_child_exit_until) *)
Fixpoint wait_child_exit_until (fuel : nat) (deadline : Z) : process_method (option bool) :=
  match fuel with
  | O => mret None
  | S fuel =>
      exited ← try_wait;
      if (exited : bool) then mret (Some true)
      else
        t ← now;
        let remaining := sat_sub deadline t in
        if remaining =? 0 then mret (Some false)
        else sleep (Z.min remaining (millis 50));; wait_child_exit_until fuel deadline
  end.

(** src/src/cluster/process.rs:683-720 (ManagedChild::stop) *)
Definition managed_stop (fuel : nat) (identity : ChildIdentity) (timeout : Z)
    (allow_sigkill : bool) : process_method (option unit) :=
  exited ← try_wait;
  if (exited : bool) then mret (Some tt)
  else
    still_running (signal_owned identity ProcessSignal.Terminate);;
    t ← now;
    exited ← wait_child_exit_until fuel (t + timeout);
    match exited with
    | None => mret None
    | Some true => mret (Some tt)
    | Some false =>
        require allow_sigkill ProcessControlError.SigkillNotAllowed;;
        still_running (signal_owned identity ProcessSignal.Kill);;
        t ← now;
        exited ← wait_child_exit_until fuel (t + sigkill_reap_window timeout);
        match exited with
        | None => mret None
        | Some true => mret (Some tt)
        | Some false => fail ProcessControlError.StopTimeout
        end
    end.

End Control.

(** ** Every signal follows a check of the identity *)

(** In the log, every signal comes right after an observation of its pid that justifies
    it. *)
Definition guarded_by (ok : Z → ProcessSignal → ObservedProcess → Prop) (l : syslog) : Prop :=
  ∀ t1 p s r t2, l = t1 ++ Signalled p s r :: t2 →
    ∃ o t3, t2 = Observed p (Ok (Some o)) :: t3 ∧ ok p s o.

(** The observation matches the identity, and [Kill] is sent only where it is allowed. *)
Definition signal_ok {crypto : Crypto} (identity : ProcessIdentity) (allow_kill : bool)
    (p : Z) (s : ProcessSignal) (o : ObservedProcess) : Prop :=
  p = pid identity ∧ (s = ProcessSignal.Kill → allow_kill = true) ∧ identity_matches identity o = true.

Definition guarded {crypto : Crypto} (identity : ProcessIdentity) (allow_kill : bool)
    (l : syslog) : Prop := guarded_by (signal_ok identity allow_kill) l.

Section Guarded.
Context {crypto : Crypto} {kernel : Kernel} (identity : ProcessIdentity) (allow : bool).
Context (ok : Z → ProcessSignal → ObservedProcess → Prop)
  (signal_ok_ok : ∀ p s o, signal_ok identity allow p s o → ok p s o).

Definition stays_guarded (m m' : Machine) : Prop :=
  guarded_by ok (log m) → guarded_by ok (log m').

Global Instance stays_guarded_preorder : PreOrder stays_guarded.
Proof. split; [by intros ? ?|by intros ? ? ? H1 H2 H; apply H2, H1]. Qed.

Lemma guarded_cons e l :
  guarded_by ok l → (∀ p s r, e ≠ Signalled p s r) → guarded_by ok (e :: l).
Proof.
  intros Hl He t1 p s r t2 Heq. destruct t1 as [|e' t1]; simplify_eq/=; [by destruct (He p s r)|].
  by eapply Hl.
Qed.

Lemma guarded_signal s r o l :
  guarded_by ok l → identity_matches identity o = true →
  (s = ProcessSignal.Kill → allow = true) →
  guarded_by ok (Signalled (pid identity) s r :: Observed (pid identity) (Ok (Some o)) :: l).
Proof.
  intros Hl Ho Hs t1 p s' r' t2 Heq. destruct t1 as [|e' t1]; simplify_eq/=.
  - eexists _, _. split; [done|]. by apply signal_ok_ok.
  - eapply guarded_cons in Hl; [by eapply Hl|done].
Qed.

Lemma keeps_now : keeps stays_guarded now.
Proof. by intros m. Qed.
Lemma keeps_sleep d : keeps stays_guarded (sleep d).
Proof. intros m Hm. by apply guarded_cons. Qed.
Lemma keeps_try_wait : keeps stays_guarded try_wait.
Proof. intros m Hm. by apply guarded_cons. Qed.

Lemma keeps_verify : keeps stays_guarded (verify_process identity).
Proof.
  apply keeps_bind; [apply _|intros m Hm; by apply guarded_cons|].
  intros o. apply keeps_bind; [apply _|by intros m|]. intros. by apply keeps_require; apply _.
Qed.

(** The shape both signalling methods share. *)
Lemma keeps_checked_signal s (signal : method Machine ProcessControlError unit) :
  (s = ProcessSignal.Kill → allow = true) →
  (∀ m, signal m = (verify_process identity;; signal_process (pid identity) s) m) →
  keeps stays_guarded signal.
Proof.
  intros Hs Heq m Hm. rewrite Heq.
  unfold verify_process, observe, signal_process, lift, require, emit, mbind, method_bind.
  simpl. destruct (sys_observe (log m) (pid identity)) as [[o|]|]; simpl;
    [|by apply guarded_cons..].
  destruct (identity_matches identity o) eqn:E; simpl; [by apply guarded_signal|].
  by apply guarded_cons.
Qed.

Lemma keeps_still_running {A} (c : method Machine ProcessControlError A) :
  keeps stays_guarded c → keeps stays_guarded (still_running c).
Proof.
  intros H. apply keeps_bind; [apply _|by apply keeps_attempt|].
  intros [a|[]]; first [apply keeps_ret|apply keeps_fail]; apply _.
Qed.

Lemma keeps_poll_gone fuel verify poll deadline :
  keeps stays_guarded verify → keeps stays_guarded (poll_gone fuel verify poll deadline).
Proof.
  intros Hv. induction fuel as [|fuel IH]; simpl; [apply keeps_ret; apply _|].
  eauto 10 using keeps_now, keeps_sleep, keeps_still_running with rust typeclass_instances.
Qed.

Lemma keeps_wait_exit fuel deadline : keeps stays_guarded (wait_child_exit_until fuel deadline).
Proof.
  induction fuel as [|fuel IH]; simpl; [apply keeps_ret; apply _|].
  eauto 12 using keeps_now, keeps_sleep, keeps_try_wait with rust typeclass_instances.
Qed.

Lemma keeps_two_phases fuel verify (signal : ProcessSignal → method Machine _ unit)
    timeout poll :
  keeps stays_guarded verify → keeps stays_guarded (signal ProcessSignal.Terminate) →
  (allow = true → keeps stays_guarded (signal ProcessSignal.Kill)) →
  keeps stays_guarded (stop_in_two_phases fuel verify signal timeout poll allow).
Proof.
  intros Hv Ht Hk. unfold stop_in_two_phases.
  apply keeps_bind; [apply _|by apply keeps_require; apply _|intros _].
  apply keeps_bind; [apply _|by apply keeps_still_running|intros there].
  apply keeps_if; [apply _|apply keeps_ret; apply _|].
  apply keeps_bind; [apply _|apply keeps_now|intros t].
  apply keeps_bind; [apply _|by apply keeps_poll_gone|intros gone].
  destruct gone as [[]|]; try (apply keeps_ret; apply _).
  destruct allow; [|by intros m].
  apply keeps_bind; [apply _|by apply keeps_require; apply _|intros _].
  apply keeps_bind; [apply _|by apply Hk|intros _].
  apply keeps_bind; [apply _|apply keeps_now|intros t'].
  apply keeps_bind; [apply _|by apply keeps_poll_gone|intros gone].
  destruct gone as [[]|]; first [apply keeps_ret; apply _|apply keeps_fail; apply _].
Qed.
End Guarded.

Section Stop.
Context {crypto : Crypto} {kernel : Kernel}.

Lemma keeps_signal_owned ok allow identity s :
  (∀ p s o, signal_ok (child_process identity) allow p s o → ok p s o) →
  (s = ProcessSignal.Kill → allow = true) →
  keeps (stays_guarded ok) (signal_owned identity s).
Proof. intros Hok Hs. by eapply (keeps_checked_signal (child_process identity) allow _ Hok s). Qed.

Lemma keeps_signal_approved ok allow identity s :
  (∀ p s o, signal_ok identity allow p s o → ok p s o) →
  (s = ProcessSignal.Kill → allow = true) →
  keeps (stays_guarded ok) (signal_approved_process identity s).
Proof.
  intros Hok Hs. apply (keeps_checked_signal identity allow _ Hok s); [done|]. intros m.
  unfold signal_approved_process, verify_process, mbind, method_bind.
  destruct (observe (pid identity) m) as [[o|] m']; [|done].
  unfold lift. by destruct o.
Qed.

Lemma keeps_managed_stop ok fuel identity timeout allow :
  (∀ p s o, signal_ok (child_process identity) allow p s o → ok p s o) →
  keeps (stays_guarded ok) (managed_stop fuel identity timeout allow).
Proof.
  intros Hok. unfold managed_stop.
  apply keeps_bind; [apply _|apply keeps_try_wait|intros exited].
  apply keeps_if; [apply _|apply keeps_ret; apply _|].
  apply keeps_bind; [apply _|by eapply keeps_still_running, keeps_signal_owned|intros _].
  apply keeps_bind; [apply _|apply keeps_now|intros t].
  apply keeps_bind; [apply _|apply keeps_wait_exit|intros e].
  destruct e as [[]|]; try (apply keeps_ret; apply _).
  destruct allow; [|by intros m].
  apply keeps_bind; [apply _|by apply keeps_require; apply _|intros _].
  apply keeps_bind; [apply _|by eapply keeps_still_running, keeps_signal_owned|intros _].
  apply keeps_bind; [apply _|apply keeps_now|intros t'].
  apply keeps_bind; [apply _|apply keeps_wait_exit|intros e].
  destruct e as [[]|]; first [apply keeps_ret; apply _|apply keeps_fail; apply _].
Qed.

Lemma keeps_stop_recovered ok fuel identity timeout poll allow :
  (∀ p s o, signal_ok (child_process identity) allow p s o → ok p s o) →
  keeps (stays_guarded ok) (stop_recovered_owned fuel identity timeout poll allow).
Proof.
  intros Hok. apply (keeps_two_phases (child_process identity) allow ok Hok);
    [apply keeps_verify|by eapply keeps_signal_owned|intros; by eapply keeps_signal_owned].
Qed.

Lemma keeps_force_stop ok fuel identity timeout poll :
  (∀ p s o, signal_ok identity true p s o → ok p s o) →
  keeps (stays_guarded ok) (force_stop_approved fuel identity timeout poll).
Proof.
  intros Hok. apply (keeps_two_phases identity true ok Hok);
    [apply keeps_verify|by eapply keeps_signal_approved|].
  intros _. by eapply keeps_signal_approved.
Qed.


(** ** Deadlines *)

Definition exact_sleep : Prop := ∀ l, oversleep l = 0%nat.

(** The clock only moves forward, and without oversleep not past the deadline. *)
Definition timely (m m' : Machine) (deadline : Z) : Prop :=
  clock m ≤ clock m' ∧ (exact_sleep → clock m' ≤ Z.max (clock m) deadline).

Lemma wp_try_wait (Q : bool → Machine → Prop) (X : ProcessControlError → Machine → Prop) m :
  (∀ b, Q b (emit (TryWaited (Ok b)) m)) →
  (∀ u, X ProcessControlError.Io (emit (TryWaited (Err u)) m)) → wp try_wait Q X m.
Proof. intros HQ HX. unfold wp, try_wait. destruct (sys_try_wait (log m)); simpl; auto. Qed.

Lemma wp_now (Q : Z → Machine → Prop) (X : ProcessControlError → Machine → Prop) m :
  Q (clock m) m → wp now Q X m.
Proof. done. Qed.

Lemma wp_sleep d (Q : unit → Machine → Prop) (X : ProcessControlError → Machine → Prop) m :
  (∀ m', clock m' = clock m + d + oversleep (log m) → Q tt m') → wp (sleep d) Q X m.
Proof. intros H. by apply H. Qed.

(** The clock does not move while a signal is sent. *)
Lemma wp_signal identity s m :
  wp (still_running (signal_owned identity s)) (fun _ m' => clock m' = clock m)
    (fun e m' => clock m' = clock m ∧
       (e = ProcessControlError.IdentityMismatch ∨ e = ProcessControlError.Io)) m.
Proof.
  unfold wp, still_running, signal_owned, verify_child, verify_process, observe,
    signal_process, emit, lift, require, attempt, fail, mbind, method_bind, mret, method_ret.
  destruct (sys_observe (log m) _) as [[o|]|]; simpl; auto.
  destruct (identity_matches _ o); simpl; auto. destruct (sys_signal _ _ _); simpl; auto.
Qed.

Lemma wait_exit_spec fuel : ∀ deadline m,
  (0 < fuel)%nat → deadline - clock m ≤ millis 50 * (fuel - 1) →
  wp (wait_child_exit_until fuel deadline)
    (fun r m' => (∃ b, r = Some b ∧ ∃ l, log m' = TryWaited (Ok b) :: l) ∧ timely m m' deadline)
    (fun e m' => e = ProcessControlError.Io ∧ timely m m' deadline) m.
Proof.
  induction fuel as [|fuel IH]; intros deadline m Hf Hd; [lia|]. simpl.
  apply wp_bind, wp_try_wait; [|intros u; split; [done|split; simpl; lia]].
  intros [|]; [apply wp_ret; split; [by eauto|split; simpl; lia]|].
  apply wp_bind, wp_now. simpl. unfold sat_sub.
  destruct (Z.eqb_spec (Z.max (deadline - clock m) 0) 0) as [Hz|Hz].
  { apply wp_ret. split; [by eauto|split; simpl; lia]. }
  apply wp_bind, wp_sleep. intros m1 Hm1. simpl in *. unfold millis in *.
  eapply wp_mono; [apply IH; unfold millis; lia|..].
  - intros r m' [Hr [H1 H2]]. split; [done|]. split; [lia|].
    intros Hs. rewrite (Hs (TryWaited (Ok false) :: log m)) in Hm1. specialize (H2 Hs). lia.
  - intros e m' [He [H1 H2]]. split; [done|]. split; [lia|].
    intros Hs. rewrite (Hs (TryWaited (Ok false) :: log m)) in Hm1. specialize (H2 Hs). lia.
Qed.

Ltac clock_bound :=
  simpl; split; [lia|]; let Hs := fresh "Hs" in intros Hs;
  repeat match goal with H : exact_sleep → _ |- _ => specialize (H Hs) end; lia.

(** The bound of the whole stop. *)
Definition stop_bound (timeout : Z) : Z := timeout + sigkill_reap_window timeout.

(** The stop returns in time, and [Ok] only with the exit collected. *)
Lemma managed_stop_wp (fuel : nat) identity timeout allow m :
  0 ≤ timeout → timeout ≤ millis 50 * (fuel - 1) → (0 < fuel)%nat →
  let late := fun m' : Machine =>
    clock m ≤ clock m' ∧ (exact_sleep → clock m' ≤ clock m + stop_bound timeout) in
  wp (managed_stop fuel identity timeout allow)
    (fun r m' => (r = Some tt ∧ ∃ l, log m' = TryWaited (Ok true) :: l) ∧ late m')
    (fun e m' => (e = ProcessControlError.IdentityMismatch ∨ e = ProcessControlError.Io ∨
             (e = ProcessControlError.SigkillNotAllowed ∧ allow = false) ∨
             (e = ProcessControlError.StopTimeout ∧ allow = true)) ∧ late m') m.
Proof.
  intros Ht Hfuel Hf late.
  unfold managed_stop, late, stop_bound, sigkill_reap_window, timely, millis in *.
  apply wp_bind, wp_try_wait; [|intros u; split; [by auto|clock_bound]].
  intros [|]; [apply wp_ret; split; [by eauto|clock_bound]|].
  apply wp_bind. eapply wp_mono; [apply wp_signal| |]; simpl.
  2: { intros e m1 [Hm1 He]. split; [naive_solver|clock_bound]. }
  intros _ m1 Hm1. apply wp_bind, wp_now, wp_bind.
  eapply wp_mono; [apply wait_exit_spec; unfold millis; lia| |]; unfold timely.
  2: { intros e m2 [-> [H1 H2]]. split; [by auto|clock_bound]. }
  intros r m2 [(b & -> & Hl) [H1 H2]].
  destruct b; [apply wp_ret; split; [by eauto|clock_bound]|].
  apply wp_bind, wp_require; intros Ha; [|split; [by auto|clock_bound]].
  apply wp_bind. eapply wp_mono; [apply wp_signal| |]; simpl.
  2: { intros e m3 [H3 He]. split; [naive_solver|clock_bound]. }
  intros _ m3 Hm3. apply wp_bind, wp_now, wp_bind.
  eapply wp_mono; [apply wait_exit_spec; unfold millis; lia| |]; unfold timely.
  2: { intros e m4 [-> [H3 H4]]. split; [by auto|clock_bound]. }
  intros r m4 [(b & -> & Hl4) [H3 H4]].
  destruct b; [apply wp_ret|apply wp_fail]; (split; [by eauto 6|clock_bound]).
Qed.

(** C36: a stop ends in time and says what happened.  With fuel for one poll every
    50 ms of the longer window, [ManagedChild::stop] always returns; when it returns
    [Ok] the last thing it did was to collect the exit status of the child, and its
    errors are the four that the code can give, [SigkillNotAllowed] only where
    [SIGKILL] is not allowed.  If sleeps are exact it takes at most the stop timeout
    plus the reaping window of at most five seconds. *)
Theorem managed_stop_correct (fuel : nat) identity timeout allow m :
  0 ≤ timeout → timeout ≤ millis 50 * (fuel - 1) → (0 < fuel)%nat →
  let '(r, m') := managed_stop fuel identity timeout allow m in
  match r with
  | Ok stopped => stopped = Some tt ∧ ∃ l, log m' = TryWaited (Ok true) :: l
  | Err e => e = ProcessControlError.IdentityMismatch ∨ e = ProcessControlError.Io ∨
             (e = ProcessControlError.SigkillNotAllowed ∧ allow = false) ∨
             (e = ProcessControlError.StopTimeout ∧ allow = true)
  end ∧
  clock m ≤ clock m' ∧ (exact_sleep → clock m' ≤ clock m + stop_bound timeout).
Proof.
  intros Ht Hfuel Hf. pose proof (managed_stop_wp fuel identity timeout allow m Ht Hfuel Hf) as H.
  unfold wp in H. destruct (managed_stop fuel identity timeout allow m) as [[] ?]; naive_solver.
Qed.

End Stop.

(** ** A process that is gone *)

Section Gone.
Context {crypto : Crypto} {kernel : Kernel}.

(** The latest observation found no process under the pid. *)
Definition gone (p : Z) (m : Machine) : Prop := ∃ t, log m = Observed p (Ok None) :: t.

Definition not_running_means (p : Z) (e : ProcessControlError) (m : Machine) : Prop :=
  e = ProcessControlError.NotRunning → gone p m.

Lemma wp_verify identity m :
  wp (verify_process identity) (fun _ _ => True) (not_running_means (pid identity)) m.
Proof.
  unfold verify_process. apply wp_bind. unfold wp, observe.
  destruct (sys_observe (log m) (pid identity)) as [[o|]|] eqn:E; simpl.
  - unfold wp, mbind, method_bind, lift, require. simpl.
    by destruct (identity_matches identity o).
  - intros _. exists (log m). done.
  - done.
Qed.

Lemma wp_signal_owned identity s m :
  wp (signal_owned identity s) (fun _ _ => True)
    (not_running_means (pid (child_process identity))) m.
Proof.
  unfold signal_owned, verify_child. apply wp_bind. wp_use wp_verify; [intros _ m' _|done].
  unfold wp, signal_process. by destruct (sys_signal _ _ _).
Qed.

Lemma wp_still_running p (act : method Machine ProcessControlError unit) m :
  (∀ m, wp act (fun _ _ => True) (not_running_means p) m) →
  wp (still_running act) (fun there m' => there = false → gone p m') (not_running_means p) m.
Proof.
  intros Hact. unfold still_running. apply wp_bind, wp_attempt. wp_use Hact.
  - intros _ m' _. by apply wp_ret.
  - intros e m' He. destruct e; first [solve [apply wp_fail; exact He]|apply wp_ret; auto].
Qed.

Lemma wp_poll_gone fuel p verify poll deadline : ∀ m,
  (∀ m, wp verify (fun _ _ => True) (not_running_means p) m) →
  wp (poll_gone fuel verify poll deadline)
    (fun r m' => r = Some true → gone p m') (not_running_means p) m.
Proof.
  induction fuel as [|fuel IH]; intros m Hv; simpl; [by apply wp_ret|].
  apply wp_bind. unfold wp at 1. simpl. apply wp_bind. unfold wp at 1. simpl.
  apply wp_bind. wp_use wp_still_running; [exact Hv| |done].
  intros [] m' Hthere; simpl; [|by apply wp_ret; auto].
  apply wp_bind. unfold wp at 1. simpl. case_match; [by apply IH|by apply wp_ret].
Qed.

Lemma wp_signal_approved identity s m :
  wp (signal_approved_process identity s) (fun _ _ => True) (not_running_means (pid identity)) m.
Proof.
  unfold signal_approved_process, wp, observe, signal_process, lift, require, mbind, method_bind.
  destruct (sys_observe (log m) (pid identity)) as [[o|]|] eqn:E; simpl; [| |done].
  - destruct (identity_matches identity o); simpl; [|done]. by destruct (sys_signal _ _ _).
  - intros _. by exists (log m).
Qed.

Lemma wp_two_phases fuel p verify (signal : ProcessSignal → method Machine _ unit) timeout poll
    allow m :
  (∀ m, wp verify (fun _ _ => True) (not_running_means p) m) →
  (∀ s m, wp (signal s) (fun _ _ => True) (not_running_means p) m) →
  wp (stop_in_two_phases fuel verify signal timeout poll allow)
    (fun r m' => r = Some tt → gone p m') (not_running_means p) m.
Proof.
  intros Hv Hs. unfold stop_in_two_phases.
  apply wp_bind, wp_require; intros _; [|done].
  apply wp_bind. wp_use (wp_still_running p); [apply Hs| |done].
  intros [] m1 Hgone1; simpl; [|by apply wp_ret; auto].
  apply wp_bind. unfold wp at 1. simpl.
  apply wp_bind. wp_use (wp_poll_gone fuel p); [exact Hv| |done].
  intros [[]|] m2 Hgone2; [by apply wp_ret; auto| |by apply wp_ret].
  apply wp_bind, wp_require; intros _; [|done].
  apply wp_bind. wp_use Hs; [|done]. intros _ m3 _.
  apply wp_bind. unfold wp at 1. simpl.
  apply wp_bind. wp_use (wp_poll_gone fuel p); [exact Hv| |done].
  intros [[]|] m4 Hgone4; [by apply wp_ret; auto|by apply wp_fail|by apply wp_ret].
Qed.

Lemma wp_stop_recovered fuel identity timeout poll allow m :
  wp (stop_recovered_owned fuel identity timeout poll allow)
    (fun r m' => r = Some tt → gone (pid (child_process identity)) m')
    (not_running_means (pid (child_process identity))) m.
Proof. apply wp_two_phases; intros; [apply wp_verify|apply wp_signal_owned]. Qed.

Lemma wp_force_stop fuel identity timeout poll m :
  wp (force_stop_approved fuel identity timeout poll)
    (fun r m' => r = Some tt → gone (pid identity) m') (not_running_means (pid identity)) m.
Proof. apply wp_two_phases; intros; [apply wp_verify|apply wp_signal_approved]. Qed.

(** ** The loops end *)

Definition same_clock (m m' : Machine) : Prop := clock m' = clock m.

Lemma verify_clock identity : keeps same_clock (verify_process identity).
Proof.
  intros m. unfold verify_process, observe, same_clock. unfold_method.
  destruct (sys_observe _ _) as [[o|]|]; simpl; [|done..]. by destruct (identity_matches _ _).
Qed.

Lemma still_running_clock (act : method Machine ProcessControlError unit) m :
  keeps same_clock act → clock (snd (still_running act m)) = clock m.
Proof.
  intros Hact. specialize (Hact m). unfold still_running, attempt, mbind, method_bind.
  destruct (act m) as [[|[]] m']; exact Hact.
Qed.

(** Each round sleeps for the poll interval or to the deadline. *)
Lemma poll_gone_ends verify poll deadline : ∀ (fuel : nat) m,
  keeps same_clock verify → 0 < poll → deadline - clock m ≤ fuel * poll →
  fst (poll_gone (S fuel) verify poll deadline m) ≠ Ok None.
Proof.
  intros fuel. induction fuel as [|fuel IH]; intros m Hv Hp Hd.
  all: cbn [poll_gone]; unfold mbind, method_bind, now at 1, sleep; simpl.
  all: set (m1 := mkMachine _ _).
  all: pose proof (still_running_clock verify m1 Hv) as Hc.
  all: destruct (still_running verify m1) as [[[]|e] m2]; simpl in *; [|done|done].
  all: assert (clock m + Z.min poll (sat_sub deadline (clock m)) ≤ clock m2)
    by (rewrite Hc; subst m1; simpl; lia); unfold sat_sub in *.
  - rewrite (proj2 (Z.ltb_ge _ _)) by lia. done.
  - destruct (clock m2 <? deadline) eqn:Hlt; [|done]. bool_to_prop. apply IH; [done..|]. lia.
Qed.

Lemma two_phases_ends (fuel : nat) verify (signal : ProcessSignal → method Machine _ unit)
    timeout poll allow m :
  keeps same_clock verify → 0 ≤ timeout → 0 ≤ poll → timeout ≤ fuel * poll →
  fst (stop_in_two_phases (S fuel) verify signal timeout poll allow m) ≠ Ok None.
Proof.
  intros Hv Ht Hp Hf. unfold stop_in_two_phases.
  destruct (_ || _) eqn:Hz; [by unfold_method|]. bool_to_prop.
  unfold mbind at 1, method_bind, require at 1, mret at 1, method_ret. cbn [negb].
  unfold mbind at 1, method_bind. destruct (still_running _ m) as [[[]|e] m1]; cbn [negb]; [|done..].
  assert (Hpoll : ∀ m, fst (poll_gone (S fuel) verify poll (clock m + timeout) m)
    ≠ Ok None) by (intros m'; apply poll_gone_ends; [done|lia|lia]).
  unfold mbind at 1, method_bind, now at 1. unfold mbind at 1, method_bind.
  pose proof (Hpoll m1) as H1.
  destruct (poll_gone _ _ _ _ m1) as [[[[]|]|e] m2]; cbn [fst] in H1; [done| |done|done].
  unfold mbind at 1, method_bind, require. destruct allow; [|done].
  unfold mret at 1, method_ret, mbind at 1, method_bind.
  destruct (signal _ m2) as [[[]|e] m3]; [|done].
  unfold mbind at 1, method_bind, now. unfold mbind, method_bind. pose proof (Hpoll m3) as H3.
  by destruct (poll_gone _ _ _ _ m3) as [[[[]|]|e] m4].
Qed.

Lemma stop_recovered_ends (fuel : nat) identity timeout poll allow m :
  0 ≤ timeout → 0 ≤ poll → timeout ≤ fuel * poll →
  fst (stop_recovered_owned (S fuel) identity timeout poll allow m) ≠ Ok None.
Proof. apply two_phases_ends, verify_clock. Qed.

Lemma force_stop_ends (fuel : nat) identity timeout poll m :
  0 ≤ timeout → 0 ≤ poll → timeout ≤ fuel * poll →
  fst (force_stop_approved (S fuel) identity timeout poll m) ≠ Ok None.
Proof. apply two_phases_ends, verify_clock. Qed.

End Gone.

(** ** The identity of a process *)

Lemma u64_be_length v : length (u64_be v) = 8%nat.
Proof. done. Qed.

Lemma u64_be_inj v w : is_u64 v → is_u64 w → u64_be v = u64_be w → v = w.
Proof.
  unfold is_u64, u64_max, u64_be. intros Hv Hw Heq.
  apply app_inj_1 in Heq as [H1 H2]; [|done].
  apply (f_equal from_be_bytes) in H1, H2.
  pose proof (Z.div_mod v 4294967296). pose proof (Z.div_mod w 4294967296).
  rewrite !from_to_be_bytes in H1, H2; [lia|..]; unfold is_u32, u32_max;
    first [pose proof (Z.mod_pos_bound v 4294967296); pose proof (Z.mod_pos_bound w 4294967296);
           lia|split; [apply Z.div_pos; lia|]; enough (v / 4294967296 < 4294967296 ∧
             w / 4294967296 < 4294967296) by lia; split; apply Z.div_lt_upper_bound; lia].
Qed.

Lemma os_strings_inj l1 : ∀ l2,
  Forall (fun s : bytes => is_u64 (length s)) l1 →
  Forall (fun s : bytes => is_u64 (length s)) l2 →
  concat (update_os_string <$> l1) = concat (update_os_string <$> l2) → l1 = l2.
Proof.
  induction l1 as [|s1 l1 IH]; intros [|s2 l2] H1 H2 Heq; [done|done|done|].
  apply Forall_cons in H1 as [Hs1 H1]. apply Forall_cons in H2 as [Hs2 H2].
  rewrite !fmap_cons in Heq. rewrite !concat_cons in Heq.
  change (update_os_string ?s) with (u64_be (length s) ++ s) in Heq.
  rewrite <- !(assoc_L (++)) in Heq. apply app_inj_1 in Heq as [Hlen Heq]; [|done].
  apply u64_be_inj in Hlen; [|done..]. apply app_inj_1 in Heq as [-> Heq]; [|lia].
  f_equal. by apply IH.
Qed.

(** Two processes that match one identity have the same pid, executable, start time
    and arguments, unless the digest collides on their encodings. *)
Lemma identity_pins_process {crypto : Crypto} identity o1 o2 :
  identity_matches identity o1 = true → identity_matches identity o2 = true →
  Forall (fun s : bytes => is_u64 (length s)) (observed_executable o1 :: observed_argv o1) →
  Forall (fun s : bytes => is_u64 (length s)) (observed_executable o2 :: observed_argv o2) →
  o1 = o2 ∨
  let p1 := argv_preimage (observed_executable o1) (observed_argv o1) in
  let p2 := argv_preimage (observed_executable o2) (observed_argv o2) in
  p1 ≠ p2 ∧ sha256 p1 = sha256 p2.
Proof.
  unfold identity_matches, argv_sha256. intros H1 H2 Hl1 Hl2. bool_to_prop.
  destruct (decide (argv_preimage (observed_executable o1) (observed_argv o1) =
    argv_preimage (observed_executable o2) (observed_argv o2))) as [Heq|]; [|right; split; congruence].
  left. apply os_strings_inj in Heq; [|done..]. destruct o1, o2; simpl in *; naive_solver congruence.
Qed.

(** ** The slot of a supervised child *)

(** src/src/cluster/process.rs:455-457 (SupervisedSlot) *)
Record SupervisedSlot := mkSlot { slot_child : option ChildIdentity; machine : Machine }.

Section Slot.
Context {crypto : Crypto} {kernel : Kernel}.

Notation slot_method A := (method SupervisedSlot ProcessControlError A).

Definition with_machine {A} (m : method Machine ProcessControlError A) : slot_method A :=
  on_field machine (fun x s => mkSlot (slot_child s) x) m.

(** src/src/cluster/process.rs:474-480 (SupervisedSlot::is_running) *)
Definition slot_is_running : slot_method bool :=
  s ← self;
  match slot_child s with
  | None => mret false
  | Some _ => exited ← with_machine try_wait; mret (negb exited)
  end.

(** [None] is the fuel of the stop exhausted.
    src/src/cluster/process.rs:482-498 (SupervisedSlot::stop) *)
Definition slot_stop (fuel : nat) (stop_timeout : Z) (allow_sigkill : bool)
    : slot_method (option unit) :=
  s ← self;
  match slot_child s with
  | None => mret (Some tt)
  | Some current =>
      modify (fun s => mkSlot None (machine s));;
      r ← attempt (with_machine (managed_stop fuel current stop_timeout allow_sigkill));
      match r with
      | Ok stopped => mret stopped
      | Err error => modify (fun s => mkSlot (Some current) (machine s));; fail error
      end
  end.

(** [false] is [Ok(None)]: a child is running and nothing is to be started.
    src/src/cluster/process.rs:502-515 (SupervisedSlot::begin_start) *)
Definition begin_start : slot_method bool :=
  s ← self;
  running ← (match slot_child s with
             | Some _ => exited ← with_machine try_wait; mret (negb exited)
             | None => mret false
             end);
  if (running : bool) then mret false
  else modify (fun s => mkSlot None (machine s));; mret true.

(** A stop that returns [Ok] leaves the slot empty, one that fails leaves the child in
    it; an empty slot is stopped without a system call. *)
Lemma slot_stop_spec fuel timeout allow s r s' :
  slot_stop fuel timeout allow s = (r, s') →
  match r with
  | Ok _ => slot_child s' = None
  | Err _ => slot_child s' = slot_child s ∧ slot_child s ≠ None
  end ∧
  (slot_child s = None → r = Ok (Some tt) ∧ s' = s).
Proof.
  unfold slot_stop, with_machine, on_field, attempt, modify, fail, self, mbind, method_bind,
    mret, method_ret.
  destruct (slot_child s) as [c|] eqn:Hc; simpl; [|by intros [= <- <-]].
  destruct (managed_stop fuel c timeout allow (machine s)) as [[d|e] m]; simpl;
    by intros [= <- <-].
Qed.

(** A start replaces a child only after its exit was seen. *)
Lemma begin_start_spec s b s' :
  begin_start s = (Ok b, s') →
  if b then slot_child s' = None ∧
            (slot_child s = None ∨ ∃ l, log (machine s') = TryWaited (Ok true) :: l)
  else slot_child s' = slot_child s ∧ ∃ l, log (machine s') = TryWaited (Ok false) :: l.
Proof.
  unfold begin_start, with_machine, on_field, modify, self, mbind, method_bind, mret,
    method_ret, try_wait, emit.
  destruct (slot_child s) as [c|] eqn:Hc; simpl; [|by intros [= <- <-]; auto].
  destruct (sys_try_wait (log (machine s))) as [[]|]; simpl; intros [= <- <-]; simpl; eauto.
Qed.

End Slot.

(** ** Concrete runs *)

Definition demo_process : ObservedProcess :=
  mkObserved 4242 (str "/opt/ds4/ds4-server") [str "--port"; str "8080"] 77.
Definition demo_identity : ChildIdentity :=
  mkChildIdentity (from_observed (crypto:=toy_crypto) demo_process) (str "standalone") 3 1000.

Definition is_kill (e : SysEvent) : bool :=
  match e with Signalled _ ProcessSignal.Kill _ => true | _ => false end.

(** A child that ignores [SIGTERM]; sleeps are exact. *)
Definition stubborn : Kernel := {|
  sys_try_wait l := Ok (existsb is_kill l);
  sys_observe _ p := Ok (if p =? 4242 then Some demo_process else None);
  sys_signal _ _ _ := Ok tt;
  oversleep _ := 0%nat;
|}.

Definition boot : Machine := mkMachine 0 [].
Definition stubborn_stop (allow : bool) :=
  managed_stop (crypto:=toy_crypto) (kernel:=stubborn) 3 demo_identity (millis 100) allow boot.


Lemma managed_stop_correct_witness :
  fst (stubborn_stop true) = Ok (Some tt) ∧
  clock (snd (stubborn_stop true)) = millis 100 ∧
  let '(r, m') := stubborn_stop true in
  match r with
  | Ok stopped => stopped = Some tt ∧ ∃ l, log m' = TryWaited (Ok true) :: l
  | Err e => e = ProcessControlError.IdentityMismatch ∨ e = ProcessControlError.Io ∨
             (e = ProcessControlError.SigkillNotAllowed ∧ true = false) ∨
             (e = ProcessControlError.StopTimeout ∧ true = true)
  end ∧
  clock boot ≤ clock m' ∧
  (exact_sleep (kernel:=stubborn) → clock m' ≤ clock boot + stop_bound (millis 100)).
Proof.
  split; [by vm_compute|]. split; [by vm_compute|].
  apply (managed_stop_correct (crypto:=toy_crypto) (kernel:=stubborn) 3 demo_identity
    (millis 100) true boot); unfold millis; lia.
Defined.
