(* ===== verification/Runtime.v ===== *)
(** * Lifecycle runtimes: [src/src/cluster/coordinator.rs], [runtime.rs], [worker.rs]

    The operations that change the mode of a node: they drive the state machine of
    [ClusterFsm], the gate of [Admission] and the target of the proxy, and call the
    supervised children and the peer.  The children, the peer, the lease and the
    clock-bound waits are trait objects in the code; here they are one interface,
    [Environment], that answers each call from the calls made before it.  An
    operation is a [method] on the [World] of the node: what an error path changed
    before it failed stays changed.  Two futures of one [tokio::join!] are both run
    to their end, the first one first. *)

From S2P Require Import Prelude Target Operation Tp Admission ClusterFsm Promotion.

(** ** The environment *)

(** The two processes a node supervises. *)
Inductive Child := Standalone | Distributed.

(** The calls that leave the node's own state: the trait methods of
    [LocalStandaloneLifecycle], [DistributedCoordinatorLifecycle],
    [DistributedWorkerLifecycle], [CoordinatorPeerLifecycle] and
    [CoordinatorLeaseStatus], the presence of the peer, control messages to it, and
    the wait of the admission drain.
    src/src/cluster/coordinator.rs:15-45 (DistributedCoordinatorLifecycle) *)
Inductive Call :=
| Start (c : Child) (generation : Z)
| Stop (c : Child)
| IsRunning (c : Child)
| WaitReady
| PeerBeginDrain (generation : Z)
| PeerStopWorker (generation : Z)
| LeaseIsValid
| PeerPresent
| WaitRouteLoss
| SendControl
| WaitForZero (generation : Z).

(** [Success] is [Ok(())], [Ok(true)] or [true]; [Refused] is [Ok(false)] or [false];
    [Failure] is [Err]; [Expired] is the end of the [timeout] around the call. *)
Inductive Outcome := Success | Refused | Failure | Expired.

Global Instance Child_eq_dec : EqDecision Child.
Proof. solve_decision. Defined.
Global Instance Outcome_eq_dec : EqDecision Outcome.
Proof. solve_decision. Defined.

(** Latest call first. *)
Notation trace := (list (Call * Outcome)).

Class Environment := answer : trace → Call → Outcome.

(** ** State *)

Record World := mkWorld {
  cluster : ClusterSnapshot;
  gate : Inner;
  proxy_target : ProxyTarget * bool;
  failures : PromotionFailureTracker;
  completed_generation : Z;
  automatic_pairing_blocked : bool;
  planned_restart_active : bool;
  calls : trace;
}.

(** Field update. *)
Definition with_cluster (s : ClusterSnapshot) (w : World) : World :=
  mkWorld s (gate w) (proxy_target w) (failures w) (completed_generation w)
    (automatic_pairing_blocked w) (planned_restart_active w) (calls w).
Definition with_gate (f : Inner → Inner) (w : World) : World :=
  mkWorld (cluster w) (f (gate w)) (proxy_target w) (failures w) (completed_generation w)
    (automatic_pairing_blocked w) (planned_restart_active w) (calls w).
Definition with_target (t : ProxyTarget) (ready : bool) (w : World) : World :=
  mkWorld (cluster w) (gate w) (t, ready) (failures w) (completed_generation w)
    (automatic_pairing_blocked w) (planned_restart_active w) (calls w).
Definition with_failures (f : PromotionFailureTracker) (w : World) : World :=
  mkWorld (cluster w) (gate w) (proxy_target w) f (completed_generation w)
    (automatic_pairing_blocked w) (planned_restart_active w) (calls w).
Definition with_completed (g : Z) (w : World) : World :=
  mkWorld (cluster w) (gate w) (proxy_target w) (failures w) g
    (automatic_pairing_blocked w) (planned_restart_active w) (calls w).
Definition with_pairing_blocked (b : bool) (w : World) : World :=
  mkWorld (cluster w) (gate w) (proxy_target w) (failures w) (completed_generation w)
    b (planned_restart_active w) (calls w).
Definition with_call (c : Call) (o : Outcome) (w : World) : World :=
  mkWorld (cluster w) (gate w) (proxy_target w) (failures w) (completed_generation w)
    (automatic_pairing_blocked w) (planned_restart_active w) ((c, o) :: calls w).

(** ** Errors

    The [anyhow] payloads are dropped. *)

Module CoordinatorLifecycleError.

(** src/src/cluster/coordinator.rs:56-82 (CoordinatorLifecycleError) *)
Inductive CoordinatorLifecycleError :=
| Transition (e : TransitionError)
| Drain (e : DrainError)
| Standalone
| Coordinator
| Peer
| StartupTimeout
| CompleteRouteTimeout
| Recovery
| InvalidTiming
| PromotionTracker (e : PromotionTrackerError)
| PrerequisiteMissing
| LeaseLost.

End CoordinatorLifecycleError.
Notation CoordinatorLifecycleError := CoordinatorLifecycleError.CoordinatorLifecycleError.

Module RuntimeError.

(** src/src/cluster/runtime.rs:49-57 (RuntimeError) *)
Inductive RuntimeError :=
| Transition (e : TransitionError)
| Drain (e : DrainError)
| LocalLifecycle.

End RuntimeError.
Notation RuntimeError := RuntimeError.RuntimeError.

Module WorkerLifecycleError.

(** src/src/cluster/worker.rs:177-199 (WorkerLifecycleError) *)
Inductive WorkerLifecycleError :=
| InvalidTiming
| Drain (e : DrainError)
| Standalone
| Worker
| StartupTimeout
| EarlyExit
| LeaseLost
| Cleanup (cause : WorkerLifecycleError).

End WorkerLifecycleError.
Notation WorkerLifecycleError := WorkerLifecycleError.WorkerLifecycleError.

(** src/src/cluster/worker.rs:201-215 (WorkerLifecycleError::cluster_failure) *)
Definition cluster_failure (self : WorkerLifecycleError) : ClusterFailure :=
  match self with
  | WorkerLifecycleError.StartupTimeout | WorkerLifecycleError.EarlyExit =>
      ClusterFailure.HelloTimeout
  | WorkerLifecycleError.LeaseLost => ClusterFailure.PeerLeaseLost
  | WorkerLifecycleError.Drain _ => ClusterFailure.DrainTimeout
  | WorkerLifecycleError.Standalone | WorkerLifecycleError.Worker
  | WorkerLifecycleError.Cleanup _ => ClusterFailure.ChildIdentityUnknown
  | WorkerLifecycleError.InvalidTiming => ClusterFailure.StateCorrupt false
  end.

(** src/src/cluster/coordinator.rs:672-679 (promotion_failure_for_error) *)
Definition promotion_failure_for_error (e : CoordinatorLifecycleError)
    : option ClusterFailure :=
  match e with
  | CoordinatorLifecycleError.StartupTimeout =>
      Some ClusterFailure.CoordinatorStartupTimeout
  | _ => None
  end.

(** ** Construction *)

(** src/src/cluster/coordinator.rs:98-104 (CoordinatorRuntimeTimeouts) *)
Record CoordinatorRuntimeTimeouts := mkTimeouts {
  drain_nanos : Z;
  startup_nanos : Z;
  complete_route_nanos : Z;
  route_loss_grace_nanos : Z;
}.

(** The tracker of the new runtime; its other fields are the arguments.
    src/src/cluster/coordinator.rs:113-144 (CoordinatorDistributedRuntime::new) *)
Definition coordinator_runtime_new (timeouts : CoordinatorRuntimeTimeouts)
    (backoff maximum_consecutive_failures : Z)
    : result PromotionFailureTracker CoordinatorLifecycleError :=
  if (drain_nanos timeouts =? 0) || (startup_nanos timeouts =? 0)
     || (complete_route_nanos timeouts =? 0) || (route_loss_grace_nanos timeouts =? 0)
  then Err CoordinatorLifecycleError.InvalidTiming
  else map_err CoordinatorLifecycleError.PromotionTracker
         (tracker_new backoff maximum_consecutive_failures).

(** src/src/cluster/worker.rs:228-247 (WorkerDistributedRuntime::new) *)
Definition worker_runtime_new (drain_timeout startup_timeout poll_interval : Z)
    : result unit WorkerLifecycleError :=
  if (drain_timeout =? 0) || (startup_timeout =? 0) || (poll_interval =? 0)
  then Err WorkerLifecycleError.InvalidTiming
  else Ok tt.

(** ** Primitive steps *)

Section Runtime.
Context `{env : Environment}.

Definition call {E} (c : Call) : method World E Outcome := fun w =>
  let o := answer (calls w) c in (Ok o, with_call c o w).

(** [c.await.map_err(|_| e)?] *)
Definition perform {E} (c : Call) (e : E) : method World E unit :=
  o ← call c; require (bool_decide (o = Success)) e.

(** [if !lease.is_valid() { return Err(e) }] *)
Definition check_lease {E} (e : E) : method World E unit := perform LeaseIsValid e.

Definition get {E A} (f : World → A) : method World E A := fun w => (Ok (f w), w).

(** [ClusterHandle::apply] of an event without a TP session, on the single-writer
    task.  src/src/cluster/state.rs:358-365 (ClusterHandle::apply) *)
Definition apply {E} (inj : TransitionError → E) (g : Z) (k : ClusterEventKind)
    : method World E ClusterSnapshot := fun w =>
  let '(r, s) := machine_step (cluster w) (ClusterEvent_new g k) in
  (map_err inj r, with_cluster s w).

(** src/src/proxy.rs:457-462 (ModeAwareProxyState::set_target) *)
Definition set_target {E} (t : ProxyTarget) (ready : bool) : method World E unit :=
  modify (with_target t ready).

Definition gate_block {E} : method World E unit := modify (with_gate block).
Definition gate_start_serving {E} : method World E unit := modify (with_gate start_serving).

Definition transition_target : ProxyTarget :=
  ProxyTarget.Unavailable UnavailableReason.Transition.

Definition is_unavailable (t : ProxyTarget) : bool :=
  match t with ProxyTarget.Unavailable _ => true | _ => false end.

(** The wait ends with no request in flight, or with the timeout.
    src/src/admission.rs:192-201 (AdmissionGate::drain) *)
Definition drain {E} (inj : DrainError → E) (g : Z) : method World E unit :=
  i ← get gate;
  match begin_drain g i with
  | Err e => fail (inj e)
  | Ok i =>
      modify (with_gate (fun _ => i));;
      o ← call (WaitForZero g);
      if bool_decide (o = Success) then
        modify (with_gate (fun i =>
          mkInner (Admission.state i) (closed i) 0 (max_in_flight i) (drain_generation i)));;
        i ← get gate;
        match finish_drain g i with
        | Err e => fail (inj e)
        | Ok i => modify (with_gate (fun _ => i))
        end
      else fail (inj DrainError.Timeout)
  end.

(** ** [CoordinatorDistributedRuntime] *)

Notation step_c := (apply CoordinatorLifecycleError.Transition).
Notation coordinator_method A := (method World CoordinatorLifecycleError A).

(** src/src/cluster/coordinator.rs:554-562 (CoordinatorDistributedRuntime::block_transition) *)
Definition block_transition {E} : method World E unit :=
  gate_block;; set_target transition_target false.

(** src/src/cluster/coordinator.rs:238-306 (CoordinatorDistributedRuntime::promote_inner) *)
Definition promote_inner (promoting : ClusterSnapshot) (resume_admission : bool)
    : coordinator_method ClusterSnapshot :=
  local_result ← attempt (drain CoordinatorLifecycleError.Drain (generation promoting));
  peer_result ← call (PeerBeginDrain (generation promoting));
  lift local_result;;
  require (bool_decide (peer_result = Success)) CoordinatorLifecycleError.Peer;;
  (if resume_admission then mret tt else modify (with_gate reset_blocked_generation));;
  check_lease CoordinatorLifecycleError.LeaseLost;;
  perform (Stop Standalone) CoordinatorLifecycleError.Standalone;;
  started ← call (Start Distributed (generation promoting));
  match started with
  | Success =>
      check_lease CoordinatorLifecycleError.LeaseLost;;
      starting ← step_c (generation promoting) ClusterEventKind.DistributedChildStarted;
      route ← call WaitReady;
      match route with
      | Success =>
          check_lease CoordinatorLifecycleError.LeaseLost;;
          ready ← step_c (generation starting) ClusterEventKind.DistributedRouteReady;
          set_target (target ready) true;;
          (if resume_admission then gate_start_serving else mret tt);;
          mret ready
      | Expired => fail CoordinatorLifecycleError.CompleteRouteTimeout
      | _ => fail CoordinatorLifecycleError.Coordinator
      end
  | Expired => fail CoordinatorLifecycleError.StartupTimeout
  | _ => fail CoordinatorLifecycleError.Coordinator
  end.

(** Stop the coordinator child and the peer's worker at once; the first error wins.
    src/src/cluster/coordinator.rs:570-580 (CoordinatorDistributedRuntime::recover_paired) *)
Definition stop_both (g : Z) (coordinator_error worker_error : CoordinatorLifecycleError)
    : coordinator_method unit :=
  coordinator_result ← call (Stop Distributed);
  worker_result ← call (PeerStopWorker g);
  require (bool_decide (coordinator_result = Success)) coordinator_error;;
  require (bool_decide (worker_result = Success)) worker_error.

(** src/src/cluster/coordinator.rs:564-599 (CoordinatorDistributedRuntime::recover_paired) *)
Definition recover_paired (resume_admission : bool) : coordinator_method ClusterSnapshot :=
  block_transition;;
  current ← get cluster;
  stop_both (generation current) CoordinatorLifecycleError.Recovery
    CoordinatorLifecycleError.Recovery;;
  perform (Start Standalone (generation current)) CoordinatorLifecycleError.Recovery;;
  paired ← step_c (generation current) ClusterEventKind.PromotionFailed;
  set_target (target paired) true;;
  (if resume_admission then gate_start_serving else mret tt);;
  mret paired.

(** src/src/cluster/coordinator.rs:601-637 (CoordinatorDistributedRuntime::recover_solo) *)
Definition recover_solo (resume_admission : bool) : coordinator_method ClusterSnapshot :=
  block_transition;;
  current ← get cluster;
  stop_both (generation current) CoordinatorLifecycleError.Coordinator
    CoordinatorLifecycleError.Peer;;
  starting ← step_c (generation current) ClusterEventKind.PeerLost;
  perform (Start Standalone (generation starting)) CoordinatorLifecycleError.Standalone;;
  ready ← step_c (generation starting) ClusterEventKind.LocalStandaloneReady;
  set_target (target ready) true;;
  (if resume_admission then gate_start_serving else mret tt);;
  mret ready.

(** src/src/cluster/coordinator.rs:639-669 (CoordinatorDistributedRuntime::enter_promotion_failure) *)
Definition enter_promotion_failure (f : ClusterFailure) (now_millis : Z)
    (resume_admission : bool) : coordinator_method ClusterSnapshot :=
  tracker ← get failures;
  let '(decision, tracker) := tracker_record f now_millis tracker in
  modify (with_failures tracker);;
  decision ← lift (map_err CoordinatorLifecycleError.PromotionTracker decision);
  current ← get cluster;
  let kind := match decision with
              | PromotionRetryDecision.Backoff _ => ClusterEventKind.EnterBackoff
              | PromotionRetryDecision.ManualIntervention =>
                  ClusterEventKind.RequireManualIntervention
              end in
  next ← step_c (generation current) kind;
  let ready := negb (is_unavailable (target next)) in
  set_target (target next) ready;;
  (if ready && resume_admission then gate_start_serving else gate_block);;
  mret next.

(** src/src/cluster/coordinator.rs:195-236 (CoordinatorDistributedRuntime::promote_validated_with_admission) *)
Definition promote_validated_with_admission (prerequisites_ready : bool) (now_millis : Z)
    (resume_admission : bool) : coordinator_method ClusterSnapshot :=
  require prerequisites_ready CoordinatorLifecycleError.PrerequisiteMissing;;
  check_lease CoordinatorLifecycleError.PrerequisiteMissing;;
  current ← get cluster;
  promoting ← step_c (generation current) ClusterEventKind.WorkerHelloAccepted;
  block_transition;;
  promoted ← attempt (promote_inner promoting resume_admission);
  match promoted with
  | Ok snapshot =>
      tracker ← get failures;
      modify (with_failures (note_success tracker));;
      mret snapshot
  | Err error =>
      match error with
      | CoordinatorLifecycleError.LeaseLost =>
          recover_solo resume_admission;; mret tt
      | _ =>
          recover_paired resume_admission;;
          match promotion_failure_for_error error with
          | Some failure =>
              enter_promotion_failure failure now_millis resume_admission;; mret tt
          | None => mret tt
          end
      end;;
      fail error
  end.

(** src/src/cluster/coordinator.rs:161-176 (CoordinatorDistributedRuntime::promote_validated) *)
Definition promote_validated (prerequisites_ready : bool) (now_millis : Z)
    : coordinator_method ClusterSnapshot :=
  promote_validated_with_admission prerequisites_ready now_millis true.

(** src/src/cluster/coordinator.rs:178-193 (CoordinatorDistributedRuntime::promote_validated_for_recovery) *)
Definition promote_validated_for_recovery (prerequisites_ready : bool) (now_millis : Z)
    : coordinator_method ClusterSnapshot :=
  promote_validated_with_admission prerequisites_ready now_millis false.

(** src/src/cluster/coordinator.rs:444-497 (CoordinatorDistributedRuntime::demote_with_drain_timeout_and_admission) *)
Definition demote_with_admission (resume_admission : bool)
    : coordinator_method ClusterSnapshot :=
  current ← get cluster;
  demoting ← step_c (generation current) ClusterEventKind.BeginDemotion;
  block_transition;;
  local_result ← attempt (drain CoordinatorLifecycleError.Drain (generation demoting));
  peer_result ← call (PeerBeginDrain (generation demoting));
  lift local_result;;
  require (bool_decide (peer_result = Success)) CoordinatorLifecycleError.Peer;;
  (if resume_admission then mret tt else modify (with_gate reset_blocked_generation));;
  perform (Stop Distributed) CoordinatorLifecycleError.Coordinator;;
  perform (PeerStopWorker (generation demoting)) CoordinatorLifecycleError.Peer;;
  perform (Start Standalone (generation demoting)) CoordinatorLifecycleError.Standalone;;
  paired ← step_c (generation demoting) ClusterEventKind.PairingReady;
  set_target (target paired) true;;
  (if resume_admission then gate_start_serving else mret tt);;
  mret paired.

(** src/src/cluster/coordinator.rs:339-350 (CoordinatorDistributedRuntime::demote) *)
Definition demote : coordinator_method ClusterSnapshot := demote_with_admission true.

(** src/src/cluster/coordinator.rs:352-358 (CoordinatorDistributedRuntime::demote_for_recovery) *)
Definition demote_for_recovery : coordinator_method ClusterSnapshot :=
  demote_with_admission false.

(** src/src/cluster/coordinator.rs:415-442 (CoordinatorDistributedRuntime::restore_paired_after_planned_restart) *)
Definition restore_paired_after_planned_restart (g : Z) : coordinator_method unit :=
  perform (Start Standalone g) CoordinatorLifecycleError.Standalone;;
  demoting ← step_c g ClusterEventKind.BeginDemotion;
  paired ← step_c (generation demoting) ClusterEventKind.PairingReady;
  set_target (target paired) true;;
  gate_start_serving.

(** src/src/cluster/coordinator.rs:365-413 (CoordinatorDistributedRuntime::stop_for_planned_restart) *)
Definition stop_for_planned_restart : coordinator_method ClusterSnapshot :=
  current ← get cluster;
  require (bool_decide (state current = ClusterState.DistributedReady))
    (CoordinatorLifecycleError.Transition
       (TransitionError.InvalidTransition (state current) ClusterEventKind.BeginDemotion));;
  block_transition;;
  coordinator_result ← call (Stop Distributed);
  if negb (bool_decide (coordinator_result = Success)) then
    set_target (target current) true;;
    gate_start_serving;;
    fail CoordinatorLifecycleError.Coordinator
  else
    worker_result ← call (PeerStopWorker (generation current));
    if negb (bool_decide (worker_result = Success)) then
      restore_paired_after_planned_restart (generation current);;
      fail CoordinatorLifecycleError.Peer
    else
      demoting ← step_c (generation current) ClusterEventKind.BeginDemotion;
      paired ← step_c (generation demoting) ClusterEventKind.PairingReady;
      set_target (target paired) true;;
      mret paired.

(** src/src/cluster/coordinator.rs:499-506 (CoordinatorDistributedRuntime::record_promotion_failure) *)
Definition record_promotion_failure (f : ClusterFailure) (now_millis : Z)
    : coordinator_method ClusterSnapshot :=
  enter_promotion_failure f now_millis true.

(** src/src/cluster/coordinator.rs:508-529 (CoordinatorDistributedRuntime::reconcile_backoff) *)
Definition reconcile_backoff (now_millis : Z) : coordinator_method ClusterSnapshot :=
  current ← get cluster;
  tracker ← get failures;
  if negb (bool_decide (state current = ClusterState.Backoff))
     || negb (can_retry tracker now_millis)
  then mret current
  else
    ready ← step_c (generation current) ClusterEventKind.BackoffElapsed;
    set_target (target ready) true;;
    gate_start_serving;;
    mret ready.

(** src/src/cluster/coordinator.rs:531-548 (CoordinatorDistributedRuntime::operator_reconcile) *)
Definition operator_reconcile : coordinator_method ClusterSnapshot :=
  tracker ← get failures;
  modify (with_failures (tracker_operator_reconcile tracker));;
  current ← get cluster;
  if negb (bool_decide (state current = ClusterState.ManualInterventionRequired))
  then mret current
  else
    ready ← step_c (generation current) ClusterEventKind.OperatorReconcile;
    set_target (target ready) true;;
    gate_start_serving;;
    mret ready.

(** ** [ModeRuntime]

    Its [role] is the role of the snapshot it was spawned with. *)

Notation step_r := (apply RuntimeError.Transition).
Notation runtime_method A := (method World RuntimeError A).

(** src/src/cluster/runtime.rs:415-418 (apply_proxy_snapshot) *)
Definition apply_proxy_snapshot {E} (s : ClusterSnapshot) : method World E unit :=
  set_target (target s) (negb (is_unavailable (target s))).

(** src/src/cluster/runtime.rs:78-127 (ModeRuntime::spawn_ready_at) *)
Definition spawn_ready_at (baseline_generation : Z) : runtime_method unit :=
  startup ← attempt (
    starting ← step_r baseline_generation ClusterEventKind.BeginSoloStandalone;
    perform (Start Standalone (generation starting)) RuntimeError.LocalLifecycle;;
    step_r (generation starting) ClusterEventKind.LocalStandaloneReady);
  match startup with
  | Ok ready => apply_proxy_snapshot ready;; gate_start_serving
  | Err error => call (Stop Standalone);; fail error
  end.

(** src/src/cluster/runtime.rs:129-162 (ModeRuntime::spawn_manual_at) *)
Definition spawn_manual_at (baseline_generation : Z) : runtime_method unit :=
  manual ← step_r baseline_generation ClusterEventKind.RequireManualIntervention;
  apply_proxy_snapshot manual;;
  gate_block.

(** src/src/cluster/runtime.rs:208-249 (ModeRuntime::reconcile_local) *)
Definition reconcile_local : runtime_method ClusterSnapshot :=
  current ← get cluster;
  if negb (bool_decide (state current = ClusterState.SoloStandaloneReady)) then mret current
  else
    running ← call (IsRunning Standalone);
    match running with
    | Success => mret current
    | Refused =>
        block_transition;;
        starting ← step_r (generation current) ClusterEventKind.LocalStandaloneLost;
        perform (Start Standalone (generation starting)) RuntimeError.LocalLifecycle;;
        ready ← step_r (generation starting) ClusterEventKind.LocalStandaloneReady;
        apply_proxy_snapshot ready;;
        gate_start_serving;;
        mret ready
    | _ => fail RuntimeError.LocalLifecycle
    end.

(** src/src/cluster/runtime.rs:251-304 (ModeRuntime::form_pair) *)
Definition form_pair (current : ClusterSnapshot) : runtime_method ClusterSnapshot :=
  pairing ← step_r (generation current) ClusterEventKind.BeginPairing;
  (if bool_decide (role current = LocalRole.Worker) then
     drain RuntimeError.Drain (generation pairing);;
     perform (Stop Standalone) RuntimeError.LocalLifecycle
   else gate_block);;
  paired ← step_r (generation pairing) ClusterEventKind.PairingReady;
  apply_proxy_snapshot paired;;
  gate_start_serving;;
  mret paired.

(** src/src/cluster/runtime.rs:306-406 (ModeRuntime::fallback_to_solo) *)
Definition fallback_to_solo (current : ClusterSnapshot) : runtime_method ClusterSnapshot :=
  block_transition;;
  starting ← step_r (generation current) ClusterEventKind.PeerLost;
  (if bool_decide (role current = LocalRole.Worker)
   then perform (Start Standalone (generation starting)) RuntimeError.LocalLifecycle
   else mret tt);;
  ready ← step_r (generation starting) ClusterEventKind.LocalStandaloneReady;
  apply_proxy_snapshot ready;;
  gate_start_serving;;
  mret ready.

(** src/src/cluster/runtime.rs:182-206 (ModeRuntime::reconcile_peer_with_presence) *)
Definition reconcile_peer_with_presence (peer_present : bool)
    : runtime_method ClusterSnapshot :=
  current ← get cluster;
  if bool_decide (role current = LocalRole.Unknown) then mret current
  else
    match state current, peer_present with
    | ClusterState.SoloStandaloneReady, true => form_pair current
    | (ClusterState.Pairing | ClusterState.PairedStandaloneReady
      | ClusterState.AwaitingWorkerHello | ClusterState.Promoting
      | ClusterState.DistributedStarting | ClusterState.DistributedReady
      | ClusterState.Demoting), false => fallback_to_solo current
    | _, _ => mret current
    end.

(** ** [WorkerDistributedRuntime] *)

Notation worker_method A := (method World WorkerLifecycleError A).

(** src/src/cluster/worker.rs:330-339 (WorkerDistributedRuntime::cleanup_failure) *)
Definition cleanup_failure (cause : WorkerLifecycleError)
    : worker_method WorkerLifecycleError :=
  gate_block;;
  o ← call (Stop Distributed);
  mret (if bool_decide (o = Success) then cause else WorkerLifecycleError.Cleanup cause).

(** src/src/cluster/worker.rs:323-328 (WorkerDistributedRuntime::fail_and_cleanup) *)
Definition fail_and_cleanup {A} (cause : WorkerLifecycleError) : worker_method A :=
  error ← cleanup_failure cause; fail error.

(** [if !lease.is_valid() { return self.fail_and_cleanup(LeaseLost).await }] *)
Definition worker_lease {A} (k : worker_method A) : worker_method A :=
  o ← call LeaseIsValid;
  if bool_decide (o = Success) then k else fail_and_cleanup WorkerLifecycleError.LeaseLost.

(** src/src/cluster/worker.rs:249-291 (WorkerDistributedRuntime::prepare) *)
Definition prepare (g : Z) : worker_method unit :=
  drain WorkerLifecycleError.Drain g;;
  worker_lease (
    stopped ← call (Stop Standalone);
    if negb (bool_decide (stopped = Success))
    then fail_and_cleanup WorkerLifecycleError.Standalone
    else worker_lease (
      started ← call (Start Distributed g);
      match started with
      | Expired => fail_and_cleanup WorkerLifecycleError.StartupTimeout
      | Success =>
          worker_lease (
            running ← call (IsRunning Distributed);
            match running with
            | Success => mret tt
            | Refused => fail_and_cleanup WorkerLifecycleError.EarlyExit
            | _ => fail_and_cleanup WorkerLifecycleError.Worker
            end)
      | _ => fail_and_cleanup WorkerLifecycleError.Worker
      end)).

(** src/src/cluster/worker.rs:315-321 (WorkerDistributedRuntime::cancel) *)
Definition cancel : worker_method unit :=
  gate_block;; perform (Stop Distributed) WorkerLifecycleError.Worker.

End Runtime.
