(* ===== verification/Production.v ===== *)
(** * The production runtime: [src/src/cluster/production/]

    [ProductionClusterRuntime] of a coordinator in layer-parallel mode: the periodic
    reconcile, promotion with its HELLO preflight, the single peer-loss recovery and
    the route-loss monitor, each written on the runtimes of [Runtime].  The theorems
    about the node they form are in [Node]. *)

From S2P Require Import Prelude Bytes Target Operation Tp Auth Control Hello.
From S2P Require Import Admission ClusterFsm Promotion Runtime.

(** ** Promotion policy *)

Module AutomaticPromotionVerdict.

(** src/src/cluster/production/policy.rs:213-227 (AutomaticPromotionVerdict) *)
Inductive AutomaticPromotionVerdict :=
| Allow
| AutoPromoteDisabled
| PeerAbsent
| EpochMismatch
| DeploymentMismatchLatch
| ForcedStandaloneLatch.

End AutomaticPromotionVerdict.
Notation AutomaticPromotionVerdict := AutomaticPromotionVerdict.AutomaticPromotionVerdict.

Global Instance AutomaticPromotionVerdict_eq_dec : EqDecision AutomaticPromotionVerdict.
Proof. solve_decision. Defined.

(** src/src/cluster/production/policy.rs:230-232 (AutomaticPromotionVerdict::allows_promotion) *)
Definition allows_promotion (v : AutomaticPromotionVerdict) : bool :=
  bool_decide (v = AutomaticPromotionVerdict.Allow).

(** src/src/cluster/production/policy.rs:260-285 (automatic_promotion_verdict) *)
Definition automatic_promotion_verdict (operator_policy : OperationPolicy)
    (auto_promote deployment_mismatch_latch peer_present : bool)
    (local_policy_epoch peer_policy_epoch : Z) : AutomaticPromotionVerdict :=
  if bool_decide (operator_policy = OperationPolicy.ForcedStandalone)
  then AutomaticPromotionVerdict.ForcedStandaloneLatch
  else if negb auto_promote then AutomaticPromotionVerdict.AutoPromoteDisabled
  else if deployment_mismatch_latch
  then AutomaticPromotionVerdict.DeploymentMismatchLatch
  else if negb peer_present then AutomaticPromotionVerdict.PeerAbsent
  else if negb (local_policy_epoch =? peer_policy_epoch)
  then AutomaticPromotionVerdict.EpochMismatch
  else AutomaticPromotionVerdict.Allow.

(** The policy fields of the runtime and of its configuration. *)
Record PolicyState := mkPolicyState {
  operator_policy : OperationPolicy;
  auto_promote : bool;
  policy_pending : bool;
  policy_epoch : Z;
}.

(** src/src/cluster/production.rs:1523-1539 (ProductionClusterRuntime::automatic_promotion_gate) *)
Definition automatic_promotion_gate (p : PolicyState) (latch peer_present : bool)
    (peer_policy_epoch : Z) : AutomaticPromotionVerdict :=
  if policy_pending p && bool_decide (operator_policy p = OperationPolicy.Automatic)
  then AutomaticPromotionVerdict.EpochMismatch
  else automatic_promotion_verdict (operator_policy p) (auto_promote p) latch
         peer_present (policy_epoch p) peer_policy_epoch.

(** Both callers of the gate pass this node's own epoch for the peer's, so that the
    comparison of the two never fails: a peer at another epoch, which the gate is there
    to refuse, is promoted. *)
Lemma promotion_gate_compares_own_epoch p peer_epoch :
  operator_policy p = OperationPolicy.Automatic → auto_promote p = true →
  policy_pending p = false → policy_epoch p ≠ peer_epoch →
  automatic_promotion_gate p false true peer_epoch = AutomaticPromotionVerdict.EpochMismatch ∧
  automatic_promotion_gate p false true (policy_epoch p) = AutomaticPromotionVerdict.Allow.
Proof.
  intros Ho Ha Hp He. unfold automatic_promotion_gate, automatic_promotion_verdict.
  rewrite Ho, Ha, Hp, Z.eqb_refl. apply Z.eqb_neq in He. by rewrite He.
Qed.

(** ** Errors *)

Module PromotionHelloError.

(** A preflight failure carries the control error it can be downcast to.
    src/src/cluster/production/pairing.rs:19-29 (PromotionHelloError) *)
Inductive PromotionHelloError :=
| Rendezvous (e : Ds4HelloError)
| Control (e : ControlError)
| Preflight (downcast : option ControlError)
| WorkerStartupTimeout.

End PromotionHelloError.
Notation PromotionHelloError := PromotionHelloError.PromotionHelloError.

(** [anyhow::Error] by where it comes from. *)
Inductive ProductionError :=
| Lifecycle (e : CoordinatorLifecycleError)
| ModeError (e : RuntimeError)
| Apply (e : TransitionError)
| HelloFailed (e : PromotionHelloError)
| Denied
| StandaloneRecoveryFailed
| ChildStopFailed
| ControlSendFailed
| RouteMonitorFailed.

(** src/src/cluster/production/pairing.rs:491-495 (is_control_deployment_mismatch) *)
Definition is_control_deployment_mismatch (downcast : option ControlError) : bool :=
  match downcast with Some ControlError.DeploymentMismatch => true | _ => false end.

(** src/src/cluster/production/pairing.rs:441-448 (ProductionClusterRuntime::is_deployment_mismatch) *)
Definition is_deployment_mismatch (e : PromotionHelloError) : bool :=
  match e with
  | PromotionHelloError.Control ControlError.DeploymentMismatch
  | PromotionHelloError.Rendezvous Ds4HelloError.DeploymentMismatch => true
  | PromotionHelloError.Preflight d => is_control_deployment_mismatch d
  | _ => false
  end.

(** src/src/cluster/production/pairing.rs:171-175 (ProductionClusterRuntime::promote_internal) *)
Definition retry_with_backoff (e : PromotionHelloError) : bool :=
  match e with
  | PromotionHelloError.Rendezvous Ds4HelloError.Timeout
  | PromotionHelloError.WorkerStartupTimeout => true
  | _ => false
  end.

(** ** Operations *)

Section Production.
Context `{env : Environment} (policy : PolicyState).

Notation production_method A := (method World ProductionError A).
Notation step_p := (apply Apply).

(** A node in a cluster has the distributed child of its role.
    src/src/cluster/production/recovery.rs:223-238 (ProductionClusterRuntime::stop_distributed_child) *)
Definition stop_distributed_child : production_method unit :=
  current ← get cluster;
  match role current with
  | LocalRole.Coordinator | LocalRole.Worker => perform (Stop Distributed) ChildStopFailed
  | LocalRole.Unknown => mret tt
  end.

(** The reset of the control phase between the event and the stop is an operation
    of [ControlRoles].
    src/src/cluster/production/recovery.rs:83-221 (ProductionClusterRuntime::recover_to_solo) *)
Definition recover_to_solo (recovery_event : ClusterEventKind)
    : production_method ClusterSnapshot :=
  w ← self;
  if planned_restart_active w then mret (cluster w)
  else
    let current := cluster w in
    if bool_decide (state current = ClusterState.SoloStandaloneReady) then
      if bool_decide (recovery_event = ClusterEventKind.DeploymentMismatch) then
        marked ← step_p (generation current) recovery_event;
        set_target (target marked) true;;
        gate_start_serving;;
        mret marked
      else mret current
    else if generation current <=? completed_generation w then mret current
    else
      block_transition;;
      starting ← (if bool_decide (state current = ClusterState.SoloStandaloneStarting)
                  then mret current
                  else step_p (generation current) recovery_event);
      stop_distributed_child;;
      perform (Start Standalone (generation starting)) StandaloneRecoveryFailed;;
      ready ← step_p (generation starting) ClusterEventKind.LocalStandaloneReady;
      set_target (target ready) true;;
      gate_start_serving;;
      modify (with_completed (generation ready));;
      mret ready.

(** src/src/cluster/production/recovery.rs:55-67 (ProductionClusterRuntime::recover_from_peer_loss) *)
Definition recover_from_peer_loss : production_method ClusterSnapshot :=
  w ← self;
  if planned_restart_active w then mret (cluster w)
  else recover_to_solo ClusterEventKind.PeerLost.

(** src/src/cluster/production/recovery.rs:38-50 (ProductionClusterRuntime::recover_from_forced_policy) *)
Definition recover_from_forced_policy : production_method ClusterSnapshot :=
  recover_to_solo ClusterEventKind.PeerLost.

(** src/src/cluster/production/recovery.rs:71-81 (ProductionClusterRuntime::recover_from_deployment_mismatch) *)
Definition recover_from_deployment_mismatch : production_method ClusterSnapshot :=
  modify (with_pairing_blocked true);;
  recover_to_solo ClusterEventKind.DeploymentMismatch.

(** src/src/cluster/production/reconcile.rs:129-143 (ProductionClusterRuntime::requires_solo_fallback) *)
Definition requires_solo_fallback (s : ClusterState) : bool :=
  match s with
  | ClusterState.Pairing | ClusterState.PairedStandaloneReady
  | ClusterState.AwaitingWorkerHello | ClusterState.Promoting
  | ClusterState.DistributedStarting | ClusterState.DistributedReady
  | ClusterState.Demoting | ClusterState.Backoff
  | ClusterState.SoloStandaloneStarting => true
  | _ => false
  end.

(** src/src/cluster/production/reconcile.rs:153-159 (suppress_automatic_pairing) *)
Definition suppress_automatic_pairing (s : ClusterState)
    (peer_present automatic_pairing_blocked : bool) : bool :=
  bool_decide (s = ClusterState.SoloStandaloneReady) && peer_present
  && automatic_pairing_blocked.

(** [Success] of the lease's [peer_present]. *)
Definition peer_is_present {E} : method World E bool :=
  o ← call PeerPresent; mret (bool_decide (o = Success)).

(** From the second reading of the lease; [w] is the state at the first.
    src/src/cluster/production/reconcile.rs:91-125 (ProductionClusterRuntime::reconcile_peer) *)
Definition reconcile_present (w : World) : production_method ClusterSnapshot :=
  peer_present ← peer_is_present;
  if suppress_automatic_pairing (state (cluster w)) peer_present
       (automatic_pairing_blocked w)
  then mret (cluster w)
  else if bool_decide (role (cluster w) = LocalRole.Coordinator)
          && negb (allows_promotion (automatic_promotion_gate policy
                    (automatic_pairing_blocked w) peer_present (policy_epoch policy)))
  then mret (cluster w)
  else map_error ModeError (reconcile_peer_with_presence peer_present).

(** src/src/cluster/production/reconcile.rs:61-126 (ProductionClusterRuntime::reconcile_peer) *)
Definition reconcile_peer : production_method ClusterSnapshot :=
  w ← self;
  if planned_restart_active w then mret (cluster w)
  else
    peer_present ← peer_is_present;
    if negb peer_present && requires_solo_fallback (state (cluster w))
    then recover_from_peer_loss
    else reconcile_present w.

(** src/src/cluster/production/reconcile.rs:35-59 (ProductionClusterRuntime::reconcile_periodic) *)
Definition reconcile_periodic (now_millis : Z) : production_method ClusterSnapshot :=
  current ← get cluster;
  if bool_decide (role current = LocalRole.Coordinator)
     && bool_decide (state current = ClusterState.Backoff)
  then
    peer_present ← peer_is_present;
    if negb peer_present then recover_from_peer_loss
    else map_error Lifecycle (reconcile_backoff now_millis)
  else reconcile_peer.

(** src/src/cluster/production/pairing.rs:389-439 (ProductionClusterRuntime::recover_preflight_promotion) *)
Definition recover_preflight_promotion : production_method unit :=
  call SendControl;;
  current ← get cluster;
  match state current with
  | ClusterState.AwaitingWorkerHello | ClusterState.Promoting
  | ClusterState.DistributedStarting =>
      r ← attempt (step_p (generation current) ClusterEventKind.PromotionFailed);
      match (r : result ClusterSnapshot ProductionError) with
      | Ok paired => set_target (target paired) true;; gate_start_serving
      | Err _ => mret tt
      end
  | _ => mret tt
  end.

(** The branch of a failed HELLO preflight.
    src/src/cluster/production/pairing.rs:167-204 (ProductionClusterRuntime::promote_internal) *)
Definition promotion_preflight_failed (error : PromotionHelloError) (now_millis : Z)
    : production_method unit :=
  (if is_deployment_mismatch error
   then attempt recover_from_deployment_mismatch;; mret tt
   else recover_preflight_promotion);;
  (if retry_with_backoff error
   then attempt (record_promotion_failure ClusterFailure.HelloTimeout now_millis);; mret tt
   else mret tt).

(** [hello] is the outcome of [prepare_and_accept_hello] and [prerequisites] the
    phase and lease of the control plane read after it.
    src/src/cluster/production/pairing.rs:130-255 (ProductionClusterRuntime::promote_internal) *)
Definition promote_internal (resume_admission : bool)
    (hello : result unit PromotionHelloError) (prerequisites : bool) (now_millis : Z)
    : production_method ClusterSnapshot :=
  w ← self;
  let current := cluster w in
  require (bool_decide (role current = LocalRole.Coordinator)) Denied;;
  require (bool_decide (state current = ClusterState.PairedStandaloneReady)) Denied;;
  require (allows_promotion (automatic_promotion_gate policy
             (automatic_pairing_blocked w) true (policy_epoch policy))) Denied;;
  step_p (generation current) ClusterEventKind.BeginPromotion;;
  match hello with
  | Err error => promotion_preflight_failed error now_millis;; fail (HelloFailed error)
  | Ok _ =>
      snapshot ← map_error Lifecycle
                   (promote_validated_with_admission prerequisites now_millis
                      resume_admission);
      perform SendControl ControlSendFailed;;
      mret snapshot
  end.

(** One pass of the loop: [None] is [continue].
    src/src/cluster/production/recovery.rs:253-320 (ProductionClusterRuntime::handle_route_loss) *)
Definition handle_route_loss_pass : production_method (option ClusterSnapshot) :=
  let monitor_failed :=
    w ← self;
    if planned_restart_active w
       || bool_decide (state (cluster w) = ClusterState.SoloStandaloneReady)
    then mret (Some (cluster w))
    else fail RouteMonitorFailed in
  w ← self;
  if planned_restart_active w then mret (Some (cluster w))
  else
    lost ← call WaitRouteLoss;
    if negb (bool_decide (lost = Success)) then monitor_failed
    else
      recovered ← call WaitReady;
      match recovered with
      | Success => mret None
      | Expired =>
          w ← self;
          if planned_restart_active w then mret (Some (cluster w))
          else
            peer_present ← peer_is_present;
            let distributed := match state (cluster w) with
                               | ClusterState.DistributedReady
                               | ClusterState.DistributedStarting => true
                               | _ => false
                               end in
            if negb peer_present || negb distributed
            then s ← recover_from_peer_loss; mret (Some s)
            else s ← map_error Lifecycle demote; mret (Some s)
      | _ => monitor_failed
      end.

(** The layer-parallel branch.
    src/src/cluster/production.rs:1090-1132 (ProductionClusterRuntime::operator_reconcile) *)
Definition production_operator_reconcile : production_method unit :=
  modify (with_pairing_blocked false);;
  map_error Lifecycle operator_reconcile;;
  mret tt.

End Production.
