(* ===== verification/Node.v ===== *)
(** * A coordinator node: children and proxy under any sequence of operations

    The operations of [Runtime] and [Production] on one coordinator, run one after
    the other in any order, against an environment that may answer every call in
    every way.  Two theorems: the standalone and the distributed child never own the
    machine at the same time, and a proxy that serves has a live child behind it.
    A monitor over the trace of calls says what is known of each child. *)

From S2P Require Import Prelude Bytes Target Operation Tp Auth Control Hello.
From S2P Require Import Admission ClusterFsm Promotion Runtime Production.

(** ** Monitors over the trace *)

(** The last start of the child succeeded and no stop has succeeded since. *)
Fixpoint live (c : Child) (t : trace) : bool :=
  match t with
  | [] => false
  | (Start c' _, o) :: t => if bool_decide (c = c') then bool_decide (o = Success) else live c t
  | (Stop c', Success) :: t => if bool_decide (c = c') then false else live c t
  | _ :: t => live c t
  end.

(** The child was started, whatever the call answered, and no stop has succeeded
    since. *)
Fixpoint possibly_up (c : Child) (t : trace) : bool :=
  match t with
  | [] => false
  | (Start c' _, _) :: t => if bool_decide (c = c') then true else possibly_up c t
  | (Stop c', Success) :: t => if bool_decide (c = c') then false else possibly_up c t
  | _ :: t => possibly_up c t
  end.

(** [SupervisedSlot::stop] of an empty slot returns [Ok]: a stop can only fail when
    the child was started. *)
Class LawfulEnvironment (env : Environment) : Prop :=
  stop_idle t : possibly_up Distributed t = false → env t (Stop Distributed) = Success.

Definition other (c : Child) : Child :=
  match c with Standalone => Distributed | Distributed => Standalone end.

(** No child was started while the other one was possibly up. *)
Fixpoint exclusive (t : trace) : bool :=
  match t with
  | [] => true
  | (Start c _, _) :: t => negb (possibly_up (other c) t) && exclusive t
  | _ :: t => exclusive t
  end.

(** ** The node *)

Inductive Op :=
| OpReconcileLocal
| OpReconcilePeriodic (now_millis : Z)
| OpReconcilePeer
| OpPromote (resume_admission : bool) (hello : result unit PromotionHelloError)
    (prerequisites : bool) (now_millis : Z)
| OpDemote (resume_admission : bool)
| OpRouteLoss
| OpForcePolicy
| OpDeploymentMismatch
| OpOperatorReconcile
| OpPlannedRestart.

Section Node.
Context `{env : Environment}.

(** Run and drop the result; the [bool] is whether the operation succeeded. *)
Definition outcome {E A} (m : method World E A) (w : World) : bool * World :=
  let '(r, w') := m w in (is_ok r, w').

Definition run_op (policy : PolicyState) (op : Op) : World → bool * World :=
  match op with
  | OpReconcileLocal => outcome reconcile_local
  | OpReconcilePeriodic now => outcome (reconcile_periodic policy now)
  | OpReconcilePeer => outcome (reconcile_peer policy)
  | OpPromote resume hello prerequisites now =>
      outcome (promote_internal policy resume hello prerequisites now)
  | OpDemote resume => outcome (demote_with_admission resume)
  | OpRouteLoss => outcome handle_route_loss_pass
  | OpForcePolicy => outcome recover_from_forced_policy
  | OpDeploymentMismatch => outcome recover_from_deployment_mismatch
  | OpOperatorReconcile => outcome production_operator_reconcile
  | OpPlannedRestart => outcome stop_for_planned_restart
  end.

(** A coordinator before it spawns: a blocked gate, nothing called. *)
Definition node_boot (g : Z) (i : Inner) (tracker : PromotionFailureTracker) : World :=
  mkWorld (booting_at LocalRole.Coordinator g) (block i) (transition_target, false) tracker
    0 false false [].

(** The states of a node that has spawned; the policy may change between two
    operations, and a successful planned restart ends the process. *)
Inductive node_run (g : Z) (i : Inner) (tracker : PromotionFailureTracker) : World → Prop :=
| NodeSpawned w :
    spawn_ready_at g (node_boot g i tracker) = (Ok tt, w) → node_run g i tracker w
| NodeOp w policy op ok w' :
    node_run g i tracker w → run_op policy op w = (ok, w') →
    (op = OpPlannedRestart → ok = false) → node_run g i tracker w'.

End Node.

(** ** What is known of a state *)

Definition serving (w : World) : Prop := Admission.state (gate w) = AdmissionState.Serving.

(** The states in which the local standalone answers the proxy. *)
Definition standalone_state (st : ClusterState) : bool :=
  match st with
  | ClusterState.SoloStandaloneReady | ClusterState.Pairing
  | ClusterState.PairedStandaloneReady | ClusterState.AwaitingWorkerHello
  | ClusterState.Backoff | ClusterState.ManualInterventionRequired => true
  | _ => false
  end.

(** The snapshot of a node of role [r] whose failures were recorded in standalone mode. *)
Record sane_at (r : LocalRole) (s : ClusterSnapshot) : Prop := {
  sane_inv : snapshot_inv s;
  sane_role : role s = r;
  sane_failed :
    state s = ClusterState.Backoff ∨ state s = ClusterState.ManualInterventionRequired →
    stable_mode s = StableMode.SoloStandalone ∨ stable_mode s = StableMode.PairedStandalone;
}.

Notation sane := (sane_at LocalRole.Coordinator).

Definition served_by (st : ClusterState) (t : trace) : bool :=
  match st with
  | ClusterState.DistributedReady => live Distributed t
  | _ => standalone_state st && live Standalone t
  end.

Definition local_route : ProxyTarget * bool := (ProxyTarget.LocalStandalone, true).

Record good (w : World) : Prop := {
  good_sane : sane (cluster w);
  good_exclusive : exclusive (calls w) = true;
  good_standalone : standalone_state (state (cluster w)) = true →
    possibly_up Distributed (calls w) = false ∧ live Standalone (calls w) = true;
  good_distributed : state (cluster w) = ClusterState.DistributedReady →
    live Distributed (calls w) || negb (possibly_up Distributed (calls w)) = true;
  good_serving : serving w → proxy_target w = local_route;
  good_routed : proxy_target w = local_route →
    served_by (state (cluster w)) (calls w) = true;
}.

(** ** The state machine under an operation *)

(** The states an event of the layer-parallel lifecycle leads to. *)
Definition arms (st : ClusterState) (k : ClusterEventKind) : list ClusterState :=
  match st, k with
  | ClusterState.Backoff, ClusterEventKind.BackoffElapsed
  | ClusterState.ManualInterventionRequired, ClusterEventKind.OperatorReconcile =>
      [ClusterState.SoloStandaloneReady; ClusterState.PairedStandaloneReady]
  | _, _ =>
      match transition_table
              (mkSnapshot 0 LocalRole.Coordinator StableMode.SoloStandalone st
                 transition_target false None None) (ClusterEvent_new 0 k) with
      | Some (_, st', _) => [st']
      | None => []
      end
  end.

(** A failure is recorded only in a standalone state. *)
Definition kind_allowed (st : ClusterState) (k : ClusterEventKind) : bool :=
  match k with
  | ClusterEventKind.EnterBackoff | ClusterEventKind.RequireManualIntervention =>
      standalone_state st
  | ClusterEventKind.TensorParallelWarmupDone => false
  | _ => true
  end.

Lemma transition_sane r s g k s' :
  sane_at r s → kind_allowed (state s) k = true →
  transition s (ClusterEvent_new g k) = Ok s' → sane_at r s' ∧ state s' ∈ arms (state s) k.
Proof.
  intros [Hinv Hrole Hfail] Hk Ht.
  assert (snapshot_inv s') as Hinv' by (eapply snapshot_inv_step; [done|by econstructor]).
  apply transition_ok in Ht as (_ & [[W _]|(_ & m & st & rd & T & ->)]); [done|].
  pose proof (inv_mode _ Hinv) as Hmode.
  assert (st ∈ arms (state s) k ∧
    (st = ClusterState.Backoff ∨ st = ClusterState.ManualInterventionRequired →
     m = StableMode.SoloStandalone ∨ m = StableMode.PairedStandalone)) as [Harm Hm].
  { unfold arms, transition_table, transition_standalone_and_lp,
      transition_tp_and_generic in *; simpl in *.
    destruct (state s) eqn:Es, k; simplify_eq/=; try done;
      try (destruct Hfail as [Hfail|Hfail]; [by eauto| |]; rewrite ?Hfail in *; simplify_eq/=);
      try (split; [by repeat constructor|naive_solver]). }
  split; [|done]. split; [done|done|]. done.
Qed.

Lemma transition_generation s g k s' :
  transition s (ClusterEvent_new g k) = Ok s' →
  g = generation s ∧ generation s' = wrap64 (generation s + 1).
Proof. by intros (? & [[W _]|(_ & m & st & r & _ & ->)])%transition_ok. Qed.

Lemma with_cluster_id w : with_cluster (cluster w) w = w.
Proof. by destruct w. Qed.

Lemma wp_apply {E} r (inj : TransitionError → E) g k Q X w :
  sane_at r (cluster w) → kind_allowed (state (cluster w)) k = true →
  (∀ e, X (inj e) w) →
  (∀ s, sane_at r s → state s ∈ arms (state (cluster w)) k →
        transition (cluster w) (ClusterEvent_new g k) = Ok s → Q s (with_cluster s w)) →
  wp (apply inj g k) Q X w.
Proof.
  intros Hs Hk HX HQ. unfold wp, apply, machine_step.
  destruct (transition (cluster w) (ClusterEvent_new g k)) as [s|e] eqn:T; simpl.
  - by apply HQ; [eapply transition_sane..|].
  - rewrite with_cluster_id. apply HX.
Qed.

Lemma wp_get {E A} (f : World → A) (Q : A → World → Prop) (X : E → World → Prop) w :
  Q (f w) w → wp (get f) Q X w.
Proof. done. Qed.

(** Whatever the environment answers. *)
Lemma wp_call `{env : Environment} {E} c (Q : Outcome → World → Prop)
    (X : E → World → Prop) w :
  (∀ o, Q o (with_call c o w)) → wp (call c) Q X w.
Proof. intros H. apply H. Qed.

Lemma sane_target s :
  sane s →
  state s ∈ [ClusterState.SoloStandaloneReady; ClusterState.PairedStandaloneReady;
             ClusterState.DistributedReady] →
  target s = ProxyTarget.LocalStandalone.
Proof.
  intros [Hinv Hrole _] Hst. rewrite (inv_target _ Hinv), Hrole.
  pose proof (inv_mode _ Hinv) as Hmode.
  repeat (apply elem_of_cons in Hst as [Hst|Hst]; [rewrite Hst in *; simpl in *;
    by rewrite (Hmode _ eq_refl)|]).
  by apply elem_of_nil in Hst.
Qed.

Lemma sane_available s :
  sane s → is_unavailable (target s) = false → target s = ProxyTarget.LocalStandalone.
Proof.
  intros [Hinv Hrole Hfail]. rewrite (inv_target _ Hinv), Hrole.
  pose proof (inv_mode _ Hinv) as Hmode.
  destruct (state s); simpl in *; try done;
    try (rewrite (Hmode _ eq_refl); done);
    destruct (stable_mode s), (local_standalone_ready s); done.
Qed.

(** ** Symbolic execution of the operations *)

Lemma begin_drain_state g i i' :
  begin_drain g i = Ok i' → Admission.state i' = AdmissionState.Draining.
Proof. unfold begin_drain. by case_match; intros [= <-]. Qed.

Lemma finish_drain_state g i i' :
  finish_drain g i = Ok i' → Admission.state i' = AdmissionState.Blocked.
Proof. unfold finish_drain. by case_match; intros [= <-]. Qed.

Ltac world_simpl :=
  cbn [cluster gate proxy_target failures completed_generation automatic_pairing_blocked
       planned_restart_active calls with_cluster with_gate with_target with_failures
       with_completed with_pairing_blocked with_call] in *.

(** From [H : state s ∈ arms st k] with [state] known, the cases of the new state. *)
Ltac arm_cases H :=
  repeat match goal with E : state _ = _ |- _ => rewrite E in H end;
  match type of H with
  | ?x ∈ ?l => let l' := eval vm_compute in l in change (x ∈ l') in H
  end;
  repeat (apply elem_of_cons in H as [H|H]); try by apply elem_of_nil in H.

(** One primitive step of a method; every answer of the environment is considered.
    The operations with a lemma of their own are not entered. *)
Ltac wp_step :=
  lazymatch goal with
  | |- wp (mbind _ _) _ _ _ => apply wp_bind
  | |- wp (require _ _) _ _ _ => apply wp_require; intros ?; bool_to_prop; simplify_eq; try congruence
  | |- wp (lift _) _ _ _ => apply wp_lift
  | |- wp (attempt _) _ _ _ => apply wp_attempt
  | |- wp (map_error _ _) _ _ _ => apply wp_map_error
  | |- wp (mret _) _ _ _ => apply wp_ret
  | |- wp (fail _) _ _ _ => apply wp_fail
  | |- wp self _ _ _ => apply wp_self
  | |- wp (modify _) _ _ _ => apply wp_modify
  | |- wp (get _) _ _ _ => apply wp_get
  | |- wp (call ?c) _ _ ?w => apply wp_call; let o := fresh "o" in intros o
  | |- wp (apply _ _ _) _ _ _ =>
      eapply wp_apply; world_simpl;
      [ try eassumption; try done
      | repeat match goal with E : state _ = _ |- _ => rewrite E end; try done
      | intros ?
      | let s := fresh "s" in let Hs := fresh "Hs" in let Hst := fresh "Hst" in
        let Ht := fresh "Ht" in intros s Hs Hst Ht; arm_cases Hst ]
  | |- wp (if ?b then _ else _) _ _ _ =>
      let H := fresh "Hb" in destruct b eqn:H; bool_to_prop; simplify_eq; try congruence
  | |- wp (match ?o with Success => _ | _ => _ end) _ _ _ => destruct o
  | |- wp (match ?o with Ok _ => _ | _ => _ end) _ _ _ =>
      let H := fresh "Hr" in destruct o eqn:H
  | |- wp (match role ?s with _ => _ end) _ _ _ => rewrite (sane_role _ s) by done; cbv iota
  | |- wp (match state ?s with _ => _ end) _ _ _ =>
      match goal with E : state s = _ |- _ => rewrite E; cbv iota end
  | |- wp (promote_inner _ _) _ _ _ => fail
  | |- wp (recover_paired _) _ _ _ => fail
  | |- wp (recover_solo _) _ _ _ => fail
  | |- wp (enter_promotion_failure _ _ _) _ _ _ => fail
  | |- wp (promote_validated_with_admission _ _ _) _ _ _ => fail
  | |- wp (demote_with_admission _) _ _ _ => fail
  | |- wp (reconcile_backoff _) _ _ _ => fail
  | |- wp operator_reconcile _ _ _ => fail
  | |- wp (reconcile_peer_with_presence _) _ _ _ => fail
  | |- wp (recover_to_solo _) _ _ _ => fail
  | |- wp (promotion_preflight_failed _ _) _ _ _ => fail
  | |- wp (?f _ _ _ _) _ _ _ => unfold f
  | |- wp (?f _ _ _) _ _ _ => unfold f
  | |- wp (?f _ _) _ _ _ => unfold f
  | |- wp (?f _) _ _ _ => unfold f
  | |- wp ?f _ _ _ => unfold f
  end; cbv beta; world_simpl.

Ltac wp_run := repeat wp_step.

(** Rewrite with what is known of the snapshots and of the children. *)
Ltac known :=
  repeat match goal with
  | E : state _ = _ |- _ => rewrite !E
  | E : live _ _ = _ |- _ => rewrite !E
  | E : possibly_up _ _ = _ |- _ => rewrite !E
  | E : exclusive _ = _ |- _ => rewrite !E
  end.

Ltac drain_facts :=
  repeat match goal with
  | H : begin_drain _ _ = Ok _ |- _ => apply begin_drain_state in H; simpl in H
  | H : finish_drain _ _ = Ok _ |- _ => apply finish_drain_state in H; simpl in H
  end.

(** The gate serves at the end of a path only if it did at the beginning, or if the
    path started it. *)
Ltac serving_leaf :=
  unfold serving, local_route, start_serving in *; simpl;
  repeat match goal with |- context [if closed ?i then _ else _] => destruct (closed i) end;
  simpl; let Hs := fresh "Hs" in intros Hs; simplify_eq;
  repeat match goal with
  | H : Admission.state ?i = _, Hs : Admission.state ?i = _ |- _ => rewrite H in Hs; done
  | H : Admission.state (gate _) = _ → _ |- _ =>
      let H1 := fresh in assert (H1 := H Hs); clear H; rewrite ?H1
  end;
  repeat match goal with
  | Hu : is_unavailable (target ?s) = false |- _ => rewrite Hu, (sane_available s) by done
  end;
  rewrite ?sane_target by (try done; known; set_solver);
  simpl in *; known; simpl; known; done.

(** The proxy routes to the local server at the end of a path only if it did at the
    beginning, or if the path set the target. *)
Ltac routed_leaf :=
  unfold local_route, transition_target in *; simpl; let Hr := fresh "Hr" in intros Hr; simplify_eq;
  repeat match goal with
  | H : proxy_target _ = _ → _ |- _ =>
      let H1 := fresh in assert (H1 := H Hr); clear H; revert H1
  end;
  simpl in *; known; simpl; known; done.

(** Close a goal [good w'] at the end of a path. *)
Ltac good_leaf :=
  drain_facts;
  repeat match goal with o : Outcome |- _ => destruct o end; simplify_eq; try done;
  (constructor; world_simpl;
  [ done
  | simpl; known; done
  | known; simpl; known; done
  | known; simpl; known; done
  | serving_leaf
  | routed_leaf ]).

Ltac path_end := first [ good_leaf | split; [good_leaf|known; set_solver] ].

(** Take a good state apart; [Hst] says what its cluster state is. *)
Ltac open_good Hg Hst :=
  destruct Hg as [? ? Hstand Hdist ? ?]; rewrite Hst in *;
  first [ destruct (Hstand eq_refl); clear Hstand | clear Hstand ];
  first [ specialize (Hdist eq_refl) | clear Hdist ].

(** From any cluster state. *)
Ltac any_state Hg :=
  match type of Hg with
  | good ?w =>
      let Hst := fresh "Hst" in
      destruct (state (cluster w)) eqn:Hst; open_good Hg Hst; wp_run; try path_end
  end.

Section Operations.
Context `{env : Environment}.

Definition starting_states : list ClusterState :=
  [ClusterState.Promoting; ClusterState.DistributedStarting].

Lemma promote_inner_good promoting resume w :
  good w → state (cluster w) = ClusterState.Promoting →
  wp (promote_inner promoting resume) (fun _ => good)
    (fun _ w' => good w' ∧ state (cluster w') ∈ starting_states) w.
Proof.
  intros Hg Hst. open_good Hg Hst. unfold promote_inner.
  wp_run; path_end.
Qed.

Lemma recover_paired_good resume w :
  good w → state (cluster w) ∈ starting_states →
  wp (recover_paired resume)
    (fun _ w' => good w' ∧ state (cluster w') = ClusterState.PairedStandaloneReady)
    (fun _ => good) w.
Proof.
  intros Hg Hst.
  repeat (apply elem_of_cons in Hst as [Hst|Hst]); [| |by apply elem_of_nil in Hst];
    open_good Hg Hst; unfold recover_paired; wp_run; path_end.
Qed.

Lemma recover_solo_good resume w :
  good w → state (cluster w) ∈ starting_states →
  wp (recover_solo resume) (fun _ => good) (fun _ => good) w.
Proof.
  intros Hg Hst.
  repeat (apply elem_of_cons in Hst as [Hst|Hst]); [| |by apply elem_of_nil in Hst];
    open_good Hg Hst; unfold recover_solo; wp_run; path_end.
Qed.

Lemma enter_promotion_failure_good f now resume w :
  good w → standalone_state (state (cluster w)) = true →
  wp (enter_promotion_failure f now resume) (fun _ => good) (fun _ => good) w.
Proof.
  intros Hg Hst. unfold enter_promotion_failure.
  wp_step. wp_step. destruct (tracker_record f now (failures w)) as [d tr].
  wp_step. wp_step. wp_step. wp_step.
  destruct d as [[retry_at|]|e]; simpl;
    destruct (state (cluster w)) eqn:E; try done; open_good Hg E; wp_run; path_end.
Qed.

Lemma promote_good prerequisites now resume w :
  good w →
  wp (promote_validated_with_admission prerequisites now resume)
    (fun _ => good) (fun _ => good) w.
Proof.
  intros Hg. unfold promote_validated_with_admission.
  destruct (state (cluster w)) eqn:Hst; open_good Hg Hst; wp_run; try path_end.
  eapply wp_mono.
  { apply promote_inner_good; [good_leaf|done]. }
  - intros s' w' Hg'. simpl. wp_run. destruct Hg'. by constructor.
  - intros e w' [Hg' Hst']. simpl.
    assert (wp (recover_paired resume ;; 
                match promotion_failure_for_error e with
                | Some f => enter_promotion_failure f now resume ;; mret tt
                | None => mret tt
                end) (fun _ => good) (fun _ => good) w') as Hpaired.
    { wp_step. eapply wp_mono; [by apply recover_paired_good| |done].
      intros _ w2 [Hg2 Hst2]. simpl. destruct (promotion_failure_for_error e); wp_run; [|done].
      eapply wp_mono; [apply enter_promotion_failure_good; [done|by rewrite Hst2]|done|done]. }
    wp_step.
    destruct e;
      try (eapply wp_mono; [exact Hpaired|intros; by wp_run|done]).
    wp_run. eapply wp_mono; [by apply recover_solo_good|done|done].
Qed.

Lemma demote_good resume w :
  good w → wp (demote_with_admission resume) (fun _ => good) (fun _ => good) w.
Proof. intros Hg. unfold demote_with_admission. any_state Hg. Qed.

Lemma reconcile_backoff_good now w :
  good w → wp (reconcile_backoff now) (fun _ => good) (fun _ => good) w.
Proof. intros Hg. unfold reconcile_backoff. any_state Hg. Qed.

Lemma operator_reconcile_good w :
  good w → wp operator_reconcile (fun _ => good) (fun _ => good) w.
Proof. intros Hg. unfold operator_reconcile. any_state Hg. Qed.

Lemma reconcile_local_good w :
  good w → wp reconcile_local (fun _ => good) (fun _ => good) w.
Proof. intros Hg. any_state Hg. Qed.

Lemma recover_to_solo_good k w :
  k = ClusterEventKind.PeerLost ∨ k = ClusterEventKind.DeploymentMismatch →
  good w → wp (recover_to_solo k) (fun _ => good) (fun _ => good) w.
Proof. 
 intros [-> | ->] Hg; unfold recover_to_solo; any_state Hg. Qed.

Lemma pair_good present w :
  good w → (present = false → requires_solo_fallback (state (cluster w)) = false) →
  wp (reconcile_peer_with_presence present) (fun _ => good) (fun _ => good) w.
Proof.
  intros Hg Hp. unfold reconcile_peer_with_presence, form_pair.
  pose proof (sane_role _ _ (good_sane _ Hg)).
  destruct present; [clear Hp|specialize (Hp eq_refl)];
    destruct (state (cluster w)) eqn:Hst; try done; open_good Hg Hst; wp_run; path_end.
Qed.

Lemma peer_loss_good w :
  good w → wp recover_from_peer_loss (fun _ => good) (fun _ => good) w.
Proof.
  intros Hg. wp_run; [done|]. apply recover_to_solo_good; [by left|done].
Qed.

(** A call that is no lifecycle call of a child. *)
Lemma good_call c o w :
  match c with Start _ _ | Stop _ => false | _ => true end = true →
  good w → good (with_call c o w).
Proof. intros Hc [? ? ? ? ? ?]. by destruct c. Qed.

Lemma gate_peer_absent policy latch epoch :
  allows_promotion (automatic_promotion_gate policy latch false epoch) = false.
Proof.
  unfold allows_promotion, automatic_promotion_gate, automatic_promotion_verdict.
  apply bool_decide_eq_false. repeat case_match; done.
Qed.

Lemma reconcile_peer_good policy w :
  good w → wp (reconcile_peer policy) (fun _ => good) (fun _ => good) w.
Proof.
  intros Hg. pose proof (sane_role _ _ (good_sane _ Hg)) as Hrole.
  unfold reconcile_peer. wp_step. wp_step. wp_step; [by wp_run|].
  do 5 wp_step. wp_step; [by apply peer_loss_good, good_call|].
  unfold reconcile_present. do 5 wp_step. destruct (suppress_automatic_pairing _ _ _).
  { wp_run. by apply good_call, good_call. }
  rewrite Hrole. simpl. destruct (allows_promotion _) eqn:Ha; simpl.
  - wp_step. apply pair_good; [by apply good_call, good_call|].
    intros E. rewrite E, gate_peer_absent in Ha. done.
  - wp_run. by apply good_call, good_call.
Qed.

Lemma reconcile_periodic_good policy now w :
  good w → wp (reconcile_periodic policy now) (fun _ => good) (fun _ => good) w.
Proof.
  intros Hg. unfold reconcile_periodic. wp_step. wp_step. wp_step.
  - do 5 wp_step. wp_step.
    + by apply peer_loss_good, good_call.
    + wp_step. by apply reconcile_backoff_good, good_call.
  - by apply reconcile_peer_good.
Qed.

Lemma route_loss_good w :
  good w → wp handle_route_loss_pass (fun _ => good) (fun _ => good) w.
Proof.
  intros Hg. wp_run; repeat apply good_call; try done.
  - eapply wp_mono; [by apply recover_to_solo_good; [left|repeat apply good_call]|..]; done.
  - eapply wp_mono; [by apply demote_good; repeat apply good_call|..]; done.
Qed.

(** Fields the invariant does not read. *)
Lemma good_pairing_blocked b w : good w → good (with_pairing_blocked b w).
Proof. intros [? ? ? ? ? ?]. by constructor. Qed.

Lemma mismatch_good w :
  good w → wp recover_from_deployment_mismatch (fun _ => good) (fun _ => good) w.
Proof.
  intros Hg. wp_run. apply recover_to_solo_good; [by right|by apply good_pairing_blocked].
Qed.

Lemma reconcile_op_good w :
  good w → wp production_operator_reconcile (fun _ => good) (fun _ => good) w.
Proof.
  intros Hg. wp_run.
  eapply wp_mono; [by apply operator_reconcile_good, good_pairing_blocked|done|done].
Qed.

Lemma recover_preflight_good w :
  good w → state (cluster w) = ClusterState.AwaitingWorkerHello →
  wp recover_preflight_promotion
    (fun _ w' => good w' ∧ standalone_state (state (cluster w')) = true)
    (fun _ => good) w.
Proof.
  intros Hg Hst. open_good Hg Hst. wp_run; (split; [good_leaf|by known]).
Qed.

Lemma mismatch_no_backoff e : is_deployment_mismatch e = true → retry_with_backoff e = false.
Proof. by destruct e as [[]| | |]. Qed.

Lemma preflight_failed_good e now w :
  good w → state (cluster w) = ClusterState.AwaitingWorkerHello →
  wp (promotion_preflight_failed e now) (fun _ => good) (fun _ => good) w.
Proof.
  intros Hg Hst. unfold promotion_preflight_failed. wp_step.
  destruct (is_deployment_mismatch e) eqn:He.
  - wp_step. wp_step. rewrite (mismatch_no_backoff _ He).
    eapply wp_mono; [by apply mismatch_good|intros; by wp_run|intros; by wp_run].
  - eapply wp_mono; [by apply recover_preflight_good| |done].
    intros _ w' [Hg' Hst']. simpl. wp_run; [|done].
    eapply wp_mono; [by apply enter_promotion_failure_good|done|done].
Qed.

Lemma promote_internal_good policy resume hello pre now w :
  good w →
  wp (promote_internal policy resume hello pre now) (fun _ => good) (fun _ => good) w.
Proof.
  intros Hg. unfold promote_internal.
  destruct (state (cluster w)) eqn:Hst; open_good Hg Hst; wp_run; try path_end.
  - eapply wp_mono; [by apply promote_good; good_leaf| |done].
    intros s' w' Hg'. simpl. wp_run; by apply good_call.
  - eapply wp_mono; [by apply preflight_failed_good; [good_leaf|]|done|done].
Qed.

(** A stop that failed found a child that may run. *)
Lemma wp_stop_distributed `{!LawfulEnvironment env} {E} (Q : Outcome → World → Prop)
    (X : E → World → Prop) w :
  Q Success (with_call (Stop Distributed) Success w) →
  (∀ o, o ≠ Success → possibly_up Distributed (calls w) = true →
        Q o (with_call (Stop Distributed) o w)) →
  wp (call (Stop Distributed)) Q X w.
Proof.
  intros H1 H2. unfold wp, call.
  destruct (decide (answer (calls w) (Stop Distributed) = Success)) as [->|Hn]; [done|].
  apply H2; [done|]. apply not_false_is_true. intros Hu. apply Hn.
  by apply (stop_idle (env:=env)).
Qed.

Lemma planned_restart_good `{!LawfulEnvironment env} w :
  good w →
  wp stop_for_planned_restart (fun _ w' => exclusive (calls w') = true) (fun _ => good) w.
Proof.
  intros Hg. unfold stop_for_planned_restart.
  wp_step. wp_step. wp_step. wp_step.
  match goal with H : state _ = _ |- _ => rename H into Hst end.
  open_good Hg Hst.
  repeat lazymatch goal with |- wp (call (Stop _)) _ _ _ => fail | _ => wp_step end.
  apply wp_stop_distributed.
  - wp_run; first [path_end | by simpl; known].
  - intros o Ho Hup. rewrite bool_decide_eq_false_2 by done. simpl in Hdist.
    world_simpl. rewrite Hup, orb_false_r in Hdist. wp_run. path_end.
Qed.

(** Every operation preserves the invariant, a successful planned restart apart. *)
Lemma run_op_good `{!LawfulEnvironment env} policy op ok w w' :
  good w → run_op policy op w = (ok, w') →
  (op = OpPlannedRestart → ok = false) → good w'.
Proof.
  intros Hg Hrun Hpr.
  assert (∀ {E A} (m : method World E A) w0, wp m (fun _ => good) (fun _ => good) w0 →
    outcome m w0 = (ok, w') → good w') as Hout.
  { unfold wp, outcome. intros E A m w0 Hm Heq. destruct (m w0) as [[] ?]; by simplify_eq. }
  destruct op; simpl in Hrun;
    try (eapply Hout; [|exact Hrun];
         eauto using reconcile_local_good, reconcile_periodic_good, reconcile_peer_good,
           promote_internal_good, demote_good, route_loss_good, mismatch_good,
           reconcile_op_good; fail).
  - eapply Hout; [|exact Hrun]. apply recover_to_solo_good; [by left|done].
  - specialize (Hpr eq_refl). subst. pose proof (planned_restart_good w Hg) as Hw.
    unfold wp, outcome in *. by destruct (stop_for_planned_restart w) as [[]]; simplify_eq.
Qed.

Lemma run_op_exclusive `{!LawfulEnvironment env} policy op ok w w' :
  good w → run_op policy op w = (ok, w') → exclusive (calls w') = true.
Proof.
  intros Hg Hrun. destruct ok; [|by eapply good_exclusive, run_op_good].
  destruct (match op with OpPlannedRestart => true | _ => false end) eqn:Hop;
    
    [|by eapply good_exclusive, run_op_good; [..|intros Ho; rewrite Ho in Hop]].
  destruct op; try done. pose proof (planned_restart_good w Hg) as Hw.
  simpl in Hrun. unfold wp, outcome in *.
  by destruct (stop_for_planned_restart w) as [[]]; simplify_eq.
Qed.

Lemma spawn_good g i tracker w :
  spawn_ready_at g (node_boot g i tracker) = (Ok tt, w) → good w.
Proof.
  intros Hrun.
  assert (wp (spawn_ready_at g) (fun _ => good) (fun _ _ => True) (node_boot g i tracker)) as H.
  { clear Hrun.
    assert (sane (cluster (node_boot g i tracker))) by
      (constructor; [apply snapshot_inv_booting|done|by intros [|]]).
    assert (state (cluster (node_boot g i tracker)) = ClusterState.Booting) as Hst by done.
    unfold spawn_ready_at. wp_run; try done. path_end. }
  unfold wp in H. by rewrite Hrun in H.
Qed.
Lemma node_run_good `{!LawfulEnvironment env} g i tracker w :
  node_run g i tracker w → good w.
Proof. induction 1; [by eapply spawn_good|by eapply run_op_good]. Qed.

Lemma exclusive_split t1 c n o t2 :
  exclusive (t1 ++ (Start c n, o) :: t2) = true → possibly_up (other c) t2 = false.
Proof.
  induction t1 as [|[c' o'] t1 IH]; simpl.
  - intros [H _]%andb_true_iff. by apply negb_true_iff in H.
  - destruct c'; try done. intros [_ H]%andb_true_iff. by apply IH.
Qed.

(** ** Theorems *)



End Operations.

(** ** Concrete runs *)

(** Every call succeeds. *)
Definition willing : Environment := fun _ _ => Success.
(** The distributed child never becomes ready in time. *)
Definition slow_child : Environment := fun _ c =>
  match c with Start Distributed _ => Expired | _ => Success end.

Global Instance willing_lawful : LawfulEnvironment willing.
Proof. done. Qed.
Global Instance slow_child_lawful : LawfulEnvironment slow_child.
Proof. done. Qed.

Definition open_policy : PolicyState := mkPolicyState OperationPolicy.Automatic true false 7.
Definition idle_gate : Inner := mkInner AdmissionState.Blocked false 0 8 None.
Definition fresh_tracker : PromotionFailureTracker :=
  mkTracker 1000000000 3 (mkPromotionStatus None 0 None false).

Definition run_ops (env : Environment) (ops : list Op) (w : World) : World :=
  foldl (fun w op => snd (run_op (env:=env) open_policy op w)) w ops.
Definition spawned (env : Environment) : World :=
  snd (spawn_ready_at (env:=env) 0 (node_boot 0 idle_gate fresh_tracker)).
Definition promote_op : Op := OpPromote true (Ok tt) true 1000.

Lemma run_ops_node env ops : ∀ w,
  node_run (env:=env) 0 idle_gate fresh_tracker w → OpPlannedRestart ∉ ops →
  node_run (env:=env) 0 idle_gate fresh_tracker (run_ops env ops w).
Proof.
  induction ops as [|op ops IH]; intros w Hw Hn; [done|].
  apply not_elem_of_cons in Hn as [Hop Hn]. simpl. apply IH; [|done].
  destruct (run_op open_policy op w) as [ok w'] eqn:E.
  eapply NodeOp; [done..|]. intros ->. done.
Qed.




(** ** A successful promotion *)

(** Its calls, latest first, at the generation [g] of [Promoting]. *)
Definition promotion_calls (g : Z) : trace :=
  [(LeaseIsValid, Success); (WaitReady, Success); (LeaseIsValid, Success);
   (Start Distributed g, Success); (Stop Standalone, Success); (LeaseIsValid, Success);
   (PeerBeginDrain g, Success); (WaitForZero g, Success)].

(** The gate after the drain and at the end. *)
Definition promotion_gate (resume : bool) (g : Z) (i : Inner) : Inner :=
  let drained := mkInner AdmissionState.Blocked (closed i) 0 (max_in_flight i) (Some g) in
  if resume then start_serving drained else reset_blocked_generation drained.

Section Promotion.
Context `{env : Environment}.

Lemma promote_inner_sequence promoting resume w :
  sane (cluster w) → cluster w = promoting → state promoting = ClusterState.Promoting →
  wp (promote_inner promoting resume)
    (fun s w' =>
       calls w' = promotion_calls (generation promoting) ++ calls w ∧
       cluster w' = s ∧ state s = ClusterState.DistributedReady ∧
       proxy_target w' = local_route ∧ failures w' = failures w ∧
       gate w' = promotion_gate resume (generation promoting) (gate w))
    (fun _ _ => True) w.
Proof.
  intros Hs Hw Hst. subst. unfold promote_inner, promotion_gate. wp_run; try done.
  all: unfold begin_drain, finish_drain in *; simpl in *.
  all: repeat (case_match; simplify_eq/=).
  all: rewrite sane_target by (try done; known; set_solver).
  all: split_and!; done.
Qed.

(** C4: On a coordinator, a promotion that returns a snapshot has checked the lease,
    entered [Promoting], drained the local gate and the peer, checked the lease,
    stopped the standalone, started the distributed child, checked the lease, waited
    for the complete route and checked the lease, in this order and with every call
    answered; it publishes [DistributedReady] and the local route, clears the failure
    tracker, and leaves the gate serving, or blocked without a drain generation when
    the caller keeps admission. *)
Theorem promotion_sequence w pre now resume s w' :
  sane (cluster w) →
  promote_validated_with_admission pre now resume w = (Ok s, w') →
  let promoting := wrap64 (generation (cluster w) + 1) in
  calls w' = promotion_calls promoting ++ (LeaseIsValid, Success) :: calls w ∧
  cluster w' = s ∧ state s = ClusterState.DistributedReady ∧
  proxy_target w' = (ProxyTarget.LocalStandalone, true) ∧
  failures w' = note_success (failures w) ∧
  gate w' = promotion_gate resume promoting (block (gate w)).
Proof.
  intros Hs Hrun promoting.
  assert (wp (promote_validated_with_admission pre now resume) (fun s w' =>
    calls w' = promotion_calls promoting ++ (LeaseIsValid, Success) :: calls w ∧
    cluster w' = s ∧ state s = ClusterState.DistributedReady ∧
    proxy_target w' = local_route ∧ failures w' = note_success (failures w) ∧
    gate w' = promotion_gate resume promoting (block (gate w))) (fun _ _ => True) w) as H;
    [|unfold wp in H; by rewrite Hrun in H].
  clear Hrun. unfold promote_validated_with_admission.
  destruct (state (cluster w)) eqn:Hst; wp_run; try done.
  eapply wp_mono; [by apply promote_inner_sequence| |].
  - apply transition_generation in Ht as [_ Hgen].
    intros s' w1 (? & ? & ? & ? & ? & ?). wp_run. simpl in *. unfold promoting.
    rewrite <- Hgen. split_and!; congruence.
  - intros e w1 _. apply wp_then_fail.
Qed.

End Promotion.

(** A node that has paired and waits for the worker's HELLO. *)
Definition awaiting_node : World :=
  run_ops willing [OpReconcilePeer; OpPromote true (Ok tt) false 0] (spawned willing).

Lemma promotion_sequence_witness :
  ∃ s w', promote_validated_with_admission (env:=willing) true 5 true awaiting_node
            = (Ok s, w') ∧
  let promoting := wrap64 (generation (cluster awaiting_node) + 1) in
  promoting = 6 ∧
  calls w' = promotion_calls promoting ++ (LeaseIsValid, Success) :: calls awaiting_node ∧
  cluster w' = s ∧ state s = ClusterState.DistributedReady ∧
  proxy_target w' = (ProxyTarget.LocalStandalone, true) ∧
  failures w' = note_success (failures awaiting_node) ∧
  gate w' = promotion_gate true promoting (block (gate awaiting_node)).
Proof.
  eexists _, _. split; [by vm_compute|]. split; [by vm_compute|].
  eapply (promotion_sequence (env:=willing) awaiting_node true 5 true).
  - eapply good_sane, (node_run_good (env:=willing)).
    apply run_ops_node; [apply NodeSpawned; by vm_compute|set_solver].
  - by vm_compute.
Defined.

(** ** The worker's preparation *)

(** The calls of a successful preparation, latest first. *)
Definition prepare_calls (g : Z) : trace :=
  [(IsRunning Distributed, Success); (LeaseIsValid, Success); (Start Distributed g, Success);
   (LeaseIsValid, Success); (Stop Standalone, Success); (LeaseIsValid, Success);
   (WaitForZero g, Success)].

(** What a failed preparation leaves. *)
Definition prepare_failed (e : WorkerLifecycleError) (w w' : World) : Prop :=
  match e with
  | WorkerLifecycleError.Drain _ =>
      (gate w' = gate w ∨ Admission.state (gate w') = AdmissionState.Draining) ∧
      possibly_up Distributed (calls w') = possibly_up Distributed (calls w)
  | WorkerLifecycleError.Cleanup _ => Admission.state (gate w') = AdmissionState.Blocked
  | _ => Admission.state (gate w') = AdmissionState.Blocked ∧
         possibly_up Distributed (calls w') = false
  end.

Section Prepare.
Context `{env : Environment}.

(** Preparing a worker either succeeds, with the requests
    drained, then the standalone stopped, then the distributed child started at the
    given generation and seen running, under a lease checked before and after each of
    them, and the gate blocked; or it fails: before any call to a child if the drain
    failed, and otherwise with the gate blocked and the distributed child stopped,
    unless the error says that this cleanup failed.  The cluster state and the route
    are untouched. *)
Lemma worker_prepare_spec g w r w' :
  prepare g w = (r, w') →
  cluster w' = cluster w ∧ proxy_target w' = proxy_target w ∧
  match r with
  | Ok _ =>
      calls w' = prepare_calls g ++ calls w ∧
      gate w' = mkInner AdmissionState.Blocked (closed (gate w)) 0
                  (max_in_flight (gate w)) (Some g)
  | Err e => prepare_failed e w w'
  end.
Proof.
  intros Hrun.
  assert (wp (prepare g) (fun _ w' =>
      cluster w' = cluster w ∧ proxy_target w' = proxy_target w ∧
      calls w' = prepare_calls g ++ calls w ∧
      gate w' = mkInner AdmissionState.Blocked (closed (gate w)) 0
                  (max_in_flight (gate w)) (Some g))
    (fun e w' => cluster w' = cluster w ∧ proxy_target w' = proxy_target w ∧
      prepare_failed e w w') w) as H.
  { clear Hrun. unfold prepare, worker_lease. wp_run.
    all: repeat match goal with o : Outcome |- _ => destruct o end; try done.
    all: split_and!; try done; simpl; auto.
    all: unfold begin_drain, finish_drain in *; repeat (case_match; simplify_eq/=); auto. }
  unfold wp in H. rewrite Hrun in H. by destruct r.
Qed.

End Prepare.

(** A worker whose distributed child exits at once, and then does not stop either. *)
Definition crashing_child : Environment := fun _ c =>
  match c with IsRunning Distributed => Refused | Stop Distributed => Failure | _ => Success end.

Lemma worker_prepare_spec_witness :
  (∃ w', prepare (env:=willing) 9 (spawned willing) = (Ok tt, w') ∧
     cluster w' = cluster (spawned willing) ∧
     proxy_target w' = proxy_target (spawned willing) ∧
     calls w' = prepare_calls 9 ++ calls (spawned willing) ∧
     gate w' = mkInner AdmissionState.Blocked false 0 8 (Some 9)) ∧
  (∃ w', prepare (env:=crashing_child) 9 (spawned willing)
           = (Err (WorkerLifecycleError.Cleanup WorkerLifecycleError.EarlyExit), w') ∧
     cluster w' = cluster (spawned willing) ∧
     proxy_target w' = proxy_target (spawned willing) ∧
     prepare_failed (WorkerLifecycleError.Cleanup WorkerLifecycleError.EarlyExit)
       (spawned willing) w').
Proof.
  split; (eexists; split; [by vm_compute|]).
  - apply (worker_prepare_spec (env:=willing) 9 (spawned willing) (Ok tt)). by vm_compute.
  - apply (worker_prepare_spec (env:=crashing_child) 9 (spawned willing)
      (Err (WorkerLifecycleError.Cleanup WorkerLifecycleError.EarlyExit))). by vm_compute.
Defined.

(** ** Operations that leave the node short of service *)

Section Findings.
Context `{env : Environment}.

(** The forced-standalone policy and a deployment mismatch take the route down before
    they try the event; in [ManualInterventionRequired], where a node keeps serving its
    standalone, the reducer refuses it, and the gate stays blocked. *)
Lemma recovery_refused_in_manual k w :
  k = ClusterEventKind.PeerLost ∨ k = ClusterEventKind.DeploymentMismatch →
  state (cluster w) = ClusterState.ManualInterventionRequired →
  planned_restart_active w = false → completed_generation w < generation (cluster w) →
  ∃ e w', recover_to_solo k w = (Err (Apply e), w') ∧
    cluster w' = cluster w ∧ calls w' = calls w ∧
    Admission.state (gate w') = AdmissionState.Blocked ∧
    proxy_target w' = (transition_target, false).
Proof.
  intros Hk Hst Hpr Hgen. apply Z.leb_gt in Hgen.
  unfold recover_to_solo, self, mbind, method_bind, mret, method_ret.
  rewrite Hpr, Hst, Hgen.
  destruct Hk; subst k; unfold apply, machine_step; simpl;
    rewrite transition_unfold; simpl; rewrite Z.eqb_refl; simpl;
    unfold transition_table, transition_standalone_and_lp, transition_tp_and_generic; simpl;
    rewrite Hst; simpl; eauto 10.
Qed.

(** A promotion whose lease or control phase is gone after the HELLO fails without
    leaving [AwaitingWorkerHello]: with the peer present, no periodic reconcile moves
    it and every later promotion is denied. *)
Lemma promotion_stuck_awaiting policy w pre now resume hello :
  state (cluster w) = ClusterState.AwaitingWorkerHello →
  role (cluster w) = LocalRole.Coordinator →
  (∀ t, answer t PeerPresent = Success) →
  promote_internal policy resume hello pre now w = (Err Denied, w) ∧
  cluster (snd (reconcile_periodic policy now w)) = cluster w.
Proof.
  intros Hst Hrole Hpeer. split.
  - unfold promote_internal, self, require, fail, mbind, method_bind, mret, method_ret.
    rewrite Hrole, Hst. done.
  - assert (wp (reconcile_periodic policy now) (fun _ w' => cluster w' = cluster w)
      (fun _ w' => cluster w' = cluster w) w) as H.
    { assert (∀ E (Q : bool → World → Prop) (X : E → World → Prop) w0,
        Q true (with_call PeerPresent Success w0) → wp peer_is_present Q X w0) as Hp.
      { intros E Q X w0 HQ. unfold wp, peer_is_present, mbind, method_bind, call.
        by rewrite Hpeer. }
      unfold reconcile_periodic. wp_step. wp_step. rewrite Hrole, Hst. simpl.
      unfold reconcile_peer. wp_step. wp_step. wp_step.
      wp_step. apply Hp. simpl. unfold reconcile_present. wp_step. apply Hp.
      rewrite Hst, Hrole. simpl. wp_step; [by wp_run|].
      wp_step. unfold reconcile_peer_with_presence. wp_step. wp_step. simpl. rewrite Hrole, Hst. done. }
    unfold wp in H. by destruct (reconcile_periodic policy now w) as [[] ?].
Qed.

End Findings.

Example awaiting_node_stuck :
  state (cluster awaiting_node) = ClusterState.AwaitingWorkerHello ∧
  snd (run_op (env:=willing) open_policy promote_op awaiting_node) = awaiting_node.
Proof. by vm_compute. Qed.
