(* ===== verification/Supervised.v ===== *)
(** * The supervised children meet the environment's law

    [Node] proves its theorems for every environment in which a stop of a child that
    is not there succeeds.  Here the distributed child is the one of a
    [SupervisedSlot] of [Process]: whatever the kernel answers and whatever a start
    left in the slot, the resulting environment obeys the law. *)

From S2P Require Import Prelude Bytes Auth Target Operation Tp Control Hello Process.
From S2P Require Import Admission ClusterFsm Promotion Runtime Production Node.

Section Supervised.
Context {crypto : Crypto} {kernel : Kernel}.
Context (fuel : nat) (stop_timeout : Z) (allow_sigkill : bool).

(** What a start left in the slot, the machine at each call, and the answers of the
    calls that are no stop of the distributed child. *)
Context (started : trace → option ChildIdentity) (machine_at : trace → Machine)
  (elsewhere : trace → Call → Outcome).

(** The content of the slot after the calls of a trace: a start may leave a child or
    none, a stop that succeeded leaves none, and one that failed leaves the child. *)
Fixpoint slot_after (t : trace) : option ChildIdentity :=
  match t with
  | [] => None
  | (Start Distributed _, _) :: t' => started t
  | (Stop Distributed, Success) :: _ => None
  | _ :: t' => slot_after t'
  end.

(** The stop of the supervisor on that slot; it also resets the observed route, which
    no operation of the node reads.
    src/src/cluster/process/coordinator.rs:180-190 (DistributedCoordinatorSupervisor::stop_inner) *)
Definition stop_inner (t : trace) : Outcome :=
  match fst (slot_stop fuel stop_timeout allow_sigkill (mkSlot (slot_after t) (machine_at t))) with
  | Ok (Some _) => Success
  | Ok None => Expired
  | Err _ => Failure
  end.

Definition supervised : Environment := fun t c =>
  match c with
  | Stop Distributed => stop_inner t
  | _ => elsewhere t c
  end.

Lemma slot_after_idle t : possibly_up Distributed t = false → slot_after t = None.
Proof.
  induction t as [|[c o] t IH]; simpl; [done|].
  destruct c as [[]|[]| | | | | | | | |], o; simpl; auto; done.
Qed.

(** The slot the trace describes is the one [slot_stop] leaves. *)
Lemma slot_after_stop t :
  slot_after ((Stop Distributed, stop_inner t) :: t) =
  match slot_stop fuel stop_timeout allow_sigkill (mkSlot (slot_after t) (machine_at t)) with
  | (Ok None, _) => slot_after t
  | (_, s') => slot_child s'
  end.
Proof.
  unfold stop_inner.
  destruct (slot_stop _ _ _ _) as [r s'] eqn:E. apply slot_stop_spec in E as [E _].
  simpl. destruct r as [[[]|]|e]; simpl in *; [done|done|]. by destruct E as [-> _].
Qed.

Global Instance supervised_lawful : LawfulEnvironment supervised.
Proof.
  intros t Ht. unfold supervised, stop_inner. rewrite (slot_after_idle t Ht).
  destruct (slot_stop _ _ _ _) as [r s'] eqn:E.
  apply slot_stop_spec in E as [_ E]. by destruct (E eq_refl) as [-> _].
Qed.

End Supervised.
