(* ===== verification/Utf8.v ===== *)
(** * UTF-8 strings

    Rust's [str]: the bytes of the text, well formed ([utf8_valid] of Bytes).  What
    the program uses of the standard library: characters, character boundaries,
    slices, [trim], [strip_prefix], [contains], [chars().take]. *)

From S2P Require Import Prelude Bytes.

(** The number of bytes of the character that starts with byte [b]
    ([char::len_utf8]). *)
Definition char_width (b : Z) : nat :=
  if b <? 128 then 1 else if b <? 224 then 2 else if b <? 240 then 3 else 4.

Definition is_continuation (b : Z) : bool := between 128 191 b.

(** [str::is_char_boundary]. *)
Definition is_char_boundary (s : bytes) (i : nat) : bool :=
  (i =? 0)%nat || match s !! i with
  | Some b => negb (is_continuation b)
  | None => (i =? length s)%nat
  end.

(** [&s[i..j]]. *)
Definition slice (i j : nat) (s : bytes) : bytes := take (j - i) (drop i s).

(** [s.chars()]: the Unicode scalar values. *)
Fixpoint chars (l : bytes) : list Z :=
  match l with
  | [] => []
  | b0 :: l1 =>
      if b0 <? 128 then b0 :: chars l1
      else match l1 with
      | [] => []
      | b1 :: l2 =>
          if b0 <? 224 then ((b0 - 192) * 64 + (b1 - 128)) :: chars l2
          else match l2 with
          | [] => []
          | b2 :: l3 =>
              if b0 <? 240
              then ((b0 - 224) * 4096 + (b1 - 128) * 64 + (b2 - 128)) :: chars l3
              else match l3 with
              | [] => []
              | b3 :: l4 =>
                  ((b0 - 240) * 262144 + (b1 - 128) * 4096 + (b2 - 128) * 64 + (b3 - 128))
                    :: chars l4
              end
          end
      end
  end.

(** [char::is_whitespace]: the Unicode property [White_Space]. *)
Definition is_whitespace (c : Z) : bool :=
  between 9 13 c || (c =? 32) || (c =? 133) || (c =? 160) || (c =? 5760)
  || between 8192 8202 c || (c =? 8232) || (c =? 8233) || (c =? 8239) || (c =? 8287)
  || (c =? 12288).

(** [s.trim().is_empty()]. *)
Definition trim_is_empty (s : bytes) : bool := forallb is_whitespace (chars s).

(** [s.strip_prefix(p)]. *)
Fixpoint strip_prefix (p s : bytes) : option bytes :=
  match p, s with
  | [], s => Some s
  | a :: p, b :: s => if a =? b then strip_prefix p s else None
  | _ :: _, [] => None
  end.

Lemma strip_prefix_spec p s r : strip_prefix p s = Some r ↔ s = p ++ r.
Proof.
  revert s. induction p as [|a p IH]; intros s; simpl; [naive_solver|].
  destruct s as [|b s]; [naive_solver|]. destruct (a =? b) eqn:E; bool_to_prop; subst.
  - rewrite IH. naive_solver.
  - naive_solver.
Qed.

(** [s.contains(p)]. *)
Fixpoint contains (p s : bytes) : bool :=
  starts_with p s || match s with [] => false | _ :: s => contains p s end.

(** The bytes of the first [n] characters: [s.chars().take(n).collect()]. *)
Fixpoint take_chars (n : nat) (s : bytes) : bytes :=
  match n, s with
  | S n, b :: _ => take (char_width b) s ++ take_chars n (drop (char_width b) s)
  | _, _ => []
  end.

#[global] Arguments take_chars !_ !_ / : simpl nomatch.

(** ** Well-formed text is a sequence of characters *)

(** One encoded character. *)
Definition one_char (c : bytes) : Prop :=
  ∃ b t, c = b :: t ∧ length c = char_width b ∧ is_continuation b = false
    ∧ Forall (fun x => is_continuation x = true) t ∧ utf8_valid c = true.

Lemma between_true lo hi b : between lo hi b = true ↔ lo ≤ b ≤ hi.
Proof. unfold between. rewrite andb_true_iff. lia. Qed.

Lemma between_false lo hi b : between lo hi b = false ↔ ¬ (lo ≤ b ≤ hi).
Proof. rewrite <-between_true. by destruct (between lo hi b). Qed.

(** Evaluate the tests on a byte whose range is known. *)
Ltac decide_byte :=
  repeat match goal with
  | |- context [?a <? ?b] =>
      first [rewrite (proj2 (Z.ltb_lt a b)) by lia | rewrite (proj2 (Z.ltb_ge a b)) by lia]
  | |- context [?a =? ?b] =>
      first [rewrite (proj2 (Z.eqb_eq a b)) by lia | rewrite (proj2 (Z.eqb_neq a b)) by lia]
  | |- context [between ?a ?b ?c] =>
      first [rewrite (proj2 (between_true a b c)) by lia
            |rewrite (proj2 (between_false a b c)) by lia]
  end.

(** [utf8_valid] of a text that starts with a character of each width. *)
Lemma utf8_valid_split b l :
  utf8_valid (b :: l) = true →
  ∃ t rest, l = t ++ rest ∧ S (length t) = char_width b
    ∧ (b < 128 ∨ 194 ≤ b) ∧ Forall (fun x => is_continuation x = true) t
    ∧ utf8_valid (b :: t) = true ∧ utf8_valid rest = true.
Proof.
  assert (finish : ∀ t rest, (b < 128 ∨ 194 ≤ b) → S (length t) = char_width b →
    Forall (fun x => 128 ≤ x ≤ 191) t → utf8_valid (b :: t) = true →
    utf8_valid rest = true →
    ∃ t' rest', t ++ rest = t' ++ rest' ∧ S (length t') = char_width b
    ∧ (b < 128 ∨ 194 ≤ b) ∧ Forall (fun x => is_continuation x = true) t'
    ∧ utf8_valid (b :: t') = true ∧ utf8_valid rest' = true).
  { intros t rest ?? Ht ??. exists t, rest. split_and!; try done.
    eapply Forall_impl; [exact Ht|]. intros x ?. by apply between_true. }
  intros H. simpl in H. repeat (case_match; try done); bool_to_prop;
    rewrite ?between_true, ?between_false in *;
    let fin t r := (solve [apply (finish t r); try lia; try done; try (repeat (constructor; try lia));
      unfold char_width; simpl; decide_byte; done]) in
    match goal with
    | |- context [?x :: ?y :: ?z :: ?r = _] =>
        first [fin [x; y; z] r | fin [x; y] (z :: r) | fin [x] (y :: z :: r)
              | fin (@nil Z) (x :: y :: z :: r)]
    | |- context [?x :: ?y :: ?r = _] =>
        first [fin [x; y] r | fin [x] (y :: r) | fin (@nil Z) (x :: y :: r)]
    | |- context [?x :: ?r = _] => first [fin [x] r | fin (@nil Z) (x :: r)]
    | |- context [?r = _] => fin (@nil Z) r
    end.
Qed.

(** The first character of a well-formed text, and what follows it. *)
Lemma utf8_valid_cons b l :
  utf8_valid (b :: l) = true →
  ∃ c rest, b :: l = c ++ rest ∧ one_char c ∧ utf8_valid rest = true.
Proof.
  intros (t & rest & -> & Hl & Hb & Ht & Hv & Hr)%utf8_valid_split.
  exists (b :: t), rest. split_and!; [done| |done]. exists b, t. split_and!; try done.
  unfold is_continuation. rewrite between_false. lia.
Qed.

(** Induction over the characters of a well-formed text. *)
Lemma utf8_ind (P : bytes → Prop) :
  P [] →
  (∀ c rest, one_char c → utf8_valid rest = true → P rest → P (c ++ rest)) →
  ∀ l, utf8_valid l = true → P l.
Proof.
  intros Hnil Hcons l. induction (well_founded_ltof _ (@length Z) l) as [l _ IH].
  destruct l as [|b l]; [done|]. intros (c & rest & E & Hc & Hr)%utf8_valid_cons.
  rewrite E. apply Hcons; [done..|]. apply IH; [|done]. unfold ltof. rewrite E, length_app.
  destruct Hc as (? & ? & -> & _). simpl. lia.
Qed.

Lemma one_char_nonempty c : one_char c → (0 < length c)%nat.
Proof. intros (b & t & -> & _). simpl. lia. Qed.

Lemma utf8_valid_app_char c rest :
  one_char c → utf8_valid (c ++ rest) = utf8_valid rest.
Proof.
  intros (b & t & -> & Hl & _ & _ & Hv). unfold char_width in Hl. revert Hl Hv.
  destruct t as [|b1 [|b2 [|b3 [|]]]]; simpl; intros; repeat (case_match; try lia; try done);
    bool_to_prop; rewrite ?between_true, ?between_false in *; simpl; decide_byte; simpl;
    try done; try lia.
Qed.

Lemma utf8_valid_app a b :
  utf8_valid a = true → utf8_valid (a ++ b) = utf8_valid b.
Proof.
  revert a. apply utf8_ind; [done|]. intros c rest Hc _ IH.
  by rewrite <-app_assoc, utf8_valid_app_char.
Qed.

Lemma utf8_valid_concat l : Forall (fun c => utf8_valid c = true) l → utf8_valid (concat l) = true.
Proof. induction 1; simpl; [done|]. by rewrite utf8_valid_app. Qed.

(** Inside a character there is no boundary; after it, the boundaries are those of
    the text that follows. *)
Lemma is_char_boundary_inside c rest i :
  one_char c → (0 < i < length c)%nat → is_char_boundary (c ++ rest) i = false.
Proof.
  intros (b & t & -> & _ & _ & Ht & _) Hi. unfold is_char_boundary.
  rewrite lookup_app_l by lia. destruct i as [|i]; [lia|]. simpl in *.
  destruct (t !! i) as [x|] eqn:E; [|apply lookup_ge_None in E; lia].
  rewrite Forall_lookup in Ht. by rewrite (Ht i x E).
Qed.

Lemma is_char_boundary_after c rest i :
  one_char c → utf8_valid rest = true → (length c ≤ i)%nat →
  is_char_boundary (c ++ rest) i = is_char_boundary rest (i - length c).
Proof.
  intros Hc Hr Hi. unfold is_char_boundary. pose proof (one_char_nonempty c Hc).
  rewrite lookup_app_r, length_app by lia.
  rewrite (proj2 (Nat.eqb_neq i 0)) by lia. simpl.
  destruct (i - length c =? 0)%nat eqn:E.
  - apply Nat.eqb_eq in E. rewrite E. simpl. destruct rest as [|b rest]; simpl.
    + apply Nat.eqb_eq. lia.
    + apply utf8_valid_cons in Hr as (c' & r & Er & (b' & t & -> & _ & Hb & _) & _).
      simplify_eq/=. by rewrite Hb.
  - destruct (rest !! (i - length c)%nat) eqn:?; [done|]. simpl.
    apply Nat.eqb_neq in E. destruct (decide (i = (length c + length rest)%nat)) as [->|].
    + rewrite !(proj2 (Nat.eqb_eq _ _)) by lia. done.
    + rewrite !(proj2 (Nat.eqb_neq _ _)) by lia. done.
Qed.

(** Cutting a well-formed text at a boundary gives two well-formed texts. *)
Lemma cut_at_boundary s : ∀ i,
  utf8_valid s = true → is_char_boundary s i = true →
  utf8_valid (take i s) = true ∧ utf8_valid (drop i s) = true.
Proof.
  intros i Hs. revert s Hs i. refine (utf8_ind _ _ _); [intros i; by destruct i|].
  intros c rest Hc Hr IH i Hb. pose proof (one_char_nonempty c Hc).
  destruct (decide (i = 0%nat)) as [->|]; [split; [done|]; by rewrite drop_0, utf8_valid_app_char|].
  destruct (decide (i < length c)%nat).
  { by rewrite (is_char_boundary_inside c rest i) in Hb by (done || lia). }
  rewrite is_char_boundary_after in Hb by (done || lia).
  rewrite take_app_ge, drop_app_ge by lia.
  destruct (IH _ Hb). by rewrite utf8_valid_app_char.
Qed.

(** The end of the first character is a boundary. *)
Lemma first_char_boundary s b t :
  s = b :: t → utf8_valid s = true →
  (char_width b ≤ length s)%nat ∧ is_char_boundary s (char_width b) = true
    ∧ one_char (take (char_width b) s).
Proof.
  intros -> (c & rest & E & Hc & Hr)%utf8_valid_cons. pose proof Hc as (b' & t' & -> & Hl & _).
  simplify_eq/=. rewrite <-Hl. rewrite !app_comm_cons in *. split_and!.
  - rewrite length_app. simpl. lia.
  - rewrite (is_char_boundary_after (b' :: t')) by done. by rewrite Nat.sub_diag.
  - simpl. by rewrite take_app_length.
Qed.

(** A boundary of the text after [i] is a boundary of the text. *)
Lemma is_char_boundary_drop s i k :
  utf8_valid s = true → is_char_boundary s i = true → (i ≤ length s)%nat →
  is_char_boundary (drop i s) k = is_char_boundary s (i + k).
Proof.
  intros Hs Hi Hlen. destruct (decide (k = 0%nat)) as [->|].
  { rewrite Nat.add_0_r, Hi. done. }
  unfold is_char_boundary. rewrite lookup_drop, length_drop.
  rewrite !(proj2 (Nat.eqb_neq _ 0)) by lia. simpl.
  destruct (s !! (i + k)%nat); [done|].
  destruct (decide (i + k = length s)%nat).
  - rewrite !(proj2 (Nat.eqb_eq _ _)) by lia. done.
  - rewrite !(proj2 (Nat.eqb_neq _ _)) by lia. done.
Qed.

Lemma take_chars_cons n c rest :
  one_char c → take_chars (S n) (c ++ rest) = c ++ take_chars n rest.
Proof.
  intros (b & t & -> & Hl & _). simpl. rewrite <-Hl. simpl.
  by rewrite take_app_length, drop_app_length.
Qed.

(** The characters taken from the front of a well-formed text are well formed and a
    prefix of it. *)
Lemma take_chars_prefix s n :
  utf8_valid s = true → utf8_valid (take_chars n s) = true ∧ take_chars n s `prefix_of` s.
Proof.
  intros Hs. revert s Hs n. refine (utf8_ind _ _ _).
  { intros [|n]; simpl; split; done || apply prefix_nil. }
  intros c rest Hc Hr IH [|n]; [split; [done|apply prefix_nil]|].
  rewrite take_chars_cons, utf8_valid_app_char by done.
  destruct (IH n) as [? Hp]. split; [done|by apply prefix_app].
Qed.

Lemma chars_app_char c rest :
  one_char c → ∃ x, chars (c ++ rest) = x :: chars rest.
Proof.
  intros (b & t & -> & Hl & _). unfold char_width in Hl. revert Hl.
  destruct t as [|b1 [|b2 [|b3 [|]]]]; simpl; intros;
    repeat (case_match; try lia; try done); eauto; congruence.
Qed.

(** [chars().take(n)] leaves at most [n] characters. *)
Lemma take_chars_length s n :
  utf8_valid s = true → (length (chars (take_chars n s)) ≤ n)%nat.
Proof.
  intros Hs. revert s Hs n. refine (utf8_ind _ _ _); [intros [|n]; simpl; lia|].
  intros c rest Hc Hr IH [|n]; [simpl; lia|]. rewrite take_chars_cons by done.
  destruct (chars_app_char c (take_chars n rest) Hc) as [x ->]. simpl. specialize (IH n). lia.
Qed.
