(* ===== verification/Json.v ===== *)
(** * JSON values

    [serde_json::Value] as the program reads and builds it.  The parser and the
    printer are the library's: [Serde] is what the components see of them, with the
    one law they rely on, that the text of a value is at least as long as the strings
    in it. *)

From S2P Require Import Prelude Bytes Utf8.

(** [serde_json::Value]; a number is its literal, an object its members. *)
Module Value.

Inductive Value :=
| Null
| Bool (b : bool)
| Number (literal : bytes)
| String (s : bytes)
| Array (items : list Value)
| Object (members : list (string * Value)).

End Value.
Notation Value := Value.Value.

(** [json!] of a string literal and of a [usize]. *)
Definition jstr (s : string) : Value := Value.String (str s).
Definition jnum (n : Z) : Value := Value.Number (u64_to_string n).

Fixpoint member (k : string) (l : list (string * Value)) : option Value :=
  match l with
  | [] => None
  | (k', v) :: l => if bool_decide (k = k') then Some v else member k l
  end.

(** [v.get(k)], [v.as_str()], [v.as_array()]. *)
Definition get (k : string) (v : Value) : option Value :=
  match v with Value.Object l => member k l | _ => None end.
Definition as_str (v : Value) : option bytes :=
  match v with Value.String s => Some s | _ => None end.
Definition as_array (v : Value) : option (list Value) :=
  match v with Value.Array l => Some l | _ => None end.

(** [v[k]]: [Null] when there is no such member. *)
Definition index (k : string) (v : Value) : Value := default Value.Null (get k v).

(** [v[k] = x] on an object: replace the member or append it. *)
Fixpoint set_member (k : string) (x : Value) (l : list (string * Value))
    : list (string * Value) :=
  match l with
  | [] => [(k, x)]
  | (k', v) :: l => if bool_decide (k = k') then (k, x) :: l else (k', v) :: set_member k x l
  end.
Definition set_index (k : string) (x v : Value) : Value :=
  match v with Value.Object l => Value.Object (set_member k x l) | _ => v end.

(** [v == "s"]. *)
Definition is_str (s : string) (v : Value) : bool :=
  match v with Value.String x => bool_decide (x = str s) | _ => false end.

(** The strings that occur as values in a JSON value. *)
Fixpoint strings_of (v : Value) : list bytes :=
  match v with
  | Value.String s => [s]
  | Value.Array l => concat (map strings_of l)
  | Value.Object l => concat (map (fun kv => strings_of (snd kv)) l)
  | _ => []
  end.

(** [serde_json]: [from_slice] and [from_str] fail on anything but one JSON text;
    [to_string] prints a value. *)
Class Serde := {
  from_slice : bytes → option Value;
  to_string : Value → bytes;
}.

(** A string value is printed byte by byte, each as itself or as a longer escape. *)
Class SerdeLaws `{Serde} : Prop := {
  to_string_length : ∀ v s, s ∈ strings_of v → (length s ≤ length (to_string v))%nat;
}.

Lemma member_set k x l : member k (set_member k x l) = Some x.
Proof.
  induction l as [|[k' v] l IH]; simpl; [by rewrite bool_decide_true|].
  case_bool_decide; simpl; [by rewrite bool_decide_true|]. by rewrite bool_decide_false.
Qed.

Lemma member_set_ne k k' x l : k ≠ k' → member k (set_member k' x l) = member k l.
Proof.
  intros Hk. induction l as [|[k2 v] l IH]; simpl; [by rewrite bool_decide_false|].
  case_bool_decide; simpl; subst; [by rewrite !bool_decide_false by done|by rewrite IH].
Qed.

(** A compact printer, an instance of the interface: strings are quoted, a quote or
    a backslash is escaped and a control byte is printed as a six-byte escape. *)
Module CompactPrinter.

Definition hex (n : Z) : Z := if n <? 10 then 48 + n else 87 + n.

Definition escape (b : Z) : bytes :=
  if (b =? 34) || (b =? 92) then [92; b]
  else if b <? 32 then [92; 117; 48; 48; hex (b / 16); hex (b mod 16)]
  else [b].

Definition quote (s : bytes) : bytes := 34 :: concat (map escape s) ++ [34].

Fixpoint join (l : list bytes) : bytes :=
  match l with
  | [] => []
  | [x] => x
  | x :: l => x ++ 44 :: join l
  end.

Definition bytes_of (s : string) : bytes := str s.

Fixpoint print (v : Value) : bytes :=
  match v with
  | Value.Null => str "null"
  | Value.Bool b => if b then str "true" else str "false"
  | Value.Number n => n
  | Value.String s => quote s
  | Value.Array l => 91 :: join (map print l) ++ [93]
  | Value.Object l =>
      123 :: join (map (fun kv => quote (bytes_of (fst kv)) ++ 58 :: print (snd kv)) l)
          ++ [125]
  end.

End CompactPrinter.

(** A library in which no text parses and values print compactly. *)
Definition printing_serde : Serde :=
  {| from_slice _ := None; to_string := CompactPrinter.print |}.

Section printer.
Import CompactPrinter.

Lemma escape_length b : (1 ≤ length (escape b))%nat.
Proof. unfold escape. repeat case_match; simpl; lia. Qed.

Lemma quote_length s : (length s ≤ length (quote s))%nat.
Proof.
  unfold quote. simpl. rewrite length_app. induction s as [|b s IH]; simpl; [lia|].
  rewrite length_app. pose proof (escape_length b). simpl in *. lia.
Qed.

Lemma join_length x l : x ∈ l → (length x ≤ length (join l))%nat.
Proof.
  induction l as [|y l IH]; [by intros ?%not_elem_of_nil|].
  intros [<-|Hx]%elem_of_cons; destruct l as [|z l].
  - simpl. lia.
  - change (join (x :: z :: l)) with (x ++ 44 :: join (z :: l)). rewrite length_app. lia.
  - by apply not_elem_of_nil in Hx.
  - change (join (y :: z :: l)) with (y ++ 44 :: join (z :: l)). rewrite length_app.
    specialize (IH Hx). simpl in *. lia.
Qed.

(** Induction over JSON values, through arrays and objects. *)
Lemma value_ind' (P : Value → Prop) :
  P Value.Null → (∀ b, P (Value.Bool b)) → (∀ n, P (Value.Number n)) →
  (∀ s, P (Value.String s)) →
  (∀ l, Forall P l → P (Value.Array l)) →
  (∀ l, Forall (fun kv => P (snd kv)) l → P (Value.Object l)) → ∀ v, P v.
Proof.
  intros Hn Hb Hnum Hs Ha Ho. fix IH 1.
  intros [|b|n|s|l|l]; [exact Hn|exact (Hb b)|exact (Hnum n)|exact (Hs s)| |].
  - apply Ha. induction l; constructor; auto.
  - apply Ho. induction l as [|[k v] l]; constructor; simpl; auto.
Qed.

(** A string that occurs under one of the members of a list. *)
Lemma elem_of_concat_map {A B} (f : A → list B) (l : list A) x :
  x ∈ concat (map f l) ↔ ∃ a, a ∈ l ∧ x ∈ f a.
Proof.
  rewrite list_elem_of_In, in_concat. setoid_rewrite in_map_iff.
  setoid_rewrite list_elem_of_In. naive_solver.
Qed.

Lemma print_length v s : s ∈ strings_of v → (length s ≤ length (print v))%nat.
Proof.
  revert v. refine (value_ind' _ _ _ _ _ _ _); simpl; try (intros; by set_solver).
  - intros s' ->%list_elem_of_singleton. apply quote_length.
  - intros l IH (v & Hv & Hs)%elem_of_concat_map. rewrite Forall_forall in IH.
    specialize (IH v Hv Hs). rewrite length_app. simpl.
    pose proof (join_length (print v) (map print l)) as Hj.
    specialize (Hj ltac:(by apply list_elem_of_fmap_2)). lia.
  - intros l IH (v & Hv & Hs)%elem_of_concat_map. rewrite Forall_forall in IH.
    specialize (IH v Hv Hs). rewrite length_app. simpl.
    set (f := fun kv : string * Value => quote (bytes_of (fst kv)) ++ 58 :: print (snd kv)).
    pose proof (join_length (f v) (map f l)) as Hj.
    specialize (Hj ltac:(by apply list_elem_of_fmap_2)). revert Hj. subst f. simpl. rewrite !length_app. simpl. lia.
Qed.

End printer.

Global Instance printing_serde_laws : @SerdeLaws printing_serde.
Proof. constructor. exact print_length. Qed.
