(* ===== verification/WebRequest.v ===== *)
(** * Web search bridge: requests

    [websearch/wire.rs], [websearch/request.rs] and [websearch/history.rs]: the body
    of [POST /v1/responses], its validation, and the conversion of the conversation
    history to the chat messages that are sent to DS4.  A Rust [String] is its bytes;
    the JSON decoder that serde derives for [ResponsesRequest] is the library's. *)

From S2P Require Import Prelude Bytes Utf8 Json.

(** ** The wire types *)

(** src/src/websearch/wire.rs:132-146 (ContentItem) *)
Module ContentItem.
Inductive ContentItem :=
| InputText (text : bytes)
| OutputText (text : bytes)
| InputImage (image_url : bytes)
| InputAudio (audio_url : bytes).
End ContentItem.
Notation ContentItem := ContentItem.ContentItem.

(** src/src/websearch/wire.rs:240-260 (WebSearchAction) *)
Module WebSearchAction.
Inductive WebSearchAction :=
| Search (query : option bytes) (queries : option (list bytes))
| OpenPage (url : option bytes)
| FindInPage (url pattern : option bytes)
| Other.
End WebSearchAction.
Notation WebSearchAction := WebSearchAction.WebSearchAction.

(** src/src/websearch/wire.rs:70-130 (ResponseInputItem) *)
Module ResponseInputItem.
Inductive ResponseInputItem :=
| Message (role : bytes) (content : list ContentItem)
| FunctionCall (id : option bytes) (name arguments call_id : bytes)
| CustomToolCall (id : option bytes) (name input call_id : bytes)
| FunctionCallOutput (name : option bytes) (call_id : bytes) (output : Value)
| CustomToolCallOutput (name : option bytes) (call_id : bytes) (output : Value)
| Reasoning (summary : list Value) (encrypted_content : option bytes)
| WebSearchCall (id : bytes) (status : option bytes) (action : option WebSearchAction).
End ResponseInputItem.
Notation ResponseInputItem := ResponseInputItem.ResponseInputItem.

(** src/src/websearch/wire.rs:60-68 (ResponseInput) *)
Module ResponseInput.
Inductive ResponseInput :=
| String (text : bytes)
| Items (items : list ResponseInputItem).
End ResponseInput.
Notation ResponseInput := ResponseInput.ResponseInput.

(** src/src/websearch/wire.rs:190-196 (WebSearchFilters) *)
Record WebSearchFilters := {
  allowed_domains : option (list bytes);
  excluded_domains : option (list bytes);
}.

(** src/src/websearch/wire.rs:160-188 (WebSearchTool) *)
Record WebSearchTool := {
  external_web_access : bool;
  indexed_web_access : option bool;
  filters : option WebSearchFilters;
  user_location : option Value;
  search_context_size : option bytes;
  search_content_types : option (list bytes);
}.

(** src/src/websearch/wire.rs:198-207 (FunctionTool) *)
Record FunctionTool := {
  ft_name : bytes;
  ft_description : option bytes;
  ft_parameters : option Value;
}.

(** src/src/websearch/wire.rs:148-158 (ResponseTool) *)
Module ResponseTool.
Inductive ResponseTool :=
| WebSearch (w : WebSearchTool)
| Function (f : FunctionTool).
End ResponseTool.
Notation ResponseTool := ResponseTool.ResponseTool.

(** src/src/websearch/wire.rs:209-221 (ToolChoice) *)
Module ToolChoice.
Inductive ToolChoice :=
| String (s : bytes)
| Specific (kind name : bytes).
End ToolChoice.
Notation ToolChoice := ToolChoice.ToolChoice.

(** src/src/websearch/wire.rs:231-238 (TextFormat) *)
Module TextFormat.
Inductive TextFormat := Text | JsonObject | JsonSchema (schema : Value).
End TextFormat.
Notation TextFormat := TextFormat.TextFormat.

(** src/src/websearch/wire.rs:14-58 (ResponsesRequest) *)
Record ResponsesRequest := {
  rr_model : bytes;
  input : ResponseInput;
  instructions : option bytes;
  rr_stream : option bool;
  rr_max_output_tokens : option Z;
  tools : option (list ResponseTool);
  tool_choice : option ToolChoice;
  (** [text: Option<TextControls>], whose one field is [format]. *)
  text_format : option (option TextFormat);
  store : option bool;
  previous_response_id : option bytes;
  reasoning : option Value;
  include : option (list bytes);
  rr_parallel_tool_calls : option bool;
}.

(** ** Validated requests *)

Definition MAX_BODY_BYTES : Z := 2 * 1024 * 1024.
Definition MAX_INPUT_BYTES : Z := 1024 * 1024.
Definition INTERNAL_SEARCH_TOOL_NAME : bytes := str "siderostat_web_search".

(** src/src/websearch/request.rs:23-30 (RequestError) *)
Module RequestError.
Inductive RequestError := BadRequest (message : bytes) | PayloadTooLarge (message : bytes).
End RequestError.
Notation RequestError := RequestError.RequestError.

(** src/src/websearch/request.rs:60-69 (ChatToolCall) *)
Record ChatToolCall := {
  tc_id : bytes;
  tc_name : bytes;
  tc_arguments : bytes;
}.

(** src/src/websearch/request.rs:43-58 (ChatMessage) *)
Record ChatMessage := {
  role : bytes;
  content : bytes;
  tool_calls : list ChatToolCall;
  tool_call_id : option bytes;
}.

Global Instance ChatToolCall_eq_dec : EqDecision ChatToolCall.
Proof. solve_decision. Defined.
Global Instance ChatMessage_eq_dec : EqDecision ChatMessage.
Proof. solve_decision. Defined.

(** A message without tool calls ([..ChatMessage::default()]). *)
Definition plain_message (r c : bytes) : ChatMessage :=
  {| role := r; content := c; tool_calls := []; tool_call_id := None |}.

(** src/src/websearch/request.rs:76-88 (ValidatedSearch) *)
Record ValidatedSearch := {
  live : bool;
  required : bool;
  query_max_chars : Z;
}.

(** src/src/websearch/request.rs:90-101 (ValidatedResponseRequest) *)
Record ValidatedResponseRequest := {
  v_model : bytes;
  messages : list ChatMessage;
  v_stream : bool;
  v_max_output_tokens : option Z;
  v_parallel_tool_calls : option bool;
  search : option ValidatedSearch;
}.

Section request.
Context `{Serde}.
Open Scope rust_scope.

Definition bad {A} (s : string) : result A RequestError := Err (RequestError.BadRequest (str s)).

(** src/src/websearch/request.rs:113-121 (check_input_size) *)
Definition check_input_size (s : bytes) : result unit RequestError :=
  ensure (Z.of_nat (length s) <=? MAX_INPUT_BYTES)
    (RequestError.PayloadTooLarge (str "input exceeds the 1048576-byte limit")).

(** src/src/websearch/request.rs:123-134 (search_required) *)
Definition search_required (choice : option ToolChoice) : bool :=
  match choice with
  | Some (ToolChoice.String s) => bool_decide (s = str "required")
  | Some (ToolChoice.Specific kind _) => bool_decide (kind = str "web_search")
  | None => false
  end.

(** src/src/websearch/request.rs:136-141 (search_forbidden) *)
Definition search_forbidden (choice : option ToolChoice) : bool :=
  match choice with
  | Some (ToolChoice.String s) => bool_decide (s = str "none")
  | _ => false
  end.

Definition nonempty (l : option (list bytes)) : bool :=
  is_some_and l (fun d => negb (bool_decide (d = []))).

(** src/src/websearch/request.rs:143-188 (validate_web_search) *)
Definition validate_web_search (tool : WebSearchTool) : result bool RequestError :=
  if bool_decide (indexed_web_access tool = Some true)
  then bad "web_search indexed access is unsupported in this bridge"
  else if is_some_and (filters tool)
            (fun f => nonempty (allowed_domains f) || nonempty (excluded_domains f))
  then bad "web_search filters are unsupported in this bridge"
  else if is_some (user_location tool)
  then bad "web_search user_location is unsupported in this bridge"
  else if is_some_and (search_content_types tool)
            (existsb (fun t => bool_decide (t = str "image")))
  then bad "web_search image search is unsupported in this bridge"
  else Ok (external_web_access tool && negb (bool_decide (indexed_web_access tool = Some true))).

(** ** History *)

(** Append a part to the text so far, on a line of its own. *)
Definition append_line (text t : bytes) : bytes :=
  (match text with [] => [] | _ => text ++ [byte_newline] end) ++ t.

(** src/src/websearch/history.rs:183-202 (message_text) *)
Fixpoint message_text_loop (parts : list ContentItem) (text : bytes)
    : result bytes RequestError :=
  match parts with
  | [] => Ok text
  | (ContentItem.InputText t | ContentItem.OutputText t) :: parts =>
      message_text_loop parts (append_line text t)
  | (ContentItem.InputImage _ | ContentItem.InputAudio _) :: _ =>
      bad "image/audio input is unsupported in this bridge"
  end.
Definition message_text (parts : list ContentItem) : result bytes RequestError :=
  message_text_loop parts [].

(** src/src/websearch/history.rs:204-226 (output_to_text) *)
Definition output_to_text (output : Value) : bytes :=
  match output with
  | Value.String s => s
  | Value.Array items =>
      foldl (fun text item =>
        match get "text" item ≫= as_str with
        | Some t => append_line text t
        | None => text
        end) [] items
  | other => to_string other
  end.

Definition assistant_call (name arguments call_id : bytes) : ChatMessage :=
  {| role := str "assistant"; content := [];
     tool_calls := [{| tc_id := call_id; tc_name := name; tc_arguments := arguments |}];
     tool_call_id := None |}.

Definition tool_output (call_id : bytes) (output : Value) : ChatMessage :=
  {| role := str "tool"; content := output_to_text output; tool_calls := [];
     tool_call_id := Some call_id |}.

(** src/src/websearch/history.rs:42-158 (HistoryAdapter::to_chat_messages) *)
Fixpoint to_chat_messages_loop (items : list ResponseInputItem) (messages : list ChatMessage)
    (issued_calls : list bytes) : result (list ChatMessage) RequestError :=
  match items with
  | [] => Ok messages
  | item :: items =>
      match item with
      | ResponseInputItem.Message r c =>
          let? text := message_text c in
          to_chat_messages_loop items (messages ++ [plain_message r text]) issued_calls
      | ResponseInputItem.FunctionCall _ name arguments call_id
      | ResponseInputItem.CustomToolCall _ name arguments call_id =>
          to_chat_messages_loop items (messages ++ [assistant_call name arguments call_id])
            (issued_calls ++ [call_id])
      | ResponseInputItem.FunctionCallOutput _ call_id output =>
          if bool_decide (call_id ∈ issued_calls)
          then to_chat_messages_loop items (messages ++ [tool_output call_id output])
                 issued_calls
          else Err (RequestError.BadRequest (str "unknown function call_id '" ++ call_id
                 ++ str "': no matching function_call in history"))
      | ResponseInputItem.CustomToolCallOutput _ call_id output =>
          if bool_decide (call_id ∈ issued_calls)
          then to_chat_messages_loop items (messages ++ [tool_output call_id output])
                 issued_calls
          else Err (RequestError.BadRequest (str "unknown custom tool call_id '" ++ call_id
                 ++ str "': no matching call in history"))
      | ResponseInputItem.Reasoning _ encrypted_content =>
          if is_some encrypted_content
          then bad "encrypted reasoning is unsupported (not in the tracked wire profile)"
          else to_chat_messages_loop items messages issued_calls
      | ResponseInputItem.WebSearchCall _ _ action =>
          match action with
          | Some (WebSearchAction.Search _ _) =>
              to_chat_messages_loop items
                (messages ++ [plain_message (str "assistant") (str "[web search performed]")])
                issued_calls
          | _ => bad "web_search open_page/find_in_page is unsupported in this bridge"
          end
      end
  end.

(** src/src/websearch/history.rs:36-41 (HistoryAdapter::to_chat_messages) *)
Definition history_to_chat_messages (items : list ResponseInputItem)
    : result (list ChatMessage) RequestError :=
  to_chat_messages_loop items [] [].

(** src/src/websearch/history.rs:161-180 (HistoryAdapter::check_tool_name_conflict) *)
Fixpoint check_tool_name_conflict (l : list ResponseTool) : result unit RequestError :=
  match l with
  | [] => Ok tt
  | ResponseTool.Function f :: l =>
      if bool_decide (ft_name f = INTERNAL_SEARCH_TOOL_NAME)
      then Err (RequestError.BadRequest (str "tool name '" ++ INTERNAL_SEARCH_TOOL_NAME
             ++ str "' is reserved for the internal web search tool; user tools must not collide with it"))
      else check_tool_name_conflict l
  | ResponseTool.WebSearch _ :: l => check_tool_name_conflict l
  end.

(** src/src/websearch/request.rs:293-328 (ResponsesRequest::to_chat_messages) *)
Definition to_chat_messages (r : ResponsesRequest) : result (list ChatMessage) RequestError :=
  let system :=
    match instructions r with
    | Some i => if trim_is_empty i then [] else [plain_message (str "system") i]
    | None => []
    end in
  match input r with
  | ResponseInput.String text =>
      let? _ := check_input_size text in
      Ok (system ++ [plain_message (str "user") text])
  | ResponseInput.Items items =>
      let? converted := history_to_chat_messages items in
      Ok (system ++ converted)
  end.

(** The loop over the declared tools: whether there is a web search tool and whether
    one of them is live.
    src/src/websearch/request.rs:232-250 (ResponsesRequest::validate) *)
Fixpoint scan_tools (l : list ResponseTool) (has_web_search_tool live : bool)
    : result (bool * bool) RequestError :=
  match l with
  | [] => Ok (has_web_search_tool, live)
  | ResponseTool.WebSearch w :: l =>
      let? v := validate_web_search w in
      scan_tools l true (v || live)
  | ResponseTool.Function _ :: l => scan_tools l has_web_search_tool live
  end.

(** src/src/websearch/request.rs:190-291 (ResponsesRequest::validate) *)
Definition validate (r : ResponsesRequest) : result ValidatedResponseRequest RequestError :=
  if bool_decide (store r = Some true) then bad "store=true is unsupported (stateless bridge)"
  else if is_some (previous_response_id r)
  then bad "previous_response_id is unsupported (stateless bridge)"
  else if is_some (reasoning r) then bad "reasoning is unsupported in this bridge"
  else if nonempty (include r) then bad "include is unsupported in this bridge"
  else if match text_format r with
          | Some (Some TextFormat.Text) | Some None | None => false
          | Some (Some _) => true
          end
  then bad "text format other than plain text is unsupported in this bridge"
  else
    let? _ := match tools r with Some l => check_tool_name_conflict l | None => Ok tt end in
    let required := search_required (tool_choice r) in
    let forbidden := search_forbidden (tool_choice r) in
    let? scanned := match tools r with
      | Some l => scan_tools l false false
      | None => Ok (false, false)
      end in
    let '(has_web_search_tool, live) := scanned in
    let? search :=
      if forbidden then Ok None
      else if required && has_web_search_tool && negb live
      then bad "required web search is unsupported without a live web_search tool (cached-only search is not executed by this bridge)"
      else if live
      then Ok (Some {| live := true; required := required; query_max_chars := 1024 |})
      else Ok None in
    let? messages := to_chat_messages r in
    Ok {| v_model := rr_model r; messages := messages;
          v_stream := default false (rr_stream r);
          v_max_output_tokens := rr_max_output_tokens r;
          v_parallel_tool_calls := rr_parallel_tool_calls r;
          search := search |}.

End request.

(** ** What the conversion of the history promises *)

(** The call an item issues, and the call an item answers. *)
Definition issues (item : ResponseInputItem) : option bytes :=
  match item with
  | ResponseInputItem.FunctionCall _ _ _ call_id
  | ResponseInputItem.CustomToolCall _ _ _ call_id => Some call_id
  | _ => None
  end.

Definition answers (item : ResponseInputItem) : option bytes :=
  match item with
  | ResponseInputItem.FunctionCallOutput _ call_id _
  | ResponseInputItem.CustomToolCallOutput _ call_id _ => Some call_id
  | _ => None
  end.

Definition is_text (c : ContentItem) : bool :=
  match c with ContentItem.InputText _ | ContentItem.OutputText _ => true | _ => false end.

(** Text only, no encrypted reasoning, no page actions. *)
Definition supported (item : ResponseInputItem) : bool :=
  match item with
  | ResponseInputItem.Message _ c => forallb is_text c
  | ResponseInputItem.Reasoning _ e => is_none e
  | ResponseInputItem.WebSearchCall _ _ (Some (WebSearchAction.Search _ _)) => true
  | ResponseInputItem.WebSearchCall _ _ _ => false
  | _ => true
  end.

(** The text of a message: its parts, joined by newlines. *)
Definition text_of (c : ContentItem) : bytes :=
  match c with
  | ContentItem.InputText t | ContentItem.OutputText t => t
  | ContentItem.InputImage _ | ContentItem.InputAudio _ => []
  end.
Definition joined_text (parts : list ContentItem) : bytes :=
  foldl append_line [] (map text_of parts).

(** The chat message an item becomes; reasoning is not sent. *)
Definition item_message `{Serde} (item : ResponseInputItem) : option ChatMessage :=
  match item with
  | ResponseInputItem.Message r c => Some (plain_message r (joined_text c))
  | ResponseInputItem.FunctionCall _ name arguments call_id
  | ResponseInputItem.CustomToolCall _ name arguments call_id =>
      Some (assistant_call name arguments call_id)
  | ResponseInputItem.FunctionCallOutput _ call_id output
  | ResponseInputItem.CustomToolCallOutput _ call_id output =>
      Some (tool_output call_id output)
  | ResponseInputItem.Reasoning _ _ => None
  | ResponseInputItem.WebSearchCall _ _ _ =>
      Some (plain_message (str "assistant") (str "[web search performed]"))
  end.

(** Every item is supported and answers only a call issued before it. *)
Definition well_formed_history (items : list ResponseInputItem) : Prop :=
  ∀ i item, items !! i = Some item →
    supported item = true ∧
    ∀ id, answers item = Some id →
      ∃ j item', (j < i)%nat ∧ items !! j = Some item' ∧ issues item' = Some id.

Section history.
Context `{Serde}.

Lemma message_text_spec parts : ∀ text,
  message_text_loop parts text =
    if forallb is_text parts then Ok (foldl append_line text (map text_of parts))
    else bad "image/audio input is unsupported in this bridge".
Proof. induction parts as [|[]]; intros; simpl; done || apply IHparts. Qed.

(** One item of the loop, with the calls issued so far. *)
Definition acceptable (issued : list bytes) (item : ResponseInputItem) : Prop :=
  supported item = true ∧ ∀ id, answers item = Some id → id ∈ issued.

Fixpoint accepted (issued : list bytes) (items : list ResponseInputItem) : Prop :=
  match items with
  | [] => True
  | item :: items => acceptable issued item ∧ accepted (issued ++ option_list (issues item)) items
  end.

Lemma to_chat_messages_loop_spec items : ∀ ms issued ms',
  to_chat_messages_loop items ms issued = Ok ms' ↔
  accepted issued items ∧ ms' = ms ++ omap item_message items.
Proof.
  induction items as [|item items IH]; intros ms issued ms'; simpl.
  { rewrite app_nil_r. naive_solver. }
  unfold acceptable. destruct item as [r c| | | | |? [|]|? ? [[]|]]; simpl;
    rewrite ?app_nil_r.
  - unfold message_text. rewrite message_text_spec. destruct (forallb is_text c); simpl; [|naive_solver].
    rewrite IH, <-app_assoc. simpl. unfold joined_text. naive_solver.
  - rewrite IH, <-app_assoc. simpl. naive_solver.
  - rewrite IH, <-app_assoc. simpl. naive_solver.
  - case_bool_decide; [rewrite IH, <-app_assoc; simpl|]; naive_solver.
  - case_bool_decide; [rewrite IH, <-app_assoc; simpl|]; naive_solver.
  - unfold bad. naive_solver.
  - rewrite IH. naive_solver.
  - rewrite IH, <-app_assoc. simpl. naive_solver.
  - unfold bad. naive_solver.
  - unfold bad. naive_solver.
  - unfold bad. naive_solver.
  - unfold bad. naive_solver.
Qed.

Lemma accepted_spec items : ∀ issued,
  accepted issued items ↔
  ∀ i item, items !! i = Some item →
    supported item = true ∧ ∀ id, answers item = Some id →
      id ∈ issued ∨ ∃ j item', (j < i)%nat ∧ items !! j = Some item' ∧ issues item' = Some id.
Proof.
  induction items as [|item items IH]; intros issued; simpl.
  { split; [|done]. intros _ i item. by rewrite lookup_nil. }
  rewrite IH. clear IH. unfold acceptable. split.
  - intros [[Hs Ha] Hrest] [|i] item' Hi; simplify_eq/=; [naive_solver|].
    destruct (Hrest i item' Hi) as [? Hans]. split; [done|]. intros id Hid.
    destruct (Hans id Hid) as [[?|Hin]%elem_of_app|(j & x & ? & ? & ?)]; [by left| |].
    + right. exists 0%nat, item. split_and!; [lia|done|]. by destruct (issues item); set_solver.
    + right. exists (S j), x. split_and!; [lia|done..].
  - intros Hall. split.
    + destruct (Hall 0%nat item eq_refl) as [? Hans]. split; [done|]. intros id Hid.
      destruct (Hans id Hid) as [?|(j & _ & ? & _)]; [done|lia].
    + intros i item' Hi. destruct (Hall (S i) item' Hi) as [? Hans]. split; [done|].
      intros id Hid. destruct (Hans id Hid) as [?|(j & x & ? & Hj & Hx)]; [left; set_solver|].
      destruct j as [|j]; simplify_eq/=; [left; rewrite Hx; set_solver|].
      right. exists j, x. split_and!; [lia|done..].
Qed.

(** The conversion of the conversation history accepts exactly the histories in
    which every item is supported and every tool output answers a call issued
    earlier, and then returns the message of every item, in order. *)
Lemma history_accepted_iff items ms :
  history_to_chat_messages items = Ok ms ↔
  well_formed_history items ∧ ms = omap item_message items.
Proof.
  unfold history_to_chat_messages, well_formed_history.
  rewrite to_chat_messages_loop_spec, accepted_spec, app_nil_l.
  split; intros [Hall ->]; (split; [|done]); intros i item Hi;
    destruct (Hall i item Hi) as [? Ha]; (split; [done|]); intros id Hid.
  - by destruct (Ha id Hid) as [?%not_elem_of_nil|?].
  - right. by apply Ha.
Qed.

End history.

(** ** What validation promises *)

Section validation.
Context `{Serde}.

Lemma check_tool_name_conflict_ok l :
  check_tool_name_conflict l = Ok tt ↔
  ∀ f, ResponseTool.Function f ∈ l → ft_name f ≠ INTERNAL_SEARCH_TOOL_NAME.
Proof.
  induction l as [|[w|f] l IH]; simpl.
  - split; [|done]. by intros _ f ?%not_elem_of_nil.
  - rewrite IH. setoid_rewrite elem_of_cons. naive_solver.
  - setoid_rewrite elem_of_cons. case_bool_decide; naive_solver.
Qed.

Lemma scan_tools_ok l : ∀ h v h' v',
  scan_tools l h v = Ok (h', v') →
  (h' = true ↔ h = true ∨ ∃ w, ResponseTool.WebSearch w ∈ l) ∧
  (v' = true ↔ v = true ∨ ∃ w, ResponseTool.WebSearch w ∈ l ∧ external_web_access w = true).
Proof.
  induction l as [|[w|f] l IH]; simpl; intros h v h' v' Hok; simplify_eq.
  - set_solver.
  - apply result_bind_ok in Hok as (x & Hx & Hok). apply IH in Hok as [Hh Hv].
    assert (x = external_web_access w) as ->.
    { revert Hx. unfold validate_web_search. repeat case_match; try done. intros [= <-].
      by rewrite andb_true_r. }
    rewrite Hh, Hv, orb_true_iff. set_solver.
  - apply IH in Hok as [Hh Hv]. rewrite Hh, Hv. set_solver.
Qed.

(** A validated request searches exactly when a live web search tool is declared and
    the tool choice is not none; a required search is then recorded. *)
Definition wants_search (r : ResponsesRequest) : Prop :=
  search_forbidden (tool_choice r) = false ∧
  ∃ w, ResponseTool.WebSearch w ∈ default [] (tools r) ∧ external_web_access w = true.

(** A request that validates is stateless and asks for plain text, declares no
    client tool under the reserved search name, asks for a search exactly when it
    declares a live web search tool and does not forbid searching, with the search
    required as its tool choice says, and its messages start with the
    instructions, unless they are blank, and go on with the input. *)
Lemma validate_spec r v :
  validate r = Ok v →
  store r ≠ Some true ∧ previous_response_id r = None ∧ reasoning r = None
  ∧ (∀ f, ResponseTool.Function f ∈ default [] (tools r) → ft_name f ≠ INTERNAL_SEARCH_TOOL_NAME)
  ∧ (is_Some (search v) ↔ wants_search r)
  ∧ (∀ s, search v = Some s → live s = true ∧ required s = search_required (tool_choice r))
  ∧ to_chat_messages r = Ok (messages v).
Proof.
  unfold validate. case_bool_decide; [done|].
  destruct (previous_response_id r); [done|]. destruct (reasoning r); [done|]. simpl.
  destruct (nonempty (include r)); [done|].
  match goal with |- (if ?b then _ else _) = _ → _ => destruct b; [done|] end. intros Hok.
  apply result_bind_ok in Hok as ([] & Hname & Hok).
  apply result_bind_ok in Hok as ([h lv] & Hscan & Hok).
  apply result_bind_ok in Hok as (s & Hsearch & Hok).
  apply result_bind_ok in Hok as (ms & Hms & Hok). simplify_eq/=.
  assert (Hlive : lv = true ↔ ∃ w, ResponseTool.WebSearch w ∈ default [] (tools r)
                                   ∧ external_web_access w = true).
  { destruct (tools r); simpl in *; [apply scan_tools_ok in Hscan; naive_solver|].
    simplify_eq. set_solver. }
  split_and!; [done..| | | |done].
  - destruct (tools r); simpl in *; [by apply check_tool_name_conflict_ok|set_solver].
  - unfold wants_search. rewrite <-Hlive. clear Hlive.
    destruct (search_forbidden (tool_choice r)), lv; repeat (case_match; try done);
      simplify_eq/=; unfold bad in *; split; intros []; naive_solver.
  - intros s' ->. repeat (case_match; try done); by simplify_eq/=.
Qed.

End validation.
