(* ===== verification/WebSearch.v ===== *)
(** * Web search bridge: the search backend, the chat client and the engine

    [websearch/backend.rs], [searxng.rs], [chat_client.rs] and [engine.rs].  The two
    outside parties, DS4 and SearXNG, are interfaces whose answers depend on the calls
    made so far; the [url] crate and serde are the libraries'. *)

From S2P Require Import Prelude Bytes Utf8 Json WebRequest.

(** ** The search backend *)

(** The [url] crate: a parsed URL, its text and its scheme. *)
Class UrlLib := {
  Url : Type;
  url_eq_dec :: EqDecision Url;
  url_parse : bytes → option Url;
  url_as_str : Url → bytes;
  url_scheme : Url → bytes;
}.

(** src/src/websearch/backend.rs:48-58 (SearchError) *)
Module SearchError.
Inductive SearchError :=
| Forbidden | RateLimited | Captcha | Timeout | InvalidJson | NoResults
| ResponseTooLarge | Unavailable.
End SearchError.
Notation SearchError := SearchError.SearchError.

Definition DEFAULT_MAX_RESULTS : nat := 5.
Definition MAX_RESULTS_LIMIT : nat := 10.
Definition MAX_SNIPPET_CHARS : nat := Z.to_nat 4096.
#[global] Arguments MAX_SNIPPET_CHARS : simpl never.
Definition MAX_PROVIDER_BODY_BYTES : Z := 1024 * 1024.

(** src/src/websearch/searxng.rs:29-37 (SearxngHttpResponse) *)
Record SearxngHttpResponse := {
  status : Z;
  body : bytes;
  content_type : option bytes;
}.

Section backend.
Context `{Serde, UrlLib}.
Open Scope rust_scope.

(** src/src/websearch/backend.rs:18-24 (SearchResult) *)
Record SearchResult := {
  title : bytes;
  url : Url;
  snippet : bytes;
}.

(** src/src/websearch/backend.rs:84-90 (excluded_scheme) *)
Definition excluded_scheme (u : Url) : bool :=
  negb (bool_decide (url_scheme u = str "http") || bool_decide (url_scheme u = str "https")).

(** src/src/websearch/backend.rs:102-122 (normalize_results) *)
Fixpoint normalize_loop (max : nat) (results : list SearchResult) (seen : list bytes)
    (out : list SearchResult) : list SearchResult :=
  match results with
  | [] => out
  | r :: results =>
      if (max <=? length out)%nat then out
      else if excluded_scheme (url r) then normalize_loop max results seen out
      else if bool_decide (url_as_str (url r) ∈ seen) then normalize_loop max results seen out
      else normalize_loop max results (url_as_str (url r) :: seen)
             (out ++ [{| title := title r; url := url r;
                         snippet := take_chars MAX_SNIPPET_CHARS (snippet r) |}])
  end.

Definition clamp (lo hi n : nat) : nat := Nat.max lo (Nat.min hi n).

(** src/src/websearch/backend.rs:92-101 (normalize_results) *)
Definition normalize_results (results : list SearchResult) (max_results : nat)
    : list SearchResult :=
  normalize_loop (clamp 1 MAX_RESULTS_LIMIT max_results) results [] [].

(** ** SearXNG *)

(** The body of the loop over the [results] array.
    src/src/websearch/searxng.rs:253-275 (classify_response) *)
Definition parse_item (item : Value) : option SearchResult :=
  let field k := default [] (get k item ≫= as_str) in
  u ← url_parse (field "url");
  Some {| title := field "title"; url := u; snippet := field "content" |}.

(** src/src/websearch/searxng.rs:196-284 (classify_response) *)
Definition classify_response (resp : SearxngHttpResponse) (max_results : nat)
    : result (list SearchResult) SearchError :=
  let s := status resp in
  let? _ :=
    if s =? 403 then Err SearchError.Forbidden
    else if s =? 429 then Err SearchError.RateLimited
    else if (500 <=? s) && (s <=? 599) then Err SearchError.Unavailable
    else if s =? 200 then Ok tt
    else Err SearchError.Unavailable in
  let? _ := ensure (Z.of_nat (length (body resp)) <=? MAX_PROVIDER_BODY_BYTES)
    SearchError.ResponseTooLarge in
  let? _ := ensure (negb (is_some_and (content_type resp) (contains (str "text/html"))))
    SearchError.Captcha in
  let? parsed := ok_or (from_slice (body resp)) SearchError.InvalidJson in
  let? results := ok_or (get "results" parsed ≫= as_array) SearchError.NoResults in
  let normalized := normalize_results (omap parse_item results) max_results in
  if bool_decide (length normalized = 0%nat) then Err SearchError.NoResults else Ok normalized.

(** src/src/websearch/searxng.rs:127-136 (SearxngBackend) *)
Record SearxngBackend := {
  (** [transport.post_search], on the configured endpoint with the configured key. *)
  post_search : bytes → result SearxngHttpResponse SearchError;
  max_results : nat;
}.

(** src/src/websearch/searxng.rs:153-157 (SearxngBackend::with_max_results) *)
Definition with_max_results (b : SearxngBackend) (max : nat) : SearxngBackend :=
  {| post_search := post_search b; max_results := clamp 1 MAX_RESULTS_LIMIT max |}.

(** src/src/websearch/searxng.rs:159-169 (SearxngBackend::search_blocking) *)
Definition search_blocking (b : SearxngBackend) (query : bytes)
    : result (list SearchResult) SearchError :=
  if trim_is_empty query then Err SearchError.NoResults
  else
    let? resp := post_search b query in
    classify_response resp (max_results b).

(** What the HTTP client returns: the status, the content type when it is text, and
    the body unless reading it fails. *)
Record RawResponse := {
  raw_status : Z;
  raw_content_type : option bytes;
  raw_body : option bytes;
}.

(** [send] is the request to the joined endpoint; the form body and the key are its
    arguments.
    src/src/websearch/searxng.rs:75-125 (ReqwestTransport::post_search) *)
Definition transport_post_search (joined : option Url) (api_key : option bytes)
    (send : Url → option bytes → bytes → option RawResponse) (query : bytes)
    : result SearxngHttpResponse SearchError :=
  let? endpoint := ok_or joined SearchError.Unavailable in
  let? resp := ok_or (send endpoint api_key query) SearchError.Unavailable in
  let? b := ok_or (raw_body resp) SearchError.Unavailable in
  if MAX_PROVIDER_BODY_BYTES <? Z.of_nat (length b) then Err SearchError.ResponseTooLarge
  else Ok {| status := raw_status resp; body := b; content_type := raw_content_type resp |}.

End backend.

(** ** The chat client *)

(** src/src/websearch/chat_client.rs:74-83 (ChatClientError) *)
Module ChatClientError.
Inductive ChatClientError := BackendUnavailable | Timeout | Other.
End ChatClientError.
Notation ChatClientError := ChatClientError.ChatClientError.

(** src/src/websearch/chat_client.rs:33-42 (ChatToolCallResult) *)
Record ChatToolCallResult := {
  call_id : bytes;
  call_name : bytes;
  call_arguments : bytes;
}.

(** src/src/websearch/chat_client.rs:22-31 (ChatTurnResult) *)
Record ChatTurnResult := {
  turn_messages : list ChatMessage;
  turn_calls : list ChatToolCallResult;
  turn_text : bytes;
}.

Definition TOTAL_DEADLINE : Z := 600 * 1000000000.
Definition MAX_SEARCHES : nat := 3.
Definition MAX_MODEL_TURNS : nat := 6.

Section chat_client.
Open Scope rust_scope.

(** src/src/websearch/engine.rs:111-135 (search_tool_definition) *)
Definition search_tool_definition : Value :=
  Value.Object
    [("type", jstr "function");
     ("function", Value.Object
       [("name", Value.String INTERNAL_SEARCH_TOOL_NAME);
        ("description", jstr "Search public web information; results are untrusted data.");
        ("parameters", Value.Object
          [("type", jstr "object");
           ("properties", Value.Object
             [("query", Value.Object
               [("type", jstr "string"); ("minLength", jnum 1); ("maxLength", jnum 1024)])]);
           ("required", Value.Array [jstr "query"]);
           ("additionalProperties", Value.Bool false)])])].

(** src/src/websearch/chat_client.rs:231-258 (chat_message_to_wire) *)
Definition chat_message_to_wire (m : ChatMessage) : Value :=
  let wire := Value.Object
    [("role", Value.String (role m)); ("content", Value.String (content m))] in
  let wire :=
    match tool_calls m with
    | [] => wire
    | calls =>
        set_index "tool_calls"
          (Value.Array (map (fun c => Value.Object
            [("id", Value.String (tc_id c)); ("type", jstr "function");
             ("function", Value.Object
               [("name", Value.String (tc_name c));
                ("arguments", Value.String (tc_arguments c))])]) calls)) wire
    end in
  match tool_call_id m with
  | Some id => set_index "tool_call_id" (Value.String id) wire
  | None => wire
  end.

Definition citation_instruction : bytes :=
  str "When using the web search tool, cite factual claims with [1], [2], etc. matching the numbered search results. Do not invent citation numbers.".

(** src/src/websearch/chat_client.rs:170-195 (request_body) *)
Definition request_body (model : bytes) (messages : list ChatMessage) (max_output_tokens : Z)
    (require_search : bool) : Value :=
  Value.Object
    [("model", Value.String model);
     ("messages", Value.Array
       (Value.Object [("role", jstr "system"); ("content", Value.String citation_instruction)]
        :: map chat_message_to_wire messages));
     ("tools", Value.Array [search_tool_definition]);
     ("tool_choice", if require_search then jstr "required" else jstr "auto");
     ("stream", Value.Bool false);
     ("max_tokens", jnum max_output_tokens);
     ("reasoning_effort", jstr "none")].

(** [reqwest::Error]: what the client asks of it. *)
Record ReqwestError := {
  is_timeout : bool;
  is_connect : bool;
  error_status : option Z;
}.

(** src/src/websearch/chat_client.rs:220-229 (map_reqwest_error) *)
Definition map_reqwest_error (e : ReqwestError) : ChatClientError :=
  if is_timeout e then ChatClientError.Timeout
  else if is_connect e || bool_decide (error_status e = Some 503)
  then ChatClientError.BackendUnavailable
  else ChatClientError.Other.

(** src/src/websearch/chat_client.rs:272-294 (parse_chat_response) *)
Fixpoint parse_calls (calls : list Value) : result (list ChatToolCallResult) ChatClientError :=
  match calls with
  | [] => Ok []
  | call :: calls =>
      let? id := ok_or (get "id" call ≫= as_str) ChatClientError.Other in
      let? function := ok_or (get "function" call) ChatClientError.Other in
      let? name := ok_or (get "name" function ≫= as_str) ChatClientError.Other in
      let? arguments := ok_or (get "arguments" function ≫= as_str) ChatClientError.Other in
      let? rest := parse_calls calls in
      Ok ({| call_id := id; call_name := name; call_arguments := arguments |} :: rest)
  end.

Definition to_tool_call (c : ChatToolCallResult) : ChatToolCall :=
  {| tc_id := call_id c; tc_name := call_name c; tc_arguments := call_arguments c |}.

(** src/src/websearch/chat_client.rs:260-312 (parse_chat_response) *)
Definition parse_chat_response (v : Value) : result ChatTurnResult ChatClientError :=
  let? message := ok_or
    (((get "choices" v ≫= as_array) ≫= head) ≫= get "message") ChatClientError.Other in
  let text := default [] (get "content" message ≫= as_str) in
  let? calls := match get "tool_calls" message ≫= as_array with
    | Some calls => parse_calls calls
    | None => Ok []
    end in
  Ok {| turn_messages := [{| role := str "assistant"; content := text;
                             tool_calls := map to_tool_call calls; tool_call_id := None |}];
        turn_calls := calls; turn_text := text |}.

(** src/src/websearch/chat_client.rs:101-107 (ReqwestChatClient) *)
Record ReqwestChatClient := {
  (** The POST of a JSON body to the endpoint: the status and, when it is one, the
      JSON body of the response. *)
  post : Value → result (Z * option Value) ReqwestError;
  model : bytes;
  max_output_tokens : Z;
}.

(** src/src/websearch/chat_client.rs:130-134 (ReqwestChatClient::with_max_output_tokens) *)
Definition with_max_output_tokens (c : ReqwestChatClient) (n : Z) : ReqwestChatClient :=
  {| post := post c; model := model c; max_output_tokens := Z.max n 1 |}.

(** src/src/websearch/chat_client.rs:136-167 (ReqwestChatClient::send_http) *)
Definition send_http (c : ReqwestChatClient) (messages : list ChatMessage)
    (require_search : bool) : result ChatTurnResult ChatClientError :=
  let? response := map_err map_reqwest_error
    (post c (request_body (model c) messages (max_output_tokens c) require_search)) in
  let '(status, json) := response in
  if negb ((200 <=? status) && (status <=? 299))
  then Err (if status =? 503 then ChatClientError.BackendUnavailable else ChatClientError.Other)
  else
    let? value := ok_or json ChatClientError.Other in
    parse_chat_response value.

End chat_client.

(** ** The engine *)

(** src/src/websearch/engine.rs:42-61 (EngineError) *)
Module EngineError.
Inductive EngineError :=
| LimitExceeded | InvalidToolArguments | NoResults | BackendUnavailable
| DeadlineExceeded | TooManyTurns | Other | CitationInvalid.
End EngineError.
Notation EngineError := EngineError.EngineError.

(** src/src/websearch/engine.rs:298-305 (chat_error_to_engine) *)
Definition chat_error_to_engine (e : ChatClientError) : EngineError :=
  match e with
  | ChatClientError.BackendUnavailable => EngineError.BackendUnavailable
  | ChatClientError.Timeout => EngineError.DeadlineExceeded
  | ChatClientError.Other => EngineError.Other
  end.

(** src/src/websearch/engine.rs:307-322 (search_error_to_engine) *)
Definition search_error_to_engine (e : SearchError) : EngineError :=
  match e with
  | SearchError.Forbidden | SearchError.Unavailable => EngineError.BackendUnavailable
  | SearchError.RateLimited | SearchError.Timeout | SearchError.ResponseTooLarge =>
      EngineError.DeadlineExceeded
  | SearchError.Captcha => EngineError.BackendUnavailable
  | SearchError.InvalidJson => EngineError.Other
  | SearchError.NoResults => EngineError.NoResults
  end.

Section engine.
Context `{Serde, UrlLib}.
Open Scope rust_scope.

(** A call to DS4 or to the search backend, with its answer. *)
Inductive Call :=
| Turn (sent : list ChatMessage) (answer : result ChatTurnResult ChatClientError)
| Searched (query : bytes) (answer : result (list SearchResult) SearchError).

(** The traits [ChatClient] and [SearchBackend] and the clock of the deadline; an
    answer may depend on every call made before it. *)
Class Backends := {
  send_turn : list Call → list ChatMessage → result ChatTurnResult ChatClientError;
  send_turn_with_search_requirement :
    list Call → list ChatMessage → bool → result ChatTurnResult ChatClientError;
  backend_search : list Call → bytes → result (list SearchResult) SearchError;
  elapsed : list Call → Z;
}.
Context `{Backends}.

(** src/src/websearch/engine.rs:22-40 (EngineOutcome) *)
Record EngineOutcome := {
  text : bytes;
  search_results : list SearchResult;
  search_queries : list bytes;
  model_turns : nat;
  client_calls : list ChatToolCall;
}.

(** src/src/websearch/engine.rs:89-109 (parse_search_arguments) *)
Definition parse_search_arguments (arguments : bytes) : result bytes EngineError :=
  let? value := ok_or (from_slice arguments) EngineError.InvalidToolArguments in
  let? query := ok_or (get "query" value ≫= as_str) EngineError.InvalidToolArguments in
  if trim_is_empty query then Err EngineError.InvalidToolArguments
  else if 1024 <? Z.of_nat (length query) then Err EngineError.InvalidToolArguments
  else Ok query.

(** src/src/websearch/engine.rs:282-296 (format_search_results) *)
Definition format_search_results (results : list SearchResult) : bytes :=
  concat (imap (fun i r =>
    (if (i =? 0)%nat then [] else [byte_newline])
      ++ str "[" ++ u64_to_string (i + 1) ++ str "] " ++ title r ++ str " "
      ++ url_as_str (url r) ++ str " " ++ snippet r) results).

(** The engine's counter of searches and the locals of the loop; [calls] is the
    record of what was called.
    src/src/websearch/engine.rs:146-155 (WebSearchEngine) *)
Record Engine := {
  searches_left : nat;
  convo : list ChatMessage;
  found : list SearchResult;
  queries : list bytes;
  outgoing : list ChatToolCall;
  calls : list Call;
}.

Definition with_call (c : Call) (s : Engine) : Engine :=
  {| searches_left := searches_left s; convo := convo s; found := found s;
     queries := queries s; outgoing := outgoing s; calls := calls s ++ [c] |}.

(** An internal search: the budget, the arguments, the query, the results.
    src/src/websearch/engine.rs:224-257 (WebSearchEngine::run_with_search_requirement) *)
Definition run_search (call : ChatToolCallResult) : method Engine EngineError unit :=
  s ← self;
  require (negb (searches_left s =? 0)%nat) EngineError.LimitExceeded;;
  modify (fun s => {| searches_left := searches_left s - 1; convo := convo s;
    found := found s; queries := queries s; outgoing := outgoing s; calls := calls s |});;
  query ← lift (parse_search_arguments (call_arguments call));
  modify (fun s => {| searches_left := searches_left s; convo := convo s;
    found := found s; queries := queries s ++ [query]; outgoing := outgoing s;
    calls := calls s |});;
  s ← self;
  let answer := backend_search (calls s) query in
  modify (with_call (Searched query answer));;
  results ← lift (map_err search_error_to_engine answer);
  require (negb (bool_decide (length results = 0%nat))) EngineError.NoResults;;
  modify (fun s => {| searches_left := searches_left s;
    convo := convo s ++ [{| role := str "tool"; content := format_search_results results;
                            tool_calls := []; tool_call_id := Some (call_id call) |}];
    found := found s ++ results; queries := queries s; outgoing := outgoing s;
    calls := calls s |}).

(** A client tool call: kept for the response and added to the conversation.
    src/src/websearch/engine.rs:258-276 (WebSearchEngine::run_with_search_requirement) *)
Definition run_client_call (call : ChatToolCallResult) : method Engine EngineError unit :=
  modify (fun s => {| searches_left := searches_left s;
    convo := convo s ++ [{| role := str "assistant"; content := [];
                            tool_calls := [to_tool_call call]; tool_call_id := None |}];
    found := found s; queries := queries s; outgoing := outgoing s ++ [to_tool_call call];
    calls := calls s |}).

Definition is_search (call : ChatToolCallResult) : bool :=
  bool_decide (call_name call = INTERNAL_SEARCH_TOOL_NAME).

Definition run_call (call : ChatToolCallResult) : method Engine EngineError unit :=
  if is_search call then run_search call else run_client_call call.

Fixpoint run_calls (l : list ChatToolCallResult) : method Engine EngineError unit :=
  match l with
  | [] => mret tt
  | call :: l => run_call call;; run_calls l
  end.

(** One turn: the request, first with the search requirement, and the deadline.
    src/src/websearch/engine.rs:197-209 (WebSearchEngine::run_with_search_requirement) *)
Definition run_turn (first : option bool) : method Engine EngineError ChatTurnResult :=
  s ← self;
  let answer := match first with
    | Some require_search =>
        send_turn_with_search_requirement (calls s) (convo s) require_search
    | None => send_turn (calls s) (convo s)
    end in
  modify (with_call (Turn (convo s) answer));;
  turn ← lift (map_err chat_error_to_engine answer);
  s ← self;
  require (negb (TOTAL_DEADLINE <? elapsed (calls s))) EngineError.DeadlineExceeded;;
  mret turn.

(** The loop, by recursion on [turns_left].
    src/src/websearch/engine.rs:190-279 (WebSearchEngine::run_with_search_requirement) *)
Fixpoint run_loop (turns_left : nat) (first : option bool)
    : method Engine EngineError EngineOutcome :=
  match turns_left with
  | O => fail EngineError.TooManyTurns
  | S turns_left =>
      turn ← run_turn first;
      if bool_decide (length (turn_calls turn) = 0%nat) then
        s ← self;
        mret {| text := turn_text turn; search_results := found s;
                search_queries := queries s;
                model_turns := MAX_MODEL_TURNS - turns_left;
                client_calls := outgoing s |}
      else run_calls (turn_calls turn);; run_loop turns_left None
  end.

(** A new engine ([WebSearchEngine::new]) run on the messages of a request; [earlier]
    is what was called before.
    src/src/websearch/engine.rs:157-189 (WebSearchEngine::run_with_search_requirement) *)
Definition run_with_search_requirement (initial_messages : list ChatMessage)
    (require_search : bool) (earlier : list Call)
    : result EngineOutcome EngineError * list Call :=
  let '(r, s) := run_loop MAX_MODEL_TURNS (Some require_search)
    {| searches_left := MAX_SEARCHES; convo := initial_messages; found := [];
       queries := []; outgoing := []; calls := earlier |} in
  (r, calls s).

End engine.

(** ** What the engine promises

    The calls of a run, read back from its record. *)

Section engine_spec.
Context `{Serde, UrlLib}.

Definition turns (tr : list Call) : nat :=
  length (omap (fun c => match c with Turn sent _ => Some sent | _ => None end) tr).

(** The queries sent to the backend, and what it returned. *)
Definition queries_of (tr : list Call) : list bytes :=
  omap (fun c => match c with Searched q _ => Some q | _ => None end) tr.
Definition results_of (tr : list Call) : list SearchResult :=
  concat (map (fun c => match c with Searched _ (Ok l) => l | _ => [] end) tr).

(** The client calls of a turn, and of all turns. *)
Definition clients (l : list ChatToolCallResult) : list ChatToolCall :=
  map to_tool_call (filter (fun c => is_search c = false) l).
Definition clients_of (tr : list Call) : list ChatToolCall :=
  concat (map (fun c => match c with Turn _ (Ok t) => clients (turn_calls t) | _ => [] end) tr).

(** A call that was answered, a search with at least one result. *)
Definition answered (c : Call) : Prop :=
  match c with
  | Turn _ (Ok _) => True
  | Searched _ (Ok l) => l ≠ []
  | _ => False
  end.

(** A query that the arguments of a call may carry. *)
Definition valid_query (q : bytes) : Prop :=
  trim_is_empty q = false ∧ Z.of_nat (length q) ≤ 1024.

Context `{!Backends}.
Context (earlier : list Call).

(** The state of the loop after the calls [new], with the client calls of [pending]
    still to be collected. *)
Record running (new : list Call) (pending : list ChatToolCallResult) (s : Engine) : Prop := {
  run_calls_eq : calls s = earlier ++ new;
  run_budget : (searches_left s + length (queries_of new) = MAX_SEARCHES)%nat;
  run_answered : Forall answered new;
  run_queries : queries s = queries_of new;
  run_valid : Forall valid_query (queries s);
  run_found : found s = results_of new;
  run_outgoing : outgoing s ++ clients pending = clients_of new;
}.

(** What holds of a run that failed: the bounds on the calls it made. *)
Definition bounded (n : nat) (s : Engine) : Prop :=
  ∃ new, calls s = earlier ++ new ∧ (turns new ≤ n)%nat
    ∧ (length (queries_of new) ≤ MAX_SEARCHES)%nat.

Lemma turns_app a b : turns (a ++ b) = (turns a + turns b)%nat.
Proof. unfold turns. by rewrite omap_app, length_app. Qed.
Lemma queries_of_app a b : queries_of (a ++ b) = queries_of a ++ queries_of b.
Proof. unfold queries_of. apply omap_app. Qed.
Lemma results_of_app a b : results_of (a ++ b) = results_of a ++ results_of b.
Proof. unfold results_of. by rewrite map_app, concat_app. Qed.
Lemma clients_of_app a b : clients_of (a ++ b) = clients_of a ++ clients_of b.
Proof. unfold clients_of. by rewrite map_app, concat_app. Qed.

Lemma parse_search_arguments_ok a q :
  parse_search_arguments a = Ok q → valid_query q.
Proof.
  unfold parse_search_arguments, valid_query.
  intros (v & _ & (x & _ & Hx)%result_bind_ok)%result_bind_ok.
  repeat case_match; simplify_eq. bool_to_prop. done.
Qed.

Lemma running_bounded new l s : running new l s → bounded (turns new) s.
Proof. intros []. exists new. split_and!; [done..|]. unfold MAX_SEARCHES in *. lia. Qed.

Lemma wp_run_search call new l s :
  is_search call = true →
  running new (call :: l) s →
  wp (run_search call)
    (fun _ s' => ∃ new', running new' l s' ∧ turns new' = turns new)
    (fun _ s' => bounded (turns new) s') s.
Proof.
  intros Hcall Hs. unfold run_search.
  assert (Hpend : clients (call :: l) = clients l).
  { unfold clients. rewrite filter_cons_False by congruence. done. }
  destruct Hs as [Hc Hb Ha Hq Hv Hf Ho]. rewrite Hpend in Ho.
  apply wp_bind, wp_self, wp_bind, wp_require; intros Hleft; bool_to_prop.
  2: { exists new. split_and!; [done..|lia]. }
  apply wp_bind, wp_modify, wp_bind, wp_lift.
  destruct (parse_search_arguments _) as [q|e] eqn:Hparse.
  2: { exists new. simpl. split_and!; [done..|lia]. }
  apply parse_search_arguments_ok in Hparse.
  apply wp_bind, wp_modify, wp_bind, wp_self, wp_bind, wp_modify. simpl.
  set (answer := backend_search (calls s) q).
  apply wp_bind, wp_lift. unfold with_call. simpl.
  destruct answer as [rs|e] eqn:Hans; simpl.
  2: { exists (new ++ [Searched q (Err e)]). simpl. rewrite turns_app, queries_of_app, length_app.
       cbn. split_and!; [by rewrite Hc, app_assoc|lia|]. apply Nat.eqb_neq in Hleft. lia. }
  apply Nat.eqb_neq in Hleft.
  assert (Hbound : bounded (turns new) {| searches_left := searches_left s - 1;
    convo := convo s; found := found s; queries := queries s ++ [q]; outgoing := outgoing s;
    calls := calls s ++ [Searched q (Ok rs)] |}).
  { exists (new ++ [Searched q (Ok rs)]). simpl. rewrite turns_app, queries_of_app, length_app.
    cbn. split_and!; [by rewrite Hc, app_assoc|lia|lia]. }
  apply wp_bind, wp_require; intros Hne; bool_to_prop; [|done].
  apply wp_modify. exists (new ++ [Searched q (Ok rs)]). rewrite turns_app. split; [|cbn; lia].
  constructor; simpl.
  - by rewrite Hc, app_assoc.
  - rewrite queries_of_app, length_app. cbn. lia.
  - apply Forall_app; split; [done|]. constructor; [|done]. simpl. by intros ->.
  - by rewrite queries_of_app, Hq.
  - apply Forall_app; split; [done|]. by constructor.
  - rewrite results_of_app, Hf. cbn. by rewrite app_nil_r.
  - rewrite clients_of_app. cbn. by rewrite app_nil_r.
Qed.

Lemma wp_run_calls l : ∀ new s,
  running new l s →
  wp (run_calls l)
    (fun _ s' => ∃ new', running new' [] s' ∧ turns new' = turns new)
    (fun _ s' => bounded (turns new) s') s.
Proof.
  induction l as [|call l IH]; intros new s Hs; simpl; [apply wp_ret; eauto|].
  apply wp_bind. unfold run_call. destruct (is_search call) eqn:Hcall.
  - eapply wp_mono; [by apply wp_run_search| |done].
    intros _ s' (new' & Hs' & Ht). rewrite <-Ht. by apply IH.
  - apply wp_modify. apply IH. destruct Hs as [Hc Hb Ha Hq Hv Hf Ho].
    constructor; simpl; try done. unfold clients in Ho. rewrite filter_cons_True in Ho by done.
    by rewrite <-app_assoc.
Qed.

(** What a run that returned [o] has done. *)
Definition outcome_of (o : EngineOutcome) (new : list Call) : Prop :=
  Forall answered new
  ∧ search_queries o = queries_of new ∧ Forall valid_query (search_queries o)
  ∧ search_results o = results_of new
  ∧ client_calls o = clients_of new
  ∧ model_turns o = turns new
  ∧ ∃ sent t, last new = Some (Turn sent (Ok t)) ∧ turn_calls t = [] ∧ text o = turn_text t.

Lemma wp_run_turn first new s :
  running new [] s →
  wp (run_turn first)
    (fun t s' => ∃ sent, running (new ++ [Turn sent (Ok t)]) (turn_calls t) s'
                         ∧ elapsed (calls s') ≤ TOTAL_DEADLINE)
    (fun _ s' => bounded (turns new + 1) s') s.
Proof.
  intros [Hc Hb Ha Hq Hv Hf Ho]. unfold run_turn. apply wp_bind, wp_self.
  set (answer := match first with Some _ => _ | None => _ end).
  assert (Hb' : ∀ c, (∃ sent a, c = Turn sent a) → bounded (turns new + 1) (with_call c s)).
  { intros c (sent & a & ->). exists (new ++ [Turn sent a]).
    rewrite turns_app, queries_of_app, length_app. cbn.
    split_and!; [by rewrite Hc, app_assoc|lia|lia]. }
  apply wp_bind, wp_modify, wp_bind, wp_lift. destruct answer as [t|e]; simpl; [|eauto].
  apply wp_bind, wp_self, wp_bind, wp_require; intros Hd; bool_to_prop; [|eauto].
  apply wp_ret. exists (convo s). split; [|exact Hd]. constructor; simpl; try done.
  - by rewrite Hc, app_assoc.
  - rewrite queries_of_app, length_app. cbn. lia.
  - apply Forall_app; split; [done|]. by repeat constructor.
  - rewrite queries_of_app, app_nil_r. done.
  - rewrite results_of_app, app_nil_r. done.
  - rewrite clients_of_app. unfold clients in Ho at 1. rewrite filter_nil, app_nil_r in Ho.
    cbn. by rewrite Ho, app_nil_r.
Qed.

Lemma wp_run_loop n : ∀ first new s,
  (turns new + n = MAX_MODEL_TURNS)%nat → running new [] s →
  wp (run_loop n first)
    (fun o s' => ∃ new', calls s' = earlier ++ new' ∧ outcome_of o new'
      ∧ elapsed (calls s') ≤ TOTAL_DEADLINE
      ∧ (1 ≤ turns new' ≤ MAX_MODEL_TURNS)%nat
      ∧ (length (queries_of new') ≤ MAX_SEARCHES)%nat)
    (fun _ s' => bounded MAX_MODEL_TURNS s') s.
Proof.
  induction n as [|n IH]; intros first new s Hn Hs; simpl.
  { apply wp_fail. replace MAX_MODEL_TURNS with (turns new) by lia. by eapply running_bounded. }
  apply wp_bind. eapply wp_mono; [by apply wp_run_turn| |].
  2: { intros _ s' (new' & ? & ? & ?). exists new'. split_and!; [done|lia|done]. }
  intros t s' (sent & Hs' & Hd). case_bool_decide as Hlen.
  - apply wp_bind, wp_self, wp_ret. destruct Hs' as [Hc Hb Ha Hq Hv Hf Ho].
    destruct (turn_calls t) eqn:Ht; [|done].
    exists (new ++ [Turn sent (Ok t)]). rewrite turns_app. cbn [turns omap list_omap length].
    unfold clients in Ho. rewrite filter_nil, app_nil_r in Ho.
    split_and!; try done; try lia. unfold outcome_of. simpl. split_and!; try done.
    + rewrite turns_app. change (turns [Turn sent (Ok t)]) with 1%nat. lia.
    + exists sent, t. by rewrite last_snoc.
  - apply wp_bind. eapply wp_mono; [by eapply wp_run_calls| |].
    + intros _ s2 (new2 & Hs2 & Ht2). rewrite turns_app in Ht2. cbn in Ht2.
      eapply IH; [|exact Hs2]. lia.
    + intros _ s2 (new2 & ? & Ht2 & ?). rewrite turns_app in Ht2. cbn in Ht2.
      exists new2. split_and!; [done|lia|done].
Qed.

End engine_spec.

Section engine_theorems.
Context `{Serde, UrlLib, !Backends}.

Lemma run_spec initial req earlier :
  let '(r, tr) := run_with_search_requirement initial req earlier in
  ∃ new, tr = earlier ++ new
    ∧ (turns new ≤ MAX_MODEL_TURNS)%nat ∧ (length (queries_of new) ≤ MAX_SEARCHES)%nat
    ∧ match r with
      | Ok o => outcome_of o new ∧ (1 ≤ turns new)%nat ∧ elapsed tr ≤ TOTAL_DEADLINE
      | Err _ => True
      end.
Proof.
  unfold run_with_search_requirement.
  set (s0 := {| searches_left := _; convo := initial |}).
  pose proof (wp_run_loop earlier MAX_MODEL_TURNS (Some req) [] s0 eq_refl) as Hwp.
  unfold wp in Hwp. destruct (run_loop _ _ s0) as [[o|e] s'].
  - destruct Hwp as (new & Hc & Ho & Hd & [? ?] & ?); [by constructor; rewrite ?app_nil_r|].
    rewrite Hc in *. eauto 10.
  - destruct Hwp as (new & Hc & ? & ?); [by constructor; rewrite ?app_nil_r|]. eauto.
Qed.

(** C40: a run of the search engine always ends after at most six turns of the model
    and three searches, whatever DS4 and the search backend answer. *)
Theorem engine_bounded initial req earlier :
  let '(_, tr) := run_with_search_requirement initial req earlier in
  ∃ new, tr = earlier ++ new ∧ (turns new ≤ 6)%nat ∧ (length (queries_of new) ≤ 3)%nat.
Proof.
  pose proof (run_spec initial req earlier) as Hrun.
  destruct (run_with_search_requirement initial req earlier) as [r tr].
  destruct Hrun as (new & ? & ? & ? & _). eauto.
Qed.

(** An answer of the search engine is never made up: it is the text of the last
    turn, which asked for no tool; every turn and every search before it succeeded,
    each search with results; the results and queries reported are exactly those of
    the searches, in order, the queries non-blank and of at most 1024 bytes; every
    other tool call of the model is handed out; the turns reported are those made;
    and the answer came within the deadline. *)
Lemma engine_outcome_sound initial req earlier o tr :
  run_with_search_requirement initial req earlier = (Ok o, tr) →
  ∃ new, tr = earlier ++ new ∧ outcome_of o new ∧ elapsed tr ≤ TOTAL_DEADLINE.
Proof.
  intros Heq. pose proof (run_spec initial req earlier) as Hrun. rewrite Heq in Hrun.
  destruct Hrun as (new & ? & ? & ? & ? & ? & ?). eauto.
Qed.

End engine_theorems.

(** ** What the search backend promises *)

Section results.
Context `{Serde, UrlLib}.

Definition shorten (r : SearchResult) : SearchResult :=
  {| title := title r; url := url r; snippet := take_chars MAX_SNIPPET_CHARS (snippet r) |}.

(** The results with an http or https URL, the first of each URL. *)
Fixpoint distinct (seen : list bytes) (results : list SearchResult) : list SearchResult :=
  match results with
  | [] => []
  | r :: results =>
      if excluded_scheme (url r) then distinct seen results
      else if bool_decide (url_as_str (url r) ∈ seen) then distinct seen results
      else r :: distinct (url_as_str (url r) :: seen) results
  end.

Lemma normalize_loop_spec max results : ∀ seen out,
  (length out ≤ max)%nat →
  normalize_loop max results seen out = take max (out ++ map shorten (distinct seen results)).
Proof.
  induction results as [|r results IH]; intros seen out Hlen; simpl.
  { rewrite app_nil_r, take_ge; [done|lia]. }
  destruct (max <=? length out)%nat eqn:Hmax.
  { apply Nat.leb_le in Hmax. rewrite take_app_le, take_ge by lia. done. }
  apply Nat.leb_gt in Hmax.
  destruct (excluded_scheme (url r)); [by apply IH|]. case_bool_decide; [by apply IH|].
  rewrite IH by (rewrite length_app; simpl; lia). rewrite <-app_assoc. reflexivity.
Qed.

Lemma distinct_spec results : ∀ seen,
  Forall (fun r => excluded_scheme (url r) = false ∧ url_as_str (url r) ∉ seen)
    (distinct seen results)
  ∧ NoDup (map (fun r => url_as_str (url r)) (distinct seen results))
  ∧ distinct seen results `sublist_of` results
  ∧ ∀ r, r ∈ results → excluded_scheme (url r) = false →
      url_as_str (url r) ∈ seen
      ∨ url_as_str (url r) ∈ map (fun r => url_as_str (url r)) (distinct seen results).
Proof.
  induction results as [|r results IH]; intros seen; simpl.
  { split_and!; [done|constructor|constructor|]. by intros r ?%not_elem_of_nil. }
  destruct (excluded_scheme (url r)) eqn:He; [|case_bool_decide as Hin].
  - destruct (IH seen) as (H1 & H2 & H3 & H4). split_and!; [done..|by constructor|].
    intros r' [->|?]%elem_of_cons; [congruence|auto].
  - destruct (IH seen) as (H1 & H2 & H3 & H4). split_and!; [done..|by constructor|].
    intros r' [->|?]%elem_of_cons; auto.
  - destruct (IH (url_as_str (url r) :: seen)) as (H1 & H2 & H3 & H4). simpl. split_and!.
    + constructor; [done|]. eapply Forall_impl; [exact H1|]. set_solver.
    + constructor; [|done]. intros (r' & Heq & Hr')%list_elem_of_fmap.
      rewrite Forall_forall in H1. destruct (H1 r' Hr') as [_ Hn]. apply Hn. rewrite Heq. left.
    + by constructor.
    + intros r' [->|Hr']%elem_of_cons Hs; [right; left|]. destruct (H4 r' Hr' Hs); set_solver.
Qed.

(** The results of a search are at most the configured number and at most ten,
    have http or https URLs, no URL twice, their snippets cut, and stand in the
    order of the provider's answer; a result with an allowed URL is only left out
    when its URL is already in the list or the list is full. *)
Lemma normalize_results_spec results max_results :
  let out := normalize_results results max_results in
  (length out ≤ Nat.max 1 (Nat.min 10 max_results))%nat
  ∧ Forall (fun r => excluded_scheme (url r) = false) out
  ∧ NoDup (map (fun r => url_as_str (url r)) out)
  ∧ out `sublist_of` map shorten results
  ∧ (∀ r, r ∈ results → excluded_scheme (url r) = false →
       url_as_str (url r) ∈ map (fun r => url_as_str (url r)) out
       ∨ length out = Nat.max 1 (Nat.min 10 max_results)).
Proof.
  unfold normalize_results, clamp, MAX_RESULTS_LIMIT. simpl.
  set (max := Nat.max 1 _). rewrite normalize_loop_spec by (simpl; lia). simpl.
  destruct (distinct_spec results []) as (H1 & H2 & H3 & H4).
  set (d := distinct [] results) in *.
  assert (Hurl : ∀ l, map (fun r => url_as_str (url r)) (map shorten l)
                      = map (fun r => url_as_str (url r)) l).
  { intros l. rewrite map_map. done. }
  split_and!.
  - rewrite length_take. lia.
  - apply Forall_take, Forall_fmap. eapply Forall_impl; [exact H1|]. intros r [? _]. done.
  - rewrite firstn_map, Hurl. rewrite <-firstn_map. eapply sublist_NoDup; [exact H2|].
    apply sublist_take.
  - etrans; [apply sublist_take|]. by apply fmap_sublist.
  - intros r Hr Hs. destruct (decide (length d ≤ max)%nat).
    + left. rewrite take_ge by (rewrite length_map; lia). rewrite Hurl.
      destruct (H4 r Hr Hs) as [?%not_elem_of_nil|?]; done.
    + right. rewrite length_take, length_map. lia.
Qed.

(** The answer of a search is never empty. *)
Lemma classify_response_nonempty resp n rs :
  classify_response resp n = Ok rs → rs ≠ [] ∧ status resp = 200
    ∧ Z.of_nat (length (body resp)) ≤ MAX_PROVIDER_BODY_BYTES.
Proof.
  unfold classify_response.
  intros ([] & Hs & ([] & Hb & ([] & _ & (p & _ & (l & _ & Hok)%result_bind_ok)%result_bind_ok)
    %result_bind_ok)%result_bind_ok)%result_bind_ok.
  apply ensure_ok in Hb. revert Hs Hok. repeat case_match; try done. intros _ [= <-].
  bool_to_prop. split_and!; [|done..]. by destruct (normalize_results _ _).
Qed.

End results.
