(* ===== verification/WebResponse.v ===== *)
(** * Web search bridge: citations and responses

    [websearch/citation.rs], [response.rs] and [sse.rs]: the markers of the model's
    answer turned into visible citations, the output items of a response, and the
    server-sent events that carry it. *)

From S2P Require Import Prelude Bytes Utf8 Json WebRequest WebSearch.

(** ** Citations *)

(** src/src/websearch/citation.rs:22-33 (UrlCitation) *)
Record UrlCitation := {
  c_url : bytes;
  c_start : nat;
  c_end : nat;
  source_id : bytes;
}.

(** src/src/websearch/citation.rs:35-45 (CitedAnswer) *)
Record CitedAnswer := {
  cited_text : bytes;
  citations : list UrlCitation;
}.

(** src/src/websearch/citation.rs:47-57 (CitationMarker) *)
Record CitationMarker := {
  m_start : nat;
  m_end : nat;
  m_id : Z;
}.

(** src/src/websearch/citation.rs:195-204 (CitationError) *)
Module CitationError.
Inductive CitationError := InvalidId | IncompleteMarker | UnknownUrl.
End CitationError.
Notation CitationError := CitationError.CitationError.

Definition open_bracket : Z := 91.
Definition close_bracket : Z := 93.

(** The digits at the front of a text. *)
Fixpoint take_digits (l : bytes) : bytes :=
  match l with
  | b :: l => if is_ascii_digit b then b :: take_digits l else []
  | [] => []
  end.

(** [l] is [bytes[i..]]; every step consumes at least one byte, so the length of the
    text is enough fuel.
    src/src/websearch/citation.rs:59-108 (scan_markers) *)
Fixpoint scan_loop (fuel : nat) (l : bytes) (i : nat) : list CitationMarker * bool :=
  match fuel, l with
  | S fuel, b :: l =>
      if b =? open_bracket then
        let digits := take_digits l in
        let j := (i + 1 + length digits)%nat in
        let rest := drop (length digits) l in
        if bool_decide (digits = []) then scan_loop fuel l (i + 1)
        else if bool_decide (head rest = Some close_bracket) then
          let '(markers, incomplete) := scan_loop fuel (tail rest) (j + 1) in
          ({| m_start := i; m_end := j + 1; m_id := default 0 (parse_u64 digits) |} :: markers,
           incomplete)
        else
          let '(markers, incomplete) := scan_loop fuel rest j in
          (markers, negb (contains_byte close_bracket rest) || incomplete)
      else scan_loop fuel l (i + 1)
  | _, _ => ([], false)
  end.
Definition scan_markers (text : bytes) : list CitationMarker * bool :=
  scan_loop (length text) text 0.

(** src/src/websearch/citation.rs:110-124 (build_sources) *)
Definition build_sources `{UrlLib} (results : list SearchResult) : list UrlCitation :=
  imap (fun i r => {| c_url := url_as_str (url r); c_start := 0; c_end := 0;
    source_id := str "src_" ++ u64_to_string (i + 1) |}) results.

(** src/src/websearch/citation.rs:126-132 (reverse_lookup) *)
Definition reverse_lookup (sources : list UrlCitation) (u : bytes) : option bytes :=
  source_id <$> find_first (fun s => bool_decide (c_url s = u)) sources.

(** The visible text of a citation, [format!("[{n}] ({url})")]. *)
Definition visible (n : Z) (u : bytes) : bytes :=
  str "[" ++ u64_to_string n ++ str "] (" ++ u ++ str ")".

Section citations.
Open Scope rust_scope.

(** The loop over the markers.
    src/src/websearch/citation.rs:159-192 (render_citations) *)
Fixpoint render_loop (model_text : bytes) (sources : list UrlCitation)
    (markers : list CitationMarker) (text : bytes) (cs : list UrlCitation) (last : nat)
    : result CitedAnswer CitationError :=
  match markers with
  | [] => Ok {| cited_text := text ++ drop last model_text; citations := cs |}
  | m :: markers =>
      let text := text ++ slice last (m_start m) model_text in
      let n := m_id m in
      let? _ := ensure (1 <=? n) CitationError.InvalidId in
      let? u := ok_or (c_url <$> sources !! Z.to_nat (n - 1)) CitationError.InvalidId in
      let? sid := ok_or (reverse_lookup sources u) CitationError.InvalidId in
      let start := length text in
      let text := text ++ visible n u in
      render_loop model_text sources markers text
        (cs ++ [{| c_url := u; c_start := start; c_end := length text; source_id := sid |}])
        (m_end m)
  end.

(** src/src/websearch/citation.rs:134-158 (render_citations) *)
Definition render_citations (model_text : bytes) (sources : list UrlCitation)
    : result CitedAnswer CitationError :=
  let '(markers, incomplete) := scan_markers model_text in
  if (incomplete : bool) then Err CitationError.IncompleteMarker
  else render_loop model_text sources markers [] [] 0.

End citations.

(** ** Responses *)

(** src/src/websearch/response.rs:24-52 (OutputItem) *)
Module OutputItem.
Inductive OutputItem :=
| WebSearchCall (id query : bytes)
| Message (id text : bytes)
| FunctionCall (id call_id name arguments : bytes).
End OutputItem.
Notation OutputItem := OutputItem.OutputItem.

(** src/src/websearch/response.rs:54-65 (AssembledResponse) *)
Record AssembledResponse := {
  a_id : bytes;
  output : list OutputItem;
  a_model_turns : nat;
}.

Definition item_id (i : nat) : bytes := str "item_" ++ u64_to_string i.

(** src/src/websearch/response.rs:107-117 (client_function_item) *)
Definition client_function_item (item_idx : nat) (call : ChatToolCall) : OutputItem :=
  OutputItem.FunctionCall (item_id item_idx) (tc_id call) (tc_name call) (tc_arguments call).

(** src/src/websearch/response.rs:67-105 (assemble) *)
Definition assemble `{UrlLib} (outcome : EngineOutcome) (response_id : bytes)
    : AssembledResponse :=
  let searches := imap (fun i q => OutputItem.WebSearchCall (item_id i) q)
    (search_queries outcome) in
  let functions := imap (fun i c => client_function_item (length searches + i) c)
    (client_calls outcome) in
  {| a_id := response_id;
     output := searches ++ functions
       ++ [OutputItem.Message (item_id (length searches + length functions)) (text outcome)];
     a_model_turns := model_turns outcome |}.

(** src/src/websearch/response.rs:119-147 (output_item_to_json) *)
Definition output_item_to_json (item : OutputItem) : Value :=
  match item with
  | OutputItem.WebSearchCall id query => Value.Object
      [("type", jstr "web_search_call"); ("id", Value.String id); ("status", jstr "completed");
       ("action", Value.Object [("type", jstr "search"); ("query", Value.String query)])]
  | OutputItem.Message id text => Value.Object
      [("type", jstr "message"); ("role", jstr "assistant"); ("id", Value.String id);
       ("content", Value.Array
         [Value.Object [("type", jstr "output_text"); ("text", Value.String text)]])]
  | OutputItem.FunctionCall id call_id name arguments => Value.Object
      [("type", jstr "function_call"); ("id", Value.String id);
       ("call_id", Value.String call_id); ("name", Value.String name);
       ("arguments", Value.String arguments)]
  end.

(** src/src/websearch/response.rs:149-167 (nonstreaming_object) *)
Definition nonstreaming_object (assembled : AssembledResponse) : Value :=
  Value.Object
    [("id", Value.String (a_id assembled)); ("object", jstr "response");
     ("output", Value.Array (map output_item_to_json (output assembled)));
     ("usage", Value.Object
       [("input_tokens", jnum 0); ("input_tokens_details", Value.Null);
        ("output_tokens", jnum 0); ("output_tokens_details", Value.Null);
        ("total_tokens", jnum 0)]);
     ("model_turns", jnum (a_model_turns assembled))].

(** ** Server-sent events *)

Definition DEFAULT_TEXT_CHUNK_BYTES : nat := Z.to_nat 4096.
#[global] Arguments DEFAULT_TEXT_CHUNK_BYTES : simpl never.

(** The inner loop: back to a character boundary, not before [start].
    src/src/websearch/sse.rs:43-46 (split_utf8_chunks) *)
Fixpoint back_off (text : bytes) (start end_ : nat) : nat :=
  match end_ with
  | O => O
  | S e =>
      if (start <? end_)%nat && negb (is_char_boundary text end_) then back_off text start e
      else end_
  end.

(** The outer loop; each chunk takes at least one byte.
    src/src/websearch/sse.rs:32-56 (split_utf8_chunks) *)
Fixpoint split_loop (fuel : nat) (text : bytes) (max_bytes start : nat) : list bytes :=
  match fuel with
  | O => []
  | S fuel =>
      if (start <? length text)%nat then
        let end_ := back_off text start (Nat.min (start + max_bytes) (length text)) in
        let end_ :=
          if (end_ =? start)%nat
          then (start + char_width (default 0%Z (text !! start)))%nat
          else end_ in
        slice start end_ text :: split_loop fuel text max_bytes end_
      else []
  end.
Definition split_utf8_chunks (text : bytes) (max_bytes : nat) : list bytes :=
  split_loop (length text) text max_bytes 0.

(** [events.push(json!({..., "sequence_number": seq, ...}))]. *)
Definition event (kind : string) (seq : nat) (fields : list (string * Value)) : Value :=
  Value.Object (("type", jstr kind) :: ("sequence_number", jnum seq) :: fields).

(** The events of one output item, before they are numbered.
    src/src/websearch/sse.rs:94-213 (render_sse_with_chunk) *)
Definition item_fields (output_index : nat) (chunk_bytes : nat) (item : OutputItem)
    : list (string * list (string * Value)) :=
  let idx := ("output_index", jnum output_index) in
  match item with
  | OutputItem.WebSearchCall id query =>
      [("response.output_item.added"%string,
        [idx; ("item", Value.Object [("type", jstr "web_search_call"); ("id", Value.String id);
                                      ("status", jstr "in_progress")])]);
       ("response.output_item.done"%string, [idx; ("item", output_item_to_json item)])]
  | OutputItem.Message id text =>
      [("response.output_item.added"%string,
        [idx; ("item", Value.Object
          [("type", jstr "message"); ("role", jstr "assistant"); ("id", Value.String id);
           ("content", Value.Array [Value.Object
             [("type", jstr "output_text"); ("text", jstr "")]])])])]
      ++ map (fun delta => ("response.output_text.delta"%string,
           [idx; ("item_id", Value.String id); ("content_index", jnum 0);
            ("delta", Value.String delta)])) (split_utf8_chunks text chunk_bytes)
      ++ [("response.output_item.done"%string, [idx; ("item", output_item_to_json item)])]
  | OutputItem.FunctionCall id call_id name arguments =>
      [("response.output_item.added"%string,
        [idx; ("item", Value.Object
          [("type", jstr "function_call"); ("id", Value.String id);
           ("call_id", Value.String call_id); ("name", Value.String name);
           ("arguments", jstr "")])])]
      ++ map (fun delta => ("response.function_call_arguments.delta"%string,
           [idx; ("item_id", Value.String id); ("delta", Value.String delta)]))
           (split_utf8_chunks arguments chunk_bytes)
      ++ [("response.output_item.done"%string, [idx; ("item", output_item_to_json item)])]
  end.

(** [events.push(...); seq += 1;]. *)
Definition push (st : list Value * nat) (ev : string * list (string * Value))
    : list Value * nat :=
  let '(events, seq) := st in (events ++ [event (fst ev) seq (snd ev)], S seq).

Definition number_events (l : list (string * list (string * Value))) : list Value :=
  fst (foldl push ([], 0%nat) l).

(** src/src/websearch/sse.rs:72-223 (render_sse_with_chunk) *)
Definition render_sse_with_chunk (assembled : AssembledResponse) (chunk_bytes : nat)
    : list Value :=
  let response_id := Value.Object [("id", Value.String (a_id assembled))] in
  number_events
    ([("response.created"%string, [("response", response_id)]);
      ("response.in_progress"%string, [("response", response_id)])]
     ++ concat (imap (fun i item => item_fields i chunk_bytes item) (output assembled))
     ++ [("response.completed"%string, [("response", nonstreaming_object assembled)])]).

(** src/src/websearch/sse.rs:58-70 (render_sse) *)
Definition render_sse (assembled : AssembledResponse) : list Value :=
  render_sse_with_chunk assembled DEFAULT_TEXT_CHUNK_BYTES.

(** src/src/websearch/sse.rs:225-254 (render_failed) *)
Definition render_failed (response_id error_code message : bytes) : list Value :=
  let id := ("id", Value.String response_id) in
  number_events
    [("response.created"%string, [("response", Value.Object [id])]);
     ("response.in_progress"%string, [("response", Value.Object [id])]);
     ("response.failed"%string, [("response", Value.Object
       [id; ("error", Value.Object
              [("code", Value.String error_code); ("message", Value.String message)])])])].

(** src/src/websearch/sse.rs:256-268 (reconstruct_object) *)
Definition reconstruct_object (events : list Value) : option Value :=
  index "response" <$> find_first (fun ev => is_str "response.completed" (index "type" ev)) events.

(** ** What the chunks of a text promise *)

Lemma back_off_spec text start e :
  is_char_boundary text start = true → (start ≤ e)%nat →
  (start ≤ back_off text start e ≤ e)%nat ∧ is_char_boundary text (back_off text start e) = true.
Proof.
  intros Hstart. induction e as [|e IH]; intros He; simpl.
  { by replace start with 0%nat in * by lia. }
  destruct (start <? S e)%nat eqn:Hlt; simpl.
  - apply Nat.ltb_lt in Hlt. destruct (is_char_boundary text (S e)) eqn:Hb; simpl; [auto with lia|].
    destruct IH as [? ?]; [lia|]. split; [lia|done].
  - apply Nat.ltb_ge in Hlt. replace start with (S e) in * by lia. auto with lia.
Qed.

(** A chunk: well-formed text, within the limit or a single character. *)
Definition good_chunk (max_bytes : nat) (c : bytes) : Prop :=
  c ≠ [] ∧ utf8_valid c = true ∧ ((length c ≤ max_bytes)%nat ∨ one_char c).

Lemma split_loop_spec fuel : ∀ text max_bytes start,
  utf8_valid text = true → is_char_boundary text start = true →
  (start ≤ length text)%nat → (length text - start ≤ fuel)%nat →
  concat (split_loop fuel text max_bytes start) = drop start text
  ∧ Forall (good_chunk max_bytes) (split_loop fuel text max_bytes start).
Proof.
  induction fuel as [|fuel IH]; intros text max_bytes start Hv Hb Hle Hfuel; simpl.
  { rewrite drop_ge by lia. done. }
  destruct (start <? length text)%nat eqn:Hlt.
  2: { apply Nat.ltb_ge in Hlt. rewrite drop_ge by lia. done. }
  apply Nat.ltb_lt in Hlt.
  set (e := Nat.min (start + max_bytes) (length text)).
  destruct (back_off_spec text start e Hb ltac:(lia)) as [Hr He].
  set (b := back_off text start e) in *.
  destruct (cut_at_boundary text start Hv Hb) as [_ Hdrop].
  set (end_ := if (b =? start)%nat then _ else b).
  assert (Hend : (start < end_ ≤ length text)%nat ∧ is_char_boundary text end_ = true
    ∧ ((end_ ≤ start + max_bytes)%nat ∨ one_char (slice start end_ text))).
  { subst end_. destruct (b =? start)%nat eqn:Heq.
    - destruct (text !! start) as [x|] eqn:Hx; [|apply lookup_ge_None in Hx; lia]. simpl.
      destruct (first_char_boundary (drop start text) x (drop (S start) text)
        (drop_S _ _ _ Hx) Hdrop) as (H1 & H2 & H3).
      rewrite length_drop in H1. rewrite is_char_boundary_drop in H2 by done.
      assert (0 < char_width x)%nat by (unfold char_width; repeat case_match; lia).
      split_and!; [lia|lia|done|]. right. unfold slice.
      by replace (start + char_width x - start)%nat with (char_width x) by lia.
    - apply Nat.eqb_neq in Heq. split_and!; [lia|lia|done|]. left. lia. }
  destruct Hend as ([H1 H2] & H3 & H4).
  destruct (IH text max_bytes end_ Hv H3 H2 ltac:(lia)) as [Hc Hf]. split.
  - simpl. rewrite Hc. unfold slice. replace end_ with (start + (end_ - start))%nat at 2 by lia.
    rewrite <-drop_drop. apply take_drop.
  - constructor; [|done]. unfold good_chunk.
    assert (Hlen : length (slice start end_ text) = (end_ - start)%nat)
      by (unfold slice; rewrite length_take, length_drop; lia).
    split_and!; [intros Hnil; rewrite Hnil in Hlen; simpl in Hlen; lia| |].
    + apply (cut_at_boundary (drop start text)); [done|].
      rewrite is_char_boundary_drop by done. by replace (start + (end_ - start))%nat with end_ by lia.
    + destruct H4; [left; lia|by right].
Qed.

(** The chunks a text is sent in are its bytes in order, none lost or repeated;
    each is itself well-formed text of at most [max_bytes] bytes, unless it is a
    single character that is longer, so no character is ever cut, whatever the limit
    is. *)
Lemma split_utf8_chunks_spec text max_bytes :
  utf8_valid text = true →
  concat (split_utf8_chunks text max_bytes) = text
  ∧ Forall (good_chunk max_bytes) (split_utf8_chunks text max_bytes).
Proof.
  intros Hv. destruct (split_loop_spec (length text) text max_bytes 0) as [Hc Hf];
    [done|done|lia|lia|]. done.
Qed.

(** ** What the events promise *)

Lemma push_all l : ∀ events seq,
  foldl push (events, seq) l =
  (events ++ imap (fun i ev => event (fst ev) (seq + i) (snd ev)) l, (seq + length l)%nat).
Proof.
  induction l as [|ev l IH]; intros events seq; simpl.
  { by rewrite app_nil_r, Nat.add_0_r. }
  rewrite IH. f_equal; [|lia]. rewrite <-app_assoc. simpl. rewrite Nat.add_0_r.
  f_equal. f_equal. apply imap_ext. intros i x _. simpl. f_equal. lia.
Qed.

Lemma number_events_imap l :
  number_events l = imap (fun i ev => event (fst ev) i (snd ev)) l.
Proof. unfold number_events. rewrite push_all. done. Qed.

Lemma number_events_snoc l ev :
  number_events (l ++ [ev]) = number_events l ++ [event (fst ev) (length l) (snd ev)].
Proof. rewrite !number_events_imap, imap_app. simpl. by rewrite Nat.add_0_r. Qed.

(** A client's view of the events: the text it has accumulated for an output item,
    and the items it has been told are done. *)
Definition delta_of (i : nat) (ev : Value) : bytes :=
  match get "output_index" ev, get "delta" ev with
  | Some j, Some (Value.String d) =>
      match j with
      | Value.Number n => if bool_decide (n = u64_to_string i) then d else []
      | _ => []
      end
  | _, _ => []
  end.
Definition deltas (i : nat) (events : list Value) : bytes := concat (map (delta_of i) events).
Definition done_items (events : list Value) : list Value :=
  omap (fun ev => if is_str "response.output_item.done" (index "type" ev)
                  then get "item" ev else None) events.
Definition is_terminal (ev : Value) : bool :=
  is_str "response.completed" (index "type" ev) || is_str "response.failed" (index "type" ev).

(** The text of an item that is sent in deltas. *)
Definition streamed (item : OutputItem) : bytes :=
  match item with
  | OutputItem.WebSearchCall _ _ => []
  | OutputItem.Message _ text => text
  | OutputItem.FunctionCall _ _ _ arguments => arguments
  end.

Notation raw_event := (string * list (string * Value))%type.

Definition raw_delta (i : nat) (ev : raw_event) : bytes := delta_of i (Value.Object (snd ev)).
Definition raw_done (ev : raw_event) : option Value :=
  if bool_decide (fst ev = "response.output_item.done"%string) then member "item" (snd ev)
  else None.
Definition raw_terminal (ev : raw_event) : bool :=
  bool_decide (fst ev = "response.completed"%string)
  || bool_decide (fst ev = "response.failed"%string).

Lemma str_inj s t : str s = str t → s = t.
Proof.
  unfold str. revert t. induction s as [|a s IH]; intros [|b t]; simpl; intros Heq;
    simplify_eq; [done|].
  rewrite (IH t) by done. f_equal.
  rewrite <-(Ascii.ascii_N_embedding a), <-(Ascii.ascii_N_embedding b). by f_equal.
Qed.

Lemma delta_of_event i k n f : delta_of i (event k n f) = raw_delta i (k, f).
Proof. reflexivity. Qed.

Lemma type_of_event s k n f : is_str s (index "type" (event k n f)) = bool_decide (k = s).
Proof.
  unfold is_str, index, event, jstr. simpl.
  apply bool_decide_ext. split; [by intros ?%str_inj|by intros ->].
Qed.

(** What does not depend on the number of an event can be read off before numbering. *)
Lemma map_imap {A B C} (f : nat → A → B) (g : B → C) (h : A → C) l :
  (∀ i x, g (f i x) = h x) → map g (imap f l) = map h l.
Proof.
  intros Hgh. revert f Hgh. induction l as [|x l IH]; intros f Hgh; simpl; [done|].
  f_equal; [done|]. apply IH. intros i y. apply Hgh.
Qed.

Lemma omap_imap {A B C} (f : nat → A → B) (g : B → option C) (h : A → option C) l :
  (∀ i x, g (f i x) = h x) → omap g (imap f l) = omap h l.
Proof.
  intros Hgh. revert f Hgh. induction l as [|x l IH]; intros f Hgh; simpl; [done|].
  rewrite Hgh. by destruct (h x); rewrite IH by (intros; apply Hgh).
Qed.

Lemma deltas_number i l : deltas i (number_events l) = concat (map (raw_delta i) l).
Proof.
  unfold deltas. rewrite number_events_imap. f_equal. by apply map_imap.
Qed.

Lemma done_number l : done_items (number_events l) = omap raw_done l.
Proof.
  unfold done_items. rewrite number_events_imap. apply omap_imap.
  intros i [k f]. rewrite type_of_event. unfold raw_done. simpl. by case_bool_decide.
Qed.

Lemma terminal_number l : map is_terminal (number_events l) = map raw_terminal l.
Proof.
  rewrite number_events_imap. apply map_imap. intros i [k f].
  unfold is_terminal, raw_terminal. by rewrite !type_of_event.
Qed.

(** Two output indices are told apart by the numbers that carry them. *)
Lemma number_eq (i j : nat) (d : bytes) :
  is_u64 i → is_u64 j →
  (if bool_decide (u64_to_string j = u64_to_string i) then d else [])
  = if bool_decide (i = j) then d else [].
Proof.
  intros Hi Hj. repeat case_bool_decide; try done; subst; [|done].
  exfalso. assert (Z.of_nat j = Z.of_nat i) by by apply u64_to_string_inj. lia.
Qed.

Lemma raw_delta_chunks (i j : nat) (k : string) (f : bytes → list (string * Value)) l :
  (∀ d, raw_delta i (k, f d) = if bool_decide (i = j) then d else []) →
  concat (map (raw_delta i) (map (fun d => (k, f d)) l))
  = if bool_decide (i = j) then concat l else [].
Proof.
  intros Hd. induction l as [|d l IH]; simpl; [by case_bool_decide|].
  rewrite IH, Hd. by case_bool_decide.
Qed.

(** The events of one item: its deltas give its text, its done event the item. *)
Lemma item_deltas (i j chunk : nat) (item : OutputItem) :
  is_u64 i → is_u64 j → utf8_valid (streamed item) = true →
  concat (map (raw_delta i) (item_fields j chunk item))
  = if bool_decide (i = j) then streamed item else [].
Proof.
  intros Hi Hj Hv.
  assert (Hc : concat (split_utf8_chunks (streamed item) chunk) = streamed item)
    by (apply split_loop_spec; done || lia).
  destruct item as [id q|id t|id c n a]; cbn [item_fields streamed] in *;
    [by case_bool_decide| |]; set (cs := split_utf8_chunks _ _) in *; clearbody cs;
    rewrite !map_app, !concat_app;
    rewrite (raw_delta_chunks i j) by
      (intros d; unfold raw_delta, delta_of; simpl; by apply number_eq);
    simpl; rewrite app_nil_r; by rewrite Hc.
Qed.

Lemma item_done j chunk item :
  omap raw_done (item_fields j chunk item) = [output_item_to_json item].
Proof.
  assert (Hnone : ∀ (k : string) (f : bytes → list (string * Value)) l,
    k ≠ "response.output_item.done"%string → omap raw_done (map (fun d => (k, f d)) l) = []).
  { intros k f l Hk. induction l as [|d l IH]; [done|]. simpl. unfold raw_done at 1. simpl.
    by rewrite bool_decide_false. }
  destruct item; cbn [item_fields]; [done| |]; rewrite !omap_app, Hnone by done; done.
Qed.

Lemma item_terminal j chunk item :
  Forall (fun b => b = false) (map raw_terminal (item_fields j chunk item)).
Proof.
  apply Forall_fmap. destruct item; cbn [item_fields]; rewrite ?Forall_app;
    split_and?; repeat constructor; apply Forall_fmap, Forall_true; done.
Qed.

(** The same for all items. *)
Lemma items_deltas (i chunk : nat) l : ∀ j,
  is_u64 i → Z.of_nat (j + length l) ≤ u64_max →
  Forall (fun item => utf8_valid (streamed item) = true) l →
  concat (map (raw_delta i) (concat (imap (fun k item => item_fields (j + k) chunk item) l)))
  = if bool_decide (j ≤ i)%nat then default [] (streamed <$> l !! (i - j)%nat) else [].
Proof.
  induction l as [|item l IH]; intros j Hi Hlen Hv; simpl.
  { by case_bool_decide; rewrite ?lookup_nil. }
  inv Hv. rewrite map_app, concat_app, Nat.add_0_r. simpl in Hlen.
  rewrite item_deltas by (done || (unfold is_u64; lia)).
  erewrite imap_ext; [rewrite (IH (S j)) by (done || lia)|].
  2: { intros k x _. simpl. by rewrite Nat.add_succ_r. }
  destruct (decide (i = j)) as [->|]; simpl.
  - rewrite bool_decide_true, bool_decide_false, bool_decide_true, Nat.sub_diag by lia.
    simpl. by rewrite app_nil_r.
  - rewrite (bool_decide_false (i = j)) by done. simpl. repeat case_bool_decide; try lia; [|done].
    by replace (i - j)%nat with (S (i - S j)) by lia.
Qed.

Lemma items_done chunk l : ∀ j,
  omap raw_done (concat (imap (fun k item => item_fields (j + k) chunk item) l))
  = map output_item_to_json l.
Proof.
  induction l as [|item l IH]; intros j; simpl; [done|].
  rewrite omap_app, item_done. simpl. f_equal.
  erewrite imap_ext; [apply (IH (S j))|]. intros k x _. simpl. by rewrite Nat.add_succ_r.
Qed.

Lemma items_terminal chunk l : ∀ f : nat → nat,
  Forall (fun b => b = false)
    (map raw_terminal (concat (imap (fun k item => item_fields (f k) chunk item) l))).
Proof.
  induction l as [|item l IH]; intros f; simpl; [done|].
  rewrite map_app, Forall_app. split; [apply item_terminal|apply (IH (f ∘ S))].
Qed.

(** The response of an assembled answer before numbering: two opening events, the
    items, one closing event. *)
Lemma render_sse_terminal a chunk :
  ∃ front closing, render_sse_with_chunk a chunk = front ++ [closing]
    ∧ is_str "response.completed" (index "type" closing) = true
    ∧ index "response" closing = nonstreaming_object a
    ∧ Forall (fun ev => is_terminal ev = false) front.
Proof.
  unfold render_sse_with_chunk. rewrite app_assoc, number_events_snoc.
  eexists _, _. split_and!; [reflexivity|by rewrite type_of_event, bool_decide_true|done|].
  apply (Forall_fmap is_terminal (fun b => b = false)).
  change (fmap (M:=list) is_terminal) with (map is_terminal).
  rewrite terminal_number, map_app. apply Forall_app; split; [by repeat constructor|].
  apply (items_terminal chunk (output a) (fun k => k)).
Qed.

(** C17: the events of a response carry it exactly: they are numbered from zero
    without a gap; the deltas of an output item, put together, are its text; the
    done events are the output items in order; the last event and no other is
    terminal; and the object rebuilt from the events is the one of the response
    without streaming. *)
Theorem sse_carries_response a chunk :
  Z.of_nat (length (output a)) ≤ u64_max →
  Forall (fun item => utf8_valid (streamed item) = true) (output a) →
  let events := render_sse_with_chunk a chunk in
  (∀ (i : nat) ev, events !! i = Some ev → get "sequence_number" ev = Some (jnum i))
  ∧ (∀ (i : nat) item, output a !! i = Some item → deltas i events = streamed item)
  ∧ done_items events = map output_item_to_json (output a)
  ∧ (∃ front closing, events = front ++ [closing] ∧ is_terminal closing = true
       ∧ Forall (fun ev => is_terminal ev = false) front)
  ∧ reconstruct_object events = Some (nonstreaming_object a).
Proof.
  intros Hlen Hv events. split_and!.
  - intros i ev. unfold events, render_sse_with_chunk. rewrite number_events_imap, list_lookup_imap.
    intros (x & _ & ->)%fmap_Some. done.
  - intros i item Hi. unfold events, render_sse_with_chunk.
    rewrite deltas_number, !map_app, !concat_app. simpl.
    pose proof (lookup_lt_Some _ _ _ Hi).
    pose proof (items_deltas i chunk (output a) 0) as Hd. simpl in Hd.
    rewrite Hd, Nat.sub_0_r, Hi by (done || (unfold is_u64; lia)).
    simpl. by rewrite app_nil_r.
  - unfold events, render_sse_with_chunk. rewrite done_number, !omap_app. simpl.
    pose proof (items_done chunk (output a) 0) as Hd. simpl in Hd. rewrite Hd.
    by rewrite app_nil_r.
  - unfold events. destruct (render_sse_terminal a chunk) as (front & closing & -> & Hc & _ & Hf).
    exists front, closing. split_and!; [done| |done]. unfold is_terminal. by rewrite Hc.
  - destruct (render_sse_terminal a chunk) as (front & closing & Heq & Hc & Hr & Hf).
    unfold events, reconstruct_object. rewrite Heq. clear Heq. induction Hf as [|ev front Hev _ IH].
    + simpl. by rewrite Hc, <-Hr.
    + simpl. unfold is_terminal in Hev. apply orb_false_iff in Hev as [-> _]. exact IH.
Qed.

(** ** What the citations promise *)

(** A text taken apart: a byte that stands for itself, or a marker with its digits. *)
Inductive piece :=
| Plain (b : Z)
| Cite (digits : bytes).

Definition raw (p : piece) : bytes :=
  match p with
  | Plain b => [b]
  | Cite d => open_bracket :: d ++ [close_bracket]
  end.
Definition raw_text (ps : list piece) : bytes := concat (map raw ps).

Definition is_marker (d : bytes) : Prop := d ≠ [] ∧ Forall (fun b => is_ascii_digit b = true) d.
Definition marker_number (d : bytes) : Z := default 0 (parse_u64 d).

(** Nothing that reads as a marker is left as plain text. *)
Fixpoint parsed (ps : list piece) : Prop :=
  match ps with
  | [] => True
  | Plain b :: ps =>
      (∀ d r, is_marker d → b :: raw_text ps ≠ open_bracket :: d ++ close_bracket :: r)
      ∧ parsed ps
  | Cite d :: ps => is_marker d ∧ parsed ps
  end.

Fixpoint positions (i : nat) (ps : list piece) : list CitationMarker :=
  match ps with
  | [] => []
  | Plain _ :: ps => positions (i + 1) ps
  | Cite d :: ps =>
      {| m_start := i; m_end := i + 1 + length d + 1; m_id := marker_number d |}
        :: positions (i + 1 + length d + 1) ps
  end.

Lemma take_digits_spec l :
  Forall (fun b => is_ascii_digit b = true) (take_digits l)
  ∧ l = take_digits l ++ drop (length (take_digits l)) l
  ∧ ∀ b, head (drop (length (take_digits l)) l) = Some b → is_ascii_digit b = false.
Proof.
  induction l as [|b l (H1 & H2 & H3)]; simpl; [done|].
  destruct (is_ascii_digit b) eqn:Hb; simpl; [|naive_solver].
  split_and!; [by constructor|by f_equal|done].
Qed.

(** Digits that are followed by something else are taken exactly. *)
Lemma take_digits_app d b r :
  Forall (fun b => is_ascii_digit b = true) d → is_ascii_digit b = false →
  take_digits (d ++ b :: r) = d.
Proof. intros Hd Hb. induction Hd as [|x d Hx _ IH]; simpl; [by rewrite Hb|]. by rewrite Hx, IH. Qed.

Lemma parsed_digits d ps :
  Forall (fun b => is_ascii_digit b = true) d → parsed ps → parsed (map Plain d ++ ps).
Proof.
  induction 1 as [|x d Hx _ IH]; intros Hps; simpl; [done|]. split; [|by apply IH].
  intros ? ? _ [= -> _]. done.
Qed.

Lemma raw_text_app ps qs : raw_text (ps ++ qs) = raw_text ps ++ raw_text qs.
Proof. unfold raw_text. by rewrite map_app, concat_app. Qed.
Lemma raw_text_plain d : raw_text (map Plain d) = d.
Proof. unfold raw_text. induction d as [|b d IH]; simpl in *; [done|]. by rewrite IH. Qed.
Lemma positions_plain d ps : ∀ i, positions i (map Plain d ++ ps) = positions (i + length d) ps.
Proof.
  induction d as [|b d IH]; intros i; simpl; [by rewrite Nat.add_0_r|].
  rewrite IH. f_equal. lia.
Qed.

Lemma scan_loop_spec fuel : ∀ l i,
  (length l ≤ fuel)%nat →
  ∃ ps, raw_text ps = l ∧ parsed ps ∧ fst (scan_loop fuel l i) = positions i ps.
Proof.
  induction fuel as [|fuel IH]; intros l i Hfuel; destruct l as [|b l]; try (simpl in Hfuel; lia).
  1,2: by exists [].
  simpl in Hfuel. cbn [scan_loop]. destruct (b =? open_bracket) eqn:Hb.
  2: { destruct (IH l (i + 1)%nat) as (ps & <- & Hp & ->); [lia|]. exists (Plain b :: ps).
       bool_to_prop. split_and!; [done| |done]. split; [naive_solver|done]. }
  apply Z.eqb_eq in Hb as ->.
  destruct (take_digits_spec l) as (Hd & Hl & Hr).
  set (d := take_digits l) in *. set (rest := drop (length d) l) in *.
  case_bool_decide as Hnil.
  { destruct (IH l (i + 1)%nat) as (ps & Hraw & Hp & ->); [lia|].
    exists (Plain open_bracket :: ps). split_and!; [by rewrite <-Hraw| |done].
    split; [|done]. intros d' r [Hne Hd'] [= Heq]. rewrite Hraw in Heq.
    assert (d = d') as <- by (subst d; rewrite Heq; by apply take_digits_app). done. }
  case_bool_decide as Hclose.
  - destruct rest as [|c rest'] eqn:Hrest; [done|]. simpl in Hclose. injection Hclose as ->.
    simpl. destruct (IH rest' (i + 1 + length d + 1)%nat) as (ps & Hraw & Hp & Hpos).
    { rewrite Hl, length_app in Hfuel. simpl in Hfuel. lia. }
    destruct (scan_loop fuel rest' _) as [ms inc]. simpl in *. subst ms.
    exists (Cite d :: ps). split_and!; [|done|done].
    unfold raw_text in *. simpl. rewrite Hraw, Hl, <-app_assoc. done.
  - destruct (IH rest (i + 1 + length d)%nat) as (ps & Hraw & Hp & Hpos).
    { rewrite Hl, length_app in Hfuel. lia. }
    destruct (scan_loop fuel rest _) as [ms inc]. simpl in *. subst ms.
    exists (Plain open_bracket :: map Plain d ++ ps).
    assert (Heq : raw_text (map Plain d ++ ps) = l) by by rewrite raw_text_app, raw_text_plain, Hraw.
    split_and!.
    + change (open_bracket :: raw_text (map Plain d ++ ps) = open_bracket :: l). by rewrite Heq.
    + split; [|by apply parsed_digits]. intros d' r [Hne Hd'] [= Hl']. rewrite Heq in Hl'.
      assert (d = d') as <- by (subst d; rewrite Hl'; by apply take_digits_app).
      apply Hclose. rewrite Hl in Hl' at 1. apply app_inv_head in Hl'. by rewrite Hl'.
    + simpl. by rewrite positions_plain.
Qed.

(** The source a marker refers to. *)
Definition source_of (sources : list UrlCitation) (d : bytes) : option UrlCitation :=
  if 1 <=? marker_number d then sources !! Z.to_nat (marker_number d - 1) else None.

(** What a piece becomes: a marker becomes its visible citation. *)
Definition shown (sources : list UrlCitation) (p : piece) : bytes :=
  match p with
  | Plain b => [b]
  | Cite d => visible (marker_number d) (default [] (c_url <$> source_of sources d))
  end.

Definition cite_digits (ps : list piece) : list bytes :=
  omap (fun p => match p with Cite d => Some d | _ => None end) ps.

(** A citation of [d] in [text]: its URL is the one of the source [d] names and its
    range selects exactly the visible citation. *)
Definition cites (sources : list UrlCitation) (text : bytes) (d : bytes) (c : UrlCitation) : Prop :=
  ∃ s, source_of sources d = Some s ∧ c_url c = c_url s
    ∧ slice (c_start c) (c_end c) text = visible (marker_number d) (c_url s)
    ∧ reverse_lookup sources (c_url s) = Some (source_id c).

Lemma slice_middle a b c : slice (length a) (length a + length b) (a ++ b ++ c) = b.
Proof.
  unfold slice. rewrite drop_app_length. replace (_ - _)%nat with (length b) by lia.
  apply take_app_length.
Qed.

Lemma slice_prefix (last : nat) (pre rest : bytes) :
  (last ≤ length pre)%nat → slice last (length pre) (pre ++ rest) = drop last pre.
Proof.
  intros. unfold slice. rewrite drop_app_le by done. rewrite take_app_le by (rewrite length_drop; lia).
  apply take_ge. rewrite length_drop. lia.
Qed.

Lemma render_loop_spec ps : ∀ t sources pre text cs last ans,
  t = pre ++ raw_text ps → (last ≤ length pre)%nat →
  render_loop t sources (positions (length pre) ps) text cs last = Ok ans →
  cited_text ans = text ++ drop last pre ++ concat (map (shown sources) ps)
  ∧ ∃ new, citations ans = cs ++ new
      ∧ Forall2 (cites sources (cited_text ans)) (cite_digits ps) new.
Proof.
  induction ps as [|[b|d] ps IH]; intros t sources pre text cs last ans Ht Hlast.
  - simpl. intros [= <-]. simpl. rewrite Ht, drop_app_le, app_nil_r by done.
    split; [by rewrite app_nil_r|]. exists []. by rewrite app_nil_r.
  - cbn [positions]. replace (length pre + 1)%nat with (length (pre ++ [b]))
      by by rewrite length_app.
    intros Hok. apply IH in Hok as [Htext Hnew];
      [|by rewrite Ht, <-app_assoc|rewrite length_app; lia].
    split; [|done]. rewrite Htext, drop_app_le by lia. by rewrite <-!app_assoc.
  - cbn [positions render_loop m_start m_end m_id].
    assert (Hslice : slice last (length pre) t = drop last pre) by (rewrite Ht; by apply slice_prefix).
    rewrite Hslice.
    replace (length pre + 1 + length d + 1)%nat with (length (pre ++ raw (Cite d)))
      by (rewrite length_app; simpl; rewrite length_app; simpl; lia).
    intros (? & Hn & (u & Hu & (sid & Hsid & Hok)%result_bind_ok)%result_bind_ok)%result_bind_ok.
    apply ensure_ok in Hn. destruct (sources !! _) as [s|] eqn:Hs; [|done]. injection Hu as <-.
    destruct (reverse_lookup sources (c_url s)) as [sid'|] eqn:Hrev; [|done]. injection Hsid as ->.
    apply IH in Hok as [Htext (new & Hcs & Hnew)];
      [|unfold raw_text; simpl; by rewrite Ht, <-!app_assoc|rewrite length_app; lia].
    assert (Hsrc : source_of sources d = Some s) by (unfold source_of; by rewrite Hn).
    rewrite (drop_ge (pre ++ raw (Cite d))), app_nil_l in Htext by done. split.
    + rewrite Htext. cbn [map concat shown]. rewrite Hsrc. cbn [fmap option_fmap option_map default].
      by rewrite <-!app_assoc.
    + eexists. rewrite Hcs, <-app_assoc. split; [done|]. simpl. constructor; [|done].
      exists s. split_and!; [done|done| |done]. cbn [c_start c_end]. rewrite Htext.
      rewrite (length_app (text ++ _)), <-(app_assoc (text ++ drop last pre)).
      apply slice_middle.
Qed.

(** An answer with citations says exactly what the model said, with every marker
    replaced by the visible citation of the source it numbers, and nothing that
    reads as a marker left over; each citation, in order, carries the URL of that
    source and the range of its visible text. *)
Lemma citations_exact model_text sources ans :
  render_citations model_text sources = Ok ans →
  ∃ ps, raw_text ps = model_text ∧ parsed ps
    ∧ cited_text ans = concat (map (shown sources) ps)
    ∧ Forall2 (cites sources (cited_text ans)) (cite_digits ps) (citations ans).
Proof.
  unfold render_citations, scan_markers.
  destruct (scan_loop_spec (length model_text) model_text 0) as (ps & Hraw & Hp & Hpos); [lia|].
  destruct (scan_loop _ _ _) as [ms []]; [done|]. simpl in Hpos. subst ms. intros Hok.
  apply (render_loop_spec ps model_text sources []) in Hok as [Htext (new & Hcs & Hnew)]; [|done..].
  exists ps. rewrite Hcs. split_and!; try done.
Qed.

(** A marker without a source is refused; the error for an unknown URL never occurs. *)
Lemma render_loop_error t sources ms : ∀ text cs last e,
  render_loop t sources ms text cs last = Err e → e = CitationError.InvalidId.
Proof.
  induction ms as [|m ms IH]; intros text cs last e; simpl; [done|].
  destruct (1 <=? m_id m); simpl; [|by intros [= <-]].
  destruct (c_url <$> sources !! _) as [u|]; simpl; [|by intros [= <-]].
  destruct (reverse_lookup sources u) as [sid|]; simpl; [|by intros [= <-]]. apply IH.
Qed.

Lemma render_citations_error t sources e :
  render_citations t sources = Err e →
  e = CitationError.InvalidId ∨ e = CitationError.IncompleteMarker.
Proof.
  unfold render_citations. destruct (scan_markers t) as [ms []]; [naive_solver|].
  intros ?%render_loop_error. by left.
Qed.
