(* ===== verification/WebServer.v ===== *)
(** * Web search bridge: the server

    [websearch/server.rs] and [websearch/config.rs]: authentication, the bounded
    body, the request limit, and a request from its headers to its events.  The
    request decoder, the URL library and the printer are the libraries'; an HTTP
    response is its status or the events it streams. *)

From S2P Require Import Prelude Bytes Utf8 Json WebRequest WebSearch WebResponse.

Definition MAX_CONCURRENT_REQUESTS : nat := 4.
Definition MAX_SSE_EVENT_BYTES : Z := 16 * 1024.

(** ** Configuration *)

(** The [url] crate's parts of an endpoint that the configuration checks look at;
    [host] is as [host_str] prints it, an IPv6 address in brackets. *)
Record Endpoint := {
  ep_scheme : bytes;
  ep_username : bytes;
  ep_password : option bytes;
  ep_host : option bytes;
  ep_port : option Z;
}.

(** [std::net]: parsing of addresses, of which only the result is used. *)
Class NetParse := {
  parse_ip : bytes → option IpAddr;
  parse_socket : bytes → option (IpAddr * Z);
}.

(** src/src/websearch/config.rs:46-69 (BridgeConfig) *)
Record BridgeConfig := {
  enabled : bool;
  listen : bytes;
  backend_url : Endpoint;
  bearer_token : bytes;
  external_access : bool;
  searxng : option Endpoint;
  cfg_max_results : nat;
}.

(** The reasons a configuration is refused. *)
Module ConfigError.
Inductive ConfigError :=
| InvalidListen | MissingToken | BackendSelf | UserInfo | MaxResults | Scheme.
End ConfigError.
Notation ConfigError := ConfigError.ConfigError.

Section config.
Context `{NetParse}.
Open Scope rust_scope.

(** src/src/websearch/config.rs:101-112 (reject_userinfo) *)
Definition reject_userinfo (u : Endpoint) : result unit ConfigError :=
  ensure (bool_decide (ep_username u = []) && is_none (ep_password u)) ConfigError.UserInfo.

(** src/src/websearch/config.rs:121-152 (reject_backend_self) *)
Definition reject_backend_self (u : Endpoint) (listen_addr : IpAddr * Z)
    : result unit ConfigError :=
  match ep_host u with
  | None => Ok tt
  | Some host =>
      let backend_ip :=
        match parse_ip host with
        | Some ip => Some ip
        | None => if eq_ignore_ascii_case host (str "localhost") then Some localhost else None
        end in
      match backend_ip with
      | None => Ok tt
      | Some ip =>
          let same_ip := is_loopback (fst listen_addr) && is_loopback ip in
          let same_port := snd listen_addr =? default 80 (ep_port u) in
          ensure (negb (same_ip && same_port)) ConfigError.BackendSelf
      end
  end.

Definition http_scheme (u : Endpoint) : bool :=
  bool_decide (ep_scheme u = str "http") || bool_decide (ep_scheme u = str "https").

Definition for_searxng (c : BridgeConfig) (check : Endpoint → result unit ConfigError)
    : result unit ConfigError :=
  match searxng c with Some e => check e | None => Ok tt end.

(** src/src/websearch/config.rs:154-213 (BridgeConfig::validate) *)
Definition validate_config (c : BridgeConfig) : result unit ConfigError :=
  if negb (enabled c) then Ok tt
  else
    let? addr := ok_or (parse_socket (listen c)) ConfigError.InvalidListen in
    let? _ := ensure (is_loopback (fst addr) || negb (bool_decide (bearer_token c = [])))
      ConfigError.MissingToken in
    let? _ := reject_backend_self (backend_url c) addr in
    let? _ := reject_userinfo (backend_url c) in
    let? _ := for_searxng c reject_userinfo in
    let? _ := ensure ((1 <=? cfg_max_results c)%nat && (cfg_max_results c <=? 10)%nat)
      ConfigError.MaxResults in
    let? _ := ensure (http_scheme (backend_url c)) ConfigError.Scheme in
    for_searxng c (fun e => ensure (http_scheme e) ConfigError.Scheme).

End config.

(** ** Requests *)

(** The decoder serde derives for [ResponsesRequest]; an error is its text. *)
Class RequestDecoder := decode_request : bytes → result ResponsesRequest bytes.

(** What a handler returns. *)
Inductive Response :=
| Plain_status (code : Z) (message : bytes)
| Events (events : list Value).

Section server.
Context `{Serde, UrlLib, !Backends, RequestDecoder}.
Open Scope rust_scope.

(** [auth] is the value of the Authorization header when it is text.
    src/src/websearch/server.rs:103-125 (BridgeServer::authorize) *)
Definition authorize (c : BridgeConfig) (auth : option bytes) : result unit Z :=
  if bool_decide (bearer_token c = []) then Err 401
  else
    let? token := ok_or (auth ≫= strip_prefix (str "Bearer ")) 401 in
    if bool_decide (token = bearer_token c) then Ok tt else Err 401.

(** The chunks of the body; [None] is a read error.
    src/src/websearch/server.rs:268-285 (read_bounded_body) *)
Fixpoint read_loop (chunks : list (option bytes)) (limit : Z) (collected : bytes)
    : result bytes unit :=
  match chunks with
  | [] => Ok collected
  | Some c :: chunks =>
      let collected := collected ++ c in
      if limit <? Z.of_nat (length collected) then Err tt
      else read_loop chunks limit collected
  | None :: _ => Err tt
  end.
Definition read_bounded_body (chunks : list (option bytes)) (limit : Z) : result bytes unit :=
  read_loop chunks limit [].

(** src/src/websearch/server.rs:127-142 (BridgeServer::parse_body) *)
Definition parse_body (body : bytes) : result ValidatedResponseRequest RequestError :=
  let? _ := ensure (Z.of_nat (length body) <=? MAX_BODY_BYTES)
    (RequestError.PayloadTooLarge (str "body " ++ u64_to_string (length body)
       ++ str " bytes exceeds " ++ u64_to_string MAX_BODY_BYTES)) in
  let? req := map_err (fun e => RequestError.BadRequest
    (str "invalid responses request: " ++ e)) (decode_request body) in
  validate req.

(** src/src/websearch/server.rs:320-332 (error_code) *)
Definition error_code (e : EngineError) : bytes :=
  match e with
  | EngineError.LimitExceeded => str "limit_exceeded"
  | EngineError.InvalidToolArguments => str "invalid_tool_arguments"
  | EngineError.NoResults => str "no_results"
  | EngineError.BackendUnavailable => str "backend_unavailable"
  | EngineError.DeadlineExceeded => str "deadline_exceeded"
  | EngineError.TooManyTurns => str "too_many_turns"
  | EngineError.CitationInvalid => str "citation_invalid"
  | EngineError.Other => str "other"
  end.

(** [err.to_string()].
    src/src/websearch/engine.rs:63-77 (EngineError::fmt) *)
Definition engine_error_to_string (e : EngineError) : bytes :=
  match e with
  | EngineError.LimitExceeded => str "limit_exceeded"
  | EngineError.InvalidToolArguments => str "invalid_tool_arguments"
  | EngineError.NoResults => str "no_results"
  | EngineError.BackendUnavailable => str "backend_unavailable"
  | EngineError.DeadlineExceeded => str "deadline_exceeded"
  | EngineError.TooManyTurns => str "too_many_turns"
  | EngineError.CitationInvalid => str "citation_invalid"
  | EngineError.Other => str "other"
  end.

(** src/src/websearch/server.rs:342-362 (stream_events) *)
Definition stream_events (events : list Value) : Response :=
  Events (filter (fun ev => Z.of_nat (length (to_string ev)) ≤ MAX_SSE_EVENT_BYTES) events).

(** src/src/websearch/server.rs:334-340 (stream_sse) *)
Definition stream_sse (assembled : AssembledResponse) : Response :=
  stream_events (render_sse assembled).

(** [disconnected]: the disconnect branch of the select was taken, and the engine
    future dropped.
    src/src/websearch/server.rs:287-313 (run_engine_cancellable) *)
Definition run_engine_cancellable (initial_messages : list ChatMessage) (require_search : bool)
    (disconnected : bool) (calls : list Call) : result EngineOutcome EngineError * list Call :=
  if disconnected then (Err EngineError.Other, calls)
  else run_with_search_requirement initial_messages require_search calls.

(** What is done before the engine: the headers, the body, the opt-in and the request
    limit; [permits] is what the semaphore has left.
    src/src/websearch/server.rs:158-192 (handle_responses) *)
Definition accept_request (c : BridgeConfig) (permits : nat) (auth : option bytes)
    (chunks : list (option bytes)) : result ValidatedResponseRequest Response :=
  let? _ := map_err (fun code => Plain_status code []) (authorize c auth) in
  let? body := map_err (fun _ => Plain_status 413 []) (read_bounded_body chunks MAX_BODY_BYTES) in
  let? v := map_err (fun e => match e with
      | RequestError.BadRequest m => Plain_status 400 m
      | RequestError.PayloadTooLarge m => Plain_status 413 m
      end) (parse_body body) in
  let? _ := ensure (negb (is_some (search v)) || external_access c)
    (Plain_status 403
      (str "external web search is disabled; enable external_access explicitly")) in
  let? _ := ensure (negb (permits =? 0)%nat) (Plain_status 429 []) in
  Ok v.

(** The response to an outcome of the engine; [rid] is the new response id.
    src/src/websearch/server.rs:208-238 (handle_responses) *)
Definition respond (rid : bytes) (outcome : result EngineOutcome EngineError) : Response :=
  match outcome with
  | Ok o =>
      if bool_decide (length (search_results o) = 0%nat) then stream_sse (assemble o rid)
      else
        match render_citations (text o) (build_sources (search_results o)) with
        | Ok cited =>
            if bool_decide (length (citations cited) = 0%nat)
            then stream_events (render_failed rid (str "citation_invalid")
                   (str "search result citation was missing or invalid"))
            else stream_sse (assemble {| text := cited_text cited;
                   search_results := search_results o; search_queries := search_queries o;
                   model_turns := model_turns o; client_calls := client_calls o |} rid)
        | Err _ => stream_events (render_failed rid (str "citation_invalid")
                     (str "search result citation was missing or invalid"))
        end
  | Err e => stream_events (render_failed rid (error_code e) (engine_error_to_string e))
  end.

(** src/src/websearch/server.rs:153-238 (handle_responses) *)
Definition handle_responses (c : BridgeConfig) (permits : nat) (rid : bytes)
    (auth : option bytes) (chunks : list (option bytes)) (calls : list Call)
    : Response * list Call :=
  match accept_request c permits auth chunks with
  | Err r => (r, calls)
  | Ok v =>
      let require_search := is_some_and (search v) required in
      let '(outcome, calls) :=
        run_engine_cancellable (messages v) require_search false calls in
      (respond rid outcome, calls)
  end.

(** src/src/websearch/server.rs:245-266 (handle_status) *)
Definition handle_status (c : BridgeConfig) (auth : option bytes) : result Value Z :=
  let? _ := authorize c auth in
  Ok (Value.Object
    [("bridge", jstr "websearch"); ("enabled", Value.Bool (enabled c));
     ("concurrent", jnum MAX_CONCURRENT_REQUESTS); ("queue", jnum 8);
     ("searxng_configured", Value.Bool (is_some (searxng c)));
     ("job_summary", Value.Object [("active", jnum 0)])]).

End server.

(** ** What the server promises *)

Section promises.
Context `{Serde, UrlLib, !Backends, RequestDecoder}.

Lemma authorize_spec c auth :
  authorize c auth = Ok tt ↔ bearer_token c ≠ [] ∧ auth = Some (str "Bearer " ++ bearer_token c).
Proof.
  unfold authorize. case_bool_decide as He; [naive_solver|].
  destruct auth as [a|]; [|simpl; naive_solver]. cbn [mbind option_bind].
  destruct (strip_prefix _ a) as [t|] eqn:Ht; cbn [ok_or result_bind].
  - apply strip_prefix_spec in Ht as ->. case_bool_decide; simpl; [subst; naive_solver|].
    split; [done|]. intros [_ [= ->]]. done.
  - split; [done|]. intros [_ [= ->]].
    rewrite (proj2 (strip_prefix_spec _ _ (bearer_token c))) in Ht by done. done.
Qed.

Lemma read_loop_spec chunks limit : ∀ collected b,
  Z.of_nat (length collected) ≤ limit →
  read_loop chunks limit collected = Ok b →
  Z.of_nat (length b) ≤ limit ∧ ∃ cs, chunks = map Some cs ∧ b = collected ++ concat cs.
Proof.
  induction chunks as [|[c|] chunks IH]; intros collected b Hl Hok; simpl in *; try done.
  - simplify_eq. split; [done|]. exists []. simpl. by rewrite app_nil_r.
  - case_match; [done|]. bool_to_prop. apply IH in Hok as (Hb & cs & -> & ->); [|done].
    split; [done|]. exists (c :: cs). simpl. by rewrite app_assoc.
Qed.

(** A request is admitted with its token, a body within the limit that decodes and
    validates, the opt-in for a search, and a free slot. *)
Lemma accept_request_spec c permits auth chunks v :
  accept_request c permits auth chunks = Ok v →
  bearer_token c ≠ [] ∧ auth = Some (str "Bearer " ++ bearer_token c)
  ∧ permits ≠ 0%nat ∧ (is_Some (search v) → external_access c = true)
  ∧ ∃ cs req, chunks = map Some cs ∧ Z.of_nat (length (concat cs)) ≤ MAX_BODY_BYTES
      ∧ decode_request (concat cs) = Ok req ∧ validate req = Ok v.
Proof.
  unfold accept_request. intros ([] & Ha & (b & Hb & (v' & Hv & ([] & Hs & ([] & Hp & Hok)
    %result_bind_ok)%result_bind_ok)%result_bind_ok)%result_bind_ok)%result_bind_ok.
  injection Hok as ->. apply ensure_ok in Hs, Hp.
  destruct (authorize c auth) as [[]|] eqn:Hauth; [|done]. apply authorize_spec in Hauth as [? ?].
  destruct (read_bounded_body chunks _) as [b'|] eqn:Hread; [|done]. injection Hb as ->.
  apply read_loop_spec in Hread as (Hlen & cs & -> & Hb); [|simpl; unfold MAX_BODY_BYTES; lia].
  destruct (parse_body b) as [v'|[]] eqn:Hparse; try done. injection Hv as ->.
  unfold parse_body in Hparse.
  apply result_bind_ok in Hparse as ([] & _ & (req & Hreq & Hval)%result_bind_ok).
  destruct (decode_request b) as [req'|] eqn:Hdec; [|done]. injection Hreq as ->.
  split_and!; [done|done| | |].
  - apply negb_true_iff, Nat.eqb_neq in Hp. done.
  - intros [s Hsearch]. rewrite Hsearch in Hs. done.
  - exists cs, req. simpl in Hb. by subst b.
Qed.

(** No request that is refused reaches DS4 or the search provider, and every
    request without the configured bearer token is refused with 401; a refusal is a
    status, never a stream. *)
Lemma refused_before_backends c permits rid auth chunks earlier :
  let '(r, tr) := handle_responses c permits rid auth chunks earlier in
  (auth ≠ Some (str "Bearer " ++ bearer_token c) ∨ bearer_token c = [] →
     r = Plain_status 401 [] ∧ tr = earlier)
  ∧ (∀ code m, r = Plain_status code m → tr = earlier
       ∧ accept_request c permits auth chunks = Err (Plain_status code m)).
Proof.
  unfold handle_responses. destruct (accept_request c permits auth chunks) as [v|r] eqn:Hadmit.
  - destruct (run_engine_cancellable _ _ _ _) as [o tr]. split.
    + apply accept_request_spec in Hadmit as (? & ? & _). naive_solver.
    + intros code m Hr. exfalso. revert Hr. unfold respond, stream_sse, stream_events.
      repeat case_match; done.
  - split; [|naive_solver]. intros Hbad. split; [|done].
    assert (Ha : authorize c auth ≠ Ok tt) by (rewrite authorize_spec; naive_solver).
    revert Hadmit Ha. unfold accept_request, authorize.
    case_bool_decide; simpl; [naive_solver|].
    destruct (auth ≫= _) as [t|]; simpl; [|naive_solver]. case_bool_decide; simpl; naive_solver.
Qed.

(** ** Streams *)

Definition completed (ev : Value) : bool := is_str "response.completed" (index "type" ev).

Lemma render_failed_terminal rid code m :
  map is_terminal (render_failed rid code m) = [false; false; true]
  ∧ Forall (fun ev => completed ev = false) (render_failed rid code m).
Proof. split; [reflexivity|]. by repeat constructor. Qed.

(** An answer that a search contributed to must cite a source. *)
Definition properly_cited (o : EngineOutcome) : Prop :=
  search_results o = [] ∨
  ∃ cited, render_citations (text o) (build_sources (search_results o)) = Ok cited
    ∧ citations cited ≠ [].

Definition terminals (evs : list Value) : nat := length (filter (fun ev => is_terminal ev = true) evs).

Lemma filter_terminals_le (P : Value → Prop) `{!∀ x, Decision (P x)} evs :
  (terminals (filter P evs) ≤ terminals evs)%nat.
Proof.
  unfold terminals. induction evs as [|ev evs IH]; [done|].
  rewrite (filter_cons P), (filter_cons _ ev). repeat case_decide; simpl;
    rewrite ?filter_cons; repeat case_decide; simpl; done || lia.
Qed.

Lemma terminals_map evs : terminals evs = length (filter (eq true) (map is_terminal evs)).
Proof.
  unfold terminals. induction evs as [|ev evs IH]; [done|]. simpl. rewrite !filter_cons.
  repeat case_decide; simpl; congruence || by rewrite ?IH.
Qed.

Lemma filter_all_false front :
  Forall (fun ev => is_terminal ev = false) front →
  filter (fun ev => is_terminal ev = true) front = [].
Proof. induction 1 as [|ev l Hev _ IH]; [done|]. by rewrite filter_cons_False by congruence. Qed.

Lemma render_sse_terminals a : terminals (render_sse a) = 1%nat.
Proof.
  unfold render_sse. destruct (render_sse_terminal a DEFAULT_TEXT_CHUNK_BYTES)
    as (front & closing & -> & Hc & _ & Hf).
  unfold terminals. rewrite filter_app, length_app, filter_cons, filter_nil.
  rewrite (decide_True (P := is_terminal closing = true)) by (unfold is_terminal; by rewrite Hc).
  simpl.
  by rewrite (filter_all_false _ Hf).
Qed.

(** A request that reaches the engine is answered by a stream with at most one
    terminal event, exactly one when every event fits the size limit, and it is
    reported completed only when the engine gave an answer that, if a search
    contributed to it, cites at least one source and no marker without a source. *)
Lemma stream_ends_once c permits rid auth chunks earlier v :
  accept_request c permits auth chunks = Ok v →
  ∃ events outcome tr,
    run_with_search_requirement (messages v) (is_some_and (search v) required) earlier
      = (outcome, tr)
    ∧ handle_responses c permits rid auth chunks earlier
      = (Events (filter (fun ev => Z.of_nat (length (to_string ev)) ≤ MAX_SSE_EVENT_BYTES) events), tr)
    ∧ terminals events = 1%nat
    ∧ (Exists (fun ev => completed ev = true) events →
         ∃ o, outcome = Ok o ∧ properly_cited o).
Proof.
  intros Hadmit. unfold handle_responses. rewrite Hadmit. unfold run_engine_cancellable.
  destruct (run_with_search_requirement _ _ _) as [outcome tr].
  assert (Hfail : ∀ code m P, terminals (render_failed rid code m) = 1%nat
    ∧ (Exists (fun ev => completed ev = true) (render_failed rid code m) → P)).
  { intros code m P. rewrite terminals_map. destruct (render_failed_terminal rid code m) as [-> Hf].
    split; [done|]. intros (ev & Hin & Hev)%Exists_exists. rewrite Forall_forall in Hf.
    by rewrite (Hf ev Hin) in Hev. }
  destruct outcome as [o|e]; unfold respond, stream_sse, stream_events.
  2: { eexists _, _, _. split_and!; [done|done|apply (Hfail _ _ False)|apply Hfail]. }
  case_bool_decide as Hlen.
  { eexists _, _, _. split_and!; [done|done|apply render_sse_terminals|]. intros _.
    exists o. split; [done|]. left. by destruct (search_results o). }
  destruct (render_citations _ _) as [cited|e] eqn:Hcited; [case_bool_decide as Hc|].
  - eexists _, _, _. split_and!; [done|done|apply (Hfail _ _ False)|apply Hfail].
  - eexists _, _, _. split_and!; [done|done|apply render_sse_terminals|]. intros _.
    exists o. split; [done|]. right. exists cited. split; [done|].
    intros Heq. apply Hc. by rewrite Heq.
  - eexists _, _, _. split_and!; [done|done|apply (Hfail _ _ False)|apply Hfail].
Qed.

(** ** Where the stream loses its end

    The closing event carries the whole answer, so an answer of more than 16 KiB makes
    it too large to be sent, and the stream ends without a terminal event. *)

Lemma assemble_text o rid :
  text o ∈ strings_of (nonstreaming_object (assemble o rid)).
Proof.
  unfold nonstreaming_object. cbn [strings_of]. apply elem_of_concat_map.
  eexists ("output"%string, _). split; [by do 2 right; left|]. cbn [snd strings_of].
  apply elem_of_concat_map. eexists. split.
  { apply list_elem_of_fmap_2. unfold assemble. cbn [output]. apply elem_of_app. right.
    apply elem_of_app. right. left. }
  simpl. set_solver.
Qed.

(** An answer of more than 16 KiB is streamed without any terminal event: the
    event that completes the response is dropped because it exceeds the size limit
    of an event, and nothing replaces it. *)
Lemma long_answer_never_completes `{!SerdeLaws} rid o :
  search_results o = [] → MAX_SSE_EVENT_BYTES < Z.of_nat (length (text o)) →
  ∃ events, respond rid (Ok o) = Events events ∧ terminals events = 0%nat.
Proof.
  intros Hs Hlong. unfold respond. rewrite Hs. simpl. unfold stream_sse, stream_events.
  eexists. split; [done|]. unfold render_sse.
  destruct (render_sse_terminal (assemble o rid) DEFAULT_TEXT_CHUNK_BYTES)
    as (front & closing & -> & Hc & Hr & Hf).
  assert (Hbig : ¬ Z.of_nat (length (to_string closing)) ≤ MAX_SSE_EVENT_BYTES).
  { pose proof (assemble_text o rid) as Hin. rewrite <-Hr in Hin.
    enough (length (text o) ≤ length (to_string closing))%nat by lia.
    apply to_string_length. revert Hin. unfold index, get.
    destruct closing as [| | | | |l]; simpl; try set_solver.
    intros Hin. clear -Hin. induction l as [|[k v] l IH]; simpl in *; [set_solver|].
    case_bool_decide; set_solver. }
  rewrite filter_app, filter_cons_False, filter_nil, app_nil_r by done.
  pose proof (filter_terminals_le
    (fun ev => Z.of_nat (length (to_string ev)) ≤ MAX_SSE_EVENT_BYTES) front) as Hle.
  unfold terminals in Hle at 2. rewrite (filter_all_false _ Hf) in Hle. simpl in Hle. lia.
Qed.

End promises.

(** ** Searches nobody opted in to *)

Section opt_in.
Context `{Serde, UrlLib, !Backends, RequestDecoder}.

(** A run only adds to the record of its calls. *)
Definition grows : relation Engine := fun s s' => calls s `prefix_of` calls s'.

Global Instance grows_preorder : PreOrder grows.
Proof. split; unfold grows; [intros s; done|intros s1 s2 s3; apply transitivity]. Qed.

Lemma grows_modify (f : Engine → Engine) :
  (∀ s, calls s `prefix_of` calls (f s)) → keeps grows (modify f : method Engine EngineError unit).
Proof. intros Hf. apply keeps_modify; [apply _|exact Hf]. Qed.

Ltac solve_grows :=
  repeat (apply keeps_bind; [apply _| |intros ?]);
  first [solve [auto with rust typeclass_instances]
        |apply grows_modify; intros s; simpl; done || by apply prefix_app_r].

Lemma grows_search call : keeps grows (run_search call).
Proof. unfold run_search. solve_grows. Qed.

Lemma grows_calls l : keeps grows (run_calls l).
Proof.
  induction l as [|call l IH]; simpl; [apply keeps_ret; apply _|].
  apply keeps_bind; [apply _| |auto]. unfold run_call.
  apply keeps_if; [apply _|apply grows_search|]. by apply grows_modify.
Qed.

Lemma grows_turn first : keeps grows (run_turn first).
Proof. unfold run_turn. solve_grows. Qed.

Lemma grows_loop n : ∀ first, keeps grows (run_loop n first).
Proof.
  induction n as [|n IH]; intros first; simpl; [apply keeps_fail; apply _|].
  apply keeps_bind; [apply _|apply grows_turn|intros t]. apply keeps_if; [apply _| |].
  - apply keeps_bind; [apply _|apply keeps_self; apply _|intros ?; apply keeps_ret; apply _].
  - apply keeps_bind; [apply _|apply grows_calls|auto].
Qed.

Lemma grows_after {A B} p (m : method Engine EngineError A) (k : A → method Engine EngineError B) s :
  p `prefix_of` calls (snd (m s)) → (∀ a, keeps grows (k a)) →
  p `prefix_of` calls (snd ((m ≫= k) s)).
Proof.
  intros Hp Hk. unfold mbind, method_bind. destruct (m s) as [[a|e] s']; simpl in *; [|done].
  etrans; [exact Hp|]. apply Hk.
Qed.

Lemma run_search_records call q s :
  searches_left s ≠ 0%nat → parse_search_arguments (call_arguments call) = Ok q →
  calls s ++ [Searched q (backend_search (calls s) q)] `prefix_of`
    calls (snd (run_search call s)).
Proof.
  intros Hleft Hparse. unfold run_search. unfold_method.
  rewrite (proj2 (Nat.eqb_neq _ _)) by done. simpl. rewrite Hparse. simpl.
  destruct (backend_search _ _) as [rs|e]; simpl; [|done]. by case_bool_decide.
Qed.

Lemma run_loop_search n first s t call rest q :
  run_turn first s = (Ok t, with_call (Turn (convo s) (Ok t)) s) →
  turn_calls t = call :: rest → is_search call = true →
  parse_search_arguments (call_arguments call) = Ok q → searches_left s ≠ 0%nat →
  let tr := calls s ++ [Turn (convo s) (Ok t)] in
  tr ++ [Searched q (backend_search tr q)] `prefix_of` calls (snd (run_loop (S n) first s)).
Proof.
  intros Hrun Hcalls Hsearch Hparse Hleft. cbn [run_loop].
  unfold mbind at 1, method_bind. rewrite Hrun, Hcalls, bool_decide_false by done.
  apply grows_after; [|intros _; apply grows_loop]. cbn [run_calls].
  apply grows_after; [|intros _; apply grows_calls]. unfold run_call. rewrite Hsearch.
  by apply (run_search_records call q (with_call (Turn (convo s) (Ok t)) s)).
Qed.

(** The bridge runs a search that nobody asked for or allowed: also when external
    access is off and the request declares no search tool, a model whose first turn
    calls the reserved search tool makes the bridge send the query to the search
    provider. *)
Lemma search_without_opt_in c permits rid auth chunks earlier v t call rest q :
  accept_request c permits auth chunks = Ok v →
  external_access c = false →
  send_turn_with_search_requirement earlier (messages v) false = Ok t →
  turn_calls t = call :: rest → is_search call = true →
  parse_search_arguments (call_arguments call) = Ok q →
  elapsed (earlier ++ [Turn (messages v) (Ok t)]) ≤ TOTAL_DEADLINE →
  search v = None ∧
  ∃ answer later, snd (handle_responses c permits rid auth chunks earlier)
    = earlier ++ [Turn (messages v) (Ok t)] ++ Searched q answer :: later.
Proof.
  intros Hadmit Hext Hturn Hcalls Hsearch Hparse Hdead.
  assert (Hnone : search v = None).
  { apply accept_request_spec in Hadmit as (_ & _ & _ & Hs & _). destruct (search v); [|done].
    rewrite Hext in Hs. discriminate Hs. eauto. }
  split; [done|].
  unfold handle_responses. rewrite Hadmit, Hnone. cbn [is_some_and].
  unfold run_engine_cancellable, run_with_search_requirement.
  set (s0 := {| searches_left := _ |}). set (tr := earlier ++ [Turn (messages v) (Ok t)]).
  set (answer := backend_search tr q).
  assert (Hrun : run_turn (Some false) s0 = (Ok t, with_call (Turn (messages v) (Ok t)) s0)).
  { unfold run_turn. unfold_method. simpl. rewrite Hturn. simpl.
    rewrite (proj2 (Z.ltb_ge _ _)) by done. done. }
  destruct (run_loop_search 5 (Some false) s0 t call rest q) as [later Hl]; [done..|].
  unfold MAX_MODEL_TURNS. destruct (run_loop 6 _ s0) as [r s']. simpl in Hl.
  exists answer, later. simpl. rewrite Hl. unfold tr. by rewrite <-!app_assoc.
Qed.

End opt_in.

(** ** Citations of a second search *)

Section second_search.
Context `{UrlLib}.

Lemma concat_lookup {A} (l : list (list A)) k x :
  l !! k = Some x → ∃ pre post, concat l = pre ++ x ++ post.
Proof.
  intros Hk. apply list_elem_of_split_length in Hk as (l1 & l2 & -> & _).
  exists (concat l1), (concat l2). by rewrite concat_app.
Qed.

(** The number a search result is shown to the model with. *)
Definition shown_as (n : Z) (r : SearchResult) (content : bytes) : Prop :=
  ∃ pre post, content = pre ++ str "[" ++ u64_to_string n ++ str "] " ++ title r ++ str " "
    ++ url_as_str (url r) ++ post.

Lemma format_shows results (k : nat) r :
  results !! k = Some r → shown_as (k + 1) r (format_search_results results).
Proof.
  intros Hk. unfold format_search_results.
  set (f := fun (i : nat) (r : SearchResult) => _).
  destruct (concat_lookup (imap f results) k (f k r)) as (pre & post & ->).
  { by rewrite list_lookup_imap, Hk. }
  unfold f, shown_as.
  exists (pre ++ (if (k =? 0)%nat then [] else [byte_newline])), (str " " ++ snippet r ++ post).
  by rewrite <-!app_assoc.
Qed.

Lemma source_of_number sources (n : Z) :
  1 ≤ n → is_u64 n →
  source_of sources (u64_to_string n) = sources !! Z.to_nat (n - 1).
Proof.
  intros Hn Hu. unfold source_of, marker_number. rewrite parse_u64_to_string by done. simpl.
  by rewrite (proj2 (Z.leb_le 1 n)).
Qed.

(** The citations of a second search point to the results of the first one: the
    results of every search are shown to the model numbered from one, but a marker
    is resolved in the list of all results, so the number under which the model saw
    a result of the second search resolves to the result of the first search at
    that place. *)
Lemma second_search_misattributed results1 results2 (k : nat) r1 r2 :
  results1 !! k = Some r1 → results2 !! k = Some r2 → is_u64 (k + 1) →
  shown_as (k + 1) r2 (format_search_results results2)
  ∧ c_url <$> source_of (build_sources (results1 ++ results2)) (u64_to_string (k + 1))
    = Some (url_as_str (url r1)).
Proof.
  intros H1 H2 Hk. split; [by apply format_shows|].
  rewrite source_of_number by (done || lia).
  replace (Z.to_nat (k + 1 - 1)) with k by lia. unfold build_sources.
  rewrite list_lookup_imap, lookup_app_l by by eapply lookup_lt_Some. by rewrite H1.
Qed.

End second_search.

(** A listener on a wildcard address is never recognised as the backend itself, as
    only loopback listeners are compared. *)
Lemma wildcard_listener_may_call_itself `{NetParse} u port :
  reject_backend_self u (IpAddr.V4 0, port) = Ok tt.
Proof. unfold reject_backend_self. repeat case_match; done. Qed.

(** An enabled configuration that validates. *)
Lemma validate_config_spec `{NetParse} c :
  validate_config c = Ok tt → enabled c = true →
  ∃ ip port, parse_socket (listen c) = Some (ip, port)
    ∧ (is_loopback ip = true ∨ bearer_token c ≠ [])
    ∧ reject_backend_self (backend_url c) (ip, port) = Ok tt
    ∧ (1 ≤ cfg_max_results c ≤ 10)%nat ∧ http_scheme (backend_url c) = true.
Proof.
  unfold validate_config. intros Hok Hen. rewrite Hen in Hok. cbn [negb] in Hok.
  apply result_bind_ok in Hok as ([ip port] & Ha & ([] & Ht & ([] & Hself & ([] & _ & ([] & _
    & ([] & Hm & ([] & Hs & _)%result_bind_ok)%result_bind_ok)%result_bind_ok)%result_bind_ok)
    %result_bind_ok)%result_bind_ok).
  destruct (parse_socket (listen c)) as [addr|]; [|done]. injection Ha as ->.
  apply ensure_ok in Ht, Hm, Hs. apply andb_true_iff in Hm as [?%Nat.leb_le ?%Nat.leb_le].
  exists ip, port. split_and!; try done.
  apply orb_true_iff in Ht as [?|?]; [by left|right]. by bool_to_prop.
Qed.

(** ** A bridge that runs *)

Module Demo.

Definition arguments : bytes := str "{query}".

#[export] Instance serde : Serde := {|
  from_slice b := if bool_decide (b = arguments)
                  then Some (Value.Object [("query"%string, jstr "rust")]) else None;
  to_string := CompactPrinter.print |}.
#[export] Instance serde_laws : SerdeLaws.
Proof. constructor. exact print_length. Qed.

#[export] Instance urls : UrlLib := {|
  Url := bytes;
  url_parse b := Some b;
  url_as_str u := u;
  url_scheme u := if starts_with (str "https:") u then str "https" else [] |}.

Definition result1 : SearchResult :=
  {| title := str "Rust"; url := str "https://rust-lang.org" : Url; snippet := str "A language" |}.
Definition result2 : SearchResult :=
  {| title := str "Rocq"; url := str "https://rocq-prover.org" : Url; snippet := str "A prover" |}.

Definition search_call : ChatToolCallResult :=
  {| call_id := str "call_1"; call_name := INTERNAL_SEARCH_TOOL_NAME;
     call_arguments := arguments |}.
Definition first_turn : ChatTurnResult :=
  {| turn_messages := []; turn_calls := [search_call]; turn_text := [] |}.
Definition last_turn : ChatTurnResult :=
  {| turn_messages := []; turn_calls := []; turn_text := str "Rust is a language [1]." |}.

(** A model that searches once and then answers. *)
#[export] Instance backends : Backends := {|
  send_turn _ _ := Ok last_turn;
  send_turn_with_search_requirement _ _ _ := Ok first_turn;
  backend_search _ _ := Ok [result1];
  elapsed _ := 5 |}.

Definition request : ResponsesRequest :=
  {| rr_model := str "m"; input := ResponseInput.String (str "hello");
     instructions := Some (str "be brief"); rr_stream := None; rr_max_output_tokens := None;
     tools := None; tool_choice := None; text_format := None; store := None;
     previous_response_id := None; reasoning := None; include := None;
     rr_parallel_tool_calls := None |}.
#[export] Instance decoder : RequestDecoder := fun _ => Ok request.

Definition config : BridgeConfig :=
  {| enabled := true; listen := str "127.0.0.1:18081";
     backend_url := {| ep_scheme := str "http"; ep_username := []; ep_password := None;
                       ep_host := Some (str "127.0.0.1"); ep_port := Some 8080 |};
     bearer_token := str "secret"; external_access := false; searxng := None;
     cfg_max_results := 5 |}.

Definition auth : option bytes := Some (str "Bearer secret").

Definition admitted_request : ValidatedResponseRequest :=
  {| v_model := str "m";
     messages := [plain_message (str "system") (str "be brief");
                  plain_message (str "user") (str "hello")];
     v_stream := false; v_max_output_tokens := None; v_parallel_tool_calls := None;
     search := None |}.

Lemma admits : accept_request config 4 auth [Some (str "{}")] = Ok admitted_request.
Proof. by vm_compute. Qed.

End Demo.

Section witnesses.
Import Demo.

Lemma validate_spec_witness :
  validate request = Ok admitted_request ∧ to_chat_messages request = Ok (messages admitted_request).
Proof. split; [by vm_compute|]. apply (validate_spec request admitted_request). by vm_compute. Defined.

Lemma split_utf8_chunks_spec_witness :
  utf8_valid [230; 151; 165; 97] = true
  ∧ concat (split_utf8_chunks [230; 151; 165; 97] 2) = [230; 151; 165; 97]
  ∧ split_utf8_chunks [230; 151; 165; 97] 2 = [[230; 151; 165]; [97]].
Proof.
  split; [by vm_compute|]. split; [apply (split_utf8_chunks_spec _ 2); by vm_compute|by vm_compute].
Defined.

Definition demo_response : AssembledResponse :=
  {| a_id := str "resp_1";
     output := [OutputItem.WebSearchCall (str "item_0") (str "rust");
                OutputItem.Message (str "item_1") (str "Rust is a language")];
     a_model_turns := 2 |}.

Lemma sse_carries_response_witness :
  deltas 1 (render_sse_with_chunk demo_response 4) = str "Rust is a language"
  ∧ length (render_sse_with_chunk demo_response 4) = 12%nat.
Proof.
  split; [|by vm_compute].
  destruct (sse_carries_response demo_response 4) as (_ & Hd & _);
    [by vm_compute|by repeat constructor|].
  exact (Hd 1%nat _ eq_refl).
Defined.

Lemma citations_exact_witness :
  ∃ ps, raw_text ps = str "Rust is a language [1]." ∧ parsed ps.
Proof.
  destruct (citations_exact (str "Rust is a language [1].") (build_sources [result1])
    {| cited_text := str "Rust is a language [1] (https://rust-lang.org).";
       citations := [{| c_url := str "https://rust-lang.org"; c_start := 19; c_end := 46;
                        source_id := str "src_1" |}] |}) as (ps & ? & ? & _);
    [by vm_compute|]. by exists ps.
Defined.

Definition demo_outcome : EngineOutcome :=
  {| text := str "Rust is a language [1]."; search_results := [result1];
     search_queries := [str "rust"]; model_turns := 2; client_calls := [] |}.

Lemma engine_outcome_sound_witness :
  ∃ new, outcome_of demo_outcome new ∧ turns new = 2%nat.
Proof.
  destruct (engine_outcome_sound (messages admitted_request) false [] demo_outcome
    [Turn (messages admitted_request) (Ok first_turn);
     Searched (str "rust") (Ok [result1]);
     Turn (messages admitted_request ++ [{| role := str "tool";
       content := str "[1] Rust https://rust-lang.org A language"; tool_calls := [];
       tool_call_id := Some (str "call_1") |}]) (Ok last_turn)])
    as (new & _ & Ho & _); [by vm_compute|].
  exists new. split; [exact Ho|]. symmetry. apply Ho.
Defined.

Lemma stream_ends_once_witness :
  ∃ events tr, handle_responses config 4 (str "resp_1") auth [Some (str "{}")] []
    = (Events (filter (fun ev => Z.of_nat (length (to_string ev)) ≤ MAX_SSE_EVENT_BYTES) events), tr)
    ∧ terminals events = 1%nat.
Proof.
  destruct (stream_ends_once config 4 (str "resp_1") auth [Some (str "{}")] [] admitted_request
    admits) as (events & outcome & tr & _ & Hh & Ht & _).
  by exists events, tr.
Defined.

Lemma long_answer_never_completes_witness :
  ∃ events, respond (str "resp_1") (Ok {| text := repeat 97 (Z.to_nat 16385);
      search_results := []; search_queries := []; model_turns := 1; client_calls := [] |})
    = Events events ∧ terminals events = 0%nat.
Proof. apply long_answer_never_completes; [done|by vm_compute]. Defined.

Lemma search_without_opt_in_witness :
  ∃ answer later, snd (handle_responses config 4 (str "resp_1") auth [Some (str "{}")] [])
    = Turn (messages admitted_request) (Ok first_turn) :: Searched (str "rust") answer :: later.
Proof.
  destruct (search_without_opt_in config 4 (str "resp_1") auth [Some (str "{}")] []
    admitted_request first_turn search_call [] (str "rust") admits) as (_ & a & l & Hl);
    [by vm_compute..|]. by exists a, l.
Defined.

Lemma second_search_misattributed_witness :
  shown_as 1 result2 (format_search_results [result2])
  ∧ c_url <$> source_of (build_sources [result1; result2]) (str "1")
    = Some (str "https://rust-lang.org").
Proof.
  apply (second_search_misattributed [result1] [result2] 0 result1 result2);
    [done|done|by vm_compute].
Defined.

End witnesses.
