(* ===== verification/Disk.v ===== *)
(** * A directory that can crash

    The file system calls the state store makes, on the one directory it uses, with
    what a crash may do to it.  A directory entry names an inode; the entries that a
    crash may bring back are those of any moment since the directory was last synced;
    the contents of an inode that was not synced after its last write may be anything
    after a crash.  Every call may fail, and the machine may stop before any call:
    the [script] says which. *)

From S2P Require Import Prelude Bytes.

(** What a call does: it succeeds, fails (a write after [written] bytes), or the
    machine stops. *)
Inductive Fault := Succeeds | Fails (written : nat) | Stops.

Module IoError.
Inductive IoError := NotFound | Failed | Stopped.
End IoError.
Notation IoError := IoError.IoError.

Record Inode := { content : bytes; synced : bool }.

Notation directory := (gmap bytes nat).

Record Disk := {
  entries : directory;
  (** Earlier entries that a crash may bring back. *)
  unsynced : list directory;
  inodes : gmap nat Inode;
  script : list Fault;
}.

Definition set_entries (e : directory) (d : Disk) : Disk :=
  {| entries := e; unsynced := entries d :: unsynced d; inodes := inodes d; script := script d |}.
Definition set_inode (i : nat) (n : Inode) (d : Disk) : Disk :=
  {| entries := entries d; unsynced := unsynced d; inodes := <[i := n]> (inodes d);
     script := script d |}.
Definition next_fault (d : Disk) : Disk :=
  {| entries := entries d; unsynced := unsynced d; inodes := inodes d; script := tail (script d) |}.

Notation io A := (method Disk IoError A).

(** The outcome of a call: [on_failure] is what a failing call leaves behind. *)
Definition syscall {A} (on_failure : nat → Disk → Disk) (m : io A) : io A := fun d =>
  match head (script d) with
  | Some (Fails n) => (Err IoError.Failed, on_failure n (next_fault d))
  | Some Stops => (Err IoError.Stopped, next_fault d)
  | _ => m (next_fault d)
  end.

(** [fs::read]. *)
Definition read_file (name : bytes) : io bytes :=
  syscall (fun _ d => d) (d ← self;
    match entries d !! name ≫= fun i => inodes d !! i with
    | Some n => mret (content n)
    | None => fail IoError.NotFound
    end).

(** [OpenOptions::create(true).truncate(true).write(true).open]: the inode. *)
Definition create_file (name : bytes) : io nat :=
  syscall (fun _ d => d) (d ← self;
    match entries d !! name with
    | Some i => modify (set_inode i {| content := []; synced := false |});; mret i
    | None =>
        let i := fresh (dom (inodes d)) in
        modify (fun d => set_entries (<[name := i]> (entries d))
          (set_inode i {| content := []; synced := false |} d));;
        mret i
    end).

(** [OpenOptions::create(true).truncate(false).open]. *)
Definition open_or_create (name : bytes) : io nat :=
  syscall (fun _ d => d) (d ← self;
    match entries d !! name with
    | Some i => mret i
    | None =>
        let i := fresh (dom (inodes d)) in
        modify (fun d => set_entries (<[name := i]> (entries d))
          (set_inode i {| content := []; synced := false |} d));;
        mret i
    end).

(** [create_dir_all] of the directory. *)
Definition create_dir_all : io unit := syscall (fun _ d => d) (mret tt).

(** [flock] of an open file; [free] is whether nobody holds it. *)
Definition flock (free : bool) : io bool := syscall (fun _ d => d) (mret free).

(** [set_permissions] on an open file: no effect on names or contents. *)
Definition set_permissions (i : nat) : io unit := syscall (fun _ d => d) (mret tt).

Definition append_bytes (i : nat) (b : bytes) (d : Disk) : Disk :=
  match inodes d !! i with
  | Some n => set_inode i {| content := content n ++ b; synced := false |} d
  | None => d
  end.

(** [write_all]; a failing write has written a part. *)
Definition write_all (i : nat) (b : bytes) : io unit :=
  syscall (fun n d => append_bytes i (take n b) d) (modify (append_bytes i b)).

(** [File::sync_all] of a file and of the directory. *)
Definition sync_file (i : nat) : io unit :=
  syscall (fun _ d => d) (modify (fun d =>
    match inodes d !! i with
    | Some n => set_inode i {| content := content n; synced := true |} d
    | None => d
    end)).
Definition open_directory : io unit := syscall (fun _ d => d) (mret tt).
Definition sync_directory : io unit :=
  syscall (fun _ d => d) (modify (fun d =>
    {| entries := entries d; unsynced := []; inodes := inodes d; script := script d |})).

(** [fs::rename]: the new name replaces an existing entry. *)
Definition rename (from to : bytes) : io unit :=
  syscall (fun _ d => d) (d ← self;
    match entries d !! from with
    | Some i => modify (set_entries (<[to := i]> (delete from (entries d))))
    | None => fail IoError.NotFound
    end).

(** What a crash may leave: one of the directories since the last sync, and contents
    that are only certain where they were synced. *)
Definition crash (d d' : Disk) : Prop :=
  entries d' ∈ entries d :: unsynced d ∧ unsynced d' = []
  ∧ ∀ i n, inodes d !! i = Some n → synced n = true → inodes d' !! i = Some n.

(** ** What every directory of a crash agrees on *)

(** [all_versions P d]: [P] holds of the directory and of every one a crash may bring
    back. *)
Definition all_versions (P : directory → Prop) (d : Disk) : Prop :=
  Forall P (entries d :: unsynced d).

(** The file [name] of directory [e] is durably the bytes [b]. *)
Definition durable_in (d : Disk) (name b : bytes) (e : directory) : Prop :=
  ∃ i n, e !! name = Some i ∧ inodes d !! i = Some n ∧ synced n = true ∧ content n = b.

Lemma crash_reads d d' name P :
  crash d d' →
  all_versions (fun e => match e !! name with
    | Some _ => ∃ b, durable_in d name b e ∧ P (Some b)
    | None => P None
    end) d →
  P (content <$> (entries d' !! name ≫= fun i => inodes d' !! i)).
Proof.
  intros (He & _ & Hi) Hall. unfold all_versions in Hall. rewrite Forall_forall in Hall.
  specialize (Hall _ He). destruct (entries d' !! name) as [i|] eqn:E; [|done].
  destruct Hall as (b & (i' & n & Hi' & Hn & Hs & <-) & HP). simplify_eq/=.
  by rewrite (Hi _ _ Hn Hs).
Qed.

(** ** Replacing a file by renaming

    A program that replaces [path] writes the new contents to the temporary file [tmp],
    syncs it and renames it.  [holds P]: the file, in the directory and in every one a
    crash may bring back, is durable and satisfies [P]; the temporary file is another
    file. *)

Lemma wp_syscall {A} on_failure (m : io A) Q X d :
  (∀ n, X IoError.Failed (on_failure n (next_fault d))) → X IoError.Stopped (next_fault d) →
  wp m Q X (next_fault d) → wp (syscall on_failure m) Q X d.
Proof. unfold wp, syscall. intros. destruct (head (script d)) as [[]|]; auto. Qed.

Section crash_safety.
Context (path tmp : bytes) (tmp_not_path : tmp ≠ path).

Definition safe_entry (P : option bytes → Prop) (d : Disk) (e : directory) : Prop :=
  match e !! path with
  | None => P None
  | Some i => (entries d !! tmp ≠ Some i ∧ e !! tmp ≠ Some i)
      ∧ ∃ n, inodes d !! i = Some n ∧ synced n = true ∧ P (Some (content n))
  end.
Definition holds (P : option bytes → Prop) (d : Disk) : Prop := all_versions (safe_entry P d) d.

(** What a process that starts after a crash reads. *)
Definition file_content (d : Disk) : option bytes :=
  content <$> (entries d !! path ≫= fun i => inodes d !! i).

Lemma holds_mono (P Q : option bytes → Prop) d : (∀ c, P c → Q c) → holds P d → holds Q d.
Proof.
  intros HPQ Hd. eapply Forall_impl; [exact Hd|]. intros e. unfold safe_entry.
  destruct (e !! path) as [i|]; [|auto]. intros (? & n & ? & ? & ?). split; [done|]. exists n. auto.
Qed.

Lemma crash_holds P d d' : holds P d → crash d d' → P (file_content d').
Proof.
  intros Hd Hc. apply (crash_reads d d' path P Hc). eapply Forall_impl; [exact Hd|].
  intros e. unfold safe_entry. destruct (e !! path) as [i|] eqn:E; [|done].
  intros (_ & n & ? & ? & ?). exists (content n). split; [|done]. exists i, n. done.
Qed.

Lemma holds_reads P d : holds P d → P (file_content d).
Proof.
  intros Hd. inv Hd. unfold safe_entry, file_content in *.
  destruct (entries d !! path) as [i|]; simpl; [|done].
  destruct H1 as (_ & n & -> & _ & ?). done.
Qed.

(** After a crash the file holds what it did, durably, whatever else is lost. *)
Lemma crash_then_holds P d d' : holds P d → crash d d' → holds P d'.
Proof.
  intros Hd (He & Hu & Hi). unfold holds, all_versions in *. rewrite Hu.
  constructor; [|done]. rewrite Forall_forall in Hd. specialize (Hd _ He).
  unfold safe_entry in *. destruct (entries d' !! path) as [i|]; [|done].
  destruct Hd as ([_ Hne] & n & Hn & Hs & HP). split; [done|]. exists n. auto.
Qed.

(** Writing to the temporary file leaves the state alone. *)
Lemma holds_set_tmp P i n d :
  entries d !! tmp = Some i → holds P d → holds P (set_inode i n d).
Proof.
  intros Htmp Hd. eapply Forall_impl; [exact Hd|]. intros e. unfold safe_entry. simpl.
  destruct (e !! path) as [j|]; [|done]. intros ([Hne ?] & m & Hm & ? & ?).
  split; [done|]. exists m. rewrite lookup_insert_ne; [done|]. congruence.
Qed.

Lemma holds_create P d :
  entries d !! tmp = None → holds P d →
  let i := fresh (dom (inodes d)) in
  holds P (set_entries (<[tmp := i]> (entries d))
    (set_inode i {| content := []; synced := false |} d)).
Proof.
  intros Htmp Hd i.
  assert (Hold : ∀ e, safe_entry P d e → safe_entry P (set_entries (<[tmp := i]> (entries d))
    (set_inode i {| content := []; synced := false |} d)) e).
  { intros e. unfold safe_entry. simpl. destruct (e !! path) as [j|]; [|done].
    intros ([_ Hne] & m & Hm & ? & ?).
    assert (Hij : i ≠ j).
    { intros <-. apply (is_fresh (dom (inodes d))). by apply elem_of_dom_2 in Hm. }
    rewrite lookup_insert_eq, lookup_insert_ne by done. split; [naive_solver|]. by exists m. }
  inv Hd. constructor; [|constructor].
  - apply Hold in H1. unfold safe_entry in *. cbn [entries set_entries] in *.
    rewrite lookup_insert_ne by done.
    destruct (entries d !! path) as [j|]; [|done]. destruct H1 as [[? _] ?]. split; [|done].
    split; done.
  - by apply Hold.
  - simpl. eapply Forall_impl; [exact H2|]. done.
Qed.

(** The temporary file while it is written: its inode and its bytes. *)
Definition drafting (P : option bytes → Prop) (i : nat) (b : bytes) (sy : bool) (d : Disk) : Prop :=
  holds P d ∧ entries d !! tmp = Some i ∧ inodes d !! i = Some {| content := b; synced := sy |}.

Lemma wp_create P d :
  holds P d → wp (create_file tmp) (fun i d' => drafting P i [] false d') (fun _ => holds P) d.
Proof.
  intros Hd. apply wp_syscall; [done..|]. apply wp_bind, wp_self. simpl.
  destruct (entries d !! tmp) as [i|] eqn:E.
  - apply wp_bind, wp_modify, wp_ret. split_and!; [by apply holds_set_tmp|done|].
    simpl. by rewrite lookup_insert_eq.
  - apply wp_bind, wp_modify, wp_ret. split_and!; [by apply (holds_create P (next_fault d))| |];
      simpl; by rewrite lookup_insert_eq.
Qed.

Lemma wp_set_permissions P i b sy d :
  drafting P i b sy d → wp (set_permissions i) (fun _ => drafting P i b sy) (fun _ => holds P) d.
Proof. intros Hd. by apply wp_syscall; [intros ?; apply Hd|apply Hd|apply wp_ret]. Qed.

Lemma drafting_append P i b sy c d :
  drafting P i b sy d → drafting P i (b ++ c) false (append_bytes i c d).
Proof.
  intros (Hd & He & Hi). unfold append_bytes. rewrite Hi. split_and!; [by apply holds_set_tmp|done|].
  simpl. by rewrite lookup_insert_eq.
Qed.

Lemma wp_write P i b sy c d :
  drafting P i b sy d →
  wp (write_all i c) (fun _ => drafting P i (b ++ c) false) (fun _ => holds P) d.
Proof.
  intros Hd. apply wp_syscall; [|apply Hd|].
  - intros n. eapply (drafting_append P i b sy (take n c) (next_fault d)), Hd.
  - apply wp_modify. by eapply (drafting_append P i b sy c (next_fault d)).
Qed.

Lemma wp_sync_file P i b sy d :
  drafting P i b sy d → wp (sync_file i) (fun _ => drafting P i b true) (fun _ => holds P) d.
Proof.
  intros (Hd & He & Hi). apply wp_syscall; [done..|]. apply wp_modify. simpl. rewrite Hi.
  split_and!; [by apply (holds_set_tmp P i _ (next_fault d))|done|]. simpl. by rewrite lookup_insert_eq.
Qed.

(** The state replaced: the directory has the new bytes, an earlier one may have the
    old ones. *)
Definition replaced (P : option bytes → Prop) (b : bytes) (d : Disk) : Prop :=
  holds (fun c => P c ∨ c = Some b) d ∧ safe_entry (eq (Some b)) d (entries d).

Lemma wp_rename P i b d :
  drafting P i b true d →
  wp (rename tmp path) (fun _ => replaced P b) (fun _ => holds P) d.
Proof.
  intros (Hd & He & Hi). apply wp_syscall; [done..|]. apply wp_bind, wp_self. simpl. rewrite He.
  apply wp_modify. set (d' := set_entries _ _).
  assert (Hnew : safe_entry (eq (Some b)) d' (entries d')).
  { unfold safe_entry, d'. simpl. rewrite lookup_insert_eq.
    rewrite lookup_insert_ne, lookup_delete_eq by done.
    split; [done|]. by exists {| content := b; synced := true |}. }
  assert (Htmp : entries d' !! tmp = None).
  { unfold d'. simpl. rewrite lookup_insert_ne, lookup_delete_eq by done. done. }
  split; [|done]. constructor.
  - unfold safe_entry in *. destruct (entries d' !! path) as [j|]; [|done].
    destruct Hnew as (? & n & ? & ? & ?). split; [done|]. exists n. auto.
  - eapply Forall_impl; [exact Hd|]. intros e. unfold safe_entry.
    destruct (e !! path) as [j|]; [|auto]. intros ([_ ?] & n & ? & ? & ?). rewrite Htmp.
    split; [done|]. exists n. auto.
Qed.

End crash_safety.
