(* ===== verification/StateStore.v ===== *)
(** * Persistent state

    [cluster/state_store.rs] and [cluster/policy_journal.rs]: the cluster state on
    disk, its atomic replacement, the migration of the first schema, the preservation
    of corrupt files, and the journal of policy intents.  The serde codec of the state
    is the library's, with its round trip as the one law; the texts of error messages
    are left out. *)

From S2P Require Import Prelude Bytes Utf8 Operation Disk.

(** ** Data *)

Definition PERSISTENT_STATE_SCHEMA_VERSION : Z := 2.
Definition PERSISTENT_STATE_SCHEMA_VERSION_V1 : Z := 1.

(** src/src/cluster/state_store.rs:15-23 (PersistentMode) *)
Module PersistentMode.
Inductive PersistentMode :=
| SoloStandalone | PairedStandalone | DistributedLayerParallel | DistributedTensorParallel.
End PersistentMode.
Notation PersistentMode := PersistentMode.PersistentMode.

(** src/src/cluster/state_store.rs:25-31 (PersistentProxyTarget) *)
Module PersistentProxyTarget.
Inductive PersistentProxyTarget := LocalStandalone | Coordinator | Unavailable.
End PersistentProxyTarget.
Notation PersistentProxyTarget := PersistentProxyTarget.PersistentProxyTarget.

(** src/src/cluster/state_store.rs:33-43 (PersistentFailureCode) *)
Module PersistentFailureCode.
Inductive PersistentFailureCode :=
| ChildStart | ChildExit | ChildIdentity | DrainTimeout | PeerLost | RouteLost | StateCorrupt.
End PersistentFailureCode.
Notation PersistentFailureCode := PersistentFailureCode.PersistentFailureCode.

(** src/src/cluster/state_store.rs:45-53 (PersistentChild) *)
Record PersistentChild := {
  pc_pid : Z;
  pc_executable : bytes;
  pc_argv_sha256 : bytes;
  pc_spawned_at_millis : Z;
  pc_process_start_micros : Z;
}.

(** src/src/cluster/state_store.rs:70-79 (PersistentOperationPhase) *)
Module PersistentOperationPhase.
Inductive PersistentOperationPhase :=
| IntentSaved | PeerPrepared | Draining | StartingLocal | Applied | Failed.
End PersistentOperationPhase.
Notation PersistentOperationPhase := PersistentOperationPhase.PersistentOperationPhase.

(** src/src/cluster/state_store.rs:55-68 (PersistentPendingOperation) *)
Record PersistentPendingOperation := {
  op_id : Z;
  op_kind : bytes;
  op_phase : PersistentOperationPhase;
  op_desired : OperationPolicy;
  op_peer_ack : bool;
  op_last_failure : option bytes;
}.

(** src/src/cluster/state_store.rs:81-89 (PersistentTpState) *)
Record PersistentTpState := {
  tp_identity : bytes;
  tp_last_session : Z;
  tp_failed_attempts : Z;
  tp_last_failed_session : Z;
}.

(** src/src/cluster/state_store.rs:91-125 (PersistentClusterState) *)
Record PersistentClusterState := {
  ps_tp : option PersistentTpState;
  schema_version : Z;
  ps_generation : Z;
  control_session_generation : Z;
  desired_mode : PersistentMode;
  last_stable_mode : PersistentMode;
  cluster_state : bytes;
  ps_proxy_target : PersistentProxyTarget;
  active_profile : option bytes;
  ps_child : option PersistentChild;
  ps_last_failure : option PersistentFailureCode;
  operator_policy : OperationPolicy;
  applied_policy : OperationPolicy;
  policy_epoch : Z;
  pending_operation : option PersistentPendingOperation;
}.

(** src/src/cluster/state_store.rs:163-179 (StateStoreError) *)
Module StateStoreError.
Inductive StateStoreError :=
| Locked (path : bytes)
| UnsupportedSchema (version : Z)
| InvalidState
| StaleGeneration (attempted current : Z)
| CorruptPreserved (path : bytes)
| Io (e : IoError).
End StateStoreError.
Notation StateStoreError := StateStoreError.StateStoreError.

(** [serde_json::to_vec_pretty] and [from_slice] at this type. *)
Class StateCodec := {
  encode : PersistentClusterState → bytes;
  decode : bytes → option PersistentClusterState;
}.
Class StateCodecLaws `{StateCodec} : Prop := {
  decode_encode : ∀ s, decode (encode s ++ [byte_newline]) = Some s;
}.

Definition is_hexdigit (b : Z) : bool :=
  is_ascii_digit b || between 65 70 b || between 97 102 b.

(** [Path::is_absolute]. *)
Definition is_absolute (p : bytes) : bool := starts_with [47] p.

Section validate.
Open Scope rust_scope.

(** src/src/cluster/state_store.rs:127-161 (PersistentClusterState::validate) *)
Definition validate_state (s : PersistentClusterState) : result unit StateStoreError :=
  if negb (schema_version s =? PERSISTENT_STATE_SCHEMA_VERSION)
  then Err (StateStoreError.UnsupportedSchema (schema_version s))
  else if trim_is_empty (cluster_state s) || is_some_and (active_profile s) trim_is_empty
  then Err StateStoreError.InvalidState
  else match ps_child s with
  | Some child =>
      let? _ := ensure (is_absolute (pc_executable child)) StateStoreError.InvalidState in
      ensure ((length (pc_argv_sha256 child) =? 64)%nat
              && forallb is_hexdigit (pc_argv_sha256 child)) StateStoreError.InvalidState
  | None => Ok tt
  end.

End validate.

(** ** The store *)

(** src/src/cluster/state_store.rs:181-185 (StateStore) *)
Record Store := {
  disk : Disk;
  last_generation : option Z;
}.

Definition set_disk (d : Disk) (s : Store) : Store :=
  {| disk := d; last_generation := last_generation s |}.
Definition set_last_generation (g : Z) (s : Store) : Store :=
  {| disk := disk s; last_generation := Some g |}.

Notation store_method A := (method Store StateStoreError A).

(** A file system call from a method of the store ([?] with [From<io::Error>]). *)
Definition on_disk {A} (m : io A) : store_method A :=
  on_field disk set_disk (map_error StateStoreError.Io m).

(** src/src/cluster/state_store.rs:320-326 (sibling_path) *)
Definition sibling_path (name suffix : bytes) : bytes := str "." ++ name ++ str "." ++ suffix.

Section store.
Context `{StateCodec}.
(** The file name of the state in its directory. *)
Context (path : bytes).

Definition temporary : bytes := sibling_path path (str "tmp").

(** Writing a file durably under a name: the text, a newline, and the sync.
    src/src/cluster/state_store.rs:273-281 (StateStore::save) *)
Definition write_file (name bytes : bytes) : store_method unit :=
  file ← on_disk (create_file name);
  on_disk (set_permissions file);;
  on_disk (write_all file bytes);;
  on_disk (write_all file [byte_newline]);;
  on_disk (sync_file file).

(** [File::open(parent)?.sync_all()?]. *)
Definition sync_parent : store_method unit :=
  on_disk open_directory;; on_disk sync_directory.

(** src/src/cluster/state_store.rs:254-286 (StateStore::save) *)
Definition save (s : PersistentClusterState) : store_method unit :=
  lift (validate_state s);;
  st ← self;
  match last_generation st with
  | Some current =>
      require (current <=? ps_generation s)
        (StateStoreError.StaleGeneration (ps_generation s) current)
  | None => mret tt
  end;;
  write_file temporary (encode s);;
  on_disk (rename temporary path);;
  sync_parent;;
  modify (set_last_generation (ps_generation s)).

(** The fresh UUIDs are arguments.
    src/src/cluster/state_store.rs:288-298 (StateStore::preserve_corrupt) *)
Definition preserve_corrupt {A} (uuid : bytes) : store_method A :=
  let preserved := sibling_path path (str "corrupt-" ++ uuid) in
  on_disk (rename path preserved);;
  sync_parent;;
  fail (StateStoreError.CorruptPreserved preserved).

(** src/src/cluster/state_store.rs:300-317 (StateStore::preserve_v1_backup) *)
Definition preserve_v1_backup (uuid bytes : bytes) : store_method unit :=
  write_file (sibling_path path (str "v1-backup-" ++ uuid)) bytes;;
  sync_parent.

(** The first schema, migrated in memory.
    src/src/cluster/state_store.rs:225-230 (StateStore::load) *)
Definition migrate_v1 (s : PersistentClusterState) : PersistentClusterState :=
  {| ps_tp := ps_tp s; schema_version := PERSISTENT_STATE_SCHEMA_VERSION;
     ps_generation := ps_generation s;
     control_session_generation := control_session_generation s;
     desired_mode := desired_mode s; last_stable_mode := last_stable_mode s;
     cluster_state := cluster_state s; ps_proxy_target := ps_proxy_target s;
     active_profile := active_profile s; ps_child := ps_child s;
     ps_last_failure := ps_last_failure s; operator_policy := OperationPolicy.Automatic;
     applied_policy := OperationPolicy.Automatic; policy_epoch := 0;
     pending_operation := None |}.

(** src/src/cluster/state_store.rs:240-246 (StateStore::load) *)
Definition raise_session (s : PersistentClusterState) : PersistentClusterState :=
  {| ps_tp := ps_tp s; schema_version := schema_version s; ps_generation := ps_generation s;
     control_session_generation := Z.max (control_session_generation s) (ps_generation s);
     desired_mode := desired_mode s; last_stable_mode := last_stable_mode s;
     cluster_state := cluster_state s; ps_proxy_target := ps_proxy_target s;
     active_profile := active_profile s; ps_child := ps_child s;
     ps_last_failure := ps_last_failure s; operator_policy := operator_policy s;
     applied_policy := applied_policy s; policy_epoch := policy_epoch s;
     pending_operation := pending_operation s |}.

(** src/src/cluster/state_store.rs:237-251 (StateStore::load) *)
Definition finish_load (uuid : bytes) (s : PersistentClusterState)
    : store_method (option PersistentClusterState) :=
  match validate_state s with
  | Err _ => preserve_corrupt uuid
  | Ok _ =>
      let s := raise_session s in
      modify (set_last_generation (ps_generation s));;
      mret (Some s)
  end.

(** src/src/cluster/state_store.rs:212-252 (StateStore::load) *)
Definition load (uuid uuid2 : bytes) : store_method (option PersistentClusterState) :=
  read ← attempt (on_disk (read_file path));
  match read with
  | Err (StateStoreError.Io IoError.NotFound) => mret None
  | Err e => fail e
  | Ok bytes =>
      match decode bytes with
      | None => preserve_corrupt uuid
      | Some s =>
          if schema_version s =? PERSISTENT_STATE_SCHEMA_VERSION_V1 then
            let s := migrate_v1 s in
            match validate_state s with
            | Err _ => preserve_corrupt uuid
            | Ok _ =>
                preserve_v1_backup uuid2 bytes;;
                save s;;
                finish_load uuid s
            end
          else finish_load uuid s
      end
  end.

(** [lock_free]: whether nobody else holds the lock.
    src/src/cluster/state_store.rs:187-210 (StateStore::acquire) *)
Definition acquire (lock_free : bool) (d : Disk) : result Store StateStoreError * Disk :=
  let lock_path := sibling_path path (str "lock") in
  match (create_dir_all;;
         lock ← open_or_create lock_path;
         set_permissions lock;;
         flock lock_free) d with
  | (Err e, d) => (Err (StateStoreError.Io e), d)
  | (Ok true, d) => (Ok {| disk := d; last_generation := None |}, d)
  | (Ok false, d) => (Err (StateStoreError.Locked lock_path), d)
  end.

End store.

(** ** The policy journal *)

Definition OPERATION_KIND_FORCE_STANDALONE : bytes := str "force-standalone".
Definition OPERATION_KIND_AUTOMATIC : bytes := str "automatic".

(** src/src/cluster/policy_journal.rs:21-28 (PolicyJournalView) *)
Record PolicyJournalView := {
  view_operator_policy : OperationPolicy;
  view_applied_policy : OperationPolicy;
  view_policy_epoch : Z;
  view_pending_operation : option PersistentPendingOperation;
}.

(** src/src/cluster/policy_journal.rs:145-173 (unwrap_or_default_for_save) *)
Definition default_for_save : PersistentClusterState :=
  {| ps_tp := None; schema_version := PERSISTENT_STATE_SCHEMA_VERSION; ps_generation := 0;
     control_session_generation := 0; desired_mode := PersistentMode.SoloStandalone;
     last_stable_mode := PersistentMode.SoloStandalone; cluster_state := str "booting";
     ps_proxy_target := PersistentProxyTarget.Unavailable; active_profile := None;
     ps_child := None; ps_last_failure := None; operator_policy := OperationPolicy.Automatic;
     applied_policy := OperationPolicy.Automatic; policy_epoch := 0;
     pending_operation := None |}.

(** The policy fields of a state. *)
Definition with_policy (operator applied : OperationPolicy) (epoch : Z)
    (pending : option PersistentPendingOperation) (s : PersistentClusterState)
    : PersistentClusterState :=
  {| ps_tp := ps_tp s; schema_version := schema_version s; ps_generation := ps_generation s;
     control_session_generation := control_session_generation s;
     desired_mode := desired_mode s; last_stable_mode := last_stable_mode s;
     cluster_state := cluster_state s; ps_proxy_target := ps_proxy_target s;
     active_profile := active_profile s; ps_child := ps_child s;
     ps_last_failure := ps_last_failure s; operator_policy := operator;
     applied_policy := applied; policy_epoch := epoch; pending_operation := pending |}.

(** A pending operation that has been applied. *)
Definition applied_operation (p : PersistentPendingOperation) : PersistentPendingOperation :=
  {| op_id := op_id p; op_kind := op_kind p; op_phase := PersistentOperationPhase.Applied;
     op_desired := op_desired p; op_peer_ack := true; op_last_failure := op_last_failure p |}.

Definition intent (id : Z) (kind : bytes) (policy : OperationPolicy)
    : PersistentPendingOperation :=
  {| op_id := id; op_kind := kind; op_phase := PersistentOperationPhase.IntentSaved;
     op_desired := policy; op_peer_ack := false; op_last_failure := None |}.

Section journal.
Context `{StateCodec} (path : bytes).

(** What every journal write does: load, change, save.  [uuids] are those a load may
    use for the names of preserved files. *)
Definition update (uuids : bytes * bytes)
    (f : PersistentClusterState → PersistentClusterState) : store_method PersistentClusterState :=
  loaded ← load path (fst uuids) (snd uuids);
  let s := f (default default_for_save loaded) in
  save path s;;
  mret s.

(** src/src/cluster/policy_journal.rs:40-52 (PolicyJournal::load) *)
Definition journal_load (uuids : bytes * bytes) : store_method PolicyJournalView :=
  loaded ← load path (fst uuids) (snd uuids);
  mret {|
    view_operator_policy := default OperationPolicy.Automatic (operator_policy <$> loaded);
    view_applied_policy := default OperationPolicy.Automatic (applied_policy <$> loaded);
    view_policy_epoch := default 0 (policy_epoch <$> loaded);
    view_pending_operation := loaded ≫= pending_operation |}.

(** src/src/cluster/policy_journal.rs:54-77 (PolicyJournal::persist_force_intent) *)
Definition persist_force_intent (uuids : bytes * bytes) (epoch operation_id : Z)
    : store_method PersistentClusterState :=
  update uuids (fun s => with_policy OperationPolicy.ForcedStandalone (applied_policy s) epoch
    (Some (intent operation_id OPERATION_KIND_FORCE_STANDALONE
             OperationPolicy.ForcedStandalone)) s).

(** src/src/cluster/policy_journal.rs:79-95 (PolicyJournal::record_force_applied) *)
Definition record_force_applied (uuids : bytes * bytes) (epoch : Z)
    : store_method PersistentClusterState :=
  update uuids (fun s => with_policy (operator_policy s) OperationPolicy.ForcedStandalone epoch
    (applied_operation <$> pending_operation s) s).

(** src/src/cluster/policy_journal.rs:97-112 (PolicyJournal::record_automatic_applied) *)
Definition record_automatic_applied (uuids : bytes * bytes) (epoch : Z)
    : store_method PersistentClusterState :=
  update uuids (fun s => with_policy (operator_policy s) OperationPolicy.Automatic epoch
    (applied_operation <$> pending_operation s) s).

(** src/src/cluster/policy_journal.rs:114-133 (PolicyJournal::persist_automatic_intent) *)
Definition persist_automatic_intent (uuids : bytes * bytes) (epoch operation_id : Z)
    : store_method PersistentClusterState :=
  update uuids (fun s => with_policy OperationPolicy.Automatic (applied_policy s) epoch
    (Some (intent operation_id OPERATION_KIND_AUTOMATIC OperationPolicy.Automatic)) s).

(** src/src/cluster/policy_journal.rs:135-142 (PolicyJournal::restored_safety_latch) *)
Definition restored_safety_latch (uuids : bytes * bytes)
    : store_method (option PersistentPendingOperation) :=
  v ← journal_load uuids;
  mret (view_pending_operation v).

End journal.

(** ** What a crash can leave of the state *)

Lemma wp_on_disk {A} (m : io A) (Q : A → Store → Prop) X s :
  wp m (fun a d => Q a (set_disk d s)) (fun e d => X (StateStoreError.Io e) (set_disk d s)) (disk s) →
  wp (on_disk m) Q X s.
Proof. intros Hm. apply wp_on_field, wp_map_error, Hm. Qed.

Lemma tmp_not_path path : temporary path ≠ path.
Proof.
  unfold temporary, sibling_path. intros Heq%(f_equal length).
  rewrite !length_app in Heq. simpl in Heq. lia.
Qed.

Lemma wp_sync_parent path tmp P b st :
  replaced path tmp P b (disk st) →
  wp sync_parent
    (fun _ st' => holds path tmp (eq (Some b)) (disk st') ∧ last_generation st' = last_generation st)
    (fun _ st' => holds path tmp (fun c => P c ∨ c = Some b) (disk st')
                  ∧ last_generation st' = last_generation st) st.
Proof.
  intros [Hd He]. unfold sync_parent. apply wp_bind, wp_on_disk, wp_syscall; [done..|].
  apply wp_ret, wp_on_disk, wp_syscall; [done..|]. apply wp_modify. by repeat constructor.
Qed.


(** ** Saving replaces the state atomically *)

Section atomicity.
Context `{StateCodec} (path : bytes).
Notation holds := (Disk.holds path (temporary path)).
Notation not_path := (tmp_not_path path).

(** The text a state is stored as. *)
Definition stored_text (s : PersistentClusterState) : bytes := encode s ++ [byte_newline].

Lemma wp_write_file P b st :
  holds P (disk st) →
  wp (write_file (temporary path) b)
    (fun _ st' => (∃ i, drafting path (temporary path) P i (b ++ [byte_newline]) true (disk st'))
                  ∧ last_generation st' = last_generation st)
    (fun _ st' => holds P (disk st') ∧ last_generation st' = last_generation st) st.
Proof.
  intros Hd. unfold write_file.
  apply wp_bind, wp_on_disk. wp_use (wp_create path (temporary path) not_path P); [done| |done].
  intros i d1 H1. apply wp_bind, wp_on_disk.
  wp_use (wp_set_permissions path (temporary path)); [exact H1| |done].
  intros _ d2 H2. apply wp_bind, wp_on_disk.
  wp_use (wp_write path (temporary path)); [exact H2| |done].
  intros _ d3 H3. apply wp_bind, wp_on_disk.
  wp_use (wp_write path (temporary path)); [exact H3| |done].
  intros _ d4 H4. apply wp_on_disk.
  wp_use (wp_sync_file path (temporary path)); [exact H4| |done].
  intros _ d5 H5. split; [|done]. exists i. exact H5.
Qed.

Definition saved (s : PersistentClusterState) (st st' : Store) : Prop :=
  holds (eq (Some (stored_text s))) (disk st') ∧ last_generation st' = Some (ps_generation s)
  ∧ validate_state s = Ok tt ∧ ∀ g, last_generation st = Some g → g ≤ ps_generation s.
Definition maybe_saved (P : option bytes → Prop) (s : PersistentClusterState) (st st' : Store)
    : Prop :=
  holds (fun c => P c ∨ c = Some (stored_text s)) (disk st')
  ∧ last_generation st' = last_generation st.

Lemma wp_save P s st :
  holds P (disk st) →
  wp (save path s) (fun _ => saved s st) (fun _ => maybe_saved P s st) st.
Proof.
  intros Hd. assert (Hold : ∀ st', holds P (disk st') → last_generation st' = last_generation st →
    maybe_saved P s st st').
  { intros st' Hd' Hg. split; [|done]. eapply holds_mono; [|exact Hd']. auto. }
  unfold save. apply wp_bind, wp_lift. destruct (validate_state s) as [[]|] eqn:Hv; [|by apply Hold].
  apply wp_bind, wp_self, wp_bind.
  assert (Hrest : (∀ g, last_generation st = Some g → g ≤ ps_generation s) →
    wp (write_file (temporary path) (encode s);;
        on_disk (rename (temporary path) path);; sync_parent;;
        modify (set_last_generation (ps_generation s)))
      (fun _ => saved s st) (fun _ => maybe_saved P s st) st).
  { intros Hg. apply wp_bind. wp_use (wp_write_file P); [done| |naive_solver].
    intros _ st1 [[i H1] Hg1]. apply wp_bind, wp_on_disk.
    wp_use (wp_rename path (temporary path) not_path); [exact H1| |intros e d2 H2; by apply Hold].
    intros _ d2 H2. apply wp_bind.
    wp_use (wp_sync_parent path (temporary path) P (stored_text s) (set_disk d2 st1)); [exact H2| |].
    - intros _ st3 [H3 _]. apply wp_modify. by split_and!.
    - intros _ st3 [H3 Hg3]. split; [done|]. by rewrite Hg3. }
  destruct (last_generation st) as [g|] eqn:Hg.
  - apply wp_require; intros Hle; bool_to_prop; [|by apply Hold].
    apply Hrest. intros ? [= <-]. done.
  - apply wp_ret, Hrest. done.
Qed.

(** The state a file stands for. *)
Definition represents (o : option PersistentClusterState) (c : option bytes) : Prop :=
  match o with
  | None => c = None
  | Some s => validate_state s = Ok tt ∧ ∃ b, c = Some b ∧ decode b = Some s
  end.

(** The store durably holds the state [o]; it holds one of the states of [Q], whichever
    version of the directory a crash brings back. *)
Definition stored (o : option PersistentClusterState) (st : Store) : Prop :=
  holds (represents o) (disk st).
Definition records (Q : option PersistentClusterState → Prop) (st : Store) : Prop :=
  holds (fun c => ∃ o, Q o ∧ represents o c) (disk st).

Lemma records_mono (Q Q' : option PersistentClusterState → Prop) st :
  (∀ o, Q o → Q' o) → records Q st → records Q' st.
Proof. intros HQ. apply holds_mono. intros c (o & ? & ?). eauto. Qed.

Lemma stored_records (Q : option PersistentClusterState → Prop) o st :
  Q o → stored o st → records Q st.
Proof. intros HQ. apply holds_mono. eauto. Qed.

Lemma represents_new `{!StateCodecLaws} s c :
  validate_state s = Ok tt → Some (stored_text s) = c → represents (Some s) c.
Proof. intros Hv <-. split; [done|]. eexists. split; [done|]. apply decode_encode. Qed.

Lemma validate_schema s : validate_state s = Ok tt → schema_version s = 2.
Proof. unfold validate_state. case_match; [done|]. by bool_to_prop. Qed.

Lemma validate_raise_session s : validate_state (raise_session s) = validate_state s.
Proof. done. Qed.

Lemma wp_read Q st :
  records Q st →
  wp (attempt (F := StateStoreError) (on_disk (read_file path)))
    (fun r st' => records Q st'
      ∧ match r with
        | Ok b => ∃ o, Q o ∧ represents o (Some b)
        | Err (StateStoreError.Io IoError.NotFound) => Q None
        | Err _ => True
        end)
    (fun _ _ => False) st.
Proof.
  intros Hst. apply wp_attempt, wp_on_disk, wp_syscall; [done..|]. apply wp_bind, wp_self.
  pose proof (holds_reads path _ _ _ Hst) as Hr. unfold file_content in Hr. simpl in *.
  destruct (entries (disk st) !! path ≫= _) as [n|]; simpl in Hr.
  - apply wp_ret. done.
  - apply wp_fail. split_and!; [done..|]. destruct Hr as ([s|] & HQ & Hr); [|done].
    by destruct Hr as (_ & b & ? & _).
Qed.

Lemma wp_load Q u1 u2 st :
  records Q st →
  wp (load path u1 u2) (fun r st' => records Q st' ∧ ∃ o, Q o ∧ r = raise_session <$> o)
    (fun _ st' => records Q st') st.
Proof.
  intros Hst. unfold load. apply wp_bind. wp_use (wp_read Q); [exact Hst| |done].
  intros r st1 (H1 & Hr). destruct r as [b|e].
  - destruct Hr as ([s|] & HQ & Hr); [|done]. destruct Hr as (Hv & b' & [= <-] & ->).
    rewrite (validate_schema s Hv). simpl. unfold finish_load. rewrite Hv.
    apply wp_bind, wp_modify, wp_ret. split; [done|]. by exists (Some s).
  - destruct e as [| | | | |[]]; try by apply wp_fail. apply wp_ret. split; [done|]. by exists None.
Qed.

Lemma wp_save_stored `{!StateCodecLaws} Q s st :
  records Q st →
  wp (save path s)
    (fun _ st' => stored (Some s) st') (fun _ st' => records (fun o => Q o ∨ o = Some s) st') st.
Proof.
  intros Hst. destruct (validate_state s) as [[]|] eqn:Hv.
  - wp_use (wp_save (fun c => ∃ o, Q o ∧ represents o c)); [exact Hst| |].
    + intros _ st' (H1 & H2 & _ & H3).
      eapply holds_mono; [|exact H1]. intros c. by apply represents_new.
    + intros e st' [H1 H2]. eapply holds_mono; [|exact H1].
      intros c [(o & ? & ?)| ->]; [by eauto|]. exists (Some s). split; [by right|].
      by apply represents_new.
  - unfold save. apply wp_bind, wp_lift. rewrite Hv. eapply records_mono; [|exact Hst]. auto.
Qed.

(** The state of an update, from what is stored. *)
Definition updated (f : PersistentClusterState → PersistentClusterState)
    (o : option PersistentClusterState) : PersistentClusterState :=
  f (default default_for_save (raise_session <$> o)).

Lemma wp_update `{!StateCodecLaws} Q uuids f st :
  records Q st →
  wp (update path uuids f)
    (fun s st' => (∃ o, Q o ∧ s = updated f o) ∧ stored (Some s) st')
    (fun _ st' => records (fun o' => Q o' ∨ ∃ o, Q o ∧ o' = Some (updated f o)) st') st.
Proof.
  intros Hst. unfold update. apply wp_bind. wp_use (wp_load Q); [exact Hst| |].
  2: { intros e st'. apply records_mono. auto. }
  intros r st1 (H1 & o & HQ & ->). apply wp_bind. wp_use (wp_save_stored Q); [exact H1| |].
  - intros _ st2 H2. apply wp_ret. split; [by exists o|done].
  - intros e st2. apply records_mono. intros o' [?| ->]; eauto.
Qed.

End atomicity.

(** ** Across crashes *)

Section durability.
Context `{StateCodec, !StateCodecLaws} (path : bytes).

(** A process that starts on a disk, with its calls to succeed. *)
Definition reboot (d : Disk) : Store :=
  {| disk := {| entries := entries d; unsynced := unsynced d; inodes := inodes d; script := [] |};
     last_generation := None |}.

Lemma read_after_reboot d :
  on_disk (read_file path) (reboot d) =
  (match file_content path d with
   | Some b => Ok b
   | None => Err (StateStoreError.Io IoError.NotFound)
   end, reboot d).
Proof.
  unfold on_disk, on_field, map_error, read_file, syscall, file_content, reboot.
  unfold_method. simpl. destruct (entries d !! path) as [i|]; simpl; [|done].
  by destruct (inodes d !! i).
Qed.

Lemma load_after_reboot o d u1 u2 :
  represents o (file_content path d) →
  fst (load path u1 u2 (reboot d)) = Ok (raise_session <$> o).
Proof.
  intros Hr. unfold load, attempt, mbind at 1, method_bind. rewrite read_after_reboot.
  destruct o as [s|]; simpl in Hr; [|by rewrite Hr].
  destruct Hr as (Hv & b & -> & ->). rewrite (validate_schema s Hv). simpl.
  unfold finish_load. by rewrite Hv.
Qed.

(** C12: saving the cluster state replaces it atomically and durably: whichever file
    system call fails and at whatever point the machine stops, the process that
    starts next loads the old state or the new one, unharmed, and the new one if
    the save had returned. *)
Theorem save_is_atomic o s st d' u1 u2 :
  stored path o st →
  let '(r, st') := save path s st in
  crash (disk st') d' →
  let next := fst (load path u1 u2 (reboot d')) in
  match r with
  | Ok _ => next = Ok (Some (raise_session s))
  | Err _ => next = Ok (raise_session <$> o) ∨ next = Ok (Some (raise_session s))
  end.
Proof.
  intros Hst%(stored_records path (eq o)); [|done].
  pose proof (wp_save_stored path _ s st Hst) as Hwp. unfold wp in Hwp.
  destruct (save path s st) as [[[]|e] st']; intros Hcrash.
  - apply (load_after_reboot (Some s)). exact (crash_holds path _ _ _ _ Hwp Hcrash).
  - destruct (crash_holds path _ _ _ _ Hwp Hcrash) as (o' & Ho & Hc).
    apply (load_after_reboot _ _ u1 u2) in Hc.
    destruct Ho as [<-| ->]; [by left|by right].
Qed.

(** The state with the intent to force standalone operation. *)
Definition force_intended (epoch id : Z) (s : PersistentClusterState) : Prop :=
  operator_policy s = OperationPolicy.ForcedStandalone ∧ policy_epoch s = epoch
  ∧ pending_operation s = Some (intent id OPERATION_KIND_FORCE_STANDALONE
                                  OperationPolicy.ForcedStandalone).

(** Once the intent to force standalone operation is recorded, no crash loses
    it: the process that starts next finds the forced policy, its epoch and the
    pending operation; when recording it fails or is cut short, the next process
    finds either that or the state as it was. *)
Lemma force_intent_survives o uuids epoch id st d' u1 u2 :
  stored path o st →
  let '(r, st') := persist_force_intent path uuids epoch id st in
  crash (disk st') d' →
  let next := fst (load path u1 u2 (reboot d')) in
  let intended := ∃ s, next = Ok (Some s) ∧ force_intended epoch id s in
  match r with
  | Ok _ => intended
  | Err _ => next = Ok (raise_session <$> o) ∨ intended
  end.
Proof.
  intros Hst. unfold persist_force_intent. set (f := fun s => with_policy _ _ _ _ s).
  apply (stored_records path (eq o)) in Hst; [|done].
  pose proof (wp_update path _ uuids f st Hst) as Hwp. unfold wp in Hwp.
  assert (Hnext : ∀ d, represents (Some (updated f o)) (file_content path d) →
    ∃ s, fst (load path u1 u2 (reboot d)) = Ok (Some s) ∧ force_intended epoch id s).
  { intros d Hd. exists (raise_session (updated f o)).
    split; [by apply (load_after_reboot (Some _))|done]. }
  destruct (update path uuids f st) as [[s|e] st']; intros Hcrash.
  - destruct Hwp as [(o' & <- & ->) H1]. apply Hnext, (crash_holds path _ _ _ _ H1 Hcrash).
  - destruct (crash_holds path _ _ _ _ Hwp Hcrash) as (o' & [<-|(o'' & <- & ->)] & Hc);
      [left|right; by apply Hnext]. by apply (load_after_reboot o).
Qed.


End durability.

(** ** What a loaded state is *)

Lemma wp_true {S E A} (m : method S E A) s : wp m (fun _ _ => True) (fun _ _ => True) s.
Proof. unfold wp. by destruct (m s) as [[]]. Qed.

Section well_formed.
Context `{StateCodec} (path : bytes).

Definition well_formed_state (s : PersistentClusterState) : Prop :=
  validate_state s = Ok tt ∧ ps_generation s ≤ control_session_generation s.

Definition loaded_well (r : option PersistentClusterState) (st' : Store) : Prop :=
  ∀ s, r = Some s → well_formed_state s ∧ last_generation st' = Some (ps_generation s).

Lemma wp_preserve_corrupt uuid (Q : option PersistentClusterState → Store → Prop) st :
  wp (preserve_corrupt path uuid) Q (fun _ _ => True) st.
Proof.
  unfold preserve_corrupt. apply wp_bind. wp_use @wp_true; [intros _ st1 _|done].
  apply wp_bind. wp_use @wp_true; [intros _ st2 _; by apply wp_fail|done].
Qed.

Lemma wp_finish_load uuid s st :
  wp (finish_load path uuid s) loaded_well (fun _ _ => True) st.
Proof.
  unfold finish_load. destruct (validate_state s) as [[]|] eqn:Hv; [|apply wp_preserve_corrupt].
  apply wp_bind, wp_modify, wp_ret. intros ? [= <-]. split; [|done].
  split; [exact Hv|]. simpl. lia.
Qed.

(** C38: whatever the disk holds and whichever calls fail, a state that is loaded is
    well formed: of the current schema, its fields valid, its control session not
    below its generation; and the store then refuses any state of a lower
    generation. *)
Theorem loaded_state_well_formed u1 u2 st s st' :
  load path u1 u2 st = (Ok (Some s), st') →
  well_formed_state s ∧ last_generation st' = Some (ps_generation s)
  ∧ ∀ s', validate_state s' = Ok tt → ps_generation s' < ps_generation s →
      save path s' st'
      = (Err (StateStoreError.StaleGeneration (ps_generation s') (ps_generation s)), st').
Proof.
  intros Hload.
  assert (Hwp : wp (load path u1 u2) loaded_well (fun _ _ => True) st).
  { unfold load. apply wp_bind. wp_use @wp_true; [intros r st1 _|done]. destruct r as [b|e].
    - destruct (decode b) as [s0|]; [|apply wp_preserve_corrupt].
      destruct (_ =? _); [|apply wp_finish_load].
      destruct (validate_state (migrate_v1 s0)); [|apply wp_preserve_corrupt].
      apply wp_bind. wp_use @wp_true; [intros _ st2 _|done].
      apply wp_bind. wp_use @wp_true; [intros _ st3 _; apply wp_finish_load|done].
    - destruct e as [| | | | |[]]; by apply wp_fail || apply wp_ret. }
  unfold wp in Hwp. rewrite Hload in Hwp. destruct (Hwp s eq_refl) as [Hw Hg].
  split_and!; [done|done|]. intros s' Hv Hlt. unfold save. unfold_method. rewrite Hv. simpl.
  rewrite Hg, (proj2 (Z.leb_gt _ _)) by done. done.
Qed.

End well_formed.

(** ** A codec, and a disk that fails *)

Module DemoStore.

#[export] Instance mode_eq : EqDecision PersistentMode.
Proof. solve_decision. Defined.
#[export] Instance mode_finite : Finite PersistentMode.
Proof.
  refine {| enum := [PersistentMode.SoloStandalone; PersistentMode.PairedStandalone;
    PersistentMode.DistributedLayerParallel; PersistentMode.DistributedTensorParallel] |}.
  - by apply (bool_decide_unpack _); vm_compute.
  - intros []; by apply (bool_decide_unpack _); vm_compute.
Defined.
#[export] Instance target_eq : EqDecision PersistentProxyTarget.
Proof. solve_decision. Defined.
#[export] Instance target_finite : Finite PersistentProxyTarget.
Proof.
  refine {| enum := [PersistentProxyTarget.LocalStandalone; PersistentProxyTarget.Coordinator;
    PersistentProxyTarget.Unavailable] |}.
  - by apply (bool_decide_unpack _); vm_compute.
  - intros []; by apply (bool_decide_unpack _); vm_compute.
Defined.
#[export] Instance failure_eq : EqDecision PersistentFailureCode.
Proof. solve_decision. Defined.
#[export] Instance failure_finite : Finite PersistentFailureCode.
Proof.
  refine {| enum := [PersistentFailureCode.ChildStart; PersistentFailureCode.ChildExit;
    PersistentFailureCode.ChildIdentity; PersistentFailureCode.DrainTimeout;
    PersistentFailureCode.PeerLost; PersistentFailureCode.RouteLost;
    PersistentFailureCode.StateCorrupt] |}.
  - by apply (bool_decide_unpack _); vm_compute.
  - intros []; by apply (bool_decide_unpack _); vm_compute.
Defined.
#[export] Instance phase_eq : EqDecision PersistentOperationPhase.
Proof. solve_decision. Defined.
#[export] Instance phase_finite : Finite PersistentOperationPhase.
Proof.
  refine {| enum := [PersistentOperationPhase.IntentSaved; PersistentOperationPhase.PeerPrepared;
    PersistentOperationPhase.Draining; PersistentOperationPhase.StartingLocal;
    PersistentOperationPhase.Applied; PersistentOperationPhase.Failed] |}.
  - by apply (bool_decide_unpack _); vm_compute.
  - intros []; by apply (bool_decide_unpack _); vm_compute.
Defined.
#[export] Instance policy_eq : EqDecision OperationPolicy.
Proof. solve_decision. Defined.
#[export] Instance policy_finite : Finite OperationPolicy.
Proof.
  refine {| enum := [OperationPolicy.Automatic; OperationPolicy.ForcedStandalone] |}.
  - by apply (bool_decide_unpack _); vm_compute.
  - intros []; by apply (bool_decide_unpack _); vm_compute.
Defined.
#[export] Instance child_eq : EqDecision PersistentChild.
Proof. solve_decision. Defined.
#[export] Instance child_countable : Countable PersistentChild.
Proof.
  refine (inj_countable' (fun c => (pc_pid c, pc_executable c, pc_argv_sha256 c,
      pc_spawned_at_millis c, pc_process_start_micros c))
    (fun '(a, b, c, d, e) => {| pc_pid := a; pc_executable := b; pc_argv_sha256 := c;
      pc_spawned_at_millis := d; pc_process_start_micros := e |}) _).
  by intros [].
Defined.
#[export] Instance pending_eq : EqDecision PersistentPendingOperation.
Proof. solve_decision. Defined.
#[export] Instance pending_countable : Countable PersistentPendingOperation.
Proof.
  refine (inj_countable' (fun p => (op_id p, op_kind p, op_phase p, op_desired p, op_peer_ack p,
      op_last_failure p))
    (fun '(a, b, c, d, e, f) => {| op_id := a; op_kind := b; op_phase := c; op_desired := d;
      op_peer_ack := e; op_last_failure := f |}) _).
  by intros [].
Defined.
#[export] Instance tp_eq : EqDecision PersistentTpState.
Proof. solve_decision. Defined.
#[export] Instance tp_countable : Countable PersistentTpState.
Proof.
  refine (inj_countable' (fun t => (tp_identity t, tp_last_session t, tp_failed_attempts t,
      tp_last_failed_session t))
    (fun '(a, b, c, d) => {| tp_identity := a; tp_last_session := b; tp_failed_attempts := c;
      tp_last_failed_session := d |}) _).
  by intros [].
Defined.
#[export] Instance state_eq : EqDecision PersistentClusterState.
Proof. solve_decision. Defined.
#[export] Instance state_countable : Countable PersistentClusterState.
Proof.
  refine (inj_countable' (fun s => (ps_tp s, schema_version s, ps_generation s,
      control_session_generation s, desired_mode s, last_stable_mode s, cluster_state s,
      (ps_proxy_target s, active_profile s, ps_child s, ps_last_failure s, operator_policy s,
       applied_policy s, policy_epoch s, pending_operation s)))
    (fun '(a, b, c, d, e, f, g, (h, i, j, k, l, m, n, o)) =>
      {| ps_tp := a; schema_version := b; ps_generation := c; control_session_generation := d;
         desired_mode := e; last_stable_mode := f; cluster_state := g; ps_proxy_target := h;
         active_profile := i; ps_child := j; ps_last_failure := k; operator_policy := l;
         applied_policy := m; policy_epoch := n; pending_operation := o |}) _).
  by intros [].
Defined.

(** A state is stored as its number. *)
#[export] Instance codec : StateCodec := {|
  encode s := [Zpos (countable.encode s)];
  decode b := match b with
    | [Zpos n; nl] => if nl =? byte_newline then countable.decode n else None
    | _ => None
    end |}.
#[export] Instance codec_laws : StateCodecLaws.
Proof. constructor. intros s. simpl. apply countable.decode_encode. Qed.

Definition path : bytes := str "cluster-state.json".

(** A directory with a state of generation [g] in it. *)
Definition state (g : Z) : PersistentClusterState :=
  {| ps_tp := None; schema_version := 2; ps_generation := g; control_session_generation := g;
     desired_mode := PersistentMode.SoloStandalone;
     last_stable_mode := PersistentMode.SoloStandalone; cluster_state := str "solo";
     ps_proxy_target := PersistentProxyTarget.LocalStandalone; active_profile := None;
     ps_child := None; ps_last_failure := None; operator_policy := OperationPolicy.Automatic;
     applied_policy := OperationPolicy.Automatic; policy_epoch := 0; pending_operation := None |}.

Definition store (faults : list Fault) : Store :=
  {| disk := {| entries := {[path := 0%nat]}; unsynced := [];
                inodes := {[0%nat := {| content := stored_text (state 5); synced := true |}]};
                script := faults |};
     last_generation := Some 5 |}.

Lemma store_stored faults : stored path (Some (state 5)) (store faults).
Proof.
  constructor; [|constructor]. unfold safe_entry. cbn [store disk entries inodes].
  rewrite lookup_singleton_eq. split; [by vm_compute|]. eexists. rewrite lookup_singleton_eq.
  split; [done|]. split; [done|]. by apply represents_new; [vm_compute|].
Qed.

End DemoStore.

Section store_witnesses.
Import DemoStore.

(** Three calls succeed and the machine stops in the middle of the fourth. *)
Definition cut_short : list Fault := [Succeeds; Succeeds; Succeeds; Stops].

Lemma save_is_atomic_witness :
  fst (save path (state 6) (store cut_short)) = Err (StateStoreError.Io IoError.Stopped)
  ∧ ∀ d', crash (disk (snd (save path (state 6) (store cut_short)))) d' →
      let next := fst (load path [] [] (reboot d')) in
      next = Ok (Some (state 5)) ∨ next = Ok (Some (state 6)).
Proof.
  split; [by vm_compute|]. intros d' Hcrash.
  pose proof (save_is_atomic path (Some (state 5)) (state 6) (store cut_short) d' [] []
    (store_stored cut_short)) as Hs.
  assert (Hr : fst (save path (state 6) (store cut_short)) = Err (StateStoreError.Io IoError.Stopped))
    by by vm_compute.
  destruct (save path (state 6) (store cut_short)) as [r st']. simpl in *. subst r.
  exact (Hs Hcrash).
Defined.

Lemma force_intent_survives_witness :
  ∃ s st', persist_force_intent path ([], []) 9 1 (store []) = (Ok s, st')
    ∧ ∀ d', crash (disk st') d' →
        ∃ s, fst (load path [] [] (reboot d')) = Ok (Some s) ∧ force_intended 9 1 s.
Proof.
  destruct (persist_force_intent path ([], []) 9 1 (store [])) as [r st'] eqn:Hp.
  assert (Hr : is_ok (fst (persist_force_intent path ([], []) 9 1 (store []))) = true)
    by by vm_compute.
  rewrite Hp in Hr. destruct r as [s|]; [|done]. exists s, st'. split; [done|]. intros d' Hcrash.
  pose proof (force_intent_survives path (Some (state 5)) ([], []) 9 1 (store []) d' [] []
    (store_stored [])) as Hs. rewrite Hp in Hs. exact (Hs Hcrash).
Defined.


Lemma loaded_state_well_formed_witness :
  ∃ st', load path [] [] (store []) = (Ok (Some (state 5)), st') ∧ last_generation st' = Some 5.
Proof.
  destruct (load path [] [] (store [])) as [r st'] eqn:Hl.
  assert (Hr : fst (load path [] [] (store [])) = Ok (Some (state 5))) by by vm_compute.
  rewrite Hl in Hr. simpl in Hr. subst r. exists st'. split; [done|].
  exact (proj1 (proj2 (loaded_state_well_formed path [] [] (store []) (state 5) st' Hl))).
Defined.

(** The refusal of lower generations has a gap: when the directory cannot be opened
    for its sync, generation 7 is on disk but not recorded, and generation 6 replaces
    it. *)
Example failed_sync_lowers_generation :
  let faults := [Succeeds; Succeeds; Succeeds; Succeeds; Succeeds; Succeeds; Fails 0] in
  let '(r1, st1) := save path (state 7) (store faults) in
  let '(r2, st2) := save path (state 6) st1 in
  r1 = Err (StateStoreError.Io IoError.Failed)
  ∧ file_content path (disk st1) = Some (stored_text (state 7))
  ∧ r2 = Ok tt ∧ file_content path (disk st2) = Some (stored_text (state 6)).
Proof. by vm_compute. Qed.

End store_witnesses.
