(* ===== verification/Restart.v ===== *)
(** * Restart: [src/src/cluster/restart.rs]

    What a node does with the child that its previous run recorded before it starts
    its own: the recorded process is stopped through the process controller, with its
    identity checked before every signal, and a standalone child is only started when
    that process is gone and its port is free.  The loops of the controller have fuel;
    [None] is fuel exhausted, which [restart_decides] excludes. *)

From S2P Require Import Prelude Bytes Auth Process StateStore.

(** src/src/cluster/restart.rs:16-22 (RestartManualReason) *)
Module RestartManualReason.
Inductive RestartManualReason :=
| PersistedChildIdentityMismatch
| PersistedChildStopFailed
| RequiredPortOccupied
| RequiredAddressUnavailable.
End RestartManualReason.
Notation RestartManualReason := RestartManualReason.RestartManualReason.

(** src/src/cluster/restart.rs:5-14 (RestartDecision) *)
Module RestartDecision.
Inductive RestartDecision :=
| StartSolo (baseline_generation : Z)
| ManualIntervention (baseline_generation : Z) (reason : RestartManualReason).
End RestartDecision.
Notation RestartDecision := RestartDecision.RestartDecision.

(** src/src/cluster/restart.rs:24-30 (RestartReconcileError) *)
Module RestartReconcileError.
Inductive RestartReconcileError := InvalidChildHash | Io.
End RestartReconcileError.
Notation RestartReconcileError := RestartReconcileError.RestartReconcileError.

(** One hexadecimal digit ([char::to_digit(16)]). *)
Definition hex_digit (b : Z) : option Z :=
  if is_ascii_digit b then Some (b - 48)
  else if between 97 102 b then Some (b - 87)
  else if between 65 70 b then Some (b - 55)
  else None.

(** [u8::from_str_radix(s, 16)] on two bytes; a leading plus sign is accepted. *)
Definition u8_from_hex (a b : Z) : option Z :=
  if a =? 43 then hex_digit b
  else x ← hex_digit a; y ← hex_digit b; Some (x * 16 + y).

Section decode.
Open Scope rust_scope.

Fixpoint decode_pairs (l : bytes) : option bytes :=
  match l with
  | [] => Some []
  | a :: b :: l => x ← u8_from_hex a b; r ← decode_pairs l; Some (x :: r)
  | [_] => None
  end.

(** src/src/cluster/restart.rs:111-121 (decode_hash) *)
Definition decode_hash (value : bytes) : result bytes RestartReconcileError :=
  if negb (length value =? 64)%nat then Err RestartReconcileError.InvalidChildHash
  else ok_or (decode_pairs value) RestartReconcileError.InvalidChildHash.

End decode.

(** What [TcpListener::bind] answers: bound, in use, or another error. *)
Inductive BindOutcome := Bound | AddrInUse | BindFailed.

(** src/src/cluster/restart.rs:100-109 (required_port_available) *)
Definition required_port_available (bind : BindOutcome) : result bool unit :=
  match bind with
  | Bound => Ok true
  | AddrInUse => Ok false
  | BindFailed => Err tt
  end.

Section reconcile.
Context {crypto : Crypto} {kernel : Kernel}.

(** src/src/cluster/restart.rs:52-60 (reconcile_restart) *)
Definition recorded_identity (s : PersistentClusterState) (child : PersistentChild)
    (profile hash : bytes) : ChildIdentity :=
  mkChildIdentity
    (mkProcessIdentity (pc_pid child) (pc_executable child) hash (pc_process_start_micros child))
    profile (ps_generation s) (pc_spawned_at_millis child).

(** The check of the port, last.
    src/src/cluster/restart.rs:85-97 (reconcile_restart) *)
Definition decide_port (baseline : Z) (port_available : result bool unit) : RestartDecision :=
  match port_available with
  | Ok true => RestartDecision.StartSolo baseline
  | Ok false => RestartDecision.ManualIntervention baseline RestartManualReason.RequiredPortOccupied
  | Err _ =>
      RestartDecision.ManualIntervention baseline RestartManualReason.RequiredAddressUnavailable
  end.

(** src/src/cluster/restart.rs:32-98 (reconcile_restart) *)
Definition reconcile_restart (fuel : nat) (state : option PersistentClusterState)
    (stop_timeout : Z) (allow_sigkill : bool) (port_available : result bool unit)
    : method Machine RestartReconcileError (option RestartDecision) :=
  let baseline := match state with Some s => ps_generation s | None => 0 end in
  match state ≫= fun s => pair s <$> ps_child s with
  | None => mret (Some (decide_port baseline port_available))
  | Some (s, child) =>
      match active_profile s with
      | None => mret (Some (RestartDecision.ManualIntervention baseline
                  RestartManualReason.PersistedChildIdentityMismatch))
      | Some profile =>
          hash ← lift (decode_hash (pc_argv_sha256 child));
          stopped ← attempt (stop_recovered_owned fuel (recorded_identity s child profile hash)
                     stop_timeout (millis 20) allow_sigkill);
          match stopped with
          | Ok None => mret None
          | Ok (Some _) | Err ProcessControlError.NotRunning =>
              mret (Some (decide_port baseline port_available))
          | Err ProcessControlError.IdentityMismatch =>
              mret (Some (RestartDecision.ManualIntervention baseline
                RestartManualReason.PersistedChildIdentityMismatch))
          | Err _ =>
              mret (Some (RestartDecision.ManualIntervention baseline
                RestartManualReason.PersistedChildStopFailed))
          end
      end
  end.

(** A node that restarts starts a standalone child only when nothing of its
    previous run is left: the process it had recorded was last observed to be gone
    and the port it needs is free; the generation it goes on from is the recorded
    one. *)
Lemma restart_starts_only_when_clear fuel state timeout allow port m g m' :
  reconcile_restart fuel state timeout allow port m
    = (Ok (Some (RestartDecision.StartSolo g)), m') →
  port = Ok true
  ∧ g = match state with Some s => ps_generation s | None => 0 end
  ∧ ∀ s child, state = Some s → ps_child s = Some child → gone (pc_pid child) m'.
Proof.
  intros Heq.
  assert (Hport : ∀ b, decide_port b port = RestartDecision.StartSolo g → port = Ok true ∧ g = b)
    by (unfold decide_port; intros b; repeat case_match; naive_solver).
  assert (Hwp : wp (reconcile_restart fuel state timeout allow port)
    (fun r m' => r = Some (RestartDecision.StartSolo g) → port = Ok true
       ∧ g = match state with Some s => ps_generation s | None => 0 end
       ∧ ∀ s child, state = Some s → ps_child s = Some child → gone (pc_pid child) m')
    (fun _ _ => True) m).
  { unfold reconcile_restart. destruct state as [s|]; simpl.
    2: { apply wp_ret. intros [= Hd%Hport]. naive_solver. }
    destruct (ps_child s) as [child|] eqn:Hchild; simpl.
    2: { apply wp_ret. intros [= Hd%Hport]. naive_solver congruence. }
    destruct (active_profile s) as [profile|]; [|by apply wp_ret].
    apply wp_bind, wp_lift. destruct (decode_hash _) as [hash|]; [|done].
    apply wp_bind, wp_attempt. wp_use wp_stop_recovered.
    - intros [[]|] m1 Hgone; apply wp_ret; [|done]. intros [= Hd%Hport].
      split_and!; try naive_solver.
    - intros e m1 Hgone. destruct e; apply wp_ret; try done. intros [= Hd%Hport].
      split_and!; try naive_solver. }
  unfold wp in Hwp. rewrite Heq in Hwp. by apply Hwp.
Qed.

(** Every signal of a restart follows a check of the recorded identity. *)
Lemma restart_signals_guarded fuel s child profile hash timeout allow port m :
  ps_child s = Some child → active_profile s = Some profile →
  decode_hash (pc_argv_sha256 child) = Ok hash → log m = [] →
  guarded (child_process (recorded_identity s child profile hash)) allow
    (log (snd (reconcile_restart fuel (Some s) timeout allow port m))).
Proof.
  intros Hc Hp Hh Hm. unfold reconcile_restart. simpl. rewrite Hc. simpl. rewrite Hp, Hh.
  set (identity := recorded_identity s child profile hash).
  assert (Hg : guarded (child_process identity) allow
    (log (snd (stop_recovered_owned fuel identity timeout (millis 20) allow m)))).
  { apply (keeps_stop_recovered _ fuel identity timeout (millis 20) allow (fun _ _ _ H => H)).
    intros t1 p sg r t2. rewrite Hm. by destruct t1. }
  unfold lift, mbind, method_bind, attempt. revert Hg.
  destruct (stop_recovered_owned _ _ _ _ _ m) as [[[[]|]|[]] m1]; done.
Qed.

Lemma hex_digit_some b : is_hexdigit b = true → ∃ x, hex_digit b = Some x ∧ b ≠ 43.
Proof.
  unfold is_hexdigit, hex_digit. intros Hb.
  destruct (is_ascii_digit b) eqn:E1; [|destruct (between 97 102 b) eqn:E2;
    [|destruct (between 65 70 b) eqn:E3; [|done]]]; eexists; (split; [done|]); intros ->; done.
Qed.

Lemma decode_pairs_hex (n : nat) : ∀ l,
  length l = (2 * n)%nat → forallb is_hexdigit l = true → ∃ r, decode_pairs l = Some r.
Proof.
  induction n as [|n IH]; intros [|a [|b l]] Hl; simpl in Hl; try lia; [by exists []|].
  simpl. intros Hh. apply andb_true_iff in Hh as [Ha Hh]. apply andb_true_iff in Hh as [Hb Hh].
  destruct (hex_digit_some a Ha) as (x & Hx & Hne). destruct (hex_digit_some b Hb) as (y & Hy & _).
  unfold u8_from_hex. rewrite (proj2 (Z.eqb_neq _ _)) by done. rewrite Hx, Hy. simpl.
  destruct (IH l) as [r ->]; [lia|done|]. simpl. eauto.
Qed.

Lemma valid_child_hash s child :
  validate_state s = Ok tt → ps_child s = Some child →
  ∃ hash, decode_hash (pc_argv_sha256 child) = Ok hash.
Proof.
  unfold validate_state. intros Hv Hc. revert Hv. rewrite Hc.
  destruct (negb _); [done|]. destruct (_ || _); [done|].
  intros ([] & _ & Hh%ensure_ok)%result_bind_ok. apply andb_true_iff in Hh as [Hl Hh].
  apply Nat.eqb_eq in Hl. destruct (decode_pairs_hex 32 (pc_argv_sha256 child)) as [r Hr]; [lia|done|].
  exists r. unfold decode_hash. rewrite Hl. simpl. by rewrite Hr.
Qed.

(** A restart from a valid state always comes to a decision: with fuel for the
    stop timeout in steps of the poll interval, whatever the recorded process does,
    it neither runs out of fuel nor fails, as a recorded hash that passed the
    validation of the state always decodes. *)
Lemma restart_decides (fuel : nat) state timeout allow port m :
  0 ≤ timeout → timeout ≤ fuel * millis 20 →
  match state with Some s => validate_state s = Ok tt | None => True end →
  ∃ d, fst (reconcile_restart (S fuel) state timeout allow port m) = Ok (Some d).
Proof.
  intros Ht Hf Hv. unfold reconcile_restart.
  destruct state as [s|]; simpl; [|unfold mret, method_ret; eauto].
  destruct (ps_child s) as [child|] eqn:Hc; simpl; [|unfold mret, method_ret; eauto].
  destruct (active_profile s) as [profile|]; [|unfold mret, method_ret; eauto].
  destruct (valid_child_hash s child Hv Hc) as [hash ->]. unfold mbind, method_bind, lift, attempt.
  pose proof (stop_recovered_ends fuel (recorded_identity s child profile hash) timeout
    (millis 20) allow m ltac:(lia) ltac:(unfold millis; lia) Hf) as Hend.
  destruct (stop_recovered_owned _ _ _ _ _ m) as [[[[]|]|[]] m1]; simpl in *;
    unfold mret, method_ret; simpl; eauto; done.
Qed.

End reconcile.

(** ** A restart after which the recorded process is gone *)

Section restart_witnesses.

(** No process runs under any pid. *)
Definition empty_machine : Kernel := {|
  sys_try_wait _ := Ok true;
  sys_observe _ _ := Ok None;
  sys_signal _ _ _ := Ok tt;
  oversleep _ := 0%nat;
|}.

Definition recorded_child : PersistentChild :=
  {| pc_pid := 4242; pc_executable := str "/opt/ds4/ds4-server";
     pc_argv_sha256 := repeat 97 64; pc_spawned_at_millis := 1000;
     pc_process_start_micros := 77 |}.

Definition recorded_state : PersistentClusterState :=
  {| ps_tp := None; schema_version := 2; ps_generation := 5; control_session_generation := 5;
     desired_mode := PersistentMode.SoloStandalone;
     last_stable_mode := PersistentMode.SoloStandalone; cluster_state := str "solo";
     ps_proxy_target := PersistentProxyTarget.LocalStandalone;
     active_profile := Some (str "standalone"); ps_child := Some recorded_child;
     ps_last_failure := None; operator_policy := Operation.OperationPolicy.Automatic;
     applied_policy := Operation.OperationPolicy.Automatic; policy_epoch := 0;
     pending_operation := None |}.

Notation demo_restart := (reconcile_restart (crypto:=toy_crypto) (kernel:=empty_machine) 6
  (Some recorded_state) (millis 100) true (Ok true) boot).

Lemma restart_starts_only_when_clear_witness :
  fst demo_restart = Ok (Some (RestartDecision.StartSolo 5)) ∧ gone 4242 (snd demo_restart).
Proof.
  split; [by vm_compute|].
  destruct demo_restart as [r m'] eqn:Hr.
  assert (r = Ok (Some (RestartDecision.StartSolo 5))) as ->
    by (change r with (fst (r, m')); rewrite <-Hr; by vm_compute).
  destruct (restart_starts_only_when_clear (crypto:=toy_crypto) (kernel:=empty_machine) _ _ _ _ _
    _ _ _ Hr) as (_ & _ & Hg).
  exact (Hg recorded_state recorded_child eq_refl eq_refl).
Defined.

Lemma restart_decides_witness : ∃ d, fst demo_restart = Ok (Some d).
Proof.
  apply (restart_decides (crypto:=toy_crypto) (kernel:=empty_machine) 5); by vm_compute.
Defined.

End restart_witnesses.
