(* ===== verification/Jobs.v ===== *)
(** * Manager jobs: [src/src/manager/jobs.rs], [src/src/manager/api.rs]

    The journal of managed jobs and the four handlers of the manager's interface on
    it.  The journal lives under one mutex, so a handler is one step; the clock is an
    argument; the JSON decoder of a submission is serde's. *)

From stdpp Require Import sorting.
From S2P Require Import Prelude Bytes Utf8.

Local Open Scope rust_scope.

Module JobKind.

(** src/src/manager/jobs.rs:17-34 (JobKind) *)
Inductive JobKind := Fetch | Build | Download | Verify | Stage | Activate | Rollback.

(** src/src/manager/jobs.rs:36-55 (JobKind::as_str) *)
Definition as_str (self : JobKind) : bytes :=
  str match self with
      | Fetch => "fetch"
      | Build => "build"
      | Download => "download"
      | Verify => "verify"
      | Stage => "stage"
      | Activate => "activate"
      | Rollback => "rollback"
      end.

End JobKind.
Notation JobKind := JobKind.JobKind.

Module JobPhase.

(** src/src/manager/jobs.rs:58-69 (JobPhase) *)
Inductive JobPhase := Running | Succeeded | Failed | Cancelling.

(** src/src/manager/api.rs:31-38 (phase_name) *)
Definition phase_name (phase : JobPhase) : bytes :=
  str match phase with
      | Running => "running"
      | Succeeded => "succeeded"
      | Failed => "failed"
      | Cancelling => "cancelling"
      end.

End JobPhase.
Notation JobPhase := JobPhase.JobPhase.

Module ManagerJobError.

(** src/src/manager/jobs.rs:148-154 (ManagerJobError) *)
Inductive ManagerJobError := UnknownKind | NotFound.

End ManagerJobError.
Notation ManagerJobError := ManagerJobError.ManagerJobError.

Global Instance JobKind_eq_dec : EqDecision JobKind.
Proof. solve_decision. Defined.
Global Instance JobPhase_eq_dec : EqDecision JobPhase.
Proof. solve_decision. Defined.

(** ** Jobs *)

(** src/src/manager/jobs.rs:75-93 (ManagerJob) *)
Record ManagerJob := mkJob {
  job_id : bytes;
  job_kind : JobKind;
  progress : Z;
  job_phase : JobPhase;
  job_error : bytes;
  created_at : Z;
  updated_at : Z;
  cancel_requested : bool }.

(** src/src/manager/jobs.rs:97-109 (ManagerJob::new) *)
Definition job_new (now : Z) (id : bytes) (kind : JobKind) : ManagerJob :=
  mkJob id kind 0 JobPhase.Running [] now now false.

(** src/src/manager/jobs.rs:112-115 (ManagerJob::set_progress) *)
Definition set_progress (now p : Z) (self : ManagerJob) : ManagerJob :=
  mkJob (job_id self) (job_kind self) (Z.min p 100) (job_phase self) (job_error self)
    (created_at self) now (cancel_requested self).

(** src/src/manager/jobs.rs:118-122 (ManagerJob::succeed) *)
Definition job_succeed (now : Z) (self : ManagerJob) : ManagerJob :=
  mkJob (job_id self) (job_kind self) 100 JobPhase.Succeeded (job_error self)
    (created_at self) now (cancel_requested self).

(** src/src/manager/jobs.rs:125-129 (ManagerJob::fail) *)
Definition job_fail (now : Z) (error : bytes) (self : ManagerJob) : ManagerJob :=
  mkJob (job_id self) (job_kind self) (progress self) JobPhase.Failed error
    (created_at self) now (cancel_requested self).

(** src/src/manager/jobs.rs:132-136 (ManagerJob::request_cancel) *)
Definition job_request_cancel (now : Z) (self : ManagerJob) : ManagerJob :=
  mkJob (job_id self) (job_kind self) (progress self) JobPhase.Cancelling (job_error self)
    (created_at self) now true.

(** The condition [matches!(phase, Running | Cancelling)]. *)
Definition in_progress (j : ManagerJob) : bool :=
  match job_phase j with
  | JobPhase.Running | JobPhase.Cancelling => true
  | JobPhase.Succeeded | JobPhase.Failed => false
  end.

(** ** The journal *)

(** src/src/manager/jobs.rs:173-180 (JobJournal) *)
Record JobJournal := mkJournal {
  jobs : gmap bytes ManagerJob;
  running_by_key : gmap bytes bytes;
  next_id : Z }.

(** src/src/manager/jobs.rs:184-186 (JobJournal::new) *)
Definition journal_new : JobJournal := mkJournal ∅ ∅ 0.

(** src/src/manager/jobs.rs:192-204 (JobJournal::enqueue) *)
Definition enqueue (now : Z) (kind : JobKind) (payload_key : bytes)
    : method JobJournal ManagerJobError bytes :=
  journal ← self;
  match running_by_key journal !! payload_key with
  | Some id => mret id
  | None =>
      let id := JobKind.as_str kind ++ str "-" ++ u64_to_string (next_id journal) in
      modify (fun j => mkJournal
        (<[id := job_new now id kind]> (jobs j))
        (<[payload_key := id]> (running_by_key j))
        (wrap64 (next_id j + 1)));;
      mret id
  end.

(** src/src/manager/jobs.rs:212-214 (JobJournal::get) *)
Definition journal_get (self : JobJournal) (id : bytes) : option ManagerJob := jobs self !! id.

(** The order of [sort_by] on the ids. *)
Definition id_le (a b : ManagerJob) : Prop := lex_leb (job_id a) (job_id b) = true.
Global Instance id_le_dec a b : Decision (id_le a b) := decide (lex_leb (job_id a) (job_id b) = true).

(** src/src/manager/jobs.rs:217-221 (JobJournal::all) *)
Definition all (self : JobJournal) : list ManagerJob :=
  merge_sort id_le (map_to_list (jobs self)).*2.

(** src/src/manager/jobs.rs:261-279 (JobJournal::release_key) *)
Definition release_key (id : bytes) (self : JobJournal) : JobJournal :=
  mkJournal (jobs self) (filter (fun kv => snd kv ≠ id) (running_by_key self)) (next_id self).

(** Change the job with an id, failing with [NotFound] when there is none. *)
Definition update_job (id : bytes) (f : ManagerJob → ManagerJob)
    : method JobJournal ManagerJobError unit :=
  journal ← self;
  match jobs journal !! id with
  | Some job => modify (fun j => mkJournal (<[id := f job]> (jobs j)) (running_by_key j) (next_id j))
  | None => fail ManagerJobError.NotFound
  end.

(** src/src/manager/jobs.rs:224-232 (JobJournal::succeed) *)
Definition succeed (now : Z) (id : bytes) : method JobJournal ManagerJobError unit :=
  update_job id (job_succeed now);; modify (release_key id).

(** src/src/manager/jobs.rs:235-244 (JobJournal::fail) *)
Definition journal_fail (now : Z) (id error : bytes) : method JobJournal ManagerJobError unit :=
  update_job id (job_fail now error);; modify (release_key id).

(** src/src/manager/jobs.rs:247-251 (JobJournal::request_cancel) *)
Definition request_cancel (now : Z) (id : bytes) : method JobJournal ManagerJobError unit :=
  update_job id (job_request_cancel now).

(** src/src/manager/jobs.rs:254-258 (JobJournal::has_running) *)
Definition has_running (kind : JobKind) (self : JobJournal) : bool :=
  existsb (fun j => bool_decide (job_kind j = kind) && in_progress j) (map_to_list (jobs self)).*2.

(** ** The interface *)

(** src/src/manager/api.rs:67-80 (JobSubmitRequest) *)
Record JobSubmitRequest := mkSubmit {
  submit_kind : bytes;
  payload_key : bytes;
  expected_generation : Z;
  runtime_lease : option bytes }.

Module ManagerApiError.

(** src/src/manager/api.rs:91-98 (ManagerApiError) *)
Inductive ManagerApiError :=
| BadRequest (message : bytes) | NotFound | Conflict (message : bytes).

(** src/src/manager/api.rs:112-121 (From<ManagerJobError> for ManagerApiError) *)
Definition of_job_error (e : ManagerJobError) : ManagerApiError :=
  match e with
  | ManagerJobError.UnknownKind => BadRequest (str "unknown job kind")
  | ManagerJobError.NotFound => NotFound
  end.

End ManagerApiError.
Notation ManagerApiError := ManagerApiError.ManagerApiError.

(** src/src/manager/api.rs:124-135 (parse_kind) *)
Definition parse_kind (kind : bytes) : option JobKind :=
  if bool_decide (kind = str "fetch") then Some JobKind.Fetch
  else if bool_decide (kind = str "build") then Some JobKind.Build
  else if bool_decide (kind = str "download") then Some JobKind.Download
  else if bool_decide (kind = str "verify") then Some JobKind.Verify
  else if bool_decide (kind = str "stage") then Some JobKind.Stage
  else if bool_decide (kind = str "activate") then Some JobKind.Activate
  else if bool_decide (kind = str "rollback") then Some JobKind.Rollback
  else None.

(** src/src/manager/api.rs:139-161 (submit) *)
Definition submit (now : Z) (req : JobSubmitRequest)
    : method JobJournal ManagerApiError bytes :=
  kind ← lift (ok_or (parse_kind (submit_kind req))
    (ManagerApiError.BadRequest (str "unknown job kind: " ++ submit_kind req)));
  journal ← self;
  (if bool_decide (kind = JobKind.Activate ∨ kind = JobKind.Rollback) then
     require (negb ((expected_generation req =? 0)
                    || bool_decide (default [] (runtime_lease req) = [])))
       (ManagerApiError.BadRequest
          (str "activate/rollback requires expected_generation and runtime_lease"));;
     require (negb (bool_decide (kind = JobKind.Activate) && has_running JobKind.Activate journal))
       (ManagerApiError.Conflict (str "an activation job is already running"))
   else mret tt);;
  map_error ManagerApiError.of_job_error (enqueue now kind (payload_key req)).

(** serde's decoder of a submission: the request, or its error text. *)
Class SubmitDecoder := decode_submit : bytes → result JobSubmitRequest bytes.

(** src/src/manager/api.rs:164-171 (submit_json) *)
Definition submit_json `{SubmitDecoder} (now : Z) (body : bytes)
    : method JobJournal ManagerApiError bytes :=
  req ← lift (map_err ManagerApiError.BadRequest (decode_submit body));
  submit now req.

(** src/src/manager/api.rs:17-28 (ManagerJobDto) *)
Record ManagerJobDto := mkDto {
  dto_id : bytes;
  dto_kind : bytes;
  dto_progress : Z;
  dto_phase : bytes;
  dto_error : bytes;
  dto_created_at : Z;
  dto_updated_at : Z;
  dto_cancel : bool }.

(** src/src/manager/api.rs:40-53 (From<&ManagerJob> for ManagerJobDto) *)
Definition dto_of (job : ManagerJob) : ManagerJobDto :=
  mkDto (job_id job) (JobKind.as_str (job_kind job)) (progress job)
    (JobPhase.phase_name (job_phase job)) (job_error job) (created_at job) (updated_at job)
    (cancel_requested job).

(** src/src/manager/api.rs:56-64 (ManagerStatusResponse) *)
Record ManagerStatusResponse := mkStatus {
  status_jobs : list ManagerJobDto;
  active_digest : option bytes;
  queue_depth : Z }.

(** src/src/manager/api.rs:174-190 (status) *)
Definition status (journal : JobJournal) (active : option bytes) : ManagerStatusResponse :=
  mkStatus (map dto_of (all journal)) active
    (length (List.filter in_progress (all journal))).

(** src/src/manager/api.rs:193-196 (get) *)
Definition api_get (journal : JobJournal) (id : bytes) : result ManagerJobDto ManagerApiError :=
  let? job := ok_or (journal_get journal id) ManagerApiError.NotFound in
  Ok (dto_of job).

(** src/src/manager/api.rs:200-203 (cancel) *)
Definition api_cancel (now : Z) (id : bytes) : method JobJournal ManagerApiError unit :=
  map_error ManagerApiError.of_job_error (request_cancel now id).

(** ** Runs of the journal *)

(** What happens to the journal: submissions and cancellations from the interface,
    ends of jobs from their executor. *)
Inductive journal_op :=
| Submit (now : Z) (req : JobSubmitRequest)
| Cancel (now : Z) (id : bytes)
| Finish (now : Z) (id : bytes)
| Break (now : Z) (id error : bytes).

Definition journal_step (j : JobJournal) (op : journal_op) : JobJournal :=
  match op with
  | Submit now req => snd (submit now req j)
  | Cancel now id => snd (api_cancel now id j)
  | Finish now id => snd (succeed now id j)
  | Break now id error => snd (journal_fail now id error j)
  end.

Definition journal_run (ops : list journal_op) : JobJournal := foldl journal_step journal_new ops.

(** ** Invariant *)

(** The id under which the [n]-th job is created. *)
Definition numbered_id (kind : JobKind) (n : Z) : bytes :=
  JobKind.as_str kind ++ str "-" ++ u64_to_string n.

Record journal_inv (j : JobJournal) : Prop := {
  inv_ids : ∀ id job, jobs j !! id = Some job →
    job_id job = id ∧ ∃ n, 0 ≤ n < next_id j ∧ id = numbered_id (job_kind job) n;
  inv_keys : ∀ k id, running_by_key j !! k = Some id →
    ∃ job, jobs j !! id = Some job ∧ in_progress job = true;
  inv_running : ∀ id job, jobs j !! id = Some job → job_phase job = JobPhase.Running →
    ∃ k, running_by_key j !! k = Some id;
  inv_one_key : ∀ k k' id, running_by_key j !! k = Some id → running_by_key j !! k' = Some id →
    k = k';
  inv_activation : ∀ k k' id id' job job',
    running_by_key j !! k = Some id → running_by_key j !! k' = Some id' →
    jobs j !! id = Some job → jobs j !! id' = Some job' →
    job_kind job = JobKind.Activate → job_kind job' = JobKind.Activate → id = id' }.

Lemma numbered_id_inj kind kind' n n' :
  is_u64 n → is_u64 n' → numbered_id kind n = numbered_id kind' n' → n = n'.
Proof.
  intros Hn Hn' Heq. apply u64_to_string_inj; [done..|].
  assert (Hno : ∀ k, 45 ∉ JobKind.as_str k)
    by (intros []; apply contains_byte_false; reflexivity).
  unfold numbered_id in Heq. change (str "-") with [45] in Heq.
  by apply (sep_inj 45) in Heq as [_ ?].
Qed.

Lemma has_running_spec kind j :
  has_running kind j = true ↔
  ∃ id job, jobs j !! id = Some job ∧ job_kind job = kind ∧ in_progress job = true.
Proof.
  unfold has_running. rewrite existsb_exists. split.
  - intros (job & Hin & Hk%andb_true_iff). apply list_elem_of_In, list_elem_of_fmap in Hin.
    destruct Hin as ([id job'] & -> & Hin%elem_of_map_to_list). simpl in *.
    destruct Hk as [Hk%bool_decide_eq_true ?]. eauto.
  - intros (id & job & Hj & <- & Hp). exists job. split.
    + apply list_elem_of_In, list_elem_of_fmap. exists (id, job). split; [done|].
      by apply elem_of_map_to_list.
    + by rewrite bool_decide_true, Hp.
Qed.

(** What a submission does. *)
Lemma submit_cases now req j :
  (∃ e, submit now req j = (Err e, j))
  ∨ (∃ id, running_by_key j !! payload_key req = Some id ∧ submit now req j = (Ok id, j))
  ∨ (∃ kind, running_by_key j !! payload_key req = None
      ∧ parse_kind (submit_kind req) = Some kind
      ∧ (kind = JobKind.Activate → has_running JobKind.Activate j = false)
      ∧ let id := numbered_id kind (next_id j) in
        submit now req j = (Ok id, mkJournal (<[id := job_new now id kind]> (jobs j))
          (<[payload_key req := id]> (running_by_key j)) (wrap64 (next_id j + 1)))).
Proof.
  unfold submit, enqueue, map_error. unfold_method.
  destruct (parse_kind (submit_kind req)) as [kind|]; [|left; simpl; eauto]. simpl.
  case_bool_decide as Hk.
  - destruct ((expected_generation req =? 0) || _); [left; simpl; eauto|]. simpl.
    destruct (bool_decide (kind = JobKind.Activate) && has_running JobKind.Activate j) eqn:Hb;
      [left; simpl; eauto|]. simpl. right.
    destruct (running_by_key j !! payload_key req) as [id|]; [left; eauto|].
    right. exists kind. split_and!; try done. intros ->.
    by rewrite bool_decide_true in Hb.
  - simpl. right. destruct (running_by_key j !! payload_key req) as [id|]; [left; eauto|].
    right. exists kind. split_and!; try done. intros ->. destruct Hk. by left.
Qed.

Lemma fresh_id j kind :
  journal_inv j → 0 ≤ next_id j ≤ u64_max → jobs j !! numbered_id kind (next_id j) = None.
Proof.
  intros Hinv Hn. destruct (jobs j !! _) as [job|] eqn:Hj; [|done].
  destruct (inv_ids j Hinv _ _ Hj) as (_ & n & ? & Heq).
  apply numbered_id_inj in Heq; unfold is_u64; lia.
Qed.

Lemma inv_enqueue j now k kind :
  journal_inv j → 0 ≤ next_id j < u64_max → running_by_key j !! k = None →
  (kind = JobKind.Activate → has_running JobKind.Activate j = false) →
  let id := numbered_id kind (next_id j) in
  journal_inv (mkJournal (<[id := job_new now id kind]> (jobs j))
    (<[k := id]> (running_by_key j)) (wrap64 (next_id j + 1))).
Proof.
  intros Hinv Hn Hk Hact id.
  assert (Hfresh : jobs j !! id = None) by (apply fresh_id; [done|lia]).
  assert (Hunused : ∀ k', running_by_key j !! k' ≠ Some id).
  { intros k' (job & Hj & _)%(inv_keys j Hinv). congruence. }
  assert (Hquiet : ∀ k' id' job', kind = JobKind.Activate → running_by_key j !! k' = Some id' →
    jobs j !! id' = Some job' → job_kind job' = JobKind.Activate → False).
  { intros k' id' job' Hkind Hk' Hj' Ha. destruct (inv_keys j Hinv _ _ Hk') as (job'' & Hj'' & Hp).
    simplify_eq. enough (has_running JobKind.Activate j = true) by (rewrite Hact in *; done).
    apply has_running_spec. eauto. }
  rewrite wrap64_small by (unfold is_u64; lia). split; simpl.
  - intros id' job' [[<- <-]|[Hne Hj]]%lookup_insert_Some.
    + split; [done|]. exists (next_id j). split; [lia|done].
    + destruct (inv_ids j Hinv _ _ Hj) as (? & n & ? & ?). split; [done|]. exists n. split; [lia|done].
  - intros k' id' [[<- <-]|[Hne Hk']]%lookup_insert_Some.
    + rewrite lookup_insert_eq. eauto.
    + destruct (inv_keys j Hinv _ _ Hk') as (job & Hj & ?). exists job.
      rewrite lookup_insert_ne; [done|]. congruence.
  - intros id' job' [[<- <-]|[Hne Hj]]%lookup_insert_Some Hp.
    + exists k. by rewrite lookup_insert_eq.
    + destruct (inv_running j Hinv _ _ Hj Hp) as [k' Hk']. exists k'.
      rewrite lookup_insert_ne; [done|]. congruence.
  - intros k1 k2 id' [[<- <-]|[Hne Hk1]]%lookup_insert_Some [[<- Heq]|[Hne2 Hk2]]%lookup_insert_Some;
      try done; try (by destruct (Hunused k2)); try (subst; by destruct (Hunused k1)).
    by eapply inv_one_key.
  - intros k1 k2 id1 id2 job1 job2 [[<- <-]|[Hne1 Hk1]]%lookup_insert_Some
      [[<- <-]|[Hne2 Hk2]]%lookup_insert_Some; [done| | |].
    + rewrite lookup_insert_eq, lookup_insert_ne by congruence. intros [= <-] ? ? ?.
      exfalso. by eapply Hquiet.
    + rewrite lookup_insert_eq, lookup_insert_ne by congruence. intros ? [= <-] ? ?.
      exfalso. by eapply Hquiet.
    + rewrite !lookup_insert_ne by congruence. by eapply inv_activation.
Qed.

(** A change of a job that keeps its id and kind, and does not set it running. *)
Definition ends_or_cancels (f : ManagerJob → ManagerJob) : Prop :=
  ∀ job, job_id (f job) = job_id job ∧ job_kind (f job) = job_kind job
         ∧ job_phase (f job) ≠ JobPhase.Running.

Lemma inv_update_job j id job f keys :
  journal_inv j → jobs j !! id = Some job → ends_or_cancels f →
  keys ⊆ running_by_key j →
  (∀ k, keys !! k = Some id → in_progress (f job) = true) →
  (∀ k id', running_by_key j !! k = Some id' → id' ≠ id → keys !! k = Some id') →
  journal_inv (mkJournal (<[id := f job]> (jobs j)) keys (next_id j)).
Proof.
  intros Hinv Hj Hf Hsub Hkeep Hother.
  assert (Hk : ∀ k id', keys !! k = Some id' → running_by_key j !! k = Some id')
    by (intros k id' ?; by eapply lookup_weaken). destruct (Hf job) as (Hid & Hkind & Hrun).
  assert (Hlook : ∀ id' job', <[id := f job]> (jobs j) !! id' = Some job' →
    ∃ old, jobs j !! id' = Some old ∧ job_id job' = job_id old ∧ job_kind job' = job_kind old).
  { intros id' job' [[<- <-]|[_ ?]]%lookup_insert_Some; eauto. }
  split; simpl.
  - intros id' job' (old & Hold & -> & ->)%Hlook. by apply inv_ids.
  - intros k id' Hk'. destruct (decide (id' = id)) as [->|]; [rewrite lookup_insert_eq; eauto|].
    rewrite lookup_insert_ne by done. eapply inv_keys; eauto.
  - intros id' job' [[<- <-]|[Hne Hj']]%lookup_insert_Some Hp; [done|].
    destruct (inv_running j Hinv _ _ Hj' Hp) as [k Hk']. eauto.
  - intros k k' id' ?%Hk ?%Hk. by eapply inv_one_key.
  - intros k k' id1 id2 job1 job2 ?%Hk ?%Hk
      (old1 & ? & _ & ->)%Hlook (old2 & ? & _ & ->)%Hlook ? ?.
    by eapply (inv_activation j Hinv k k').
Qed.

Lemma succeed_ends now : ends_or_cancels (job_succeed now).
Proof. by intros []. Qed.
Lemma fail_ends now error : ends_or_cancels (job_fail now error).
Proof. by intros []. Qed.
Lemma cancel_cancels now : ends_or_cancels (job_request_cancel now).
Proof. by intros []. Qed.

Lemma update_job_state id f j :
  snd (update_job id f j)
  = match jobs j !! id with
    | Some job => mkJournal (<[id := f job]> (jobs j)) (running_by_key j) (next_id j)
    | None => j
    end.
Proof. unfold update_job. unfold_method. by destruct (jobs j !! id). Qed.

Lemma end_job_state id f j :
  snd ((update_job id f;; modify (release_key id)) j)
  = match jobs j !! id with
    | Some job => mkJournal (<[id := f job]> (jobs j))
        (filter (fun kv => snd kv ≠ id) (running_by_key j)) (next_id j)
    | None => j
    end.
Proof. unfold update_job. unfold_method. by destruct (jobs j !! id). Qed.

Lemma cancel_state now id j :
  snd (api_cancel now id j) = snd (update_job id (job_request_cancel now) j).
Proof. unfold api_cancel, request_cancel, map_error. by destruct (update_job _ _ j) as [[] ?]. Qed.

Lemma inv_end j id f :
  journal_inv j → ends_or_cancels f →
  journal_inv (snd ((update_job id f;; modify (release_key id)) j)).
Proof.
  intros Hinv Hf. rewrite end_job_state. destruct (jobs j !! id) as [job|] eqn:Hj; [|done].
  apply inv_update_job; [done..|apply map_filter_subseteq| |].
  - by intros k [_ ?]%map_lookup_filter_Some.
  - intros k id' ? ?. by apply map_lookup_filter_Some.
Qed.

Lemma inv_cancel j now id : journal_inv j → journal_inv (snd (api_cancel now id j)).
Proof.
  intros Hinv. rewrite cancel_state, update_job_state.
  destruct (jobs j !! id) as [job|] eqn:Hj; [|done].
  apply inv_update_job; [done|done|apply cancel_cancels|done|done|done].
Qed.

Lemma inv_journal_step j op :
  journal_inv j → 0 ≤ next_id j < u64_max →
  journal_inv (journal_step j op) ∧ next_id j ≤ next_id (journal_step j op) ≤ next_id j + 1.
Proof.
  intros Hinv Hn. destruct op as [now req|now id|now id|now id error]; simpl.
  - destruct (submit_cases now req j) as [(e & ->)|[(id & _ & ->)|(kind & ? & _ & ? & ->)]];
      simpl; [split; [done|lia]..|].
    split; [by apply inv_enqueue|]. rewrite wrap64_small; unfold is_u64; lia.
  - split; [by apply inv_cancel|].
    rewrite cancel_state, update_job_state. destruct (jobs j !! id); simpl; lia.
  - split; [apply inv_end; [done|apply succeed_ends]|].
    unfold succeed. rewrite end_job_state. destruct (jobs j !! id); simpl; lia.
  - split; [apply inv_end; [done|apply fail_ends]|].
    unfold journal_fail. rewrite end_job_state. destruct (jobs j !! id); simpl; lia.
Qed.

Lemma inv_journal_steps ops j :
  journal_inv j → 0 ≤ next_id j → next_id j + length ops ≤ u64_max →
  let j' := foldl journal_step j ops in
  journal_inv j' ∧ 0 ≤ next_id j' ≤ next_id j + length ops.
Proof.
  revert j. induction ops as [|op ops IH]; intros j Hinv Hn Hlen; simpl in *; [split; [done|lia]|].
  destruct (inv_journal_step j op Hinv) as [Hinv' Hn']; [lia|].
  destruct (IH _ Hinv') as [? ?]; [lia..|]. split; [done|lia].
Qed.

Lemma inv_journal_run ops :
  Z.of_nat (length ops) ≤ u64_max →
  journal_inv (journal_run ops) ∧ 0 ≤ next_id (journal_run ops) ≤ length ops.
Proof. intros. apply inv_journal_steps; simpl; [|lia..]. split; intros *; simpl; rewrite ?lookup_empty; done. Qed.

(** ** What the journal promises *)

(** The operations that end the job with an id. *)
Definition ends_job (id : bytes) (op : journal_op) : Prop :=
  match op with
  | Finish _ id' | Break _ id' _ => id' = id
  | Submit _ _ | Cancel _ _ => False
  end.

Lemma key_kept j op k id :
  running_by_key j !! k = Some id → ¬ ends_job id op →
  running_by_key (journal_step j op) !! k = Some id.
Proof.
  intros Hk Hend. destruct op as [now req|now id'|now id'|now id' error]; simpl in *.
  - destruct (submit_cases now req j) as [(e & ->)|[(id' & _ & ->)|(kind & ? & _ & ? & ->)]];
      simpl; [done..|]. rewrite lookup_insert_ne; [done|]. congruence.
  - rewrite cancel_state, update_job_state. by destruct (jobs j !! id').
  - unfold succeed. rewrite end_job_state. destruct (jobs j !! id'); [|done].
    apply map_lookup_filter_Some. split; [done|]. simpl. congruence.
  - unfold journal_fail. rewrite end_job_state. destruct (jobs j !! id'); [|done].
    apply map_lookup_filter_Some. split; [done|]. simpl. congruence.
Qed.

(** A job that has ended: it exists and no key leads to it. *)
Definition ended (id : bytes) (j : JobJournal) : Prop :=
  is_Some (jobs j !! id) ∧ ∀ k, running_by_key j !! k ≠ Some id.

Lemma ended_step j op id :
  journal_inv j → 0 ≤ next_id j < u64_max →
  is_Some (jobs j !! id) → ended id j ∨ ends_job id op → ended id (journal_step j op).
Proof.
  intros Hinv Hn Hj Hend.
  assert (Hended : ∀ id' f job, jobs j !! id' = Some job → ended id j ∨ id' = id →
    ended id (mkJournal (<[id' := f job]> (jobs j))
      (filter (fun kv => snd kv ≠ id') (running_by_key j)) (next_id j))).
  { intros id' f job Hj' Hor. split; simpl.
    - destruct (decide (id' = id)) as [->|]; [by rewrite lookup_insert_eq|].
      by rewrite lookup_insert_ne.
    - intros k [Hk Hne]%map_lookup_filter_Some. simpl in Hne.
      destruct Hor as [[_ Hno]| ->]; [by destruct (Hno k)|done]. }
  destruct op as [now req|now id'|now id'|now id' error]; simpl in *.
  - destruct Hend as [[_ Hno]|[]].
    destruct (submit_cases now req j) as [(e & ->)|[(id' & _ & ->)|(kind & ? & _ & ? & ->)]];
      simpl; [done..|].
    assert (Hne : numbered_id kind (next_id j) ≠ id).
    { intros <-. rewrite fresh_id in Hj; [by destruct Hj|done|lia]. }
    split; simpl; [by rewrite lookup_insert_ne|].
    intros k [[_ ?]|[_ ?]]%lookup_insert_Some; [done|by destruct (Hno k)].
  - destruct Hend as [[_ Hno]|[]]. rewrite cancel_state, update_job_state.
    destruct (jobs j !! id') as [job|] eqn:Hj'; [|done]. split; simpl; [|done].
    destruct (decide (id' = id)) as [->|]; [by rewrite lookup_insert_eq|by rewrite lookup_insert_ne].
  - unfold succeed. rewrite end_job_state. destruct (jobs j !! id') as [job|] eqn:Hj'.
    + by apply Hended.
    + destruct Hend as [| ->]; [done|]. rewrite Hj' in Hj. by destruct Hj.
  - unfold journal_fail. rewrite end_job_state. destruct (jobs j !! id') as [job|] eqn:Hj'.
    + by apply Hended.
    + destruct Hend as [| ->]; [done|]. rewrite Hj' in Hj. by destruct Hj.
Qed.

Lemma job_kept j op id : is_Some (jobs j !! id) → is_Some (jobs (journal_step j op) !! id).
Proof.
  intros Hj. assert (Hins : ∀ id' (job : ManagerJob), is_Some (<[id' := job]> (jobs j) !! id)).
  { intros id' job. destruct (decide (id' = id)) as [->|];
      [by rewrite lookup_insert_eq|by rewrite lookup_insert_ne]. }
  destruct op as [now req|now id'|now id'|now id' error]; simpl.
  - destruct (submit_cases now req j) as [(e & ->)|[(id' & _ & ->)|(kind & ? & _ & ? & ->)]];
      simpl; eauto.
  - rewrite cancel_state, update_job_state. destruct (jobs j !! id'); simpl; eauto.
  - unfold succeed. rewrite end_job_state. destruct (jobs j !! id'); simpl; eauto.
  - unfold journal_fail. rewrite end_job_state. destruct (jobs j !! id'); simpl; eauto.
Qed.

(** A submission that succeeded leaves its key leading to its job. *)
Lemma submitted now req j id j' :
  journal_inv j → submit now req j = (Ok id, j') →
  running_by_key j' !! payload_key req = Some id ∧ is_Some (jobs j' !! id).
Proof.
  intros Hinv Hs.
  destruct (submit_cases now req j) as [(e & Heq)|[(id' & Hk & Heq)|(kind & Hk & _ & _ & Heq)]];
    rewrite Heq in Hs; simplify_eq/=.
  - split; [done|]. destruct (inv_keys j' Hinv _ _ Hk) as (job & -> & _). eauto.
  - by rewrite !lookup_insert_eq.
Qed.

Lemma steps_ended ops j id :
  journal_inv j → 0 ≤ next_id j → next_id j + length ops ≤ u64_max →
  is_Some (jobs j !! id) → ended id j ∨ Exists (ends_job id) ops →
  ended id (foldl journal_step j ops).
Proof.
  revert j. induction ops as [|op ops IH]; intros j Hinv Hn Hlen Hj Hor; simpl in *.
  { destruct Hor as [|Hex]; [done|]. by apply Exists_nil in Hex. }
  destruct (inv_journal_step j op Hinv) as [Hinv' Hn']; [lia|].
  apply IH; [done|lia|lia|by apply job_kept|].
  destruct Hor as [?|Hex]; [left; apply ended_step; auto; lia|].
  apply Exists_cons in Hex as [?|?]; [left; apply ended_step; auto; lia|by right].
Qed.

Lemma steps_kept ops j k id :
  running_by_key j !! k = Some id → ¬ Exists (ends_job id) ops →
  running_by_key (foldl journal_step j ops) !! k = Some id.
Proof.
  revert j. induction ops as [|op ops IH]; intros j Hk Hno; [done|]. simpl.
  rewrite Exists_cons in Hno. apply IH; [apply key_kept; tauto|tauto].
Qed.

(** Two submissions of the same work get the same job exactly as long as the job
    of the first has not ended: whatever is submitted, cancelled or finished in
    between, the second submission under a payload key returns the id of the first
    if nothing ended that job, and otherwise an id that was never used for it. *)
Lemma same_work_same_job ops1 now1 req1 id1 j1 ops2 now2 req2 id2 j2 :
  Z.of_nat (length ops1 + length ops2) + 1 < u64_max →
  submit now1 req1 (journal_run ops1) = (Ok id1, j1) →
  submit now2 req2 (foldl journal_step j1 ops2) = (Ok id2, j2) →
  payload_key req2 = payload_key req1 →
  id2 = id1 ↔ ¬ Exists (ends_job id1) ops2.
Proof.
  intros Hlen Hs1 Hs2 Hkey. destruct (inv_journal_run ops1) as [Hinv Hn]; [lia|].
  destruct (submitted _ _ _ _ _ Hinv Hs1) as [Hk Hj].
  pose proof (inv_journal_step _ (Submit now1 req1) Hinv) as Hstep. simpl in Hstep.
  rewrite Hs1 in Hstep. simpl in Hstep. destruct Hstep as [Hinv1 Hn1]; [lia|].
  split.
  - intros -> Hex.
    assert (Hend : ended id1 (foldl journal_step j1 ops2)) by (apply steps_ended; auto; lia).
    destruct (inv_journal_steps ops2 j1) as [Hinv2 Hn2]; [done|lia|lia|].
    pose proof (ended_step _ (Submit now2 req2) id1 Hinv2) as Hafter. simpl in Hafter.
    rewrite Hs2 in Hafter. simpl in Hafter.
    destruct Hafter as [_ Hno]; [lia|apply Hend|by left|].
    by destruct (Hno _ (proj1 (submitted _ _ _ _ _ Hinv2 Hs2))).
  - intros Hno. pose proof (steps_kept ops2 j1 _ _ Hk Hno) as Hk2. rewrite <-Hkey in Hk2.
    destruct (submit_cases now2 req2 (foldl journal_step j1 ops2))
      as [(e & Heq)|[(id' & Hk' & Heq)|(kind & Hk' & _ & _ & Heq)]]; congruence.
Qed.

(** At any time at most one activation is under way: of the jobs that have not
    ended, at most one is an activation, every job that is running is one of them, and
    an activation is only created with a generation and a lease. *)
Lemma one_activation_at_a_time ops :
  Z.of_nat (length ops) ≤ u64_max →
  let j := journal_run ops in
  (∀ id job, jobs j !! id = Some job → job_phase job = JobPhase.Running →
     ∃ k, running_by_key j !! k = Some id)
  ∧ (∀ k k' id id' job job',
       running_by_key j !! k = Some id → running_by_key j !! k' = Some id' →
       jobs j !! id = Some job → jobs j !! id' = Some job' →
       job_kind job = JobKind.Activate → job_kind job' = JobKind.Activate → id = id')
  ∧ (∀ now req id j', submit_kind req = str "activate" → submit now req j = (Ok id, j') →
       expected_generation req ≠ 0 ∧ ∃ lease, runtime_lease req = Some lease ∧ lease ≠ []).
Proof.
  intros Hlen j. destruct (inv_journal_run ops Hlen) as [Hinv _].
  split; [apply (inv_running j Hinv)|split; [apply (inv_activation j Hinv)|]].
  intros now req id j' Hk. unfold submit. rewrite Hk. unfold_method. simpl.
  destruct (Z.eqb_spec (expected_generation req) 0) as [|Hg]; [done|]. simpl.
  destruct (runtime_lease req) as [lease|]; [|done]. simpl.
  case_bool_decide; [done|]. eauto.
Qed.

(** A cancellation revives a job that has ended: a finished activation that is
    cancelled counts as running, and every later activation is refused. *)
Lemma cancel_revives_finished_activation j id job now now' req :
  jobs j !! id = Some job → job_kind job = JobKind.Activate →
  job_phase job = JobPhase.Succeeded →
  submit_kind req = str "activate" → expected_generation req ≠ 0 →
  default [] (runtime_lease req) ≠ [] →
  let j' := snd (api_cancel now id j) in
  job_phase <$> jobs j' !! id = Some JobPhase.Cancelling
  ∧ submit now' req j'
    = (Err (ManagerApiError.Conflict (str "an activation job is already running")), j').
Proof.
  intros Hj Ha _ Hk Hg Hl j'. subst j'. rewrite cancel_state, update_job_state, Hj. simpl.
  split; [by rewrite lookup_insert_eq|].
  set (j' := mkJournal _ _ _). assert (Hrun : has_running JobKind.Activate j' = true).
  { apply has_running_spec. exists id, (job_request_cancel now job). simpl.
    by rewrite lookup_insert_eq. }
  unfold submit. rewrite Hk. unfold_method. simpl.
  rewrite (proj2 (Z.eqb_neq _ _) Hg), bool_decide_false by done. simpl. by rewrite Hrun.
Qed.

(** The key of a job does not include its kind: a submission under the key of an
    unfinished job of another kind is answered with that job. *)
Lemma other_kind_same_key now req j id :
  running_by_key j !! payload_key req = Some id →
  parse_kind (submit_kind req) = Some JobKind.Verify → submit now req j = (Ok id, j).
Proof. intros Hk Hv. unfold submit, enqueue, map_error. rewrite Hv. unfold_method. simpl. by rewrite Hk. Qed.

(** The status lists every job once, in the order of the ids. *)
Lemma status_lists_all j active :
  status_jobs (status j active) ≡ₚ map dto_of (map_to_list (jobs j)).*2
  ∧ Sorted id_le (all j).
Proof.
  split.
  - simpl. apply Permutation_map, merge_sort_Permutation.
  - apply Sorted_merge_sort. intros a b. apply lex_leb_total.
Qed.

(** ** Witnesses *)

Definition demo_submit (kind : string) : JobSubmitRequest :=
  mkSubmit (str kind) (str "model-1") 3 (Some (str "lease-7")).

Lemma same_work_same_job_witness :
  str "download-0" = str "download-0"
  ↔ ¬ Exists (ends_job (str "download-0")) [Cancel 6 (str "download-0")].
Proof.
  eapply (same_work_same_job [] 5 (demo_submit "download") _ _ _ 7 (demo_submit "verify"));
    [simpl; unfold u64_max; lia|vm_compute; reflexivity..].
Defined.

Lemma one_activation_at_a_time_witness :
  let j := journal_run [Submit 5 (demo_submit "activate")] in
  expected_generation (demo_submit "activate") ≠ 0
  ∧ ∃ lease, runtime_lease (demo_submit "activate") = Some lease ∧ lease ≠ [].
Proof.
  pose proof (one_activation_at_a_time []) as H. simpl in H.
  destruct H as (_ & _ & H); [unfold u64_max; lia|].
  eapply (H 5 (demo_submit "activate")); vm_compute; reflexivity.
Defined.
