(* ===== verification/Download.v ===== *)
(** * Downloads: [src/src/manager/download.rs]

    A download that resumes: the part file on a disk whose calls may fail, the
    exchanges with the server, the checks of redirects and ranges.  The transport
    (trait [HttpTransport]) and the cancel flag are an interface, whose answers depend
    on the exchanges made so far; SHA-256 is a parameter.  The loop has fuel, [None] is
    fuel exhausted. *)

From S2P Require Import Prelude Bytes Auth Disk.

Local Open Scope rust_scope.

(** src/src/manager/download.rs:22-43 (DownloadSpec) *)
Record DownloadSpec := mkSpec {
  spec_url : bytes;
  spec_size : Z;
  spec_sha256 : bytes;
  redirect_allowlist : list bytes;
  credentials : option bytes }.

(** src/src/manager/download.rs:47-55 (DownloadSpec::new) *)
Definition spec_new (url : bytes) (expected_size : Z) (sha : bytes) : DownloadSpec :=
  mkSpec url expected_size sha [] None.

(** src/src/manager/download.rs:59-71 (HttpResponse) *)
Record HttpResponse := mkHttp {
  http_status : Z;
  http_etag : option bytes;
  content_range : option bytes;
  final_url : bytes;
  http_body : bytes }.

Module HttpError.

(** src/src/manager/download.rs:74-91 (HttpError) *)
Inductive HttpError := Transport (message : bytes) | InvalidResponse (message : bytes).

Definition to_string (e : HttpError) : bytes :=
  match e with
  | Transport m => str "transport: " ++ m
  | InvalidResponse m => str "invalid response: " ++ m
  end.

End HttpError.
Notation HttpError := HttpError.HttpError.

Module DownloadError.

(** The texts of system errors are left out.
    src/src/manager/download.rs:105-123 (DownloadError) *)
Inductive DownloadError :=
| RangeMismatch (message : bytes)
| Incomplete (message : bytes)
| RedirectRejected (message : bytes)
| CredentialLeak (message : bytes)
| WriteFailed (error : IoError)
| Canceled
| DigestMismatch (message : bytes)
| Other (message : bytes).

End DownloadError.
Notation DownloadError := DownloadError.DownloadError.

(** src/src/manager/download.rs:143-151 (DownloadProgress) *)
Record DownloadProgress := mkProgress {
  expected_size : Z;
  downloaded : Z;
  progress_etag : option bytes }.

(** [checked_mul] and [checked_add] of [u64]. *)
Definition checked (x : Z) : option Z := if x <=? u64_max then Some x else None.

(** src/src/manager/download.rs:188-205 (check_capacity) *)
Definition check_capacity (available size concurrency headroom : Z)
    : result unit DownloadError :=
  let needed := default u64_max (v ← checked (size * concurrency); checked (v + headroom)) in
  if available <? needed
  then Err (DownloadError.Other (str "capacity: need " ++ u64_to_string needed
              ++ str " bytes, have " ++ u64_to_string available))
  else Ok tt.

(** [str::split] at a byte, and [join]. *)
Fixpoint split_at (sep : Z) (l : bytes) : list bytes :=
  match l with
  | [] => [[]]
  | b :: l =>
      if b =? sep then [] :: split_at sep l
      else match split_at sep l with
           | x :: xs => (b :: x) :: xs
           | [] => [[b]]
           end
  end.

Fixpoint join_with (sep : Z) (ls : list bytes) : bytes :=
  match ls with
  | [] => []
  | [x] => x
  | x :: ls => x ++ sep :: join_with sep ls
  end.

Definition slash : Z := 47.

(** The closure [origin] of [validate_redirect]: scheme and authority.
    src/src/manager/download.rs:210-210 (origin) *)
Definition origin (u : bytes) : bytes := join_with slash (take 3 (split_at slash u)).

(** src/src/manager/download.rs:208-233 (validate_redirect) *)
Definition validate_redirect (spec : DownloadSpec) (final : bytes) : result unit DownloadError :=
  let same_origin := bool_decide (origin (spec_url spec) = origin final) in
  let allowed := existsb (fun a => bool_decide (origin a = origin final)) (redirect_allowlist spec) in
  if negb same_origin && negb allowed
  then Err (DownloadError.RedirectRejected
              (str "redirect to " ++ final ++ str " not in allowlist"))
  else if negb same_origin && is_some (credentials spec)
  then Err (DownloadError.CredentialLeak (str "credentials would be forwarded to " ++ final))
  else Ok tt.

(** ** The loop *)

(** A request to the server and its answer. *)
Record exchange := mkExchange {
  asked_start : Z;
  asked_etag : option bytes;
  answer : result HttpResponse HttpError }.

(** The trait [HttpTransport] and the cancel flag. *)
Class Download := {
  get_range : list exchange → DownloadSpec → Z → option bytes → result HttpResponse HttpError;
  cancel_load : list exchange → bool }.

Record Session := mkSession { part_disk : Disk; exchanges : list exchange }.

Notation session A := (method Session DownloadError A).

(** A file system call; its error becomes [WriteFailed]. *)
Definition on_part {A} (m : io A) : session A :=
  on_field part_disk (fun d s => mkSession d (exchanges s))
    (map_error DownloadError.WriteFailed m).

(** [fs::write]: create or truncate, then write. *)
Definition write_part (name b : bytes) : io unit :=
  f ← create_file name; write_all f b.

(** [fs::metadata(..).ok().map(|m| m.len())]. *)
Definition part_length (name : bytes) : session (option Z) :=
  r ← attempt (on_part (read_file name));
  mret match r with Ok b => Some (Z.of_nat (length b)) | Err _ => None end.

(** src/src/manager/download.rs:375-385 (append_bytes) *)
Definition append_part (name b : bytes) : session unit :=
  on_part (f ← open_or_create name; write_all f b).

Section download.
Context `{Crypto, Download} (spec : DownloadSpec) (part : bytes).

(** src/src/manager/registry.rs:367-373 (sha256_hex) *)
Definition sha256_hex (b : bytes) : bytes := encode_lower_hex (sha256 b).

Definition digest_mismatch (digest : bytes) : DownloadError :=
  DownloadError.DigestMismatch (str "expected " ++ spec_sha256 spec ++ str " got " ++ digest).

(** The check of the complete file.
    src/src/manager/download.rs:362-371 (download_bounded) *)
Definition check_digest (p : DownloadProgress) : session DownloadProgress :=
  b ← on_part (read_file part);
  require (bool_decide (sha256_hex b = spec_sha256 spec)) (digest_mismatch (sha256_hex b));;
  mret p.

(** [cancel.load]. *)
Definition check_cancel : session unit :=
  s ← self; require (negb (cancel_load (exchanges s))) DownloadError.Canceled.

Definition request (start : Z) (etag : option bytes) : session HttpResponse := fun s =>
  let r := get_range (exchanges s) spec start etag in
  (map_err (fun e => DownloadError.Other (HttpError.to_string e)) r,
   mkSession (part_disk s) (exchanges s ++ [mkExchange start etag r])).

(** What the loop does next. *)
Inductive verdict := Finished (p : DownloadProgress) | Completed (p : DownloadProgress)
  | Again (p : DownloadProgress).

(** After the part was written: [break] when the expected size is reached. *)
Definition continue_with (p : DownloadProgress) : verdict :=
  if spec_size spec <=? downloaded p then Completed p else Again p.

(** src/src/manager/download.rs:294-307 (download_bounded) *)
Definition on_416 (p : DownloadProgress) : session verdict :=
  let incomplete := DownloadError.Incomplete (str "416 without valid completed part") in
  require (downloaded p =? spec_size spec) incomplete;;
  b ← on_part (read_file part);
  require (bool_decide (sha256_hex b = spec_sha256 spec)) incomplete;;
  mret (Finished p).

(** src/src/manager/download.rs:309-321 (download_bounded) *)
Definition on_200 (p : DownloadProgress) (resp : HttpResponse) : session verdict :=
  on_part (write_part part (http_body resp));;
  mret (continue_with (mkProgress (expected_size p) (Z.of_nat (length (http_body resp)))
                         (http_etag resp))).

(** src/src/manager/download.rs:323-354 (download_bounded) *)
Definition on_206 (p : DownloadProgress) (start : Z) (resp : HttpResponse) : session verdict :=
  let cr := default [] (content_range resp) in
  let prefix := str "bytes " ++ u64_to_string start ++ str "-" in
  require (starts_with prefix cr)
    (DownloadError.RangeMismatch (str "expected prefix " ++ prefix ++ str ", got " ++ cr));;
  match http_etag resp, progress_etag p with
  | Some new, Some old =>
      if negb (bool_decide (new = old)) then
        on_part (write_part part (http_body resp));;
        mret (Again (mkProgress (expected_size p) (Z.of_nat (length (http_body resp)))
                       (http_etag resp)))
      else
        append_part part (http_body resp);;
        mret (continue_with (mkProgress (expected_size p)
          (wrap64 (downloaded p + Z.of_nat (length (http_body resp)))) (http_etag resp)))
  | _, _ =>
      append_part part (http_body resp);;
      mret (continue_with (mkProgress (expected_size p)
        (wrap64 (downloaded p + Z.of_nat (length (http_body resp)))) (http_etag resp)))
  end.

(** One turn of the loop; the next request starts at the size of the part.
    src/src/manager/download.rs:284-359 (download_bounded) *)
Definition turn (p : DownloadProgress) : session verdict :=
  let start := downloaded p in
  check_cancel;;
  resp ← request start (progress_etag p);
  lift (validate_redirect spec (final_url resp));;
  if http_status resp =? 416 then on_416 p
  else if http_status resp =? 200 then on_200 p resp
  else if http_status resp =? 206 then on_206 p start resp
  else fail (DownloadError.Other (str "unexpected status " ++ u64_to_string (http_status resp))).

(** src/src/manager/download.rs:283-360 (download_bounded) *)
Fixpoint download_loop (fuel : nat) (p : DownloadProgress) : session (option DownloadProgress) :=
  match fuel with
  | O => mret None
  | S fuel =>
      v ← turn p;
      match v with
      | Finished p => mret (Some p)
      | Completed p => q ← check_digest p; mret (Some q)
      | Again p => download_loop fuel p
      end
  end.

(** src/src/manager/download.rs:245-372 (download_bounded) *)
Definition download_bounded (fuel : nat) (resume_etag : option bytes)
    : session (option DownloadProgress) :=
  check_cancel;;
  existing ← part_length part;
  let p := mkProgress (spec_size spec) (default 0 existing) resume_etag in
  if (downloaded p =? spec_size spec) && (0 <? downloaded p)
  then q ← check_digest p; mret (Some q)
  else download_loop fuel p.

End download.

(** ** The journal of a download *)

(** serde's codec of the progress. *)
Class ProgressCodec := {
  encode_progress : DownloadProgress → bytes;
  decode_progress : bytes → option DownloadProgress }.

(** A write to a temporary file, and its renaming; permissions are set on the way, and
    a failure to set them is ignored. *)
Definition replace_by_rename (name tmp b : bytes) : io unit :=
  create_dir_all;;
  attempt (F := IoError) (set_permissions 0);;
  write_part tmp b;;
  rename tmp name;;
  attempt (F := IoError) (set_permissions 0);;
  mret tt.

(** src/src/manager/download.rs:156-175 (save_journal) *)
Definition save_journal `{ProgressCodec} (id : bytes) (p : DownloadProgress) : io unit :=
  replace_by_rename (id ++ str ".journal") (id ++ str ".journal.tmp") (encode_progress p).

(** src/src/manager/download.rs:178-182 (load_journal) *)
Definition load_journal `{ProgressCodec} (id : bytes) : io (option DownloadProgress) :=
  r ← attempt (read_file (id ++ str ".journal"));
  mret match r with Ok b => decode_progress b | Err _ => None end.

(** ** The disk during a download *)

(** Every name has a file of its own. *)
Definition separate (d : Disk) : Prop :=
  (∀ n i, entries d !! n = Some i → is_Some (inodes d !! i))
  ∧ ∀ n n' i, entries d !! n = Some i → entries d !! n' = Some i → n = n'.

(** [d'] differs from [d] in the file [part] only. *)
Definition touched (part : bytes) (d d' : Disk) : Prop :=
  separate d' ∧ (∀ n, n ≠ part → file_content n d' = file_content n d)
  ∧ (script d = [] → script d' = []).

Global Instance touched_trans part : Transitive (touched part).
Proof.
  intros d1 d2 d3 (_ & H12 & Hs1) (Hw & H23 & Hs2). split; [done|]. split; [|auto].
  intros n Hn. by rewrite H23, H12.
Qed.

Lemma touched_next part d : separate d → touched part d (next_fault d).
Proof. intros Hd. split; [done|]. split; [done|]. simpl. by intros ->. Qed.

Lemma separate_inode d i n : separate d → separate (set_inode i n d).
Proof.
  intros [Hd Hinj]. split; [|done]. intros name j Hj. simpl.
  destruct (decide (i = j)) as [->|]; [by rewrite lookup_insert_eq|].
  rewrite lookup_insert_ne by done. by eapply Hd.
Qed.

Lemma content_set_inode d part i n name :
  separate d → entries d !! part = Some i →
  file_content name (set_inode i n d)
  = if decide (name = part) then Some (content n) else file_content name d.
Proof.
  intros [_ Hinj] Hi. unfold file_content. simpl. destruct (decide (name = part)) as [->|Hne].
  - rewrite Hi. simpl. by rewrite lookup_insert_eq.
  - destruct (entries d !! name) as [j|] eqn:Hj; [|done]. simpl.
    rewrite lookup_insert_ne; [done|]. intros <-. destruct Hne. by eapply Hinj.
Qed.

Lemma touched_set_inode part d i n :
  separate d → entries d !! part = Some i → touched part d (set_inode i n d).
Proof.
  intros Hd Hi. split; [by apply separate_inode|]. split; [|done].
  intros name Hn. rewrite (content_set_inode d part) by done. by rewrite decide_False.
Qed.

(** A new empty file. *)
Lemma touched_create part d :
  separate d → entries d !! part = None →
  let i := fresh (dom (inodes d)) in
  let d' := set_entries (<[part := i]> (entries d)) (set_inode i {| content := []; synced := false |} d) in
  touched part d d' ∧ entries d' !! part = Some i ∧ file_content part d' = Some [].
Proof.
  intros [Hd Hinj] Hp i d'.
  assert (Hfresh : ∀ n j, entries d !! n = Some j → j ≠ i).
  { intros n j Hj ->. apply (is_fresh (dom (inodes d))). apply elem_of_dom. by eapply Hd. }
  split_and!.
  - split_and!; [split|..|done].
    + intros n j. simpl. intros [[<- <-]|[_ Hj]]%lookup_insert_Some; [by rewrite lookup_insert_eq|].
      rewrite lookup_insert_ne by (symmetry; by eapply Hfresh). by eapply Hd.
    + intros n n' j. simpl. intros [[<- <-]|[_ Hj]]%lookup_insert_Some
        [[<- Heq]|[_ Hj']]%lookup_insert_Some; [done|..|by eapply Hinj].
      * by destruct (Hfresh _ _ Hj').
      * subst. by destruct (Hfresh _ _ Hj).
    + intros n Hn. unfold file_content. simpl. rewrite lookup_insert_ne by done.
      destruct (entries d !! n) as [j|] eqn:Hj; [|done]. simpl.
      rewrite lookup_insert_ne; [done|]. symmetry. by eapply Hfresh.
  - simpl. by rewrite lookup_insert_eq.
  - unfold file_content. simpl. rewrite lookup_insert_eq. simpl. by rewrite lookup_insert_eq.
Qed.

(** The file [part] is open as inode [i] with contents [b]. *)
Definition opened (part : bytes) (d : Disk) (b : bytes) (i : nat) (d' : Disk) : Prop :=
  touched part d d' ∧ entries d' !! part = Some i ∧ file_content part d' = Some b.

Definition io_failed (part : bytes) (d d' : Disk) : Prop := touched part d d' ∧ script d ≠ [].

Lemma wp_syscall_quiet {A} on_failure (m : io A) Q X d :
  (script d ≠ [] → ∀ n, X IoError.Failed (on_failure n (next_fault d))) →
  (script d ≠ [] → X IoError.Stopped (next_fault d)) →
  wp m Q X (next_fault d) → wp (syscall on_failure m) Q X d.
Proof. unfold wp, syscall. destruct (script d) as [|[] ?]; simpl; auto. Qed.

Lemma wp_create_part part d :
  separate d → wp (create_file part) (opened part d []) (fun _ => io_failed part d) d.
Proof.
  intros Hd. pose proof (touched_next part d Hd) as Hn.
  apply wp_syscall_quiet; [done..|]. apply wp_bind, wp_self. simpl.
  destruct (entries d !! part) as [i|] eqn:Hi; apply wp_bind, wp_modify, wp_ret.
  - split_and!.
    + etransitivity; [exact Hn|]. by apply touched_set_inode.
    + done.
    + rewrite (content_set_inode _ part) by done. by rewrite decide_True.
  - destruct (touched_create part (next_fault d)) as (? & ? & ?); [done..|].
    split_and!; [|done..]. by etransitivity.
Qed.

Lemma wp_open_part part d :
  separate d →
  wp (open_or_create part) (opened part d (default [] (file_content part d)))
    (fun _ => io_failed part d) d.
Proof.
  intros Hd. pose proof (touched_next part d Hd) as Hn.
  apply wp_syscall_quiet; [done..|]. apply wp_bind, wp_self. simpl.
  destruct (entries d !! part) as [i|] eqn:Hi.
  - apply wp_ret. split_and!; [done..|]. unfold file_content. simpl. rewrite Hi. simpl.
    destruct Hd as [Hd _]. destruct (Hd _ _ Hi) as [n ->]. done.
  - apply wp_bind, wp_modify, wp_ret.
    destruct (touched_create part (next_fault d)) as (? & ? & Hc); [done..|].
    unfold file_content at 1. rewrite Hi. split_and!; [|done..]. by etransitivity.
Qed.

Lemma opened_append part d b i d1 c :
  opened part d b i d1 → opened part d (b ++ c) i (append_bytes i c d1).
Proof.
  intros (Ht & He & Hc). unfold append_bytes. unfold file_content in Hc. rewrite He in Hc.
  simpl in Hc. destruct (inodes d1 !! i) as [n|]; [|done]. simpl in Hc. injection Hc as <-.
  assert (Hs : separate d1) by apply Ht. split_and!; [|done|].
  - etransitivity; [exact Ht|]. by apply touched_set_inode.
  - rewrite (content_set_inode _ part) by done. by rewrite decide_True.
Qed.

Lemma wp_write_opened part d b i d1 c :
  opened part d b i d1 →
  wp (write_all i c)
    (fun _ d' => touched part d d' ∧ file_content part d' = Some (b ++ c))
    (fun _ d' => touched part d d' ∧ script d1 ≠ []) d1.
Proof.
  intros Ho. assert (Hn : opened part d b i (next_fault d1)).
  { destruct Ho as (Ht & He & Hc). split_and!; [|done..]. etransitivity; [exact Ht|].
    apply touched_next, Ht. }
  apply wp_syscall_quiet.
  - intros Hs n. split; [|done]. by eapply opened_append.
  - intros Hs. split; [apply Hn|done].
  - apply wp_modify. eapply (opened_append part d b i _ c) in Hn. split; apply Hn.
Qed.

Lemma wp_write_part part d b :
  separate d →
  wp (write_part part b) (fun _ d' => touched part d d' ∧ file_content part d' = Some b)
    (fun _ => io_failed part d) d.
Proof.
  intros Hd. apply wp_bind. wp_use wp_create_part; [done| |done]. intros i d1 Ho.
  wp_use wp_write_opened; [exact Ho|done|]. intros _ d' [Ht Hs]. split; [done|].
  intros Hd0. destruct Hs. by apply Ho.
Qed.

Lemma wp_append_io part d b :
  separate d →
  wp (f ← open_or_create part; write_all f b)
    (fun _ d' => touched part d d'
                 ∧ file_content part d' = Some (default [] (file_content part d) ++ b))
    (fun _ => io_failed part d) d.
Proof.
  intros Hd. apply wp_bind. wp_use wp_open_part; [done| |done]. intros i d1 Ho.
  wp_use wp_write_opened; [exact Ho|done|]. intros _ d' [Ht Hs]. split; [done|].
  intros Hd0. destruct Hs. by apply Ho.
Qed.

Lemma wp_read_part part d :
  separate d →
  wp (read_file part) (fun b d' => d' = next_fault d ∧ file_content part d = Some b)
    (fun _ d' => d' = next_fault d ∧ (script d ≠ [] ∨ file_content part d = None)) d.
Proof.
  intros Hd. apply wp_syscall_quiet; [auto..|]. apply wp_bind, wp_self. unfold file_content. simpl.
  destruct (entries d !! part ≫= _) as [n|] eqn:Hn; simpl.
  - by apply wp_ret.
  - apply wp_fail. auto.
Qed.

Lemma content_rename d name tmp i b :
  separate d → entries d !! tmp = Some i → tmp ≠ name → file_content tmp d = Some b →
  file_content name (set_entries (<[name := i]> (delete tmp (entries d))) d) = Some b.
Proof.
  intros _ Hi Hne. unfold file_content. simpl. rewrite Hi, lookup_insert_eq. done.
Qed.

Lemma wp_quiet {A} (m : io A) (a : A) (Q : A → Disk → Prop) X d :
  (∀ d, m d = (Ok a, d)) → script d = [] → Q a (next_fault d) →
  wp (syscall (fun _ d => d) m) Q X d.
Proof. intros Hm Hd HQ. apply wp_syscall_quiet; [done..|]. unfold wp. by rewrite Hm. Qed.

(** When no call fails, the file replaced has the new contents. *)
Lemma wp_replace_by_rename name tmp b d :
  separate d → script d = [] → tmp ≠ name →
  wp (replace_by_rename name tmp b) (fun _ d' => file_content name d' = Some b ∧ script d' = [])
    (fun _ _ => False) d.
Proof.
  intros Hd Hq Hne. assert (Hn : ∀ d, script d = [] → script (next_fault d) = []) by by intros ? E; simpl; rewrite E.
  apply wp_bind. eapply wp_quiet; [done..|]. apply wp_bind, wp_attempt. eapply wp_quiet; [done|by apply Hn|].
  apply wp_bind. wp_use wp_write_part; [done| |intros e d' [_ Hs]; destruct Hs; by apply Hn, Hn].
  intros _ d1 [(Hsep & _ & Hscr) Hc]. assert (Hq1 : script d1 = []) by (by apply Hscr, Hn, Hn).
  apply wp_bind, wp_syscall_quiet; [by rewrite Hq1..|]. apply wp_bind, wp_self. simpl.
  destruct (entries d1 !! tmp) as [i|] eqn:Hi.
  - apply wp_modify, wp_bind, wp_attempt. eapply wp_quiet; [done|simpl; by rewrite Hq1|].
    apply wp_ret. split; [|simpl; by rewrite Hq1]. by apply (content_rename (next_fault d1)).
  - exfalso. unfold file_content in Hc. by rewrite Hi in Hc.
Qed.

(** Progress that was saved is loaded again. *)
Lemma progress_roundtrip `{ProgressCodec} id p d :
  (∀ p, decode_progress (encode_progress p) = Some p) → separate d → script d = [] →
  fst ((save_journal id p;; load_journal id) d) = Ok (Some p).
Proof.
  intros Hcodec Hd Hq.
  enough (Hwp : wp (save_journal id p;; load_journal id) (fun o _ => o = Some p) (fun _ _ => False) d)
    by (unfold wp in Hwp; repeat case_match; naive_solver).
  apply wp_bind. wp_use wp_replace_by_rename; [done|done| | |done].
  - intros Heq%(f_equal length). rewrite !length_app in Heq. simpl in Heq. lia.
  - intros _ d' [Hc Hq']. apply wp_bind, wp_attempt, wp_syscall_quiet; [by rewrite Hq'..|].
    apply wp_bind, wp_self. unfold file_content in Hc. simpl.
    destruct (entries d' !! _) as [i|]; simpl in *; [|done].
    destruct (inodes d' !! i) as [n|]; simpl in *; [|done]. injection Hc as ->.
    apply wp_ret, wp_ret. apply Hcodec.
Qed.

(** ** What a download guarantees *)

Section guarantees.
Context `{Crypto, Download} (spec : DownloadSpec) (part : bytes).

(** A response that may be used: from the origin of the request, or, when there are no
    credentials to leak, from an origin of the allowlist. *)
Definition acceptable (resp : HttpResponse) : Prop :=
  origin (spec_url spec) = origin (final_url resp)
  ∨ (Exists (fun a => origin a = origin (final_url resp)) (redirect_allowlist spec)
     ∧ credentials spec = None).

Definition accepted_exchange (x : exchange) : Prop := ∃ resp, answer x = Ok resp ∧ acceptable resp.

Lemma validate_redirect_ok resp u :
  validate_redirect spec (final_url resp) = Ok u → acceptable resp.
Proof.
  unfold validate_redirect, acceptable. case_bool_decide; [by left|]. simpl.
  destruct (existsb _ _) eqn:He; [|done]. simpl. intros Hc. right. split.
  - apply existsb_exists in He as (a & Ha & Hb%bool_decide_eq_true).
    apply Exists_exists. exists a. by rewrite list_elem_of_In.
  - by destruct (credentials spec).
Qed.

(** The session went on from [s] to [s']: only the part file was written, and every
    response was acceptable. *)
Definition advanced (s s' : Session) : Prop :=
  touched part (part_disk s) (part_disk s')
  ∧ ∃ new, exchanges s' = exchanges s ++ new ∧ Forall accepted_exchange new.

(** The session failed in [s']: it went on to [s1] and then failed in at most one more
    exchange, which was not acceptable only if it left every file alone. *)
Definition stopped (s s' : Session) : Prop :=
  ∃ s1, advanced s s1 ∧ touched part (part_disk s1) (part_disk s')
  ∧ ∃ last, exchanges s' = exchanges s1 ++ last ∧ (length last ≤ 1)%nat
    ∧ (Forall accepted_exchange last
       ∨ ∀ n, file_content n (part_disk s') = file_content n (part_disk s1)).

(** The part file is the artifact asked for. *)
Definition complete_part (s : Session) : Prop :=
  ∃ b, file_content part (part_disk s) = Some b ∧ sha256_hex b = spec_sha256 spec.

Lemma advanced_separate s s' : advanced s s' → separate (part_disk s').
Proof. intros [Ht _]. apply Ht. Qed.

Lemma advanced_trans s1 s2 s3 : advanced s1 s2 → advanced s2 s3 → advanced s1 s3.
Proof.
  intros (H12 & n1 & He1 & Hf1) (H23 & n2 & He2 & Hf2). split; [by etransitivity|].
  exists (n1 ++ n2). rewrite He2, He1, app_assoc. split; [done|]. by apply Forall_app.
Qed.

Lemma advanced_disk s d : touched part (part_disk s) d → advanced s (mkSession d (exchanges s)).
Proof. intros Ht. split; [done|]. exists []. by rewrite app_nil_r. Qed.

Lemma advanced_stopped s s1 s' : advanced s s1 → stopped s1 s' → stopped s s'.
Proof. intros H1 (s2 & H2 & H3). exists s2. split; [by eapply advanced_trans|done]. Qed.

Lemma stopped_advanced s s' : advanced s s' → stopped s s'.
Proof.
  intros Ha. exists s'. split; [done|]. split; [split; [by eapply advanced_separate|done]|].
  exists []. rewrite app_nil_r. split_and!; [done|simpl; lia|by left].
Qed.

Lemma wp_on_part {A} (m : io A) (Q : A → Session → Prop) X s :
  wp m (fun a d => Q a (mkSession d (exchanges s)))
    (fun e d => X (DownloadError.WriteFailed e) (mkSession d (exchanges s))) (part_disk s) →
  wp (on_part m) Q X s.
Proof. intros Hm. apply wp_on_field, wp_map_error, Hm. Qed.

Lemma advanced_refl s : separate (part_disk s) → advanced s s.
Proof. intros Hd. split; [by split|]. exists []. by rewrite app_nil_r. Qed.

Lemma wp_check_cancel (Q : unit → Session → Prop) X s :
  Q tt s → X DownloadError.Canceled s → wp check_cancel Q X s.
Proof. intros. apply wp_bind, wp_self, wp_require; auto. Qed.

Lemma wp_check_digest p s :
  separate (part_disk s) →
  wp (check_digest spec part p) (fun q s' => advanced s s' ∧ complete_part s' ∧ q = p)
    (fun _ => advanced s) s.
Proof.
  intros Hd. assert (Hn : advanced s (mkSession (next_fault (part_disk s)) (exchanges s)))
    by by apply advanced_disk, touched_next.
  apply wp_bind, wp_on_part. wp_use wp_read_part; [done|..]; [|by intros e d' [-> _]].
  intros b d' [-> Hb]. apply wp_bind, wp_require; intros Hdig; [|done].
  apply wp_ret. split_and!; [done| |done]. exists b. split; [done|]. by bool_to_prop.
Qed.

Lemma wp_on_416 p s :
  separate (part_disk s) →
  wp (on_416 spec part p)
    (fun v s' => advanced s s' ∧ match v with Finished _ => complete_part s' | _ => True end)
    (fun _ => advanced s) s.
Proof.
  intros Hd. assert (Hn : advanced s (mkSession (next_fault (part_disk s)) (exchanges s)))
    by by apply advanced_disk, touched_next.
  apply wp_bind, wp_require; intros _; [|by apply advanced_refl].
  apply wp_bind, wp_on_part. wp_use wp_read_part; [done|..]; [|by intros e d' [-> _]].
  intros b d' [-> Hb]. apply wp_bind, wp_require; intros Hdig; [|done].
  apply wp_ret. split; [done|]. exists b. split; [done|]. by bool_to_prop.
Qed.

Lemma wp_write_then {B} b (x : B) s :
  separate (part_disk s) →
  wp (on_part (write_part part b);; mret x) (fun v s' => advanced s s' ∧ v = x) (fun _ => advanced s) s.
Proof.
  intros Hd. apply wp_bind, wp_on_part. wp_use wp_write_part; [done|..].
  - intros _ d' [Ht _]. apply wp_ret. split; [by apply advanced_disk|done].
  - intros e d' [Ht _]. by apply advanced_disk.
Qed.

Lemma wp_append_then {B} b (x : B) s :
  separate (part_disk s) →
  wp (append_part part b;; mret x) (fun v s' => advanced s s' ∧ v = x) (fun _ => advanced s) s.
Proof.
  intros Hd. apply wp_bind, wp_on_part. wp_use wp_append_io; [done|..].
  - intros _ d' [Ht _]. apply wp_ret. split; [by apply advanced_disk|done].
  - intros e d' [Ht _]. by apply advanced_disk.
Qed.

Lemma continue_not_finished p : match continue_with spec p with Finished _ => False | _ => True end.
Proof. unfold continue_with. by destruct (_ <=? _). Qed.

Lemma wp_on_206 p start resp s :
  separate (part_disk s) →
  wp (on_206 spec part p start resp)
    (fun v s' => advanced s s' ∧ match v with Finished _ => complete_part s' | _ => True end)
    (fun _ => advanced s) s.
Proof.
  intros Hd. apply wp_bind, wp_require; intros _; [|by apply advanced_refl].
  assert (Happ : ∀ q, wp (append_part part (http_body resp);; mret (continue_with spec q))
    (fun v s' => advanced s s' ∧ match v with Finished _ => complete_part s' | _ => True end)
    (fun _ => advanced s) s).
  { intros q. wp_use @wp_append_then; [done| |done]. intros v s' [? ->]. split; [done|].
    pose proof (continue_not_finished q). by destruct (continue_with spec q). }
  destruct (http_etag resp) as [new|], (progress_etag p) as [old|]; try apply Happ.
  destruct (negb _); [|apply Happ].
  wp_use @wp_write_then; [done| |done]. by intros v s' [? ->].
Qed.

Definition turned (s : Session) (v : verdict) (s' : Session) : Prop :=
  advanced s s' ∧ match v with Finished _ => complete_part s' | _ => True end.

Lemma wp_turn p s :
  separate (part_disk s) → wp (turn spec part p) (turned s) (fun _ => stopped s) s.
Proof.
  intros Hd. pose proof (advanced_refl s Hd) as Hr.
  apply wp_bind, wp_check_cancel; [|by apply stopped_advanced].
  apply wp_bind. unfold wp at 1, request. set (r := get_range _ _ _ _).
  set (s1 := mkSession _ _). destruct r as [resp|e] eqn:Hresp; simpl.
  2: { exists s. split; [done|]. split; [by split|]. eexists. split_and!; [done|simpl; lia|by right]. }
  apply wp_bind, wp_lift. destruct (validate_redirect spec (final_url resp)) as [[]|e] eqn:Hv.
  2: { exists s. split; [done|]. split; [by split|]. eexists. split_and!; [done|simpl; lia|by right]. }
  apply validate_redirect_ok in Hv.
  assert (H1 : advanced s s1).
  { split; [by split|]. eexists. split; [done|]. apply Forall_singleton. by exists resp. }
  assert (Hok : ∀ v s', advanced s1 s' ∧ match v with Finished _ => complete_part s' | _ => True end →
    turned s v s') by (intros v s' [? ?]; split; [by eapply advanced_trans|done]).
  assert (Herr : ∀ (e : DownloadError) s', advanced s1 s' → stopped s s')
    by (intros e s' ?; by eapply advanced_stopped, stopped_advanced).
  destruct (http_status resp =? 416); [|destruct (http_status resp =? 200);
    [|destruct (http_status resp =? 206)]].
  - by wp_use wp_on_416.
  - wp_use @wp_write_then; [done| |done]. intros v s' [? ->]. apply Hok. split; [done|].
    set (q := mkProgress _ _ _). pose proof (continue_not_finished q).
    by destruct (continue_with spec q).
  - by wp_use wp_on_206.
  - apply wp_fail. by apply stopped_advanced.
Qed.

Definition ended_well (s : Session) (o : option DownloadProgress) (s' : Session) : Prop :=
  advanced s s' ∧ match o with Some _ => complete_part s' | None => True end.

Lemma wp_check_then p s0 s :
  advanced s0 s →
  wp (q ← check_digest spec part p; mret (Some q)) (ended_well s0) (fun _ => stopped s0) s.
Proof.
  intros Hs0. apply wp_bind. wp_use wp_check_digest; [by eapply advanced_separate|..].
  - intros q s' (H1 & Hc & ->). apply wp_ret. split; [by eapply advanced_trans|done].
  - intros e s' H1. by eapply advanced_stopped, stopped_advanced.
Qed.

Lemma wp_download_loop fuel p s :
  separate (part_disk s) →
  wp (download_loop spec part fuel p) (ended_well s) (fun _ => stopped s) s.
Proof.
  revert p s. induction fuel as [|fuel IH]; intros p s Hd; simpl.
  { apply wp_ret. split; [by apply advanced_refl|done]. }
  apply wp_bind. wp_use wp_turn; [done| |done]. intros v s1 [H1 Hv].
  destruct v as [q|q|q].
  - apply wp_ret. by split.
  - by apply wp_check_then.
  - wp_use IH; [by eapply advanced_separate|..].
    + intros o s' [H2 Ho]. split; [by eapply advanced_trans|done].
    + intros e s' H2. by eapply advanced_stopped.
Qed.

(** C18: whatever the server answers and whichever file system calls fail, a download
    changes no file but its part file and uses no response from a foreign origin,
    unless it is on the allowlist and there are no credentials; bytes of any other
    response never reach the disk; and a download that succeeds leaves a part file
    with the SHA-256 that was asked for. *)
Theorem download_sound fuel resume_etag s :
  separate (part_disk s) →
  let '(r, s') := download_bounded spec part fuel resume_etag s in
  match r with
  | Ok o => advanced s s' ∧ (is_Some o → complete_part s')
  | Err _ => stopped s s'
  end.
Proof.
  intros Hd.
  assert (Hwp : wp (download_bounded spec part fuel resume_etag) (ended_well s) (fun _ => stopped s) s).
  { apply wp_bind, wp_check_cancel; [|by apply stopped_advanced, advanced_refl].
    apply wp_bind. unfold part_length. apply wp_bind, wp_attempt, wp_on_part.
    assert (Hn : advanced s (mkSession (next_fault (part_disk s)) (exchanges s)))
      by by apply advanced_disk, touched_next.
    assert (Hrest : ∀ e, wp (let p := mkProgress (spec_size spec) (default 0 e) resume_etag in
        if (downloaded p =? spec_size spec) && (0 <? downloaded p)
        then q ← check_digest spec part p; mret (Some q)
        else download_loop spec part fuel p)
      (ended_well s) (fun _ => stopped s) (mkSession (next_fault (part_disk s)) (exchanges s))).
    { intros e. simpl. destruct (_ && _); [by apply wp_check_then|].
      wp_use wp_download_loop; [done|..].
      - intros o s' [H2 Ho]. split; [by eapply advanced_trans|done].
      - intros x s' H2. by eapply advanced_stopped. }
    wp_use wp_read_part; [done|..].
    - intros b d' [-> _]. apply wp_ret, Hrest.
    - intros x d' [-> _]. apply wp_ret, Hrest. }
  unfold wp in Hwp. destruct (download_bounded _ _ _ _ _) as [[o|e] s']; [|done].
  destruct Hwp as [? Ho]. split; [done|]. destruct o; [done|by intros []].
Qed.

End guarantees.

(** ** Resuming from an honest server *)

Section resume.
Context `{Crypto, Download} (spec : DownloadSpec) (part file etag : bytes).

(** A server that has the file: it answers a range request inside the file with some
    of the bytes from there on, at least one, always under the same tag. *)
Definition honest_server : Prop :=
  ∀ log (start : nat) asked, (start < length file)%nat →
  ∃ body rest, body ≠ [] ∧ body `prefix_of` drop start file
  ∧ get_range log spec start asked
    = Ok (mkHttp 206 (Some etag) (Some ((str "bytes " ++ u64_to_string start ++ str "-") ++ rest))
            (spec_url spec) body).

(** The part file has the first bytes of the file, and no call is going to fail. *)
Definition resumable (b : bytes) (s : Session) : Prop :=
  separate (part_disk s) ∧ script (part_disk s) = []
  ∧ default [] (file_content part (part_disk s)) = b ∧ b `prefix_of` file.

Context (server : honest_server) (no_cancel : ∀ log, cancel_load log = false).
Context (size : spec_size spec = length file) (fits : Z.of_nat (length file) ≤ u64_max).
Context (digest : sha256_hex file = spec_sha256 spec).

Lemma starts_with_app l l' : starts_with l (l ++ l') = true.
Proof. induction l as [|x l IH]; [done|]. simpl. by rewrite Z.eqb_refl. Qed.

Lemma same_origin_ok : validate_redirect spec (spec_url spec) = Ok tt.
Proof. unfold validate_redirect. by rewrite bool_decide_true. Qed.

Lemma wp_honest_turn b p s :
  resumable b s → (length b < length file)%nat → downloaded p = length b →
  (progress_etag p = None ∨ progress_etag p = Some etag) →
  wp (turn spec part p)
    (fun v s' => ∃ b', resumable b' s' ∧ (length b < length b')%nat
       ∧ file_content part (part_disk s') = Some b'
       ∧ v = continue_with spec (mkProgress (expected_size p) (length b') (Some etag)))
    (fun _ _ => False) s.
Proof.
  intros (Hd & Hq & Hb & Hpre) Hlt Hp Het. unfold turn.
  apply wp_bind, wp_bind, wp_self. rewrite no_cancel. apply wp_ret.
  apply wp_bind. unfold wp at 1, request. rewrite Hp.
  destruct (server (exchanges s) (length b) (progress_etag p) Hlt) as (body & rest & Hne & Hbody & Hget).
  remember (mkHttp _ _ _ _ _) as resp eqn:Hresp. rewrite Hget. simpl.
  apply wp_bind, wp_lift. rewrite (f_equal final_url Hresp).
  cbn [final_url]. rewrite same_origin_ok.
  rewrite (f_equal http_status Hresp). cbn [http_status Z.eqb Pos.eqb].
  set (s1 := mkSession _ _). unfold on_206.
  assert (Hnew : (b ++ body) `prefix_of` file).
  { destruct Hpre as [k ->], Hbody as [k' Hk']. rewrite drop_app_length in Hk'. subst k.
    exists k'. by rewrite app_assoc. }
  apply wp_bind, wp_require; intros Hrange.
  2: { rewrite (f_equal content_range Hresp) in Hrange. cbn [content_range default id] in Hrange.
       by rewrite starts_with_app in Hrange. }
  assert (Happ : wp (append_part part body;;
      mret (continue_with spec (mkProgress (expected_size p) (wrap64 (downloaded p + length body)) (Some etag))))
    (fun v s' => ∃ b', resumable b' s' ∧ (length b < length b')%nat
       ∧ file_content part (part_disk s') = Some b'
       ∧ v = continue_with spec (mkProgress (expected_size p) (length b') (Some etag)))
    (fun _ _ => False) s1).
  { apply wp_bind, wp_on_part. wp_use wp_append_io; [done|..].
    - intros _ d' [(Hsep & _ & Hscr) Hc]. simpl in Hc. rewrite Hb in Hc. apply wp_ret.
      exists (b ++ body). split_and!.
      + split_and!; simpl; [done|by apply Hscr|by rewrite Hc|done].
      + rewrite length_app. destruct body; [done|]. simpl. lia.
      + done.
      + rewrite Hp, wrap64_small; [by rewrite length_app, Nat2Z.inj_add|].
        apply prefix_length in Hnew. rewrite length_app in Hnew. unfold is_u64. lia.
    - intros e d' [_ Hs]. by destruct Hs. }
  rewrite (f_equal http_etag Hresp), (f_equal http_body Hresp). cbn [http_etag http_body].
  destruct Het as [->| ->]; [exact Happ|]. rewrite bool_decide_true by done. exact Happ.
Qed.

(** A download that ended with the file. *)
Definition got_file (o : option DownloadProgress) (s : Session) : Prop :=
  file_content part (part_disk s) = Some file ∧ ∃ q, o = Some q ∧ downloaded q = length file.

Lemma wp_check_complete p s :
  separate (part_disk s) → script (part_disk s) = [] →
  file_content part (part_disk s) = Some file → downloaded p = length file →
  wp (q ← check_digest spec part p; mret (Some q)) got_file (fun _ _ => False) s.
Proof.
  intros Hd Hq Hc Hp. apply wp_bind, wp_bind, wp_on_part. wp_use wp_read_part; [done|..].
  - intros b' d' [-> Hb']. rewrite Hc in Hb'. injection Hb' as <-.
    apply wp_bind, wp_require; intros Hdig; [|by rewrite bool_decide_true in Hdig].
    apply wp_ret, wp_ret. split; [done|]. by eexists.
  - intros e d' [_ [Hs|Hs]]; [done|congruence].
Qed.

Lemma full_prefix b : b `prefix_of` file → (length file ≤ length b)%nat → b = file.
Proof.
  intros [k Hk] Hlen. rewrite Hk, length_app in Hlen.
  assert (k = []) as -> by (apply length_zero_iff_nil; lia). by rewrite app_nil_r in Hk.
Qed.

Lemma wp_honest_loop fuel b p s :
  resumable b s → (length b < length file)%nat → downloaded p = length b →
  (progress_etag p = None ∨ progress_etag p = Some etag) →
  (length file ≤ length b + fuel)%nat →
  wp (download_loop spec part fuel p) got_file (fun _ _ => False) s.
Proof.
  revert b p s. induction fuel as [|fuel IH]; intros b p s Hres Hlt Hp Het Hf; [lia|]. simpl.
  apply wp_bind. wp_use wp_honest_turn; [exact Hres|done..| |done].
  intros v s1 (b' & Hres' & Hlen & Hc & ->). unfold continue_with. rewrite size. simpl.
  destruct (Z.leb_spec (length file) (length b')).
  - destruct Hres' as (Hd' & Hq' & _ & Hpre'). apply full_prefix in Hpre' as ->; [|lia].
    by apply wp_check_complete.
  - apply (IH b'); simpl; [done|lia|done|by right|lia].
Qed.

(** From a server that has the file, a download that is not cancelled completes,
    whatever first bytes of the file an interrupted download has left and however
    small the pieces are that the server sends: after at most as many requests as the
    file has bytes, the part file is the file. *)
Lemma resume_completes b fuel resume_etag s :
  resumable b s → file ≠ [] → (resume_etag = None ∨ resume_etag = Some etag) →
  (length file ≤ fuel)%nat →
  let '(r, s') := download_bounded spec part fuel resume_etag s in
  (∃ q, r = Ok (Some q) ∧ downloaded q = length file)
  ∧ file_content part (part_disk s') = Some file.
Proof.
  intros Hres Hne Het Hf.
  assert (Hwp : wp (download_bounded spec part fuel resume_etag) got_file (fun _ _ => False) s).
  { apply wp_bind, wp_bind, wp_self. rewrite no_cancel. apply wp_ret.
    destruct Hres as (Hd & Hq & Hb & Hpre).
    set (s1 := mkSession (next_fault (part_disk s)) (exchanges s)).
    assert (Hres1 : resumable b s1) by (split_and!; [done|simpl; by rewrite Hq|done..]).
    assert (Hloop : (length b < length file)%nat →
      wp (download_loop spec part fuel (mkProgress (length file) (length b) resume_etag))
        got_file (fun _ _ => False) s1) by (intros ?; apply (wp_honest_loop _ b); simpl; [done..|lia]).
    unfold part_length. apply wp_bind, wp_bind, wp_attempt, wp_on_part.
    wp_use wp_read_part; [done|..].
    - intros b0 d' [-> Hb0]. rewrite Hb0 in Hb. simpl in Hb. subst b0. apply wp_ret. simpl. rewrite size.
      destruct (Z.eqb_spec (length b) (length file)) as [Heq|Hneq]; simpl.
      + apply full_prefix in Hpre as ->; [|lia].
        destruct (Z.ltb_spec 0 (length file)); [|destruct file; simpl in *; [done|lia]].
        by apply wp_check_complete; [..|apply Hres1| |].
      + apply Hloop. apply prefix_length in Hpre. lia.
    - intros e d' [-> Hor]. destruct Hor as [?|Hnone]; [congruence|].
      rewrite Hnone in Hb. simpl in Hb. subst b. apply wp_ret. simpl.
      rewrite andb_false_r, size. apply Hloop. destruct file; [done|simpl; lia]. }
  unfold wp in Hwp. destruct (download_bounded _ _ _ _ _) as [[o|e] s']; [|done].
  destruct Hwp as (Hc & q & -> & Hq). split; [|done]. eauto.
Qed.

End resume.

(** The space a download needs is the exact sum, or all there can be when it does not
    fit 64 bits. *)
Lemma check_capacity_ok available size concurrency headroom :
  is_u64 size → is_u64 concurrency → is_u64 headroom →
  check_capacity available size concurrency headroom = Ok tt
  ↔ Z.min (size * concurrency + headroom) u64_max ≤ available.
Proof.
  unfold is_u64. intros Hs Hc Hh. unfold check_capacity, checked.
  assert (0 ≤ size * concurrency) by nia.
  assert (Hn : default u64_max (v ← (if size * concurrency <=? u64_max then Some (size * concurrency) else None);
      (if v + headroom <=? u64_max then Some (v + headroom) else None))
    = Z.min (size * concurrency + headroom) u64_max).
  { destruct (Z.leb_spec (size * concurrency) u64_max); simpl; [|lia].
    destruct (Z.leb_spec (size * concurrency + headroom) u64_max); simpl; lia. }
  rewrite Hn. destruct (Z.ltb_spec available (Z.min (size * concurrency + headroom) u64_max));
    split; (done || lia).
Qed.

(** ** Behaviour at odds with the description *)

Section endless.
Context `{Crypto, Download} (spec : DownloadSpec) (part : bytes).

(** A server that answers every range with no bytes keeps the download asking for
    ever: no number of requests ends it. *)
Lemma empty_bodies_never_end fuel p s :
  (∀ log, cancel_load log = false) →
  (∀ log start asked, get_range log spec start asked
     = Ok (mkHttp 206 asked (Some (str "bytes " ++ u64_to_string start ++ str "-")) (spec_url spec) [])) →
  is_u64 (downloaded p) → downloaded p < spec_size spec →
  separate (part_disk s) → script (part_disk s) = [] →
  fst (download_loop spec part fuel p s) = Ok None.
Proof.
  intros Hc Hs Hp Hlt Hd Hq.
  enough (Hwp : wp (download_loop spec part fuel p) (fun o _ => o = None) (fun _ _ => False) s).
  { unfold wp in Hwp. destruct (download_loop _ _ _ _ _) as [[o|e] s']; [by subst|done]. }
  revert s Hd Hq. induction fuel as [|fuel IH]; intros s Hd Hq; simpl; [by apply wp_ret|].
  apply wp_bind, wp_bind, wp_bind, wp_self. rewrite Hc. apply wp_ret.
  apply wp_bind. unfold wp at 1, request. rewrite Hs. cbn [map_err].
  apply wp_bind, wp_lift. cbn [final_url]. rewrite same_origin_ok. cbn [http_status Z.eqb Pos.eqb].
  unfold on_206. apply wp_bind, wp_require; intros Hr.
  2: { cbn [content_range default id] in Hr. rewrite <-(app_nil_r (_ ++ _)) in Hr at 2.
       by rewrite starts_with_app in Hr. }
  assert (Happ : ∀ q, q = p → wp (append_part part [];; mret (continue_with spec q))
    (fun a => wp match a with
       | Finished p => mret (Some p)
       | Completed p => q ← check_digest spec part p; mret (Some q)
       | Again p => download_loop spec part fuel p end (fun o _ => o = None) (fun _ _ => False))
    (fun _ _ => False) (mkSession (part_disk s) (exchanges s ++ [mkExchange (downloaded p)
       (progress_etag p) (Ok (mkHttp 206 (progress_etag p)
         (Some (str "bytes " ++ u64_to_string (downloaded p) ++ str "-")) (spec_url spec) []))]))).
  { intros q ->. apply wp_bind, wp_on_part. wp_use wp_append_io; [done|..].
    - intros _ d' [(Hd' & _ & Hq') _]. apply wp_ret. unfold continue_with.
      destruct (Z.leb_spec (spec_size spec) (downloaded p)); [lia|]. apply IH; [done|by apply Hq'].
    - intros e d' [_ ?]. done. }
  assert (Hsame : mkProgress (expected_size p) (wrap64 (downloaded p + 0)) (progress_etag p) = p).
  { rewrite Z.add_0_r, wrap64_small by done. by destruct p. }
  cbn [http_etag http_body length Z.of_nat]. destruct (progress_etag p) as [tag|] eqn:Ht.
  - rewrite bool_decide_true by done. apply Happ. exact Hsame.
  - apply Happ. exact Hsame.
Qed.
End endless.

Module DemoDownload.

Definition url : bytes := str "https://models.example.com/m.bin".
Definition file : bytes := str "abcdef".

#[local] Existing Instance toy_crypto.

Definition spec : DownloadSpec := spec_new url 6 (sha256_hex file).

Definition disk_with (b : bytes) : Disk :=
  {| entries := {[ str "part" := 0%nat ]}; unsynced := [];
     inodes := {[ 0%nat := {| content := b; synced := true |} ]}; script := [] |}.

(** A server that sends the file from the start asked for, [n] bytes at a time, under
    one tag. *)
Definition server (tag : bytes) (n : nat) : Download := {|
  get_range _ spec start _ :=
    Ok (mkHttp 206 (Some tag) (Some ((str "bytes " ++ u64_to_string start ++ str "-") ++ str "5/6"))
          (spec_url spec) (take n (drop (Z.to_nat start) file)));
  cancel_load _ := false |}.

Lemma separate_demo b : separate (disk_with b).
Proof.
  split.
  - intros n i. simpl. intros [<- <-]%lookup_singleton_Some. by rewrite lookup_singleton_eq.
  - intros n n' i. simpl. by intros [<- _]%lookup_singleton_Some [<- _]%lookup_singleton_Some.
Qed.

Lemma honest_demo n : (0 < n)%nat → @honest_server (server (str "v1") n) spec file (str "v1").
Proof.
  intros Hn log start asked Hlt. exists (take n (drop start file)), (str "5/6"). split_and!.
  - intros Hnil%(f_equal length). rewrite length_take, length_drop in Hnil. simpl in *. lia.
  - apply prefix_take.
  - cbn [get_range server]. rewrite Nat2Z.id. done.
Qed.

(** The file changed on the server under a new tag while a part of it was here: the
    part is replaced by the end of the new file, the rest is appended to it, and the
    download fails although the server sent the whole new file. *)
Example changed_file_is_not_restarted :
  let '(r, s') := @download_bounded toy_crypto (server (str "v2") 6) spec (str "part") 10
                    (Some (str "v1")) (mkSession (disk_with (str "xy")) []) in
  is_ok r = false ∧ file_content (str "part") (part_disk s') = Some (str "cdefef").
Proof. by vm_compute. Qed.

(** A file larger than the size that was asked for is written and accepted when its
    digest is right. *)
Example oversized_file_is_accepted :
  let small := spec_new url 3 (sha256_hex file) in
  let '(r, s') := @download_bounded toy_crypto (server (str "v1") 6) small (str "part") 10
                    None (mkSession (disk_with []) []) in
  r = Ok (Some (mkProgress 3 6 (Some (str "v1"))))
  ∧ file_content (str "part") (part_disk s') = Some file.
Proof. by vm_compute. Qed.

End DemoDownload.

(** ** Witnesses *)

Lemma download_sound_witness :
  let s := mkSession (DemoDownload.disk_with (str "ab")) [] in
  separate (part_disk s) ∧
  let '(r, s') := @download_bounded toy_crypto (DemoDownload.server (str "v1") 1) DemoDownload.spec
                    (str "part") 10 (Some (str "v1")) s in
  match r with
  | Ok o => advanced DemoDownload.spec (str "part") s s'
            ∧ (is_Some o → @complete_part toy_crypto DemoDownload.spec (str "part") s')
  | Err _ => stopped DemoDownload.spec (str "part") s s'
  end.
Proof.
  split; [apply DemoDownload.separate_demo|].
  apply (@download_sound toy_crypto (DemoDownload.server (str "v1") 1)).
  apply DemoDownload.separate_demo.
Defined.

Lemma resume_completes_witness :
  let s := mkSession (DemoDownload.disk_with (str "ab")) [] in
  let '(r, s') := @download_bounded toy_crypto (DemoDownload.server (str "v1") 1) DemoDownload.spec
                    (str "part") 10 (Some (str "v1")) s in
  (∃ q, r = Ok (Some q) ∧ downloaded q = length DemoDownload.file)
  ∧ file_content (str "part") (part_disk s') = Some DemoDownload.file.
Proof.
  apply (@resume_completes toy_crypto (DemoDownload.server (str "v1") 1) DemoDownload.spec
    (str "part") DemoDownload.file (str "v1")) with (b := str "ab").
  - apply DemoDownload.honest_demo. lia.
  - done.
  - reflexivity.
  - vm_compute. done.
  - reflexivity.
  - split_and!; [apply DemoDownload.separate_demo|reflexivity|reflexivity|].
    exists (str "cdef"). reflexivity.
  - done.
  - by right.
  - simpl. lia.
Defined.
