(* ===== verification/Activation.v ===== *)
(** * Activation of a staged profile

    [manager/activation.rs], [manager/rollback.rs], [cluster/production/activation.rs]
    and the start gate of [cluster/production/tp.rs]: the journal of an activation on
    both nodes, the transaction that drives it, and the roll-back.  The boundary to
    the runtime, the trait [ActivationDriver], is an interface whose answers depend on
    the calls made so far, and so is [PreviousRecovery]; the lookup of verified
    artifacts is an argument. *)

From S2P Require Import Prelude Bytes Operation Disk Download.

Local Open Scope rust_scope.

Module ActivationPhase.

(** src/src/manager/activation.rs:23-38 (ActivationPhase) *)
Inductive ActivationPhase := Prepared | Draining | Ready | Committing | Complete | RolledBack.

End ActivationPhase.
Notation ActivationPhase := ActivationPhase.ActivationPhase.

Module NodePhase.

(** src/src/manager/activation.rs:41-49 (NodePhase) *)
Inductive NodePhase := NotStarted | Prepared | Draining | Ready | Committed.

(** src/src/cluster/production/activation.rs:108-116 (node_phase_name) *)
Definition node_phase_name (p : NodePhase) : bytes :=
  str match p with
      | NotStarted => "not-started"
      | Prepared => "prepared"
      | Draining => "draining"
      | Ready => "ready"
      | Committed => "committed"
      end.

End NodePhase.
Notation NodePhase := NodePhase.NodePhase.

Global Instance ActivationPhase_eq_dec : EqDecision ActivationPhase.
Proof. solve_decision. Defined.
Global Instance NodePhase_eq_dec : EqDecision NodePhase.
Proof. solve_decision. Defined.

(** [Debug] of a phase, which the messages of refused transitions quote. *)
Definition debug_phase (p : ActivationPhase) : bytes :=
  str match p with
      | ActivationPhase.Prepared => "Prepared"
      | ActivationPhase.Draining => "Draining"
      | ActivationPhase.Ready => "Ready"
      | ActivationPhase.Committing => "Committing"
      | ActivationPhase.Complete => "Complete"
      | ActivationPhase.RolledBack => "RolledBack"
      end.

Notation NodeId := bytes.

(** src/src/manager/activation.rs:52-58 (NodeActivationState) *)
Record NodeActivationState := mkNodeState {
  node : NodeId;
  node_phase : NodePhase;
  artifact_digest : option bytes }.

(** src/src/manager/activation.rs:62-76 (ActivationJournal) *)
Record ActivationJournal := mkActivation {
  operation_id : bytes;
  expected_generation : Z;
  runtime_lease : bytes;
  policy_epoch : Z;
  phase : ActivationPhase;
  nodes : list NodeActivationState }.

(** src/src/manager/activation.rs:86-94 (ActivationRequest) *)
Record ActivationRequest := mkActivationRequest {
  req_operation_id : bytes;
  req_expected_generation : Z;
  req_runtime_lease : bytes;
  req_policy_epoch : Z;
  req_nodes : list NodeId }.

Module ActivationError.

(** src/src/manager/activation.rs:97-109 (ActivationError) *)
Inductive ActivationError :=
| MissingGenerationOrLease
| RequiresTwoNodes
| InvalidTransition (message : bytes)
| UnknownNode (node : NodeId)
| Io (message : bytes).

End ActivationError.
Notation ActivationError := ActivationError.ActivationError.

Module PrepareOutcome.

(** src/src/manager/activation.rs:129-135 (PrepareOutcome) *)
Inductive PrepareOutcome :=
| Prepared (journal : ActivationJournal)
| StoppedZero (journal : ActivationJournal).

End PrepareOutcome.
Notation PrepareOutcome := PrepareOutcome.PrepareOutcome.

(** ** The journal's transitions *)

(** The loop of [prepare_activation] over the nodes. *)
Definition prepare_nodes (verified_artifact : NodeId → option bytes) (ns : list NodeId)
    : list NodeActivationState :=
  map (fun n => mkNodeState n NodePhase.Prepared (verified_artifact n)) ns.

(** src/src/manager/activation.rs:139-176 (prepare_activation) *)
Definition prepare_activation (req : ActivationRequest)
    (verified_artifact : NodeId → option bytes) : result PrepareOutcome ActivationError :=
  let? _ := ensure (negb ((req_expected_generation req =? 0)
                          || bool_decide (req_runtime_lease req = [])))
              ActivationError.MissingGenerationOrLease in
  let? _ := ensure (bool_decide (length (req_nodes req) = 2%nat))
              ActivationError.RequiresTwoNodes in
  let ns := prepare_nodes verified_artifact (req_nodes req) in
  let journal := mkActivation (req_operation_id req) (req_expected_generation req)
    (req_runtime_lease req) (req_policy_epoch req) ActivationPhase.Prepared ns in
  if forallb (fun n => is_some (artifact_digest n)) ns
  then Ok (PrepareOutcome.Prepared journal)
  else Ok (PrepareOutcome.StoppedZero journal).

Definition with_phase (p : ActivationPhase) (ns : list NodeActivationState)
    (j : ActivationJournal) : ActivationJournal :=
  mkActivation (operation_id j) (expected_generation j) (runtime_lease j) (policy_epoch j) p ns.

Definition set_node_phase (p : NodePhase) (n : NodeActivationState) : NodeActivationState :=
  mkNodeState (node n) p (artifact_digest n).

Definition invalid (what : string) (j : ActivationJournal) : ActivationError :=
  ActivationError.InvalidTransition (str what ++ debug_phase (phase j)).

(** src/src/manager/activation.rs:179-191 (begin_drain) *)
Definition begin_drain (j : ActivationJournal) : result ActivationJournal ActivationError :=
  let? _ := ensure (bool_decide (phase j = ActivationPhase.Prepared))
              (invalid "drain requires prepared, got " j) in
  Ok (with_phase ActivationPhase.Draining (map (set_node_phase NodePhase.Draining) (nodes j)) j).

(** src/src/manager/activation.rs:194-206 (mark_ready) *)
Definition mark_ready (j : ActivationJournal) : result ActivationJournal ActivationError :=
  let? _ := ensure (bool_decide (phase j = ActivationPhase.Draining))
              (invalid "ready requires draining, got " j) in
  Ok (with_phase ActivationPhase.Ready (map (set_node_phase NodePhase.Ready) (nodes j)) j).

(** [iter_mut().find(..)] followed by the write to the node found. *)
Fixpoint commit_first (n : NodeId) (ns : list NodeActivationState)
    : option (list NodeActivationState) :=
  match ns with
  | [] => None
  | x :: ns =>
      if bool_decide (node x = n) then Some (set_node_phase NodePhase.Committed x :: ns)
      else cons x <$> commit_first n ns
  end.

(** src/src/manager/activation.rs:210-236 (commit_ack) *)
Definition commit_ack (j : ActivationJournal) (n : NodeId)
    : result ActivationJournal ActivationError :=
  let? _ := ensure (bool_decide (phase j = ActivationPhase.Ready
                                 ∨ phase j = ActivationPhase.Committing))
              (invalid "commit ack requires ready/committing, got " j) in
  let? ns := ok_or (commit_first n (nodes j)) (ActivationError.UnknownNode n) in
  Ok (with_phase
        (if forallb (fun x => bool_decide (node_phase x = NodePhase.Committed)) ns
         then ActivationPhase.Complete else ActivationPhase.Committing) ns j).

(** src/src/manager/activation.rs:240-247 (rollback_to_previous) *)
Definition rollback_to_previous (j : ActivationJournal) : ActivationJournal :=
  with_phase ActivationPhase.RolledBack
    (map (fun n => mkNodeState (node n) NodePhase.NotStarted None) (nodes j)) j.

(** ** The start gate *)

(** src/src/cluster/production/tp.rs:16-16 (TP_PRODUCTION_PROTOCOL_VERSION) *)
Definition TP_PRODUCTION_PROTOCOL_VERSION : Z := 1.

Module TpStartVerdict.

(** src/src/cluster/production/tp.rs:19-27 (TpStartVerdict) *)
Inductive TpStartVerdict := Allowed | PolicyForcedStandalone | UnsupportedPeer.

(** src/src/cluster/production/tp.rs:31-33 (TpStartVerdict::allows_tp) *)
Definition allows_tp (self : TpStartVerdict) : bool :=
  match self with Allowed => true | PolicyForcedStandalone | UnsupportedPeer => false end.

(** src/src/cluster/production/tp.rs:36-42 (TpStartVerdict::name) *)
Definition name (self : TpStartVerdict) : bytes :=
  str match self with
      | Allowed => "tp-start-allowed"
      | PolicyForcedStandalone => "tp-start-policy-forced-standalone"
      | UnsupportedPeer => "tp-start-unsupported-peer"
      end.

End TpStartVerdict.
Notation TpStartVerdict := TpStartVerdict.TpStartVerdict.

(** src/src/cluster/production/tp.rs:51-62 (check_tp_start) *)
Definition check_tp_start (operator_policy : OperationPolicy) (peer_protocol_version : option Z)
    : TpStartVerdict :=
  if bool_decide (operator_policy = OperationPolicy.ForcedStandalone)
  then TpStartVerdict.PolicyForcedStandalone
  else if is_some_and peer_protocol_version (fun v => negb (v =? TP_PRODUCTION_PROTOCOL_VERSION))
  then TpStartVerdict.UnsupportedPeer
  else TpStartVerdict.Allowed.

(** ** The transaction *)

Module ActivationVerdict.

(** src/src/cluster/production/activation.rs:25-35 (ActivationVerdict) *)
Inductive ActivationVerdict :=
| Complete (journal : ActivationJournal)
| StoppedZero (journal : ActivationJournal)
| RolledBack (journal : ActivationJournal)
| Yielded (journal : ActivationJournal).

End ActivationVerdict.
Notation ActivationVerdict := ActivationVerdict.ActivationVerdict.

(** The calls to the runtime, and what it answered. *)
Inductive driver_call := DrainAndStopOld | StartNewAndWaitReady | Commit.

Global Instance driver_call_eq_dec : EqDecision driver_call.
Proof. solve_decision. Defined.

Notation driver_log := (list (driver_call * result unit ActivationError)).

(** The trait [ActivationDriver]: the answer to a call, given the calls before. *)
Class ActivationDriver := driver_answer : driver_log → driver_call → result unit ActivationError.

Section transaction.
Context `{ActivationDriver}.

Definition drive (c : driver_call) : method driver_log ActivationError unit := fun log =>
  let r := driver_answer log c in (r, log ++ [(c, r)]).

(** The loop [for node in journal.nodes.clone()]. *)
Fixpoint commit_all (ns : list NodeActivationState) (j : ActivationJournal)
    : result ActivationJournal ActivationError :=
  match ns with
  | [] => Ok j
  | n :: ns => let? j := commit_ack j (node n) in commit_all ns j
  end.

(** src/src/cluster/production/activation.rs:55-98 (execute_activation) *)
Definition execute_activation (req : ActivationRequest)
    (verified_artifact : NodeId → option bytes) (operator_policy : OperationPolicy)
    (peer_protocol_version : option Z) : method driver_log ActivationError ActivationVerdict :=
  outcome ← lift (prepare_activation req verified_artifact);
  match outcome with
  | PrepareOutcome.StoppedZero j => mret (ActivationVerdict.StoppedZero j)
  | PrepareOutcome.Prepared j =>
      if negb (TpStartVerdict.allows_tp (check_tp_start operator_policy peer_protocol_version))
      then mret (ActivationVerdict.Yielded (rollback_to_previous j))
      else
        j ← lift (begin_drain j);
        drive DrainAndStopOld;;
        started ← attempt (drive StartNewAndWaitReady);
        if negb (is_ok started) then mret (ActivationVerdict.RolledBack (rollback_to_previous j))
        else
          j ← lift (mark_ready j);
          drive Commit;;
          j ← lift (commit_all (nodes j) j);
          mret (if bool_decide (phase j = ActivationPhase.Complete)
                then ActivationVerdict.Complete j
                else ActivationVerdict.RolledBack j)
  end.

End transaction.

(** src/src/cluster/production/activation.rs:120-126 (node_digests) *)
Definition node_digests (j : ActivationJournal) : list (NodeId * option bytes) :=
  map (fun n => (node n, artifact_digest n)) (nodes j).

(** ** Roll-back *)

(** src/src/manager/rollback.rs:23-37 (RollbackRequest) *)
Record RollbackRequest := mkRollback {
  rb_operation_id : bytes;
  rb_expected_generation : Z;
  rb_runtime_lease : bytes;
  rb_policy_epoch : Z;
  previous_digest : bytes;
  rb_nodes : list NodeId }.

Module RollbackOutcome.

(** src/src/manager/rollback.rs:40-54 (RollbackOutcome) *)
Inductive RollbackOutcome :=
| Restored (journal : ActivationJournal) (old_digest : bytes)
| ManualIntervention (journal : ActivationJournal)
| PolicyHeld (journal : ActivationJournal) (policy_epoch : Z).

End RollbackOutcome.
Notation RollbackOutcome := RollbackOutcome.RollbackOutcome.

(** src/src/manager/rollback.rs:70-109 (rollback_to_previous): [start_previous] is the
    answer of [PreviousRecovery], asked once, after the request was checked. *)
Definition rollback (req : RollbackRequest) (verified_artifact : NodeId → option bytes)
    (start_previous : result unit ActivationError) (force_held : bool)
    : result RollbackOutcome ActivationError :=
  let? outcome := prepare_activation
    (mkActivationRequest (rb_operation_id req) (rb_expected_generation req)
       (rb_runtime_lease req) (rb_policy_epoch req) (rb_nodes req)) verified_artifact in
  let j := match outcome with PrepareOutcome.Prepared j | PrepareOutcome.StoppedZero j => j end in
  let j := with_phase ActivationPhase.RolledBack (nodes j) j in
  if negb (is_ok start_previous) then Ok (RollbackOutcome.ManualIntervention j)
  else if force_held then Ok (RollbackOutcome.PolicyHeld j (rb_policy_epoch req))
  else Ok (RollbackOutcome.Restored j (previous_digest req)).

(** ** The journal on disk *)

(** serde's codec of the journal; the texts of its errors are left out. *)
Class ActivationCodec := {
  encode_activation : ActivationJournal → bytes;
  decode_activation : bytes → option ActivationJournal }.

Definition journal_file (operation : bytes) : bytes :=
  str "activation-" ++ operation ++ str ".json".

(** src/src/manager/activation.rs:250-265 (save_journal) *)
Definition save_activation `{ActivationCodec} (j : ActivationJournal)
    : method Disk ActivationError unit :=
  map_error (fun _ => ActivationError.Io [])
    (create_dir_all;;
     attempt (F := IoError) (set_permissions 0);;
     write_part (journal_file (operation_id j) ++ str ".tmp") (encode_activation j);;
     attempt (F := IoError) (set_permissions 0);;
     rename (journal_file (operation_id j) ++ str ".tmp") (journal_file (operation_id j))).

(** src/src/manager/activation.rs:273-285 (load_journal) *)
Definition load_activation `{ActivationCodec} (operation : bytes)
    : method Disk ActivationError (option ActivationJournal) :=
  d ← self;
  if is_none (entries d !! journal_file operation) then mret None
  else
    b ← map_error (fun _ => ActivationError.Io []) (read_file (journal_file operation));
    j ← lift (ok_or (decode_activation b) (ActivationError.Io []));
    mret (Some j).

(** ** The journal as a step relation *)

Inductive activation_event := Drained | MadeReady | Acked (n : NodeId) | RolledBackTo.

Global Instance Acked_inj : Inj (=) (=) Acked.
Proof. by intros ? ? [= ->]. Qed.

(** One accepted transition of the journal. *)
Definition activation_step (j : ActivationJournal) (ev : activation_event)
    : result ActivationJournal ActivationError :=
  match ev with
  | Drained => begin_drain j
  | MadeReady => mark_ready j
  | Acked n => commit_ack j n
  | RolledBackTo => Ok (rollback_to_previous j)
  end.

(** [activation_run j0 evs j]: from [j0] the transitions [evs] were accepted, in this
    order, and led to [j]. *)
Inductive activation_run (j0 : ActivationJournal) : list activation_event → ActivationJournal → Prop :=
| run_start : activation_run j0 [] j0
| run_next evs j ev j' :
    activation_run j0 evs j → activation_step j ev = Ok j' →
    activation_run j0 (evs ++ [ev]) j'.

(** The nodes that acknowledged, as the journal shows them. *)
Definition acked_nodes (acks : list NodeId) (ns : list NodeActivationState)
    : list NodeActivationState :=
  map (fun n => set_node_phase (if bool_decide (node n ∈ acks) then NodePhase.Committed
                                else NodePhase.Ready) n) ns.

(** The phase after the acknowledgements [acks]. *)
Definition acked_phase (acks : list NodeId) (ns : list NodeActivationState) : ActivationPhase :=
  if bool_decide (Forall (fun n => node n ∈ acks) ns) then ActivationPhase.Complete
  else match acks with [] => ActivationPhase.Ready | _ => ActivationPhase.Committing end.

(** The journal after a run, as a function of the run. *)
Inductive journal_after (j0 : ActivationJournal) : list activation_event → ActivationJournal → Prop :=
| after_prepare : journal_after j0 [] j0
| after_drain : journal_after j0 [Drained]
    (with_phase ActivationPhase.Draining (map (set_node_phase NodePhase.Draining) (nodes j0)) j0)
| after_acks acks :
    journal_after j0 (Drained :: MadeReady :: map Acked acks)
      (with_phase (acked_phase acks (nodes j0)) (acked_nodes acks (nodes j0)) j0)
| after_rollback evs j :
    RolledBackTo ∈ evs → phase j = ActivationPhase.RolledBack → journal_after j0 evs j.

Lemma acked_nodes_nil ns : acked_nodes [] ns = map (set_node_phase NodePhase.Ready) ns.
Proof. apply map_ext. intros n. by rewrite bool_decide_false by apply not_elem_of_nil. Qed.

Lemma acked_nodes_other n acks ns :
  n ∉ map node ns → acked_nodes (acks ++ [n]) ns = acked_nodes acks ns.
Proof.
  intros Hn. apply map_ext_in. intros x Hx%list_elem_of_In. f_equal.
  erewrite bool_decide_ext; [done|]. rewrite elem_of_app, list_elem_of_singleton.
  split; [|by left]. intros [?|Heq]; [done|]. destruct Hn. rewrite <-Heq. by apply list_elem_of_fmap_2.
Qed.

Lemma commit_first_acked n acks ns ns' :
  NoDup (map node ns) → commit_first n (acked_nodes acks ns) = Some ns' →
  ns' = acked_nodes (acks ++ [n]) ns.
Proof.
  revert ns'. induction ns as [|x ns IH]; intros ns' Hnd; simpl; [done|].
  apply NoDup_cons in Hnd as [Hx Hnd]. case_bool_decide as Hn; simpl.
  - intros [= <-]. subst n. rewrite acked_nodes_other by done. simpl.
    rewrite (bool_decide_true (node x ∈ acks ++ [node x])); [done|].
    apply elem_of_app. right. by apply list_elem_of_singleton.
  - destruct (commit_first n (acked_nodes acks ns)) as [ns1|]; [|done]. simpl. intros [= <-].
    f_equal; [|by apply IH]. f_equal. erewrite bool_decide_ext; [done|].
    rewrite elem_of_app, list_elem_of_singleton. naive_solver.
Qed.

Lemma all_committed acks ns :
  forallb (fun x => bool_decide (node_phase x = NodePhase.Committed)) (acked_nodes acks ns)
  = bool_decide (Forall (fun n => node n ∈ acks) ns).
Proof.
  apply eq_true_iff_eq. rewrite bool_decide_eq_true, forallb_forall, Forall_forall. split.
  - intros Hall x Hx. specialize (Hall (set_node_phase (if bool_decide (node x ∈ acks)
      then NodePhase.Committed else NodePhase.Ready) x)).
    rewrite <-list_elem_of_In in Hall. apply bool_decide_eq_true in Hall.
    + simpl in Hall. by case_bool_decide.
    + unfold acked_nodes. apply list_elem_of_fmap. eauto.
  - intros Hall x Hx%list_elem_of_In%list_elem_of_fmap. destruct Hx as (y & -> & Hy).
    simpl. by rewrite (bool_decide_true (node y ∈ acks)) by by apply Hall.
Qed.

Lemma run_journal_after j0 evs j :
  phase j0 = ActivationPhase.Prepared → NoDup (map node (nodes j0)) → nodes j0 ≠ [] →
  activation_run j0 evs j → journal_after j0 evs j.
Proof.
  intros Hp Hnd Hne. induction 1 as [|evs j ev j' Hrun IH Hstep]; [constructor|].
  destruct ev as [| |n|]; simpl in Hstep.
  - unfold begin_drain in Hstep. case_bool_decide as Hj; [|done]. injection Hstep as <-.
    inv IH; [constructor|..]; simpl in *; try congruence.
    unfold acked_phase in Hj. by repeat case_match.
  - unfold mark_ready in Hstep. case_bool_decide as Hj; [|done]. injection Hstep as <-.
    inv IH; simpl in *; try congruence.
    + replace (with_phase _ _ _) with
        (with_phase (acked_phase [] (nodes j0)) (acked_nodes [] (nodes j0)) j0);
        [apply (after_acks j0 [])|].
      rewrite acked_nodes_nil. unfold with_phase; simpl. f_equal.
      * unfold acked_phase. rewrite bool_decide_false; [done|]. destruct (nodes j0) as [|x ?]; [done|].
        intros [?%not_elem_of_nil _]%Forall_cons. done.
      * rewrite map_map. by apply map_ext.
    + unfold acked_phase in Hj. by repeat case_match.
  - unfold commit_ack in Hstep. case_bool_decide as Hj; [|done]. simpl in Hstep.
    destruct (commit_first n (nodes j)) as [ns|] eqn:Hc; [|done]. injection Hstep as <-.
    inv IH; simpl in *; try (destruct Hj; congruence).
    apply commit_first_acked in Hc as ->; [|done]. rewrite all_committed.
    replace (Drained :: MadeReady :: map Acked acks ++ [Acked n])
      with (Drained :: MadeReady :: map Acked (acks ++ [n])) by by rewrite map_app.
    replace (with_phase _ _ (with_phase _ _ _)) with
      (with_phase (acked_phase (acks ++ [n]) (nodes j0)) (acked_nodes (acks ++ [n]) (nodes j0)) j0);
      [apply after_acks|].
    unfold with_phase, acked_phase. simpl. f_equal. case_bool_decide; [done|]. by destruct acks.
  - injection Hstep as <-. apply after_rollback; [|done]. apply elem_of_app. right. by left.
Qed.

(** An activation is complete exactly when the old runtime was drained, the new
    profile became ready, and then both nodes acknowledged, with no roll-back: an
    acknowledgement that is lost, repeated, early or late never completes it. *)
Lemma complete_iff_both_acked req verified_artifact j0 evs j :
  prepare_activation req verified_artifact = Ok (PrepareOutcome.Prepared j0) →
  NoDup (req_nodes req) → activation_run j0 evs j →
  phase j = ActivationPhase.Complete ↔
  ∃ acks, evs = Drained :: MadeReady :: map Acked acks ∧ ∀ n, n ∈ req_nodes req → n ∈ acks.
Proof.
  intros Hprep Hnd Hrun. unfold prepare_activation in Hprep.
  destruct (negb _); [|done]. simpl in Hprep. case_bool_decide as Hlen; [|done]. simpl in Hprep.
  destruct (forallb _ _); [|done]. injection Hprep as <-.
  assert (Hnodes : map node (prepare_nodes verified_artifact (req_nodes req)) = req_nodes req).
  { unfold prepare_nodes. rewrite map_map. by apply map_id. }
  apply run_journal_after in Hrun; [|done|by simpl; rewrite Hnodes|].
  2: { simpl. by destruct (req_nodes req). }
  assert (Hall : ∀ acks : list NodeId, Forall (fun n => node n ∈ acks) (prepare_nodes verified_artifact (req_nodes req))
    ↔ ∀ n, n ∈ req_nodes req → n ∈ acks).
  { intros acks. unfold prepare_nodes. rewrite Forall_map, Forall_forall. done. }
  inv Hrun; simpl.
  - split; [done|by intros (? & ? & ?)].
  - split; [done|by intros (? & ? & ?)].
  - unfold acked_phase. case_bool_decide as Ha.
    + split; [|done]. intros _. exists acks. split; [done|]. by apply Hall.
    + split; [by destruct acks|]. intros (acks' & Heq & Hn). destruct Ha. apply Hall.
      injection Heq as Heq. apply (inj (fmap Acked)) in Heq. by subst.
  - split; [congruence|]. intros (acks & -> & _). exfalso.
    repeat match goal with H : _ ∈ _ :: _ |- _ => apply elem_of_cons in H as [?|H]; [done|] end.
    apply list_elem_of_fmap in H as (? & ? & _). done.
Qed.

(** ** The transaction *)

Section transaction_theorems.
Context `{ActivationDriver}.

(** What a verdict says about the calls made to the runtime. *)
Definition verdict_of_calls (req : ActivationRequest) (verified_artifact : NodeId → option bytes)
    (operator_policy : OperationPolicy) (peer : option Z)
    (r : result ActivationVerdict ActivationError) (calls : driver_log) : Prop :=
  match r with
  | Ok (ActivationVerdict.Complete j) =>
      calls = [(DrainAndStopOld, Ok tt); (StartNewAndWaitReady, Ok tt); (Commit, Ok tt)]
      ∧ NoDup (req_nodes req) ∧ check_tp_start operator_policy peer = TpStartVerdict.Allowed
      ∧ phase j = ActivationPhase.Complete ∧ map node (nodes j) = req_nodes req
      ∧ Forall (fun n => artifact_digest n = verified_artifact (node n)
                         ∧ is_Some (artifact_digest n)
                         ∧ node_phase n = NodePhase.Committed) (nodes j)
  | Ok (ActivationVerdict.StoppedZero _) =>
      calls = [] ∧ Exists (fun n => verified_artifact n = None) (req_nodes req)
  | Ok (ActivationVerdict.Yielded j) =>
      calls = [] ∧ phase j = ActivationPhase.RolledBack
      ∧ check_tp_start operator_policy peer ≠ TpStartVerdict.Allowed
  | Ok (ActivationVerdict.RolledBack j) =>
      (∃ e, calls = [(DrainAndStopOld, Ok tt); (StartNewAndWaitReady, Err e)]
            ∧ phase j = ActivationPhase.RolledBack)
      ∨ (¬ NoDup (req_nodes req)
         ∧ calls = [(DrainAndStopOld, Ok tt); (StartNewAndWaitReady, Ok tt); (Commit, Ok tt)])
  | Err e =>
      (calls = [] ∧ prepare_activation req verified_artifact = Err e)
      ∨ calls = [(DrainAndStopOld, Err e)]
      ∨ calls = [(DrainAndStopOld, Ok tt); (StartNewAndWaitReady, Ok tt); (Commit, Err e)]
  end.

Lemma prepare_cases req verified_artifact :
  let j := mkActivation (req_operation_id req) (req_expected_generation req)
    (req_runtime_lease req) (req_policy_epoch req) ActivationPhase.Prepared
    (prepare_nodes verified_artifact (req_nodes req)) in
  (∃ e, prepare_activation req verified_artifact = Err e)
  ∨ (prepare_activation req verified_artifact = Ok (PrepareOutcome.StoppedZero j)
     ∧ Exists (fun n => verified_artifact n = None) (req_nodes req))
  ∨ (prepare_activation req verified_artifact = Ok (PrepareOutcome.Prepared j)
     ∧ (∃ a b, req_nodes req = [a; b])
     ∧ Forall (fun n => is_Some (verified_artifact n)) (req_nodes req)).
Proof.
  intros j. unfold prepare_activation. destruct (negb _); [|left; simpl; eauto]. simpl.
  case_bool_decide as Hlen; [|left; simpl; eauto]. right. subst j.
  destruct (req_nodes req) as [|a [|b [|]]]; try done. simpl.
  destruct (verified_artifact a) as [da|] eqn:Ha; [destruct (verified_artifact b) as [db|] eqn:Hb|];
    simpl; [right|left..]; (split; [done|]).
  - split; [eauto|]. repeat constructor; rewrite ?Ha, ?Hb; eauto.
  - by right; left.
  - by left.
Qed.

(** C19: the activation transaction touches the runtime only when both nodes have a
    verified artifact and the policy allows it, and then drains before it starts and
    starts before it commits; it reports completion only when all three calls
    succeeded and both nodes, distinct ones, are recorded as committed with their
    verified artifacts; a failed start is reported as a roll-back, and every error is
    the refused request or the failed call. *)
Theorem activation_transaction req verified_artifact operator_policy peer log :
  let '(r, log') := execute_activation req verified_artifact operator_policy peer log in
  ∃ calls, log' = log ++ calls
    ∧ verdict_of_calls req verified_artifact operator_policy peer r calls.
Proof.
  unfold execute_activation, drive, attempt. unfold_method.
  destruct (prepare_cases req verified_artifact)
    as [(e & Heq)|[[Heq Hex]|(Heq & (a & b & Hab) & Hall)]]; rewrite Heq; simpl.
  - exists []. rewrite app_nil_r. auto.
  - exists []. by rewrite app_nil_r.
  - destruct (check_tp_start operator_policy peer) eqn:Hcheck; simpl;
      [|exists []; rewrite app_nil_r; simpl; by rewrite Hcheck..].
    destruct (driver_answer log DrainAndStopOld) as [[]|e1];
      [|eexists; split; [reflexivity|]; simpl; auto].
    destruct (driver_answer _ StartNewAndWaitReady) as [[]|e2]; simpl;
      [|eexists; split; [by rewrite <-app_assoc|]; simpl; eauto].
    destruct (driver_answer _ Commit) as [[]|e3]; simpl;
      [|eexists; split; [by rewrite <-!app_assoc|]; simpl; eauto].
    rewrite Hab in *. simpl. unfold commit_ack. simpl. rewrite !(bool_decide_true (a = a)) by done.
    simpl. destruct (decide (a = b)) as [->|Hne].
    + rewrite !(bool_decide_true (b = b)) by done. simpl.
      eexists. split; [by rewrite <-!app_assoc|]. simpl. right. split; [|done].
      rewrite Hab. intros [Hb _]%NoDup_cons. destruct Hb. by left.
    + rewrite !(bool_decide_false (a = b)), !(bool_decide_true (b = b)) by done. simpl.
      eexists. split; [by rewrite <-!app_assoc|]. simpl. split_and!; try done.
      * rewrite Hab. repeat constructor; [by intros ?%list_elem_of_singleton|by intros ?%not_elem_of_nil].
      * inv Hall. inv H3. repeat constructor; done.
Qed.
End transaction_theorems.

(** A roll-back keeps the latest policy epoch, names the previous artifact only when
    the previous runtime came back, and asks for an operator when it did not. *)
Lemma rollback_spec req verified_artifact start_previous force_held o :
  rollback req verified_artifact start_previous force_held = Ok o →
  match o with
  | RollbackOutcome.Restored j old =>
      start_previous = Ok tt ∧ force_held = false ∧ old = previous_digest req
      ∧ policy_epoch j = rb_policy_epoch req ∧ phase j = ActivationPhase.RolledBack
  | RollbackOutcome.PolicyHeld j epoch =>
      start_previous = Ok tt ∧ force_held = true ∧ epoch = rb_policy_epoch req
      ∧ policy_epoch j = rb_policy_epoch req ∧ phase j = ActivationPhase.RolledBack
  | RollbackOutcome.ManualIntervention j =>
      (∃ e, start_previous = Err e)
      ∧ policy_epoch j = rb_policy_epoch req ∧ phase j = ActivationPhase.RolledBack
  end.
Proof.
  unfold rollback. set (r := mkActivationRequest _ _ _ _ _).
  destruct (prepare_cases r verified_artifact) as [(e & ->)|[[-> _]|(-> & _)]]; [done|..]; simpl;
    destruct start_previous as [[]|e]; simpl; try (destruct force_held; simpl);
    intros [= <-]; simpl; eauto 10.
Qed.

(** A request that names one node twice runs the whole transaction, commit included,
    and then reports a roll-back whose journal is still waiting for an
    acknowledgement. *)
Definition accepting_driver : ActivationDriver := fun _ _ => Ok tt.

Example duplicate_node_commits_without_completion :
  let req := mkActivationRequest (str "op") 1 (str "lease") 1 [str "n"; str "n"] in
  let '(r, log) := @execute_activation accepting_driver req (fun _ => Some (str "d"))
                     OperationPolicy.Automatic (Some 1) [] in
  map fst log = [DrainAndStopOld; StartNewAndWaitReady; Commit]
  ∧ match r with
    | Ok (ActivationVerdict.RolledBack j) => phase j = ActivationPhase.Committing
    | _ => False
    end.
Proof. by vm_compute. Qed.

(** ** Witness *)

Lemma complete_iff_both_acked_witness :
  ActivationPhase.Committing = ActivationPhase.Complete ↔
  ∃ acks, [Drained; MadeReady; Acked (str "local")] = Drained :: MadeReady :: map Acked acks
    ∧ ∀ n, n ∈ [str "local"; str "peer"] → n ∈ acks.
Proof.
  eapply (complete_iff_both_acked
    (mkActivationRequest (str "op") 1 (str "lease") 1 [str "local"; str "peer"])
    (fun _ => Some (str "d")) _ [Drained; MadeReady; Acked (str "local")]
    (mkActivation _ _ _ _ _ _)); [reflexivity| |].
  - apply (bool_decide_unpack _). vm_compute. exact I.
  - eapply (run_next _ [Drained; MadeReady]); [eapply (run_next _ [Drained])|];
      [eapply (run_next _ []); [constructor|]|..]; reflexivity.
Defined.
