(* ===== verification/FileTree.v ===== *)
(** * Paths and a tree of files with symbolic links

    Rust's [Path] as the list of its [components], and what the program uses of a file
    system with links: [canonicalize], [exists], [create_dir_all], [read].  A tree
    maps the real path of a file, a list of names from the root, to what is there. *)

From S2P Require Import Prelude Bytes.

Module Component.
Inductive Component := RootDir | CurDir | ParentDir | Normal (name : bytes).
End Component.
Notation Component := Component.Component.

Global Instance Component_eq_dec : EqDecision Component.
Proof. solve_decision. Defined.

Notation path := (list Component).
Notation real_path := (list bytes).

(** [Path::is_absolute] and [Path::join]. *)
Definition is_absolute (p : path) : bool :=
  match p with Component.RootDir :: _ => true | _ => false end.
Definition path_join (p q : path) : path := if is_absolute q then q else p ++ q.

(** [Path::parent]: all but the last component. *)
Definition path_parent (p : path) : option path :=
  match last p with
  | None | Some Component.RootDir => None
  | Some _ => Some (removelast p)
  end.

Definition normal (names : list string) : path := map (fun s => Component.Normal (str s)) names.

Inductive node := Dir | File (b : bytes) | Link (target : path).

Notation tree := (gmap real_path node).

(** The number of links a resolution may follow. *)
Definition MAX_LINKS : nat := 32.

Section resolution.
Context (t : tree).

(** Resolve the components [rest] from the directory [cur]. *)
Fixpoint walk (links : nat) : real_path → path → option real_path :=
  fix go (cur : real_path) (rest : path) : option real_path :=
    match rest with
    | [] => Some cur
    | Component.RootDir :: rest => go [] rest
    | Component.CurDir :: rest => go cur rest
    | Component.ParentDir :: rest => go (removelast cur) rest
    | Component.Normal n :: rest =>
        match t !! (cur ++ [n]) with
        | None => None
        | Some Dir => go (cur ++ [n]) rest
        | Some (File _) => match rest with [] => Some (cur ++ [n]) | _ => None end
        | Some (Link target) =>
            match links with
            | O => None
            | S links => walk links cur (target ++ rest)
            end
        end
    end.

(** [fs::canonicalize]: the real path, links followed; [None] is any error. *)
Definition canonicalize (p : path) : option real_path := walk MAX_LINKS [] p.

(** [Path::exists] and [Path::is_dir] follow links. *)
Definition path_exists (p : path) : bool := is_some (canonicalize p).
Definition is_dir (p : path) : bool :=
  match canonicalize p with
  | Some [] => true
  | Some c => match t !! c with Some Dir => true | _ => false end
  | None => false
  end.

(** [fs::read]. *)
Definition read (p : path) : option bytes :=
  match canonicalize p with
  | Some c => match t !! c with Some (File b) => Some b | _ => None end
  | None => None
  end.

End resolution.

(** [mkdir]: the parent is a directory and the name is free. *)
Definition mkdir (p : path) (t : tree) : option tree :=
  match last p, canonicalize t (removelast p) with
  | Some (Component.Normal n), Some c =>
      match t !! (c ++ [n]) with
      | None => if is_dir t (removelast p) then Some (<[c ++ [n] := Dir]> t) else None
      | Some _ => None
      end
  | _, _ => None
  end.

(** [fs::create_dir_all]: every prefix of the path, in order. *)
Fixpoint create_prefixes (done todo : path) (t : tree) : option tree :=
  match todo with
  | [] => Some t
  | c :: todo =>
      let p := done ++ [c] in
      t' ← (if is_dir t p then Some t else mkdir p t);
      create_prefixes p todo t'
  end.
Definition create_dir_all (p : path) (t : tree) : option tree := create_prefixes [] p t.

(** ** Real paths *)

(** All directories on the way to [c] are directories, none a link. *)
Definition real_dir (t : tree) (c : real_path) : Prop :=
  ∀ c', c' `prefix_of` c → c' ≠ [] → t !! c' = Some Dir.
Definition real (t : tree) (c : real_path) : Prop :=
  real_dir t c ∨ ∃ d n b, c = d ++ [n] ∧ real_dir t d ∧ t !! c = Some (File b).

Lemma prefix_snoc {A} (l k : list A) x : l `prefix_of` k ++ [x] → l `prefix_of` k ∨ l = k ++ [x].
Proof.
  intros [m Hm]. destruct m as [|y m _] using rev_ind.
  - right. by rewrite app_nil_r in Hm.
  - left. rewrite app_assoc in Hm. apply app_inj_tail in Hm as [-> _]. by exists m.
Qed.

Lemma real_dir_snoc t c n : real_dir t c → t !! (c ++ [n]) = Some Dir → real_dir t (c ++ [n]).
Proof. intros Hc Hn c' [?| ->]%prefix_snoc Hne; [by apply Hc|done]. Qed.

Lemma real_dir_removelast t c : real_dir t c → real_dir t (removelast c).
Proof.
  intros Hc c' Hp. apply Hc. etransitivity; [exact Hp|].
  destruct c as [|x c _] using rev_ind; [done|]. rewrite removelast_last. by exists [x].
Qed.

Lemma walk_real t links cur rest c :
  real_dir t cur → walk t links cur rest = Some c → real t c.
Proof.
  revert cur rest. induction links as [|links IHl]; intros cur rest;
    revert cur; induction rest as [|x rest IH]; intros cur Hcur Hw; simpl in Hw.
  1, 3: injection Hw as <-; by left.
  all: destruct x as [| | |n]; [eapply IH, Hw| eapply IH, Hw|eapply IH, Hw|].
  all: try (done || by apply real_dir_removelast || by intros c' ?%prefix_nil_inv ?).
  all: destruct (t !! (cur ++ [n])) as [[|b|target]|] eqn:Hn; try done.
  all: try (eapply IH, Hw; by apply real_dir_snoc).
  all: try (destruct rest; [injection Hw as <-; right; eauto 10|done]).
  by eapply IHl.
Qed.

Lemma canonicalize_real t p c : canonicalize t p = Some c → real t c.
Proof. apply walk_real. intros c' ?%prefix_nil_inv ?. done. Qed.
