(* ===== verification/Registry.v ===== *)
(** * The artifact registry

    [manager/registry.rs] and [manager/verify.rs]: records of artifacts below a managed
    root, the resolution of their paths against symbolic links, the check of their
    digests, and the journal that makes the records durable.  The files of the root
    are a [tree]; the directory of the journal is a [Disk] that can crash.  The serde
    printer of the records and SHA-256 are parameters; the texts of system errors are
    left out. *)

From stdpp Require Import sorting.
From S2P Require Import Prelude Bytes Auth Disk FileTree Download.

Local Open Scope rust_scope.

(** src/src/manager/registry.rs:28-36 (MANAGED_ROOT_RELATIVE) *)
Definition MANAGED_ROOT_RELATIVE : path := normal ["Library"; "Application Support"; "siderostat"]%string.
Definition SOURCES_DIR : path := normal ["ds4"; "sources"]%string.
Definition BUILDS_DIR : path := normal ["ds4"; "builds"]%string.
Definition MODELS_DIR : path := normal ["ds4"; "models"]%string.
Definition OPERATIONS_DIR : path := normal ["ds4"; "operations"]%string.
Definition LOGS_DIR : path := normal ["ds4"; "logs"]%string.

(** src/src/manager/registry.rs:42-49 (ManagedPaths) *)
Record ManagedPaths := mkPaths {
  sources : path; builds : path; models : path; operations : path; logs : path }.

(** src/src/manager/registry.rs:51-62 (ManagedPaths::from_root) *)
Definition from_root (root : path) : ManagedPaths :=
  mkPaths (path_join root SOURCES_DIR) (path_join root BUILDS_DIR) (path_join root MODELS_DIR)
    (path_join root OPERATIONS_DIR) (path_join root LOGS_DIR).

(** src/src/manager/registry.rs:75-79 (ManagerRoot::default_from_home) *)
Definition default_from_home (home : path) : path := path_join home MANAGED_ROOT_RELATIVE.

Module ArtifactState.

(** src/src/manager/registry.rs:98-111 (ArtifactState) *)
Inductive ArtifactState := Staged | Verified | Active | Previous | Quarantined.

(** src/src/manager/registry.rs:113-123 (ArtifactState::as_str) *)
Definition as_str (self : ArtifactState) : bytes :=
  str match self with
      | Staged => "staged"
      | Verified => "verified"
      | Active => "active"
      | Previous => "previous"
      | Quarantined => "quarantined"
      end.

End ArtifactState.
Notation ArtifactState := ArtifactState.ArtifactState.

Global Instance ArtifactState_eq_dec : EqDecision ArtifactState.
Proof. solve_decision. Defined.

(** src/src/manager/registry.rs:130-142 (ArtifactRecord) *)
Record ArtifactRecord := mkRecord {
  artifact_id : bytes;
  artifact_kind : bytes;
  rel_path : path;
  artifact_sha256 : bytes;
  artifact_state : ArtifactState }.

Module RegistryError.

(** src/src/manager/registry.rs:169-183 (RegistryError) *)
Inductive RegistryError :=
| PathOutsideRoot | DigestMismatch | SymlinkEscape | NotFound | Io (context : bytes).

End RegistryError.
Notation RegistryError := RegistryError.RegistryError.

(** The loop over the components.
    src/src/manager/registry.rs:153-163 (ArtifactRecord::validate_rel_path) *)
Definition inside (c : Component) : bool :=
  match c with
  | Component.ParentDir | Component.RootDir => false
  | Component.CurDir | Component.Normal _ => true
  end.

(** src/src/manager/registry.rs:149-165 (ArtifactRecord::validate_rel_path) *)
Definition validate_rel_path (rel : path) : result unit RegistryError :=
  let? _ := ensure (negb (is_absolute rel)) RegistryError.PathOutsideRoot in
  ensure (forallb inside rel) RegistryError.PathOutsideRoot.

(** src/src/manager/registry.rs:205-210 (ArtifactRegistry) *)
Record ArtifactRegistry := mkRegistry {
  root : path;
  records : gmap bytes ArtifactRecord;
  files : tree;
  journal_disk : Disk }.

Definition set_records (r : gmap bytes ArtifactRecord) (reg : ArtifactRegistry) : ArtifactRegistry :=
  mkRegistry (root reg) r (files reg) (journal_disk reg).
Definition set_files (t : tree) (reg : ArtifactRegistry) : ArtifactRegistry :=
  mkRegistry (root reg) (records reg) t (journal_disk reg).
Definition set_journal_disk (d : Disk) (reg : ArtifactRegistry) : ArtifactRegistry :=
  mkRegistry (root reg) (records reg) (files reg) d.

Notation registry A := (method ArtifactRegistry RegistryError A).

Definition io_error (context : string) : RegistryError := RegistryError.Io (str context).

(** Serialisation of the records, by serde. *)
Class RecordCodec := encode_records : gmap bytes ArtifactRecord → bytes.

(** src/src/manager/registry.rs:236-263 (ArtifactRegistry::resolve_within_root) *)
Definition resolve_within_root (rel : path) : registry path :=
  lift (validate_rel_path rel);;
  reg ← self;
  let abs := path_join (root reg) rel in
  t ← lift (ok_or (FileTree.create_dir_all (root reg) (files reg)) (io_error "create root"));
  modify (set_files t);;
  canonical_root ← lift (ok_or (canonicalize t (root reg)) (io_error "canonicalize root"));
  if path_exists t abs then
    canonical_abs ← lift (ok_or (canonicalize t abs) (io_error "canonicalize abs"));
    require (bool_decide (canonical_root `prefix_of` canonical_abs)) RegistryError.SymlinkEscape;;
    mret abs
  else
    canonical_parent ← lift (ok_or (canonicalize t (default abs (path_parent abs)))
                               (io_error "canonicalize parent"));
    require (bool_decide (canonical_root `prefix_of` canonical_parent)) RegistryError.SymlinkEscape;;
    mret abs.

(** src/src/manager/registry.rs:266-268 (ArtifactRegistry::put) *)
Definition put (record : ArtifactRecord) (reg : ArtifactRegistry) : ArtifactRegistry :=
  set_records (<[artifact_id record := record]> (records reg)) reg.

(** src/src/manager/registry.rs:271-273 (ArtifactRegistry::get) *)
Definition registry_get (reg : ArtifactRegistry) (id : bytes) : option ArtifactRecord :=
  records reg !! id.

(** The values of the [BTreeMap], in the order of the keys. *)
Definition key_le (a b : bytes * ArtifactRecord) : Prop := lex_leb (fst a) (fst b) = true.
Global Instance key_le_dec a b : Decision (key_le a b) := decide (lex_leb (fst a) (fst b) = true).
Definition values (reg : ArtifactRegistry) : list ArtifactRecord :=
  (merge_sort key_le (map_to_list (records reg))).*2.

(** src/src/manager/registry.rs:276-278 (ArtifactRegistry::list_by_state) *)
Definition list_by_state (state : ArtifactState) (reg : ArtifactRegistry) : list ArtifactRecord :=
  filter (fun r => artifact_state r = state) (values reg).

Definition with_state (state : ArtifactState) (r : ArtifactRecord) : ArtifactRecord :=
  mkRecord (artifact_id r) (artifact_kind r) (rel_path r) (artifact_sha256 r) state.

(** src/src/manager/registry.rs:281-285 (ArtifactRegistry::set_state) *)
Definition set_state (id : bytes) (state : ArtifactState) : registry unit :=
  reg ← self;
  record ← lift (ok_or (records reg !! id) RegistryError.NotFound);
  modify (set_records (<[id := with_state state record]> (records reg))).

(** The file names of the journal and of its temporary file. *)
Definition journal_name : bytes := str "registry-journal.json".
Definition journal_tmp (pid : Z) : bytes :=
  str ".tmp-" ++ journal_name ++ str "-" ++ u64_to_string pid.

(** src/src/manager/registry.rs:342-364 (atomic_write) *)
Definition atomic_write (name tmp contents : bytes) : io unit :=
  Disk.create_dir_all;;
  f ← create_file tmp;
  write_all f contents;;
  sync_file f;;
  rename tmp name.

Section registry.
Context `{Crypto, RecordCodec} (pid : Z).

(** src/src/manager/registry.rs:288-292 (ArtifactRegistry::file_sha256) *)
Definition file_sha256 (rel : path) : registry bytes :=
  abs ← resolve_within_root rel;
  reg ← self;
  b ← lift (ok_or (read (files reg) abs) (io_error "read"));
  mret (sha256_hex b).

Fixpoint check_digests (rs : list ArtifactRecord) : registry unit :=
  match rs with
  | [] => mret tt
  | r :: rs =>
      actual ← file_sha256 (rel_path r);
      require (bool_decide (actual = artifact_sha256 r)) RegistryError.DigestMismatch;;
      check_digests rs
  end.

(** src/src/manager/registry.rs:299-307 (ArtifactRegistry::verify_active_digests) *)
Definition verify_active_digests : registry unit :=
  reg ← self; check_digests (list_by_state ArtifactState.Active reg).

(** src/src/manager/registry.rs:313-315 (ArtifactRegistry::can_activate) *)
Definition can_activate : registry unit := verify_active_digests.

(** src/src/manager/registry.rs:326-334 (ArtifactRegistry::persist_journal) *)
Definition persist_journal : registry unit :=
  reg ← self;
  on_field journal_disk set_journal_disk
    (map_error (fun _ => io_error "journal")
       (Disk.create_dir_all;;
        atomic_write journal_name (journal_tmp pid) (encode_records (records reg)))).

End registry.

(** ** Verification *)

(** src/src/manager/verify.rs:20-30 (VerifiedArtifact) *)
Record VerifiedArtifact := mkVerified {
  verified_id : bytes;
  verified_kind : bytes;
  verified_path : path;
  verified_sha256 : bytes }.
Module VerifyError.

(** src/src/manager/verify.rs:33-43 (VerifyError) *)
Inductive VerifyError := Quarantined | NotFound | Io (context : RegistryError) | PathOutsideRoot.

(** src/src/manager/verify.rs:58-66 (From<RegistryError> for VerifyError) *)
Definition of_registry (e : RegistryError) : VerifyError :=
  match e with
  | RegistryError.PathOutsideRoot => PathOutsideRoot
  | RegistryError.NotFound => NotFound
  | e => Io e
  end.

End VerifyError.
Notation VerifyError := VerifyError.VerifyError.

Notation verify A := (method ArtifactRegistry VerifyError A).

Section verification.
Context `{Crypto, RecordCodec} (pid : Z).

(** src/src/manager/verify.rs:74-103 (verify_artifact) *)
Definition verify_artifact (id expected : bytes) : verify VerifiedArtifact :=
  reg ← self;
  record ← lift (ok_or (registry_get reg id) VerifyError.NotFound);
  actual ← map_error VerifyError.of_registry (file_sha256 (rel_path record));
  if bool_decide (actual = expected) then
    let rec := mkRecord (artifact_id record) (artifact_kind record) (rel_path record) expected
                 ArtifactState.Verified in
    modify (put rec);;
    map_error VerifyError.Io (persist_journal pid);;
    mret (mkVerified (artifact_id record) (artifact_kind record) (rel_path record) expected)
  else
    attempt (set_state id ArtifactState.Quarantined);;
    fail VerifyError.Quarantined.

(** Syncing the artifact file: it opens, or it does not.
    src/src/manager/verify.rs:132-139 (sync_file) *)
Definition sync_artifact (abs : path) : verify unit :=
  reg ← self;
  require (path_exists (files reg) abs) (VerifyError.Io (io_error "open")).

(** src/src/manager/verify.rs:111-129 (publish_verified) *)
Definition publish_verified (id expected : bytes) : verify VerifiedArtifact :=
  verified ← verify_artifact id expected;
  abs ← map_error VerifyError.of_registry (resolve_within_root (verified_path verified));
  sync_artifact abs;;
  map_error VerifyError.Io (persist_journal pid);;
  mret verified.

(** src/src/manager/verify.rs:145-159 (recheck_verified) *)
Definition recheck_verified (id expected : bytes) : verify unit :=
  reg ← self;
  record ← lift (ok_or (registry_get reg id) VerifyError.NotFound);
  actual ← map_error VerifyError.of_registry (file_sha256 (rel_path record));
  require (bool_decide (actual = expected)) VerifyError.Quarantined.

End verification.

(** ** Resolution stays in the root *)

(** [t'] is [t] with directories added. *)
Definition dirs_added (t t' : tree) : Prop :=
  ∀ c, t' !! c = t !! c ∨ (t !! c = None ∧ t' !! c = Some Dir).

Global Instance dirs_added_preorder : PreOrder dirs_added.
Proof.
  split; [by left|]. intros t1 t2 t3 H12 H23 c.
  destruct (H12 c) as [E1|[E1 E1']], (H23 c) as [E2|[E2 E2']].
  - left. congruence.
  - right. split; congruence.
  - right. split; congruence.
  - congruence.
Qed.

Lemma create_prefixes_adds done todo t t' :
  create_prefixes done todo t = Some t' → dirs_added t t'.
Proof.
  revert done t. induction todo as [|x todo IH]; intros done t; simpl; [by intros [= <-]|].
  destruct (is_dir t (done ++ [x])); simpl; [apply IH|].
  destruct (mkdir (done ++ [x]) t) as [t1|] eqn:Hm; simpl; [|done].
  intros ?%IH. etransitivity; [|done]. intros c. revert Hm. unfold mkdir.
  destruct (last (done ++ [x])) as [[| | |n]|]; try done.
  destruct (canonicalize t (removelast (done ++ [x]))) as [d|]; [|done].
  destruct (t !! (d ++ [n])) eqn:Hd; [done|]. destruct (is_dir t _); [|done]. intros [= <-].
  destruct (decide (c = d ++ [n])) as [->|].
  - right. by rewrite lookup_insert_eq.
  - left. by rewrite lookup_insert_ne.
Qed.

(** The file that the path [rel] of a registry leads to: its real path [c], below the
    real path of the root, no link on the way, and its bytes. *)
Definition managed_file (reg : ArtifactRegistry) (rel : path) (c : real_path) (b : bytes) : Prop :=
  files reg !! c = Some (File b)
  ∧ ∃ t r, dirs_added (files reg) t ∧ canonicalize t (root reg) = Some r ∧ r `prefix_of` c
    ∧ canonicalize t (path_join (root reg) rel) = Some c ∧ real t c.

Lemma wp_resolve rel reg :
  wp (resolve_within_root rel)
    (fun abs reg' => ∃ t r, reg' = set_files t reg ∧ dirs_added (files reg) t
       ∧ abs = path_join (root reg) rel ∧ canonicalize t (root reg) = Some r
       ∧ ∀ c, canonicalize t abs = Some c → r `prefix_of` c)
    (fun _ reg' => ∃ t, reg' = set_files t reg ∧ dirs_added (files reg) t) reg.
Proof.
  assert (Hsame : ∃ t, reg = set_files t reg ∧ dirs_added (files reg) t)
    by (exists (files reg); split; [by destruct reg|done]).
  unfold resolve_within_root. apply wp_bind, wp_lift. destruct (validate_rel_path rel); [|done].
  apply wp_bind, wp_self, wp_bind, wp_lift.
  destruct (FileTree.create_dir_all (root reg) (files reg)) as [t|] eqn:Ht; simpl; [|done].
  apply create_prefixes_adds in Ht. apply wp_bind, wp_modify, wp_bind, wp_lift.
  destruct (canonicalize t (root reg)) as [r|] eqn:Hr; simpl; [|eauto].
  unfold path_exists. destruct (canonicalize t (path_join (root reg) rel)) as [c|] eqn:Hc; simpl.
  - apply wp_bind, wp_lift. simpl. apply wp_bind, wp_require; intros Hp; [|eauto].
    apply wp_ret. bool_to_prop. exists t, r. split_and!; try done. intros c'. rewrite Hc. by intros [= <-].
  - apply wp_bind, wp_lift. destruct (canonicalize t (default _ _)); simpl; [|eauto].
    apply wp_bind, wp_require; intros Hp; [|eauto].
    apply wp_ret. exists t, r. split_and!; try done. intros c'. by rewrite Hc.
Qed.

Section registry_theorems.
Context `{Crypto, RecordCodec} (pid : Z).

Lemma wp_file_sha256 rel reg :
  wp (file_sha256 rel)
    (fun h reg' => ∃ t c b, reg' = set_files t reg ∧ dirs_added (files reg) t
       ∧ managed_file reg rel c b ∧ h = sha256_hex b)
    (fun _ reg' => ∃ t, reg' = set_files t reg ∧ dirs_added (files reg) t) reg.
Proof.
  apply wp_bind. wp_use wp_resolve; [|done].
  intros abs reg' (t & r & -> & Ht & -> & Hr & Hin).
  apply wp_bind, wp_self, wp_bind, wp_lift. simpl. unfold read.
  destruct (canonicalize t (path_join (root reg) rel)) as [c|] eqn:Hc; simpl; [|eauto].
  destruct (t !! c) as [[|b|]|] eqn:Hb; simpl; eauto.
  apply wp_ret. exists t, c, b. split_and!; try done. split.
  - destruct (Ht c) as [Heq|[_ Heq]]; congruence.
  - exists t, r. split_and!; try done; [by apply Hin|by eapply canonicalize_real].
Qed.

Lemma managed_before t reg rel c b :
  dirs_added (files reg) t → managed_file (set_files t reg) rel c b → managed_file reg rel c b.
Proof.
  intros Ht (Hc & t' & r & Ht' & Hrest). split.
  - destruct (Ht c) as [Heq|[_ Heq]]; simpl in *; congruence.
  - exists t', r. split; [by etransitivity|done].
Qed.

Lemma wp_check_digests rs reg :
  wp (check_digests rs)
    (fun _ reg' => Forall (fun r => ∃ c b, managed_file reg (rel_path r) c b
                                         ∧ sha256_hex b = artifact_sha256 r) rs)
    (fun _ _ => True) reg.
Proof.
  revert reg. induction rs as [|r rs IH]; intros reg; simpl; [by apply wp_ret|].
  apply wp_bind. wp_use wp_file_sha256; [|done]. intros h reg' (t & c & b & -> & Ht & Hm & ->).
  apply wp_bind, wp_require; intros Hh; [|done]. bool_to_prop. wp_use IH; [|done].
  intros _ reg' Hrs. constructor; [eauto|]. eapply Forall_impl; [exact Hrs|].
  intros r' (c' & b' & Hm' & ?). exists c', b'. split; [by eapply managed_before|done].
Qed.

Lemma elem_of_values reg r :
  r ∈ values reg ↔ ∃ id, records reg !! id = Some r.
Proof.
  unfold values. rewrite list_elem_of_fmap. split.
  - intros ([id r'] & -> & Hin). rewrite merge_sort_Permutation in Hin.
    apply elem_of_map_to_list in Hin. eauto.
  - intros [id Hid]. exists (id, r). split; [done|]. rewrite merge_sort_Permutation.
    by apply elem_of_map_to_list.
Qed.

(** An activation is only allowed when every artifact recorded as active is, byte
    for byte, what its record says: its path leads, through no link out of the
    managed root, to a file with the recorded SHA-256. *)
Lemma activation_checks_active reg reg' id r :
  can_activate reg = (Ok tt, reg') → records reg !! id = Some r →
  artifact_state r = ArtifactState.Active →
  ∃ c b, managed_file reg (rel_path r) c b ∧ sha256_hex b = artifact_sha256 r.
Proof.
  intros Hcan Hr Ha.
  assert (Hwp := wp_check_digests (list_by_state ArtifactState.Active reg) reg).
  unfold can_activate, verify_active_digests in Hcan. unfold mbind, method_bind, self in Hcan.
  unfold wp in Hwp. rewrite Hcan in Hwp. rewrite Forall_forall in Hwp. apply Hwp.
  apply list_elem_of_filter. split; [done|]. apply elem_of_values. eauto.
Qed.

(** ** Verification *)

Definition verified_record (expected : bytes) (r : ArtifactRecord) : ArtifactRecord :=
  mkRecord (artifact_id r) (artifact_kind r) (rel_path r) expected ArtifactState.Verified.

(** What a verification of the record [r], under the id [id], says and does. *)
Definition verification (reg : ArtifactRegistry) (id expected : bytes) (r : ArtifactRecord)
    (res : result VerifiedArtifact VerifyError) (reg' : ArtifactRegistry) : Prop :=
  match res with
  | Ok v =>
      verified_path v = rel_path r ∧ verified_sha256 v = expected
      ∧ records reg' = <[id := verified_record expected r]> (records reg)
      ∧ ∃ c b, managed_file reg (rel_path r) c b ∧ sha256_hex b = expected
  | Err VerifyError.Quarantined =>
      records reg' = <[id := with_state ArtifactState.Quarantined r]> (records reg)
      ∧ ∃ c b, managed_file reg (rel_path r) c b ∧ sha256_hex b ≠ expected
  | Err _ =>
      records reg' = records reg
      ∨ (records reg' = <[id := verified_record expected r]> (records reg)
         ∧ ∃ c b, managed_file reg (rel_path r) c b ∧ sha256_hex b = expected)
  end.

Lemma wp_persist (Q : unit → ArtifactRegistry → Prop) X reg :
  (∀ d, Q tt (set_journal_disk d reg)) →
  (∀ c d, X (RegistryError.Io c) (set_journal_disk d reg)) → wp (persist_journal pid) Q X reg.
Proof.
  intros HQ HX. apply wp_bind, wp_self, wp_on_field, wp_map_error. unfold wp.
  repeat case_match; subst; [destruct a; apply HQ|apply HX].
Qed.

(** Verifying an artifact tells the truth: it succeeds only if the file its path
    leads to, inside the managed root, has the expected SHA-256, and then records the
    artifact as verified with that digest; it reports a quarantine only if the digest
    differs, and records it; and no other failure marks an artifact verified that is
    not. *)
Lemma verify_artifact_truthful reg id expected r :
  records reg !! id = Some r → artifact_id r = id →
  let '(res, reg') := verify_artifact pid id expected reg in
  verification reg id expected r res reg'.
Proof.
  intros Hr Hid.
  assert (Hwp : wp (verify_artifact pid id expected)
    (fun v => verification reg id expected r (Ok v))
    (fun e => verification reg id expected r (Err e)) reg).
  { apply wp_bind, wp_self, wp_bind, wp_lift. unfold registry_get. rewrite Hr. simpl.
    apply wp_bind, wp_map_error. wp_use wp_file_sha256.
    2: { intros e reg' (t & -> & _). destruct e; by left. }
    intros h reg1 (t & c & b & -> & Ht & Hm & ->). case_bool_decide as Hh.
    - apply wp_bind, wp_modify, wp_bind, wp_map_error. apply wp_persist.
      + intros d. apply wp_ret. subst id. simpl. split_and!; [done..|]. subst expected. eauto.
      + intros cx d. right. subst id expected. split; [done|]. eauto.
    - apply wp_bind, wp_attempt. unfold set_state. apply wp_bind, wp_self, wp_bind, wp_lift.
      simpl. rewrite Hr. simpl. apply wp_modify, wp_fail. split; [done|]. eauto. }
  unfold wp in Hwp. by destruct (verify_artifact pid id expected reg) as [[v|e] reg'].
Qed.

(** ** The journal *)

Lemma journal_tmp_ne p : journal_tmp p ≠ journal_name.
Proof. intros Heq%(f_equal length). unfold journal_tmp in Heq. rewrite !length_app in Heq. simpl in Heq. lia. Qed.

Lemma wp_atomic_write name tmp P b d :
  tmp ≠ name → holds name tmp P d →
  wp (atomic_write name tmp b) (fun _ => replaced name tmp P b) (fun _ => holds name tmp P) d.
Proof.
  intros Hne Hd. apply wp_bind, wp_syscall; [done..|]. apply wp_ret, wp_bind.
  wp_use (wp_create name tmp Hne P); [done| |done]. intros i d1 H1. apply wp_bind.
  wp_use (wp_write name tmp); [exact H1| |done]. intros _ d2 H2. apply wp_bind.
  wp_use (wp_sync_file name tmp); [exact H2| |done]. intros _ d3 H3.
  by wp_use (wp_rename name tmp Hne); [exact H3|..].
Qed.

(** Publishing the records never loses the records published before: whichever
    call fails and wherever the machine stops, the journal read afterwards is the old
    one or the new one, complete; and it is the new one if publishing succeeded and
    the machine went on. *)
Lemma journal_is_atomic old reg d' :
  holds journal_name (journal_tmp pid) (eq (Some old)) (journal_disk reg) →
  let '(r, reg') := persist_journal pid reg in
  let new := encode_records (records reg) in
  (crash (journal_disk reg') d' →
     file_content journal_name d' = Some old ∨ file_content journal_name d' = Some new)
  ∧ (r = Ok tt → file_content journal_name (journal_disk reg') = Some new).
Proof.
  intros Hold. set (new := encode_records (records reg)).
  set (P := eq (Some old)). pose proof (journal_tmp_ne pid) as Hne.
  assert (Hwp : wp (persist_journal pid)
    (fun _ reg' => replaced journal_name (journal_tmp pid) P new (journal_disk reg'))
    (fun _ reg' => holds journal_name (journal_tmp pid) P (journal_disk reg')) reg).
  { apply wp_bind, wp_self, wp_on_field, wp_map_error, wp_bind, wp_syscall; [done..|].
    apply wp_ret. by wp_use wp_atomic_write. }
  unfold wp in Hwp. destruct (persist_journal pid reg) as [[[]|e] reg'].
  - destruct Hwp as [Hd He]. split.
    + intros Hc. destruct (crash_holds _ _ _ _ _ Hd Hc) as [<-| ->]; auto.
    + intros _. unfold safe_entry, file_content in *.
      destruct (entries (journal_disk reg') !! journal_name) as [i|]; [|done]. simpl.
      by destruct He as (_ & n & -> & _ & ->).
  - split; [|done]. intros Hc. left. symmetry. exact (crash_holds _ _ _ _ _ Hwp Hc).
Qed.

End registry_theorems.

(** Publishing an artifact, and checking it again before an activation, also only
    succeed on the expected bytes. *)
Lemma recheck_sound `{Crypto} reg id expected r reg' :
  records reg !! id = Some r → recheck_verified id expected reg = (Ok tt, reg') →
  ∃ c b, managed_file reg (rel_path r) c b ∧ sha256_hex b = expected.
Proof.
  intros Hr Hok.
  assert (Hwp : wp (recheck_verified id expected)
    (fun _ _ => ∃ c b, managed_file reg (rel_path r) c b ∧ sha256_hex b = expected)
    (fun _ _ => True) reg).
  { apply wp_bind, wp_self, wp_bind, wp_lift. unfold registry_get. rewrite Hr. simpl.
    apply wp_bind, wp_map_error. wp_use wp_file_sha256; [|done].
    intros h reg1 (t & c & b & _ & _ & Hm & ->). apply wp_require; intros Hh; [|done].
    bool_to_prop. eauto. }
  unfold wp in Hwp. by rewrite Hok in Hwp.
Qed.

(** ** Witnesses *)

Module DemoRegistry.

#[local] Existing Instance toy_crypto.
Definition codec : RecordCodec := fun m => str "records".
#[local] Existing Instance codec.

Definition root_path : path := Component.RootDir :: normal ["srv"]%string.
Definition weights : path := normal ["m.bin"]%string.
Definition t : tree :=
  {[ [str "srv"] := Dir; [str "srv"; str "m.bin"] := File (str "abc");
     [str "srv"; str "new.bin"] := Link (Component.RootDir :: normal ["outside.bin"]%string) ]}.

Definition record (state : ArtifactState) : ArtifactRecord :=
  mkRecord (str "m") (str "model") weights (sha256_hex (str "abc")) state.
Definition journal : Disk :=
  {| entries := {[ journal_name := 0%nat ]}; unsynced := [];
     inodes := {[ 0%nat := {| content := str "old"; synced := true |} ]}; script := [] |}.
Definition reg (state : ArtifactState) : ArtifactRegistry :=
  mkRegistry root_path {[ str "m" := record state ]} t journal.

(** A link that leads out of the root is accepted as long as nothing is there: the
    path is resolved, and a file created under it would lie outside. *)
Example dangling_link_is_resolved :
  is_ok (fst (resolve_within_root (normal ["new.bin"]%string) (reg ArtifactState.Staged))) = true.
Proof. by vm_compute. Qed.

End DemoRegistry.

Lemma activation_checks_active_witness :
  ∃ c b, managed_file (DemoRegistry.reg ArtifactState.Active) DemoRegistry.weights c b
    ∧ @sha256_hex toy_crypto b = @sha256_hex toy_crypto (str "abc").
Proof.
  eapply (@activation_checks_active toy_crypto _ _ (str "m") (DemoRegistry.record ArtifactState.Active));
    vm_compute; reflexivity.
Defined.

Lemma verify_artifact_truthful_witness :
  let r := DemoRegistry.record ArtifactState.Staged in
  let '(res, reg') := @verify_artifact toy_crypto DemoRegistry.codec 7 (str "m")
    (@sha256_hex toy_crypto (str "abc")) (DemoRegistry.reg ArtifactState.Staged) in
  @verification toy_crypto (DemoRegistry.reg ArtifactState.Staged) (str "m")
    (@sha256_hex toy_crypto (str "abc")) r res reg'.
Proof.
  apply (@verify_artifact_truthful toy_crypto DemoRegistry.codec); vm_compute; reflexivity.
Defined.

Lemma journal_is_atomic_witness :
  let '(r, reg') := @persist_journal DemoRegistry.codec 7 (DemoRegistry.reg ArtifactState.Staged) in
  (crash (journal_disk reg') DemoRegistry.journal →
     file_content journal_name DemoRegistry.journal = Some (str "old")
     ∨ file_content journal_name DemoRegistry.journal = Some (str "records"))
  ∧ (r = Ok tt → file_content journal_name (journal_disk reg') = Some (str "records")).
Proof.
  apply (@journal_is_atomic DemoRegistry.codec 7 (str "old") (DemoRegistry.reg ArtifactState.Staged)).
  constructor; [|constructor]. unfold safe_entry. simpl. rewrite lookup_singleton_eq.
  split; [split; vm_compute; discriminate|].
  exists {| content := str "old"; synced := true |}. split; [vm_compute; reflexivity|done].
Defined.
