(* ===== verification/Catalog.v ===== *)
(** * Catalog, sources, builds and staging of models

    [manager/catalog.rs], [stage.rs], [compatibility.rs], [source.rs] and [build.rs]:
    what may be fetched, built, staged and smoke-tested.  Git, the file system of a
    build workspace, the process runner and the Unicode lower-case mapping are
    interfaces. *)

From S2P Require Import Prelude Bytes Utf8 Auth Download.

Local Open Scope rust_scope.

Module CapabilityStatus.

(** src/src/manager/catalog.rs:22-34 (CapabilityStatus) *)
Inductive CapabilityStatus := Reference | Candidate | Stable | Unsupported.

End CapabilityStatus.
Notation CapabilityStatus := CapabilityStatus.CapabilityStatus.

(** src/src/manager/catalog.rs:41-76 (ModelCatalogEntry) *)
Record ModelCatalogEntry := mkEntry {
  catalog_id : bytes;
  entry_url : bytes;
  entry_allowlist : list bytes;
  entry_size : Z;
  entry_sha256 : bytes;
  license : bytes;
  family : bytes;
  quantization : bytes;
  encoder : option bytes;
  support : option bytes;
  prefix_file : option bytes;
  reference : option bytes;
  main_integrated : bool;
  ram_reference : option bytes;
  compatibility : list bytes;
  entry_status : CapabilityStatus }.

Module CatalogError.

(** src/src/manager/catalog.rs:80-91 (CatalogError) *)
Inductive CatalogError :=
| Load | Parse
| MissingChecksum (id : bytes)
| Unsupported (message : bytes)
| Unfounded (message : bytes).

End CatalogError.
Notation CatalogError := CatalogError.CatalogError.

(** [str::to_lowercase]: the Unicode mapping. *)
Class Lowercase := to_lowercase : bytes → bytes.

Section catalog.
Context `{Lowercase}.

(** src/src/manager/catalog.rs:108-116 (vision_0731_unsupported) *)
Definition vision_0731_unsupported (e : ModelCatalogEntry) : bool :=
  contains (str "vision") (to_lowercase (family e))
  && is_some_and (support e) (contains (str "0731")).

(** src/src/manager/catalog.rs:122-132 (tp_unfounded_dspark) *)
Definition tp_unfounded_dspark (e : ModelCatalogEntry) : bool :=
  let is_dspark := contains (str "dspark") (to_lowercase (family e)) in
  let is_tp := contains (str "tp") (to_lowercase (quantization e))
               || existsb (fun c => contains (str "tp") (to_lowercase c)) (compatibility e) in
  let has_reference := is_some_and (reference e) (fun r => negb (bool_decide (r = []))) in
  is_dspark && is_tp && negb has_reference.

(** src/src/manager/catalog.rs:141-150 (compute_status) *)
Definition compute_status (e : ModelCatalogEntry) : CapabilityStatus :=
  if vision_0731_unsupported e then CapabilityStatus.Unsupported
  else if negb (main_integrated e) then CapabilityStatus.Reference
  else CapabilityStatus.Candidate.

Definition set_status (s : CapabilityStatus) (e : ModelCatalogEntry) : ModelCatalogEntry :=
  mkEntry (catalog_id e) (entry_url e) (entry_allowlist e) (entry_size e) (entry_sha256 e)
    (license e) (family e) (quantization e) (encoder e) (support e) (prefix_file e)
    (reference e) (main_integrated e) (ram_reference e) (compatibility e) s.

(** src/src/manager/catalog.rs:159-180 (validate_entry) *)
Definition validate_entry (e : ModelCatalogEntry) : result ModelCatalogEntry CatalogError :=
  let? _ := ensure (negb (trim_is_empty (entry_sha256 e))) (CatalogError.MissingChecksum (catalog_id e)) in
  let? _ := ensure (negb (vision_0731_unsupported e))
    (CatalogError.Unsupported
       (catalog_id e ++ str ": vision + 0731 support is not a supported combination")) in
  let? _ := ensure (negb (tp_unfounded_dspark e))
    (CatalogError.Unfounded
       (catalog_id e ++ str ": TP dspark without upstream reference is unfounded")) in
  Ok (set_status (compute_status e) e).

Fixpoint validate_all (seen : gset bytes) (es : list ModelCatalogEntry)
    : result (list ModelCatalogEntry) CatalogError :=
  match es with
  | [] => Ok []
  | e :: es =>
      let? _ := ensure (negb (bool_decide (catalog_id e ∈ seen)))
        (CatalogError.Unsupported (str "duplicate catalog_id: " ++ catalog_id e)) in
      let? v := validate_entry e in
      let? vs := validate_all ({[catalog_id e]} ∪ seen) es in
      Ok (v :: vs)
  end.

(** [text] is the file, [parse] serde's decoder.
    src/src/manager/catalog.rs:183-200 (load_and_validate) *)
Definition load_and_validate (text : option bytes) (parse : bytes → option (list ModelCatalogEntry))
    : result (list ModelCatalogEntry) CatalogError :=
  let? t := ok_or text CatalogError.Load in
  let? es := ok_or (parse t) CatalogError.Parse in
  validate_all ∅ es.

End catalog.

(** ** Staging *)

Module StagedProfileStatus.

(** src/src/manager/stage.rs:21-28 (StagedProfileStatus) *)
Inductive StagedProfileStatus := Validated | HardwarePending.

End StagedProfileStatus.
Notation StagedProfileStatus := StagedProfileStatus.StagedProfileStatus.

Global Instance StagedProfileStatus_eq_dec : EqDecision StagedProfileStatus.
Proof. solve_decision. Defined.

(** src/src/manager/stage.rs:31-43 (StagedProfile) *)
Record StagedProfile := mkStaged {
  staged_id : bytes;
  staged_artifacts : list bytes;
  staged_model : ModelCatalogEntry;
  staged_context : Z;
  staged_status : StagedProfileStatus }.

(** src/src/manager/stage.rs:46-56 (ActivationPlan) *)
Record ActivationPlan := mkPlan {
  plan_profile : bytes;
  plan_generation : Z;
  plan_lease : bytes;
  plan_ready : bool }.

Module StageError.

(** src/src/manager/stage.rs:59-71 (StageError) *)
Inductive StageError :=
| FamilyMismatch (message : bytes) | PrefixDigestMismatch (message : bytes)
| MissingPrefixFile | RamUnconfirmed | NoRoleArtifacts.

End StageError.
Notation StageError := StageError.StageError.

(** src/src/manager/stage.rs:90-106 (StageRequest) *)
Record StageRequest := mkStageRequest {
  stage_profile_id : bytes;
  role_artifacts : list bytes;
  stage_model : ModelCatalogEntry;
  expected_family : bytes;
  context_size : Z;
  expected_prefix_digest : option bytes;
  ram_confirmed : bool }.

(** src/src/manager/stage.rs:115-151 (stage_profile) *)
Definition stage_profile (req : StageRequest) : result StagedProfile StageError :=
  let m := stage_model req in
  let? _ := ensure (negb (bool_decide (role_artifacts req = []))) StageError.NoRoleArtifacts in
  let? _ := ensure (eq_ignore_ascii_case (family m) (expected_family req))
    (StageError.FamilyMismatch
       (str "expected " ++ expected_family req ++ str " got " ++ family m)) in
  let? _ := match prefix_file m, expected_prefix_digest req with
            | Some actual, Some expected =>
                ensure (bool_decide (actual = expected))
                  (StageError.PrefixDigestMismatch
                     (str "expected " ++ expected ++ str " got " ++ actual))
            | None, Some _ => Err StageError.MissingPrefixFile
            | _, _ => Ok tt
            end in
  Ok (mkStaged (stage_profile_id req) (role_artifacts req) m (context_size req)
        (if ram_confirmed req then StagedProfileStatus.Validated
         else StagedProfileStatus.HardwarePending)).

(** src/src/manager/stage.rs:157-168 (build_activation_plan) *)
Definition build_activation_plan (staged : StagedProfile) (generation : Z) (lease : bytes)
    : ActivationPlan :=
  mkPlan (staged_id staged) generation lease
    (bool_decide (staged_status staged = StagedProfileStatus.Validated)).

(** src/src/manager/compatibility.rs:15-21 (CompatibilityError) *)
Inductive CompatibilityError := StageFailed (e : StageError) | MissingFixture.

(** src/src/manager/compatibility.rs:99-107 (SmokeOutcome) *)
Record SmokeOutcome := mkSmoke { smoke_profile : bytes; smoke_fixture : bytes; smoke_ok : bool }.

(** The request is a [StageRequest] with a fixture, which exists or not.
    src/src/manager/compatibility.rs:68-96 (compatibility_smoke) *)
Definition compatibility_smoke (req : StageRequest) (fixture : bytes) (fixture_exists : bool)
    : result SmokeOutcome CompatibilityError :=
  let? staged := map_err StageFailed (stage_profile req) in
  let? _ := ensure fixture_exists MissingFixture in
  match staged_status staged with
  | StagedProfileStatus.Validated => Ok (mkSmoke (staged_id staged) fixture true)
  | StagedProfileStatus.HardwarePending => Ok (mkSmoke (staged_id staged) fixture false)
  end.

(** ** Sources *)

(** src/src/manager/registry.rs:376-386 (SourceRecord) *)
Record SourceRecord := mkSource {
  source_remote : bytes;
  full_commit : bytes;
  main_proof : bytes;
  fetched_at : Z }.

Module SourceError.

(** src/src/manager/source.rs:26-37 (SourceError) *)
Inductive SourceError :=
| UnapprovedRemote | UnsafeRevision | GitFailed (message : bytes) | NotOnMain | NoCandidate.

End SourceError.
Notation SourceError := SourceError.SourceError.

(** [char::is_control]: the control characters of Latin-1. *)
Definition is_control (c : Z) : bool := (c <=? 31) || ((127 <=? c) && (c <=? 159)).

(** The characters that a shell would interpret. *)
Definition shell_special : list Z := [59; 124; 38; 36; 96; 62; 60].

(** src/src/manager/source.rs:132-147 (validate_revision) *)
Definition validate_revision (revision : bytes) : result unit SourceError :=
  let? _ := ensure (negb (bool_decide (revision = []))) SourceError.UnsafeRevision in
  let? _ := ensure (negb (starts_with (str "-") revision)) SourceError.UnsafeRevision in
  ensure (negb (existsb (fun c => is_whitespace c || is_control c || bool_decide (c ∈ shell_special))
                  (chars revision))) SourceError.UnsafeRevision.

(** Git: the answer to a command (the argument array after the fixed options that
    [GitRunner::run] adds), given the commands before; the output is trimmed. *)
Class Git := git_answer : list (list bytes) → list bytes → result bytes bytes.

Notation git A := (method (list (list bytes)) SourceError A).

Section source.
Context `{Git}.

(** src/src/manager/source.rs:104-125 (GitRunner::run) *)
Definition git_run (args : list bytes) : git bytes := fun log =>
  (map_err SourceError.GitFailed (git_answer log args), log ++ [args]).

(** [cached]: whether the cache has a [HEAD].
    src/src/manager/source.rs:156-226 (stage_source) *)
Definition stage_source (cache official : bytes) (cached : bool) (now : Z)
    (remote revision main_ref : bytes) : git SourceRecord :=
  require (bool_decide (official = remote)) SourceError.UnapprovedRemote;;
  lift (validate_revision revision);;
  (if cached then mret tt
   else git_run [str "init"; str "--bare"; cache];; mret tt);;
  let in_cache args := [str "--git-dir"; cache] ++ args in
  attempt (F := SourceError)
    (git_run (in_cache [str "fetch"; remote; main_ref ++ str ":" ++ main_ref]));;
  git_run (in_cache [str "fetch"; remote; revision]);;
  commit ← git_run (in_cache [str "rev-parse"; str "FETCH_HEAD"]);
  require (negb (bool_decide (commit = []))) (SourceError.GitFailed (str "empty full commit"));;
  ancestor ← attempt (git_run (in_cache [str "merge-base"; str "--is-ancestor"; commit; main_ref]));
  require (is_ok ancestor) SourceError.NotOnMain;;
  mret (mkSource remote commit main_ref now).

End source.

(** ** Builds *)

(** src/src/manager/registry.rs:389-405 (BuildRecord) *)
Record BuildRecord := mkBuild {
  build_source : bytes;
  build_flags : bytes;
  build_toolchain : bytes;
  build_arch : bytes;
  build_role : bytes;
  build_digest : bytes;
  help_digest : bytes }.

Module BuildError.

(** The texts of system errors are left out.
    src/src/manager/build.rs:26-41 (BuildError) *)
Inductive BuildError :=
| UnapprovedRole | UnapprovedTarget | InsufficientDisk | Failed | ReadOutput | MissingOutput | ReadHelp.

End BuildError.
Notation BuildError := BuildError.BuildError.

(** src/src/manager/build.rs:60-60 (APPROVED_ROLES) *)
Definition APPROVED_ROLES : list bytes := [str "ds4"; str "ds4-server"; str "ds4-agent"].

(** src/src/manager/build.rs:63-63 (APPROVED_MAKE_TARGETS) *)
Definition APPROVED_MAKE_TARGETS : list bytes :=
  [str "all"; str "build"; str "ds4"; str "ds4-server"; str "ds4-agent"].

(** src/src/manager/build.rs:66-68 (is_approved_role) *)
Definition is_approved_role (role : bytes) : bool := bool_decide (role ∈ APPROVED_ROLES).

(** src/src/manager/build.rs:71-73 (is_approved_target) *)
Definition is_approved_target (target : bytes) : bool := bool_decide (target ∈ APPROVED_MAKE_TARGETS).

(** src/src/manager/build.rs:77-100 (BuildRequest) *)
Record BuildRequest := mkBuildRequest {
  br_role : bytes; br_target : bytes; br_flags : bytes; br_toolchain : bytes; br_arch : bytes;
  br_source : bytes; br_make : bytes; br_output : bytes; br_help : bytes; br_disk_needed : Z }.

(** The workspace of a build: the free bytes of its file system, if they can be read,
    the run of a command in it ([Ok] when it exited with 0), and the files after the
    commands run so far. *)
Class Workspace := {
  available_bytes : option Z;
  run_group : list (bytes * list bytes) → bytes → list bytes → bool;
  workspace_file : list (bytes * list bytes) → bytes → option (option bytes) }.

Notation build A := (method (list (bytes * list bytes)) BuildError A).

Section build.
Context `{Crypto, Workspace}.

(** src/src/manager/process.rs:121-145 (GroupRunner::check_disk) *)
Definition check_disk (needed : Z) : bool :=
  match available_bytes with Some available => needed <=? available | None => false end.

Definition run_make (program : bytes) (args : list bytes) : build unit := fun log =>
  (if run_group log program args then Ok tt else Err BuildError.Failed, log ++ [(program, args)]).

(** [workspace_file] is [None] when there is no such file and [Some None] when it
    cannot be read.
    src/src/manager/build.rs:144-200 (build_artifacts) *)
Definition build_artifacts (req : BuildRequest) : build (BuildRecord * bytes) :=
  require (is_approved_role (br_role req)) BuildError.UnapprovedRole;;
  require (is_approved_target (br_target req)) BuildError.UnapprovedTarget;;
  require (check_disk (br_disk_needed req)) BuildError.InsufficientDisk;;
  run_make (br_make req) [br_target req];;
  log ← self;
  binary ← lift (ok_or (workspace_file log (br_output req)) BuildError.MissingOutput);
  b ← lift (ok_or binary BuildError.ReadOutput);
  help ← lift (ok_or (default None (workspace_file log (br_help req))) BuildError.ReadHelp);
  mret (mkBuild (br_source req) (br_flags req) (br_toolchain req) (br_arch req) (br_role req)
          (sha256_hex b) (sha256_hex help), help).

End build.

(** ** What the checks promise *)

Lemma validate_entry_ok `{Lowercase} e v :
  validate_entry e = Ok v ↔
  trim_is_empty (entry_sha256 e) = false ∧ vision_0731_unsupported e = false
  ∧ tp_unfounded_dspark e = false
  ∧ v = set_status (if main_integrated e then CapabilityStatus.Candidate
                    else CapabilityStatus.Reference) e.
Proof.
  unfold validate_entry, compute_status.
  destruct (trim_is_empty _); simpl; [naive_solver|].
  destruct (vision_0731_unsupported e); simpl; [naive_solver|].
  destruct (tp_unfounded_dspark e); simpl; [naive_solver|].
  destruct (main_integrated e); simpl; naive_solver.
Qed.

Lemma validate_all_ok `{Lowercase} seen es vs :
  validate_all seen es = Ok vs →
  NoDup (map catalog_id es) ∧ (∀ id, id ∈ map catalog_id es → id ∉ seen)
  ∧ Forall2 (fun e v => validate_entry e = Ok v) es vs.
Proof.
  revert seen vs. induction es as [|e es IH]; intros seen vs; simpl.
  { intros [= <-]. split_and!; [constructor| |constructor]. by intros id ?%not_elem_of_nil. }
  rewrite result_bind_ok. intros (? & Hs%ensure_ok & Hrest).
  apply result_bind_ok in Hrest as (v & Hv & Hrest).
  apply result_bind_ok in Hrest as (vs' & Hvs & [= <-]).
  apply IH in Hvs as (Hnd & Hseen & Hall). bool_to_prop. split_and!.
  - constructor; [|done]. intros Hin%Hseen. destruct Hin. apply elem_of_union. left. by apply elem_of_singleton.
  - intros id [->|Hin]%elem_of_cons; [done|]. apply Hseen in Hin. set_solver.
  - by constructor.
Qed.

(** A catalog that loads has each id once, and every entry of it has a checksum, none
    of the combinations known to be unsupported or unfounded, and the status of a
    candidate if it is integrated and of a reference otherwise, never that of a stable
    one. *)
Lemma loaded_catalog_valid `{Lowercase} text parse vs :
  load_and_validate text parse = Ok vs →
  NoDup (map catalog_id vs) ∧
  Forall (fun v => trim_is_empty (entry_sha256 v) = false ∧ vision_0731_unsupported v = false
    ∧ tp_unfounded_dspark v = false
    ∧ entry_status v = if main_integrated v then CapabilityStatus.Candidate
                       else CapabilityStatus.Reference) vs.
Proof.
  unfold load_and_validate. destruct text as [t|]; [|done]. simpl.
  destruct (parse t) as [es|]; [|done]. simpl. intros (Hnd & _ & Hall)%validate_all_ok.
  assert (Hids : map catalog_id vs = map catalog_id es).
  { induction Hall as [|e v es vs (_ & _ & _ & ->)%validate_entry_ok _ IH]; [done|]. simpl in *.
    apply NoDup_cons in Hnd as [_ Hnd]. by rewrite IH. }
  split; [by rewrite Hids|]. clear Hids Hnd.
  induction Hall as [|e v es vs (? & ? & ? & ->)%validate_entry_ok _ IH]; [done|]. by constructor.
Qed.

(** A profile is ready for activation exactly when it was staged with artifacts, the
    expected family and prefix file, and the memory was confirmed; a smoke test passes
    on the same condition. *)
Lemma staged_ready_iff req generation lease :
  (∃ s, stage_profile req = Ok s ∧ plan_ready (build_activation_plan s generation lease) = true)
  ↔ role_artifacts req ≠ [] ∧ eq_ignore_ascii_case (family (stage_model req)) (expected_family req) = true
    ∧ (∀ d, expected_prefix_digest req = Some d → prefix_file (stage_model req) = Some d)
    ∧ ram_confirmed req = true.
Proof.
  unfold stage_profile, build_activation_plan. case_bool_decide as Ha; simpl; [naive_solver|].
  destruct (eq_ignore_ascii_case _ _); simpl; [|naive_solver].
  destruct (expected_prefix_digest req) as [d|], (prefix_file (stage_model req)) as [d'|]; simpl;
    try case_bool_decide; simpl; destruct (ram_confirmed req); simpl; naive_solver.
Qed.

Section git_theorems.
Context `{Git}.

(** The command that asks whether a commit is on the main branch. *)
Definition ancestry_check (cache commit main_ref : bytes) : list bytes :=
  [str "--git-dir"; cache; str "merge-base"; str "--is-ancestor"; commit; main_ref].

Definition pinned (cache official main_ref : bytes) (r : SourceRecord) (log : list (list bytes)) : Prop :=
  source_remote r = official ∧ main_proof r = main_ref ∧ full_commit r ≠ []
  ∧ ∃ before out, log = before ++ [ancestry_check cache (full_commit r) main_ref]
    ∧ git_answer before (ancestry_check cache (full_commit r) main_ref) = Ok out.

Lemma wp_git_run args (Q : bytes → list (list bytes) → Prop) log :
  (∀ out, git_answer log args = Ok out → Q out (log ++ [args])) →
  wp (git_run args) Q (fun _ _ => True) log.
Proof. intros HQ. unfold wp, git_run. destruct (git_answer log args) eqn:E; simpl; auto. Qed.

Lemma wp_git_attempt args (Q : result bytes SourceError → list (list bytes) → Prop) X log :
  (∀ r, r = map_err SourceError.GitFailed (git_answer log args) → Q r (log ++ [args])) →
  wp (attempt (F := SourceError) (git_run args)) Q X log.
Proof. intros HQ. by apply HQ. Qed.

Lemma wp_stage_source cache official cached now remote revision main_ref log :
  wp (stage_source cache official cached now remote revision main_ref)
    (pinned cache official main_ref) (fun _ _ => True) log.
Proof.
  apply wp_bind, wp_require; intros Hr; [|done]. bool_to_prop. subst remote.
  apply wp_bind, wp_lift. destruct (validate_revision revision); [|done].
  assert (Hrest : ∀ l0, wp (attempt (F := SourceError) (git_run ([str "--git-dir"; cache]
        ++ [str "fetch"; official; main_ref ++ str ":" ++ main_ref]));;
      git_run ([str "--git-dir"; cache] ++ [str "fetch"; official; revision]);;
      commit ← git_run ([str "--git-dir"; cache] ++ [str "rev-parse"; str "FETCH_HEAD"]);
      require (negb (bool_decide (commit = []))) (SourceError.GitFailed (str "empty full commit"));;
      ancestor ← attempt (git_run ([str "--git-dir"; cache]
        ++ [str "merge-base"; str "--is-ancestor"; commit; main_ref]));
      require (is_ok ancestor) SourceError.NotOnMain;;
      mret (mkSource official commit main_ref now))
    (pinned cache official main_ref) (fun _ _ => True) l0).
  { intros l0. apply wp_bind, wp_git_attempt. intros _ _.
    apply wp_bind, wp_git_run. intros _ _. apply wp_bind, wp_git_run. intros commit _.
    apply wp_bind, wp_require; intros Hc; [|done]. bool_to_prop.
    apply wp_bind, wp_git_attempt. intros ancestor Ho.
    apply wp_bind, wp_require; intros Ha; [|done]. apply wp_ret.
    destruct ancestor as [out|]; [|done]. split_and!; [done..|]. eexists _, out. split; [done|].
    unfold ancestry_check. destruct (git_answer _ _); naive_solver. }
  apply wp_bind. destruct cached; [apply wp_ret, Hrest|].
  apply wp_bind, wp_git_run. intros ? _. apply wp_ret, Hrest.
Qed.

(** A source is only recorded for the official remote, and for a commit that git
    resolved and, last of all, confirmed to be an ancestor of the main branch; for any
    other remote, and for a revision that a shell or an option parser would act on, no
    git command is run at all. *)
Lemma staged_source_pinned cache official cached now remote revision main_ref log :
  let '(r, log') := stage_source cache official cached now remote revision main_ref log in
  (remote ≠ official ∨ validate_revision revision ≠ Ok tt → is_ok r = false ∧ log' = log)
  ∧ (∀ rec, r = Ok rec → pinned cache official main_ref rec log').
Proof.
  pose proof (wp_stage_source cache official cached now remote revision main_ref log) as Hwp.
  unfold wp in Hwp. destruct (stage_source _ _ _ _ _ _ _ _) as [r log'] eqn:Hs. split.
  - intros Hbad. unfold stage_source in Hs. revert Hs. unfold_method. case_bool_decide as Hr.
    + destruct (validate_revision revision) as [[]|e]; [naive_solver|]. by intros [= <- <-].
    + by intros [= <- <-].
  - by intros rec ->.
Qed.

End git_theorems.

(** A revision may be a refspec that writes the main branch of the cache, against
    which the ancestry of the commit is then checked. *)
Example refspec_is_a_valid_revision :
  validate_revision (str "+refs/heads/dev:refs/heads/main") = Ok tt.
Proof. by vm_compute. Qed.

(** A build runs one command, the approved target, and only when the role is approved
    and the disk has room; what it records are the digests of what the command left. *)
Lemma build_spec `{Crypto, Workspace} req log :
  let '(r, log') := build_artifacts req log in
  (log' = log ∨ log' = log ++ [(br_make req, [br_target req])])
  ∧ (log' ≠ log → br_role req ∈ APPROVED_ROLES ∧ br_target req ∈ APPROVED_MAKE_TARGETS
       ∧ ∃ n, available_bytes = Some n ∧ br_disk_needed req ≤ n)
  ∧ (∀ rec help, r = Ok (rec, help) →
       run_group log (br_make req) [br_target req] = true
       ∧ workspace_file log' (br_help req) = Some (Some help)
       ∧ build_role rec = br_role req ∧ help_digest rec = sha256_hex help
       ∧ ∃ b, workspace_file log' (br_output req) = Some (Some b) ∧ build_digest rec = sha256_hex b).
Proof.
  unfold build_artifacts, run_make, is_approved_role, is_approved_target, check_disk. unfold_method.
  case_bool_decide as H1; [|simpl; split_and!; naive_solver].
  case_bool_decide as H2; [|simpl; split_and!; naive_solver].
  destruct available_bytes as [n|] eqn:Hn; [|simpl; split_and!; naive_solver].
  destruct (Z.leb_spec (br_disk_needed req) n); [|simpl; split_and!; naive_solver].
  assert (Hroom : br_role req ∈ APPROVED_ROLES ∧ br_target req ∈ APPROVED_MAKE_TARGETS
    ∧ ∃ n', Some n = Some n' ∧ br_disk_needed req ≤ n') by naive_solver.
  destruct (run_group log (br_make req) [br_target req]); [|simpl; split_and!; naive_solver]. simpl.
  set (log' := log ++ _).
  destruct (workspace_file log' (br_output req)) as [[b|]|] eqn:Hb; simpl;
    [|split_and!; naive_solver..].
  destruct (workspace_file log' (br_help req)) as [[help|]|] eqn:Hh; simpl;
    split_and!; naive_solver.
Qed.
