(* ===== verification/RestartGate.v ===== *)
(** * The planned-restart gate: [PlannedRestartGate] of [src/src/cluster/production.rs]

    The atomic variable that hands a pairing over from the control task that receives
    it to the task that stops the distributed child.  The two methods with a
    compare-and-exchange loop are run by any number of threads, one atomic access at a
    time. *)

From S2P Require Import Prelude.

(** src/src/cluster/production.rs:360-364 (PLANNED_RESTART_IDLE) *)
Definition PLANNED_RESTART_IDLE : Z := 0.
Definition PLANNED_RESTART_CHILD_RUNNING : Z := 1.
Definition PLANNED_RESTART_CHILD_STOPPED : Z := 2.
Definition PLANNED_RESTART_PAIR_PENDING : Z := 3.
Definition PLANNED_RESTART_PAIR_COMPLETING : Z := 4.

Module PlannedRestartPairAction.

(** src/src/cluster/production.rs:366-372 (PlannedRestartPairAction) *)
Inductive PlannedRestartPairAction := Run | RunAfterChildStop | Defer | AlreadyCompleting.

End PlannedRestartPairAction.
Notation PlannedRestartPairAction := PlannedRestartPairAction.PlannedRestartPairAction.

Global Instance PlannedRestartPairAction_eq_dec : EqDecision PlannedRestartPairAction.
Proof. solve_decision. Defined.

(** ** The methods *)

(** [compare_exchange]: the new value, and whether it was written. *)
Definition compare_exchange (current new v : Z) : Z * bool :=
  if v =? current then (new, true) else (v, false).

(** src/src/cluster/production.rs:391-393 (PlannedRestartGate::active) *)
Definition active (v : Z) : bool := negb (v =? PLANNED_RESTART_IDLE).

(** src/src/cluster/production.rs:395-403 (PlannedRestartGate::begin) *)
Definition begin (v : Z) : Z :=
  fst (compare_exchange PLANNED_RESTART_IDLE PLANNED_RESTART_CHILD_RUNNING v).

(** src/src/cluster/production.rs:405-407 (PlannedRestartGate::cancel) *)
Definition cancel (v : Z) : Z := PLANNED_RESTART_IDLE.

(** src/src/cluster/production.rs:409-414 (PlannedRestartGate::blocks_worker_prepare) *)
Definition blocks_worker_prepare (v : Z) : bool :=
  (v =? PLANNED_RESTART_CHILD_RUNNING) || (v =? PLANNED_RESTART_PAIR_PENDING).

(** src/src/cluster/production.rs:498-505 (PlannedRestartGate::retry_pair_after_failure) *)
Definition retry_pair_after_failure (v : Z) : Z :=
  fst (compare_exchange PLANNED_RESTART_PAIR_COMPLETING PLANNED_RESTART_CHILD_STOPPED v).

(** What a loop does with the value it loaded: return, try an exchange and return if
    it succeeds, or panic. *)
Inductive plan (A : Type) := Return (a : A) | Exchange (new : Z) (a : A) | Unreachable.
Arguments Return {A} _.
Arguments Exchange {A} _ _.
Arguments Unreachable {A}.

(** src/src/cluster/production.rs:416-455 (PlannedRestartGate::pair_action) *)
Definition pair_action (loaded : Z) : plan PlannedRestartPairAction :=
  if loaded =? PLANNED_RESTART_IDLE then Return PlannedRestartPairAction.Run
  else if loaded =? PLANNED_RESTART_CHILD_RUNNING
  then Exchange PLANNED_RESTART_PAIR_PENDING PlannedRestartPairAction.Defer
  else if loaded =? PLANNED_RESTART_CHILD_STOPPED
  then Exchange PLANNED_RESTART_PAIR_COMPLETING PlannedRestartPairAction.RunAfterChildStop
  else if loaded =? PLANNED_RESTART_PAIR_PENDING then Return PlannedRestartPairAction.Defer
  else if loaded =? PLANNED_RESTART_PAIR_COMPLETING
  then Return PlannedRestartPairAction.AlreadyCompleting
  else Unreachable.

(** src/src/cluster/production.rs:459-496 (PlannedRestartGate::note_child_stopped) *)
Definition note_child_stopped (loaded : Z) : plan bool :=
  if (loaded =? PLANNED_RESTART_IDLE) || (loaded =? PLANNED_RESTART_CHILD_STOPPED)
     || (loaded =? PLANNED_RESTART_PAIR_COMPLETING)
  then Return false
  else if loaded =? PLANNED_RESTART_CHILD_RUNNING
  then Exchange PLANNED_RESTART_CHILD_STOPPED false
  else if loaded =? PLANNED_RESTART_PAIR_PENDING
  then Exchange PLANNED_RESTART_PAIR_COMPLETING true
  else Unreachable.

(** ** Threads *)

(** Where a thread is: outside, about to load, or about to exchange what it loaded. *)
Inductive thread :=
| Outside
| PairLoads | PairExchanges (loaded new : Z) (a : PlannedRestartPairAction)
| StopLoads | StopExchanges (loaded new : Z) (b : bool)
| Panicked.

(** What happened, in the order of the atomic accesses that decided it. *)
Inductive gate_event :=
| Begun | Cancelled | Retried
| Paired (a : PlannedRestartPairAction)
| Stopped (granted : bool).

Record gate_system := mkGate {
  gate : Z;
  threads : gmap nat thread;
  history : list gate_event }.

Definition gate_init : gate_system := mkGate PLANNED_RESTART_IDLE ∅ [].

Definition thread_at (s : gate_system) (i : nat) : thread := default Outside (threads s !! i).

Definition set_thread (i : nat) (t : thread) (s : gate_system) : gate_system :=
  mkGate (gate s) (<[i := t]> (threads s)) (history s).
Definition log (ev : gate_event) (s : gate_system) : gate_system :=
  mkGate (gate s) (threads s) (history s ++ [ev]).
Definition set_gate (v : Z) (s : gate_system) : gate_system :=
  mkGate v (threads s) (history s).

(** The load of a loop. *)
Definition load {A} (p : Z → plan A) (event : A → gate_event) (next : Z → Z → A → thread)
    (i : nat) (s : gate_system) : gate_system :=
  match p (gate s) with
  | Return a => log (event a) (set_thread i Outside s)
  | Exchange new a => set_thread i (next (gate s) new a) s
  | Unreachable => set_thread i Panicked s
  end.

(** The exchange of a loop, which starts over when the value has changed. *)
Definition exchange {A} (event : A → gate_event) (again : thread) (loaded new : Z) (a : A)
    (i : nat) (s : gate_system) : gate_system :=
  match compare_exchange loaded new (gate s) with
  | (v, true) => log (event a) (set_gate v (set_thread i Outside s))
  | (_, false) => set_thread i again s
  end.

Inductive gate_step : relation gate_system :=
| step_begin s : gate_step s (log Begun (set_gate (begin (gate s)) s))
| step_cancel s : gate_step s (log Cancelled (set_gate (cancel (gate s)) s))
| step_retry s : gate_step s (log Retried (set_gate (retry_pair_after_failure (gate s)) s))
| step_call_pair s i : thread_at s i = Outside → gate_step s (set_thread i PairLoads s)
| step_call_stop s i : thread_at s i = Outside → gate_step s (set_thread i StopLoads s)
| step_pair_load s i : thread_at s i = PairLoads →
    gate_step s (load pair_action Paired PairExchanges i s)
| step_stop_load s i : thread_at s i = StopLoads →
    gate_step s (load note_child_stopped Stopped StopExchanges i s)
| step_pair_exchange s i loaded new a : thread_at s i = PairExchanges loaded new a →
    gate_step s (exchange Paired PairLoads loaded new a i s)
| step_stop_exchange s i loaded new b : thread_at s i = StopExchanges loaded new b →
    gate_step s (exchange Stopped StopLoads loaded new b i s).

(** ** Sequential meaning *)

(** The state after an event, [None] when the answer of the event is not the one the
    method gives in this state. *)
Definition event_meaning {A} `{EqDecision A} (p : Z → plan A) (v : Z) (a : A) : option Z :=
  match p v with
  | Return a' => if decide (a = a') then Some v else None
  | Exchange new a' => if decide (a = a') then Some new else None
  | Unreachable => None
  end.

Definition gate_after (v : Z) (ev : gate_event) : option Z :=
  match ev with
  | Begun => Some (begin v)
  | Cancelled => Some (cancel v)
  | Retried => Some (retry_pair_after_failure v)
  | Paired a => event_meaning pair_action v a
  | Stopped b => event_meaning note_child_stopped v b
  end.

Definition gate_run (v : Z) (evs : list gate_event) : option Z :=
  foldl (fun o ev => o ≫= fun v => gate_after v ev) (Some v) evs.

Definition valid_state (v : Z) : Prop := 0 ≤ v ≤ 4.

(** What a thread is about to exchange is what its method planned for the value. *)
Definition thread_ok (t : thread) : Prop :=
  match t with
  | PairExchanges loaded new a => pair_action loaded = Exchange new a
  | StopExchanges loaded new b => note_child_stopped loaded = Exchange new b
  | Panicked => False
  | _ => True
  end.

Record gate_inv (s : gate_system) : Prop := {
  inv_valid : valid_state (gate s);
  inv_history : gate_run PLANNED_RESTART_IDLE (history s) = Some (gate s);
  inv_threads : map_Forall (fun _ => thread_ok) (threads s) }.

Ltac unfold_gate :=
  unfold PLANNED_RESTART_IDLE, PLANNED_RESTART_CHILD_RUNNING, PLANNED_RESTART_CHILD_STOPPED,
    PLANNED_RESTART_PAIR_PENDING, PLANNED_RESTART_PAIR_COMPLETING in *.

(** The five states, one at a time. *)
Ltac gate_cases v :=
  assert (v = 0 ∨ v = 1 ∨ v = 2 ∨ v = 3 ∨ v = 4) as [->|[->|[->|[->| ->]]]]
    by (unfold valid_state in *; lia).

Lemma gate_run_snoc v evs ev :
  gate_run v (evs ++ [ev]) = gate_run v evs ≫= fun v => gate_after v ev.
Proof. unfold gate_run. by rewrite foldl_app. Qed.

Lemma inv_log s s' ev v :
  gate_inv s → history s' = history s ++ [ev] → gate s' = v → gate_after (gate s) ev = Some v →
  valid_state v → map_Forall (fun _ => thread_ok) (threads s') → gate_inv s'.
Proof.
  intros [Hv Hh Ht] Hh' Hg Hev Hval Hth. split; [by rewrite Hg| |done].
  rewrite Hh', gate_run_snoc, Hh, Hg. done.
Qed.

Lemma inv_set_thread s i t : gate_inv s → thread_ok t → gate_inv (set_thread i t s).
Proof. intros [Hv Hh Ht] Hok. split; [done..|]. simpl. by apply map_Forall_insert_2. Qed.

Lemma thread_at_ok s i : gate_inv s → thread_ok (thread_at s i).
Proof.
  intros [_ _ Ht]. unfold thread_at. destruct (threads s !! i) as [t|] eqn:E; [|done].
  exact (Ht _ _ E).
Qed.

Lemma plans_valid v :
  valid_state v →
  (∀ new a, pair_action v = Exchange new a → valid_state new)
  ∧ (∀ new b, note_child_stopped v = Exchange new b → valid_state new)
  ∧ pair_action v ≠ Unreachable ∧ note_child_stopped v ≠ Unreachable.
Proof. intros Hv. gate_cases v; vm_compute; naive_solver. Qed.

Lemma inv_load {A} `{EqDecision A} (p : Z → plan A) event next i s :
  (∀ v a, gate_after v (event a) = event_meaning p v a) →
  (∀ new a, p (gate s) = Exchange new a → thread_ok (next (gate s) new a)) →
  p (gate s) ≠ Unreachable →
  gate_inv s → gate_inv (load p event next i s).
Proof.
  intros Hev Hnext Hp Hinv. unfold load. destruct (p (gate s)) as [a|new a|] eqn:E; [|auto using inv_set_thread|done].
  eapply (inv_log s _ (event a)); [done|done|done| |apply Hinv|].
  - rewrite Hev. unfold event_meaning. rewrite E. by rewrite decide_True.
  - apply (inv_set_thread s i Outside Hinv). done.
Qed.

Lemma inv_exchange {A} `{EqDecision A} (p : Z → plan A) event again loaded new a i s :
  (∀ v a, gate_after v (event a) = event_meaning p v a) →
  p loaded = Exchange new a → (valid_state loaded → valid_state new) → thread_ok again →
  gate_inv s → gate_inv (exchange event again loaded new a i s).
Proof.
  intros Hev Hp Hval Hagain Hinv. unfold exchange, compare_exchange.
  destruct (Z.eqb_spec (gate s) loaded) as [Heq|]; [|auto using inv_set_thread].
  eapply (inv_log s _ (event a)); [done|done|done| |apply Hval; rewrite <-Heq; apply Hinv|].
  - rewrite Hev, Heq. unfold event_meaning. rewrite Hp. by rewrite decide_True.
  - apply (inv_set_thread s i Outside Hinv). done.
Qed.

Lemma gate_inv_step s s' : gate_step s s' → gate_inv s → gate_inv s'.
Proof.
  intros Hstep Hinv. pose proof (inv_valid s Hinv) as Hv.
  destruct (plans_valid _ Hv) as (_ & _ & Hp & Hs).
  assert (Hvals : ∀ v, valid_state v → valid_state (begin v) ∧ valid_state (retry_pair_after_failure v)).
  { intros v Hval. gate_cases v; vm_compute; naive_solver. }
  destruct Hstep as [s|s|s|s i|s i|s i Hi|s i Hi|s i loaded new a Hi|s i loaded new b Hi].
  - eapply inv_log; [done|done|done|done|by apply Hvals|apply Hinv].
  - eapply inv_log; [done|done|done|done|vm_compute; naive_solver|apply Hinv].
  - eapply inv_log; [done|done|done|done|by apply Hvals|apply Hinv].
  - by apply inv_set_thread.
  - by apply inv_set_thread.
  - by apply inv_load.
  - by apply inv_load.
  - pose proof (thread_at_ok s i Hinv) as Hok. rewrite Hi in Hok.
    apply (inv_exchange pair_action); [done|done| |done|done].
    intros Hl. by apply (proj1 (plans_valid _ Hl)) in Hok.
  - pose proof (thread_at_ok s i Hinv) as Hok. rewrite Hi in Hok.
    apply (inv_exchange note_child_stopped); [done|done| |done|done].
    intros Hl. by apply (proj1 (proj2 (plans_valid _ Hl))) in Hok.
Qed.

Lemma gate_reachable_inv s : rtc gate_step gate_init s → gate_inv s.
Proof.
  intros Hr. eapply (rtc_ind_r (fun s => gate_inv s)); [|intros; by eapply gate_inv_step|exact Hr].
  split; [vm_compute; naive_solver|done|]. apply map_Forall_empty.
Qed.

(** ** What the hand-over promises *)

(** The events that make their caller responsible for completing the pairing. *)
Definition granted (ev : gate_event) : Prop :=
  ev = Paired PlannedRestartPairAction.RunAfterChildStop ∨ ev = Stopped true.

Definition releases (ev : gate_event) : Prop := ev = Retried ∨ ev = Cancelled.
Definition is_stopped (ev : gate_event) : Prop := ∃ b, ev = Stopped b.

Lemma gate_run_app v evs evs' :
  gate_run v (evs ++ evs') = gate_run v evs ≫= fun v => gate_run v evs'.
Proof.
  unfold gate_run. rewrite foldl_app. destruct (foldl _ (Some v) evs) as [v'|]; [done|].
  simpl. induction evs' as [|ev evs' IH]; [done|]. by simpl.
Qed.

Lemma gate_run_cons v ev evs : gate_run v (ev :: evs) = gate_after v ev ≫= fun v => gate_run v evs.
Proof. exact (gate_run_app v [ev] evs). Qed.

Lemma gate_after_valid v ev v' : valid_state v → gate_after v ev = Some v' → valid_state v'.
Proof.
  intros Hv. gate_cases v; destruct ev as [| | |[]|[]]; vm_compute; naive_solver.
Qed.

Lemma gate_run_valid v evs v' : valid_state v → gate_run v evs = Some v' → valid_state v'.
Proof.
  revert v. induction evs as [|ev evs IH]; intros v Hv; [by intros [= <-]|].
  rewrite gate_run_cons. intros (v1 & ? & ?)%bind_Some.
  eapply IH; [by eapply gate_after_valid|done].
Qed.

(** The states around one event of a run. *)
Lemma gate_run_at v pre ev post v' :
  valid_state v → gate_run v (pre ++ ev :: post) = Some v' →
  ∃ v1 v2, gate_run v pre = Some v1 ∧ valid_state v1
    ∧ gate_after v1 ev = Some v2 ∧ valid_state v2 ∧ gate_run v2 post = Some v'.
Proof.
  intros Hv. rewrite gate_run_app. intros (v1 & Hpre & Hrun)%bind_Some.
  rewrite gate_run_cons in Hrun. apply bind_Some in Hrun as (v2 & Hev & Hrun).
  pose proof (gate_run_valid _ _ _ Hv Hpre).
  exists v1, v2. split_and!; [done..| |done]. by eapply gate_after_valid.
Qed.

(** In a run of valid states, a property of the state that every other event keeps
    still holds after events of that kind only. *)
Lemma gate_run_keeps (P : Z → Prop) (stop : gate_event → Prop) v evs v' :
  (∀ v ev v', valid_state v → P v → ¬ stop ev → gate_after v ev = Some v' → P v') →
  valid_state v → P v → Forall (fun ev => ¬ stop ev) evs → gate_run v evs = Some v' → P v'.
Proof.
  intros Hkeep. revert v. induction evs as [|ev evs IH]; intros v Hv HP Hall; [by intros [= <-]|].
  apply Forall_cons in Hall as [Hev Hall]. rewrite gate_run_cons. intros (v1 & Hv1 & Hrun)%bind_Some.
  eapply (IH v1); [by eapply gate_after_valid|by eapply Hkeep|done..].
Qed.

Lemma granted_from v ev v' : valid_state v → granted ev → gate_after v ev = Some v' →
  (v = PLANNED_RESTART_CHILD_STOPPED ∨ v = PLANNED_RESTART_PAIR_PENDING)
  ∧ v' = PLANNED_RESTART_PAIR_COMPLETING.
Proof. intros Hv [->| ->]; gate_cases v; vm_compute; naive_solver. Qed.

Global Instance releases_dec ev : Decision (releases ev).
Proof. unfold releases. destruct ev; first [by left; auto | by right; intros [?|?]]. Defined.

Global Instance is_stopped_dec ev : Decision (is_stopped ev).
Proof. unfold is_stopped. destruct ev; first [by left; eauto | by right; intros [??]]. Defined.

(** A state that is one of a few, and stays so whatever event but some happens. *)
Lemma gate_run_stays (states : list Z) (stop : gate_event → Prop) v evs v' :
  Forall valid_state states →
  Forall (fun v => ∀ ev v', ¬ stop ev → gate_after v ev = Some v' → v' ∈ states) states →
  v ∈ states → Forall (fun ev => ¬ stop ev) evs → gate_run v evs = Some v' → v' ∈ states.
Proof.
  intros Hval Hkeep Hin Hall Hrun.
  apply (gate_run_keeps (fun v => v ∈ states) stop v evs); [|by eapply Forall_forall in Hval|done..].
  intros w ev w' _ Hw Hev Hafter. eapply Forall_forall in Hkeep; eauto.
Qed.

Lemma completing_until_released evs v :
  Forall (fun ev => ¬ releases ev) evs → gate_run PLANNED_RESTART_PAIR_COMPLETING evs = Some v →
  v = PLANNED_RESTART_PAIR_COMPLETING.
Proof.
  intros Hno Hrun. apply list_elem_of_singleton.
  refine (gate_run_stays [_] releases _ _ _ _ _ _ Hno Hrun); [| |set_solver].
  - repeat constructor; vm_compute; naive_solver.
  - constructor; [|constructor]. unfold releases.
    intros [| | |[]|[]] w; vm_compute; intros; simplify_eq; try set_solver; tauto.
Qed.

Lemma pending_until_stopped evs v :
  Forall (fun ev => ¬ (ev = Cancelled ∨ is_stopped ev)) evs →
  gate_run PLANNED_RESTART_PAIR_PENDING evs = Some v → v = PLANNED_RESTART_PAIR_PENDING.
Proof.
  intros Hno Hrun. apply list_elem_of_singleton.
  refine (gate_run_stays [_] (fun ev => ev = Cancelled ∨ is_stopped ev) _ _ _ _ _ _ Hno Hrun); [| |set_solver].
  - repeat constructor; vm_compute; naive_solver.
  - constructor; [|constructor]. unfold is_stopped.
    intros [| | |[]|b] w; vm_compute; intros; simplify_eq; try set_solver; naive_solver.
Qed.

(** Without a report that the child stopped, the restart never gets past a deferred
    pairing. *)
Lemma waiting_without_stop evs v :
  Forall (fun ev => ¬ is_stopped ev) evs → gate_run PLANNED_RESTART_IDLE evs = Some v →
  v ∈ [PLANNED_RESTART_IDLE; PLANNED_RESTART_CHILD_RUNNING; PLANNED_RESTART_PAIR_PENDING].
Proof.
  intros Hno Hrun.
  refine (gate_run_stays _ is_stopped _ _ _ _ _ _ Hno Hrun); [| |set_solver].
  - repeat constructor; vm_compute; naive_solver.
  - unfold is_stopped.
    repeat apply Forall_cons_2; [..|constructor];
      intros [| | |[]|b] w; vm_compute; intros; simplify_eq; try set_solver; naive_solver.
Qed.

Lemma deferred_leaves_pending v v' :
  valid_state v → gate_after v (Paired PlannedRestartPairAction.Defer) = Some v' →
  v' = PLANNED_RESTART_PAIR_PENDING.
Proof. intros Hv. gate_cases v; vm_compute; naive_solver. Qed.

(** The gate is linearizable: whatever the interleaving of the atomic accesses of
    any number of threads, the answers given are those of the methods run one after
    the other, in the order of the accesses that decided them, the gate is in the
    state these leave, and no thread ever meets a value that the loops take to be
    impossible. *)
Lemma gate_linearizable s :
  rtc gate_step gate_init s →
  gate_run PLANNED_RESTART_IDLE (history s) = Some (gate s)
  ∧ ∀ i, thread_at s i ≠ Panicked.
Proof.
  intros Hinv%gate_reachable_inv. split; [apply Hinv|]. intros i Hi.
  pose proof (thread_at_ok s i Hinv) as Hok. by rewrite Hi in Hok.
Qed.

(** In a planned restart the pairing is completed by exactly one task: no second
    task is told to complete it unless the first gave it back or the restart was
    cancelled; a pairing that was deferred is handed to the task that next reports
    the child stopped; and nobody is told to complete it before that report. *)
Lemma pair_handed_over_once s :
  rtc gate_step gate_init s →
  (∀ pre g mid g' post, history s = pre ++ g :: mid ++ g' :: post → granted g → granted g' →
     Exists releases mid)
  ∧ (∀ pre mid b post,
       history s = pre ++ Paired PlannedRestartPairAction.Defer :: mid ++ Stopped b :: post →
       Forall (fun ev => ev ≠ Cancelled ∧ ¬ is_stopped ev) mid → b = true)
  ∧ (∀ pre g post, history s = pre ++ g :: post → granted g →
       is_stopped g ∨ Exists is_stopped pre).
Proof.
  intros Hrun%gate_reachable_inv%inv_history.
  assert (Hinit : valid_state PLANNED_RESTART_IDLE) by (vm_compute; naive_solver).
  split_and!.
  - intros pre g mid g' post Heq Hg Hg'. apply dec_stable. intros Hno%not_Exists_Forall; [|apply _].
    rewrite Heq in Hrun. apply gate_run_at in Hrun as (v1 & v2 & _ & Hv1 & Hev & Hv2 & Hrun); [|done].
    apply gate_run_at in Hrun as (v3 & v4 & Hmid & Hv3 & Hev' & _ & _); [|done].
    apply granted_from in Hev as [_ ->]; [|done..].
    apply completing_until_released in Hmid as ->; [|done].
    by apply granted_from in Hev' as [[?|?] _].
  - intros pre mid b post Heq Hno.
    rewrite Heq in Hrun. apply gate_run_at in Hrun as (v1 & v2 & _ & Hv1 & Hev & Hv2 & Hrun); [|done].
    apply gate_run_at in Hrun as (v3 & v4 & Hmid & Hv3 & Hev' & _ & _); [|done].
    apply deferred_leaves_pending in Hev as ->; [|done].
    apply pending_until_stopped in Hmid as ->; [by destruct b|].
    eapply Forall_impl; [exact Hno|]. intros ev [? ?] [?|?]; contradiction.
  - intros pre g post Heq Hg. destruct (decide (is_stopped g)) as [|Hns]; [by left|right].
    apply dec_stable. intros Hno%not_Exists_Forall; [|apply _].
    rewrite Heq in Hrun. apply gate_run_at in Hrun as (v1 & v2 & Hpre & Hv1 & Hev & _); [|done].
    apply waiting_without_stop in Hpre; [|done].
    destruct Hg as [->| ->]; [|destruct Hns; by eexists].
    set_unfold in Hpre. destruct Hpre as [->|[->|[->|[]]]]; done.
Qed.

(** A run in which the pairing arrives while the child still runs: deferred, then
    handed to the task that reports the child stopped. *)
Module DemoGate.

Definition steps (evs : list (gate_system → gate_system)) : gate_system :=
  foldl (fun s f => f s) gate_init evs.

Definition deferred : list (gate_system → gate_system) :=
  [ (fun s => log Begun (set_gate (begin (gate s)) s));
    set_thread 1 PairLoads;
    set_thread 2 StopLoads;
    load note_child_stopped Stopped StopExchanges 2;
    load pair_action Paired PairExchanges 1;
    exchange Paired PairLoads 1 3 PlannedRestartPairAction.Defer 1;
    exchange Stopped StopLoads 1 2 false 2;
    load note_child_stopped Stopped StopExchanges 2;
    exchange Stopped StopLoads 3 4 true 2 ].

Lemma deferred_reachable : rtc gate_step gate_init (steps deferred).
Proof.
  eapply rtc_l; [apply step_begin|].
  eapply rtc_l; [apply (step_call_pair _ 1); reflexivity|].
  eapply rtc_l; [apply (step_call_stop _ 2); reflexivity|].
  eapply rtc_l; [apply (step_stop_load _ 2); reflexivity|].
  eapply rtc_l; [apply (step_pair_load _ 1); reflexivity|].
  eapply rtc_l; [apply (step_pair_exchange _ 1); reflexivity|].
  eapply rtc_l; [apply (step_stop_exchange _ 2); reflexivity|].
  eapply rtc_l; [apply (step_stop_load _ 2); reflexivity|].
  eapply rtc_l; [apply (step_stop_exchange _ 2); reflexivity|].
  apply rtc_refl.
Qed.

End DemoGate.

Section gate_witnesses.
Import DemoGate.

Lemma gate_linearizable_witness :
  gate_run PLANNED_RESTART_IDLE [Begun; Paired PlannedRestartPairAction.Defer; Stopped true]
  = Some PLANNED_RESTART_PAIR_COMPLETING.
Proof. exact (proj1 (gate_linearizable (steps deferred) deferred_reachable)). Defined.

Lemma pair_handed_over_once_witness :
  history (steps deferred) = [Begun; Paired PlannedRestartPairAction.Defer; Stopped true]
  ∧ (is_stopped (Stopped true) ∨ Exists is_stopped [Begun; Paired PlannedRestartPairAction.Defer]).
Proof.
  split; [reflexivity|].
  apply (proj2 (proj2 (pair_handed_over_once (steps deferred) deferred_reachable)) _ _ []);
    [reflexivity|by right].
Defined.

End gate_witnesses.
