(* ===== verification/Policy.v ===== *)
(** * Operator policy across the two nodes

    The signed policy control of [src/src/cluster/production/policy.rs] and the
    two-node transaction of [src/src/cluster/production.rs] that applies a policy:
    prepare here, prepare there, commit there, commit here, each phase recorded in the
    node's journal ([StateStore]) before it changes the policy in memory.  The network
    and the file systems of both nodes may fail at every call. *)

From S2P Require Import Prelude Bytes Target Operation Disk StateStore.
From S2P Require Import Admission ClusterFsm Promotion Runtime Production.

(** ** Wire types *)

(** src/src/cluster/production/policy.rs:17-17 (POLICY_CONTROL_PROTOCOL_VERSION) *)
Definition POLICY_CONTROL_PROTOCOL_VERSION : Z := 1.

Module PolicyControlPhase.

(** src/src/cluster/production/policy.rs:19-29 (PolicyControlPhase) *)
Inductive PolicyControlPhase := Prepare | Commit | Abort.

End PolicyControlPhase.
Notation PolicyControlPhase := PolicyControlPhase.PolicyControlPhase.

Global Instance PolicyControlPhase_eq_dec : EqDecision PolicyControlPhase.
Proof. solve_decision. Defined.

(** src/src/cluster/production/policy.rs:31-43 (PolicyControlRequest) *)
Record PolicyControlRequest := {
  protocol_version : Z;
  rq_epoch : Z;
  rq_operation_id : Z;
  rq_phase : PolicyControlPhase;
  rq_desired : OperationPolicy;
}.

Module PolicyControlStatus.

(** src/src/cluster/production/policy.rs:55-63 (PolicyControlStatus) *)
Inductive PolicyControlStatus := Applied | Duplicate | Aborted.

End PolicyControlStatus.
Notation PolicyControlStatus := PolicyControlStatus.PolicyControlStatus.

(** src/src/cluster/production/policy.rs:45-53 (PolicyControlResponse) *)
Record PolicyControlResponse := {
  rs_status : PolicyControlStatus;
  rs_epoch : Z;
  rs_applied : OperationPolicy;
}.

Module PolicyControlError.

(** src/src/cluster/production/policy.rs:65-76 (PolicyControlError) *)
Inductive PolicyControlError :=
| UnsupportedPeer
| Unauthenticated
| StaleEpoch (expected received : Z)
| IdempotencyConflict.

End PolicyControlError.
Notation PolicyControlError := PolicyControlError.PolicyControlError.

Global Instance PolicyControlError_eq_dec : EqDecision PolicyControlError.
Proof. solve_decision. Defined.

(** src/src/cluster/production/policy.rs:78-85 (PolicyControlError::http_status) *)
Definition http_status (e : PolicyControlError) : Z :=
  match e with
  | PolicyControlError.UnsupportedPeer | PolicyControlError.Unauthenticated => 403
  | PolicyControlError.StaleEpoch _ _ | PolicyControlError.IdempotencyConflict => 409
  end.

Module PolicyControlVerdict.

(** src/src/cluster/production/policy.rs:87-94 (PolicyControlVerdict) *)
Inductive PolicyControlVerdict := New | Duplicate.

End PolicyControlVerdict.
Notation PolicyControlVerdict := PolicyControlVerdict.PolicyControlVerdict.

Global Instance PolicyControlVerdict_eq_dec : EqDecision PolicyControlVerdict.
Proof. solve_decision. Defined.

(** ** The acknowledgements of a force *)

Module ForceNodePhase.

(** src/src/cluster/production/policy.rs:106-120 (ForceNodePhase) *)
Inductive ForceNodePhase := NotStarted | IntentSaved | Draining | LocalReady | Applied.

End ForceNodePhase.
Notation ForceNodePhase := ForceNodePhase.ForceNodePhase.

Global Instance ForceNodePhase_eq_dec : EqDecision ForceNodePhase.
Proof. solve_decision. Defined.

(** src/src/cluster/production/policy.rs:122-134 (ForceApplyCoordinator) *)
Record ForceApplyCoordinator := mkForce {
  force_epoch : Z;
  force_operation_id : Z;
  local : ForceNodePhase;
  peer : ForceNodePhase;
  drain_failed : bool;
  complete : bool;
}.

Module ForceApply.

Definition set_local (p : ForceNodePhase) (c : ForceApplyCoordinator) : ForceApplyCoordinator :=
  mkForce (force_epoch c) (force_operation_id c) p (peer c) (drain_failed c) (complete c).
Definition set_peer (p : ForceNodePhase) (c : ForceApplyCoordinator) : ForceApplyCoordinator :=
  mkForce (force_epoch c) (force_operation_id c) (local c) p (drain_failed c) (complete c).

(** src/src/cluster/production/policy.rs:136-147 (ForceApplyCoordinator::begin) *)
Definition begin (policy_epoch operation_id : Z) : ForceApplyCoordinator :=
  mkForce policy_epoch operation_id ForceNodePhase.IntentSaved ForceNodePhase.NotStarted
    false false.

(** src/src/cluster/production/policy.rs:187-193 (ForceApplyCoordinator::recompute_complete) *)
Definition recompute_complete (c : ForceApplyCoordinator) : ForceApplyCoordinator :=
  mkForce (force_epoch c) (force_operation_id c) (local c) (peer c) (drain_failed c)
    (negb (drain_failed c)
     && bool_decide (local c = ForceNodePhase.Applied)
     && bool_decide (peer c = ForceNodePhase.Applied)).

(** src/src/cluster/production/policy.rs:149-152 (ForceApplyCoordinator::peer_intent_saved) *)
Definition peer_intent_saved : ForceApplyCoordinator → ForceApplyCoordinator :=
  set_peer ForceNodePhase.IntentSaved.

(** src/src/cluster/production/policy.rs:154-157 (ForceApplyCoordinator::begin_drain) *)
Definition begin_drain : ForceApplyCoordinator → ForceApplyCoordinator :=
  set_local ForceNodePhase.Draining.

(** src/src/cluster/production/policy.rs:159-163 (ForceApplyCoordinator::drain_timeout) *)
Definition drain_timeout (c : ForceApplyCoordinator) : ForceApplyCoordinator :=
  mkForce (force_epoch c) (force_operation_id c) (local c) (peer c) true (complete c).

(** src/src/cluster/production/policy.rs:165-168 (ForceApplyCoordinator::note_local_ready) *)
Definition note_local_ready : ForceApplyCoordinator → ForceApplyCoordinator :=
  set_local ForceNodePhase.LocalReady.

(** src/src/cluster/production/policy.rs:170-173 (ForceApplyCoordinator::note_peer_ready) *)
Definition note_peer_ready : ForceApplyCoordinator → ForceApplyCoordinator :=
  set_peer ForceNodePhase.LocalReady.

(** src/src/cluster/production/policy.rs:175-179 (ForceApplyCoordinator::note_local_applied) *)
Definition note_local_applied (c : ForceApplyCoordinator) : ForceApplyCoordinator :=
  recompute_complete (set_local ForceNodePhase.Applied c).

(** src/src/cluster/production/policy.rs:181-185 (ForceApplyCoordinator::note_peer_applied) *)
Definition note_peer_applied (c : ForceApplyCoordinator) : ForceApplyCoordinator :=
  recompute_complete (set_peer ForceNodePhase.Applied c).

Inductive op :=
| PeerIntentSaved | BeginDrain | DrainTimeout | LocalReady | PeerReady | LocalApplied | PeerApplied.

Definition step (c : ForceApplyCoordinator) (o : op) : ForceApplyCoordinator :=
  match o with
  | PeerIntentSaved => peer_intent_saved c
  | BeginDrain => begin_drain c
  | DrainTimeout => drain_timeout c
  | LocalReady => note_local_ready c
  | PeerReady => note_peer_ready c
  | LocalApplied => note_local_applied c
  | PeerApplied => note_peer_applied c
  end.

End ForceApply.

(** ** The generation contract of a node *)

(** The idempotency table holds a hash of the body per operation and phase. *)
Notation idempotency_key := (Z * PolicyControlPhase)%type.

(** src/src/cluster/production/policy.rs:421-427 (PolicyControlState) *)
Record PolicyControlState := mkControl {
  control_epoch : Z;
  idempotency : list (idempotency_key * Z);
}.

(** [HashMap::get] on the association list. *)
Definition idem_get (k : idempotency_key) (l : list (idempotency_key * Z)) : option Z :=
  snd <$> List.find (fun e => bool_decide (fst e = k)) l.

(** [DefaultHasher], applied to the fields hashed. *)
Class PolicyHasher := finish : Z → PolicyControlPhase → OperationPolicy → Z.

Module PolicyControl.
Section control.
Context `{PolicyHasher}.

(** src/src/cluster/production/policy.rs:496-504 (canonical_request_hash) *)
Definition canonical_request_hash (r : PolicyControlRequest) : Z :=
  finish (rq_epoch r) (rq_phase r) (rq_desired r).

(** src/src/cluster/production/policy.rs:436-441 (PolicyControlState::new) *)
Definition new : PolicyControlState := mkControl 0 [].

(** src/src/cluster/production/policy.rs:443-447 (PolicyControlState::advance_epoch) *)
Definition advance_epoch (next : Z) (s : PolicyControlState) : PolicyControlState :=
  mkControl (Z.max (control_epoch s) next) (idempotency s).

(** src/src/cluster/production/policy.rs:453-485 (PolicyControlState::validate) *)
Definition validate (r : PolicyControlRequest) (signature_ok : bool)
    : method PolicyControlState PolicyControlError PolicyControlVerdict :=
  require (protocol_version r =? POLICY_CONTROL_PROTOCOL_VERSION)
    PolicyControlError.UnsupportedPeer;;
  require signature_ok PolicyControlError.Unauthenticated;;
  s ← self;
  require (control_epoch s <=? rq_epoch r)
    (PolicyControlError.StaleEpoch (control_epoch s) (rq_epoch r));;
  let key := (rq_operation_id r, rq_phase r) in
  match idem_get key (idempotency s) with
  | Some existing =>
      if existing =? canonical_request_hash r then mret PolicyControlVerdict.Duplicate
      else fail PolicyControlError.IdempotencyConflict
  | None =>
      modify (fun s => mkControl (control_epoch s)
                         ((key, canonical_request_hash r) :: idempotency s));;
      mret PolicyControlVerdict.New
  end.

(** src/src/cluster/production/policy.rs:487-493 (PolicyControlState::release) *)
Definition release (operation_id : Z) (s : PolicyControlState) : PolicyControlState :=
  mkControl (control_epoch s)
    (List.filter (fun e => negb (fst (fst e) =? operation_id)) (idempotency s)).

End control.
End PolicyControl.

(** ** A node *)

(** What the policy needs of the rest of the runtime: its cluster generation and state,
    and [recover_from_forced_policy], which drains the node, stops its distributed
    child and starts the standalone one. *)
Class LocalRuntime (W : Type) := {
  mode_generation : W → Z;
  mode_state : W → ClusterState;
  force_recovery : method W unit unit;
}.

(** The layer-parallel runtime of [Production]. *)
Global Instance production_runtime `{Environment} : LocalRuntime World := {
  mode_generation w := generation (cluster w);
  mode_state w := state (cluster w);
  force_recovery := map_error (fun _ => tt) (recover_from_forced_policy;; mret tt);
}.

(** The tensor-parallel budget: the journal in memory and the retry time. *)
Record TpBudget := { tp_journal : PersistentTpState; retry_after : Z }.

Record PolicyNode (W : Type) := mkNode {
  node_id : bytes;
  peer_node_id : option bytes;
  world : W;
  policy : PolicyState;
  node_applied : OperationPolicy;
  policy_control : PolicyControlState;
  policy_store : option Store;
  tp_budget : option TpBudget;
}.
Arguments mkNode {W} _ _ _ _ _ _ _ _.
Arguments node_id {W} _.
Arguments peer_node_id {W} _.
Arguments world {W} _.
Arguments policy {W} _.
Arguments node_applied {W} _.
Arguments policy_control {W} _.
Arguments policy_store {W} _.
Arguments tp_budget {W} _.

Section fields.
Context {W : Type}.
Implicit Types (n : PolicyNode W).

Definition set_world (w : W) n := mkNode (node_id n) (peer_node_id n) w (policy n)
  (node_applied n) (policy_control n) (policy_store n) (tp_budget n).
Definition set_control (c : PolicyControlState) n := mkNode (node_id n) (peer_node_id n) (world n)
  (policy n) (node_applied n) c (policy_store n) (tp_budget n).
Definition set_policy_store (s : option Store) n := mkNode (node_id n) (peer_node_id n) (world n)
  (policy n) (node_applied n) (policy_control n) s (tp_budget n).
Definition set_tp_budget (b : option TpBudget) n := mkNode (node_id n) (peer_node_id n) (world n)
  (policy n) (node_applied n) (policy_control n) (policy_store n) b.

(** The policy fields, as one store of each. *)
Definition set_policies (operator applied : OperationPolicy) (epoch : Z) (pending : bool) n :=
  mkNode (node_id n) (peer_node_id n) (world n)
    (mkPolicyState operator (auto_promote (policy n)) pending epoch) applied
    (policy_control n) (policy_store n) (tp_budget n).

End fields.

(** Why a transaction or a request fails ([anyhow::Error] and [ControlHttpError]). *)
Inductive PolicyFailure :=
| StalePolicyGeneration (expected received : Z)
| Journal (e : StateStoreError)
| ForceRecoveryFailed
| PolicyRejected (e : PolicyControlError)
| NotAuthenticated
| BadJson
| PeerUnreachable
| PeerReturned (e : PolicyFailure).

Notation names := (bytes * bytes)%type.

Section node.
Context {W : Type} `{LocalRuntime W, StateCodec, PolicyHasher} (path : bytes).

Notation node_method A := (method (PolicyNode W) PolicyFailure A).

(** [if let Some(store) = self.policy_store()]. *)
Definition with_store {A} (m : store_method A) : node_method unit := fun n =>
  match policy_store n with
  | None => (Ok tt, n)
  | Some st =>
      let '(r, st') := m st in
      (map_err Journal (let? _ := r in Ok tt)%rust, set_policy_store (Some st') n)
  end.

(** [pending] as the process start derives it from the journal, then
    src/src/cluster/production.rs:1275-1297 (ProductionClusterRuntime::restore_policy) *)
Definition restore_policy (operator_policy applied_policy : OperationPolicy) (policy_epoch : Z)
    (pending : bool) (n : PolicyNode W) : PolicyNode W :=
  let n := set_policies operator_policy applied_policy policy_epoch pending n in
  set_control (PolicyControl.advance_epoch policy_epoch (policy_control n)) n.

(** src/src/app.rs:722-734 (serve_with_options) *)
Definition restore_from (persisted : option PersistentClusterState) (n : PolicyNode W)
    : PolicyNode W :=
  match persisted with
  | None => n
  | Some s =>
      let pending := is_some_and (pending_operation s) (fun operation =>
        negb (match op_phase operation with PersistentOperationPhase.Applied => true | _ => false end)) in
      restore_policy (StateStore.operator_policy s) (applied_policy s) (StateStore.policy_epoch s)
        pending n
  end.

(** The state a node without one writes for its tensor-parallel journal.
    src/src/cluster/production/tp_runtime.rs:709-726 (ProductionClusterRuntime::persist_tp_journal) *)
Definition default_for_tp (n : PolicyNode W) : PersistentClusterState :=
  {| ps_tp := None; schema_version := PERSISTENT_STATE_SCHEMA_VERSION;
     ps_generation := mode_generation (world n);
     control_session_generation := mode_generation (world n);
     desired_mode := PersistentMode.SoloStandalone;
     last_stable_mode := PersistentMode.SoloStandalone;
     cluster_state := str (ClusterState_name (mode_state (world n)));
     ps_proxy_target := PersistentProxyTarget.Unavailable; active_profile := None;
     ps_child := None; ps_last_failure := None;
     StateStore.operator_policy := operator_policy (policy n);
     applied_policy := node_applied n; StateStore.policy_epoch := policy_epoch (policy n);
     pending_operation := None |}.

Definition with_tp (tp : PersistentTpState) (s : PersistentClusterState) : PersistentClusterState :=
  {| ps_tp := Some tp; schema_version := schema_version s; ps_generation := ps_generation s;
     control_session_generation := control_session_generation s;
     desired_mode := desired_mode s; last_stable_mode := last_stable_mode s;
     cluster_state := cluster_state s; ps_proxy_target := ps_proxy_target s;
     active_profile := active_profile s; ps_child := ps_child s;
     ps_last_failure := ps_last_failure s;
     StateStore.operator_policy := StateStore.operator_policy s;
     applied_policy := applied_policy s; StateStore.policy_epoch := StateStore.policy_epoch s;
     pending_operation := pending_operation s |}.

(** src/src/cluster/production/tp_runtime.rs:699-732 (ProductionClusterRuntime::persist_tp_journal) *)
Definition persist_tp_journal (u : names) : node_method unit :=
  n ← self;
  match tp_budget n with
  | None => mret tt
  | Some tp => with_store (
      loaded ← load path (fst u) (snd u);
      save path (with_tp (tp_journal tp) (default (default_for_tp n) loaded)))
  end.

(** src/src/cluster/production/tp_runtime.rs:688-698 (ProductionClusterRuntime::reset_tp_budget) *)
Definition reset_tp_budget (u : names) : node_method unit :=
  n ← self;
  match tp_budget n with
  | None => mret tt
  | Some tp =>
      let j := tp_journal tp in
      modify (set_tp_budget (Some {|
        tp_journal := {| tp_identity := tp_identity j; tp_last_session := tp_last_session j;
                         tp_failed_attempts := 0;
                         tp_last_failed_session := tp_last_failed_session j |};
        retry_after := 0 |}));;
      persist_tp_journal u
  end.

(** The journal entry of a prepare; the fresh id is that of an automatic intent. *)
Definition journal_intent (u : names) (fresh : Z) (r : PolicyControlRequest)
    : store_method PersistentClusterState :=
  match rq_desired r with
  | OperationPolicy.ForcedStandalone => persist_force_intent path u (rq_epoch r) (rq_operation_id r)
  | OperationPolicy.Automatic => persist_automatic_intent path u (rq_epoch r) fresh
  end.

(** The journal entry of a commit. *)
Definition journal_applied (u : names) (r : PolicyControlRequest)
    : store_method PersistentClusterState :=
  match rq_desired r with
  | OperationPolicy.ForcedStandalone => record_force_applied path u (rq_epoch r)
  | OperationPolicy.Automatic => record_automatic_applied path u (rq_epoch r)
  end.

(** src/src/cluster/production.rs:1412-1431 (ProductionClusterRuntime::apply_policy_phase) *)
Definition prepare_phase (u : names) (fresh : Z) (r : PolicyControlRequest) : node_method unit :=
  with_store (journal_intent u fresh r);;
  modify (fun n => set_policies (rq_desired r) (node_applied n) (rq_epoch r) true n).

(** src/src/cluster/production.rs:1432-1455 (ProductionClusterRuntime::apply_policy_phase) *)
Definition commit_phase (u : names) (r : PolicyControlRequest) : node_method unit :=
  (if bool_decide (rq_desired r = OperationPolicy.ForcedStandalone)
   then map_error (fun _ => ForceRecoveryFailed) (on_field world set_world force_recovery)
   else mret tt);;
  with_store (journal_applied u r);;
  modify (fun n =>
    let n := set_policies (rq_desired r) (rq_desired r) (rq_epoch r) false n in
    set_control (PolicyControl.advance_epoch (rq_epoch r) (policy_control n)) n).

(** What a phase answers. *)
Definition answer (status : PolicyControlStatus) : node_method PolicyControlResponse :=
  n ← self;
  mret {| rs_status := status; rs_epoch := policy_epoch (policy n); rs_applied := node_applied n |}.

(** [u] and [u'] are the names its journal accesses may use for preserved files.
    src/src/cluster/production.rs:1406-1469 (ProductionClusterRuntime::apply_policy_phase) *)
Definition apply_policy_phase (u u' : names) (fresh : Z) (r : PolicyControlRequest)
    : node_method PolicyControlResponse :=
  n ← self;
  let reset_tp := bool_decide (rq_phase r = PolicyControlPhase.Commit)
    && bool_decide (rq_desired r = OperationPolicy.Automatic)
    && bool_decide (node_applied n = OperationPolicy.ForcedStandalone) in
  match rq_phase r with
  | PolicyControlPhase.Prepare => prepare_phase u fresh r
  | PolicyControlPhase.Commit => commit_phase u r
  | PolicyControlPhase.Abort =>
      modify (fun n => set_policies (operator_policy (policy n)) (node_applied n)
                         (policy_epoch (policy n)) false n)
  end;;
  (if reset_tp then reset_tp_budget u' else mret tt);;
  answer PolicyControlStatus.Applied.

(** [authenticated]: the node id the signature proves, [None] when it proves none;
    [body]: the request, when the body is one.
    src/src/cluster/production.rs:1945-1991 (control_operation_policy) *)
Definition control_operation_policy (authenticated : option bytes) (u u' : names) (fresh : Z)
    (body : option PolicyControlRequest) : node_method PolicyControlResponse :=
  sender ← lift (ok_or authenticated NotAuthenticated);
  n ← self;
  require (is_none_or (peer_node_id n) (fun expected => bool_decide (expected = sender)))
    (PolicyRejected PolicyControlError.Unauthenticated);;
  r ← lift (ok_or body BadJson);
  verdict ← on_field policy_control set_control
    (map_error PolicyRejected (PolicyControl.validate r true));
  match verdict with
  | PolicyControlVerdict.Duplicate => answer PolicyControlStatus.Duplicate
  | PolicyControlVerdict.New => apply_policy_phase u u' fresh r
  end.

End node.

(** ** Two nodes *)

(** What becomes of a request to the peer. *)
Inductive Delivery := Arrives | ReplyLost | Unreached.

(** The node that runs the transaction, its peer, and the deliveries to come (all
    arrive once the list is empty). *)
Record Pair (W : Type) := mkPair {
  here : PolicyNode W;
  there : PolicyNode W;
  network : list Delivery;
}.
Arguments mkPair {W} _ _ _.
Arguments here {W} _.
Arguments there {W} _.
Arguments network {W} _.

Section pair.
Context {W : Type} `{LocalRuntime W, StateCodec, PolicyHasher} (path : bytes).

Notation pair_method A := (method (Pair W) PolicyFailure A).

Definition set_here (n : PolicyNode W) (p : Pair W) : Pair W := mkPair n (there p) (network p).
Definition set_there (n : PolicyNode W) (p : Pair W) : Pair W := mkPair (here p) n (network p).

(** The client succeeds with the answer of the peer's handler, and fails when the peer
    refuses, cannot be reached, or its answer does not come back.
    src/src/cluster/production.rs:140-178 (ProductionControlClient::apply_policy) *)
Definition apply_policy (u u' : names) (fresh : Z) (r : PolicyControlRequest)
    : pair_method PolicyControlResponse := fun p =>
  let delivery := default Arrives (head (network p)) in
  let p := mkPair (here p) (there p) (tail (network p)) in
  match delivery with
  | Unreached => (Err PeerUnreachable, p)
  | _ =>
      let '(answer, n) :=
        control_operation_policy path (Some (node_id (here p))) u u' fresh (Some r) (there p) in
      let p := set_there n p in
      match delivery, answer with
      | ReplyLost, _ => (Err PeerUnreachable, p)
      | _, Err e => (Err (PeerReturned e), p)
      | _, Ok a => (Ok a, p)
      end
  end.

Definition policy_request (phase : PolicyControlPhase) (desired : OperationPolicy)
    (epoch operation_id : Z) : PolicyControlRequest :=
  {| protocol_version := POLICY_CONTROL_PROTOCOL_VERSION; rq_epoch := epoch;
     rq_operation_id := operation_id; rq_phase := phase; rq_desired := desired |}.

(** [names] and [fresh] supply the UUIDs of the journal accesses.
    src/src/cluster/production.rs:1332-1377 (ProductionClusterRuntime::apply_policy_transaction) *)
Definition apply_policy_transaction (us : nat → names) (fresh : nat → Z)
    (desired : OperationPolicy) (expected_generation operation_id : Z) : pair_method unit :=
  p ← self;
  let current_generation := mode_generation (world (here p)) in
  require ((expected_generation =? 0) || (expected_generation =? current_generation))
    (StalePolicyGeneration current_generation expected_generation);;
  let epoch := sat_add64 (policy_epoch (policy (here p))) 1 in
  let prepare := policy_request PolicyControlPhase.Prepare desired epoch operation_id in
  on_field here set_here (apply_policy_phase path (us 0%nat) (us 1%nat) (fresh 0%nat) prepare);;
  apply_policy (us 2%nat) (us 3%nat) (fresh 1%nat) prepare;;
  let commit := policy_request PolicyControlPhase.Commit desired epoch operation_id in
  apply_policy (us 4%nat) (us 5%nat) (fresh 2%nat) commit;;
  on_field here set_here (apply_policy_phase path (us 6%nat) (us 7%nat) (fresh 3%nat) commit);;
  mret tt.

End pair.

(** ** What a phase leaves *)

Section phases.
Context {W : Type} `{LocalRuntime W, StateCodec, !StateCodecLaws, PolicyHasher} (path : bytes).
Implicit Types (n : PolicyNode W) (o : option PersistentClusterState).

(** The journal of a node, when it has one, holds a state of [Q] across crashes. *)
Definition journals (Q : option PersistentClusterState → Prop) n : Prop :=
  ∀ st, policy_store n = Some st → records path Q st.

(** The journal entries after a prepare and after a commit. *)
Definition intended (desired : OperationPolicy) (epoch : Z) o : Prop :=
  ∃ s, o = Some s ∧ StateStore.operator_policy s = desired ∧ StateStore.policy_epoch s = epoch.
Definition recorded (desired : OperationPolicy) (epoch : Z) o : Prop :=
  ∃ s, o = Some s ∧ StateStore.operator_policy s = desired ∧ StateStore.policy_epoch s = epoch
    ∧ applied_policy s = desired.

Record prepared (desired : OperationPolicy) (epoch : Z) n : Prop := {
  prepared_operator : operator_policy (policy n) = desired;
  prepared_epoch : policy_epoch (policy n) = epoch;
  prepared_pending : policy_pending (policy n) = true;
  prepared_journal : journals (intended desired epoch) n }.

Record committed (desired : OperationPolicy) (epoch : Z) n : Prop := {
  committed_operator : operator_policy (policy n) = desired;
  committed_applied : node_applied n = desired;
  committed_epoch : policy_epoch (policy n) = epoch;
  committed_pending : policy_pending (policy n) = false;
  committed_journal : journals (recorded desired epoch) n }.

(** Nothing but the store of the node differs, and its journal is of [Q]. *)
Definition only_journal (Q : option PersistentClusterState → Prop) n n' : Prop :=
  (∃ s, n' = set_policy_store s n) ∧ journals Q n'.

Lemma wp_with_store {A} Q R R' (m : store_method A) n :
  journals Q n →
  (∀ st, records path Q st →
     wp m (fun _ st' => records path R st') (fun _ st' => records path R' st') st) →
  wp (with_store m) (fun _ => only_journal R n) (fun _ => only_journal R' n) n.
Proof.
  intros Hn Hm. unfold wp, with_store, only_journal, journals. destruct (policy_store n) as [st|] eqn:E.
  - specialize (Hm st (Hn st E)). unfold wp in Hm. destruct (m st) as [[a|e] st']; simpl;
      (split; [by eexists|]); by intros ? [= <-].
  - split; [exists None; destruct n; by simpl in *; subst|]. intros st. by rewrite E.
Qed.

Lemma wp_update_records Q R uuids f st :
  records path Q st → (∀ o, Q o → R (Some (updated f o))) →
  wp (update path uuids f) (fun _ st' => records path R st')
    (fun _ st' => records path (fun o => Q o ∨ R o) st') st.
Proof.
  intros Hst HR. wp_use (wp_update path Q uuids f); [exact Hst| |].
  - intros s st' [(o & HQ & ->) Hs]. eapply stored_records; [|exact Hs]. auto.
  - intros e st'. apply records_mono. intros o' [?|(o & HQ & ->)]; auto.
Qed.

Lemma wp_prepare_phase u fresh r n :
  journals (fun _ => True) n →
  wp (prepare_phase path u fresh r)
    (fun _ n' => prepared (rq_desired r) (rq_epoch r) n' ∧ policy_control n' = policy_control n
       ∧ node_id n' = node_id n ∧ peer_node_id n' = peer_node_id n)
    (fun _ => only_journal (fun _ => True) n) n.
Proof.
  intros Hn. unfold prepare_phase. apply wp_bind.
  wp_use (wp_with_store (A := PersistentClusterState) (fun _ => True) (intended (rq_desired r) (rq_epoch r))
    (fun o => True ∨ intended (rq_desired r) (rq_epoch r) o)); [done| | |].
  - intros st Hst. unfold journal_intent, persist_force_intent, persist_automatic_intent.
    destruct (rq_desired r) eqn:Hd; (apply wp_update_records; [done|]);
      intros o _; by eexists.
  - intros _ n' [(s & ->) Hj]. apply wp_modify. by split.
  - intros e n' [Hs Hj]. split; [done|]. intros st Hst.
    eapply records_mono; [|by apply Hj]. done.
Qed.

Lemma intended_updates_recorded desired epoch (o : option PersistentClusterState) :
  intended desired epoch o →
  recorded desired epoch (Some (updated (fun s => with_policy (StateStore.operator_policy s) desired
    epoch (applied_operation <$> pending_operation s) s) o)).
Proof. intros (s & -> & ? & ?). by eexists. Qed.

Lemma recorded_intended desired epoch o : recorded desired epoch o → intended desired epoch o.
Proof. intros (s & ? & ? & ? & ?). by exists s. Qed.

Lemma prepared_only_journal desired epoch n n' :
  prepared desired epoch n → only_journal (intended desired epoch) n n' →
  prepared desired epoch n'.
Proof. intros [] [(s & ->) Hj]. by split. Qed.

(** A commit that follows its prepare applies the policy; if it fails the policy is
    still the prepared one. *)
Lemma wp_commit_phase u r n :
  prepared (rq_desired r) (rq_epoch r) n →
  wp (commit_phase path u r)
    (fun _ => committed (rq_desired r) (rq_epoch r))
    (fun _ => prepared (rq_desired r) (rq_epoch r)) n.
Proof.
  intros Hp. unfold commit_phase. apply wp_bind.
  assert (Hrest : ∀ n, prepared (rq_desired r) (rq_epoch r) n →
    wp (with_store (journal_applied path u r);; modify (fun n =>
          let n := set_policies (rq_desired r) (rq_desired r) (rq_epoch r) false n in
          set_control (PolicyControl.advance_epoch (rq_epoch r) (policy_control n)) n))
      (fun _ => committed (rq_desired r) (rq_epoch r))
      (fun _ => prepared (rq_desired r) (rq_epoch r)) n).
  { clear n Hp. intros n Hp. apply wp_bind.
    wp_use (wp_with_store (A := PersistentClusterState) (intended (rq_desired r) (rq_epoch r)) (recorded (rq_desired r) (rq_epoch r))
      (fun o => intended (rq_desired r) (rq_epoch r) o ∨ recorded (rq_desired r) (rq_epoch r) o));
      [apply Hp| | |].
    - intros st Hst. unfold journal_applied, record_force_applied, record_automatic_applied.
      destruct (rq_desired r) eqn:Hd; (apply wp_update_records; [done|]);
        intros o; apply intended_updates_recorded.
    - intros _ n' [(s & ->) Hj]. apply wp_modify. by split.
    - intros e n' [Hs Hj]. eapply prepared_only_journal; [exact Hp|]. split; [done|].
      intros st Hst. eapply records_mono; [|by apply Hj]. intros o [?|?]; auto using recorded_intended. }
  case_bool_decide; [|by apply wp_ret, Hrest].
  apply wp_map_error, wp_on_field. unfold wp.
  destruct (force_recovery (world n)) as [[[]|e] w]; [apply Hrest|]; destruct Hp; by split.
Qed.

Lemma recorded_with_tp desired epoch tp s :
  recorded desired epoch (Some s) → recorded desired epoch (Some (with_tp tp (raise_session s))).
Proof. intros (? & [= <-] & ? & ? & ?). by eexists. Qed.

(** Resetting the tensor-parallel budget leaves a committed policy committed, also when
    it fails. *)
Lemma wp_reset_tp_budget u desired epoch n :
  committed desired epoch n →
  wp (reset_tp_budget path u) (fun _ => committed desired epoch) (fun _ => committed desired epoch) n.
Proof.
  intros Hc. unfold reset_tp_budget. apply wp_bind, wp_self.
  destruct (tp_budget n) as [tp|]; [|by apply wp_ret].
  apply wp_bind, wp_modify. set (n1 := set_tp_budget _ n).
  assert (Hc1 : committed desired epoch n1) by (destruct Hc; by split).
  unfold persist_tp_journal. apply wp_bind, wp_self. cbn [n1 set_tp_budget tp_budget].
  eapply wp_mono; [apply (wp_with_store (recorded desired epoch) (recorded desired epoch)
    (recorded desired epoch)); [apply Hc1|]| |];
    [|intros _ n' [(s & ->) Hj]; destruct Hc1; by split|intros _ n' [(s & ->) Hj]; destruct Hc1; by split].
  intros st Hst. apply wp_bind. wp_use (wp_load path); [exact Hst| |done].
  intros r st1 (Hst1 & o & Ho & ->). destruct (id Ho) as (s0 & -> & _). simpl.
  wp_use (wp_save_stored path); [exact Hst1| |].
  - intros _ st2. apply stored_records. apply recorded_with_tp. exact Ho.
  - intros e st2. apply records_mono. intros o [?| ->]; [done|]. by apply recorded_with_tp.
Qed.

Lemma wp_answer status n (Q : PolicyControlResponse → PolicyNode W → Prop) X :
  (∀ a, Q a n) → wp (answer status) Q X n.
Proof. intros HQ. unfold answer. apply wp_bind, wp_self, wp_ret, HQ. Qed.

Lemma wp_apply_prepare u u' fresh desired epoch id n :
  journals (fun _ => True) n →
  wp (apply_policy_phase path u u' fresh (policy_request PolicyControlPhase.Prepare desired epoch id))
    (fun _ n' => prepared desired epoch n' ∧ policy_control n' = policy_control n
       ∧ node_id n' = node_id n ∧ peer_node_id n' = peer_node_id n)
    (fun _ => only_journal (fun _ => True) n) n.
Proof.
  intros Hn. unfold apply_policy_phase. apply wp_bind, wp_self. simpl. apply wp_bind.
  wp_use wp_prepare_phase; [done| |done]. intros _ n' Hn'. apply wp_bind, wp_ret, wp_answer.
  by intros _.
Qed.

Lemma wp_apply_commit u u' fresh desired epoch id n :
  prepared desired epoch n →
  wp (apply_policy_phase path u u' fresh (policy_request PolicyControlPhase.Commit desired epoch id))
    (fun _ => committed desired epoch)
    (fun _ n' => prepared desired epoch n' ∨ committed desired epoch n') n.
Proof.
  intros Hp. unfold apply_policy_phase. apply wp_bind, wp_self. apply wp_bind.
  set (r := policy_request _ _ _ _). wp_use (wp_commit_phase u r); [exact Hp| |by left].
  intros _ n' Hc. apply wp_bind. cbn [rq_phase r policy_request].
  destruct (_ && _).
  - wp_use wp_reset_tp_budget; [exact Hc| |by right]. intros _ n'' Hc'. by apply wp_answer.
  - apply wp_ret. by apply wp_answer.
Qed.

(** ** The handler on the peer *)

Definition unseen (id : Z) (phase : PolicyControlPhase) n : Prop :=
  idem_get (id, phase) (idempotency (policy_control n)) = None.

Lemma idem_get_cons k k' h l :
  idem_get k ((k', h) :: l) = if decide (k' = k) then Some h else idem_get k l.
Proof. unfold idem_get. simpl. case_decide as Hk; [by rewrite bool_decide_true|by rewrite bool_decide_false]. Qed.

(** A request of an operation the node has not seen is refused without effect or its
    phase runs. *)
Lemma wp_control_new sender u u' fresh r n Q X :
  unseen (rq_operation_id r) (rq_phase r) n →
  (∀ e, X e n) →
  (let c := mkControl (control_epoch (policy_control n))
              (((rq_operation_id r, rq_phase r), PolicyControl.canonical_request_hash r)
                 :: idempotency (policy_control n)) in
   wp (apply_policy_phase path u u' fresh r) Q X (set_control c n)) →
  wp (control_operation_policy path (Some sender) u u' fresh (Some r)) Q X n.
Proof.
  intros Hnew HX Hphase. unfold control_operation_policy.
  apply wp_bind, wp_lift, wp_bind, wp_self, wp_bind.
  apply wp_require; intros _; [|apply HX]. apply wp_bind, wp_lift. simpl.
  assert (Hsame : set_control (policy_control n) n = n) by by destruct n.
  apply wp_bind, wp_on_field, wp_map_error. unfold PolicyControl.validate.
  apply wp_bind, wp_require; intros _; [|rewrite Hsame; apply HX].
  apply wp_bind, wp_require; intros _; [|rewrite Hsame; apply HX].
  apply wp_bind, wp_self, wp_bind. apply wp_require; intros _; [|rewrite Hsame; apply HX].
  unfold unseen in Hnew. rewrite Hnew. apply wp_bind, wp_modify, wp_ret. exact Hphase.
Qed.

(** Where a policy transaction may leave a node. *)
Inductive settled (desired : OperationPolicy) (epoch : Z) n : PolicyNode W → Prop :=
| as_before n' : policy n' = policy n → node_applied n' = node_applied n → settled desired epoch n n'
| is_prepared n' : prepared desired epoch n' → settled desired epoch n n'
| is_committed n' : committed desired epoch n' → settled desired epoch n n'.

Lemma wp_control_prepare sender u u' fresh desired epoch id n :
  journals (fun _ => True) n → unseen id PolicyControlPhase.Prepare n →
  unseen id PolicyControlPhase.Commit n →
  wp (control_operation_policy path (Some sender) u u' fresh
        (Some (policy_request PolicyControlPhase.Prepare desired epoch id)))
    (fun _ n' => prepared desired epoch n' ∧ unseen id PolicyControlPhase.Commit n')
    (fun _ => settled desired epoch n) n.
Proof.
  intros Hn Hp Hc. apply wp_control_new; [done|by constructor|]. intros c.
  wp_use wp_apply_prepare; [exact Hn| |].
  - intros _ n' (Hn' & Hpc & _). split; [done|]. unfold unseen. rewrite Hpc. simpl.
    by rewrite idem_get_cons, decide_False.
  - intros e n' [(s & ->) _]. by constructor 1.
Qed.

Lemma wp_control_commit sender u u' fresh desired epoch id n :
  prepared desired epoch n → unseen id PolicyControlPhase.Commit n →
  wp (control_operation_policy path (Some sender) u u' fresh
        (Some (policy_request PolicyControlPhase.Commit desired epoch id)))
    (fun _ => committed desired epoch)
    (fun _ n' => prepared desired epoch n' ∨ committed desired epoch n') n.
Proof.
  intros Hp Hc. apply wp_control_new; [done|by left|]. intros c.
  wp_use wp_apply_commit; [|done|done]. destruct Hp. by split.
Qed.

(** ** The transaction *)

Lemma wp_apply_policy (Q X : PolicyNode W → Prop) u u' fresh r (p : Pair W) :
  wp (control_operation_policy path (Some (node_id (here p))) u u' fresh (Some r))
    (fun _ => Q) (fun _ => X) (there p) →
  (∀ n, Q n → X n) → X (there p) →
  wp (apply_policy path u u' fresh r)
    (fun _ p' => here p' = here p ∧ Q (there p')) (fun _ p' => here p' = here p ∧ X (there p')) p.
Proof.
  unfold wp, apply_policy. intros Hwp HQX HX. cbn [here there].
  destruct (control_operation_policy path _ _ _ _ _ _) as [[a|e] n];
    destruct (default Arrives _); simpl; auto.
Qed.

(** How a transaction for [desired] at [epoch] that started from [p] may have failed. *)
Inductive policy_failed (desired : OperationPolicy) (epoch : Z) (p : Pair W) : Pair W → Prop :=
| never_started p' :
    policy (here p') = policy (here p) → there p' = there p → policy_failed desired epoch p p'
| left_pending p' :
    prepared desired epoch (here p') → settled desired epoch (there p) (there p') →
    policy_failed desired epoch p p'
| after_commit p' :
    committed desired epoch (here p') → committed desired epoch (there p') →
    policy_failed desired epoch p p'.

Lemma wp_policy_transaction us fresh desired expected id (p : Pair W) :
  journals (fun _ => True) (here p) → journals (fun _ => True) (there p) →
  unseen id PolicyControlPhase.Prepare (there p) → unseen id PolicyControlPhase.Commit (there p) →
  let epoch := sat_add64 (policy_epoch (policy (here p))) 1 in
  wp (apply_policy_transaction path us fresh desired expected id)
    (fun _ p' => committed desired epoch (here p') ∧ committed desired epoch (there p'))
    (fun _ => policy_failed desired epoch p) p.
Proof.
  intros Hh Ht Hup Huc epoch. unfold apply_policy_transaction.
  apply wp_bind, wp_self, wp_bind. apply wp_require; intros _; [|by constructor 1].
  fold epoch. apply wp_bind, wp_on_field. wp_use wp_apply_prepare; [exact Hh| |].
  2: { intros e n' [(s & ->) _]. by constructor 1. }
  intros _ h1 (Hpre & _ & Hid & _). apply wp_bind.
  wp_use (wp_apply_policy
    (fun n => prepared desired epoch n ∧ unseen id PolicyControlPhase.Commit n)
    (settled desired epoch (there p))); [by apply wp_control_prepare| | | |].
  - intros n [? _]. by constructor 2.
  - by constructor 1.
  - intros _ p1 [Hh1 [Hp1 Hu1]]. apply wp_bind.
    wp_use (wp_apply_policy (committed desired epoch)
      (fun n => prepared desired epoch n ∨ committed desired epoch n));
      [by apply wp_control_commit|by right|by left| |].
    + intros _ p2 [Hh2 Hc2]. apply wp_bind, wp_on_field.
      assert (Hp2 : prepared desired epoch (here p2)) by by rewrite Hh2, Hh1.
      wp_use wp_apply_commit; [exact Hp2| |].
      * intros _ h3 Hc3. apply wp_ret. done.
      * intros e h3 [?|?]; [constructor 2; [done|by constructor 3]|by constructor 3].
    + intros e p2 [Hh2 Hx]. constructor 2; [by rewrite Hh2, Hh1|].
      destruct Hx; [by constructor 2|by constructor 3].
  - intros e p1 [Hh1 Hx]. constructor 2; [by rewrite Hh1|done].
Qed.

Lemma prepared_blocks desired epoch n latch present e :
  prepared desired epoch n →
  allows_promotion (automatic_promotion_gate (policy n) latch present e) = false.
Proof.
  intros [Ho _ Hp _]. unfold automatic_promotion_gate, automatic_promotion_verdict.
  rewrite Ho, Hp. by destruct desired.
Qed.


Lemma journals_forced epoch n :
  prepared OperationPolicy.ForcedStandalone epoch n
    ∨ committed OperationPolicy.ForcedStandalone epoch n →
  journals (intended OperationPolicy.ForcedStandalone epoch) n.
Proof.
  intros [Hn|Hn]; [apply Hn|]. intros st Hst.
  eapply records_mono; [|by apply Hn]. intros o. apply recorded_intended.
Qed.

(** What the process that starts next makes of a journal that intends a force. *)
Lemma forced_after_restart epoch st d' u1 u2 (boot : PolicyNode W) :
  records path (intended OperationPolicy.ForcedStandalone epoch) st → crash (disk st) d' →
  ∃ s, fst (load path u1 u2 (reboot d')) = Ok (Some s)
    ∧ ∀ latch present e,
        allows_promotion (automatic_promotion_gate (policy (restore_from (Some s) boot))
          latch present e) = false.
Proof.
  intros Hst Hcrash. destruct (crash_holds path _ _ _ _ Hst Hcrash) as (o & (s & -> & Ho & _) & Hc).
  exists (raise_session s). split; [by apply (load_after_reboot path (Some s))|]. intros latch present e.
  unfold automatic_promotion_gate, automatic_promotion_verdict. simpl. rewrite Ho.
  by rewrite andb_false_r.
Qed.

(** Forcing standalone operation is a latch: once the transaction has changed the
    policy of a node, however it went on, a crash of that node at any point leaves a
    journal from which it restarts refusing every promotion. *)
Lemma force_latch_survives us fresh expected id (p : Pair W) d' u1 u2 (boot : PolicyNode W) :
  journals (fun _ => True) (here p) → journals (fun _ => True) (there p) →
  unseen id PolicyControlPhase.Prepare (there p) → unseen id PolicyControlPhase.Commit (there p) →
  let '(_, p') :=
    apply_policy_transaction path us fresh OperationPolicy.ForcedStandalone expected id p in
  ∀ n n' st, (n, n') ∈ [(here p, here p'); (there p, there p')] → policy n' ≠ policy n →
    policy_store n' = Some st → crash (disk st) d' →
    ∃ s, fst (load path u1 u2 (reboot d')) = Ok (Some s)
      ∧ ∀ latch present e,
          allows_promotion (automatic_promotion_gate (policy (restore_from (Some s) boot))
            latch present e) = false.
Proof.
  intros Hh Ht Hup Huc.
  pose proof (wp_policy_transaction us fresh OperationPolicy.ForcedStandalone expected id p
    Hh Ht Hup Huc) as Hwp. cbv zeta in Hwp. set (epoch := sat_add64 _ 1) in *.
  unfold wp in Hwp. destruct (apply_policy_transaction _ _ _ _ _ _ p) as [r p'].
  intros n n' st Hin Hne Hst Hcrash. apply (forced_after_restart epoch st); [|done].
  eapply (journals_forced epoch n'); [|done]. set_unfold in Hin. destruct r as [[]|e].
  - destruct Hwp, Hin as [[= -> ->]|[[= -> ->]|[]]]; by right.
  - destruct Hin as [[= -> ->]|[[= -> ->]|[]]];
      destruct Hwp as [p' Hsame Hsame'|p' ? Hset|p' ??];
      try contradiction; try (by left); try (by right).
    + by rewrite Hsame' in Hne.
    + destruct Hset; [contradiction|by left|by right].
Qed.

End phases.

(** ** Each phase of an operation takes effect once *)

Section once.
Context `{PolicyHasher}.

(** What happens to the table: requests, and the epochs of commits. *)
Definition control_event : Type := PolicyControlRequest + Z.

(** How many requests of operation and phase [k] are told to take effect. *)
Fixpoint news (k : idempotency_key) (c : PolicyControlState) (evs : list control_event) : nat :=
  match evs with
  | [] => 0
  | inr epoch :: evs => news k (PolicyControl.advance_epoch epoch c) evs
  | inl r :: evs =>
      let '(v, c') := PolicyControl.validate r true c in
      (if decide (v = Ok PolicyControlVerdict.New ∧ (rq_operation_id r, rq_phase r) = k) then 1 else 0)
      + news k c' evs
  end%nat.

Lemma validate_table r c :
  let '(v, c') := PolicyControl.validate r true c in
  let k := (rq_operation_id r, rq_phase r) in
  match v with
  | Ok PolicyControlVerdict.New =>
      idem_get k (idempotency c) = None
      ∧ idempotency c' = (k, PolicyControl.canonical_request_hash r) :: idempotency c
  | Ok PolicyControlVerdict.Duplicate =>
      c' = c ∧ idem_get k (idempotency c) = Some (PolicyControl.canonical_request_hash r)
  | Err _ => c' = c
  end.
Proof.
  unfold PolicyControl.validate, require. unfold_method.
  repeat first [case_match; simplify_eq/= | done]; bool_to_prop; by subst.
Qed.

Lemma seen_never_new k c evs : is_Some (idem_get k (idempotency c)) → news k c evs = 0%nat.
Proof.
  revert c. induction evs as [|[r|e] evs IH]; intros c Hk; simpl; [done| |by apply IH].
  pose proof (validate_table r c) as Hv. destruct (PolicyControl.validate r true c) as [[[]|] c'].
  - destruct Hv as [Hn Hc]. rewrite decide_False.
    + apply IH. rewrite Hc, idem_get_cons. case_decide; [by eexists|done].
    + intros [_ <-]. rewrite Hn in Hk. by destruct Hk.
  - destruct Hv as [-> _]. rewrite decide_False by naive_solver. by apply IH.
  - rewrite Hv, decide_False by naive_solver. by apply IH.
Qed.

(** Whatever requests arrive and whatever commits advance the epoch, a phase of an
    operation takes effect at most once. *)
Lemma phase_effective_once k c evs : (news k c evs ≤ 1)%nat.
Proof.
  revert c. induction evs as [|[r|e] evs IH]; intros c; simpl; [lia| |apply IH].
  pose proof (validate_table r c) as Hv. destruct (PolicyControl.validate r true c) as [v c'].
  case_decide as Hd; [|specialize (IH c'); lia]. destruct Hd as [-> <-].
  destruct Hv as [_ Hc]. rewrite seen_never_new; [lia|]. rewrite Hc, idem_get_cons.
  rewrite decide_True by done. by eexists.
Qed.

End once.

(** ** Completion of a force *)

Definition force_run (epoch id : Z) (ops : list ForceApply.op) : ForceApplyCoordinator :=
  foldl ForceApply.step (ForceApply.begin epoch id) ops.

Lemma force_run_snoc epoch id ops o :
  force_run epoch id (ops ++ [o]) = ForceApply.step (force_run epoch id ops) o.
Proof. unfold force_run. by rewrite foldl_app. Qed.

Lemma force_phases_from epoch id ops :
  let c := force_run epoch id ops in
  (local c = ForceNodePhase.Applied → ForceApply.LocalApplied ∈ ops)
  ∧ (peer c = ForceNodePhase.Applied → ForceApply.PeerApplied ∈ ops)
  ∧ (drain_failed c = false → ForceApply.DrainTimeout ∉ ops).
Proof.
  induction ops as [|o ops IH] using rev_ind; [by split_and!; [..|intros _ ?%not_elem_of_nil]|].
  cbv zeta in *. rewrite force_run_snoc, !elem_of_app, !list_elem_of_singleton.
  destruct IH as (Hl & Hp & Hd), o; simpl; split_and!; intuition discriminate.
Qed.

(** A force that is complete has the acknowledgements of both nodes, from before any
    drain timed out. *)
Lemma force_complete_sound epoch id ops :
  complete (force_run epoch id ops) = true →
  ∃ pre post, ops = pre ++ post ∧ ForceApply.LocalApplied ∈ pre ∧ ForceApply.PeerApplied ∈ pre
    ∧ ForceApply.DrainTimeout ∉ pre.
Proof.
  induction ops as [|o ops IH] using rev_ind; [done|]. intros Hc.
  destruct (complete (force_run epoch id ops)) eqn:E.
  { destruct IH as (pre & post & -> & ?); [done|]. exists pre, (post ++ [o]).
    by rewrite (assoc_L (++)). }
  exists (ops ++ [o]), []. rewrite app_nil_r. split; [done|].
  pose proof (force_phases_from epoch id (ops ++ [o])) as (Hl & Hp & Hd).
  rewrite force_run_snoc in *.
  destruct o; simpl in *; try congruence; bool_to_prop; split_and!; auto.
Qed.

(** ** Runs *)

Module DemoPolicy.
Import DemoStore.

(** A runtime whose force recovery succeeds or fails. *)
#[export] Instance recovering : LocalRuntime bool := {
  mode_generation _ := 5;
  mode_state _ := ClusterState.SoloStandaloneReady;
  force_recovery ok := (if ok then Ok tt else Err tt, ok);
}.
#[export] Instance adding : PolicyHasher := fun epoch phase desired =>
  epoch * 8 + match phase with PolicyControlPhase.Prepare => 0 | PolicyControlPhase.Commit => 1
              | PolicyControlPhase.Abort => 2 end
  + match desired with OperationPolicy.Automatic => 4 | OperationPolicy.ForcedStandalone => 0 end.

Definition node (name : bytes) (recovers : bool) : PolicyNode bool :=
  mkNode name None recovers (mkPolicyState OperationPolicy.Automatic true false 3)
    OperationPolicy.Automatic (mkControl 3 []) (Some (store [])) None.

Definition pair (network : list Delivery) : Pair bool :=
  mkPair (node (str "a") true) (node (str "b") true) network.

Definition us (n : nat) : names := ([], []).
Definition ids (n : nat) : Z := n.

Lemma journal_of_demo n : policy_store n = Some (store []) → journals path (fun _ => True) (W := bool) n.
Proof.
  intros Hs st. rewrite Hs. intros [= <-]. by eapply stored_records, (store_stored []).
Qed.

(** The reply to the commit is lost: this node refuses promotions, the peer has
    applied the policy. *)
Example commit_reply_lost :
  let '(r, p') := apply_policy_transaction path us ids OperationPolicy.ForcedStandalone 0 1
                    (pair [Arrives; ReplyLost]) in
  r = Err PeerUnreachable
  ∧ (policy_pending (policy (here p')), node_applied (here p')) = (true, OperationPolicy.Automatic)
  ∧ (policy_pending (policy (there p')), node_applied (there p'))
    = (false, OperationPolicy.ForcedStandalone).
Proof. by vm_compute. Qed.

(** Both nodes run a transaction at once, for opposite policies: all eight phases
    succeed, and the nodes end with opposite policies applied under the same epoch. *)
Example opposite_policies :
  let req phase desired id := policy_request phase desired 4 id in
  let on n m := snd (m n) in
  let phase r := apply_policy_phase path ([], []) ([], []) 0 r in
  let from s r := control_operation_policy path (Some s) ([], []) ([], []) 0 (Some r) in
  let force p := req p OperationPolicy.ForcedStandalone 1 in
  let auto p := req p OperationPolicy.Automatic 2 in
  let a1 := on (node (str "a") true) (phase (force PolicyControlPhase.Prepare)) in
  let b1 := on (node (str "b") true) (phase (auto PolicyControlPhase.Prepare)) in
  let b2 := on b1 (from (str "a") (force PolicyControlPhase.Prepare)) in
  let a2 := on a1 (from (str "b") (auto PolicyControlPhase.Prepare)) in
  let b3 := on b2 (from (str "a") (force PolicyControlPhase.Commit)) in
  let a3 := on a2 (from (str "b") (auto PolicyControlPhase.Commit)) in
  let '(ra, a) := phase (force PolicyControlPhase.Commit) a3 in
  let '(rb, b) := phase (auto PolicyControlPhase.Commit) b3 in
  is_ok ra = true ∧ is_ok rb = true
  ∧ (node_applied a, policy_epoch (policy a)) = (OperationPolicy.ForcedStandalone, 4)
  ∧ (node_applied b, policy_epoch (policy b)) = (OperationPolicy.Automatic, 4).
Proof. by vm_compute. Qed.

(** Aborting a return to automatic operation drops the pending mark and keeps the
    prepared policy: a node on which only the force was ever applied may promote. *)
Example abort_lifts_force :
  let req phase desired epoch id := policy_request phase desired epoch id in
  let on n r := snd (control_operation_policy path (Some (str "b")) ([], []) ([], []) 0 (Some r) n) in
  let n := on (node (str "a") true) (req PolicyControlPhase.Prepare OperationPolicy.ForcedStandalone 4 1) in
  let n := on n (req PolicyControlPhase.Commit OperationPolicy.ForcedStandalone 4 1) in
  let n := on n (req PolicyControlPhase.Prepare OperationPolicy.Automatic 5 2) in
  let n := on n (req PolicyControlPhase.Abort OperationPolicy.Automatic 5 2) in
  node_applied n = OperationPolicy.ForcedStandalone
  ∧ allows_promotion (automatic_promotion_gate (policy n) false true 5) = true.
Proof. by vm_compute. Qed.

End DemoPolicy.

Section policy_witnesses.
Import DemoStore DemoPolicy.


(** What is left of a disk when the machine stops. *)
Definition stopped (d : Disk) : Disk :=
  {| entries := entries d; unsynced := []; inodes := inodes d; script := [] |}.

Lemma force_latch_survives_witness :
  let p' := snd (apply_policy_transaction path us ids OperationPolicy.ForcedStandalone 0 1
                   (pair [Arrives; Unreached])) in
  let d' := stopped (disk (default (store []) (policy_store (here p')))) in
  ∃ s, fst (load path [] [] (reboot d')) = Ok (Some s)
    ∧ allows_promotion (automatic_promotion_gate (policy (restore_from (Some s) (node (str "a") true)))
        false true 4) = false.
Proof.
  intros p' d'. assert (Hsome : is_some (policy_store (here p')) = true) by by vm_compute.
  destruct (policy_store (here p')) as [st|] eqn:Hst; [|done]. assert (Hcrash : crash (disk st) d').
  { split_and!; [apply list_elem_of_here|done|done]. }
  clearbody d'.
  pose proof (force_latch_survives path us ids 0 1 (pair [Arrives; Unreached]) d' [] []
    (node (str "a") true) (journal_of_demo (node (str "a") true) eq_refl)
    (journal_of_demo (node (str "b") true) eq_refl) eq_refl eq_refl) as Ht.
  assert (Hne : policy (here p') ≠ policy (here (pair [Arrives; Unreached]))) by by vm_compute.
  unfold p' in *. destruct (apply_policy_transaction _ _ _ _ _ _ _) as [r p1]. simpl in *.
  destruct (Ht _ _ st (list_elem_of_here _ _) Hne Hst Hcrash) as (s & Hs & Hg). by exists s.
Defined.

End policy_witnesses.
