(* ===== verification/TpRuntime.v ===== *)
(** * Tensor-parallel orchestration: [src/src/cluster/production/tp_runtime.rs]

    A node in tensor-parallel mode: pairing, promotion, the commands a peer sends
    over [/v2/tp] ([tp_control.rs]), fallback to the standalone server, demotion,
    reconcile, shutdown.  The policy, the journal and its store are those of
    [Policy]; the state machine and the gate are those of [ClusterFsm] and
    [Admission].  Children, peer, network and clock answer calls from the calls made
    before.  The effects lock makes these operations run one after the other. *)

From S2P Require Import Prelude Bytes Target Operation Tp Disk StateStore.
From S2P Require Import Admission ClusterFsm Promotion Runtime Production Policy.

(** ** Wire types *)

Module TpCommand.

(** src/src/cluster/production/tp_control.rs:6-15 (TpCommand) *)
Inductive TpCommand := Node | Pair | Prepare | Status | Ready | Stop.

End TpCommand.
Notation TpCommand := TpCommand.TpCommand.

Global Instance TpCommand_eq_dec : EqDecision TpCommand.
Proof. solve_decision. Defined.

(** src/src/cluster/process/tp.rs:55-61 (TpLocalStatus) *)
Record TpLocalStatus := mkStatus { running : bool; connected : bool; http_ready : bool }.

Definition status_default : TpLocalStatus := mkStatus false false false.

(** src/src/cluster/production/tp_control.rs:16-26 (TpRequest) *)
Record TpRequest := {
  q_version : Z;
  q_deployment : bytes;
  q_epoch : Z;
  q_session : Z;
  q_operation : Z;
  q_coordinator_address : IpAddr;
  q_command : TpCommand;
}.

(** src/src/cluster/production/tp_control.rs:27-37 (TpResponse) *)
Record TpResponse := {
  p_version : Z;
  p_deployment : bytes;
  p_epoch : Z;
  p_session : Z;
  p_operation : Z;
  p_address : IpAddr;
  p_status : TpLocalStatus;
}.

(** src/src/cluster/production/tp_runtime.rs:7-12 (Session) *)
Record Session := mkSession { id : Z; operation : Z; epoch : Z }.

(** ** The environment *)

(** A poll of the warm-up request: finished, still running, or the five minutes of the
    timeout are over. *)
Inductive WarmupPoll := Finished | StillRunning | TimedOut.

(** The calls of [TpLocalLifecycle], [LocalStandaloneLifecycle] and the control client,
    the wait of the gate, the network's verdict, clock and fresh ids. *)
Inductive TpCall : Type → Type :=
| Preflight (peer : option IpAddr) : TpCall unit
| ChildStart (session : Z) (coordinator : IpAddr) : TpCall unit
| ChildStatus (session : Z) : TpCall TpLocalStatus
| ChildStop : TpCall unit
| Warmup : TpCall WarmupPoll
| StandaloneStart (generation : Z) : TpCall unit
| StandaloneStop : TpCall unit
| StandaloneRunning : TpCall bool
| PeerTp (r : TpRequest) : TpCall TpResponse
| GateEmpty : TpCall unit
| RouteScoped : TpCall bool
| Millis : TpCall Z
| NewUuid : TpCall Z.

(** A call and its answer. *)
Inductive tp_called :=
| TpCalled (A : Type) (c : TpCall A) (r : result A unit).
Arguments TpCalled {A} _ _.
Notation tp_trace := (list tp_called).

Class TpEnvironment := tp_answer : ∀ A, tp_trace → TpCall A → result A unit.
Arguments tp_answer {_} {A} _ _.

(** ** State *)

(** src/src/cluster/production/tp_runtime.rs:13-21 (TpRuntime) *)
Record TpLocal := mkLocal {
  tl_cluster : ClusterSnapshot;
  tl_gate : Inner;
  tl_target : ProxyTarget * bool;
  tl_session : option Session;
  tl_completed : option Session;
  startup_deadline : option Z;
  lease_expires_at : Z;
  restart_planned : bool;
  tl_calls : tp_trace;
}.

Section update.
Implicit Types (l : TpLocal).

Definition tl_with_cluster s l := mkLocal s (tl_gate l) (tl_target l) (tl_session l)
  (tl_completed l) (startup_deadline l) (lease_expires_at l) (restart_planned l) (tl_calls l).
Definition tl_with_gate (f : Inner → Inner) l := mkLocal (tl_cluster l) (f (tl_gate l))
  (tl_target l) (tl_session l) (tl_completed l) (startup_deadline l) (lease_expires_at l)
  (restart_planned l) (tl_calls l).
Definition tl_with_target t l := mkLocal (tl_cluster l) (tl_gate l) t (tl_session l)
  (tl_completed l) (startup_deadline l) (lease_expires_at l) (restart_planned l) (tl_calls l).
Definition tl_with_session s l := mkLocal (tl_cluster l) (tl_gate l) (tl_target l) s
  (tl_completed l) (startup_deadline l) (lease_expires_at l) (restart_planned l) (tl_calls l).
Definition tl_with_completed s l := mkLocal (tl_cluster l) (tl_gate l) (tl_target l)
  (tl_session l) s (startup_deadline l) (lease_expires_at l) (restart_planned l) (tl_calls l).
Definition tl_with_deadline d l := mkLocal (tl_cluster l) (tl_gate l) (tl_target l)
  (tl_session l) (tl_completed l) d (lease_expires_at l) (restart_planned l) (tl_calls l).
Definition tl_with_lease e l := mkLocal (tl_cluster l) (tl_gate l) (tl_target l)
  (tl_session l) (tl_completed l) (startup_deadline l) e (restart_planned l) (tl_calls l).
Definition tl_with_call c l := mkLocal (tl_cluster l) (tl_gate l) (tl_target l) (tl_session l)
  (tl_completed l) (startup_deadline l) (lease_expires_at l) (restart_planned l) (c :: tl_calls l).

End update.

(** The part of the configuration used. *)
Record TpConfig := {
  auto_demote : bool;
  complete_route_millis : Z;
  control_lease_millis : Z;
  promotion_backoff_millis : Z;
}.

Inductive TpError :=
| AddressMissing
| PeerCallFailed
| PeerMismatch
| StalePeerSession
| JournalFailed (e : PolicyFailure)
| BlockedByRestart
| SupersededByPolicy
| RouteNotVerified
| TransitionRefused (e : TransitionError)
| NotStandaloneReady
| WrongRole
| PreflightFailed
| DeploymentMismatchTp
| StatusFailed
| AnotherSession
| StalePrepare
| ChildStartFailed
| WorkerExited
| HandshakeIncomplete
| StaleStop
| NoActiveSession
| StaleSession
| GateFailed (e : DrainError)
| StandaloneFailed
| PromotionDisabled
| NotPaired
| BudgetExhausted
| InBackoff
| SessionExhausted
| WorkerNotPrepared
| ExitedBeforeHandshake
| HandshakeTimeout
| NoPermit (e : AdmissionError)
| WarmupFailed
| PeerLostInWarmup
| LostAfterWarmup
| PeerLostBeforePublication
| TpChildStopFailed
| StandaloneNotRunning
| StateWithoutSession.

(** The local runtime does not recover on its own here: [tp_demote] below is what
    [recover_from_forced_policy] calls in this mode. *)
Notation TpNode := (PolicyNode TpLocal).
Notation tp_method A := (method TpNode TpError A).

Section tp.
Context `{TpEnvironment, StateCodec} (path : bytes).
Context (config : TpConfig) (deployment_id : bytes) (address : option IpAddr).

#[local] Instance tp_modes : LocalRuntime TpLocal := {
  mode_generation l := generation (tl_cluster l);
  mode_state l := state (tl_cluster l);
  force_recovery := fail tt;
}.

(** ** Primitive steps *)

Definition local (f : TpLocal → TpLocal) : tp_method unit :=
  modify (fun n => set_world (f (world n)) n).

(** The call, its answer recorded. *)
Definition invoke {A} (c : TpCall A) : tp_method (result A unit) := fun n =>
  let r := tp_answer (tl_calls (world n)) c in
  (Ok r, set_world (tl_with_call (TpCalled c r) (world n)) n).

(** [c.await.map_err(|_| e)?] *)
Definition must {A} (c : TpCall A) (e : TpError) : tp_method A :=
  r ← invoke c; lift (map_err (fun _ => e) r).

(** A call that answers without failing: the clock, the network, a fresh id. *)
Definition ask {A} (c : TpCall A) (otherwise : A) : tp_method A :=
  r ← invoke c; mret (match r with Ok a => a | Err _ => otherwise end).

Definition snapshot : tp_method ClusterSnapshot := n ← self; mret (tl_cluster (world n)).
Definition block_gate : tp_method unit := local (tl_with_gate block).
Definition serve : tp_method unit := local (tl_with_gate start_serving).
Definition route (t : ProxyTarget) (ready : bool) : tp_method unit := local (tl_with_target (t, ready)).

(** src/src/cluster/production/tp_runtime.rs:45-55 (ProductionClusterRuntime::tp_address) *)
Definition tp_address : tp_method IpAddr := lift (ok_or address AddressMissing).

Definition journal_of (n : TpNode) : PersistentTpState :=
  match tp_budget n with
  | Some b => tp_journal b
  | None => {| tp_identity := []; tp_last_session := 0; tp_failed_attempts := 0;
               tp_last_failed_session := 0 |}
  end.

Definition journal : tp_method PersistentTpState := n ← self; mret (journal_of n).

Definition set_journal (j : PersistentTpState) : tp_method unit :=
  modify (fun n => set_tp_budget
    (Some {| tp_journal := j;
             retry_after := match tp_budget n with Some b => retry_after b | None => 0 end |}) n).

Definition set_retry_after (t : Z) : tp_method unit :=
  j ← journal;
  modify (set_tp_budget (Some {| tp_journal := j; retry_after := t |})).

Definition persist (u : names) : tp_method unit :=
  map_error JournalFailed (persist_tp_journal path u).

(** src/src/cluster/production/tp_runtime.rs:56-75 (ProductionClusterRuntime::tp_request) *)
Definition tp_request (command : TpCommand) (session : option Session) : tp_method TpRequest :=
  s ← match session with
      | Some s => mret s
      | None => uuid ← ask NewUuid 0; n ← self; mret (mkSession 0 uuid (policy_epoch (policy n)))
      end;
  a ← tp_address;
  mret {| q_version := 1; q_deployment := deployment_id; q_epoch := epoch s; q_session := id s;
          q_operation := operation s; q_coordinator_address := a; q_command := command |}.

(** The checks of the client on the answer.
    src/src/cluster/production/tp_control.rs:74-90 (ProductionControlClient::tp) *)
Definition check_reply (request : TpRequest) (reply : TpResponse) : result TpResponse TpError :=
  if negb ((p_version reply =? 1)
           && bool_decide (p_deployment reply = q_deployment request)
           && (p_epoch reply =? q_epoch request)
           && (p_operation reply =? q_operation request))
  then Err PeerMismatch
  else if negb (bool_decide (q_command request = TpCommand.Node)
                || bool_decide (q_command request = TpCommand.Pair))
          && negb (p_session reply =? q_session request)
  then Err StalePeerSession
  else Ok reply.

(** The lease of the peer is renewed.
    src/src/cluster/production/tp_runtime.rs:256-259 (ProductionClusterRuntime::handle_tp) *)
Definition renew_lease : tp_method unit :=
  now ← ask Millis 0;
  local (tl_with_lease (now + control_lease_millis config)).

(** src/src/cluster/production/tp_runtime.rs:76-83 (ProductionClusterRuntime::tp_peer) *)
Definition tp_peer (request : TpRequest) : tp_method TpResponse :=
  reply ← must (PeerTp request) PeerCallFailed;
  reply ← lift (check_reply request reply);
  renew_lease;;
  mret reply.

(** src/src/cluster/production/tp_runtime.rs:84-96 (ProductionClusterRuntime::tp_note_failure) *)
Definition tp_note_failure (u : names) (session : Z) (reserved : bool) : tp_method unit :=
  j ← journal;
  (if tp_last_failed_session j <? session then
     set_journal {| tp_identity := tp_identity j; tp_last_session := tp_last_session j;
       tp_failed_attempts :=
         if reserved then tp_failed_attempts j else sat_add32 (tp_failed_attempts j) 1;
       tp_last_failed_session := session |}
   else mret tt);;
  persist u.

(** src/src/cluster/production/tp_runtime.rs:97-113 (ProductionClusterRuntime::tp_policy_check) *)
Definition tp_policy_check (epoch : Z) : tp_method unit :=
  n ← self;
  require (negb (restart_planned (world n))) BlockedByRestart;;
  require (bool_decide (operator_policy (policy n) = OperationPolicy.Automatic)
           && negb (policy_pending (policy n)) && (policy_epoch (policy n) =? epoch))
    SupersededByPolicy;;
  scoped ← ask RouteScoped false;
  require scoped RouteNotVerified.

(** src/src/cluster/production/tp_runtime.rs:119-131 (ProductionClusterRuntime::tp_event) *)
Definition tp_kind (kind : ClusterEventKind) : bool :=
  match kind with
  | ClusterEventKind.BeginTensorParallel | ClusterEventKind.TensorParallelWorkerPrepared
  | ClusterEventKind.TensorParallelCoordinatorStarted
  | ClusterEventKind.TensorParallelHandshakeHttpReady
  | ClusterEventKind.TensorParallelWarmupDone
  | ClusterEventKind.BeginTensorParallelDemotion => true
  | _ => false
  end.

(** src/src/cluster/production/tp_runtime.rs:114-133 (ProductionClusterRuntime::tp_event) *)
Definition tp_event (kind : ClusterEventKind) (session : Z) : tp_method ClusterSnapshot := fun n =>
  let current := tl_cluster (world n) in
  let event := if tp_kind kind
    then ClusterEvent_tp (generation current) kind (mkTpSessionId session)
    else ClusterEvent_new (generation current) kind in
  let '(r, s) := machine_step current event in
  (map_err TransitionRefused r, set_world (tl_with_cluster s (world n)) n).

(** ** The gate *)

Definition empty_gate (i : Inner) : Inner :=
  mkInner (Admission.state i) (closed i) 0 (max_in_flight i) (drain_generation i).

(** src/src/admission.rs:178-190 (AdmissionGate::wait_for_zero) *)
Definition wait_for_zero : tp_method unit :=
  must GateEmpty (GateFailed DrainError.Timeout);;
  local (tl_with_gate empty_gate).

(** src/src/admission.rs:192-201 (AdmissionGate::drain) *)
Definition drain_gate (g : Z) : tp_method unit :=
  n ← self;
  i ← lift (map_err GateFailed (begin_drain g (tl_gate (world n))));
  local (tl_with_gate (fun _ => i));;
  wait_for_zero;;
  n ← self;
  i ← lift (map_err GateFailed (finish_drain g (tl_gate (world n))));
  local (tl_with_gate (fun _ => i)).

(** ** Pairing *)

(** src/src/cluster/production/tp_runtime.rs:135-149 (ProductionClusterRuntime::tp_pair_local) *)
Definition tp_pair_local : tp_method ClusterSnapshot :=
  s ← snapshot;
  (if bool_decide (state s = ClusterState.SoloStandaloneReady) then
     tp_event ClusterEventKind.BeginPairing 0;;
     tp_event ClusterEventKind.PairingReady 0;;
     mret tt
   else mret tt);;
  s ← snapshot;
  require (bool_decide (state s = ClusterState.PairedStandaloneReady)) NotStandaloneReady;;
  route (target s) true;;
  serve;;
  snapshot.

Definition require_role (r : LocalRole) : tp_method unit :=
  s ← snapshot; require (bool_decide (role s = r)) WrongRole.

(** src/src/cluster/production/tp_runtime.rs:150-165 (ProductionClusterRuntime::tp_pair) *)
Definition tp_pair : tp_method ClusterSnapshot :=
  require_role LocalRole.Coordinator;;
  n ← self;
  tp_policy_check (policy_epoch (policy n));;
  node ← tp_request TpCommand.Node None;
  peer ← tp_peer node;
  must (Preflight (Some (p_address peer))) PreflightFailed;;
  pair ← tp_request TpCommand.Pair None;
  tp_peer pair;;
  tp_pair_local.

(** ** Fallback *)

(** src/src/cluster/production/tp_runtime.rs:494-502 (ProductionClusterRuntime::tp_fallback_effects) *)
Definition leave_tp (session : Z) : tp_method unit :=
  s ← snapshot;
  match state s with
  | ClusterState.TensorParallelReady | ClusterState.TensorParallelStarting
  | ClusterState.AwaitingTensorParallelWorkerHello =>
      tp_event ClusterEventKind.BeginTensorParallelDemotion session;; mret tt
  | _ => mret tt
  end.

(** src/src/cluster/production/tp_runtime.rs:503-511 (ProductionClusterRuntime::tp_fallback_effects) *)
Definition stop_tp_child (session : Z) : tp_method ClusterSnapshot :=
  wait_for_zero;;
  must ChildStop TpChildStopFailed;;
  local (tl_with_session None);;
  tp_event ClusterEventKind.BeginSoloStandalone session.

(** src/src/cluster/production/tp_runtime.rs:512-528 (ProductionClusterRuntime::tp_fallback_effects) *)
Definition start_standalone (session : Z) : tp_method ClusterSnapshot :=
  s ← snapshot;
  started ← invoke (StandaloneStart (generation s));
  match started with
  | Err _ =>
      tp_event ClusterEventKind.RequireManualIntervention session;;
      fail StandaloneFailed
  | Ok _ => mret tt
  end;;
  up ← must StandaloneRunning StandaloneFailed;
  require up StandaloneNotRunning;;
  tp_event ClusterEventKind.LocalStandaloneReady session.

(** src/src/cluster/production/tp_runtime.rs:483-534 (ProductionClusterRuntime::tp_fallback_effects) *)
Definition tp_fallback_effects : tp_method ClusterSnapshot :=
  block_gate;;
  route transition_target false;;
  n ← self;
  let previous := tl_session (world n) in
  let session := match previous with Some s => id s | None => 0 end in
  leave_tp session;;
  stop_tp_child session;;
  ready ← start_standalone session;
  local (tl_with_gate reset_blocked_generation);;
  route (target ready) true;;
  serve;;
  local (tl_with_completed previous);;
  mret ready.

(** src/src/cluster/production/tp_runtime.rs:472-482 (ProductionClusterRuntime::tp_fallback_locked) *)
Definition tp_fallback_locked : tp_method ClusterSnapshot :=
  result ← attempt tp_fallback_effects;
  match result with
  | Err _ =>
      block_gate;;
      tp_event ClusterEventKind.RequireManualIntervention 0;;
      mret tt
  | Ok _ => mret tt
  end;;
  lift result.

(** src/src/cluster/production/tp_runtime.rs:588-604 (ProductionClusterRuntime::tp_demote) *)
Definition tp_demote : tp_method ClusterSnapshot :=
  block_gate;;
  s ← snapshot;
  n ← self;
  match role s, tl_session (world n) with
  | LocalRole.Coordinator, Some session =>
      stop ← tp_request TpCommand.Stop (Some session);
      attempt (tp_peer stop);;
      mret tt
  | _, _ => mret tt
  end;;
  tp_fallback_locked.

(** ** A session *)

(** src/src/cluster/production/tp_runtime.rs:300-310 (ProductionClusterRuntime::tp_match) *)
Definition tp_match (r : TpRequest) : tp_method unit :=
  n ← self;
  s ← lift (ok_or (tl_session (world n)) NoActiveSession);
  require ((id s =? q_session r) && (operation s =? q_operation r) && (epoch s =? q_epoch r))
    StaleSession.

Definition set_deadline : tp_method unit :=
  now ← ask Millis 0;
  local (tl_with_deadline (Some (now + complete_route_millis config))).

(** src/src/cluster/production/tp_runtime.rs:311-342 (ProductionClusterRuntime::tp_begin) *)
Definition tp_begin (u : names) (s : Session) : tp_method unit :=
  tp_policy_check (epoch s);;
  c ← snapshot;
  drain_gate (generation c);;
  route transition_target false;;
  j ← journal;
  set_journal {| tp_identity := tp_identity j; tp_last_session := id s;
                 tp_failed_attempts := tp_failed_attempts j;
                 tp_last_failed_session := tp_last_failed_session j |};;
  persist u;;
  local (tl_with_session (Some s));;
  set_deadline;;
  tp_event ClusterEventKind.BeginTensorParallel (id s);;
  must StandaloneStop StandaloneFailed.

(** src/src/cluster/production/tp_runtime.rs:187-227 (ProductionClusterRuntime::handle_tp) *)
Definition handle_prepare (u : names) (r : TpRequest) : tp_method TpLocalStatus :=
  require_role LocalRole.Worker;;
  n ← self;
  match tl_session (world n) with
  | Some current =>
      require ((id current =? q_session r) && (operation current =? q_operation r)) AnotherSession
  | None =>
      j ← journal;
      require (tp_last_session j <? q_session r) StalePrepare;;
      must (Preflight (Some (q_coordinator_address r))) PreflightFailed;;
      let s := mkSession (q_session r) (q_operation r) (q_epoch r) in
      tp_begin u s;;
      started ← invoke (ChildStart (id s) (q_coordinator_address r));
      match started with
      | Err _ => tp_fallback_locked;; fail ChildStartFailed
      | Ok _ => mret tt
      end;;
      status ← must (ChildStatus (id s)) StatusFailed;
      require (running status) WorkerExited;;
      tp_event ClusterEventKind.TensorParallelWorkerPrepared (id s);;
      mret tt
  end;;
  must (ChildStatus (q_session r)) StatusFailed.

(** src/src/cluster/production/tp_runtime.rs:245-258 (ProductionClusterRuntime::handle_tp) *)
Definition become_ready (session : Z) : tp_method unit :=
  s ← snapshot;
  if bool_decide (state s = ClusterState.TensorParallelReady) then mret tt
  else
    tp_event ClusterEventKind.TensorParallelCoordinatorStarted session;;
    tp_event ClusterEventKind.TensorParallelHandshakeHttpReady session;;
    tp_event ClusterEventKind.TensorParallelWarmupDone session;;
    mret tt.

(** src/src/cluster/production/tp_runtime.rs:228-262 (ProductionClusterRuntime::handle_tp) *)
Definition handle_status (r : TpRequest) : tp_method TpLocalStatus :=
  tp_match r;;
  set_deadline;;
  status ← must (ChildStatus (q_session r)) StatusFailed;
  (if bool_decide (q_command r = TpCommand.Ready) then
     require (running status && connected status) HandshakeIncomplete;;
     become_ready (q_session r);;
     route ProxyTarget.Coordinator true;;
     serve
   else mret tt);;
  mret status.

(** src/src/cluster/production/tp_runtime.rs:263-277 (ProductionClusterRuntime::handle_tp) *)
Definition handle_stop (r : TpRequest) : tp_method unit :=
  n ← self;
  match tl_session (world n) with
  | None =>
      require (is_some_and (tl_completed (world n)) (fun s =>
        (id s =? q_session r) && (operation s =? q_operation r))) StaleStop
  | Some _ => tp_match r;; tp_fallback_locked;; mret tt
  end.

(** src/src/cluster/production/tp_runtime.rs:175-186 (ProductionClusterRuntime::handle_tp) *)
Definition handle_node : tp_method TpLocalStatus :=
  n ← self;
  match tl_session (world n) with
  | None => must (Preflight None) PreflightFailed;; mret status_default
  | Some s => must (ChildStatus (id s)) StatusFailed
  end.

(** src/src/cluster/production/tp_runtime.rs:166-299 (ProductionClusterRuntime::handle_tp) *)
Definition handle_tp (u : names) (r : TpRequest) : tp_method TpResponse :=
  require ((q_version r =? 1) && bool_decide (q_deployment r = deployment_id)) DeploymentMismatchTp;;
  (if bool_decide (q_command r = TpCommand.Stop) then mret tt else tp_policy_check (q_epoch r));;
  status ← match q_command r with
    | TpCommand.Node => handle_node
    | TpCommand.Pair => tp_pair_local;; mret status_default
    | TpCommand.Prepare => handle_prepare u r
    | TpCommand.Status | TpCommand.Ready => handle_status r
    | TpCommand.Stop => handle_stop r;; mret status_default
    end;
  renew_lease;;
  j ← journal;
  a ← tp_address;
  mret {| p_version := 1; p_deployment := q_deployment r; p_epoch := q_epoch r;
          p_session := if bool_decide (q_command r = TpCommand.Node) then tp_last_session j
                       else q_session r;
          p_operation := q_operation r; p_address := a; p_status := status |}.

(** ** Promotion *)

(** One look at both children before the handshake is complete: done, or not yet.
    src/src/cluster/production/tp_runtime.rs:408-416 (ProductionClusterRuntime::tp_promote_owned) *)
Definition handshake_round (s : Session) : tp_method bool :=
  tp_policy_check (epoch s);;
  here ← must (ChildStatus (id s)) StatusFailed;
  q ← tp_request TpCommand.Status (Some s);
  remote ← tp_peer q;
  require (running here && running (p_status remote)) ExitedBeforeHandshake;;
  mret (connected here && http_ready here && connected (p_status remote)).

(** The rounds are 20 ms apart, so that the deadline passes within [fuel] rounds
    when [fuel * 20] is past it. *)
Fixpoint handshake (fuel : nat) (deadline : Z) (s : Session) : tp_method unit :=
  match fuel with
  | O => fail HandshakeTimeout
  | S fuel =>
      done ← handshake_round s;
      if done : bool then mret tt
      else
        now ← ask Millis 0;
        require (now <? deadline) HandshakeTimeout;;
        handshake fuel deadline s
  end.

Definition handshake_fuel : nat := Z.to_nat (complete_route_millis config / 20 + 2).

(** Polls 100 ms apart for at most five minutes.
    src/src/cluster/production/tp_runtime.rs:421-435 (ProductionClusterRuntime::tp_promote_owned) *)
Fixpoint warmup_loop (fuel : nat) (s : Session) : tp_method unit :=
  match fuel with
  | O => fail WarmupFailed
  | S fuel =>
      poll ← must Warmup WarmupFailed;
      match poll with
      | Finished => mret tt
      | TimedOut => fail WarmupFailed
      | StillRunning =>
          tp_policy_check (epoch s);;
          q ← tp_request TpCommand.Status (Some s);
          remote ← tp_peer q;
          require (running (p_status remote) && connected (p_status remote)) PeerLostInWarmup;;
          warmup_loop fuel s
      end
  end.

Definition warmup_fuel : nat := 3001.

(** With a permit of the gate, given back at the end of the scope.
    src/src/cluster/production/tp_runtime.rs:419-437 (ProductionClusterRuntime::tp_promote_owned) *)
Definition warm_up (s : Session) : tp_method unit :=
  n ← self;
  i ← lift (map_err NoPermit (try_acquire_recovery true (tl_gate (world n))));
  local (tl_with_gate (fun _ => i));;
  result ← attempt (warmup_loop warmup_fuel s);
  local (tl_with_gate (fun i => fst (permit_drop i)));;
  lift result.

(** The effects of a promotion.
    src/src/cluster/production/tp_runtime.rs:400-448 (ProductionClusterRuntime::tp_promote_owned) *)
Definition promote_effects (u : names) (s : Session) : tp_method ClusterSnapshot :=
  tp_begin u s;;
  q ← tp_request TpCommand.Prepare (Some s);
  prepared ← tp_peer q;
  require (running (p_status prepared)) WorkerNotPrepared;;
  tp_event ClusterEventKind.TensorParallelWorkerPrepared (id s);;
  tp_policy_check (epoch s);;
  a ← tp_address;
  must (ChildStart (id s) a) ChildStartFailed;;
  tp_event ClusterEventKind.TensorParallelCoordinatorStarted (id s);;
  now ← ask Millis 0;
  handshake handshake_fuel (now + complete_route_millis config) s;;
  tp_event ClusterEventKind.TensorParallelHandshakeHttpReady (id s);;
  warm_up s;;
  tp_policy_check (epoch s);;
  here ← must (ChildStatus (id s)) StatusFailed;
  require (running here && connected here && http_ready here) LostAfterWarmup;;
  q ← tp_request TpCommand.Ready (Some s);
  remote ← tp_peer q;
  require (running (p_status remote) && connected (p_status remote)) PeerLostBeforePublication;;
  tp_policy_check (epoch s);;
  ready ← tp_event ClusterEventKind.TensorParallelWarmupDone (id s);
  route (target ready) true;;
  serve;;
  mret ready.

(** What follows effects that failed.
    src/src/cluster/production/tp_runtime.rs:449-463 (ProductionClusterRuntime::tp_promote_owned) *)
Definition promote_failed (u : names) (s : Session) : tp_method unit :=
  tp_note_failure u (id s) true;;
  block_gate;;
  stop ← tp_request TpCommand.Stop (Some s);
  attempt (tp_peer stop);;
  tp_fallback_locked;;
  now ← ask Millis 0;
  set_retry_after (now + promotion_backoff_millis config).

(** The effects and what follows them, one attempt being reserved in the journal.
    src/src/cluster/production/tp_runtime.rs:400-470 (ProductionClusterRuntime::tp_promote_owned) *)
Definition promote_session (us : nat → names) (s : Session) : tp_method ClusterSnapshot :=
  result ← attempt (promote_effects (us 1%nat) s);
  match result with
  | Err _ => promote_failed (us 2%nat) s
  | Ok _ =>
      j ← journal;
      set_journal {| tp_identity := tp_identity j; tp_last_session := tp_last_session j;
                     tp_failed_attempts := sat_sub (tp_failed_attempts j) 1;
                     tp_last_failed_session := tp_last_failed_session j |};;
      persist (us 2%nat)
  end;;
  lift result.

(** src/src/cluster/production/tp_runtime.rs:347-471 (ProductionClusterRuntime::tp_promote_owned) *)
Definition tp_promote_owned (us : nat → names) : tp_method ClusterSnapshot :=
  require_role LocalRole.Coordinator;;
  n ← self;
  tp_policy_check (policy_epoch (policy n));;
  require (auto_promote (policy n)) PromotionDisabled;;
  c ← snapshot;
  require (bool_decide (state c = ClusterState.PairedStandaloneReady)) NotPaired;;
  j ← journal;
  require (tp_failed_attempts j <? 3) BudgetExhausted;;
  now ← ask Millis 0;
  require (match tp_budget n with Some b => retry_after b <=? now | None => true end) InBackoff;;
  q ← tp_request TpCommand.Node None;
  peer ← tp_peer q;
  must (Preflight (Some (p_address peer))) PreflightFailed;;
  let last := Z.max (tp_last_session j) (p_session peer) in
  require (last <? u64_max) SessionExhausted;;
  uuid ← ask NewUuid 0;
  let s := mkSession (last + 1) uuid (policy_epoch (policy n)) in
  set_journal {| tp_identity := tp_identity j; tp_last_session := id s;
                 tp_failed_attempts := tp_failed_attempts j + 1;
                 tp_last_failed_session := tp_last_failed_session j |};;
  persist (us 0%nat);;
  promote_session us s.

(** ** Reconcile, restart and shutdown *)

(** Whether the session has failed, and its id.
    src/src/cluster/production/tp_runtime.rs:632-648 (ProductionClusterRuntime::tp_reconcile) *)
Definition session_failed (s : Session) (ready : bool) : tp_method bool :=
  here ← invoke (ChildStatus (id s));
  q ← tp_request TpCommand.Node None;
  peer ← attempt (tp_peer q);
  now ← ask Millis 0;
  n ← self;
  let startup_expired := negb ready
    && match startup_deadline (world n) with Some d => d <=? now | None => true end in
  mret (startup_expired
        || match here with
           | Err _ => true
           | Ok l => negb (running l) || (ready && negb (connected l))
           end
        || match peer with
           | Err _ => true
           | Ok p => ready && (negb (running (p_status p)) || negb (connected (p_status p))
                               || negb (p_session p =? id s))
           end).

(** src/src/cluster/production/tp_runtime.rs:611-627 (ProductionClusterRuntime::tp_reconcile) *)
Definition reconcile_paired : tp_method ClusterSnapshot :=
  q ← tp_request TpCommand.Node None;
  peer ← attempt (tp_peer q);
  match peer with
  | Err _ =>
      block_gate;;
      if auto_demote config then tp_fallback_locked
      else tp_event ClusterEventKind.RequireManualIntervention 0;; snapshot
  | Ok _ => snapshot
  end.

(** src/src/cluster/production/tp_runtime.rs:628-664 (ProductionClusterRuntime::tp_reconcile) *)
Definition reconcile_session (u : names) (ready : bool) : tp_method ClusterSnapshot :=
  n ← self;
  s ← lift (ok_or (tl_session (world n)) StateWithoutSession);
  failed ← session_failed s ready;
  if failed : bool then
    block_gate;;
    tp_note_failure u (id s) false;;
    if auto_demote config then
      c ← snapshot;
      (if bool_decide (role c = LocalRole.Coordinator) then
         stop ← tp_request TpCommand.Stop (Some s);
         attempt (tp_peer stop);;
         mret tt
       else mret tt);;
      tp_fallback_locked
    else tp_event ClusterEventKind.RequireManualIntervention (id s);; snapshot
  else snapshot.

(** [busy]: whether another operation holds the effects lock.
    src/src/cluster/production/tp_runtime.rs:605-666 (ProductionClusterRuntime::tp_reconcile) *)
Definition tp_reconcile (busy : bool) (u : names) : tp_method ClusterSnapshot :=
  c ← snapshot;
  if busy then mret c
  else match state c with
  | ClusterState.PairedStandaloneReady => reconcile_paired
  | ClusterState.TensorParallelReady => reconcile_session u true
  | ClusterState.TensorParallelStarting
  | ClusterState.AwaitingTensorParallelWorkerHello => reconcile_session u false
  | _ => mret c
  end.

(** src/src/cluster/production/tp_runtime.rs:535-564 (ProductionClusterRuntime::tp_stop_for_restart) *)
Definition tp_stop_for_restart (u : names) : tp_method unit :=
  block_gate;;
  wait_for_zero;;
  n ← self;
  match tl_session (world n) with
  | Some session =>
      c ← snapshot;
      (if bool_decide (role c = LocalRole.Coordinator) then
         stop ← tp_request TpCommand.Stop (Some session);
         attempt (tp_peer stop);;
         mret tt
       else mret tt);;
      tp_event ClusterEventKind.BeginTensorParallelDemotion (id session);;
      mret tt
  | None => mret tt
  end;;
  must ChildStop TpChildStopFailed;;
  must StandaloneStop StandaloneFailed;;
  local (tl_with_session None);;
  route transition_target false;;
  map_error JournalFailed (reset_tp_budget path u).

(** src/src/cluster/production/tp_runtime.rs:565-587 (ProductionClusterRuntime::tp_shutdown) *)
Definition tp_shutdown : tp_method unit :=
  block_gate;;
  route transition_target false;;
  wait_for_zero;;
  must ChildStop TpChildStopFailed;;
  local (tl_with_session None).

(** [stored]: what the state store answers; [identity]: of the deployment and the
    RDMA settings.
    src/src/cluster/production/tp_runtime.rs:667-687 (ProductionClusterRuntime::restore_tp_state) *)
Definition restore_tp_state (identity : bytes) (stored : option PersistentClusterState)
    : PersistentTpState :=
  let saved := default {| tp_identity := []; tp_last_session := 0; tp_failed_attempts := 0;
                          tp_last_failed_session := 0 |} (stored ≫= ps_tp) in
  if bool_decide (tp_identity saved = identity) then saved
  else {| tp_identity := identity; tp_last_session := tp_last_session saved;
          tp_failed_attempts := 0; tp_last_failed_session := tp_last_failed_session saved |}.

End tp.
