(* ===== verification/TpNode.v ===== *)
(** * A tensor-parallel node under any sequence of operations

    The operations of [TpRuntime], run one after the other on one node, against an
    environment that may answer every call in every way: the standalone and the
    tensor-parallel child never own the machine at the same time, and a gate that
    serves has a live server behind it.  A promotion that succeeds has made every
    check it is meant to make, and an attempt that fails is on disk before its first
    effect. *)

From S2P Require Import Prelude Bytes Target Operation Tp Disk StateStore.
From S2P Require Import Admission ClusterFsm Promotion Runtime Production Policy TpRuntime.

(** ** Monitors over the trace *)

(** The tensor-parallel child was started, whatever the call answered, and no stop has
    succeeded since; likewise the standalone. *)
Fixpoint tp_up (t : tp_trace) : bool :=
  match t with
  | [] => false
  | TpCalled c r :: t =>
      match c with
      | ChildStart _ _ => true
      | ChildStop => if is_ok r then false else tp_up t
      | _ => tp_up t
      end
  end.
Fixpoint sa_up (t : tp_trace) : bool :=
  match t with
  | [] => false
  | TpCalled c r :: t =>
      match c with
      | StandaloneStart _ => true
      | StandaloneStop => if is_ok r then false else sa_up t
      | _ => sa_up t
      end
  end.

(** The last start of the standalone succeeded and no stop has succeeded since. *)
Fixpoint sa_live (t : tp_trace) : bool :=
  match t with
  | [] => false
  | TpCalled c r :: t =>
      match c with
      | StandaloneStart _ => is_ok r
      | StandaloneStop => if is_ok r then false else sa_live t
      | _ => sa_live t
      end
  end.

(** No child was started while the other one was possibly up. *)
Fixpoint tp_exclusive (t : tp_trace) : bool :=
  match t with
  | [] => true
  | TpCalled c r :: t =>
      match c with
      | ChildStart _ _ => negb (sa_up t)
      | StandaloneStart _ => negb (tp_up t)
      | _ => true
      end && tp_exclusive t
  end.

(** A status that says [running] is that of a child that was started. *)
Class LawfulTp (env : TpEnvironment) : Prop :=
  running_was_started t s st :
    tp_answer t (ChildStatus s) = Ok st → running st = true → tp_up t = true.

(** Calls that start or stop nothing. *)
Definition observes {A} (c : TpCall A) : bool :=
  match c with
  | ChildStart _ _ | ChildStop | StandaloneStart _ | StandaloneStop => false
  | _ => true
  end.

Definition calls_of (n : TpNode) : tp_trace := tl_calls (world n).
Definition cluster_of (n : TpNode) : ClusterSnapshot := tl_cluster (world n).
Definition gate_of (n : TpNode) : Inner := tl_gate (world n).

(** What is known of the children. *)
Definition children (n : TpNode) : bool * bool * bool * bool :=
  (tp_up (calls_of n), sa_up (calls_of n), sa_live (calls_of n), tp_exclusive (calls_of n)).

(** Neither the state machine, nor the gate, nor the children changed. *)
Definition neutral : relation TpNode := fun n n' =>
  cluster_of n' = cluster_of n ∧ gate_of n' = gate_of n ∧ children n' = children n
  ∧ calls_of n `suffix_of` calls_of n'.

Global Instance neutral_preorder : PreOrder neutral.
Proof.
  split; [done|]. intros n1 n2 n3 (? & ? & ? & ?) (? & ? & ? & ?). unfold neutral.
  split_and!; [congruence..|]. by transitivity (calls_of n2).
Qed.

Create HintDb tp.

Section operations.
Context `{env : TpEnvironment, StateCodec} (path : bytes).
Context (config : TpConfig) (deployment_id : bytes) (address : option IpAddr).

Lemma keeps_invoke {A} (c : TpCall A) : observes c = true → keeps neutral (invoke c).
Proof.
  intros Hc n. unfold neutral. split_and!; [done|done|by destruct c|]. by apply suffix_cons_r.
Qed.

Lemma keeps_local f :
  (∀ l, tl_cluster (f l) = tl_cluster l ∧ tl_gate (f l) = tl_gate l ∧ tl_calls (f l) = tl_calls l) →
  keeps neutral (local f).
Proof.
  intros Hf n. destruct (Hf (world n)) as (H1 & H2 & H3).
  unfold neutral, children, calls_of, cluster_of, gate_of. simpl. by rewrite H1, H2, H3.
Qed.

Lemma keeps_with_store {A} (m : store_method A) : keeps neutral (with_store (W := TpLocal) m).
Proof.
  intros n. unfold with_store. destruct (policy_store n) as [st|]; [|done]. by destruct (m st).
Qed.

Lemma keeps_persist u : keeps neutral (persist path u).
Proof.
  intros n. unfold persist, map_error, persist_tp_journal. unfold_method. unfold self.
  destruct (tp_budget n) as [b|]; [|done].
  pose proof (keeps_with_store (loaded ← load path u.1 u.2; save path (with_tp (tp_journal b)
    (default (default_for_tp (H := tp_modes) n) loaded))) n) as Hk. unfold mbind, method_bind in *.
  destruct (with_store _ n) as [r n']. exact Hk.
Qed.

Lemma keeps_match_option {B A} (o : option B) (f : B → tp_method A) (d : tp_method A) :
  (∀ b, keeps neutral (f b)) → keeps neutral d →
  keeps neutral (match o with Some b => f b | None => d end).
Proof. by destruct o. Qed.

Hint Resolve keeps_ret keeps_fail keeps_self keeps_require keeps_lift keeps_if keeps_persist
  keeps_attempt keeps_match_option : tp.

Ltac neutral :=
  repeat first
    [ eapply keeps_bind; [apply neutral_preorder| |intros ?]
    | solve [auto with tp typeclass_instances]
    | apply keeps_invoke; reflexivity
    | apply keeps_local; done
    | apply keeps_modify; [apply _|intros ?; by split_and!]
    | case_match
    | apply keeps_attempt
    | apply keeps_if ].

Lemma keeps_must {A} (c : TpCall A) e : observes c = true → keeps neutral (must c e).
Proof. intros Hc. unfold must. apply keeps_bind; [apply _|by apply keeps_invoke|]. neutral. Qed.
Lemma keeps_ask {A} (c : TpCall A) d : observes c = true → keeps neutral (ask c d).
Proof. intros Hc. unfold ask. apply keeps_bind; [apply _|by apply keeps_invoke|]. neutral. Qed.
Hint Extern 1 (keeps neutral (must _ _)) => apply keeps_must; reflexivity : tp.
Hint Extern 1 (keeps neutral (ask _ _)) => apply keeps_ask; reflexivity : tp.

Lemma keeps_snapshot : keeps neutral snapshot.
Proof. unfold snapshot. neutral. Qed.
Lemma keeps_journal : keeps neutral journal.
Proof. unfold journal. neutral. Qed.
Lemma keeps_set_journal j : keeps neutral (set_journal j).
Proof. unfold set_journal. apply keeps_modify; [apply _|intros n; by split_and!]. Qed.
Hint Resolve keeps_snapshot keeps_journal keeps_set_journal : tp.

Lemma keeps_set_retry_after t : keeps neutral (set_retry_after t).
Proof. unfold set_retry_after. neutral. Qed.
Lemma keeps_route t b : keeps neutral (route t b).
Proof. unfold route. by apply keeps_local. Qed.
Lemma keeps_tp_request c s : keeps neutral (tp_request deployment_id address c s).
Proof. unfold tp_request, tp_address. neutral. Qed.
Lemma keeps_renew_lease : keeps neutral (renew_lease config).
Proof. unfold renew_lease. neutral. Qed.
Lemma keeps_set_deadline : keeps neutral (set_deadline config).
Proof. unfold set_deadline. neutral. Qed.
Hint Resolve keeps_set_retry_after keeps_route keeps_tp_request keeps_renew_lease keeps_set_deadline : tp.

Lemma keeps_tp_peer r : keeps neutral (tp_peer config r).
Proof. unfold tp_peer. neutral. Qed.
Lemma keeps_tp_note_failure u s b : keeps neutral (tp_note_failure path u s b).
Proof. unfold tp_note_failure. neutral. Qed.
Lemma keeps_tp_policy_check e : keeps neutral (tp_policy_check e).
Proof. unfold tp_policy_check. neutral. Qed.
Lemma keeps_require_role r : keeps neutral (require_role r).
Proof. unfold require_role. neutral. Qed.
Lemma keeps_tp_match r : keeps neutral (tp_match r).
Proof. unfold tp_match. neutral. Qed.
Hint Resolve keeps_tp_peer keeps_tp_note_failure keeps_tp_policy_check keeps_require_role keeps_tp_match : tp.

Lemma keeps_handshake fuel d s : keeps neutral (handshake config deployment_id address fuel d s).
Proof. induction fuel as [|fuel IH]; simpl; unfold handshake_round; neutral. Qed.
Lemma keeps_warmup_loop fuel s : keeps neutral (warmup_loop config deployment_id address fuel s).
Proof. induction fuel as [|fuel IH]; simpl; neutral. Qed.
Lemma keeps_session_failed s b : keeps neutral (session_failed config deployment_id address s b).
Proof. unfold session_failed. neutral. Qed.
Lemma keeps_handle_node : keeps neutral handle_node.
Proof. unfold handle_node. neutral. Qed.
Hint Resolve keeps_handshake keeps_warmup_loop keeps_session_failed keeps_handle_node : tp.

(** ** The invariant *)

(** The states in which the standalone answers. *)
Definition standalone_st (st : ClusterState) : bool :=
  match st with
  | ClusterState.SoloStandaloneReady | ClusterState.Pairing
  | ClusterState.PairedStandaloneReady => true
  | _ => false
  end.

Definition quiet (n : TpNode) : Prop := Admission.state (gate_of n) ≠ AdmissionState.Serving.

Record tgood (n : TpNode) : Prop := {
  tg_exclusive : tp_exclusive (calls_of n) = true;
  tg_standalone : standalone_st (state (cluster_of n)) = true →
    sa_live (calls_of n) = true ∧ tp_up (calls_of n) = false;
  tg_serving : Admission.state (gate_of n) = AdmissionState.Serving →
    sa_live (calls_of n) || tp_up (calls_of n) = true;
}.

Lemma neutral_children n n' :
  neutral n n' →
  cluster_of n' = cluster_of n ∧ gate_of n' = gate_of n
  ∧ tp_up (calls_of n') = tp_up (calls_of n) ∧ sa_up (calls_of n') = sa_up (calls_of n)
  ∧ sa_live (calls_of n') = sa_live (calls_of n)
  ∧ tp_exclusive (calls_of n') = tp_exclusive (calls_of n).
Proof. intros (? & ? & Hc & _). unfold children in Hc. by simplify_eq. Qed.

Lemma tgood_neutral n n' : tgood n → neutral n n' → tgood n'.
Proof.
  intros [He Hs Hg] (Hc & Hi & H1 & H2 & H3 & H4)%neutral_children.
  split; rewrite ?Hc, ?Hi, ?H1, ?H3, ?H4; done.
Qed.

Lemma wp_neutral {A} (m : tp_method A) (Q : A → TpNode → Prop) X n :
  keeps neutral m → (∀ a n', neutral n n' → Q a n') → (∀ e n', neutral n n' → X e n') → wp m Q X n.
Proof.
  intros Hm HQ HX. specialize (Hm n). unfold wp. destruct (m n) as [[a|e] n']; auto.
Qed.

(** ** Events *)

(** Only these events lead into a standalone state from another one. *)
Definition calm (k : ClusterEventKind) : bool :=
  match k with
  | ClusterEventKind.BeginPairing | ClusterEventKind.BeginTensorParallel
  | ClusterEventKind.TensorParallelWorkerPrepared
  | ClusterEventKind.TensorParallelCoordinatorStarted
  | ClusterEventKind.TensorParallelHandshakeHttpReady
  | ClusterEventKind.TensorParallelWarmupDone
  | ClusterEventKind.BeginTensorParallelDemotion
  | ClusterEventKind.BeginSoloStandalone
  | ClusterEventKind.RequireManualIntervention => true
  | _ => false
  end.

Lemma calm_standalone s ev m st r :
  calm (kind ev) = true → transition_table s ev = Some (m, st, r) →
  standalone_st st = true → standalone_st (state s) = true.
Proof.
  intros Hk HT Hst. unfold transition_table, transition_standalone_and_lp,
    transition_tp_and_generic in HT.
  destruct (state s), (kind ev); simplify_eq/=; try done; repeat case_match; simplify_eq/=; done.
Qed.

Definition entered (k : ClusterEventKind) : option ClusterState :=
  match k with
  | ClusterEventKind.BeginPairing => Some ClusterState.Pairing
  | ClusterEventKind.PairingReady => Some ClusterState.PairedStandaloneReady
  | ClusterEventKind.BeginTensorParallel => Some ClusterState.TensorParallelStarting
  | ClusterEventKind.BeginSoloStandalone => Some ClusterState.SoloStandaloneStarting
  | ClusterEventKind.LocalStandaloneReady => Some ClusterState.SoloStandaloneReady
  | ClusterEventKind.RequireManualIntervention => Some ClusterState.ManualInterventionRequired
  | _ => None
  end.

Lemma table_enters s ev m st r st' :
  transition_table s ev = Some (m, st, r) → entered (kind ev) = Some st' → st = st'.
Proof.
  intros HT He. unfold transition_table, transition_standalone_and_lp,
    transition_tp_and_generic in HT.
  destruct (kind ev); simplify_eq/=; destruct (state s); simplify_eq/=; done.
Qed.

(** An event refused leaves the node alone; one accepted changes the snapshot only. *)
Lemma wp_tp_event k sid (Q : ClusterSnapshot → TpNode → Prop) X n :
  (∀ e, X e n) →
  (∀ s, (calm k = true → standalone_st (state s) = true → standalone_st (state (cluster_of n)) = true) →
        (∀ st, entered k = Some st → state s = st) →
        Q s (set_world (tl_with_cluster s (world n)) n)) →
  wp (tp_event k sid) Q X n.
Proof.
  intros HX HQ. unfold wp, tp_event, machine_step. set (ev := if tp_kind k then _ else _).
  assert (Hk : kind ev = k) by (unfold ev; by destruct (tp_kind k)).
  destruct (transition (tl_cluster (world n)) ev) as [s|e] eqn:T; simpl.
  - apply HQ; apply transition_ok in T as [_ [[Hw ->]|[_ (m & st & r & HT & ->)]]]; simpl.
    + done.
    + intros Hc. rewrite <-Hk in Hc. by eapply calm_standalone.
    + intros st He. exfalso. unfold wrong_tp_session, ev in Hw.
      destruct k; simplify_eq/=; bool_to_prop; done.
    + intros st' He. rewrite <-Hk in He. by eapply table_enters.
  - assert (set_world (tl_with_cluster (tl_cluster (world n)) (world n)) n = n) as ->
      by (destruct n as [? ? []]; done). apply HX.
Qed.

(** The last resort is never refused. *)
Lemma wp_manual sid (Q : ClusterSnapshot → TpNode → Prop) X n :
  (∀ s, state s = ClusterState.ManualInterventionRequired →
        Q s (set_world (tl_with_cluster s (world n)) n)) →
  wp (tp_event ClusterEventKind.RequireManualIntervention sid) Q X n.
Proof.
  intros HQ. unfold wp, tp_event, machine_step. simpl. rewrite transition_unfold.
  unfold wrong_tp_session, transition_table, transition_standalone_and_lp, transition_tp_and_generic.
  simpl. rewrite Z.eqb_refl. simpl. destruct (state (tl_cluster (world n))); by apply HQ.
Qed.

Lemma tgood_manual n s :
  tp_exclusive (calls_of n) = true → quiet n → state s = ClusterState.ManualInterventionRequired →
  tgood (set_world (tl_with_cluster s (world n)) n).
Proof. intros He Hq Hs. split; unfold cluster_of; simpl; rewrite ?Hs; [done|done|intros Hg; by destruct (Hq Hg)]. Qed.

(** ** The gate *)

Lemma wp_local f (Q : unit → TpNode → Prop) X n :
  Q tt (set_world (f (world n)) n) → wp (local f) Q X n.
Proof. intros HQ. apply wp_modify, HQ. Qed.

(** A call, with every answer. *)
Lemma wp_invoke {A} (c : TpCall A) (Q : result A unit → TpNode → Prop) X n :
  (∀ r, r = tp_answer (calls_of n) c →
        Q r (set_world (tl_with_call (TpCalled c r) (world n)) n)) → wp (invoke c) Q X n.
Proof. intros HQ. by apply HQ. Qed.

Lemma wp_must {A} (c : TpCall A) e (Q : A → TpNode → Prop) X n :
  (∀ r, r = tp_answer (calls_of n) c →
        let n' := set_world (tl_with_call (TpCalled c r) (world n)) n in
        match r with Ok a => Q a n' | Err _ => X e n' end) → wp (must c e) Q X n.
Proof.
  intros HQ. unfold must. apply wp_bind, wp_invoke. intros r Hr. apply wp_lift.
  specialize (HQ r Hr). by destruct r.
Qed.

(** The node with another gate. *)
Definition gate_only (n n' : TpNode) : Prop :=
  cluster_of n' = cluster_of n ∧ children n' = children n ∧ calls_of n `suffix_of` calls_of n'.

Lemma wp_wait_for_zero n :
  wp wait_for_zero (fun _ n' => gate_only n n' ∧ (quiet n → quiet n'))
    (fun _ n' => gate_only n n' ∧ gate_of n' = gate_of n) n.
Proof.
  unfold wait_for_zero. apply wp_bind, wp_must. intros r _.
  assert (Hs : calls_of n `suffix_of` TpCalled GateEmpty r :: calls_of n) by by apply suffix_cons_r.
  destruct r as [[]|e]; [|done]. by apply wp_local.
Qed.

Lemma wp_drain_gate g n :
  wp (drain_gate g) (fun _ n' => gate_only n n' ∧ quiet n')
    (fun _ n' => gate_only n n' ∧ (gate_of n' = gate_of n ∨ quiet n')) n.
Proof.
  unfold drain_gate. apply wp_bind, wp_self, wp_bind, wp_lift.
  destruct (begin_drain g (tl_gate (world n))) as [i|e] eqn:Hb; simpl; [|by split; [|left]].
  assert (Hi : Admission.state i = AdmissionState.Draining).
  { unfold begin_drain in Hb. case_match; by simplify_eq/=. }
  apply wp_bind, wp_local, wp_bind. set (n1 := set_world _ n).
  assert (Hq1 : quiet n1) by (unfold quiet, gate_of; simpl; by rewrite Hi).
  wp_use wp_wait_for_zero; [|intros e n2 [Ho Hg]; split; [done|right; unfold quiet; by rewrite Hg]].
  intros _ n2 [Ho Hq2]. specialize (Hq2 Hq1). apply wp_bind, wp_self, wp_bind, wp_lift.
  destruct (finish_drain g (tl_gate (world n2))) as [i2|e] eqn:Hf; simpl; [|by split; [|right]].
  apply wp_local. split; [done|]. unfold finish_drain in Hf. case_match; by simplify_eq/=.
Qed.

(** ** Fallback, demotion *)

(** [wp_calm]: the next step changes nothing of the invariant. *)
Ltac wp_calm Hn' :=
  apply wp_neutral; [neutral; auto with tp|intros ? ? Hn'|intros ? ? Hn'].

Lemma wp_block_gate (Q : unit → TpNode → Prop) X n :
  (∀ n', gate_only n n' → quiet n' → Q tt n') → wp block_gate Q X n.
Proof. intros HQ. by apply wp_local, HQ. Qed.

Lemma gate_only_children n n' :
  gate_only n n' →
  cluster_of n' = cluster_of n
  ∧ tp_up (calls_of n') = tp_up (calls_of n) ∧ sa_up (calls_of n') = sa_up (calls_of n)
  ∧ sa_live (calls_of n') = sa_live (calls_of n)
  ∧ tp_exclusive (calls_of n') = tp_exclusive (calls_of n).
Proof. intros (? & Hc & _). unfold children in Hc. by simplify_eq. Qed.

(** Exclusive so far, and nothing is served. *)
Definition held (n : TpNode) : Prop := tp_exclusive (calls_of n) = true ∧ quiet n.

Lemma wp_stop_tp_child sid n :
  held n →
  wp (stop_tp_child sid) (fun _ n' => held n' ∧ tp_up (calls_of n') = false) (fun _ => held) n.
Proof.
  intros [He Hq]. unfold stop_tp_child. apply wp_bind. wp_use wp_wait_for_zero.
  - intros _ n3 [(_ & _ & _ & _ & Hx)%gate_only_children Hq3]. rewrite He in Hx.
    specialize (Hq3 Hq). apply wp_bind, wp_must. intros [[]|[]] _; [|done].
    apply wp_bind, wp_local. apply wp_tp_event; [done|]. intros s _ _. done.
  - intros e n3 [(_ & _ & _ & _ & Hx)%gate_only_children Hg]. rewrite He in Hx.
    split; [done|]. unfold quiet. by rewrite Hg.
Qed.

Lemma wp_start_standalone sid n :
  held n → tp_up (calls_of n) = false →
  wp (start_standalone sid)
    (fun _ n' => held n' ∧ tp_up (calls_of n') = false ∧ sa_live (calls_of n') = true)
    (fun _ => held) n.
Proof.
  intros [He Hq] Hup. unfold start_standalone. apply wp_bind, wp_bind, wp_self, wp_ret, wp_bind, wp_invoke.
  intros r _. set (n1 := set_world _ n).
  assert (H1 : held n1 ∧ tp_up (calls_of n1) = false ∧ sa_live (calls_of n1) = is_ok r).
  { split_and!; [split; [|done]|done|done]. unfold calls_of in *. simpl. by rewrite Hup, He. }
  clearbody n1. destruct H1 as (Hh & Hu & Hl). apply wp_bind. destruct r as [[]|[]].
  - apply wp_ret, wp_bind, wp_must. intros [up|[]] _; [|done]. apply wp_bind, wp_require; [|done].
    intros _. by apply wp_tp_event.
  - apply wp_bind, wp_tp_event; [done|]. intros s _ _. by apply wp_fail.
Qed.

Lemma wp_fallback_effects n :
  tp_exclusive (calls_of n) = true → wp tp_fallback_effects (fun _ => tgood) (fun _ => held) n.
Proof.
  intros He. unfold tp_fallback_effects. apply wp_bind, wp_block_gate.
  intros n1 (_ & _ & _ & _ & He1)%gate_only_children Hq1. rewrite He in He1. clear n He.
  apply wp_bind, wp_local, wp_bind, wp_self, wp_bind. set (n2 := set_world _ n1).
  assert (Hheld : held n2) by done. clearbody n2. clear n1 He1 Hq1.
  assert (Hleave : ∀ sid, wp (leave_tp sid) (fun _ => held) (fun _ => held) n2).
  { intros sid. unfold leave_tp. apply wp_bind, wp_bind, wp_self, wp_ret.
    destruct (state _); try (by apply wp_ret); apply wp_bind, wp_tp_event; done. }
  wp_use Hleave; [|done]. intros _ n3 H3. apply wp_bind. wp_use wp_stop_tp_child; [done| |done].
  intros _ n4 [H4 Hup]. apply wp_bind. wp_use wp_start_standalone; [done|done| |done].
  intros ready n5 ([He Hq] & Hup5 & Hl5). apply wp_bind, wp_local, wp_bind, wp_local, wp_bind, wp_local.
  apply wp_bind, wp_local, wp_ret. unfold calls_of in *. split; unfold calls_of; simpl; [done|done|].
  intros _. by rewrite Hl5.
Qed.

(** Falling back ends with the standalone serving, or blocked for the operator. *)
Lemma wp_fallback n :
  tp_exclusive (calls_of n) = true → wp tp_fallback_locked (fun _ => tgood) (fun _ => tgood) n.
Proof.
  intros He. unfold tp_fallback_locked. apply wp_bind, wp_attempt.
  wp_use wp_fallback_effects; [done| |].
  - intros s n1 H1. apply wp_bind, wp_ret, wp_lift. done.
  - intros e n1 [He1 Hq1]. apply wp_bind, wp_bind, wp_block_gate.
    intros n2 (_ & _ & _ & _ & He2)%gate_only_children Hq2. rewrite He1 in He2.
    apply wp_bind, wp_manual. intros s Hs. apply wp_ret, wp_lift. by apply tgood_manual.
Qed.

Lemma gate_only_tgood n n' : tgood n → gate_only n n' → quiet n' → tgood n'.
Proof.
  intros [He Hs Hg] (Hc & H1 & _ & H3 & H4)%gate_only_children Hq.
  split; rewrite ?Hc, ?H1, ?H3, ?H4; [done|done|]. intros Hg'. by destruct (Hq Hg').
Qed.

Lemma wp_demote n :
  tgood n → wp (tp_demote config deployment_id address) (fun _ => tgood) (fun _ => tgood) n.
Proof.
  intros Hn. unfold tp_demote. apply wp_bind, wp_block_gate. intros n1 Ho Hq.
  pose proof (gate_only_tgood _ _ Hn Ho Hq) as H1.
  apply wp_bind, wp_neutral; [auto with tp|intros s n2 H2|intros s n2 H2; by eapply tgood_neutral].
  apply wp_bind, wp_self, wp_bind, wp_neutral; [neutral|intros _ n3 H3|intros e n3 H3];
    pose proof (tgood_neutral _ _ H1 (transitivity H2 H3)) as Hg3; [|done].
  wp_use wp_fallback; [apply Hg3|done|done].
Qed.


(** ** Pairing and sessions *)

(** A calm event keeps the invariant. *)
Lemma wp_calm_event k sid n :
  calm k = true → tgood n →
  wp (tp_event k sid) (fun s n' => tgood n' ∧ gate_of n' = gate_of n ∧ children n' = children n
    ∧ ∀ st, entered k = Some st → state (cluster_of n') = st) (fun _ => tgood) n.
Proof.
  intros Hk [He Hs Hg]. apply wp_tp_event; [done|]. intros s Hst Hent.
  split_and!; [split; [done| |done]|done|done|done]. intros Hstand. apply Hs. by apply Hst.
Qed.

Lemma standalone_serves n :
  tgood n → standalone_st (state (cluster_of n)) = true →
  ∀ t, tgood (set_world (tl_with_gate start_serving (tl_with_target t (world n))) n).
Proof. intros [He Hs Hg] Hst t. destruct (Hs Hst) as [Hl Hu]. split; [done|done|]. intros _.
  unfold calls_of in *. simpl. by rewrite Hl. Qed.

Lemma wp_serve_paired (n : TpNode) :
  tgood n →
  wp (s ← snapshot;
      require (bool_decide (state s = ClusterState.PairedStandaloneReady)) NotStandaloneReady;;
      route (target s) true;; serve;; snapshot) (fun _ => tgood) (fun _ => tgood) n.
Proof.
  intros Hn. apply wp_bind, wp_bind, wp_self, wp_ret, wp_bind, wp_require; [|done].
  intros Hst. bool_to_prop. apply wp_bind, wp_local, wp_bind, wp_local.
  apply wp_bind, wp_self, wp_ret.
  apply (standalone_serves n Hn). unfold cluster_of. by rewrite Hst.
Qed.

Lemma wp_pair_local n : tgood n → wp tp_pair_local (fun _ => tgood) (fun _ => tgood) n.
Proof.
  intros Hn. unfold tp_pair_local. apply wp_bind, wp_bind, wp_self, wp_ret, wp_bind.
  case_bool_decide as Hsolo; [|by apply wp_ret, wp_serve_paired].
  assert (Hl : sa_live (calls_of n) = true ∧ tp_up (calls_of n) = false).
  { apply Hn. unfold cluster_of. by rewrite Hsolo. }
  apply wp_bind. wp_use wp_calm_event; [done|exact Hn| |done].
  intros _ n1 (H1 & Hg1 & Hc1 & _). apply wp_bind, wp_tp_event; [done|]. intros s _ _. apply wp_ret.
  apply wp_serve_paired. destruct H1 as [He1 _ Hs1]. unfold children in Hc1. simplify_eq.
  split; [done| |done]. intros _. unfold calls_of in *. simpl. destruct Hl. split; congruence.
Qed.

(** What a step that is [neutral] does not change. *)
Class Stable (P : TpNode → Prop) : Prop := stable n n' : neutral n n' → P n → P n'.

#[local] Instance tgood_stable : Stable tgood.
Proof. intros n n' Hn Hg. by eapply tgood_neutral. Qed.
#[local] Instance quiet_stable : Stable quiet.
Proof. intros n n' (_ & Hg & _) Hq. unfold quiet. by rewrite Hg. Qed.
#[local] Instance and_stable P Q : Stable P → Stable Q → Stable (fun n => P n ∧ Q n).
Proof. intros HP HQ n n' Hn [??]. split; by eapply stable. Qed.
#[local] Instance children_stable {A} (f : _ → A) v : Stable (fun n => f (children n) = v).
Proof. intros n n' (_ & _ & Hc & _). by rewrite Hc. Qed.
#[local] Instance cluster_stable {A} (f : _ → A) v : Stable (fun n => f (cluster_of n) = v).
Proof. intros n n' (Hc & _). by rewrite Hc. Qed.

(** A step that changes nothing [P] speaks of. *)
Lemma wp_skip (P : TpNode → Prop) {A B} (m : tp_method A) (k : A → tp_method B) Q n :
  Stable P → keeps neutral m → (∀ n, P n → tgood n) → P n →
  (∀ a n', P n' → wp (k a) Q (fun _ => tgood) n') →
  wp (m ≫= k) Q (fun _ => tgood) n.
Proof.
  intros HP Hm Hg Hn Hk. apply wp_bind, wp_neutral; [done|..].
  - intros a n' Hn'. apply Hk. by eapply stable.
  - intros e n' Hn'. apply Hg. by eapply stable.
Qed.

(** The gate is shut and the standalone is down: a child may be started. *)
Definition cleared (n : TpNode) : Prop := tgood n ∧ quiet n ∧ sa_up (calls_of n) = false.
#[local] Instance cleared_stable : Stable cleared.
Proof.
  intros n n' Hn (? & ? & ?). split_and!; [by eapply tgood_stable|by eapply quiet_stable|].
  by destruct (neutral_children _ _ Hn) as (_ & _ & _ & -> & _).
Qed.

Lemma cleared_tgood n : cleared n → tgood n.
Proof. by intros [? _]. Qed.
Lemma both_tgood (P : TpNode → Prop) n : tgood n ∧ P n → tgood n.
Proof. by intros [? _]. Qed.
Hint Resolve cleared_tgood both_tgood : tp.

Ltac skip P :=
  eapply (wp_skip P); [apply _|neutral|solve [auto with tp | by intros ? [? _]]|solve [eauto with tp]|
    let a := fresh "a" in let n := fresh "n" in let Hn := fresh "Hn" in intros a n Hn; cbv beta].

Lemma wp_pair n :
  tgood n → wp (tp_pair config deployment_id address) (fun _ => tgood) (fun _ => tgood) n.
Proof. intros Hn. unfold tp_pair. do 8 skip tgood. by apply wp_pair_local. Qed.

Lemma wp_begin u s n :
  tgood n → wp (tp_begin path config u s) (fun _ => cleared) (fun _ => tgood) n.
Proof.
  intros Hn. unfold tp_begin. do 2 skip tgood. apply wp_bind. wp_use wp_drain_gate.
  2: { intros e n2 [Ho [Hg|Hq]]; [|by eapply gate_only_tgood].
       apply (tgood_neutral n1); [done|]. destruct Ho as (? & ? & ?). by split_and!. }
  intros _ n2 [Ho Hq]. assert (H2 : tgood n2 ∧ quiet n2) by (split; [by eapply gate_only_tgood|done]).
  do 6 skip (fun n => tgood n ∧ quiet n). apply wp_bind.
  wp_use (wp_calm_event ClusterEventKind.BeginTensorParallel); [done|apply Hn7| |done].
  intros _ m (H8 & Hg8 & Hc8 & Hst8). apply wp_must. intros r _. destruct H8 as [He _ Hs].
  assert (Hq8 : quiet m) by (unfold quiet; rewrite Hg8; apply Hn7).
  assert (Hstate : ∀ c, tgood (set_world (tl_with_call (TpCalled StandaloneStop c) (world m)) m)).
  { intros c. split; [done| |intros Hserve; by destruct (Hq8 Hserve)].
    unfold cluster_of in *. simpl. by rewrite (Hst8 _ eq_refl). }
  destruct r as [[]|[]]; [|apply Hstate]. split_and!; [apply Hstate|exact Hq8|reflexivity].
Qed.

Lemma live_up t : sa_live t = true → sa_up t = true.
Proof. induction t as [|[A c r] t IH]; [done|]. destruct c; simpl; auto. by destruct (is_ok r). Qed.

(** A child started on a cleared node. *)
Lemma cleared_start n sid a r :
  cleared n →
  let n' := set_world (tl_with_call (TpCalled (ChildStart sid a) r) (world n)) n in
  tgood n' ∧ quiet n'.
Proof.
  intros ([He Hs Hg] & Hq & Hup). split; [|done]. split.
  - unfold calls_of in *. simpl. by rewrite Hup, He.
  - intros Hst. destruct (Hs Hst) as [Hl _]. apply live_up in Hl. unfold calls_of in *. congruence.
  - intros Hserve. by destruct (Hq Hserve).
Qed.

Definition resting (n : TpNode) : Prop := tgood n ∧ quiet n.
#[local] Instance resting_stable : Stable resting.
Proof. apply and_stable; apply _. Qed.
Lemma resting_tgood n : resting n → tgood n.
Proof. by intros [? _]. Qed.
Hint Resolve resting_tgood : tp.


Lemma wp_resting_event k sid n :
  calm k = true → resting n → wp (tp_event k sid) (fun _ => resting) (fun _ => tgood) n.
Proof.
  intros Hk [Hn Hq]. wp_use (wp_calm_event k sid); [done|done| |done].
  intros _ n' (? & Hg & _). split; [done|]. unfold quiet. by rewrite Hg.
Qed.

Lemma wp_prepare u r n :
  tgood n →
  wp (handle_prepare path config u r) (fun _ => tgood) (fun _ => tgood) n.
Proof.
  intros Hn. unfold handle_prepare. do 2 skip tgood. apply wp_bind.
  assert (Hlast : ∀ n, tgood n → wp (must (ChildStatus (q_session r)) StatusFailed)
    (fun _ => tgood) (fun _ => tgood) n).
  { intros m Hm. apply wp_neutral; [auto with tp|..]; intros ? ? ?; by eapply stable. }
  destruct (tl_session (world a0)) as [s|].
  { apply wp_require; intros _; [|done]. by apply Hlast. }
  do 3 skip tgood. apply wp_bind. wp_use wp_begin; [done| |done].
  intros _ m Hm. apply wp_bind, wp_invoke. intros started _.
  destruct (cleared_start m (q_session r) (q_coordinator_address r) started Hm) as [Hg Hq].
  apply wp_bind. destruct started as [[]|[]].
  - apply wp_ret. eapply (wp_skip resting); [apply _|neutral|auto with tp|done|]. intros st m2 Hm2.
    skip resting. apply wp_bind. wp_use (wp_resting_event ClusterEventKind.TensorParallelWorkerPrepared);
      [done|done| |done]. intros _ m3 [Hm3 _]. apply wp_ret. by apply Hlast.
  - apply wp_bind. wp_use wp_fallback; [apply Hg| |done]. intros _ m2 Hm2. by apply wp_fail.
Qed.

Context `{!LawfulTp env}.

(** A child that runs: the node may serve. *)
Definition backed (n : TpNode) : Prop := tgood n ∧ (fst (fst (fst (children n)))) = true.
#[local] Instance backed_stable : Stable backed.
Proof. apply and_stable; [apply _|]. apply (children_stable (fun c => fst (fst (fst c)))). Qed.
Lemma backed_tgood n : backed n → tgood n.
Proof. by intros [? _]. Qed.
Hint Resolve backed_tgood : tp.

Lemma wp_status sid (Q : TpLocalStatus → TpNode → Prop) n :
  tgood n → (∀ st m, tgood m → (running st = true → backed m) → Q st m) →
  wp (must (ChildStatus sid) StatusFailed) Q (fun _ => tgood) n.
Proof.
  intros Hn HQ. apply wp_must. intros r Hr.
  set (m := set_world _ n).
  assert (Hneutral : neutral n m) by (split_and!; [done..|by apply suffix_cons_r]).
  assert (Hm : tgood m) by by eapply stable. destruct r as [st|[]]; [|done].
  apply HQ; [done|]. intros Hrun. split; [done|]. unfold children. simpl.
  by eapply running_was_started.
Qed.

Lemma wp_backed_event k sid n :
  calm k = true → backed n → wp (tp_event k sid) (fun _ => backed) (fun _ => tgood) n.
Proof.
  intros Hk [Hn Hu]. wp_use (wp_calm_event k sid); [done|done| |done].
  intros _ n' (? & _ & Hc & _). split; [done|]. by rewrite Hc.
Qed.

Lemma backed_serves n t :
  backed n → tgood (set_world (tl_with_gate start_serving (tl_with_target t (world n))) n).
Proof.
  intros [[He Hs Hg] Hu]. split; [done|done|]. intros _. unfold children, calls_of in *.
  simpl in *. by rewrite Hu, orb_true_r.
Qed.

Lemma wp_become_ready sid n :
  backed n → wp (become_ready sid) (fun _ => backed) (fun _ => tgood) n.
Proof.
  intros Hn. apply wp_bind, wp_bind, wp_self, wp_ret. case_bool_decide; [by apply wp_ret|].
  do 3 (apply wp_bind; wp_use wp_backed_event; [done|done|intros _ ? ?|done]). by apply wp_ret.
Qed.

Lemma wp_handle_status r n :
  tgood n → wp (handle_status config r) (fun _ => tgood) (fun _ => tgood) n.
Proof.
  intros Hn. unfold handle_status. do 2 skip tgood. apply wp_bind. apply wp_status; [done|].
  intros st m Hm Hrun. apply wp_bind. case_bool_decide; [|by apply wp_ret, wp_ret].
  apply wp_bind, wp_require; [|done]. intros [Hr _]%andb_true_iff. specialize (Hrun Hr).
  apply wp_bind. wp_use wp_become_ready; [done| |done]. intros _ m2 Hm2.
  apply wp_bind, wp_local, wp_local, wp_ret. exact (backed_serves m2 _ Hm2).
Qed.

Lemma wp_handle_stop r n :
  tgood n → wp (handle_stop r) (fun _ => tgood) (fun _ => tgood) n.
Proof.
  intros Hn. unfold handle_stop. skip tgood. destruct (tl_session _); [|by apply wp_require].
  skip tgood. apply wp_bind. wp_use wp_fallback; [|by intros; apply wp_ret|done].
  by apply tg_exclusive.
Qed.

Lemma wp_handle_tp u r n :
  tgood n →
  wp (handle_tp path config deployment_id address u r) (fun _ => tgood) (fun _ => tgood) n.
Proof.
  intros Hn. unfold handle_tp. do 2 skip tgood. apply wp_bind.
  assert (Hlast : ∀ st m, tgood m → wp (renew_lease config;; j ← journal; a ← tp_address address;
    mret {| p_version := 1; p_deployment := q_deployment r; p_epoch := q_epoch r;
            p_session := if bool_decide (q_command r = TpCommand.Node) then tp_last_session j
                         else q_session r;
            p_operation := q_operation r; p_address := a; p_status := st |})
    (fun _ => tgood) (fun _ => tgood) m).
  { intros st m Hm. unfold tp_address. do 3 skip tgood. by apply wp_ret. }
  assert (Hneutral : wp handle_node (fun _ => tgood) (fun _ => tgood) n1).
  { apply wp_neutral; [auto with tp|..]; intros ? ? ?; by eapply stable. }
  destruct (q_command r).
  - wp_use Hneutral; [|done]. intros st m Hm. by apply Hlast.
  - apply wp_bind. wp_use wp_pair_local; [done| |done]. intros _ m Hm. by apply wp_ret, Hlast.
  - wp_use wp_prepare; [done| |done]. intros st m Hm. by apply Hlast.
  - wp_use wp_handle_status; [done| |done]. intros st m Hm. by apply Hlast.
  - wp_use wp_handle_status; [done| |done]. intros st m Hm. by apply Hlast.
  - apply wp_bind. wp_use wp_handle_stop; [done| |done]. intros _ m Hm. by apply wp_ret, Hlast.
Qed.


(** ** Promotion and reconcile *)

Lemma wp_warm_up s n :
  resting n →
  wp (warm_up config deployment_id address s) (fun _ => resting) (fun _ => tgood) n.
Proof.
  intros [Hn Hq]. unfold warm_up. generalize warmup_fuel as fuel. intros fuel.
  apply wp_bind, wp_self, wp_bind, wp_lift.
  destruct (try_acquire_recovery _ _) as [i|e] eqn:Hi; [|done]. simpl.
  assert (Hstate : Admission.state i = Admission.state (tl_gate (world n))).
  { unfold try_acquire_recovery, acquire_permit in Hi. repeat case_match; by simplify_eq. }
  apply wp_bind, wp_local, wp_bind. set (n1 := set_world _ n).
  assert (H1 : resting n1).
  { assert (Hq1 : quiet n1) by (unfold quiet, gate_of in *; simpl; by rewrite Hstate).
    split; [by apply (gate_only_tgood n)|done]. }
  apply wp_neutral; [neutral|intros r n2 H2|intros r n2 H2; by eapply resting_tgood, stable].
  assert (resting n2) as [Hg2 Hq2] by by eapply stable.
  apply wp_bind, wp_local. set (n3 := set_world _ n2).
  assert (Hq3 : quiet n3) by done.
  assert (H3 : tgood n3) by by apply (gate_only_tgood n2).
  apply wp_lift. by destruct r.
Qed.

Lemma wp_promote_effects u s n :
  tgood n →
  wp (promote_effects path config deployment_id address u s) (fun _ => tgood) (fun _ => tgood) n.
Proof.
  intros Hn. unfold promote_effects. apply wp_bind. wp_use wp_begin; [done| |done].
  intros _ m1 H1. do 3 skip cleared. apply wp_bind.
  wp_use (wp_calm_event ClusterEventKind.TensorParallelWorkerPrepared); [done|by apply Hn2| |done].
  intros _ m2 (H2 & Hg2 & Hc2 & _).
  assert (cleared m2) as Hcl.
  { destruct Hn2 as (_ & Hq & Hup). split_and!; [done|unfold quiet; by rewrite Hg2|].
    unfold children in Hc2. injection Hc2 as _ Hx _ _. by rewrite Hx. }
  clear H2 Hg2 Hc2. unfold tp_address. do 2 skip cleared. apply wp_bind, wp_must. intros r _.
  pose proof (cleared_start n4 (id s) a3 r Hn4) as Hstart. destruct r as [[]|[]]; [|by apply resting_tgood].
  apply wp_bind. wp_use (wp_resting_event ClusterEventKind.TensorParallelCoordinatorStarted);
    [done|exact Hstart| |done].
  intros _ m3 H3. do 2 skip resting. apply wp_bind.
  wp_use (wp_resting_event ClusterEventKind.TensorParallelHandshakeHttpReady); [done|done| |done].
  intros _ m4 H4. apply wp_bind. wp_use wp_warm_up; [done| |done]. intros _ m5 H5.
  skip resting. apply wp_bind, wp_status; [by apply resting_tgood|]. intros st m6 H6 Hrun.
  apply wp_bind, wp_require; [|done]. intros [[Hr _]%andb_true_iff _]%andb_true_iff.
  specialize (Hrun Hr). clear H6. do 4 skip backed. apply wp_bind.
  wp_use (wp_backed_event ClusterEventKind.TensorParallelWarmupDone); [done|done| |done].
  intros ready m7 H7. apply wp_bind, wp_local, wp_bind, wp_local, wp_ret.
  exact (backed_serves m7 _ H7).
Qed.

Lemma wp_promote_failed u s n :
  tgood n →
  wp (promote_failed path config deployment_id address u s) (fun _ => tgood) (fun _ => tgood) n.
Proof.
  intros Hn. unfold promote_failed. skip tgood. apply wp_bind, wp_block_gate. intros m1 Ho Hq.
  assert (H1 : tgood m1) by by eapply gate_only_tgood. do 2 skip tgood.
  apply wp_bind. wp_use wp_fallback; [by apply tg_exclusive| |done]. intros _ m2 H2.
  skip tgood. apply wp_neutral; [auto with tp|..]; intros ? ? ?; by eapply stable.
Qed.

Lemma wp_promote us n :
  tgood n →
  wp (tp_promote_owned path config deployment_id address us) (fun _ => tgood) (fun _ => tgood) n.
Proof.
  intros Hn. unfold tp_promote_owned. do 17 skip tgood. unfold promote_session.
  apply wp_bind, wp_attempt.
  assert (Hpersist : ∀ j m, tgood m → wp (set_journal j;; persist path (us 2%nat)) (fun _ => tgood)
    (fun _ => tgood) m).
  { intros j m Hm. skip tgood. apply wp_neutral; [auto with tp|..]; intros ? ? ?; by eapply stable. }
  wp_use wp_promote_effects; [done| |].
  - intros ready m Hm. apply wp_bind. skip tgood. wp_use Hpersist; [done| |done].
    intros _ m2 Hm2. by apply wp_lift.
  - intros e m Hm. apply wp_bind. wp_use wp_promote_failed; [done| |done].
    intros _ m2 Hm2. by apply wp_lift.
Qed.

Lemma wp_blocked_manual sid n :
  tgood n → quiet n →
  wp (tp_event ClusterEventKind.RequireManualIntervention sid;; snapshot) (fun _ => tgood) (fun _ => tgood) n.
Proof.
  intros Hn Hq. apply wp_bind, wp_manual. intros s Hs. apply wp_bind, wp_self, wp_ret.
  apply tgood_manual; [by apply tg_exclusive|done|done].
Qed.

Lemma wp_reconcile busy u n :
  tgood n →
  wp (tp_reconcile path config deployment_id address busy u) (fun _ => tgood) (fun _ => tgood) n.
Proof.
  intros Hn.
  assert (Hsnap : ∀ m, tgood m → wp snapshot (fun _ => tgood) (fun _ => tgood) m).
  { intros m Hm. apply wp_neutral; [auto with tp|..]; intros ? ? ?; by eapply stable. }
  assert (Hsession : ∀ ready m, tgood m → wp (reconcile_session path config deployment_id address u ready)
    (fun _ => tgood) (fun _ => tgood) m).
  { intros ready m Hm. unfold reconcile_session. do 3 skip tgood.
    destruct a1; [|by apply Hsnap]. apply wp_bind, wp_block_gate. intros m1 Ho Hq.
    assert (H1 : resting m1) by (split; [by eapply gate_only_tgood|done]). skip resting.
    destruct (auto_demote config); [|by apply wp_blocked_manual; apply Hn3].
    do 2 skip tgood. wp_use wp_fallback; [by apply tg_exclusive|done|done]. }
  unfold tp_reconcile. skip tgood. destruct busy; [by apply wp_ret|].
  destruct (state a); try (by apply wp_ret); try (by apply Hsession).
  unfold reconcile_paired. do 2 skip tgood. destruct a1; [by apply Hsnap|].
  apply wp_bind, wp_block_gate. intros m1 Ho Hq.
  assert (H1 : tgood m1) by by eapply gate_only_tgood.
  destruct (auto_demote config); [|by apply wp_blocked_manual].
  wp_use wp_fallback; [by apply tg_exclusive|done|done].
Qed.

(** ** The node *)

Inductive tp_op :=
| OpTpPair
| OpTpHandle (u : names) (r : TpRequest)
| OpTpPromote (us : nat → names)
| OpTpDemote
| OpTpReconcile (busy : bool) (u : names).

Definition tp_run_op (op : tp_op) (n : TpNode) : TpNode :=
  match op with
  | OpTpPair => snd (tp_pair config deployment_id address n)
  | OpTpHandle u r => snd (handle_tp path config deployment_id address u r n)
  | OpTpPromote us => snd (tp_promote_owned path config deployment_id address us n)
  | OpTpDemote => snd (tp_demote config deployment_id address n)
  | OpTpReconcile busy u => snd (tp_reconcile path config deployment_id address busy u n)
  end.

(** The node once its runtime has started the standalone. *)
Definition tp_spawned (n : TpNode) : Prop :=
  state (cluster_of n) = ClusterState.SoloStandaloneReady
  ∧ ∃ g, calls_of n = [TpCalled (StandaloneStart g) (Ok tt)].

(** Operations in any order; between two of them the policy, its journal and the
    budget may change, and so may everything but the state machine, the gate and the
    children. *)
Inductive tp_node_run (n0 : TpNode) : TpNode → Prop :=
| TpStart : tp_node_run n0 n0
| TpDo n op : tp_node_run n0 n → tp_node_run n0 (tp_run_op op n)
| TpElse n n' : tp_node_run n0 n → neutral n n' → tp_node_run n0 n'.

Lemma wp_result {A} (m : tp_method A) n :
  wp m (fun _ => tgood) (fun _ => tgood) n → tgood (snd (m n)).
Proof. unfold wp. by destruct (m n) as [[] ?]. Qed.

Lemma tp_run_good n0 n : tp_spawned n0 → tp_node_run n0 n → tgood n.
Proof.
  intros [Hst [g Hc]]. induction 1 as [|n op _ IH|n n' _ IH Hn]; [|..|by eapply tgood_neutral].
  - split; rewrite Hc; done.
  - destruct op; simpl; apply wp_result;
      [by apply wp_pair|by apply wp_handle_tp|by apply wp_promote|by apply wp_demote|by apply wp_reconcile].
Qed.

Lemma exclusive_not_both t : tp_exclusive t = true → sa_up t && tp_up t = false.
Proof.
  induction t as [|[A c r] t IH]; [done|]. simpl. intros [Hc Ht]%andb_true_iff. specialize (IH Ht).
  destruct c; try done; bool_to_prop; try (destruct (is_ok r); [|done]);
    rewrite ?Hc, ?andb_true_r, ?andb_false_r; done.
Qed.

End operations.

