(* ===== verification/TpPromotion.v ===== *)
(** * What a tensor-parallel promotion has done when it returns

    A promotion that succeeds has made every check in order and published the route
    of a complete session; one that fails has its attempt in the journal on disk, so
    that a crash cannot give it back, and an exhausted budget refuses the next. *)

From S2P Require Import Prelude Bytes Target Operation Tp Disk StateStore.
From S2P Require Import Admission ClusterFsm Promotion Runtime Production Policy.
From S2P Require Import TpRuntime TpNode.

(** ** What happened, in order *)

(** [happened ps l]: events that satisfy [ps], in that order, are in [l] (oldest
    first). *)
Fixpoint happened (ps : list (tp_called → bool)) (l : list tp_called) : bool :=
  match ps, l with
  | [], _ => true
  | _, [] => false
  | p :: ps', ev :: l => if p ev then happened ps' l else happened ps l
  end.

Lemma happened_nil l : happened [] l = true.
Proof. by destruct l. Qed.

Lemma happened_app ps l k : happened ps l = true → happened ps (l ++ k) = true.
Proof.
  revert ps. induction l as [|ev l IH]; intros [|p ps]; rewrite ?happened_nil; simpl; [done..|].
  destruct (p ev); apply IH.
Qed.

Lemma happened_snoc ps l p ev :
  happened ps l = true → p ev = true → happened (ps ++ [p]) (l ++ [ev]) = true.
Proof.
  revert ps. induction l as [|ev' l IH]; intros [|q ps]; simpl; intros Hl Hp; try done.
  - by rewrite Hp.
  - destruct (p ev'); [apply happened_nil|]. apply (IH []); [apply happened_nil|done].
  - destruct (q ev'); [by apply IH|]. by apply (IH (q :: ps)).
Qed.

Lemma happened_prefix ps qs l : happened (ps ++ qs) l = true → happened ps l = true.
Proof.
  revert ps. induction l as [|ev l IH]; intros [|p ps]; rewrite ?happened_nil; simpl; try done.
  destruct (p ev); [apply IH|apply (IH (p :: ps))].
Qed.

(** The calls made since the trace was [b]. *)
Definition occurred (b : tp_trace) (ps : list (tp_called → bool)) (n : TpNode) : Prop :=
  ∃ t, calls_of n = t ++ b ∧ happened ps (rev t) = true.

(** The steps of a promotion with session [s]. *)
Definition standalone_stopped (ev : tp_called) : bool :=
  match ev with TpCalled c r => match c with StandaloneStop => is_ok r | _ => false end end.
Definition child_started (s : Z) (ev : tp_called) : bool :=
  match ev with
  | TpCalled c r => match c with ChildStart s' _ => (s' =? s) && is_ok r | _ => false end
  end.
Definition child_status (s : Z) (P : TpLocalStatus → bool) (ev : tp_called) : bool :=
  match ev with
  | TpCalled c r =>
      match c in TpCall A return result A unit → bool with
      | ChildStatus s' => fun r => (s' =? s) && match r with Ok st => P st | Err _ => false end
      | _ => fun _ => false
      end r
  end.
Definition peer_status (s : Session) (k : TpCommand) (P : TpLocalStatus → bool) (ev : tp_called) : bool :=
  match ev with
  | TpCalled c r =>
      match c in TpCall A return result A unit → bool with
      | PeerTp q => fun r =>
          bool_decide (q_command q = k) && (q_session q =? id s) && (q_operation q =? operation s)
          && match r with Ok p => (p_session p =? id s) && P (p_status p) | Err _ => false end
      | _ => fun _ => false
      end r
  end.
Definition warmed_up (ev : tp_called) : bool :=
  match ev with
  | TpCalled c r =>
      match c in TpCall A return result A unit → bool with
      | Warmup => fun r => match r with Ok Finished => true | _ => false end
      | _ => fun _ => false
      end r
  end.

Definition full (st : TpLocalStatus) : bool := running st && connected st && http_ready st.
Definition linked (st : TpLocalStatus) : bool := running st && connected st.

Definition promotion_steps (s : Session) : list (tp_called → bool) :=
  [ standalone_stopped;
    peer_status s TpCommand.Prepare running;
    child_started (id s);
    child_status (id s) full;
    peer_status s TpCommand.Status linked;
    warmed_up;
    child_status (id s) full;
    peer_status s TpCommand.Ready linked ].

(** ** Steps that only watch *)

(** The state machine is as it was, and calls were only added. *)
Definition watch : relation TpNode := fun n n' =>
  cluster_of n' = cluster_of n ∧ calls_of n `suffix_of` calls_of n'.

Global Instance watch_preorder : PreOrder watch.
Proof.
  split; [done|]. intros n1 n2 n3 (? & ?) (? & ?). split; [congruence|]. by transitivity (calls_of n2).
Qed.

Lemma occurred_watch b ps n n' : watch n n' → occurred b ps n → occurred b ps n'.
Proof.
  intros [_ [k Hk]] (t & Ht & Hps). exists (k ++ t). rewrite Hk, Ht, rev_app_distr.
  split; [by rewrite (assoc_L (++))|by apply happened_app].
Qed.

Lemma occurred_nil b n : b `suffix_of` calls_of n → occurred b [] n.
Proof. intros [k Hk]. exists k. split; [done|apply happened_nil]. Qed.

Lemma neutral_watch n n' : neutral n n' → watch n n'.
Proof. by intros (? & _ & _ & ?). Qed.

Lemma occurred_call {A} b ps p (c : TpCall A) r n :
  occurred b ps n → p (TpCalled c r) = true →
  occurred b (ps ++ [p]) (set_world (tl_with_call (TpCalled c r) (world n)) n).
Proof.
  intros (t & Ht & Hps) Hp. exists (TpCalled c r :: t). simpl. unfold calls_of in *. simpl.
  rewrite Ht. split; [done|by apply happened_snoc].
Qed.

(** The session [s] at a state of the machine, its readiness, and what happened. *)
Record stage (b : tp_trace) (s : Session) (st : ClusterState) (rd : TpReadiness)
    (ps : list (tp_called → bool)) (n : TpNode) : Prop := {
  stage_state : state (cluster_of n) = st;
  stage_tp : tp (cluster_of n) = Some (mkTpSessionState (mkTpSessionId (id s)) rd);
  stage_calls : occurred b ps n }.

Lemma stage_watch b s st rd ps n n' : watch n n' → stage b s st rd ps n → stage b s st rd ps n'.
Proof.
  intros Hw [? ? ?]. split; [..|by eapply occurred_watch]; by rewrite (proj1 Hw).
Qed.

Lemma stage_prefix b s st rd ps qs n : stage b s st rd (ps ++ qs) n → stage b s st rd ps n.
Proof.
  intros [? ? (t & ? & ?)]. split; [done|done|]. exists t. split; [done|]. by eapply happened_prefix.
Qed.

Lemma stage_call {A} b s st rd ps p (c : TpCall A) r n :
  stage b s st rd ps n → p (TpCalled c r) = true →
  stage b s st rd (ps ++ [p]) (set_world (tl_with_call (TpCalled c r) (world n)) n).
Proof. intros [? ? ?] Hp. split; [done|done|]. by apply occurred_call. Qed.


(** The events of a session, from the states in which they advance it. *)
Definition advances (st : ClusterState) (k : ClusterEventKind) : option (ClusterState * TpReadinessEvent) :=
  match st, k with
  | ClusterState.TensorParallelStarting, ClusterEventKind.TensorParallelWorkerPrepared =>
      Some (ClusterState.AwaitingTensorParallelWorkerHello, TpReadinessEvent.WorkerPrepared)
  | ClusterState.AwaitingTensorParallelWorkerHello, ClusterEventKind.TensorParallelCoordinatorStarted =>
      Some (ClusterState.AwaitingTensorParallelWorkerHello, TpReadinessEvent.CoordinatorStarted)
  | ClusterState.AwaitingTensorParallelWorkerHello, ClusterEventKind.TensorParallelHandshakeHttpReady =>
      Some (ClusterState.AwaitingTensorParallelWorkerHello, TpReadinessEvent.HandshakeHttpReady)
  | _, _ => None
  end.

Lemma wp_advance b s st rd ps k st' e n (Q : ClusterSnapshot → TpNode → Prop) X :
  stage b s st rd ps n → advances st k = Some (st', e) →
  (∀ c n', stage b s st' (TpReadiness_with rd e) ps n' → Q c n') →
  wp (tp_event k (id s)) Q X n.
Proof.
  intros [Hst Htp Hps] Ha HQ. unfold wp, tp_event, machine_step.
  assert (Hk : tp_kind k = true) by (destruct st, k; simplify_eq/=; done).
  rewrite Hk, transition_unfold. unfold wrong_tp_session. simpl. unfold cluster_of in *.
  rewrite Z.eqb_refl, Htp. simpl. rewrite (bool_decide_true (Some _ = Some _)) by done.
  rewrite andb_false_r. unfold transition_table, transition_standalone_and_lp, transition_tp_and_generic.
  rewrite Hst. destruct st, k; simplify_eq/=; (apply HQ; split; [done| |done]);
    unfold cluster_of, transition_next, transition_tp; simpl; rewrite Htp; simpl;
    unfold apply_event; simpl; by rewrite bool_decide_true.
Qed.

Lemma wp_begin_event b s ps n (Q : ClusterSnapshot → TpNode → Prop) :
  occurred b ps n →
  (∀ c n', stage b s ClusterState.TensorParallelStarting TpReadiness_new ps n' → Q c n') →
  wp (tp_event ClusterEventKind.BeginTensorParallel (id s)) Q (fun _ _ => True) n.
Proof.
  intros Hps HQ. unfold wp, tp_event, machine_step. rewrite transition_unfold.
  unfold wrong_tp_session. simpl. rewrite Z.eqb_refl.
  unfold transition_table, transition_standalone_and_lp, transition_tp_and_generic. simpl.
  destruct (state (tl_cluster (world n))); simpl; try done; by apply HQ.
Qed.

(** With the first three flags up, the warm-up makes the session ready. *)
Lemma wp_warmup_event b s ps n (Q : ClusterSnapshot → TpNode → Prop) X :
  stage b s ClusterState.AwaitingTensorParallelWorkerHello (mkTpReadiness true true true false) ps n →
  (∀ c n', stage b s ClusterState.TensorParallelReady (mkTpReadiness true true true true) ps n' →
           cluster_of n' = c → Q c n') →
  wp (tp_event ClusterEventKind.TensorParallelWarmupDone (id s)) Q X n.
Proof.
  intros [Hst Htp Hps] HQ. unfold wp, tp_event, machine_step. rewrite transition_unfold.
  unfold wrong_tp_session, cluster_of in *. simpl. rewrite Z.eqb_refl, Htp. simpl.
  rewrite (bool_decide_true (Some _ = Some _)) by done. simpl.
  unfold transition_table, transition_standalone_and_lp, transition_tp_and_generic, tp_pre_warmup_complete.
  rewrite Hst, Htp. simpl. apply HQ; [|done]. split; [done| |done].
  unfold cluster_of, transition_next, transition_tp. simpl. rewrite Htp. simpl.
  unfold apply_event. simpl. by rewrite bool_decide_true.
Qed.

Section promotion.
Context `{env : TpEnvironment, StateCodec} (path : bytes).
Context (config : TpConfig) (deployment_id : bytes) (address : option IpAddr).

Lemma wp_watch {A} (m : tp_method A) (Q : A → TpNode → Prop) n :
  keeps neutral m → (∀ a n', watch n n' → Q a n') → wp m Q (fun _ _ => True) n.
Proof. intros Hm HQ. apply wp_neutral; [done|..]; [|done]. intros a n' Hn. by apply HQ, neutral_watch. Qed.

(** A neutral step inside a stage. *)
Lemma wp_stage {A B} b s st rd ps (m : tp_method A) (k : A → tp_method B) Q n :
  keeps neutral m → stage b s st rd ps n →
  (∀ a n', stage b s st rd ps n' → wp (k a) Q (fun _ _ => True) n') →
  wp (m ≫= k) Q (fun _ _ => True) n.
Proof.
  intros Hm Hs Hk. apply wp_bind, wp_watch; [done|]. intros a n' Hw. apply Hk. by eapply stage_watch.
Qed.

Lemma wp_request c s (Q : TpRequest → TpNode → Prop) n :
  (∀ q, q_command q = c → q_session q = id s → q_operation q = operation s → Q q n) →
  wp (tp_request deployment_id address c (Some s)) Q (fun _ _ => True) n.
Proof.
  intros HQ. unfold tp_request, tp_address. apply wp_bind, wp_ret, wp_bind, wp_lift.
  destruct address; [|done]. apply wp_ret. by apply HQ.
Qed.

Definition in_session (c : TpCommand) : bool :=
  match c with TpCommand.Node | TpCommand.Pair => false | _ => true end.

(** An answer the client accepted is of the session that was asked for. *)
Lemma check_reply_session q p :
  in_session (q_command q) = true → check_reply q p = Ok p → p_session p = q_session q.
Proof.
  unfold check_reply. intros Hc. case_match; [done|]. destruct (q_command q); try done;
    simpl; destruct (Z.eqb_spec (p_session p) (q_session q)); done.
Qed.

Lemma check_reply_same q p p' : check_reply q p = Ok p' → p' = p.
Proof. unfold check_reply. repeat case_match; naive_solver. Qed.

Lemma wp_peer_stage {B} b s st rd ps c P q (k : TpResponse → tp_method B) Q n :
  q_command q = c → q_session q = id s → q_operation q = operation s → in_session c = true →
  stage b s st rd ps n →
  (∀ p n', (P (p_status p) = true → stage b s st rd (ps ++ [peer_status s c P]) n') →
           stage b s st rd ps n' → wp (k p) Q (fun _ _ => True) n') →
  wp (tp_peer config q ≫= k) Q (fun _ _ => True) n.
Proof.
  intros Hc Hsid Hop Hin Hs Hk. unfold tp_peer. apply wp_bind, wp_bind, wp_must. intros [p|[]] _; [|done].
  apply wp_bind, wp_lift. destruct (check_reply q p) as [p'|e] eqn:Hp; [|done].
  pose proof (check_reply_same _ _ _ Hp) as ->.
  apply wp_bind, wp_watch; [apply keeps_renew_lease|]. intros [] n' Hw. apply wp_ret, Hk.
  - intros HP. eapply stage_watch; [exact Hw|]. apply stage_call; [done|]. simpl.
    apply check_reply_session in Hp; [|by rewrite Hc].
    rewrite bool_decide_true by done. by rewrite Hop, Hp, Hsid, !Z.eqb_refl, HP.
  - eapply stage_watch; [|exact Hs]. etransitivity; [|exact Hw]. split; [done|]. by apply suffix_cons_r.
Qed.

Lemma wp_status_stage {B} b s st rd ps P e (k : TpLocalStatus → tp_method B) Q n :
  stage b s st rd ps n →
  (∀ l n', stage b s st rd ps n' → (P l = true → stage b s st rd (ps ++ [child_status (id s) P]) n') →
           wp (k l) Q (fun _ _ => True) n') →
  wp (must (ChildStatus (id s)) e ≫= k) Q (fun _ _ => True) n.
Proof.
  intros Hs Hk. apply wp_bind, wp_must. intros [l|[]] _; [|done]. apply Hk.
  - eapply stage_watch; [|exact Hs]. split; [done|]. by apply suffix_cons_r.
  - intros HP. apply stage_call; [done|]. simpl. by rewrite Z.eqb_refl, HP.
Qed.

Lemma wp_handshake b s st rd ps fuel d n :
  stage b s st rd ps n →
  wp (handshake config deployment_id address fuel d s)
    (fun _ => stage b s st rd (ps ++ [child_status (id s) full; peer_status s TpCommand.Status linked]))
    (fun _ _ => True) n.
Proof.
  revert n. induction fuel as [|fuel IH]; intros n Hs; [done|]. simpl. apply wp_bind.
  unfold handshake_round. eapply wp_stage; [apply keeps_tp_policy_check|done|]. intros _ n1 H1.
  eapply (wp_status_stage b s st rd ps full); [done|]. intros l n2 H2 Hl.
  apply wp_bind, wp_request. intros q Hc Hsid Hop.
  assert (Hagain : ∀ n, stage b s st rd ps n → wp (now ← ask Millis 0;
    require (now <? d) HandshakeTimeout;; handshake config deployment_id address fuel d s)
    (fun _ => stage b s st rd (ps ++ [child_status (id s) full; peer_status s TpCommand.Status linked]))
    (fun _ _ => True) n).
  { intros m Hm. eapply wp_stage; [by apply keeps_ask|exact Hm|]. intros now m2 Hm2.
    apply wp_bind, wp_require; [|done]. intros _. by apply IH. }
  destruct (full l) eqn:Hfull.
  - eapply (wp_peer_stage b s st rd _ TpCommand.Status linked); [done..|by apply Hl|].
    intros p n3 Hp H3. apply wp_bind, wp_require; [|done]. intros [Hr Hr']%andb_true_iff. apply wp_ret.
    destruct (_ && _) eqn:Hdone; [|by apply Hagain, (stage_prefix _ _ _ _ _ _ _ H3)].
    apply wp_ret. rewrite <-(assoc_L (++)) in Hp. apply Hp. unfold linked.
    by apply andb_true_iff in Hdone as [_ ->]; rewrite Hr'.
  - eapply (wp_peer_stage b s st rd ps TpCommand.Status linked); [done..|].
    intros p n3 _ H3. apply wp_bind, wp_require; [|done]. intros [Hr Hr']%andb_true_iff. apply wp_ret.
    assert (connected l && http_ready l = false) as Hno.
    { unfold full in Hfull. rewrite Hr in Hfull. done. }
    rewrite Hno. simpl. by apply Hagain.
Qed.

Lemma wp_warmup_stage b s st rd ps fuel n :
  stage b s st rd ps n →
  wp (warmup_loop config deployment_id address fuel s) (fun _ => stage b s st rd (ps ++ [warmed_up]))
    (fun _ _ => True) n.
Proof.
  revert n. induction fuel as [|fuel IH]; intros n Hs; [done|]. simpl.
  apply wp_bind, wp_must. intros [[]|[]] _; try done.
  - apply wp_ret. by apply stage_call.
  - assert (H1 : stage b s st rd ps (set_world (tl_with_call (TpCalled Warmup (Ok StillRunning)) (world n)) n)).
    { eapply stage_watch; [|exact Hs]. split; [done|]. by apply suffix_cons_r. }
    eapply wp_stage; [apply keeps_tp_policy_check|exact H1|]. intros _ n2 H2.
    eapply wp_stage; [apply keeps_tp_request|exact H2|]. intros q n3 H3.
    eapply wp_stage; [apply keeps_tp_peer|exact H3|]. intros p n4 H4.
    apply wp_bind, wp_require; [|done]. intros _. by apply IH.
Qed.

Lemma wp_warm_up_stage b s st rd ps n :
  stage b s st rd ps n →
  wp (warm_up config deployment_id address s) (fun _ => stage b s st rd (ps ++ [warmed_up]))
    (fun _ _ => True) n.
Proof.
  intros Hs. unfold warm_up. generalize warmup_fuel as fuel. intros fuel.
  apply wp_bind, wp_self, wp_bind, wp_lift. destruct (try_acquire_recovery _ _) as [i|e]; [|done].
  apply wp_bind, wp_local, wp_bind, wp_attempt.
  assert (Hgate : ∀ f ps n, stage b s st rd ps n → stage b s st rd ps (set_world (tl_with_gate f (world n)) n)).
  { intros f qs m Hm. eapply stage_watch; [|exact Hm]. by split. }
  wp_use wp_warmup_stage; [by apply Hgate| |]; intros ? n1 H1; apply wp_bind, wp_local, wp_lift; [|done].
  by apply Hgate.
Qed.

(** A session that has begun. *)
Lemma wp_begin_stage b u s n :
  b `suffix_of` calls_of n →
  wp (tp_begin path config u s)
    (fun _ => stage b s ClusterState.TensorParallelStarting TpReadiness_new [standalone_stopped])
    (fun _ _ => True) n.
Proof.
  intros Hb. unfold tp_begin.
  assert (Hstep : ∀ {A B} (m : tp_method A) (k : A → tp_method B) Q n,
    b `suffix_of` calls_of n → keeps neutral m →
    (∀ a n', b `suffix_of` calls_of n' → wp (k a) Q (fun _ _ => True) n') →
    wp (m ≫= k) Q (fun _ _ => True) n).
  { intros A B m k Q n' Hn' Hm Hk. apply wp_bind, wp_watch; [done|]. intros a n2 [_ Hw].
    apply Hk. by transitivity (calls_of n'). }
  apply Hstep; [done|apply keeps_tp_policy_check|]. intros _ n1 H1.
  apply Hstep; [done|apply keeps_snapshot|]. intros c n2 H2.
  apply wp_bind. wp_use wp_drain_gate; [|done]. intros _ n3 [(_ & _ & Hw) _].
  assert (H3 : b `suffix_of` calls_of n3) by by transitivity (calls_of n2).
  do 5 (apply Hstep; [done|first [apply keeps_route|apply keeps_journal|apply keeps_set_journal
    |apply keeps_persist|by apply keeps_local]|intros ? ? ?]).
  apply Hstep; [done|apply keeps_set_deadline|]. intros _ n4 Hs4.
  apply wp_bind, (wp_begin_event b s []); [by apply occurred_nil|]. intros _ n5 Hs5.
  apply wp_must. intros [[]|[]] _; [|done]. by apply (stage_call _ _ _ _ [] standalone_stopped).
Qed.

Lemma wp_promote_stage b u s n :
  b `suffix_of` calls_of n →
  wp (promote_effects path config deployment_id address u s)
    (fun c n' => stage b s ClusterState.TensorParallelReady (mkTpReadiness true true true true)
                   (promotion_steps s) n'
                 ∧ cluster_of n' = c ∧ tl_target (world n') = (target c, true))
    (fun _ _ => True) n.
Proof.
  intros Hb. unfold promote_effects. apply wp_bind. wp_use (wp_begin_stage b); [done| |done]. intros _ n1 H1.
  apply wp_bind, wp_request. intros q Hc Hsid Hop.
  eapply (wp_peer_stage b s _ _ _ TpCommand.Prepare running); [done..|]. intros p n2 Hp _.
  apply wp_bind, wp_require; [|done]. intros Hr. specialize (Hp Hr). apply wp_bind.
  eapply (wp_advance b s); [exact Hp|done|]. intros _ n3 H3.
  eapply wp_stage; [apply keeps_tp_policy_check|exact H3|]. intros _ n4 H4.
  unfold tp_address. apply wp_bind, wp_lift. destruct (ok_or address _) as [a|]; [|done].
  apply wp_bind, wp_must. intros [[]|[]] _; [|done].
  assert (H5 : stage b s ClusterState.AwaitingTensorParallelWorkerHello
    (mkTpReadiness true false false false)
    ([standalone_stopped; peer_status s TpCommand.Prepare running] ++ [child_started (id s)])
    (set_world (tl_with_call (TpCalled (ChildStart (id s) a) (Ok tt)) (world n4)) n4)).
  { apply stage_call; [exact H4|]. simpl. by rewrite Z.eqb_refl. }
  apply wp_bind. eapply (wp_advance b s); [exact H5|done|]. intros _ n6 H6.
  eapply wp_stage; [by apply keeps_ask|exact H6|]. intros now n7 H7.
  apply wp_bind. wp_use wp_handshake; [exact H7| |done]. intros _ n8 H8.
  apply wp_bind. eapply (wp_advance b s); [exact H8|done|]. intros _ n9 H9.
  apply wp_bind. wp_use wp_warm_up_stage; [exact H9| |done]. intros _ n10 H10.
  eapply wp_stage; [apply keeps_tp_policy_check|exact H10|]. intros _ n11 H11.
  eapply (wp_status_stage b s _ _ _ full); [exact H11|]. intros l n12 _ Hl.
  apply wp_bind, wp_require; [|done]. intros Hfull. specialize (Hl Hfull).
  apply wp_bind, wp_request. intros q2 Hc2 Hsid2 Hop2.
  eapply (wp_peer_stage b s _ _ _ TpCommand.Ready linked); [done..|]. intros p2 n13 Hp2 _.
  apply wp_bind, wp_require; [|done]. intros Hr2. specialize (Hp2 Hr2).
  eapply wp_stage; [apply keeps_tp_policy_check|exact Hp2|]. intros _ n14 H14.
  apply wp_bind. eapply (wp_warmup_event b s); [exact H14|]. intros c n15 H15 Hcl.
  apply wp_bind, wp_local, wp_bind, wp_local, wp_ret. split_and!; [|done|done].
  eapply stage_watch; [|exact H15]. by split.
Qed.

(** ** Steps that leave the journal alone *)

Definition same_budget : relation TpNode := fun n n' =>
  tp_budget n' = tp_budget n ∧ policy_store n' = policy_store n.
Global Instance same_budget_preorder : PreOrder same_budget.
Proof. split; [done|]. intros ??? [??] [??]. unfold same_budget. split; congruence. Qed.

Lemma budget_invoke {A} (c : TpCall A) : keeps same_budget (invoke c).
Proof. by intros n. Qed.
Lemma budget_local f : keeps same_budget (local f).
Proof. by intros n. Qed.
Lemma budget_event k s : keeps same_budget (tp_event k s).
Proof. intros n. unfold tp_event. by case_match. Qed.
Hint Resolve budget_invoke budget_local budget_event keeps_attempt keeps_ret keeps_fail keeps_self
  keeps_require keeps_lift : budget.

Ltac budget :=
  repeat first
    [ eapply keeps_bind; [apply same_budget_preorder| |intros ?]
    | solve [auto with budget typeclass_instances]
    | apply keeps_attempt
    | case_match ].

Lemma budget_snapshot : keeps same_budget snapshot.
Proof. unfold snapshot. budget. Qed.
Lemma budget_must {A} (c : TpCall A) e : keeps same_budget (must c e).
Proof. unfold must. budget. Qed.
Lemma budget_ask {A} (c : TpCall A) d : keeps same_budget (ask c d).
Proof. unfold ask. budget. Qed.
Lemma budget_journal : keeps same_budget journal.
Proof. unfold journal. budget. Qed.
Hint Resolve budget_snapshot budget_must budget_ask budget_journal : budget.

Lemma budget_policy_check e : keeps same_budget (tp_policy_check e).
Proof. unfold tp_policy_check. budget. Qed.
Lemma budget_require_role r : keeps same_budget (require_role r).
Proof. unfold require_role. budget. Qed.
Lemma budget_request k s : keeps same_budget (tp_request deployment_id address k s).
Proof. unfold tp_request, tp_address. budget. Qed.
Lemma budget_peer q : keeps same_budget (tp_peer config q).
Proof. unfold tp_peer, renew_lease. budget. Qed.
Lemma budget_wait_for_zero : keeps same_budget wait_for_zero.
Proof. unfold wait_for_zero. budget. Qed.
Hint Resolve budget_policy_check budget_require_role budget_request budget_peer budget_wait_for_zero : budget.

Lemma budget_set_deadline : keeps same_budget (set_deadline config).
Proof. unfold set_deadline. budget. Qed.
Lemma budget_drain g : keeps same_budget (drain_gate g).
Proof. unfold drain_gate. budget. Qed.
Lemma budget_fallback : keeps same_budget tp_fallback_locked.
Proof.
  unfold tp_fallback_locked, tp_fallback_effects, leave_tp, stop_tp_child, start_standalone,
    block_gate, route, serve. budget.
Qed.
Lemma budget_handshake fuel d s : keeps same_budget (handshake config deployment_id address fuel d s).
Proof. induction fuel as [|fuel IH]; simpl; unfold handshake_round; budget. Qed.
Lemma budget_warmup fuel s : keeps same_budget (warmup_loop config deployment_id address fuel s).
Proof. induction fuel as [|fuel IH]; simpl; budget. Qed.
Lemma budget_warm_up s : keeps same_budget (warm_up config deployment_id address s).
Proof.
  unfold warm_up. generalize warmup_fuel as fuel. intros fuel.
  pose proof (budget_warmup fuel s). budget.
Qed.

(** ** Steps that leave the machine alone *)

Definition same_world : relation TpNode := fun n n' => world n' = world n.
Global Instance same_world_preorder : PreOrder same_world.
Proof. split; [done|]. intros ??? H1 H2. unfold same_world in *. congruence. Qed.

Lemma keeps_world_with_store {A} (m : store_method A) : keeps same_world (with_store (W := TpLocal) m).
Proof.
  intros n. unfold with_store. destruct (policy_store n) as [st|]; [|done]. by destruct (m st).
Qed.

Lemma keeps_world_persist u : keeps same_world (persist path u).
Proof.
  intros n. unfold persist, map_error, persist_tp_journal. unfold_method. unfold self.
  destruct (tp_budget n) as [b|]; [|done].
  pose proof (keeps_world_with_store (loaded ← load path u.1 u.2; save path (with_tp (tp_journal b)
    (default (default_for_tp (H := tp_modes) n) loaded))) n) as Hk. unfold mbind, method_bind in *.
  destruct (with_store _ n) as [r n']. exact Hk.
Qed.

Lemma wp_settle_world u j n (Q : unit → TpNode → Prop) :
  (∀ n', world n' = world n → Q tt n') →
  wp (set_journal j;; persist path u) Q (fun _ _ => True) n.
Proof.
  intros HQ. apply wp_bind, wp_modify. unfold wp.
  pose proof (keeps_world_persist u (set_tp_budget (Some {| tp_journal := j; retry_after :=
    match tp_budget n with Some b => retry_after b | None => 0 end |}) n)) as Hk.
  destruct (persist path u _) as [[[]|e] n']; [|done]. by apply HQ.
Qed.

(** Before the attempt is reserved: nothing but observations. *)
Lemma wp_early {A B} (m : tp_method A) (k : A → tp_method B) j b Q n :
  keeps neutral m → keeps same_budget m → journal_of n = j → b `suffix_of` calls_of n →
  (∀ a n', journal_of n' = j → b `suffix_of` calls_of n' → wp (k a) Q (fun _ _ => True) n') →
  wp (m ≫= k) Q (fun _ _ => True) n.
Proof.
  intros Hm Hm' Hj Hb Hk. apply wp_bind. specialize (Hm n). specialize (Hm' n). unfold wp.
  destruct (m n) as [[a|e] n']; [|done]. apply Hk.
  - unfold journal_of in *. destruct Hm' as [Hm' _]. simpl in Hm'. by rewrite Hm'.
  - destruct Hm as (_ & _ & _ & Hs). by transitivity (calls_of n).
Qed.

Lemma wp_promote_session_stage b us s n :
  b `suffix_of` calls_of n →
  wp (promote_session path config deployment_id address us s)
    (fun c n' => stage b s ClusterState.TensorParallelReady (mkTpReadiness true true true true)
                   (promotion_steps s) n'
                 ∧ cluster_of n' = c ∧ tl_target (world n') = (target c, true)) (fun _ _ => True) n.
Proof.
  intros Hb. unfold promote_session. apply wp_bind, wp_attempt.
  wp_use (wp_promote_stage b); [done| |].
  - intros c n1 (Hs & Hc & Ht). apply wp_bind, wp_bind, wp_bind, wp_self, wp_ret, wp_settle_world.
    intros n2 Hw. apply wp_lift. split_and!; [|by unfold cluster_of; rewrite Hw|by rewrite Hw].
    eapply stage_watch; [|exact Hs]. unfold watch, cluster_of, calls_of. by rewrite Hw.
  - intros e n1 _. apply wp_bind. unfold wp. by destruct (promote_failed _ _ _ _ _ _ _) as [[] ?].
Qed.

Ltac early := eapply wp_early; [first [apply keeps_require_role|apply keeps_self; apply _
      |apply keeps_tp_policy_check|apply keeps_require; apply _|apply keeps_snapshot|by apply keeps_ask
      |apply keeps_tp_request|apply keeps_tp_peer|by apply keeps_must]
    |auto with budget typeclass_instances|eassumption|eassumption|intros ? ? ? ?].

Lemma wp_promote_owned_stage us n :
  wp (tp_promote_owned path config deployment_id address us) (fun c n' =>
    ∃ s peer_session,
      id s = Z.max (tp_last_session (journal_of n)) peer_session + 1
      ∧ stage (calls_of n) s ClusterState.TensorParallelReady (mkTpReadiness true true true true)
          (promotion_steps s) n'
      ∧ cluster_of n' = c ∧ tl_target (world n') = (target c, true)) (fun _ _ => True) n.
Proof.
  unfold tp_promote_owned. remember (journal_of n) as j eqn:Hj. remember (calls_of n) as b eqn:Hb.
  assert (Hsuf : b `suffix_of` calls_of n) by by rewrite Hb. clear Hb. symmetry in Hj.
  do 6 early. apply wp_bind, wp_bind, wp_self, wp_ret. do 8 early.
  apply wp_bind, wp_watch; [apply keeps_set_journal|]. intros _ n1 [_ Hw1].
  apply wp_bind, wp_watch; [apply keeps_persist|]. intros _ n2 [_ Hw2].
  set (s := mkSession _ _ _). wp_use (wp_promote_session_stage b us s).
  - etransitivity; [|exact Hw2]. by etransitivity.
  - intros c n3 Hs. exists s, (p_session a9). split; [|exact Hs]. simpl. congruence.
  - done.
Qed.

End promotion.


(** ** The budget *)

Section budget.
Context `{env : TpEnvironment, StateCodec, !StateCodecLaws} (path : bytes).
Context (config : TpConfig) (deployment_id : bytes) (address : option IpAddr).

(** A stored state whose journal has [f] failed attempts of the deployment [i]. *)
Definition attempts_saved (f : Z) (i : bytes) (o : option PersistentClusterState) : Prop :=
  ∃ s j, o = Some s ∧ ps_tp s = Some j ∧ tp_failed_attempts j = f ∧ tp_identity j = i.

(** The attempts are those in memory, and on disk, whatever crashes. *)
Record reserved (f : Z) (i : bytes) (n : TpNode) : Prop := {
  res_budget : is_Some (tp_budget n);
  res_failed : tp_failed_attempts (journal_of n) = f;
  res_identity : tp_identity (journal_of n) = i;
  res_disk : journals path (attempts_saved f i) n }.

Lemma reserved_same f i n n' : same_budget n n' → reserved f i n → reserved f i n'.
Proof.
  intros [Hb Hs] [? ? ? Hd]. unfold journal_of in *. split; unfold journal_of; rewrite ?Hb; [done..|].
  intros st. rewrite Hs. apply Hd.
Qed.

(** Writing the journal: what is on disk is what it was or the journal in memory. *)
Lemma wp_persist_any Q f i u n :
  is_Some (tp_budget n) → tp_failed_attempts (journal_of n) = f → tp_identity (journal_of n) = i →
  journals path Q n →
  wp (persist path u) (fun _ => reserved f i)
    (fun _ n' => neutral n n' ∧ journals path (fun o => Q o ∨ attempts_saved f i o) n') n.
Proof.
  intros [b Hb] Hf Hi Hj. unfold persist. apply wp_map_error. unfold persist_tp_journal.
  apply wp_bind, wp_self. rewrite Hb.
  assert (Hjn : journal_of n = tp_journal b) by (unfold journal_of; by rewrite Hb).
  assert (Hset : ∀ s, only_journal path (attempts_saved f i) n (set_policy_store s n) →
    reserved f i (set_policy_store s n)).
  { intros s [_ Hd]. split; [by eexists|done..]. }
  eapply wp_mono; [apply (wp_with_store path Q (attempts_saved f i)
    (fun o => Q o ∨ attempts_saved f i o)); [done|]| |].
  - intros st Hst. apply wp_bind. wp_use (wp_load path Q); [exact Hst| |].
    2: { intros e st1. apply records_mono. auto. }
    intros o st1 (Hst1 & o' & Ho & ->). wp_use (wp_save_stored path Q); [exact Hst1| |].
    + intros _ st2. apply stored_records. rewrite Hjn in *. by eexists _, _.
    + intros e st2. apply records_mono. intros o2 [?| ->]; [by left|right].
      rewrite Hjn in *. by eexists _, _.
  - intros _ n' [(s & ->) Hd]. apply Hset. by split; [eexists|].
  - intros e n' [(s & ->) Hd]. split; [by split_and!|done].
Qed.

Lemma wp_persist_reserved f i u n :
  reserved f i n → wp (persist path u) (fun _ => reserved f i) (fun _ => reserved f i) n.
Proof.
  intros [[b Hb] Hf Hi Hd]. pose proof (keeps_world_persist path u n) as Hw.
  pose proof (wp_persist_any (attempts_saved f i) f i u n (mk_is_Some _ _ Hb) Hf Hi Hd) as Hwp.
  assert (Hbud : tp_budget (snd (persist path u n)) = tp_budget n).
  { unfold persist, map_error, persist_tp_journal. unfold_method. unfold self, with_store. rewrite Hb.
    destruct (policy_store n); [|done]. by repeat case_match; simplify_eq/=. }
  unfold wp in *. destruct (persist path u n) as [[[]|e] n']; [done|]. destruct Hwp as [_ Hj].
  simpl in *. split; unfold journal_of in *; rewrite ?Hbud; [by eexists|done..|].
  intros st Hst. eapply records_mono; [|by apply Hj]. tauto.
Qed.

Lemma reserved_journal f i j n :
  reserved f i n → tp_failed_attempts j = f → tp_identity j = i →
  wp (set_journal j) (fun _ => reserved f i) (fun _ => reserved f i) n.
Proof. intros [? ? ? ?] Hf Hi. apply wp_modify. split; [by eexists|done..]. Qed.

Lemma wp_reserved {A B} f i (m : tp_method A) (k : A → tp_method B) Q n :
  keeps same_budget m → reserved f i n →
  (∀ a n', reserved f i n' → wp (k a) Q (fun _ => reserved f i) n') →
  wp (m ≫= k) Q (fun _ => reserved f i) n.
Proof.
  intros Hm Hn Hk. apply wp_bind. specialize (Hm n). unfold wp.
  destruct (m n) as [[a|e] n']; [apply Hk|]; by eapply reserved_same.
Qed.

Hint Resolve budget_invoke budget_local budget_event keeps_attempt keeps_ret keeps_fail keeps_self
  keeps_require keeps_lift budget_snapshot budget_must budget_ask budget_journal budget_policy_check
  budget_require_role budget_request budget_peer budget_wait_for_zero budget_drain budget_fallback
  budget_handshake budget_warm_up budget_set_deadline : budget.

Ltac rstep :=
  eapply wp_reserved; [solve [auto with budget typeclass_instances]|eassumption|
    let a := fresh "a" in let n := fresh "n" in let Hn := fresh "Hn" in intros a n Hn; cbv beta].

Lemma wp_last {A} f i (m : tp_method A) n :
  keeps same_budget m → reserved f i n → wp m (fun _ => reserved f i) (fun _ => reserved f i) n.
Proof.
  intros Hm Hn. specialize (Hm n). unfold wp. destruct (m n) as [[] n']; by eapply reserved_same.
Qed.

Lemma reserved_begin f i u s n :
  reserved f i n →
  wp (tp_begin path config u s) (fun _ => reserved f i) (fun _ => reserved f i) n.
Proof.
  intros Hn. unfold tp_begin. do 3 rstep. unfold route. rstep.
  apply wp_bind, wp_bind, wp_self, wp_ret, wp_bind.
  wp_use (reserved_journal f i); [done|apply Hn3|apply Hn3| |done]. intros _ m Hm.
  apply wp_bind. wp_use wp_persist_reserved; [done| |done]. intros _ m2 Hm2.
  do 3 rstep. apply wp_last; [auto with budget|done].
Qed.

Lemma reserved_effects f i u s n :
  reserved f i n →
  wp (promote_effects path config deployment_id address u s) (fun _ => reserved f i)
    (fun _ => reserved f i) n.
Proof.
  intros Hn. unfold promote_effects, tp_address. apply wp_bind. wp_use reserved_begin; [done| |done].
  intros _ m Hm. do 20 rstep. unfold route, serve. do 2 rstep. by apply wp_ret.
Qed.

Lemma reserved_failed f i u s n :
  reserved f i n →
  wp (promote_failed path config deployment_id address u s) (fun _ => reserved f i)
    (fun _ => reserved f i) n.
Proof.
  intros Hn. unfold promote_failed, tp_note_failure, block_gate. apply wp_bind, wp_bind, wp_bind, wp_self, wp_ret.
  assert (Hnote : wp (if tp_last_failed_session (journal_of n) <? id s
    then set_journal {| tp_identity := tp_identity (journal_of n);
      tp_last_session := tp_last_session (journal_of n);
      tp_failed_attempts := tp_failed_attempts (journal_of n);
      tp_last_failed_session := id s |} else mret tt) (fun _ => reserved f i) (fun _ => reserved f i) n).
  { case_match; [|by apply wp_ret]. apply reserved_journal; [done|apply Hn|apply Hn]. }
  apply wp_bind. wp_use Hnote; [|done]. intros _ m Hm. wp_use wp_persist_reserved; [done| |done].
  intros _ m2 Hm2. do 5 rstep. unfold set_retry_after. apply wp_bind, wp_bind, wp_self, wp_ret, wp_modify.
  destruct Hn4. by split; [eexists|..].
Qed.

(** Where a promotion leaves the budget. *)
Definition on_disk_after (f : Z) (i : bytes) (n : TpNode) : Prop :=
  ∀ st d' u1 u2, policy_store n = Some st → crash (disk st) d' →
    ∃ s, fst (load path u1 u2 (reboot d')) = Ok (Some s)
      ∧ tp_failed_attempts (restore_tp_state i (Some s)) = f.

Lemma saved_after f i n : journals path (attempts_saved f i) n → on_disk_after f i n.
Proof.
  intros Hn st d' u1 u2 Hst Hcrash.
  destruct (crash_holds path _ _ _ _ (Hn st Hst) Hcrash) as (o & (s & j & -> & Hj & Hf & Hi) & Hc).
  exists (raise_session s). split; [by apply (load_after_reboot path (Some s))|].
  unfold restore_tp_state. simpl. rewrite Hj. simpl. by rewrite bool_decide_true.
Qed.

Lemma wp_session_budget us s f i n :
  0 ≤ f → reserved (f + 1) i n →
  wp (promote_session path config deployment_id address us s)
    (fun _ => reserved f i)
    (fun _ n' => journals path (attempts_saved (f + 1) i) n'
       ∨ (state (cluster_of n') = ClusterState.TensorParallelReady
          ∧ journals path (fun o => attempts_saved (f + 1) i o ∨ attempts_saved f i o) n')) n.
Proof.
  intros Hf Hn. unfold promote_session. apply wp_bind, wp_attempt.
  pose proof (reserved_effects (f + 1) i (us 1%nat) s n Hn) as Hr.
  pose proof (wp_promote_stage path config deployment_id address (calls_of n) (us 1%nat) s n
    (reflexivity _)) as Hs.
  unfold wp in Hr, Hs. unfold wp at 1.
  destruct (promote_effects path config deployment_id address (us 1%nat) s n) as [[c|e] m].
  - destruct Hs as ([Hst _ _] & _ & _). apply wp_bind, wp_bind, wp_bind, wp_self, wp_ret, wp_bind, wp_modify.
    set (m1 := set_tp_budget _ m).
    assert (Hf1 : tp_failed_attempts (journal_of m1) = f).
    { unfold journal_of. simpl. rewrite (res_failed _ _ _ Hr). unfold sat_sub. lia. }
    wp_use (wp_persist_any (attempts_saved (f + 1) i) f i); [by eexists|done|by destruct Hr|apply Hr| |].
    + intros _ m2 Hm2. by apply wp_lift.
    + intros e m2 [(Hc & _) Hj]. right. split; [|done]. by rewrite Hc.
  - apply wp_bind. wp_use reserved_failed; [exact Hr| |].
    + intros _ m2 Hm2. apply wp_lift. left. apply Hm2.
    + intros e' m2 Hm2. left. apply Hm2.
Qed.

(** Until the attempt is reserved nothing happens. *)
Record unreserved (n0 : TpNode) (f : Z) (i : bytes) (n : TpNode) : Prop := {
  un_neutral : neutral n0 n;
  un_failed : tp_failed_attempts (journal_of n) = f;
  un_identity : tp_identity (journal_of n) = i;
  un_disk : journals path (fun _ => True) n }.

Lemma wp_unreserved {A B} n0 f i (m : tp_method A) (k : A → tp_method B) Q (X : TpNode → Prop) n :
  keeps neutral m → keeps same_budget m → unreserved n0 f i n → (∀ n', neutral n0 n' → X n') →
  (∀ a n', unreserved n0 f i n' → wp (k a) Q (fun _ => X) n') →
  wp (m ≫= k) Q (fun _ => X) n.
Proof.
  intros Hm Hm' [Hn Hf Hi Hj] HX Hk. apply wp_bind. specialize (Hm n). specialize (Hm' n). unfold wp.
  destruct (m n) as [[a|e] n']; simpl in *; [|apply HX; by transitivity n].
  apply Hk. destruct Hm' as [Hb Hs]. unfold journal_of, journals in *.
  split; unfold journal_of, journals; rewrite ?Hb, ?Hs; [by transitivity n|done..].
Qed.

Ltac ustep := eapply wp_unreserved; [first [apply keeps_require_role|apply keeps_self; apply _
      |apply keeps_tp_policy_check|apply keeps_require; apply _|apply keeps_snapshot|by apply keeps_ask
      |apply keeps_tp_request|apply keeps_tp_peer|by apply keeps_must]
    |solve [auto with budget typeclass_instances]|eassumption|by left|
    let a := fresh "a" in let n := fresh "n" in let Hn := fresh "Hn" in intros a n Hn; cbv beta].

Definition promotion_failed (n0 : TpNode) (f : Z) (i : bytes) (n : TpNode) : Prop :=
  neutral n0 n
  ∨ f < 3 ∧ (journals path (attempts_saved (f + 1) i) n
             ∨ (state (cluster_of n) = ClusterState.TensorParallelReady
                ∧ journals path (fun o => attempts_saved (f + 1) i o ∨ attempts_saved f i o) n)).

Lemma wp_promote_budget us f i n :
  0 ≤ f → unreserved n f i n →
  wp (tp_promote_owned path config deployment_id address us)
    (fun _ n' => f < 3 ∧ reserved f i n') (fun _ => promotion_failed n f i) n.
Proof.
  intros Hf0 Hn. unfold tp_promote_owned. do 6 ustep.
  apply wp_bind, wp_bind, wp_self, wp_ret. pose proof (un_failed _ _ _ _ Hn5) as Hf. rewrite Hf.
  apply wp_bind, wp_require; [|left; apply Hn5]. intros Hlt. bool_to_prop.
  do 7 ustep. apply wp_bind, wp_modify. set (m := set_tp_budget _ n12).
  assert (Hm : unreserved n (f + 1) i m).
  { destruct Hn12. split; [|done|by destruct Hn5|done]. by transitivity n12. }
  apply wp_bind. wp_use (wp_persist_any (fun _ => True) (f + 1) i); [by eexists|apply Hm..| |].
  - intros _ m2 Hm2. wp_use wp_session_budget; [done|exact Hm2| |].
    + intros c m3 Hm3. done.
    + intros e m3 Hm3. by right.
  - intros e m2 [Hw _]. left. transitivity m; [apply Hm|done].
Qed.

End budget.

(** A promotion to tensor parallelism is counted before it does anything: unless it
    was refused with children, gate and state machine untouched, a failed promotion
    leaves one attempt more in the journal, which every crash and restart of the same
    deployment finds there (or, when only the final write of the journal failed, the
    node is ready); a successful one leaves the count as it was; with three counted,
    promotion is refused untouched. *)
Lemma tp_attempt_reserved `{env : TpEnvironment, StateCodec, !StateCodecLaws} path config
    deployment_id address us n :
  0 ≤ tp_failed_attempts (journal_of n) → journals path (fun _ => True) n →
  let f := tp_failed_attempts (journal_of n) in
  let i := tp_identity (journal_of n) in
  let '(r, n') := tp_promote_owned path config deployment_id address us n in
  (3 ≤ f → is_ok r = false ∧ neutral n n')
  ∧ match r with
    | Ok _ => on_disk_after path f i n'
    | Err _ => neutral n n' ∨ on_disk_after path (f + 1) i n'
        ∨ state (cluster_of n') = ClusterState.TensorParallelReady
    end.
Proof.
  intros Hf Hj f i.
  assert (Hu : unreserved path n f i n) by by split.
  pose proof (wp_promote_budget path config deployment_id address us f i n Hf Hu) as Hwp.
  unfold wp in Hwp. destruct (tp_promote_owned path config deployment_id address us n) as [[c|e] n'].
  - destruct Hwp as [Hlt [_ _ _ Hd]]. split; [lia|]. by apply saved_after.
  - destruct Hwp as [Hw|[Hlt Hd]]; [split; [done|by left]|]. split; [lia|right].
    destruct Hd as [Hd|[Hd _]]; [left; by apply saved_after|by right].
Qed.

(** ** Runs *)

Module DemoTp.
Import DemoStore.

Definition all_up : TpLocalStatus := mkStatus true true true.

(** Everything succeeds, but the tensor-parallel child may refuse to start. *)
Definition answers (child_starts : bool) : TpEnvironment := fun A t c =>
  match c in TpCall A return result A unit with
  | ChildStart _ _ => if child_starts then Ok tt else Err tt
  | Preflight _ | ChildStop | StandaloneStart _ | StandaloneStop | GateEmpty => Ok tt
  | ChildStatus _ => Ok (mkStatus (tp_up t) (tp_up t) (tp_up t))
  | Warmup => Ok Finished
  | StandaloneRunning | RouteScoped => Ok true
  | PeerTp q => Ok {| p_version := 1; p_deployment := q_deployment q; p_epoch := q_epoch q;
                      p_session := q_session q; p_operation := q_operation q;
                      p_address := q_coordinator_address q; p_status := all_up |}
  | Millis => Ok 1000
  | NewUuid => Ok 7
  end.

Lemma answers_lawful b : LawfulTp (answers b).
Proof. intros t s st [= <-]. done. Qed.

Definition config : TpConfig :=
  {| auto_demote := true; complete_route_millis := 1000; control_lease_millis := 5000;
     promotion_backoff_millis := 30000 |}.
Definition deployment : bytes := str "d".
Definition address : option IpAddr := Some (IpAddr.V4 167772161).

Definition node (failed : Z) (faults : list Fault) : TpNode :=
  mkNode (str "a") None
    (mkLocal (ClusterSnapshot_new 5 LocalRole.Coordinator StableMode.SoloStandalone
                ClusterState.SoloStandaloneReady true None)
       (mkInner AdmissionState.Serving false 0 8 None) (ProxyTarget.LocalStandalone, true)
       None None None 0 false [TpCalled (StandaloneStart 5) (Ok tt)])
    (mkPolicyState OperationPolicy.Automatic true false 3) OperationPolicy.Automatic
    (mkControl 3 []) (Some (store faults))
    (Some {| tp_journal := {| tp_identity := str "i"; tp_last_session := 4;
                              tp_failed_attempts := failed; tp_last_failed_session := 0 |};
             retry_after := 0 |}).

Definition names_of (n : nat) : names := ([], []).

Definition paired (child_starts : bool) (failed : Z) (faults : list Fault) : TpNode :=
  snd (tp_pair (H := answers child_starts) config deployment address (node failed faults)).

Notation promote child_starts n :=
  (tp_promote_owned (H := answers child_starts) path config deployment address names_of n).

(** A promotion whose child does not start falls back: the standalone serves again. *)
Example failed_start_falls_back :
  let '(r, n) := promote false (paired false 0 []) in
  r = Err ChildStartFailed ∧ ClusterFsm.state (cluster_of n) = ClusterState.SoloStandaloneReady
  ∧ Admission.state (gate_of n) = AdmissionState.Serving ∧ sa_live (calls_of n) = true
  ∧ tp_failed_attempts (journal_of n) = 1.
Proof. by vm_compute. Qed.

(** The same failure, with a disk on which the third write of the journal fails: the
    error of the write is returned before the fallback, and the node is left with
    neither server, in a starting state. *)
Example journal_error_skips_fallback :
  let '(r, n) := promote false (paired false 0 (replicate 18 Succeeds ++ [Fails 0])) in
  r = Err (JournalFailed (Journal (StateStoreError.Io IoError.Failed)))
  ∧ ClusterFsm.state (cluster_of n) = ClusterState.AwaitingTensorParallelWorkerHello
  ∧ sa_up (calls_of n) = false ∧ Admission.state (gate_of n) = AdmissionState.Blocked.
Proof. by vm_compute. Qed.

(** The session of a promotion is the next one, and the machine ends ready. *)
Example promoted_session :
  let '(r, n) := promote true (paired true 0 []) in
  is_ok r = true ∧ ClusterFsm.state (cluster_of n) = ClusterState.TensorParallelReady
  ∧ Admission.state (gate_of n) = AdmissionState.Serving
  ∧ tp_last_session (journal_of n) = 5 ∧ tp_failed_attempts (journal_of n) = 0.
Proof. by vm_compute. Qed.

End DemoTp.

Section tp_witnesses.
Import DemoStore DemoTp.
#[local] Existing Instance answers_lawful.

Definition after (ops : list tp_op) : TpNode :=
  foldl (fun n op => tp_run_op (env := answers true) path config deployment address op n)
    (node 0 []) ops.

Lemma after_runs ops :
  tp_node_run (env := answers true) path config deployment address (node 0 []) (after ops).
Proof.
  induction ops as [|op ops IH] using rev_ind; [apply TpStart|]. unfold after. rewrite foldl_app.
  apply TpDo, IH.
Qed.



Lemma tp_attempt_reserved_witness :
  let n := paired false 3 [] in
  tp_failed_attempts (journal_of n) = 3 ∧ is_ok (fst (promote false n)) = false.
Proof.
  intros n. split; [by vm_compute|].
  pose proof (tp_attempt_reserved (env := answers false) path config deployment address names_of n) as Ht.
  assert (Hf : tp_failed_attempts (journal_of n) = 3) by by vm_compute.
  rewrite Hf in Ht. specialize (Ht ltac:(lia)).
  assert (Hj : journals path (fun _ => True) n).
  { intros st Hst. assert (Hs : policy_store n = Some (store [])) by by vm_compute.
    rewrite Hs in Hst. injection Hst as <-. by eapply stored_records, (store_stored []). }
  specialize (Ht Hj). destruct (tp_promote_owned _ _ _ _ _ _) as [r n'].
  apply (proj1 Ht). lia.
Defined.

End tp_witnesses.
