(* ===== verification/Network.v ===== *)
(** * Network evidence

    What a node knows of the Thunderbolt link: the role its addresses give it
    (src/cluster/role.rs), the snapshot computed from an observation
    (network_snapshot.rs), the evidence shared with the control plane
    (network_evidence.rs), the observation of the live interface and the monitors of
    evidence and role (production.rs, app.rs), and the debounced event task that asks for
    rescans (network_events.rs).  [getifaddrs] is the list of its entries, tokio's
    interval the interface [Interval].

    The theorems: the evidence is always that of the latest rescan that succeeded, the
    route is scoped exactly on the interface the topology prescribes, and the debounce
    asks once per burst, never before the burst has been quiet. *)

From stdpp Require Import sorting.
From S2P Require Import Prelude Bytes Target.

(** ** Roles *)

(** src/src/cluster/network_snapshot.rs:17-21 (Ipv4Assignment) *)
Record Ipv4Assignment := { address : Z; prefix : Z }.

Global Instance Ipv4Assignment_eq_dec : EqDecision Ipv4Assignment.
Proof. solve_decision. Defined.

Module RoleAssessment.

(** src/src/cluster/role.rs:5-10 (RoleAssessment) *)
Inductive RoleAssessment :=
| Missing
| Conflict
| Known (role : LocalRole) (address : Z).

End RoleAssessment.
Notation RoleAssessment := RoleAssessment.RoleAssessment.

Global Instance RoleAssessment_eq_dec : EqDecision RoleAssessment.
Proof. intros x y. unfold Decision. repeat decide equality. Defined.

(** [Ipv4Addr::is_link_local]: 169.254.0.0/16. *)
Definition is_link_local (a : Z) : bool := a / 65536 =? 169 * 256 + 254.

(** src/src/cluster/role.rs:12-43 (assess_role) *)
Definition assess_role (addresses : list Ipv4Assignment)
    (coordinator_address worker_address expected_prefix : Z) : RoleAssessment :=
  match List.filter (fun a => negb (is_link_local (address a))) addresses with
  | [] => RoleAssessment.Missing
  | [a] =>
      if negb (prefix a =? expected_prefix) then RoleAssessment.Conflict
      else if address a =? coordinator_address
      then RoleAssessment.Known LocalRole.Coordinator (address a)
      else if address a =? worker_address
      then RoleAssessment.Known LocalRole.Worker (address a)
      else RoleAssessment.Conflict
  | _ :: _ :: _ => RoleAssessment.Conflict
  end.

(** ** Snapshots *)

Module ThunderboltIpState.

(** src/src/cluster/network_snapshot.rs:5-15 (ThunderboltIpState) *)
Inductive ThunderboltIpState :=
| ServiceMissing
| ServiceDisabled
| InterfaceUnavailable
| AddressMissing
| AddressConflict
| ReadyNoPeer
| PeerCandidateFound
| AuthenticatedPeer.

End ThunderboltIpState.
Notation ThunderboltIpState := ThunderboltIpState.ThunderboltIpState.

Global Instance ThunderboltIpState_eq_dec : EqDecision ThunderboltIpState.
Proof. solve_decision. Defined.

(** src/src/cluster/network_snapshot.rs:23-28 (NetworkServiceObservation) *)
Record NetworkServiceObservation := {
  enabled : bool;
  ipv4_enabled : bool;
  configured_addresses : list Ipv4Assignment
}.

(** src/src/cluster/network_snapshot.rs:30-35 (InterfaceObservation) *)
Record InterfaceObservation := {
  name : bytes;
  up : bool;
  ipv4_addresses : list Ipv4Assignment
}.

(** src/src/cluster/network_snapshot.rs:37-42 (PeerObservation) *)
Record PeerObservation := {
  candidate_address : option Z;
  route_scoped_to_interface : bool;
  authenticated : bool
}.

(** src/src/cluster/network_snapshot.rs:44-56 (NetworkObservation) *)
Record NetworkObservation := {
  observation_epoch : Z;
  expected_interface : bytes;
  coordinator_address : Z;
  worker_address : Z;
  expected_prefix : Z;
  service : option NetworkServiceObservation;
  interface : option InterfaceObservation;
  peer : PeerObservation
}.

(** src/src/cluster/network_snapshot.rs:58-68 (NetworkSnapshot) *)
Record NetworkSnapshot := {
  epoch : Z;
  state : ThunderboltIpState;
  role : LocalRole;
  local_address : option Z;
  expected_peer_address : option Z;
  peer_present : bool
}.

(** src/src/cluster/network_snapshot.rs:164-173 (unavailable) *)
Definition unavailable (e : Z) (s : ThunderboltIpState) : NetworkSnapshot :=
  {| epoch := e; state := s; role := LocalRole.Unknown; local_address := None;
     expected_peer_address := None; peer_present := false |}.

(** src/src/cluster/network_snapshot.rs:152-161 (default) *)
Definition snapshot_default : NetworkSnapshot :=
  {| epoch := 0; state := ThunderboltIpState.ReadyNoPeer; role := LocalRole.Unknown;
     local_address := None; expected_peer_address := None; peer_present := false |}.

(** The address of the other node; [Unknown] is unreachable in the code. *)
Definition counterpart (r : LocalRole) (coordinator worker : Z) : Z :=
  match r with LocalRole.Coordinator => worker | _ => coordinator end.

(** src/src/cluster/network_snapshot.rs:71-139 (from_observation) *)
Definition from_observation (o : NetworkObservation) : NetworkSnapshot :=
  match service o with
  | None => unavailable (observation_epoch o) ThunderboltIpState.ServiceMissing
  | Some service =>
  if negb (enabled service) || negb (ipv4_enabled service)
  then unavailable (observation_epoch o) ThunderboltIpState.ServiceDisabled
  else match interface o with
  | None => unavailable (observation_epoch o) ThunderboltIpState.InterfaceUnavailable
  | Some interface =>
  if negb (bool_decide (name interface = expected_interface o)) || negb (up interface)
  then unavailable (observation_epoch o) ThunderboltIpState.InterfaceUnavailable
  else
  let assess l := assess_role l (coordinator_address o) (worker_address o) (expected_prefix o) in
  match assess (ipv4_addresses interface) with
  | RoleAssessment.Missing =>
      unavailable (observation_epoch o) ThunderboltIpState.AddressMissing
  | RoleAssessment.Conflict =>
      unavailable (observation_epoch o) ThunderboltIpState.AddressConflict
  | RoleAssessment.Known role local_address =>
  if negb (bool_decide (assess (configured_addresses service) =
                        RoleAssessment.Known role local_address))
  then unavailable (observation_epoch o) ThunderboltIpState.AddressConflict
  else
  let expected_peer := counterpart role (coordinator_address o) (worker_address o) in
  let candidate_valid :=
    bool_decide (candidate_address (peer o) = Some expected_peer)
    && route_scoped_to_interface (peer o) in
  let st :=
    if candidate_valid && authenticated (peer o) then ThunderboltIpState.AuthenticatedPeer
    else if candidate_valid then ThunderboltIpState.PeerCandidateFound
    else ThunderboltIpState.ReadyNoPeer in
  {| epoch := observation_epoch o; state := st; role := role;
     local_address := Some local_address; expected_peer_address := Some expected_peer;
     peer_present := bool_decide (st = ThunderboltIpState.AuthenticatedPeer) |}
  end end end.

(** src/src/cluster/network_snapshot.rs:143-145 (stale_relative_to) *)
Definition stale_relative_to (s : NetworkSnapshot) (newer_epoch : Z) : bool :=
  epoch s <? newer_epoch.

(** ** Evidence *)

(** src/src/cluster/network_evidence.rs:16-25 (NetworkEvidence, NetworkEvidenceState) *)
Record NetworkEvidence := { snapshot : NetworkSnapshot; observed_epoch : Z }.

(** src/src/cluster/network_evidence.rs:28-30 (new) *)
Definition evidence_new : NetworkEvidence :=
  {| snapshot := snapshot_default; observed_epoch := 0 |}.

(** src/src/cluster/network_evidence.rs:35-46 (update) *)
Definition update (s : NetworkSnapshot) (self : NetworkEvidence) : bool * NetworkEvidence :=
  if epoch s <? observed_epoch self then (false, self)
  else (true, {| snapshot := s; observed_epoch := epoch s |}).

(** src/src/cluster/network_evidence.rs:52-61 (route_scoped) *)
Definition route_scoped (self : NetworkEvidence) : bool :=
  match state (snapshot self) with
  | ThunderboltIpState.PeerCandidateFound | ThunderboltIpState.AuthenticatedPeer => true
  | _ => false
  end.

(** src/src/cluster/network_evidence.rs:65-71 (peer_present) *)
Definition evidence_peer_present (self : NetworkEvidence) : bool :=
  peer_present (snapshot self).

(** src/src/cluster/network_evidence.rs:88-103 (apply_dry_run) *)
Definition apply_dry_run (r : LocalRole) (local expected_peer : Z) (self : NetworkEvidence)
    : NetworkEvidence :=
  snd (update {| epoch := u64_max; state := ThunderboltIpState.AuthenticatedPeer; role := r;
                 local_address := Some local; expected_peer_address := Some expected_peer;
                 peer_present := true |} self).

(** ** The live interface *)

(** One entry of the list [getifaddrs] returns: the address and the mask are those of an
    [AF_INET] entry, as numbers; any other family is [None]. *)
Record ifaddrs := {
  ifa_name : bytes;
  ifa_up : bool;
  ifa_inet : option Z;
  ifa_netmask : option Z
}.

(** [u32::count_ones]. *)
Definition count_ones (m : Z) : Z := length (List.filter (Z.testbit m) (seqZ 0 32)).

(** src/src/cluster/production.rs:2167-2171 (ObservedInterfaceIpv4) *)
Record ObservedInterfaceIpv4 := { addresses : list Ipv4Assignment; observed_up : bool }.

(** [sort_by_key] on the address, which is stable, and [dedup_by_key]. *)
Definition address_le (a b : Ipv4Assignment) : Prop := address a ≤ address b.

Global Instance address_le_dec : RelDecision address_le.
Proof. intros a b. unfold address_le. apply _. Defined.

Fixpoint dedup_by_address (l : list Ipv4Assignment) : list Ipv4Assignment :=
  match l with
  | [] => []
  | a :: l =>
      match dedup_by_address l with
      | b :: rest => if address a =? address b then a :: rest else a :: b :: rest
      | [] => [a]
      end
  end.

(** src/src/cluster/production.rs:2173-2217 (collect_interface_ipv4) *)
Definition collect_interface_ipv4 (interface : bytes) (entries : list ifaddrs)
    : ObservedInterfaceIpv4 :=
  let own := List.filter (fun e => bool_decide (ifa_name e = interface)) entries in
  let assignments :=
    omap (fun e =>
      a ← ifa_inet e;
      Some {| address := a;
              prefix := match ifa_netmask e with None => 0 | Some m => count_ones m end |})
      own in
  {| addresses := dedup_by_address (merge_sort address_le assignments);
     observed_up := existsb ifa_up own |}.

(** An IPv4 mask of the given prefix, as the [u32] of the code. *)
Definition ipv4_mask (prefix : Z) : Z :=
  if prefix =? 0 then 0 else Z.land (Z.shiftl u32_max (32 - prefix)) u32_max.

Definition same_network (a b prefix : Z) : bool :=
  Z.land a (ipv4_mask prefix) =? Z.land b (ipv4_mask prefix).

(** What ends an observation or a detection before it has a result. *)
Inductive ObserveError := NotIpv4 | GetifaddrsFailed | ConflictingAddresses.

Definition as_ipv4 (a : IpAddr) : result Z ObserveError :=
  match a with IpAddr.V4 v => Ok v | IpAddr.V6 _ => Err NotIpv4 end.

(** src/src/cluster/production.rs:2226-2283 (observe_network_observation) *)
Definition observe_network_observation (interface : bytes) (coordinator worker peer : IpAddr)
    (getifaddrs : option (list ifaddrs)) : result NetworkObservation ObserveError :=
  (let? coordinator := as_ipv4 coordinator in
  let? worker := as_ipv4 worker in
  let? peer := as_ipv4 peer in
  let? entries := ok_or getifaddrs GetifaddrsFailed in
  let observed := collect_interface_ipv4 interface entries in
  Ok {| observation_epoch := 0;
        expected_interface := interface;
        coordinator_address := coordinator;
        worker_address := worker;
        expected_prefix := 30;
        service :=
          if negb (observed_up observed) || bool_decide (addresses observed = []) then None
          else Some {| enabled := true; ipv4_enabled := true;
                       configured_addresses := addresses observed |};
        interface :=
          Some {| name := interface; up := observed_up observed;
                  ipv4_addresses := addresses observed |};
        peer :=
          {| candidate_address := Some peer;
             route_scoped_to_interface :=
               existsb (fun a => same_network (address a) peer (prefix a)) (addresses observed);
             authenticated := false |} |})%rust.

Definition with_epoch (e : Z) (o : NetworkObservation) : NetworkObservation :=
  {| observation_epoch := e; expected_interface := expected_interface o;
     coordinator_address := coordinator_address o; worker_address := worker_address o;
     expected_prefix := expected_prefix o; service := service o;
     interface := interface o; peer := peer o |}.

(** The configuration the monitor is started with. *)
Record LinkConfig := {
  link_interface : bytes;
  link_coordinator : IpAddr;
  link_worker : IpAddr;
  link_role : LocalRole
}.

Definition link_peer (c : LinkConfig) : IpAddr :=
  match link_role c with LocalRole.Coordinator => link_worker c | _ => link_coordinator c end.

Definition observe (c : LinkConfig) (getifaddrs : option (list ifaddrs))
    : result NetworkObservation ObserveError :=
  observe_network_observation (link_interface c) (link_coordinator c) (link_worker c)
    (link_peer c) getifaddrs.

(** One rescan of the evidence task: the epoch counter and the shared evidence.
    src/src/cluster/production.rs:2330-2355 (start_network_evidence_monitor) *)
Definition rescan (c : LinkConfig) (m : Z * NetworkEvidence) (getifaddrs : option (list ifaddrs))
    : Z * NetworkEvidence :=
  let e := sat_add64 (fst m) 1 in
  match observe c getifaddrs with
  | Ok o => (e, snd (update (from_observation (with_epoch e o)) (snd m)))
  | Err _ => (e, snd m)
  end.

Definition rescans (c : LinkConfig) (scans : list (option (list ifaddrs))) : Z * NetworkEvidence :=
  foldl (rescan c) (0, evidence_new) scans.

(** [sort_unstable] and [dedup] of the addresses. *)
Definition distinct_sorted (l : list Z) : list Z :=
  map address (dedup_by_address (merge_sort address_le
    (map (fun a => {| address := a; prefix := 0 |}) l))).

(** src/src/cluster/production.rs:2107-2155 (detect_cluster_role) *)
Definition detect_cluster_role (interface : bytes) (coordinator worker : IpAddr)
    (getifaddrs : option (list ifaddrs)) : result LocalRole ObserveError :=
  (let? entries := ok_or getifaddrs GetifaddrsFailed in
  let matches := distinct_sorted (omap (fun e =>
    a ← ifa_inet e; if bool_decide (ifa_name e = interface) then Some a else None) entries) in
  match matches with
  | [] => Ok LocalRole.Unknown
  | [a] =>
      if bool_decide (IpAddr.V4 a = coordinator) then Ok LocalRole.Coordinator
      else if bool_decide (IpAddr.V4 a = worker) then Ok LocalRole.Worker
      else Err ConflictingAddresses
  | _ => Err ConflictingAddresses
  end)%rust.

(** The task of the role monitor: the first rescan that finds another role interrupts the
    requests in flight, asks for the restart and ends the task; [None] goes on for ever.
    src/src/app.rs:569-592 (spawn_role_change_monitor) *)
Fixpoint role_change (interface : bytes) (coordinator worker : IpAddr) (initial : LocalRole)
    (scans : list (option (list ifaddrs))) : option LocalRole :=
  match scans with
  | [] => None
  | scan :: scans =>
      match detect_cluster_role interface coordinator worker scan with
      | Ok r =>
          if bool_decide (r = initial)
          then role_change interface coordinator worker initial scans
          else Some r
      | Err _ => role_change interface coordinator worker initial scans
      end
  end.

(** ** The event task *)

Module NetworkEventKind.

(** src/src/cluster/network_events.rs:5-11 (NetworkEventKind) *)
Inductive NetworkEventKind := InterfaceList | Link | Ipv4 | Setup.

End NetworkEventKind.
Notation NetworkEventKind := NetworkEventKind.NetworkEventKind.

(** src/src/cluster/network_events.rs:13-17 (NetworkEvent) *)
Record NetworkEvent := { event_generation : Z; kind : NetworkEventKind }.

Module RescanReason.

(** src/src/cluster/network_events.rs:19-24 (RescanReason) *)
Inductive RescanReason := Initial | DebouncedNotification | Reconcile.

End RescanReason.
Notation RescanReason := RescanReason.RescanReason.

Module SpawnNetworkMonitorError.

(** src/src/cluster/network_events.rs:32-38 (SpawnNetworkMonitorError) *)
Inductive SpawnNetworkMonitorError := ZeroEventCapacity | ZeroInterval.

End SpawnNetworkMonitorError.
Notation SpawnNetworkMonitorError := SpawnNetworkMonitorError.SpawnNetworkMonitorError.

(** tokio's [Interval] with the behaviour [Delay]: when the tick after one due at
    [timeout] and seen at [now] is due. *)
Class Interval := next_timeout : Z → Z → Z → Z.

Section monitor.
Context `{Interval} (generation debounce reconcile_interval event_capacity : Z).

(** What the task does that others see, in order, with its time: a rescan it asks for.
    An event it takes from the channel is recorded too, for the specification. *)
Inductive monitor_entry := Received (e : NetworkEvent) | Requested (r : RescanReason).

(** The channel and the handle ([closed] when the last handle is dropped, which also sends
    the cancellation), the timers of the task, and whether it still runs. *)
Record Monitor := {
  queue : list NetworkEvent;
  closed : bool;
  deadline : option Z;
  next_tick : Z;
  running : bool;
  clock : Z;
  journal : list (Z * monitor_entry)
}.

(** The checks, and the task up to its loop: the first request, unless nobody receives, and
    the first tick.
    src/src/cluster/network_events.rs:84-116 (spawn_network_event_monitor) *)
Definition spawn_network_event_monitor (receiver : bool) (now : Z)
    : result Monitor SpawnNetworkMonitorError :=
  if event_capacity =? 0 then Err SpawnNetworkMonitorError.ZeroEventCapacity
  else if (debounce =? 0) || (reconcile_interval =? 0)
  then Err SpawnNetworkMonitorError.ZeroInterval
  else Ok {| queue := []; closed := false; deadline := None;
             next_tick := now + reconcile_interval; running := receiver; clock := now;
             journal := if receiver then [(now, Requested RescanReason.Initial)] else [] |}.

(** [Sender::try_send] on the bounded channel, whose receiver is the task. *)
Definition try_send (e : NetworkEvent) (m : Monitor) : bool * Monitor :=
  if running m && (length (queue m) <? event_capacity)
  then (true, {| queue := queue m ++ [e]; closed := closed m; deadline := deadline m;
                 next_tick := next_tick m; running := running m; clock := clock m;
                 journal := journal m |})
  else (false, m).

(** src/src/cluster/network_events.rs:51-70 (try_notify, NetworkEventHandle) *)
Definition try_notify (k : NetworkEventKind) (m : Monitor) : bool * Monitor :=
  try_send {| event_generation := generation; kind := k |} m.

(** src/src/cluster/network_events.rs:46-48 (Control::drop) *)
Definition drop_handle (m : Monitor) : Monitor :=
  {| queue := queue m; closed := true; deadline := deadline m; next_tick := next_tick m;
     running := running m; clock := clock m; journal := journal m |}.

Definition stop (m : Monitor) : Monitor :=
  {| queue := queue m; closed := closed m; deadline := deadline m; next_tick := next_tick m;
     running := false; clock := clock m; journal := journal m |}.

(** The task asks for a rescan; it ends when nobody receives. *)
Definition request (receiver : bool) (r : RescanReason) (deadline : option Z) (tick : Z)
    (m : Monitor) : Monitor :=
  if receiver
  then {| queue := queue m; closed := closed m; deadline := deadline; next_tick := tick;
          running := running m; clock := clock m;
          journal := journal m ++ [(clock m, Requested r)] |}
  else stop m.

Definition poll_tick (receiver : bool) (m : Monitor) : Monitor :=
  if next_tick m <=? clock m
  then request receiver RescanReason.Reconcile (deadline m)
         (next_timeout (next_tick m) (clock m) reconcile_interval) m
  else m.

(** One turn of the loop, with the order of the biased select: cancellation, event,
    deadline, tick.
    src/src/cluster/network_events.rs:117-168 (spawn_network_event_monitor) *)
Definition poll (receiver : bool) (m : Monitor) : Monitor :=
  if negb (running m) then m
  else if closed m then stop m
  else match queue m with
  | e :: q =>
      {| queue := q; closed := closed m;
         deadline := if event_generation e =? generation then Some (clock m + debounce)
                     else deadline m;
         next_tick := next_tick m; running := running m; clock := clock m;
         journal := journal m ++ [(clock m, Received e)] |}
  | [] =>
      match deadline m with
      | Some at_ =>
          if at_ <=? clock m
          then request receiver RescanReason.DebouncedNotification None (next_tick m) m
          else poll_tick receiver m
      | None => poll_tick receiver m
      end
  end.

Definition elapse (d : nat) (m : Monitor) : Monitor :=
  {| queue := queue m; closed := closed m; deadline := deadline m; next_tick := next_tick m;
     running := running m; clock := clock m + d; journal := journal m |}.

(** What may happen around the task: a notification of the handle's generation or of
    another, the last handle dropped, time, a turn of the loop. *)
Inductive monitor_action :=
| Notify (k : NetworkEventKind)
| Inject (e : NetworkEvent)
| DropHandle
| Elapse (d : nat)
| Poll (receiver : bool).

Definition monitor_step (m : Monitor) (a : monitor_action) : Monitor :=
  match a with
  | Notify k => snd (try_notify k m)
  | Inject e => snd (try_send e m)
  | DropHandle => drop_handle m
  | Elapse d => elapse d m
  | Poll receiver => poll receiver m
  end.

Definition monitor_run : list monitor_action → Monitor → Monitor :=
  fun acts m => foldl monitor_step m acts.

(** The specification: a rescan is owed from [debounce] after the last event of the
    generation, until it is asked for. *)
Definition owed_after (p : option Z) (x : Z * monitor_entry) : option Z :=
  match x with
  | (t, Received e) => if event_generation e =? generation then Some (t + debounce) else p
  | (_, Requested RescanReason.DebouncedNotification) => None
  | _ => p
  end.

Definition owed (l : list (Z * monitor_entry)) : option Z := foldl owed_after None l.

Lemma owed_snoc l x : owed (l ++ [x]) = owed_after (owed l) x.
Proof. unfold owed. by rewrite foldl_app. Qed.

(** Every debounced rescan of a journal was owed and due when it was asked for. *)
Definition debounced_due (l : list (Z * monitor_entry)) : Prop :=
  ∀ pre t post, l = pre ++ (t, Requested RescanReason.DebouncedNotification) :: post →
  ∃ d, owed pre = Some d ∧ d ≤ t.

Lemma debounced_due_snoc l t x :
  debounced_due l →
  (x = Requested RescanReason.DebouncedNotification → ∃ d, owed l = Some d ∧ d ≤ t) →
  debounced_due (l ++ [(t, x)]).
Proof.
  intros Hl Hx pre u post E. destruct post as [|y post] using rev_ind.
  - apply app_inj_tail in E as [-> [= -> ->]]. auto.
  - clear IHpost. rewrite app_comm_cons, app_assoc in E. apply app_inj_tail in E as [E _].
    eapply Hl, E.
Qed.

Definition monitor_inv (m : Monitor) : Prop :=
  debounced_due (journal m) ∧ (running m = true → deadline m = owed (journal m)).

Lemma request_inv receiver r dl tick m :
  debounced_due (journal m) →
  (r = RescanReason.DebouncedNotification → ∃ d, owed (journal m) = Some d ∧ d ≤ clock m) →
  dl = owed_after (owed (journal m)) (clock m, Requested r) →
  monitor_inv (request receiver r dl tick m).
Proof.
  intros Hd Hr ->. unfold request. destruct receiver; [|by split].
  split; simpl; [|by rewrite owed_snoc].
  apply debounced_due_snoc; [done|]. intros [= ->]. by apply Hr.
Qed.

Lemma poll_inv receiver m : monitor_inv m → monitor_inv (poll receiver m).
Proof.
  intros Hm. pose proof Hm as [Hd Hr]. unfold poll.
  destruct (running m) eqn:Hrun; simpl; [|done]. specialize (Hr eq_refl).
  assert (Htick : monitor_inv (poll_tick receiver m)).
  { unfold poll_tick. destruct (next_tick m <=? clock m); [|done].
    apply request_inv; [done|by intros|done]. }
  destruct (closed m); [by split|]. destruct (queue m) as [|e q].
  - destruct (deadline m) as [at_|] eqn:Hat; [|done].
    destruct (Z.leb_spec at_ (clock m)); [|done].
    apply request_inv; [done| |done]. intros _. by exists at_.
  - split; simpl; [apply debounced_due_snoc; [done|by intros [=]]|]. intros _. rewrite owed_snoc. simpl.
    by rewrite Hr.
Qed.

Lemma monitor_run_inv acts m : monitor_inv m → monitor_inv (monitor_run acts m).
Proof.
  revert m. induction acts as [|a acts IH]; intros m Hm; [done|]. apply IH.
  destruct a; simpl; [unfold try_notify; unfold try_send; by destruct (_ && _)
    |unfold try_send; by destruct (_ && _)|done|done|by apply poll_inv].
Qed.

End monitor.

(** ** What the monitors guarantee *)

Section debounce.
Context `{Interval} (generation debounce reconcile_interval event_capacity : Z).
Notation spawn :=
  (spawn_network_event_monitor debounce reconcile_interval event_capacity).
Notation run := (monitor_run generation debounce reconcile_interval event_capacity).

(** The debounce of network events is exact, whatever the order of notifications, time
    and turns: a debounced rescan is asked for only when one is owed, that is, an event of
    the own generation came [debounce] earlier and no further one since, so a burst gives
    one rescan; and while one is owed and due, the next turn with an empty channel asks for
    it, so no notification the channel accepted is lost. *)
Lemma debounce_exact now m acts :
  spawn true now = Ok m →
  let m' := run acts m in
  debounced_due generation debounce (journal m')
  ∧ ∀ d, running m' = true → closed m' = false → queue m' = [] →
    owed generation debounce (journal m') = Some d → d ≤ clock m' →
    journal (poll generation debounce reconcile_interval true m')
    = journal m' ++ [(clock m', Requested RescanReason.DebouncedNotification)].
Proof.
  intros Hm m'.
  assert (Hinv : monitor_inv generation debounce m).
  { unfold spawn_network_event_monitor in Hm. repeat split_match; split; [|done].
    intros pre t post E. destruct pre as [|? []]; naive_solver. }
  eapply monitor_run_inv in Hinv as [Hd Hr]. split; [exact Hd|].
  intros d Hrun Hc Hq Ho Hle. unfold poll. fold m' in Hr. rewrite Hrun, Hc, Hq, (Hr Hrun), Ho.
  simpl. by rewrite (proj2 (Z.leb_le _ _) Hle).
Qed.

(** Once the last handle is dropped, the task asks for nothing any more, reconciliations
    included. *)
Lemma closed_monitor_is_silent acts m :
  closed m = true →
  (∀ a, a ∈ acts → match a with Poll _ | Elapse _ => True | _ => False end) →
  journal (run acts m) = journal m.
Proof.
  revert m. induction acts as [|a acts IH]; intros m Hm Ha; [done|]. simpl.
  rewrite IH; [|by destruct a; simpl; unfold poll, try_notify, try_send; repeat case_match
               |intros; apply Ha; by right].
  specialize (Ha a (list_elem_of_here _ _)). destruct a; try done. simpl. unfold poll.
  rewrite Hm. by destruct (running m).
Qed.

End debounce.

(** *** Addresses of an interface *)

Lemma dedup_elem a l :
  a ∈ map address (dedup_by_address l) ↔ a ∈ map address l.
Proof.
  induction l as [|x l IH]; simpl; [done|].
  destruct (dedup_by_address l) as [|b rest] eqn:E; simpl in *.
  - rewrite !elem_of_cons, <- IH. done.
  - destruct (Z.eqb_spec (address x) (address b)) as [Heq|]; simpl;
      rewrite !elem_of_cons, <- IH, elem_of_cons; naive_solver.
Qed.

(** The addresses of an observation are those of the interface's entries. *)
Lemma collect_addresses interface entries a :
  a ∈ map address (addresses (collect_interface_ipv4 interface entries)) ↔
  ∃ e, e ∈ entries ∧ ifa_name e = interface ∧ ifa_inet e = Some a.
Proof.
  unfold collect_interface_ipv4. simpl. rewrite dedup_elem.
  rewrite (Permutation_map address (merge_sort_Permutation _ _)).
  rewrite list_elem_of_fmap. setoid_rewrite list_elem_of_omap.
  setoid_rewrite list_elem_of_In. setoid_rewrite filter_In. setoid_rewrite bool_decide_eq_true.
  split.
  - intros ([a' p] & -> & e & [Hin Hn] & He). exists e.
    destruct (ifa_inet e); simpl in *; by simplify_eq.
  - intros (e & Hin & Hn & He). eexists. split; [|exists e; split; [done|by rewrite He]]. done.
Qed.

(** *** Evidence *)

(** The observation of the last rescan that gave one. *)
Definition latest (c : LinkConfig) (scans : list (option (list ifaddrs)))
    : option NetworkObservation :=
  foldl (fun acc scan => match observe c scan with Ok o => Some o | Err _ => acc end) None scans.

Lemma from_observation_epoch e o : epoch (from_observation (with_epoch e o)) = e.
Proof. unfold from_observation. by repeat case_match. Qed.

(** The evidence is that of the latest observation, and never from the future. *)
Definition evidence_follows (m : Z * NetworkEvidence) (o : option NetworkObservation) : Prop :=
  is_u64 (fst m) ∧ observed_epoch (snd m) ≤ fst m
  ∧ match o with
    | None => snapshot (snd m) = snapshot_default
    | Some o => ∃ e, snapshot (snd m) = from_observation (with_epoch e o)
    end.

Lemma rescan_follows c m o scan :
  evidence_follows m o →
  evidence_follows (rescan c m scan) (match observe c scan with Ok o' => Some o' | Err _ => o end).
Proof.
  intros (Hr & Hle & Ho). unfold rescan, evidence_follows.
  assert (is_u64 (sat_add64 (fst m) 1)) by (unfold sat_add64, is_u64 in *; lia).
  assert (fst m ≤ sat_add64 (fst m) 1) by (unfold sat_add64, is_u64 in *; lia).
  destruct (observe c scan) as [o'|]; simpl; [|split; [done|split; [lia|done]]].
  unfold update. rewrite from_observation_epoch. destruct (Z.ltb_spec (sat_add64 (fst m) 1)
    (observed_epoch (snd m))); [lia|]. simpl.
  split; [done|split; [lia|]]. by eexists.
Qed.

(** Under every sequence of rescans, also failing ones and after the epoch counter has
    saturated, the shared evidence is the snapshot of the latest observation that
    succeeded, or the closed default before the first. *)
Lemma evidence_is_latest c scans :
  let '(_, evidence) := rescans c scans in
  match latest c scans with
  | None => snapshot evidence = snapshot_default
  | Some o => ∃ e, snapshot evidence = from_observation (with_epoch e o)
  end.
Proof.
  assert (∀ m o, evidence_follows m o →
    evidence_follows (foldl (rescan c) m scans)
      (foldl (fun acc scan => match observe c scan with Ok o => Some o | Err _ => acc end)
         o scans)) as Hall.
  { induction scans as [|scan scans IH]; intros m o Hm; [done|]. apply IH.
    by apply rescan_follows. }
  unfold rescans, latest. destruct (Hall (0, evidence_new) None) as (_ & _ & Hs).
  - repeat split; done.
  - by destruct (foldl (rescan c) _ scans).
Qed.

(** The node's own address in the topology, and what a usable link looks like: the
    interface is up, its one address that is not link-local is the node's own, on a /30,
    and the peer is on a network of the interface. *)
Definition own_address (c : LinkConfig) (coordinator worker : Z) : Z :=
  match link_role c with LocalRole.Coordinator => coordinator | _ => worker end.

Definition link_ready (c : LinkConfig) (entries : list ifaddrs) : Prop :=
  ∃ vc vw, link_coordinator c = IpAddr.V4 vc ∧ link_worker c = IpAddr.V4 vw
  ∧ let seen := collect_interface_ipv4 (link_interface c) entries in
    observed_up seen = true
    ∧ List.filter (fun a => negb (is_link_local (address a))) (addresses seen)
      = [{| address := own_address c vc vw; prefix := 30 |}]
    ∧ existsb (fun a => same_network (address a) (counterpart (link_role c) vc vw) (prefix a))
        (addresses seen) = true.

Lemma from_observation_scoped o :
  (match state (from_observation o) with
   | ThunderboltIpState.PeerCandidateFound | ThunderboltIpState.AuthenticatedPeer => true
   | _ => false
   end) = true ↔
  ∃ s i r a, service o = Some s ∧ enabled s = true ∧ ipv4_enabled s = true
    ∧ interface o = Some i ∧ name i = expected_interface o ∧ up i = true
    ∧ assess_role (ipv4_addresses i) (coordinator_address o) (worker_address o)
        (expected_prefix o) = RoleAssessment.Known r a
    ∧ assess_role (configured_addresses s) (coordinator_address o) (worker_address o)
        (expected_prefix o) = RoleAssessment.Known r a
    ∧ candidate_address (peer o)
      = Some (counterpart r (coordinator_address o) (worker_address o))
    ∧ route_scoped_to_interface (peer o) = true.
Proof.
  unfold from_observation. split.
  - intros H. repeat (case_match; try discriminate); bool_to_prop;
      do 4 eexists; split_and!; eauto.
  - intros (s & i & r & a & -> & -> & -> & -> & <- & -> & -> & -> & -> & ->). simpl.
    rewrite bool_decide_true by done. simpl. rewrite !bool_decide_true by done.
    simpl. by destruct (authenticated (peer o)).
Qed.

Lemma assess_role_known l c w p r a :
  assess_role l c w p = RoleAssessment.Known r a ↔
  List.filter (fun x => negb (is_link_local (address x))) l = [{| address := a; prefix := p |}]
  ∧ r = (if a =? c then LocalRole.Coordinator else LocalRole.Worker) ∧ (a = c ∨ a = w).
Proof.
  unfold assess_role. destruct (List.filter _ l) as [|[a' p'] [|]]; simpl.
  - naive_solver.
  - destruct (Z.eqb_spec p' p) as [->|]; simpl; [|naive_solver].
    destruct (Z.eqb_spec a' c) as [->|]; [|destruct (Z.eqb_spec a' w) as [->|]];
      (split; [intros [= <- <-]|intros ([= <-] & -> & ?)]);
      rewrite ?Z.eqb_refl; try done; try naive_solver.
    + rewrite (proj2 (Z.eqb_neq _ _)) by done. auto.
    + by rewrite (proj2 (Z.eqb_neq _ _)) by done.
  - naive_solver.
Qed.

(** The observation of a successful scan on an IPv4 topology. *)
Lemma observe_ok c vc vw entries :
  link_coordinator c = IpAddr.V4 vc → link_worker c = IpAddr.V4 vw →
  ∃ o, observe c (Some entries) = Ok o
  ∧ ∀ e, route_scoped {| snapshot := from_observation (with_epoch e o); observed_epoch := e |} = true
    ↔ link_ready c entries.
Proof.
  intros Hc Hw.
  assert (Hp : link_peer c = IpAddr.V4 (counterpart (link_role c) vc vw))
    by (unfold link_peer, counterpart; destruct (link_role c); done).
  unfold observe, observe_network_observation. rewrite Hc, Hw, Hp.
  cbv beta iota zeta delta [link_ready as_ipv4 result_bind ok_or].
  generalize (collect_interface_ipv4 (link_interface c) entries) as seen.
  intros seen. eexists. split; [reflexivity|]. intros e. unfold route_scoped, snapshot.
  rewrite from_observation_scoped. simpl. split.
  - intros (s & i & r & a & Hs & _ & _ & [= <-] & _ & Hup & Hr & _ & Hcand & Hsc). simpl in *.
    apply assess_role_known in Hr as (Hl & -> & Ha).
    exists vc, vw. rewrite Hl. split_and!; [done..| |done]. repeat f_equal.
    unfold own_address. injection Hcand as Hcand.
    destruct (Z.eqb_spec a vc), (link_role c); simpl in *; naive_solver congruence.
  - intros (vc' & vw' & Hc' & Hw' & Hup & Hl & Hsc). rewrite Hc in Hc'. rewrite Hw in Hw'.
    injection Hc' as <-. injection Hw' as <-.
    assert (Hne : addresses seen ≠ []) by (intros E; by rewrite E in Hl).
    assert (Hr : assess_role (addresses seen) vc vw 30 = RoleAssessment.Known
      (if own_address c vc vw =? vc then LocalRole.Coordinator else LocalRole.Worker)
      (own_address c vc vw)).
    { apply assess_role_known. split_and!; [done..|].
      unfold own_address. destruct (link_role c); auto. }
    rewrite Hup. simpl. rewrite (bool_decide_false _ Hne).
    do 4 eexists. split_and!; [reflexivity|done|done|done|done|done|exact Hr|exact Hr| |done].
    unfold own_address. destruct (link_role c); simpl; try rewrite Z.eqb_refl; try done;
      by destruct (Z.eqb_spec vw vc) as [->|].
Qed.

Lemma latest_snoc c scans scan :
  latest c (scans ++ [scan]) =
  match observe c scan with Ok o => Some o | Err _ => latest c scans end.
Proof. unfold latest. by rewrite foldl_app. Qed.

(** The last scan with a list of entries. *)
Definition last_scan (scans : list (option (list ifaddrs))) : option (list ifaddrs) :=
  foldl (fun acc scan => match scan with Some l => Some l | None => acc end) None scans.

Lemma latest_observation c vc vw scans :
  link_coordinator c = IpAddr.V4 vc → link_worker c = IpAddr.V4 vw →
  match last_scan scans with
  | None => latest c scans = None
  | Some l => ∃ o, observe c (Some l) = Ok o ∧ latest c scans = Some o
  end.
Proof.
  intros Hc Hw. induction scans as [|scan scans IH] using rev_ind; [done|].
  rewrite latest_snoc. unfold last_scan in *. rewrite foldl_app. simpl.
  destruct scan as [l|].
  - destruct (observe_ok c vc vw l Hc Hw) as (o & Ho & _). rewrite Ho. eauto.
  - assert (observe c None = Err GetifaddrsFailed) as ->; [|done].
    unfold observe, observe_network_observation, link_peer. rewrite Hc, Hw.
    by destruct (link_role c).
Qed.

Lemma latest_not_ipv4 c scans :
  (∀ vc vw, link_coordinator c = IpAddr.V4 vc → link_worker c = IpAddr.V4 vw → False) →
  latest c scans = None.
Proof.
  intros H. induction scans as [|scan scans IH] using rev_ind; [done|].
  rewrite latest_snoc. unfold observe, observe_network_observation.
  destruct (link_coordinator c), (link_worker c); try exact IH. naive_solver.
Qed.

(** The control plane is told that the route is scoped exactly when the last rescan that
    could read the interfaces saw the link the topology prescribes: the interface up, its
    only address that is not link-local the node's own on a /30, and the peer on a network
    of the interface; in every other case, and before the first rescan, it stays closed. *)
Lemma route_scoped_iff c scans :
  let '(_, evidence) := rescans c scans in
  route_scoped evidence = true ↔ ∃ entries, last_scan scans = Some entries ∧ link_ready c entries.
Proof.
  pose proof (evidence_is_latest c scans) as Hl. destruct (rescans c scans) as [n ev].
  destruct (link_coordinator c) as [vc|] eqn:Hc, (link_worker c) as [vw|] eqn:Hw.
  2-4: rewrite latest_not_ipv4 in Hl by congruence; unfold route_scoped; rewrite Hl;
    split; [done|intros (? & _ & vc' & vw' & Hc' & Hw' & _); congruence].
  pose proof (latest_observation c vc vw scans Hc Hw) as Ho.
  destruct (last_scan scans) as [l|].
  - destruct Ho as (o & Ho & El). rewrite El in Hl. destruct Hl as [e Hl].
    destruct (observe_ok c vc vw l Hc Hw) as (o' & Ho' & Hiff).
    assert (o' = o) as -> by congruence. specialize (Hiff e). unfold route_scoped in *.
    rewrite Hl. simpl in Hiff. rewrite Hiff. naive_solver.
  - rewrite Ho in Hl. unfold route_scoped. rewrite Hl. naive_solver.
Qed.

(** ** Examples *)

Module DemoNetwork.

Definition tick : Interval := fun _ now period => now + period.

Definition link : NetworkEvent :=
  {| event_generation := 7; kind := NetworkEventKind.Link |}.

(** Two notifications 10 apart with a debounce of 30: one rescan, 30 after the second. *)
Definition burst : list monitor_action :=
  [Notify NetworkEventKind.Link; Poll true; Elapse 10; Notify NetworkEventKind.Ipv4;
   Poll true; Elapse 29; Poll true; Elapse 1].

Definition started : Monitor :=
  {| queue := []; closed := false; deadline := None; next_tick := 1000; running := true;
     clock := 0; journal := [(0, Requested RescanReason.Initial)] |}.

Definition bridge (a : Z) : ifaddrs :=
  {| ifa_name := str "bridge0"; ifa_up := true; ifa_inet := Some a;
     ifa_netmask := Some 4294967292 |}.

(** 10.99.0.1 and 10.99.0.2. *)
Definition coordinator : Z := 174260225.
Definition worker : Z := 174260226.

Definition config : LinkConfig :=
  {| link_interface := str "bridge0"; link_coordinator := IpAddr.V4 coordinator;
     link_worker := IpAddr.V4 worker; link_role := LocalRole.Coordinator |}.

Example link_found :
  route_scoped (snd (rescans config [Some [bridge coordinator]])) = true.
Proof. vm_compute. reflexivity. Qed.

(** A rescan that fails leaves the open evidence as it was. *)
Example failed_rescan_keeps_route :
  route_scoped (snd (rescans config [Some [bridge coordinator]; None])) = true.
Proof. vm_compute. reflexivity. Qed.

(** After the synthetic snapshot of a dry run every later snapshot is stale. *)
Example dry_run_refuses_updates s :
  epoch s < u64_max →
  fst (update s (apply_dry_run LocalRole.Coordinator coordinator worker evidence_new)) = false.
Proof. intros Hs. unfold update. simpl. by rewrite (proj2 (Z.ltb_lt _ _) Hs). Qed.

(** A self-assigned address (169.254.1.1), which [assess_role] ignores, makes the detection
    of the role at start fail instead of answering [Unknown]. *)
Example link_local_address_fails_detection :
  detect_cluster_role (str "bridge0") (IpAddr.V4 coordinator) (IpAddr.V4 worker)
    (Some [bridge (169 * 2 ^ 24 + 254 * 2 ^ 16 + 257)]) = Err ConflictingAddresses
  ∧ assess_role [{| address := 169 * 2 ^ 24 + 254 * 2 ^ 16 + 257; prefix := 16 |}]
      coordinator worker 30 = RoleAssessment.Missing.
Proof. vm_compute. done. Qed.

End DemoNetwork.

Section network_witnesses.
Import DemoNetwork.

Lemma debounce_exact_witness :
  let m := monitor_run (H := tick) 7 30 1000 8 burst started in
  journal (poll (H := tick) 7 30 1000 true m)
  = journal m ++ [(40, Requested RescanReason.DebouncedNotification)].
Proof.
  apply (debounce_exact (H := tick) 7 30 1000 8 0 started burst eq_refl) with (d := 40);
    vm_compute; try reflexivity; discriminate.
Defined.
End network_witnesses.
