(* ===== verification/Discovery.v ===== *)
(** * Peer discovery

    The candidates a node accepts as its peer (src/cluster/discovery.rs), the Bonjour
    registration and its lifecycle (bonjour.rs), and the part of the DNS-SD bindings that
    computes: the TXT record and its parser, the failure codes, what each callback reports
    (platform/bonjour.rs).  The strings of a callback are given as the text the code reads
    from them, [None] for a null pointer.

    The theorems: a candidate is always the configured peer address, and a service that one
    node publishes is resolved by the other with the port, protocol and node id it was
    published with. *)

From Stdlib Require Import Sorted.
From S2P Require Import Prelude Bytes Utf8 Network.

(** ** Bonjour *)

Module BonjourFailure.

(** src/src/cluster/bonjour.rs:1-8 (BonjourFailure) *)
Inductive BonjourFailure :=
| NotPermitted
| PolicyDenied
| DaemonUnavailable
| RegistrationFailed
| Other (code : Z).

End BonjourFailure.
Notation BonjourFailure := BonjourFailure.BonjourFailure.

(** src/src/cluster/bonjour.rs:11-19 (allows_static_fallback) *)
Definition allows_static_fallback (f : BonjourFailure) : bool :=
  match f with
  | BonjourFailure.NotPermitted | BonjourFailure.PolicyDenied
  | BonjourFailure.DaemonUnavailable | BonjourFailure.RegistrationFailed => true
  | BonjourFailure.Other _ => false
  end.

(** src/src/cluster/bonjour.rs:22-31 (BonjourRegistration) *)
Record BonjourRegistration := {
  reg_generation : Z;
  reg_interface_index : Z;
  service_type : bytes;
  domain : bytes;
  port_network_order : Z;
  reg_protocol_version : Z;
  reg_node_id : bytes
}.

(** [u16::to_be] and [u16::from_be] on the little-endian targets. *)
Definition swap16 (p : Z) : Z := p mod 256 * 256 + p / 256.

(** src/src/cluster/bonjour.rs:34-51 (BonjourRegistration::new) *)
Definition registration_new (generation interface_index : Z) (service_type domain : bytes)
    (port : Z) (node_id : bytes) : option BonjourRegistration :=
  if negb (interface_index =? 0) && negb (port =? 0)
  then Some {| reg_generation := generation; reg_interface_index := interface_index;
               service_type := service_type; domain := domain;
               port_network_order := swap16 port; reg_protocol_version := 1;
               reg_node_id := node_id |}
  else None.

(** src/src/cluster/bonjour.rs:54-58 (BonjourLifecycle) *)
Record BonjourLifecycle := { lifecycle_generation : Z; active : bool }.

(** src/src/cluster/bonjour.rs:61-66 (BonjourLifecycle::new) *)
Definition lifecycle_new (generation : Z) : BonjourLifecycle :=
  {| lifecycle_generation := generation; active := true |}.

(** src/src/cluster/bonjour.rs:68-70 (accepts) *)
Definition accepts (self : BonjourLifecycle) (generation : Z) : bool :=
  active self && (lifecycle_generation self =? generation).

(** src/src/cluster/bonjour.rs:72-74 (invalidate) *)
Definition invalidate (self : BonjourLifecycle) : BonjourLifecycle :=
  {| lifecycle_generation := lifecycle_generation self; active := false |}.

(** ** Candidates *)

Module CandidateSource.

(** src/src/cluster/discovery.rs:4-8 (CandidateSource) *)
Inductive CandidateSource := Bonjour | StaticFallback.

End CandidateSource.
Notation CandidateSource := CandidateSource.CandidateSource.

(** src/src/cluster/discovery.rs:10-19 (ResolvedBonjourService) *)
Record ResolvedBonjourService := {
  generation : Z;
  interface_index : Z;
  node_id : bytes;
  protocol_version : Z;
  service_address : Z;
  port : Z;
  service_route_scoped : bool
}.

(** src/src/cluster/discovery.rs:21-29 (DiscoveryInput) *)
Record DiscoveryInput := {
  input_generation : Z;
  expected_interface_index : Z;
  local_node_id : bytes;
  input_local_address : Z;
  input_peer_address : Z;
  input_prefix : Z
}.

(** src/src/cluster/discovery.rs:31-36 (DiscoveryCandidate) *)
Record DiscoveryCandidate := {
  source : CandidateSource;
  candidate_addr : Z;
  candidate_port : Z
}.

Global Instance CandidateSource_eq_dec : EqDecision CandidateSource.
Proof. solve_decision. Defined.
Global Instance DiscoveryCandidate_eq_dec : EqDecision DiscoveryCandidate.
Proof. solve_decision. Defined.

Module CandidateError.

(** src/src/cluster/discovery.rs:38-49 (CandidateError) *)
Inductive CandidateError :=
| OldGeneration
| SelfResult
| WrongInterface
| WrongProtocol
| WrongSubnet
| UnexpectedAddress
| RouteNotScoped
| InvalidPort
| StaticFallbackNotAllowed.

End CandidateError.
Notation CandidateError := CandidateError.CandidateError.

(** The set is kept in the derived order of its elements.
    src/src/cluster/discovery.rs:51-55 (DiscoveryTracker) *)
Record DiscoveryTracker := { input : DiscoveryInput; candidates : list DiscoveryCandidate }.

(** src/src/cluster/discovery.rs:58-63 (DiscoveryTracker::new) *)
Definition tracker_new (input : DiscoveryInput) : DiscoveryTracker :=
  {| input := input; candidates := [] |}.

(** The derived [Ord]: source, then address, then port. *)
Definition source_rank (s : CandidateSource) : Z :=
  match s with CandidateSource.Bonjour => 0 | CandidateSource.StaticFallback => 1 end.

Definition candidate_ltb (a b : DiscoveryCandidate) : bool :=
  (source_rank (source a) <? source_rank (source b))
  || ((source_rank (source a) =? source_rank (source b))
      && ((candidate_addr a <? candidate_addr b)
          || ((candidate_addr a =? candidate_addr b)
              && (candidate_port a <? candidate_port b)))).

(** [BTreeSet::insert]: whether the element is new. *)
Fixpoint set_insert (c : DiscoveryCandidate) (l : list DiscoveryCandidate)
    : bool * list DiscoveryCandidate :=
  match l with
  | [] => (true, [c])
  | d :: l =>
      if bool_decide (c = d) then (false, d :: l)
      else if candidate_ltb c d then (true, c :: d :: l)
      else let '(b, l) := set_insert c l in (b, d :: l)
  end.

Definition add_candidate (c : DiscoveryCandidate) : method DiscoveryTracker CandidateError bool :=
  fun t => let '(b, l) := set_insert c (candidates t) in
           (Ok b, {| input := input t; candidates := l |}).

(** src/src/cluster/discovery.rs:133-143 (same_subnet) *)
Definition same_subnet (left right prefix : Z) : bool :=
  if 32 <? prefix then false else same_network left right prefix.

(** src/src/cluster/discovery.rs:65-104 (accept_bonjour) *)
Definition accept_bonjour (s : ResolvedBonjourService)
    : method DiscoveryTracker CandidateError bool :=
  t ← self;
  let i := input t in
  require (generation s =? input_generation i) CandidateError.OldGeneration;;
  require (negb (bool_decide (node_id s = local_node_id i)
                 || (service_address s =? input_local_address i)))
    CandidateError.SelfResult;;
  require (interface_index s =? expected_interface_index i) CandidateError.WrongInterface;;
  require (protocol_version s =? 1) CandidateError.WrongProtocol;;
  require (negb (port s =? 0)) CandidateError.InvalidPort;;
  require (same_subnet (input_local_address i) (service_address s) (input_prefix i))
    CandidateError.WrongSubnet;;
  require (service_address s =? input_peer_address i) CandidateError.UnexpectedAddress;;
  require (service_route_scoped s) CandidateError.RouteNotScoped;;
  add_candidate {| source := CandidateSource.Bonjour; candidate_addr := service_address s;
                   candidate_port := port s |}.

(** src/src/cluster/discovery.rs:106-126 (static_fallback) *)
Definition static_fallback (failure : BonjourFailure) (port : Z) (route_scoped : bool)
    : method DiscoveryTracker CandidateError bool :=
  require (allows_static_fallback failure) CandidateError.StaticFallbackNotAllowed;;
  require (negb (port =? 0)) CandidateError.InvalidPort;;
  require route_scoped CandidateError.RouteNotScoped;;
  t ← self;
  add_candidate {| source := CandidateSource.StaticFallback;
                   candidate_addr := input_peer_address (input t); candidate_port := port |}.

(** ** DNS-SD *)

Module BonjourPlatformEvent.

(** src/src/cluster/platform/bonjour.rs:110-146 (BonjourPlatformEvent) *)
Inductive BonjourPlatformEvent :=
| Registered (generation : Z)
| ServiceAdded (generation interface_index : Z) (name service_type domain : bytes)
| ServiceRemoved (generation interface_index : Z) (name : bytes)
| ServiceResolved (generation interface_index : Z) (host_target : bytes) (port : Z)
    (protocol_version : option Z) (node_id : option bytes)
| AddressResolved (generation interface_index : Z) (hostname : bytes) (address : Z)
    (added : bool)
| Failed (generation : Z) (failure : BonjourFailure).

End BonjourPlatformEvent.
Notation BonjourPlatformEvent := BonjourPlatformEvent.BonjourPlatformEvent.

(** src/src/cluster/platform/bonjour.rs:556-563 (map_failure) *)
Definition map_failure (error : Z) : BonjourFailure :=
  if error =? -65563 then BonjourFailure.DaemonUnavailable
  else if error =? -65570 then BonjourFailure.PolicyDenied
  else if error =? -65571 then BonjourFailure.NotPermitted
  else BonjourFailure.Other error.

(** One item of a TXT record: its length in a byte and its text; [None] is the error "TXT
    item too long". *)
Definition txt_item (item : bytes) : option bytes :=
  if length item <=? u8_max then Some (Z.of_nat (length item) :: item) else None.

(** src/src/cluster/platform/bonjour.rs:500-510 (txt_record) *)
Definition txt_record (protocol : Z) (node_id : bytes) : option bytes :=
  a ← txt_item (str "protocol=" ++ u64_to_string protocol);
  b ← txt_item (str "node_id=" ++ node_id);
  Some (a ++ b).

(** [FromStr for u16]. *)
Definition parse_u16 (l : bytes) : option Z :=
  v ← parse_u64 l; if v <=? u16_max then Some v else None.

(** [std::str::from_utf8(..).ok()]. *)
Definition from_utf8 (l : bytes) : option bytes := if utf8_valid l then Some l else None.

(** What one item sets. *)
Definition txt_assign (item : bytes) (acc : option Z * option bytes)
    : option Z * option bytes :=
  match strip_prefix (str "protocol=") item with
  | Some value => (from_utf8 value ≫= parse_u16, snd acc)
  | None =>
      match strip_prefix (str "node_id=") item with
      | Some value => (fst acc, from_utf8 value)
      | None => acc
      end
  end.

(** The loop of the parser; every turn consumes at least the length byte, so the length of
    the record is enough fuel. *)
Fixpoint parse_txt_loop (fuel : nat) (remaining : bytes) (acc : option Z * option bytes)
    : option Z * option bytes :=
  match fuel, remaining with
  | S fuel, length_ :: tail =>
      let n := Z.to_nat length_ in
      if (length tail <? n)%nat then acc
      else parse_txt_loop fuel (drop n tail) (txt_assign (take n tail) acc)
  | _, _ => acc
  end.

(** src/src/cluster/platform/bonjour.rs:512-530 (parse_txt_record) *)
Definition parse_txt_record (record : bytes) : option Z * option bytes :=
  parse_txt_loop (length record) record (None, None).

Definition c_str_lossy (value : option bytes) : bytes := default [] value.

(** [flags & FLAG_ADD != 0]. *)
Definition flag_add (flags : Z) : bool := Z.testbit flags 1.

(** src/src/cluster/platform/bonjour.rs:362-384 (register_callback) *)
Definition register_callback (generation error : Z) : BonjourPlatformEvent :=
  if error =? 0 then BonjourPlatformEvent.Registered generation
  else BonjourPlatformEvent.Failed generation (map_failure error).

(** src/src/cluster/platform/bonjour.rs:386-419 (browse_callback) *)
Definition browse_callback (generation flags interface_index error : Z)
    (name service_type domain : option bytes) : BonjourPlatformEvent :=
  if negb (error =? 0) then BonjourPlatformEvent.Failed generation (map_failure error)
  else if flag_add flags
  then BonjourPlatformEvent.ServiceAdded generation interface_index (c_str_lossy name)
         (c_str_lossy service_type) (c_str_lossy domain)
  else BonjourPlatformEvent.ServiceRemoved generation interface_index (c_str_lossy name).

(** [txt] is the buffer of [txt_len] bytes, [None] when the pointer is null.
    src/src/cluster/platform/bonjour.rs:421-462 (resolve_callback) *)
Definition resolve_callback (generation interface_index error : Z) (host_target : option bytes)
    (port txt_len : Z) (txt : option bytes) : option BonjourPlatformEvent :=
  if negb (error =? 0) then Some (BonjourPlatformEvent.Failed generation (map_failure error))
  else
    txt ← if txt_len =? 0 then Some [] else txt;
    let '(protocol_version, node_id) := parse_txt_record txt in
    Some (BonjourPlatformEvent.ServiceResolved generation interface_index
            (c_str_lossy host_target) (swap16 port) protocol_version node_id).

(** A [sockaddr]: its family and, for [AF_INET] (2), the four bytes of the address.
    src/src/cluster/platform/bonjour.rs:532-544 (ipv4_from_sockaddr) *)
Definition ipv4_from_sockaddr (address : option (Z * bytes)) : option Z :=
  '(family, octets) ← address;
  if family =? 2 then Some (from_be_bytes octets) else None.

(** src/src/cluster/platform/bonjour.rs:464-494 (addr_info_callback) *)
Definition addr_info_callback (generation flags interface_index error : Z)
    (hostname : option bytes) (address : option (Z * bytes)) : option BonjourPlatformEvent :=
  if negb (error =? 0) then Some (BonjourPlatformEvent.Failed generation (map_failure error))
  else
    a ← ipv4_from_sockaddr address;
    Some (BonjourPlatformEvent.AddressResolved generation interface_index
            (c_str_lossy hostname) a (flag_add flags)).

(** ** What the tracker accepts *)

Inductive discovery_op :=
| Resolved (s : ResolvedBonjourService)
| Fallback (failure : BonjourFailure) (port : Z) (route_scoped : bool).

Definition discovery_step (t : DiscoveryTracker) (op : discovery_op) : DiscoveryTracker :=
  match op with
  | Resolved s => snd (accept_bonjour s t)
  | Fallback f p r => snd (static_fallback f p r t)
  end.

(** The candidate an operation offers to a tracker with this input. *)
Definition offers (i : DiscoveryInput) (op : discovery_op) (c : DiscoveryCandidate) : Prop :=
  match op with
  | Resolved s =>
      generation s = input_generation i ∧ node_id s ≠ local_node_id i
      ∧ service_address s ≠ input_local_address i
      ∧ interface_index s = expected_interface_index i ∧ protocol_version s = 1
      ∧ port s ≠ 0 ∧ input_prefix i ≤ 32
      ∧ same_network (input_local_address i) (service_address s) (input_prefix i) = true
      ∧ service_address s = input_peer_address i ∧ service_route_scoped s = true
      ∧ c = {| source := CandidateSource.Bonjour; candidate_addr := input_peer_address i;
               candidate_port := port s |}
  | Fallback f p r =>
      (∀ code, f ≠ BonjourFailure.Other code) ∧ p ≠ 0 ∧ r = true
      ∧ c = {| source := CandidateSource.StaticFallback;
               candidate_addr := input_peer_address i; candidate_port := p |}
  end.

Definition candidate_lt (a b : DiscoveryCandidate) : Prop := candidate_ltb a b = true.

Lemma candidate_lt_trans a b c : candidate_lt a b → candidate_lt b c → candidate_lt a c.
Proof.
  unfold candidate_lt, candidate_ltb. rewrite !orb_true_iff, !andb_true_iff, !orb_true_iff,
    !andb_true_iff, !Z.ltb_lt, !Z.eqb_eq. lia.
Qed.

Lemma candidate_lt_total a b : a ≠ b → candidate_ltb a b = false → candidate_lt b a.
Proof.
  unfold candidate_lt, candidate_ltb. intros Hne.
  rewrite orb_false_iff, andb_false_iff, orb_false_iff, andb_false_iff, !Z.ltb_ge, !Z.eqb_neq.
  rewrite !orb_true_iff, !andb_true_iff, !orb_true_iff, !andb_true_iff, !Z.ltb_lt, !Z.eqb_eq.
  destruct a as [[] a1 a2], b as [[] b1 b2]; simpl; intros H; try lia;
    assert (a1 ≠ b1 ∨ a2 ≠ b2) by (destruct (decide (a1 = b1)); [right|by left]; congruence); lia.
Qed.

Lemma set_insert_elem c l d : d ∈ snd (set_insert c l) ↔ d = c ∨ d ∈ l.
Proof.
  induction l as [|e l IH]; simpl; [rewrite list_elem_of_singleton; set_solver|].
  case_bool_decide; [subst; set_solver|]. destruct (candidate_ltb c e); [set_solver|].
  destruct (set_insert c l) as [b l']. simpl in *. rewrite !elem_of_cons, IH. naive_solver.
Qed.

Lemma set_insert_sorted c l :
  StronglySorted candidate_lt l → StronglySorted candidate_lt (snd (set_insert c l)).
Proof.
  induction 1 as [|e l Hl IH He]; simpl; [by repeat constructor|].
  case_bool_decide; [by constructor|]. destruct (candidate_ltb c e) eqn:E.
  - constructor; [by constructor|]. constructor; [done|].
    eapply Forall_impl; [done|]. intros d. by apply candidate_lt_trans.
  - pose proof (set_insert_elem c l) as Hel. destruct (set_insert c l) as [b l']. simpl in *.
    constructor; [done|]. apply Forall_forall. intros d [->|Hd]%Hel.
    + by apply candidate_lt_total.
    + by eapply Forall_forall in He.
Qed.

Lemma require_snd {S E A} (b : bool) (e : E) (k : method S E A) s :
  snd ((require b e ;; k) s) = if b then snd (k s) else s.
Proof. by destruct b. Qed.

Lemma self_snd {S E A} (k : S → method S E A) s : snd ((self ≫= k) s) = snd (k s s).
Proof. done. Qed.

(** A step either offers a candidate, which is inserted, or changes nothing. *)
Lemma discovery_step_spec t op :
  (∃ c, offers (input t) op c
    ∧ discovery_step t op
      = {| input := input t; candidates := snd (set_insert c (candidates t)) |})
  ∨ ((∀ c, ¬ offers (input t) op c) ∧ discovery_step t op = t).
Proof.
  destruct op as [s|f p r]; simpl.
  - unfold accept_bonjour, same_subnet, offers. rewrite self_snd, !require_snd.
    destruct (Z.eqb_spec (generation s) (input_generation (input t))); [|naive_solver].
    destruct (bool_decide_reflect (node_id s = local_node_id (input t))); [naive_solver|].
    destruct (Z.eqb_spec (service_address s) (input_local_address (input t)));
      [naive_solver|]. simpl.
    destruct (Z.eqb_spec (interface_index s) (expected_interface_index (input t)));
      [|naive_solver].
    destruct (Z.eqb_spec (protocol_version s) 1); [|naive_solver].
    destruct (Z.eqb_spec (port s) 0); [naive_solver|]. simpl.
    destruct (Z.ltb_spec 32 (input_prefix (input t))); [right; split; [|done]; intros c; lia|].
    destruct (same_network _ _ _) eqn:?; [|naive_solver].
    destruct (Z.eqb_spec (service_address s) (input_peer_address (input t))) as [E|];
      [|naive_solver].
    destruct (service_route_scoped s); [|naive_solver].
    left. eexists. split; [by split_and!|]. unfold add_candidate. rewrite E.
    by destruct (set_insert _ _).
  - unfold static_fallback, offers. rewrite !require_snd.
    destruct (Z.eqb_spec p 0); [destruct f; simpl; naive_solver|].
    destruct r; [|destruct f; simpl; naive_solver].
    destruct f; simpl; [left..|right; naive_solver];
      (eexists; split; [by split_and!|]); rewrite self_snd; unfold add_candidate;
      by destruct (set_insert _ _).
Qed.

(** After any sequence of resolved services and Bonjour failures the candidates are
    exactly those the input admits: each is the configured peer address, with a port that
    is not zero, from a service of the current generation on the expected interface that is
    not the node itself, or from the static fallback after a permitted failure; every such
    offer is kept, once, in order. *)
Lemma candidates_exact i ops :
  let t := foldl discovery_step (tracker_new i) ops in
  (∀ c, c ∈ candidates t ↔ ∃ op, op ∈ ops ∧ offers i op c)
  ∧ StronglySorted candidate_lt (candidates t)
  ∧ ∀ c, c ∈ candidates t → candidate_addr c = input_peer_address i ∧ candidate_port c ≠ 0.
Proof.
  assert (∀ t, input t = i → StronglySorted candidate_lt (candidates t) →
    let t' := foldl discovery_step t ops in
    StronglySorted candidate_lt (candidates t') ∧
    ∀ c, c ∈ candidates t' ↔ c ∈ candidates t ∨ ∃ op, op ∈ ops ∧ offers i op c) as Hall.
  { induction ops as [|op ops IH]; intros t Hi Hs; simpl.
    - split; [done|]. intros c. setoid_rewrite elem_of_nil. naive_solver.
    - assert (input (discovery_step t op) = i
        ∧ StronglySorted candidate_lt (candidates (discovery_step t op))
        ∧ ∀ c, c ∈ candidates (discovery_step t op) ↔ c ∈ candidates t ∨ offers i op c)
        as (Hi' & Hs' & Hc').
      { subst i. destruct (discovery_step_spec t op) as [(c & Hc & ->)|[Hno ->]]; simpl.
        - split_and!; [done|by apply set_insert_sorted|]. intros d. rewrite set_insert_elem.
          destruct op; simpl in *; naive_solver.
        - naive_solver. }
      destruct (IH _ Hi' Hs') as [Hs2 Hc2]. split; [done|]. intros c. rewrite Hc2, Hc'.
      setoid_rewrite elem_of_cons. naive_solver. }
  destruct (Hall (tracker_new i) eq_refl) as [Hs Hc]; [constructor|].
  simpl in Hc. setoid_rewrite elem_of_nil in Hc.
  split_and!; [naive_solver|done|]. intros c [[]|(op & _ & Ho)]%Hc.
  destruct op; simpl in Ho; naive_solver.
Qed.

(** ** A published service *)

Lemma swap16_involutive p : is_u16 p → swap16 (swap16 p) = p.
Proof. unfold is_u16, u16_max, swap16. intros. Z.div_mod_to_equations. lia. Qed.

Lemma parse_u16_to_string p : is_u16 p → parse_u16 (u64_to_string p) = Some p.
Proof.
  intros Hp. unfold parse_u16. rewrite parse_u64_to_string.
  - simpl. destruct (Z.leb_spec p u16_max); [done|]. unfold is_u16 in Hp. lia.
  - unfold is_u16, is_u64, u16_max, u64_max in *. lia.
Qed.

Lemma digits_utf8_valid l : forallb is_ascii_digit l = true → utf8_valid l = true.
Proof.
  induction l as [|b l IH]; simpl; [done|]. intros [Hb Hl]%andb_true_iff.
  unfold is_ascii_digit in Hb. bool_to_prop. rewrite (proj2 (Z.ltb_lt _ _)) by lia. auto.
Qed.

Lemma parse_txt_item fuel item rest acc a :
  txt_item item = Some a →
  parse_txt_loop (S fuel) (a ++ rest) acc = parse_txt_loop fuel rest (txt_assign item acc).
Proof.
  unfold txt_item. destruct (_ <=? _); intros [= <-]. simpl.
  rewrite Nat2Z.id, length_app, (proj2 (Nat.ltb_ge _ _)) by lia.
  by rewrite drop_app_length, take_app_length.
Qed.

Lemma txt_item_some item a : txt_item item = Some a → a = Z.of_nat (length item) :: item.
Proof. unfold txt_item. destruct (_ <=? _); naive_solver. Qed.

Lemma txt_record_roundtrip protocol id record :
  is_u16 protocol → utf8_valid id = true → txt_record protocol id = Some record →
  parse_txt_record record = (Some protocol, Some id).
Proof.
  intros Hp Hid Hr. unfold txt_record in Hr.
  apply bind_Some in Hr as (a & Ha & (b & Hb & [= <-])%bind_Some).
  unfold parse_txt_record.
  assert (∃ n, length (a ++ b) = S (S (S n))) as [n ->].
  { rewrite (txt_item_some _ _ Ha), (txt_item_some _ _ Hb). simpl. by eexists. }
  rewrite (parse_txt_item _ _ _ _ _ Ha). rewrite <- (app_nil_r b).
  rewrite (parse_txt_item _ _ _ _ _ Hb). unfold txt_assign.
  rewrite (proj2 (strip_prefix_spec _ _ (u64_to_string protocol)) eq_refl).
  assert (strip_prefix (str "protocol=") (str "node_id=" ++ id) = None) as -> by done.
  rewrite (proj2 (strip_prefix_spec _ _ id) eq_refl). simpl. unfold from_utf8.
  rewrite Hid, digits_utf8_valid; [simpl; by rewrite parse_u16_to_string|].
  apply u64_to_string_spec. unfold is_u16, is_u64, u16_max, u64_max in *. lia.
Qed.

(** A node id fits into the record exactly when it has at most 247 bytes. *)
Lemma txt_record_some id : is_Some (txt_record 1 id) ↔ length id ≤ 247.
Proof.
  assert (txt_record 1 id = b ← txt_item (str "node_id=" ++ id);
          Some (10 :: str "protocol=1" ++ b)) as -> by done.
  unfold txt_item. rewrite length_app, Nat2Z.inj_add.
  change (Z.of_nat (length (str "node_id="))) with 8. unfold u8_max.
  destruct (Z.leb_spec (8 + length id) 255); simpl; split; intros; try lia; [done|].
  by destruct H0.
Qed.

(** What one node registers is what the other resolves: a registration is made exactly
    for a nonzero interface and port, its record is written exactly for node ids of at most
    247 bytes, and the callback that reads port and record back reports the port, protocol
    version 1 and the node id of the registration. *)
Lemma published_service_resolves g i ty d p id host g' i' :
  is_u16 p → utf8_valid id = true →
  (is_Some (registration_new g i ty d p id) ↔ i ≠ 0 ∧ p ≠ 0)
  ∧ (is_Some (txt_record 1 id) ↔ length id ≤ 247)
  ∧ ∀ r record, registration_new g i ty d p id = Some r →
    txt_record (reg_protocol_version r) (reg_node_id r) = Some record →
    resolve_callback g' i' 0 host (port_network_order r) (length record) (Some record)
    = Some (BonjourPlatformEvent.ServiceResolved g' i' (c_str_lossy host) p (Some 1) (Some id)).
Proof.
  intros Hp Hid. split_and!; [|by apply txt_record_some|].
  - unfold registration_new. destruct (Z.eqb_spec i 0), (Z.eqb_spec p 0); simpl;
      (split; [intros [? ?]|intros [? ?]]); try done; by eexists.
  - intros r record Hr Ht. unfold registration_new in Hr.
    destruct (_ && _); [|done]. injection Hr as <-. simpl in *. unfold resolve_callback.
    assert (length record ≠ 0%nat) as Hl.
    { intros Hl%nil_length_inv. subst. unfold txt_record in Ht.
      apply bind_Some in Ht as (a & Ha%txt_item_some & (b & _ & [= E])%bind_Some).
      by rewrite Ha in E. }
    destruct (Z.eqb_spec (length record) 0); [lia|].
    simpl. rewrite (txt_record_roundtrip 1 id) by (done || unfold is_u16, u16_max; lia).
    by rewrite swap16_involutive.
Qed.

Section discovery_witnesses.

Lemma published_service_resolves_witness :
  ∃ r record, registration_new 9 13 (str "_ds4cluster._tcp") (str "local.") 9920 (str "node-a")
              = Some r
  ∧ txt_record (reg_protocol_version r) (reg_node_id r) = Some record
  ∧ resolve_callback 9 13 0 (Some (str "host.")) (port_network_order r) (length record)
      (Some record)
    = Some (BonjourPlatformEvent.ServiceResolved 9 13 (str "host.") 9920 (Some 1)
              (Some (str "node-a"))).
Proof.
  eexists _, _. split; [reflexivity|]. split; [vm_compute; reflexivity|].
  eapply (published_service_resolves 9 13 (str "_ds4cluster._tcp") (str "local.") 9920
    (str "node-a") (Some (str "host.")) 9 13); [by vm_compute|reflexivity|reflexivity|].
  vm_compute. reflexivity.
Defined.
End discovery_witnesses.
