(* ===== verification/Effects.v ===== *)
(** * The control handler and its effects: [src/src/cluster/production/effects.rs], [worker.rs]

    What a node does with a control request: authentication, the planned-restart check,
    the control role, and then the effect of the command, awaited before the answer or
    spawned.  An effect is a task of its own, so between the two halves any other request,
    effect or reconciliation may run: [pending] holds the effects not yet run.  The
    [World] of [Runtime] keeps the children and the route; the control state and the
    planned-restart gate are those of [ControlRoles] and [RestartGate].  JSON is the
    interface [MessageDecoder]. *)

From S2P Require Import Prelude Bytes Target Operation Tp Auth Control ControlRoles Hello.
From S2P Require Import Admission ClusterFsm Promotion Runtime Production.
From S2P Require RestartGate.

(** [serde_json::from_slice] of a control message. *)
Class MessageDecoder := decode_message : bytes → option ControlMessage.

(** ** State *)

(** src/src/cluster/production.rs:296-299 (RoleControl) *)
Inductive RoleControl :=
| CoordinatorRole (c : CoordinatorControl)
| WorkerRole (w : WorkerControl).

(** A task that was spawned and has not run yet. *)
Inductive Effect :=
| CommandEffect (c : ControlCommand)
| MismatchRecovery.

(** [expires_at] is the [LeaseStatus] of the runtime. *)
Record ControlNode := mkControlNode {
  world : World;
  control : RoleControl;
  restart : Z;
  expires_at : Z;
  authenticator : ControlAuthenticator;
  pending : list Effect;
}.

Definition set_world (w : World) (n : ControlNode) : ControlNode :=
  mkControlNode w (control n) (restart n) (expires_at n) (authenticator n) (pending n).
Definition set_control (c : RoleControl) (n : ControlNode) : ControlNode :=
  mkControlNode (world n) c (restart n) (expires_at n) (authenticator n) (pending n).
Definition set_restart (v : Z) (n : ControlNode) : ControlNode :=
  mkControlNode (world n) (control n) v (expires_at n) (authenticator n) (pending n).
Definition set_expires_at (v : Z) (n : ControlNode) : ControlNode :=
  mkControlNode (world n) (control n) (restart n) v (authenticator n) (pending n).
Definition set_authenticator (a : ControlAuthenticator) (n : ControlNode) : ControlNode :=
  mkControlNode (world n) (control n) (restart n) (expires_at n) a (pending n).
Definition set_pending (l : list Effect) (n : ControlNode) : ControlNode :=
  mkControlNode (world n) (control n) (restart n) (expires_at n) (authenticator n) l.

(** src/src/cluster/production.rs:1904-1912 (ControlHttpError) *)
Inductive ControlHttpError :=
| HttpAuth (e : AuthError)
| HttpControl (e : ControlError)
| HttpEffect
| MissingHeader
| BadJson.

(** [anyhow::Error] of an effect, by where it comes from. *)
Inductive EffectError :=
| WorkerLifecycle (e : WorkerLifecycleError)
| Lost (e : ProductionError)
| EventRefused (e : TransitionError)
| RoleRefused (e : ControlError)
| WorkerUnavailable
| NotPaired
| SendFailed
| CannotStop (st : ClusterState)
| GatePanicked.

Notation node_method A := (method ControlNode EffectError A).
Notation http_method A := (method ControlNode ControlHttpError A).

Definition is_worker (n : ControlNode) : bool :=
  match control n with WorkerRole _ => true | CoordinatorRole _ => false end.

Definition with_restart (b : bool) (w : World) : World :=
  mkWorld (cluster w) (gate w) (proxy_target w) (failures w) (completed_generation w)
    (automatic_pairing_blocked w) b (calls w).

(** The world of the node with the planned restart as its gate has it. *)
Definition node_world (n : ControlNode) : World :=
  with_restart (RestartGate.active (restart n)) (world n).

Definition on_world {E F A} (inj : E → F) (m : method World E A) : method ControlNode F A :=
  fun n => let '(r, w) := m (node_world n) in (map_err inj r, set_world w n).

(** A method of the worker's control; [e] when the node is a coordinator. *)
Definition on_worker {F A} (e : F) (inj : ControlError → F)
    (m : method WorkerControl ControlError A) : method ControlNode F A := fun n =>
  match control n with
  | WorkerRole w => let '(r, w) := m w in (map_err inj r, set_control (WorkerRole w) n)
  | CoordinatorRole _ => (Err e, n)
  end.

(** A compare-and-exchange loop of the gate, run at once. *)
Definition on_gate {A} (p : Z → RestartGate.plan A) : node_method A := fun n =>
  match p (restart n) with
  | RestartGate.Return a => (Ok a, n)
  | RestartGate.Exchange v a => (Ok a, set_restart v n)
  | RestartGate.Unreachable => (Err GatePanicked, n)
  end.

(** src/src/cluster/production.rs:285-289 (LeaseStatus::update) *)
Definition lease_update (r : ControlResponse) (n : ControlNode) : ControlNode :=
  match lease_expires_at_millis r with Some v => set_expires_at v n | None => n end.

(** src/src/cluster/production.rs:291-293 (LeaseStatus::valid) *)
Definition lease_valid (now : Z) (n : ControlNode) : bool := now <? expires_at n.

(** ** Recovery with its control phase *)

(** Whether a recovery gets to the point where it resets the control phase. *)
Definition reaches_reset (event : ClusterEventKind) (w : World) : bool :=
  let s := cluster w in
  negb (planned_restart_active w)
  && negb (bool_decide (state s = ClusterState.SoloStandaloneReady))
  && negb (generation s <=? completed_generation w)
  && (bool_decide (state s = ClusterState.SoloStandaloneStarting)
      || is_ok (transition s (ClusterEvent_new (generation s) event))).

Definition reset_for_repair (now : Z) (c : RoleControl) : RoleControl :=
  match c with
  | CoordinatorRole c => CoordinatorRole (coordinator_reset_for_repair now c)
  | WorkerRole w => WorkerRole (worker_reset_for_repair now w)
  end.

(** The recovery of [Production] and the reset of the phase in its middle, which touches
    no field of the [World].
    src/src/cluster/production/recovery.rs:83-221 (recover_to_solo) *)
Definition node_recover (event : ClusterEventKind) (now : Z) `{Environment}
    : node_method ClusterSnapshot := fun n =>
  let n' := if reaches_reset event (node_world n)
            then set_control (reset_for_repair now (control n)) n else n in
  on_world Lost (recover_to_solo event) n'.

Section effects.
Context `{env : Environment} {decoder : MessageDecoder} {crypto : Crypto} (policy : PolicyState).

Notation step := (apply EventRefused).
Notation send := (on_world id (perform SendControl SendFailed)).

(** src/src/cluster/production/recovery.rs:55-67 (recover_from_peer_loss) *)
Definition node_peer_loss (now : Z) : node_method unit :=
  n ← self;
  if RestartGate.active (restart n) then mret tt
  else node_recover ClusterEventKind.PeerLost now;; mret tt.

(** src/src/cluster/production/recovery.rs:71-81 (recover_from_deployment_mismatch) *)
Definition node_deployment_mismatch (now : Z) : node_method unit :=
  on_world id (modify (with_pairing_blocked true));;
  node_recover ClusterEventKind.DeploymentMismatch now;; mret tt.

(** src/src/cluster/production/reconcile.rs:61-126 (reconcile_peer) *)
Definition node_reconcile_peer (now : Z) : node_method unit :=
  n ← self;
  if RestartGate.active (restart n) then mret tt
  else
    peer_present ← on_world id peer_is_present;
    if negb peer_present && requires_solo_fallback (state (cluster (world n)))
    then node_peer_loss now
    else on_world Lost (reconcile_present policy (world n));; mret tt.

(** The wait for a stable peer between the two is time only; [reply] is the answer to the
    reciprocal pairing.
    src/src/cluster/production/effects.rs:235-265 (complete_pair_effect) *)
Definition complete_pair_effect (now : Z) (reply : ControlResponse) (planned_completion : bool)
    : node_method unit :=
  r ← attempt (
    n ← self;
    (if is_worker n then send;; modify (lease_update reply) else mret tt);;
    modify (set_restart (RestartGate.cancel (restart n)));;
    node_reconcile_peer now);
  (if negb (is_ok r) && planned_completion
   then modify (fun n => set_restart (RestartGate.retry_pair_after_failure (restart n)) n)
   else mret tt);;
  lift r.

(** The part of the preparation on the children and the state machine; the generation of
    the child.
    src/src/cluster/production/worker.rs:25-79 (prepare_worker) *)
Definition begin_worker : method World EffectError Z :=
  current ← get cluster;
  require (bool_decide (state current = ClusterState.PairedStandaloneReady)) NotPaired;;
  awaiting ← step (generation current) ClusterEventKind.BeginPromotion;
  map_error WorkerLifecycle (prepare (generation awaiting));;
  promoting ← step (generation awaiting) ClusterEventKind.WorkerHelloAccepted;
  starting ← step (generation promoting) ClusterEventKind.DistributedChildStarted;
  ready ← step (generation starting) ClusterEventKind.DistributedRouteReady;
  set_target (target ready) true;;
  mret (generation awaiting).

(** src/src/cluster/production/worker.rs:19-94 (prepare_worker) *)
Definition prepare_worker (rid : bytes) : node_method unit :=
  n ← self;
  require (is_worker n) WorkerUnavailable;;
  g ← on_world id begin_worker;
  on_worker WorkerUnavailable RoleRefused (worker_ready_message rid g);;
  send.

(** src/src/cluster/production/worker.rs:96-109 (worker_drained) *)
Definition worker_drained (rid : bytes) : node_method unit :=
  on_worker WorkerUnavailable RoleRefused (drained_message rid);;
  send.

(** The way back to a paired standalone from the state the worker was in.
    src/src/cluster/production/worker.rs:115-169 (stop_worker) *)
Definition leave_distributed (current : ClusterSnapshot) : method World EffectError ClusterSnapshot :=
  match state current with
  | ClusterState.DistributedReady =>
      demoting ← step (generation current) ClusterEventKind.BeginDemotion;
      step (generation demoting) ClusterEventKind.PairingReady
  | ClusterState.AwaitingWorkerHello | ClusterState.Promoting
  | ClusterState.DistributedStarting =>
      step (generation current) ClusterEventKind.PromotionFailed
  | ClusterState.PairedStandaloneReady => mret current
  | st => fail (CannotStop st)
  end.

(** The part of the stop on the children, the state machine and the route.
    src/src/cluster/production/worker.rs:113-171 (stop_worker) *)
Definition end_worker : method World EffectError unit :=
  current ← get cluster;
  map_error WorkerLifecycle cancel;;
  paired ← leave_distributed current;
  set_target (target paired) true;;
  gate_start_serving.

(** src/src/cluster/production/worker.rs:111-180 (stop_worker) *)
Definition stop_worker (now : Z) (reply : ControlResponse) : node_method unit :=
  n ← self;
  if negb (is_worker n) then mret tt
  else
    on_world id end_worker;;
    completes ← on_gate RestartGate.note_child_stopped;
    if (completes : bool) then complete_pair_effect now reply true else mret tt.

(** src/src/cluster/production/effects.rs:202-233 (apply_effect) *)
Definition apply_effect (rid : bytes) (now : Z) (reply : ControlResponse) (c : ControlCommand)
    : node_method unit :=
  match c with
  | ControlCommand.Pair _ =>
      n ← self;
      if is_worker n then
        action ← on_gate RestartGate.pair_action;
        match (action : RestartGate.PlannedRestartPairAction) with
        | RestartGate.PlannedRestartPairAction.Defer
        | RestartGate.PlannedRestartPairAction.AlreadyCompleting => mret tt
        | RestartGate.PlannedRestartPairAction.Run => complete_pair_effect now reply false
        | RestartGate.PlannedRestartPairAction.RunAfterChildStop =>
            complete_pair_effect now reply true
        end
      else complete_pair_effect now reply false
  | ControlCommand.PrepareWorker => prepare_worker rid
  | ControlCommand.BeginDrain => worker_drained rid
  | ControlCommand.CancelGeneration | ControlCommand.Demote => stop_worker now reply
  | ControlCommand.WorkerEvent WorkerEventKind.Exited =>
      n ← self;
      if is_worker n then mret tt else node_peer_loss now
  | ControlCommand.DistributedReady => on_world id gate_start_serving
  | ControlCommand.PrepareRestart =>
      modify (fun n => set_restart (RestartGate.begin (restart n)) n)
  | ControlCommand.CancelRestart =>
      modify (fun n => set_restart (RestartGate.cancel (restart n)) n)
  | ControlCommand.Drained | ControlCommand.WorkerEvent _ => mret tt
  end.

Definition run_effect (rid : bytes) (now : Z) (reply : ControlResponse) (e : Effect)
    : node_method unit :=
  match e with
  | CommandEffect c => apply_effect rid now reply c
  | MismatchRecovery => node_deployment_mismatch now
  end.

(** ** The handler *)

(** src/src/cluster/production.rs:1993-2007 (effect_requires_ack) *)
Definition effect_requires_ack (c : ControlCommand) : bool :=
  match c with
  | ControlCommand.Pair _ | ControlCommand.PrepareWorker | ControlCommand.CancelGeneration
  | ControlCommand.DistributedReady | ControlCommand.Demote | ControlCommand.PrepareRestart
  | ControlCommand.CancelRestart | ControlCommand.WorkerEvent WorkerEventKind.Exited => true
  | _ => false
  end.

(** src/src/cluster/production.rs:2013-2016 (effect_requires_ack_for_runtime) *)
Definition effect_requires_ack_for_runtime (c : ControlCommand) (planned_restart : bool) : bool :=
  effect_requires_ack c
  && negb (planned_restart && bool_decide (c = ControlCommand.Demote)).

(** src/src/cluster/production.rs:2082-2096 (endpoint_path) *)
Definition endpoint_path (e : ControlEndpoint) : bytes :=
  str match e with
      | ControlEndpoint.Node => "/v1/node"
      | ControlEndpoint.Pair => "/v1/pair"
      | ControlEndpoint.PrepareWorker => "/v1/prepare-worker"
      | ControlEndpoint.BeginDrain => "/v1/begin-drain"
      | ControlEndpoint.Drained => "/v1/drained"
      | ControlEndpoint.CancelGeneration => "/v1/cancel-generation"
      | ControlEndpoint.WorkerEvent => "/v1/worker-event"
      | ControlEndpoint.DistributedReady => "/v1/distributed-ready"
      | ControlEndpoint.Demote => "/v1/demote"
      | ControlEndpoint.PrepareRestart => "/v1/prepare-restart"
      | ControlEndpoint.CancelRestart => "/v1/cancel-restart"
      end.

(** The four headers as the request has them, [None] when one is missing or no text. *)
Record RequestHeaders := mkRequestHeaders {
  h_node : option bytes;
  h_timestamp : option bytes;
  h_nonce : option bytes;
  h_signature : option bytes;
}.

Definition verify_signed (method path body : bytes) (source : IpAddr)
    (signed : SignedControlHeaders) (now : Z) : http_method AuthenticatedPeer := fun n =>
  let '(r, a) := verify (authenticator n) method path body source signed now in
  (map_err HttpAuth r, set_authenticator a n).

(** src/src/cluster/production/effects.rs:15-37 (authenticate) *)
Definition authenticate (method path body : bytes) (source : IpAddr) (h : RequestHeaders)
    (now : Z) : http_method AuthenticatedPeer :=
  node ← lift (ok_or (h_node h) MissingHeader);
  ts ← lift (ok_or (h_timestamp h) MissingHeader);
  nonce ← lift (ok_or (h_nonce h) MissingHeader);
  sig ← lift (ok_or (h_signature h) MissingHeader);
  signed ← lift (map_err HttpAuth (from_header_values node ts nonce sig));
  verify_signed method path body source signed now.

(** src/src/cluster/production/effects.rs:171-191 (refresh_control_response) *)
Definition node_descriptor (a : AuthenticatedPeer) (scoped : bool) (now : Z)
    : http_method ControlResponse := fun n =>
  match control n with
  | CoordinatorRole c =>
      let '(r, c) := coordinator_node_descriptor a scoped now c in
      (map_err HttpControl r, set_control (CoordinatorRole c) n)
  | WorkerRole w =>
      let '(r, w) := worker_node_descriptor a scoped now w in
      (map_err HttpControl r, set_control (WorkerRole w) n)
  end.

(** The role's answer; a deployment mismatch closes the pairing gate and spawns the
    recovery.
    src/src/cluster/production/effects.rs:102-143 (handle) *)
Definition role_handle (endpoint : ControlEndpoint) (m : ControlMessage) (a : AuthenticatedPeer)
    (scoped : bool) (now : Z) : http_method ControlResponse := fun n =>
  let '(r, c) :=
    match control n with
    | CoordinatorRole c =>
        let '(r, c) := coordinator_handle endpoint m a scoped now c in (r, CoordinatorRole c)
    | WorkerRole w =>
        let '(r, w) := worker_handle endpoint m a scoped now w in (r, WorkerRole w)
    end in
  let n := set_control c n in
  match r with
  | Ok response => (Ok response, n)
  | Err ControlError.DeploymentMismatch =>
      (Err (HttpControl ControlError.DeploymentMismatch),
       set_pending (pending n ++ [MismatchRecovery])
         (set_world (with_pairing_blocked true (world n)) n))
  | Err e => (Err (HttpControl e), n)
  end.

(** The handler up to the effect of a command that is not a descriptor request.
    src/src/cluster/production/effects.rs:86-143 (handle) *)
Definition receive (endpoint : ControlEndpoint) (m : ControlMessage) (a : AuthenticatedPeer)
    (scoped : bool) (now : Z) : http_method ControlResponse :=
  n ← self;
  require (negb (is_worker n && bool_decide (command m = ControlCommand.PrepareWorker)
                 && RestartGate.blocks_worker_prepare (restart n)))
    (HttpControl ControlError.PlannedRestartInProgress);;
  role_handle endpoint m a scoped now.

(** The whole request; [now], [later] are the readings of the clock before and after the
    effect, [scoped] is the network evidence of [Network].
    src/src/cluster/production/effects.rs:55-169 (handle) *)
Definition handle (endpoint : ControlEndpoint) (method body : bytes) (source : IpAddr)
    (h : RequestHeaders) (scoped : bool) (now later : Z) (rid : bytes) (reply : ControlResponse)
    : http_method ControlResponse :=
  a ← authenticate method (endpoint_path endpoint) body source h now;
  if bool_decide (endpoint = ControlEndpoint.Node) then node_descriptor a scoped now
  else
    m ← lift (ok_or (decode_message body) BadJson);
    response ← receive endpoint m a scoped now;
    n ← self;
    response ← (
      if effect_requires_ack_for_runtime (command m) (RestartGate.active (restart n)) then
        map_error (fun _ => HttpEffect) (apply_effect rid later reply (command m));;
        refreshed ← node_descriptor a scoped later;
        mret (mkResponse (response_status response) (response_generation refreshed)
                (response_descriptor refreshed) (lease_expires_at_millis refreshed))
      else
        modify (fun n => set_pending (pending n ++ [CommandEffect (command m)]) n);;
        mret response);
    modify (lease_update response);;
    mret response.

(** ** Periodic work of a node *)

Definition control_invalidate_route (c : RoleControl) : RoleControl :=
  match c with
  | CoordinatorRole c => CoordinatorRole (coordinator_invalidate_route c)
  | WorkerRole w => WorkerRole (worker_invalidate_route w)
  end.

(** The backoff branch, of a coordinator only, ahead of the reconciliation.
    src/src/cluster/production/reconcile.rs:35-59 (reconcile_periodic) *)
Definition node_reconcile_periodic (now : Z) : node_method unit :=
  n ← self;
  if negb (is_worker n) && bool_decide (state (cluster (world n)) = ClusterState.Backoff)
  then
    peer_present ← on_world id peer_is_present;
    if negb peer_present then node_peer_loss now
    else on_world (fun e => Lost (Lifecycle e)) (reconcile_backoff now);; mret tt
  else node_reconcile_peer now.

(** [response] is the peer's answer to the descriptor request, [None] when it failed.
    src/src/cluster/production/reconcile.rs:9-28 (reconcile) *)
Definition node_reconcile (response : option ControlResponse) (now : Z) : node_method unit :=
  n ← self;
  if RestartGate.active (restart n) then mret tt
  else
    (match response with
     | Some r => modify (lease_update r)
     | None => modify (fun n => set_control (control_invalidate_route (control n)) n)
     end);;
    node_reconcile_periodic now.

(** The polls for the end of the peer's lease, at most [polls] of them. *)
Fixpoint wait_released (polls : nat) : node_method unit :=
  match polls with
  | O => mret tt
  | S polls =>
      peer_present ← on_world id peer_is_present;
      if (peer_present : bool) then wait_released polls else mret tt
  end.

(** The notice to the coordinator; a failure is logged.
    src/src/cluster/production/worker.rs:305-315 (notify_worker_child_exit) *)
Definition notify_worker_child_exit (rid : bytes) : node_method unit :=
  n ← self;
  if is_worker n
  then on_worker WorkerUnavailable RoleRefused (child_exited_message rid);; send
  else mret tt.

(** One pass of the loop, from the failure it waited for; errors are logged.
    src/src/cluster/production/worker.rs:245-303 (monitor_worker_child) *)
Definition worker_child_exited (rid : bytes) (now : Z) : node_method unit :=
  n ← self;
  if RestartGate.active (restart n) then mret tt
  else
    on_world id (modify (with_pairing_blocked true));;
    attempt (notify_worker_child_exit rid);;
    attempt (node_peer_loss now);;
    wait_released 150;;
    on_world id (modify (with_pairing_blocked false)).

End effects.
