(* ===== verification/WorkerNode.v ===== *)
(** * A worker node under any interleaving of requests, effects and reconciliations

    The node of [Effects] in the worker's role.  A request is handled in two steps, the
    control half and, later and in any order with respect to others, its effect; the
    periodic reconciliation, the monitor of the child and the recoveries run in between.
    The theorem: the standalone and the distributed child never own the machine at the
    same time, and a request is routed to the local server only while the standalone was
    started and not stopped and no distributed child may run.  The two readings of the
    lease in one reconciliation are assumed to agree; [worker_race_starts_both] shows what
    happens when they do not. *)

From S2P Require Import Prelude Bytes Target Operation Tp Auth Control ControlRoles Hello.
From S2P Require Import Admission ClusterFsm Promotion Runtime Production Node Effects.
From S2P Require RestartGate.

(** The second reading of the lease, taken with the same clock, gives what the first gave. *)
Class StablePresence (env : Environment) : Prop :=
  presence_stable t : env ((PeerPresent, env t PeerPresent) :: t) PeerPresent = env t PeerPresent.

(** ** What is known of a worker *)

Definition worker_children (st : ClusterState) (t : trace) : bool :=
  match st with
  | ClusterState.SoloStandaloneReady => live Standalone t && negb (possibly_up Distributed t)
  | ClusterState.Pairing => negb (possibly_up Distributed t)
  | ClusterState.PairedStandaloneReady =>
      negb (possibly_up Standalone t) && negb (possibly_up Distributed t)
  | ClusterState.AwaitingWorkerHello | ClusterState.Promoting
  | ClusterState.DistributedStarting | ClusterState.DistributedReady | ClusterState.Demoting =>
      negb (possibly_up Standalone t)
  | ClusterState.SoloStandaloneStarting => true
  | _ => false
  end.

Definition locally_served (st : ClusterState) : bool :=
  match st with
  | ClusterState.SoloStandaloneReady | ClusterState.Pairing => true
  | _ => false
  end.

Record wgood (w : World) : Prop := {
  wg_sane : sane_at LocalRole.Worker (cluster w);
  wg_exclusive : exclusive (calls w) = true;
  wg_one : possibly_up Standalone (calls w) && possibly_up Distributed (calls w) = false;
  wg_children : worker_children (state (cluster w)) (calls w) = true;
  wg_route : fst (proxy_target w) = ProxyTarget.LocalStandalone →
    locally_served (state (cluster w)) = true ∧ possibly_up Standalone (calls w) = true;
}.

Lemma live_possibly_up c t : live c t = true → possibly_up c t = true.
Proof.
  induction t as [|[[] o] t IH]; simpl; try done.
  - by case_bool_decide.
  - destruct o; try done. by case_bool_decide.
Qed.

(** The routes of a worker. *)
Lemma worker_target s :
  sane_at LocalRole.Worker s →
  (state s = ClusterState.SoloStandaloneReady → target s = ProxyTarget.LocalStandalone)
  ∧ (state s = ClusterState.PairedStandaloneReady ∨ state s = ClusterState.DistributedReady →
     target s = ProxyTarget.Coordinator).
Proof.
  intros [Hinv Hrole _]. rewrite (inv_target _ Hinv), Hrole.
  pose proof (inv_mode _ Hinv) as Hmode.
  split; [intros Hs|intros [Hs|Hs]]; rewrite Hs in *; by rewrite (Hmode _ eq_refl).
Qed.

(** Close [wgood w'] at the end of a path. *)
Ltac worker_route :=
  simpl; intros Hroute;
  repeat match goal with
  | H : sane_at LocalRole.Worker ?s |- _ =>
      let H1 := fresh in let H2 := fresh in
      destruct (worker_target s H) as [H1 H2]; clear H;
      known; first [rewrite H1 in * by done | rewrite H2 in * by auto | idtac]; clear H1 H2
  end;
  try done;
  repeat match goal with
  | H : _ = ProxyTarget.LocalStandalone → _ |- _ =>
      let H1 := fresh in let H2 := fresh in destruct (H Hroute) as [H1 H2]; clear H
  end;
  simpl in *; known; simpl; known; try done; split; done.

Ltac worker_leaf :=
  repeat match goal with o : Outcome |- _ => destruct o end; simplify_eq; try done;
  (constructor; world_simpl;
  [ done
  | simpl; known; done
  | simpl; known; simpl; known; done
  | known; simpl; known; done
  | worker_route ]).

(** Take a good state apart by its cluster state. *)
Ltac open_worker Hg :=
  match type of Hg with
  | wgood ?w =>
      let Hst := fresh "Hst" in let Hc := fresh "Hc" in let Ho := fresh "Ho" in
      let Hr := fresh "Hr" in let Hs := fresh "Hsane" in let Hrole := fresh "Hrole" in
      destruct Hg as [Hs ? Ho Hc Hr]; pose proof (sane_role _ _ Hs) as Hrole;
      destruct (state (cluster w)) eqn:Hst; simpl in Hc; try done;
      bool_to_prop;
      try match goal with
          | L : live Standalone (calls w) = true |- _ =>
              pose proof (live_possibly_up _ _ L)
          end;
      try (destruct (possibly_up Standalone (calls w)) eqn:?;
           destruct (possibly_up Distributed (calls w)) eqn:?; simplify_eq/=)
  end.

Section operations.
Context `{env : Environment}.

Lemma w_recover k w :
  k = ClusterEventKind.PeerLost ∨ k = ClusterEventKind.DeploymentMismatch →
  wgood w → wp (recover_to_solo k) (fun _ => wgood) (fun _ => wgood) w.
Proof.
  intros [-> | ->] Hg; unfold recover_to_solo; open_worker Hg; wp_run; worker_leaf.
Qed.

Lemma w_reconcile_local w :
  wgood w → wp reconcile_local (fun _ => wgood) (fun _ => wgood) w.
Proof. intros Hg. open_worker Hg; wp_run; worker_leaf. Qed.

(** A pairing whose standalone stopped is completed. *)
Lemma pairing_ready_ok s :
  state s = ClusterState.Pairing →
  is_ok (transition s (ClusterEvent_new (generation s) ClusterEventKind.PairingReady)) = true.
Proof.
  intros Hst. rewrite transition_unfold. simpl. rewrite Z.eqb_refl. simpl.
  unfold transition_table, transition_standalone_and_lp. simpl. by rewrite Hst.
Qed.

Lemma wp_pairing_ready {E} (inj : TransitionError → E) Q X w :
  sane_at LocalRole.Worker (cluster w) → state (cluster w) = ClusterState.Pairing →
  (∀ s, sane_at LocalRole.Worker s → state s = ClusterState.PairedStandaloneReady →
        Q s (with_cluster s w)) →
  wp (apply inj (generation (cluster w)) ClusterEventKind.PairingReady) Q X w.
Proof.
  intros Hs Hst HQ. unfold wp, apply, machine_step. pose proof (pairing_ready_ok _ Hst) as Hok.
  destruct (transition _ _) as [s|e] eqn:T; [|done]. simpl.
  apply (transition_sane LocalRole.Worker) in T as [Hs' Hin]; [|done|by rewrite Hst].
  rewrite Hst in Hin. apply HQ; [done|]. by apply list_elem_of_singleton in Hin.
Qed.

Lemma w_form_pair w :
  wgood w → state (cluster w) = ClusterState.SoloStandaloneReady →
  wp (form_pair (cluster w)) (fun _ => wgood) (fun _ => wgood) w.
Proof.
  intros Hg Hsolo. open_worker Hg. unfold form_pair. rewrite Hrole. simpl.
  repeat lazymatch goal with
  | |- wp (apply _ _ ClusterEventKind.PairingReady) _ _ _ => fail
  | _ => wp_step
  end; try worker_leaf.
  all: try (match goal with |- wp (apply _ (generation ?s) _) _ _ ?w0 =>
       change s with (cluster w0) end; apply wp_pairing_ready; [done|done|];
       intros; wp_run; worker_leaf).
Qed.

Lemma w_begin_worker w :
  wgood w → wp begin_worker (fun _ => wgood) (fun _ => wgood) w.
Proof.
  intros Hg. open_worker Hg; unfold begin_worker, prepare, worker_lease; wp_run; worker_leaf.
Qed.

Lemma w_end_worker w :
  wgood w → wp end_worker (fun _ => wgood) (fun _ => wgood) w.
Proof.
  intros Hg. open_worker Hg; unfold end_worker, leave_distributed; wp_run; worker_leaf.
Qed.

(** Calls and fields the invariant does not read. *)
Lemma wgood_call c o w :
  match c with Start _ _ | Stop _ => false | _ => true end = true →
  wgood w → wgood (with_call c o w).
Proof. intros Hc [? ? ? ? ?]. by destruct c. Qed.

Lemma wgood_restart b w : wgood w → wgood (with_restart b w).
Proof. intros [? ? ? ? ?]. by constructor. Qed.

Lemma wgood_pairing_blocked b w : wgood w → wgood (with_pairing_blocked b w).
Proof. intros [? ? ? ? ?]. by constructor. Qed.

Lemma w_reconcile_present `{!StablePresence env} policy w0 w o :
  o = answer (calls w) PeerPresent → wgood w → (bool_decide (o = Success) = false → requires_solo_fallback (state (cluster w)) = false) →
  cluster w0 = cluster w →
  wp (reconcile_present policy w0) (fun _ => wgood) (fun _ => wgood) (with_call PeerPresent o w).
Proof.
  intros Hans Hg Hf Hw. pose proof (sane_role _ _ (wg_sane _ Hg)) as Hrole.
  unfold reconcile_present. wp_step. unfold wp at 1, peer_is_present, mbind, method_bind, call.
  assert (answer ((PeerPresent, o) :: calls w) PeerPresent = o) as Ho'
    by (rewrite Hans; apply (presence_stable (env := env))).
  simpl. rewrite Ho'.
  rewrite Hw, Hrole. simpl.
  set (w' := with_call PeerPresent o (with_call PeerPresent o w)).
  assert (Hg' : wgood w') by by apply wgood_call, wgood_call.
  destruct (suppress_automatic_pairing _ _ _); [done|]. wp_step.
  unfold reconcile_peer_with_presence. wp_step. wp_step.
  change (cluster w') with (cluster w). rewrite Hrole. simpl.
  destruct (bool_decide (o = Success)) eqn:Ho.
  - destruct (state (cluster w)) eqn:Hst; try by wp_run. by apply (w_form_pair w').
  - specialize (Hf eq_refl). destruct (state (cluster w)) eqn:Hst; try done; by wp_run.
Qed.
End operations.

(** ** The node *)

Definition ngood (n : ControlNode) : Prop := wgood (world n) ∧ is_worker n = true.

(** What may happen to a worker, one task at a time. *)
Inductive worker_step_label :=
| Receives (endpoint : ControlEndpoint) (m : ControlMessage) (a : AuthenticatedPeer)
    (scoped : bool) (now : Z)
| Describes (a : AuthenticatedPeer) (scoped : bool) (now : Z)
| RunsEffect (i : nat) (rid : bytes) (now : Z) (reply : ControlResponse)
| Reconciles (response : option ControlResponse) (now : Z)
| Handles (endpoint : ControlEndpoint) (method body : bytes) (source : IpAddr)
    (h : RequestHeaders) (scoped : bool) (now later : Z) (rid : bytes) (reply : ControlResponse)
| ReconcilesLocal
| ChildExited (rid : bytes) (now : Z)
| ForcedPolicy (now : Z).

Section node.
Context `{env : Environment} {decoder : MessageDecoder} {crypto : Crypto} (policy : PolicyState).

(** The control half of a request queues its effect; an effect leaves the queue and runs;
    a whole request that nothing interrupts is a step too. *)
Definition worker_node_step (n : ControlNode) (l : worker_step_label) : ControlNode :=
  match l with
  | Receives endpoint m a scoped now =>
      match receive endpoint m a scoped now n with
      | (Ok response, n) =>
          lease_update response (set_pending (pending n ++ [CommandEffect (command m)]) n)
      | (Err _, n) => n
      end
  | Describes a scoped now => snd (node_descriptor a scoped now n)
  | RunsEffect i rid now reply =>
      match pending n !! i with
      | Some e =>
          snd (run_effect policy rid now reply e
                 (set_pending (take i (pending n) ++ drop (S i) (pending n)) n))
      | None => n
      end
  | Handles endpoint method body source h scoped now later rid reply =>
      snd (handle policy endpoint method body source h scoped now later rid reply n)
  | Reconciles response now => snd (node_reconcile policy response now n)
  | ReconcilesLocal => snd (on_world Lost (map_error ModeError reconcile_local) n)
  | ChildExited rid now => snd (worker_child_exited rid now n)
  | ForcedPolicy now => snd (node_recover ClusterEventKind.PeerLost now n)
  end.

(** A worker before it spawns, and after. *)
Definition worker_boot (g : Z) (i : Inner) (tracker : PromotionFailureTracker) : World :=
  mkWorld (booting_at LocalRole.Worker g) (block i) (transition_target, false) tracker
    0 false false [].

Definition worker_spawned (g : Z) (i : Inner) (tracker : PromotionFailureTracker)
    (c : WorkerControl) (auth : ControlAuthenticator) : ControlNode :=
  mkControlNode (snd (spawn_ready_at g (worker_boot g i tracker))) (WorkerRole c)
    RestartGate.PLANNED_RESTART_IDLE 0 auth [].

(** [keep m]: the method keeps the invariant on every path. *)
Definition keep {E A} (m : method ControlNode E A) : Prop :=
  ∀ n, ngood n → wp m (fun _ => ngood) (fun _ => ngood) n.

Lemma keep_bind {E A B} (c : method ControlNode E A) (k : A → method ControlNode E B) :
  keep c → (∀ a, keep (k a)) → keep (c ≫= k).
Proof.
  intros Hc Hk n Hn. apply wp_bind. eapply wp_mono; [by apply Hc|intros; by apply Hk|done].
Qed.

(** A method that reads the state first. *)
Lemma keep_self {E A} (k : ControlNode → method ControlNode E A) :
  (∀ n, ngood n → wp (k n) (fun _ => ngood) (fun _ => ngood) n) → keep (self ≫= k).
Proof. intros Hk n Hn. by apply wp_bind, wp_self, Hk. Qed.

Lemma keep_read {E A} (k : ControlNode → method ControlNode E A) :
  (∀ n, keep (k n)) → keep (self ≫= k).
Proof. intros Hk. apply keep_self. intros n Hn. by apply Hk. Qed.

Lemma keep_ret {E A} (a : A) : keep (mret a : method ControlNode E A).
Proof. by intros n Hn. Qed.
Lemma keep_lift {E A} (r : result A E) : keep (lift r).
Proof. intros n Hn. apply wp_lift. by destruct r. Qed.
Lemma keep_attempt {E F A} (m : method ControlNode E A) : keep m → keep (attempt (F := F) m).
Proof. intros Hm n Hn. apply wp_attempt. by apply Hm. Qed.
Lemma keep_if {E A} (b : bool) (c d : method ControlNode E A) :
  keep c → keep d → keep (if b then c else d).
Proof. by destruct b. Qed.

Lemma keep_modify {E} (f : ControlNode → ControlNode) :
  (∀ n, ngood n → ngood (f n)) → keep (modify f : method ControlNode E unit).
Proof. intros Hf n Hn. by apply wp_modify, Hf. Qed.

(** Fields the invariant does not read. *)
Lemma ngood_restart v n : ngood n → ngood (set_restart v n).
Proof. done. Qed.
Lemma ngood_expires v n : ngood n → ngood (set_expires_at v n).
Proof. done. Qed.
Lemma ngood_pending l n : ngood n → ngood (set_pending l n).
Proof. done. Qed.
Lemma ngood_control w n : ngood n → ngood (set_control (WorkerRole w) n).
Proof. intros [? _]. done. Qed.
Lemma ngood_lease r n : ngood n → ngood (lease_update r n).
Proof. intros Hn. unfold lease_update. by destruct (lease_expires_at_millis r). Qed.

Lemma keep_world {E F A} (inj : E → F) (m : method World E A) :
  (∀ w, wgood w → wp m (fun _ => wgood) (fun _ => wgood) w) → keep (on_world inj m).
Proof.
  intros Hm n [Hw Hn]. unfold wp, on_world.
  pose proof (Hm (node_world n) (wgood_restart _ _ Hw)) as H. unfold wp in H.
  by destruct (m (node_world n)) as [[a|e] w]; simpl.
Qed.

Lemma keep_gate {A} (p : Z → RestartGate.plan A) : keep (on_gate p).
Proof. intros n Hn. unfold wp, on_gate. by destruct (p (restart n)). Qed.

Lemma keep_worker {F A} (e : F) inj (m : method WorkerControl ControlError A) :
  keep (on_worker e inj m).
Proof.
  intros n Hn. pose proof Hn as [_ Hw]. unfold wp, on_worker, is_worker in *.
  destruct (control n) as [|w]; [done|]. destruct (m w) as [[] w']; by apply ngood_control.
Qed.

Lemma wp_world_call {E} (c : Call) (e : E) w :
  match c with Start _ _ | Stop _ => false | _ => true end = true →
  wgood w → wp (perform c e) (fun _ => wgood) (fun _ => wgood) w.
Proof. intros Hc Hg. wp_run; by apply wgood_call. Qed.

Lemma keep_send {F} (inj : EffectError → F) :
  keep (on_world inj (perform SendControl SendFailed)).
Proof. apply keep_world. intros. by apply wp_world_call. Qed.

Lemma keep_presence {E F} (inj : E → F) : keep (on_world inj peer_is_present).
Proof. apply keep_world. intros. wp_run. by apply wgood_call. Qed.

Lemma keep_blocked {E F} (inj : E → F) b : keep (on_world inj (modify (with_pairing_blocked b))).
Proof. apply keep_world. intros. wp_run. by apply wgood_pairing_blocked. Qed.

Lemma keep_recover k now :
  k = ClusterEventKind.PeerLost ∨ k = ClusterEventKind.DeploymentMismatch →
  keep (node_recover k now).
Proof.
  intros Hk n Hn. unfold node_recover.
  assert (Hn' : ngood (if reaches_reset k (node_world n)
                       then set_control (reset_for_repair now (control n)) n else n)).
  { destruct (reaches_reset _ _); [|done]. destruct Hn as [? Hw]. split; [done|].
    unfold is_worker in *. simpl. by destruct (control n). }
  exact (keep_world Lost (recover_to_solo k) (fun w Hw => w_recover k w Hk Hw) _ Hn').
Qed.

Lemma keep_peer_loss now : keep (node_peer_loss now).
Proof.
  apply keep_self. intros n Hn. destruct (RestartGate.active _); [done|].
  apply keep_bind; [apply keep_recover; by left|intros; apply keep_ret|done].
Qed.

Lemma keep_reconcile_peer `{!StablePresence env} now : keep (node_reconcile_peer policy now).
Proof.
  apply keep_self. intros n Hn. destruct (RestartGate.active _) eqn:Ha; [done|].
  apply wp_bind. pose proof Hn as [Hw _].
  unfold wp at 1, on_world, peer_is_present, mbind, method_bind, call. simpl.
  set (o := answer _ _).
  set (n' := set_world _ n).
  assert (Hn' : ngood n').
  { split; [|apply Hn]. by apply wgood_call, wgood_restart. }
  destruct (negb (bool_decide (o = Success)) && _) eqn:Hf; [by apply keep_peer_loss|].
  pose proof (w_reconcile_present policy (world n) (node_world n) o) as H.
  change (with_call PeerPresent o (node_world n)) with (node_world n') in H.
  apply wp_bind. unfold wp, on_world in *.
  destruct (reconcile_present policy (world n) (node_world n')) as [[a|e] w]; simpl;
    (split; [|apply Hn']); apply H; try done; try (by apply wgood_restart);
    intros Ho; rewrite Ho in Hf; exact Hf.
Qed.

Lemma keep_complete_pair `{!StablePresence env} now reply planned :
  keep (complete_pair_effect policy now reply planned).
Proof.
  unfold complete_pair_effect. apply keep_bind; [|intros r; apply keep_bind; [|auto using keep_lift]].
  - apply keep_attempt, keep_read. intros n0.
    apply keep_bind; [apply keep_if; [apply keep_bind|]|intros _; apply keep_bind].
    + apply keep_send.
    + intros _. apply keep_modify. auto using ngood_lease.
    + apply keep_ret.
    + by apply keep_modify.
    + intros _. apply keep_reconcile_peer.
  - apply keep_if; [by apply keep_modify|apply keep_ret].
Qed.

Lemma keep_effect `{!StablePresence env} rid now reply e :
  keep (run_effect policy rid now reply e).
Proof.
  assert (keep (stop_worker policy now reply)) as Hstop.
  { apply keep_read. intros n. apply keep_if; [apply keep_ret|].
    apply keep_bind; [apply keep_world, w_end_worker|]. intros _.
    apply keep_bind; [apply keep_gate|]. intros [].
    - apply keep_complete_pair.
    - apply keep_ret. }
  destruct e as [c|]; simpl.
  - destruct c as [d| | | | |ev| | | |]; simpl; try done; try apply keep_ret; try by apply keep_modify.
    + apply keep_read. intros n. apply keep_if; [|apply keep_complete_pair].
      apply keep_bind; [apply keep_gate|]. intros []; auto using keep_ret, keep_complete_pair.
    + apply keep_read. intros n. apply keep_bind; [|intros _; apply keep_bind].
      * intros n' Hn'. by apply wp_require.
      * apply keep_world, w_begin_worker.
      * intros g. apply keep_bind; [apply keep_worker|intros _; apply keep_send].
    + apply keep_bind; [apply keep_worker|intros _; apply keep_send].
    + destruct ev; try apply keep_ret. apply keep_read. intros n.
      apply keep_if; [apply keep_ret|apply keep_peer_loss].
    + apply keep_world. intros w [? ? ? ? ?]. apply wp_modify. by constructor.
  - apply keep_bind; [apply keep_blocked|intros _].
    apply keep_bind; [apply keep_recover; by right|intros; apply keep_ret].
Qed.

Lemma keep_reconcile `{!StablePresence env} response now :
  keep (node_reconcile policy response now).
Proof.
  apply keep_read. intros n. apply keep_if; [apply keep_ret|].
  apply keep_bind.
  - destruct response; apply keep_modify; [auto using ngood_lease|].
    intros n' [? Hw]. split; [done|]. unfold is_worker in *. simpl. by destruct (control n').
  - intros _. apply keep_self. intros n' Hn'. pose proof Hn' as [_ Hw]. rewrite Hw. simpl.
    by apply keep_reconcile_peer.
Qed.

Lemma keep_child_exited rid now : keep (worker_child_exited rid now).
Proof.
  apply keep_read. intros n. apply keep_if; [apply keep_ret|].
  apply keep_bind; [apply keep_blocked|intros _].
  apply keep_bind; [apply keep_attempt, keep_read; intros n'; apply keep_if|intros _].
  - apply keep_bind; [apply keep_worker|intros _; apply keep_send].
  - apply keep_ret.
  - apply keep_bind; [apply keep_attempt, keep_peer_loss|intros _].
    apply keep_bind; [|intros _; apply keep_blocked].
    generalize 150%nat. intros polls. induction polls as [|polls IH]; [apply keep_ret|].
    apply keep_bind; [apply keep_presence|]. intros []; [done|apply keep_ret].
Qed.

Lemma keep_snd {E A} (m : method ControlNode E A) n : keep m → ngood n → ngood (snd (m n)).
Proof. intros Hm Hn. specialize (Hm n Hn). unfold wp in Hm. by destruct (m n) as [[] ?]. Qed.

(** The control half touches the control state and the pairing gate only. *)
Lemma receive_good e m a scoped now n r n' :
  ngood n → receive e m a scoped now n = (r, n') → ngood n'.
Proof.
  intros Hn. pose proof Hn as [Hw Hk]. unfold receive, self. unfold_method.
  destruct (negb _); [|by intros [= <- <-]]. unfold role_handle, is_worker in *.
  destruct (control n) as [|w] eqn:Hc; [done|].
  destruct (worker_handle e m a scoped now w) as [r' w'].
  destruct r' as [resp|err]; [by intros [= <- <-]|].
  destruct err; intros [= <- <-]; try done.
  split; [|done]. simpl. by apply wgood_pairing_blocked.
Qed.

Lemma keep_receive e m a scoped now : keep (receive e m a scoped now).
Proof.
  intros n Hn. unfold wp. destruct (receive _ _ _ _ _ n) as [[r|er] n'] eqn:E;
    by eapply receive_good in E.
Qed.

Lemma keep_descriptor a scoped now : keep (node_descriptor a scoped now).
Proof.
  intros n Hn. pose proof Hn as [_ Hk]. unfold wp, node_descriptor, is_worker in *.
  destruct (control n); [done|]. destruct (worker_node_descriptor _ _ _ _) as [[] ?];
    by apply ngood_control.
Qed.

Lemma keep_map_error {E F A} (f : E → F) (m : method ControlNode E A) :
  keep m → keep (map_error f m).
Proof. intros Hm n Hn. apply wp_map_error. by apply Hm. Qed.

Lemma keep_handle `{!StablePresence env} endpoint method body source h scoped now later rid reply :
  keep (handle policy endpoint method body source h scoped now later rid reply).
Proof.
  apply keep_bind.
  { unfold authenticate. repeat (apply keep_bind; [apply keep_lift|intros ?]).
    intros n Hn. unfold wp, verify_signed. by destruct (verify _ _ _ _ _ _ _) as [[] ?]. }
  intros a. apply keep_if; [apply keep_descriptor|].
  apply keep_bind; [apply keep_lift|intros m]. apply keep_bind; [apply keep_receive|intros r].
  apply keep_read. intros n. apply keep_bind; [|intros r'; apply keep_bind].
  - apply keep_if.
    + apply keep_bind; [apply keep_map_error, (keep_effect rid later reply (CommandEffect _))|].
      intros _. apply keep_bind; [apply keep_descriptor|intros; apply keep_ret].
    + apply keep_bind; [by apply keep_modify|intros; apply keep_ret].
  - apply keep_modify. auto using ngood_lease.
  - intros _. apply keep_ret.
Qed.

Lemma worker_node_step_good `{!StablePresence env} n l :
  ngood n → ngood (worker_node_step n l).
Proof.
  intros Hn. destruct l as [e m a scoped now|a scoped now|i rid now reply|resp now| | |rid now|now];
    simpl; try (apply keep_snd; [|done]).
  - pose proof (keep_receive e m a scoped now n Hn) as Hr. unfold wp in Hr.
    destruct (receive _ _ _ _ _ _) as [[r|er] n']; [by apply ngood_lease|done].
  - apply keep_descriptor.
  - destruct (pending n !! i) as [e|]; [|done].
    apply keep_snd; [apply keep_effect|by apply ngood_pending].
  - apply keep_reconcile.
  - apply keep_handle.
  - apply keep_world. intros w Hw. wp_step. by apply w_reconcile_local.
  - apply keep_child_exited.
  - apply keep_recover. by left.
Qed.

Lemma worker_spawned_good g i tracker c auth :
  is_ok (fst (spawn_ready_at g (worker_boot g i tracker))) = true →
  ngood (worker_spawned g i tracker c auth).
Proof.
  intros Hok. split; [|done].
  assert (wp (spawn_ready_at g) (fun _ => wgood) (fun _ _ => True) (worker_boot g i tracker)) as H.
  { clear Hok. assert (sane_at LocalRole.Worker (cluster (worker_boot g i tracker))) by
      (constructor; [apply snapshot_inv_booting|done|by intros [|]]).
    assert (state (cluster (worker_boot g i tracker)) = ClusterState.Booting) as Hst by done.
    unfold spawn_ready_at. wp_run; try done. worker_leaf. }
  unfold worker_spawned, wp in *. simpl.
  by destruct (spawn_ready_at g (worker_boot g i tracker)) as [[] ?].
Qed.

Lemma paired_children w : wgood w →
  state (cluster w) = ClusterState.PairedStandaloneReady →
  possibly_up Standalone (calls w) = false ∧ possibly_up Distributed (calls w) = false.
Proof. intros [_ _ _ Hc _] Hst. rewrite Hst in Hc. simpl in Hc. by bool_to_prop. Qed.
End node.

Definition worker_run `{Environment, MessageDecoder, Crypto}
    (steps : list (PolicyState * worker_step_label)) (n : ControlNode) : ControlNode :=
  foldl (fun n '(policy, l) => worker_node_step policy n l) n steps.


(** ** Concrete runs *)

Module DemoWorker.

Definition no_json : MessageDecoder := fun _ => None.
Definition reply : ControlResponse :=
  mkResponse ControlResponseStatus.Applied 7 (demo_worker 7) None.

(** The descriptor of the worker, and the coordinator as its authenticated peer. *)
Definition control0 : WorkerControl :=
  mkWorker (processor_new (demo_worker 7) ControlRole.Coordinator 15000000000 0)
    DistributedControlPhase.Unpaired.
Definition coordinator_peer : AuthenticatedPeer :=
  mkPeer (descriptor_node_id demo_coordinator) demo_ip 1000.
Definition message (rid : string) (c : ControlCommand) : ControlMessage :=
  mkMessage (str rid) 7 (Some (str "deployment-a")) c.

Definition receives (rid : string) (now : Z) (c : ControlCommand) : worker_step_label :=
  Receives (command_endpoint c) (message rid c) coordinator_peer true now.

(** Pair, prepare and drain, each effect run before the next request. *)
Definition promotion : list worker_step_label :=
  [receives "pair" 1000 (ControlCommand.Pair demo_coordinator);
   RunsEffect 0 (str "r1") 1001 reply;
   receives "prepare" 1002 ControlCommand.PrepareWorker;
   RunsEffect 0 (str "r2") 1003 reply;
   receives "drain" 1004 ControlCommand.BeginDrain;
   RunsEffect 0 (str "r3") 1005 reply;
   receives "ready" 1006 ControlCommand.DistributedReady;
   RunsEffect 0 (str "r4") 1007 reply].

Notation start env :=
  (worker_spawned (env := env) 0 idle_gate fresh_tracker control0 demo_auth).
Notation run env labels :=
  (worker_run (H := env) (H0 := no_json) (H1 := toy_crypto)
     (map (pair open_policy) labels) (start env)).

Example promoted :
  let n := run willing promotion in
  state (cluster (world n)) = ClusterState.DistributedReady
  ∧ proxy_target (world n) = (ProxyTarget.Coordinator, true)
  ∧ Admission.state (gate (world n)) = AdmissionState.Serving.
Proof. vm_compute. done. Qed.

(** The lease is lost between the two readings of one reconciliation. *)
Definition lost_in_between : Environment := fun t c =>
  match c, t with
  | PeerPresent, (PeerPresent, _) :: _ =>
      if possibly_up Distributed t then Refused else Success
  | _, _ => Success
  end.

(** The second reading goes to the fallback of [ModeRuntime], which knows no distributed
    child: the standalone is started while the distributed child runs. *)
Example worker_race_starts_both :
  let w := world (run lost_in_between (promotion ++ [Reconciles (Some reply) 1008])) in
  exclusive (calls w) = false
  ∧ possibly_up Standalone (calls w) = true ∧ possibly_up Distributed (calls w) = true.
Proof. vm_compute. done. Qed.

(** A Demote that reaches a worker in solo operation blocks its gate and then refuses: the
    worker keeps its standalone and its local route and serves nothing. *)
Example demote_blocks_solo_worker :
  let w := world (run willing
    [receives "pair" 1000 (ControlCommand.Pair demo_coordinator);
     receives "demote" 1001 ControlCommand.Demote; RunsEffect 1 (str "r1") 1002 reply]) in
  state (cluster w) = ClusterState.SoloStandaloneReady
  ∧ proxy_target w = (ProxyTarget.LocalStandalone, true)
  ∧ Admission.state (gate w) = AdmissionState.Blocked.
Proof. vm_compute. done. Qed.

(** A request that outlives the drain timeout while the worker pairs: it stays in
    [Pairing] with a closed gate, and reconciliation does nothing while the peer is there. *)
Definition long_request : Environment := fun _ c =>
  match c with WaitForZero _ => Expired | _ => Success end.

Example worker_stuck_pairing :
  let paired := [receives "pair" 1000 (ControlCommand.Pair demo_coordinator);
                 RunsEffect 0 (str "r1") 1001 reply] in
  let w := world (run long_request paired) in
  let w' := world (run long_request (paired ++ [Reconciles (Some reply) 2000;
                     ReconcilesLocal; Reconciles (Some reply) 3000])) in
  state (cluster w) = ClusterState.Pairing
  ∧ Admission.state (gate w) = AdmissionState.Draining
  ∧ cluster w' = cluster w ∧ gate w' = gate w.
Proof. vm_compute. done. Qed.

(** The answer [Duplicate] leaves the control state alone, but the effect runs again: a
    repeated CancelGeneration stops the child of the promotion that followed it, and the
    control phase still says that the worker is ready. *)
Example duplicate_runs_effect :
  let again := [receives "cancel" 1010 ControlCommand.CancelGeneration;
                RunsEffect 0 (str "r5") 1011 reply;
                receives "prepare-2" 1012 ControlCommand.PrepareWorker;
                RunsEffect 0 (str "r6") 1013 reply] in
  let n := run willing (promotion ++ again) in
  let n' := run willing (promotion ++ again ++
              [receives "cancel" 1014 ControlCommand.CancelGeneration;
               RunsEffect 0 (str "r7") 1015 reply]) in
  state (cluster (world n)) = ClusterState.DistributedReady
  ∧ live Distributed (calls (world n)) = true
  ∧ state (cluster (world n')) = ClusterState.PairedStandaloneReady
  ∧ live Distributed (calls (world n')) = false
  ∧ (match control n' with WorkerRole w => w_phase w | _ => DistributedControlPhase.Unpaired end)
    = DistributedControlPhase.WorkerReady.
Proof. vm_compute. done. Qed.

End DemoWorker.

Section worker_witnesses.
Import DemoWorker.

Local Instance willing_stable : StablePresence willing.
Proof. done. Qed.

End worker_witnesses.
