(* ===== verification/Text.v ===== *)
(** * Searching, splitting and reading text

    What the parsers of the program use of [str] besides [Utf8]: the first occurrence of a
    pattern, [split], [split_once], [trim], [split_whitespace], the lossy decoding of bytes
    and [FromStr for f64].  A pattern is never empty. *)

From S2P Require Import Prelude Bytes Utf8.

(** ** Patterns *)

(** [s.split_once(p)]: what is before and after the first occurrence of [p]. *)
Fixpoint split_once (p s : bytes) : option (bytes * bytes) :=
  match strip_prefix p s with
  | Some rest => Some ([], rest)
  | None =>
      match s with
      | [] => None
      | b :: s => '(before, rest) ← split_once p s; Some (b :: before, rest)
      end
  end.

(** [s.split(p)]; every piece but the last consumes a byte, so the length is enough fuel. *)
Fixpoint split_fuel (fuel : nat) (p s : bytes) : list bytes :=
  match fuel, split_once p s with
  | S fuel, Some (before, rest) => before :: split_fuel fuel p rest
  | _, _ => [s]
  end.

Definition split (p s : bytes) : list bytes := split_fuel (length s) p s.

(** [s.rsplit(p).next()] of a pattern that does not overlap itself. *)
Definition rsplit_first (p s : bytes) : bytes := default s (last (split p s)).

Definition split_first (p s : bytes) : bytes := default s (head (split p s)).

(** [s.strip_suffix(p)]. *)
Definition strip_suffix (p s : bytes) : option bytes :=
  rest ← strip_prefix (reverse p) (reverse s); Some (reverse rest).

(** [pieces.join(sep)]. *)
Fixpoint join_with (sep : bytes) (pieces : list bytes) : bytes :=
  match pieces with
  | [] => []
  | [piece] => piece
  | piece :: pieces => piece ++ sep ++ join_with sep pieces
  end.

(** [s.replace(p, r)]. *)
Definition replace (p r s : bytes) : bytes := join_with r (split p s).

(** [s.lines()]: the lines without their terminators; a last line that is empty is none. *)
Definition strip_cr (line : bytes) : bytes := default line (strip_suffix [13] line).

Definition lines (s : bytes) : list bytes :=
  let pieces := split [10] s in
  let terminated := strip_cr <$> removelast pieces in
  match last pieces with
  | Some [] | None => terminated
  | Some rest => terminated ++ [rest]
  end.

(** ** Characters *)

(** The characters of a text, each as its bytes. *)
Fixpoint char_seq_fuel (fuel : nat) (s : bytes) : list bytes :=
  match fuel, s with
  | S fuel, b :: _ => take (char_width b) s :: char_seq_fuel fuel (drop (char_width b) s)
  | _, _ => []
  end.

Definition char_seq (s : bytes) : list bytes := char_seq_fuel (length s) s.

Definition char_is_whitespace (c : bytes) : bool := forallb is_whitespace (chars c).

Fixpoint skip_while {A} (f : A → bool) (l : list A) : list A :=
  match l with
  | [] => []
  | a :: l' => if f a then skip_while f l' else l
  end.

(** [s.trim_start()], [s.trim_end()], [s.trim()]. *)
Definition trim_start (s : bytes) : bytes :=
  concat (skip_while char_is_whitespace (char_seq s)).

Definition trim_end (s : bytes) : bytes :=
  concat (reverse (skip_while char_is_whitespace (reverse (char_seq s)))).

Definition trim (s : bytes) : bytes := trim_end (trim_start s).

(** [s.trim_start_matches(b)] of an ASCII character. *)
Definition trim_start_matches (b : Z) (s : bytes) : bytes := skip_while (Z.eqb b) s.

(** [s.split_whitespace()]. *)
Fixpoint words_of (cs : list bytes) (word : bytes) : list bytes :=
  match cs with
  | [] => if bool_decide (word = []) then [] else [word]
  | c :: cs =>
      if char_is_whitespace c
      then (if bool_decide (word = []) then [] else [word]) ++ words_of cs []
      else words_of cs (word ++ c)
  end.

Definition split_whitespace (s : bytes) : list bytes := words_of (char_seq s) [].

(** ** Numbers *)

(** An [f64] as it is written, before it is rounded to the nearest binary fraction. *)
Inductive f64 :=
| Nan
| Infinite (negative : bool)
| Decimal (negative : bool) (digits : Z) (exponent : Z).

Global Instance f64_eq_dec : EqDecision f64.
Proof. solve_decision. Defined.

Definition f64_zero : f64 := Decimal false 0 0.

(** The digits at the front and what follows them. *)
Fixpoint span_digits (s : bytes) : bytes * bytes :=
  match s with
  | b :: s' =>
      if is_ascii_digit b then let '(d, r) := span_digits s' in (b :: d, r) else ([], s)
  | [] => ([], [])
  end.

Definition read_sign (s : bytes) : bool * bytes :=
  match s with
  | b :: s' => if b =? 45 then (true, s') else if b =? 43 then (false, s') else (false, s)
  | [] => (false, [])
  end.

Definition read_exponent (s : bytes) : option Z :=
  match s with
  | [] => Some 0
  | b :: s =>
      if (b =? 101) || (b =? 69) then
        let '(negative, s) := read_sign s in
        let '(digits, rest) := span_digits s in
        if bool_decide (digits = [] ∨ rest ≠ []) then None
        else Some (if negative then - dec_value digits else dec_value digits)
      else None
  end.

Definition read_decimal (negative : bool) (s : bytes) : option f64 :=
  let '(whole, rest) := span_digits s in
  let '(fraction, rest) :=
    match rest with
    | b :: rest' => if b =? 46 then span_digits rest' else ([], rest)
    | [] => ([], [])
    end in
  if bool_decide (whole ++ fraction = []) then None
  else e ← read_exponent rest;
       Some (Decimal negative (dec_value (whole ++ fraction)) (e - length fraction)).

(** [FromStr for f64]. *)
Definition parse_f64 (s : bytes) : option f64 :=
  let '(negative, s) := read_sign s in
  if eq_ignore_ascii_case s (str "nan") then Some Nan
  else if eq_ignore_ascii_case s (str "inf") || eq_ignore_ascii_case s (str "infinity")
  then Some (Infinite negative)
  else read_decimal negative s.

(** ** Lossy decoding *)

(** The replacement character U+FFFD. *)
Definition replacement : bytes := [239; 191; 189].

(** Whether [b1] may follow the lead byte [b0]. *)
Definition second_ok (b0 b1 : Z) : bool :=
  if between 194 223 b0 then between 128 191 b1
  else if b0 =? 224 then between 160 191 b1
  else if b0 =? 237 then between 128 159 b1
  else if between 225 239 b0 then between 128 191 b1
  else if b0 =? 240 then between 144 191 b1
  else if b0 =? 244 then between 128 143 b1
  else between 241 243 b0 && between 128 191 b1.

(** The next character, or the length of the longest prefix of one ([Utf8Error::error_len]). *)
Definition next_char (s : bytes) : result nat nat :=
  match s with
  | [] => Err 0%nat
  | b0 :: s1 =>
      if b0 <? 128 then Ok 1%nat
      else match s1 with
      | [] => Err 1%nat
      | b1 :: s2 =>
          if negb (second_ok b0 b1) then Err 1%nat
          else if b0 <? 224 then Ok 2%nat
          else match s2 with
          | [] => Err 2%nat
          | b2 :: s3 =>
              if negb (is_continuation b2) then Err 2%nat
              else if b0 <? 240 then Ok 3%nat
              else match s3 with
              | [] => Err 3%nat
              | b3 :: _ => if is_continuation b3 then Ok 4%nat else Err 3%nat
              end
          end
      end
  end.

(** [String::from_utf8_lossy]; every turn consumes a byte. *)
Fixpoint lossy_fuel (fuel : nat) (s : bytes) : bytes :=
  match fuel, s with
  | S fuel, _ :: _ =>
      match next_char s with
      | Ok n => take n s ++ lossy_fuel fuel (drop n s)
      | Err n => replacement ++ lossy_fuel fuel (drop n s)
      end
  | _, _ => []
  end.

Definition from_utf8_lossy (s : bytes) : bytes := lossy_fuel (length s) s.

(** ** Lemmas *)

Lemma split_once_spec p s before rest :
  split_once p s = Some (before, rest) → s = before ++ p ++ rest.
Proof.
  revert before. induction s as [|b s IH]; intros before; simpl;
    destruct (strip_prefix p _) as [r|] eqn:E; intros H.
  - simplify_eq. by apply strip_prefix_spec in E.
  - done.
  - simplify_eq. by apply strip_prefix_spec in E.
  - apply bind_Some in H as ([a r] & Ha & [= <- <-]). by rewrite (IH a Ha).
Qed.

Lemma starts_with_strip p s : starts_with p s = true ↔ is_Some (strip_prefix p s).
Proof.
  revert s. induction p as [|a p IH]; intros [|b s]; simpl.
  1, 2: split; intros _; [by eexists|done].
  - split; [discriminate|by intros [? ?]].
  - destruct (a =? b); simpl; [apply IH|]. split; [discriminate|by intros [? ?]].
Qed.

Lemma split_once_none p s : split_once p s = None ↔ contains p s = false.
Proof.
  assert (∀ s, strip_prefix p s = None ↔ starts_with p s = false) as Hp.
  { intros t. pose proof (starts_with_strip p t). destruct (strip_prefix p t), (starts_with p t);
      naive_solver. }
  induction s as [|b s IH]; simpl.
  - specialize (Hp []). destruct (strip_prefix p []); rewrite orb_false_r; naive_solver.
  - specialize (Hp (b :: s)). rewrite orb_false_iff. rewrite <- IH, <- Hp.
    destruct (strip_prefix p (b :: s)); [naive_solver|].
    destruct (split_once p s) as [[??]|]; simpl; naive_solver.
Qed.

Lemma one_char_intro b t :
  length (b :: t) = char_width b → is_continuation b = false →
  Forall (fun x => is_continuation x = true) t → utf8_valid (b :: t) = true → one_char (b :: t).
Proof. intros. by exists b, t. Qed.

Lemma next_char_ok s n :
  next_char s = Ok n → one_char (take n s) ∧ (0 < n ≤ length s)%nat.
Proof.
  unfold next_char, second_ok, is_continuation. intros H.
  repeat (case_match; try done); simplify_eq; cbn [take]; rewrite ?take_0 in *; bool_to_prop;
    rewrite ?between_true, ?between_false, ?negb_false_iff, ?between_true, ?andb_true_iff,
      ?between_true in *; try (exfalso; lia); (split; [|simpl; lia]);
    (apply one_char_intro; [unfold char_width; decide_byte; done
                |unfold is_continuation; rewrite between_false; lia
                |repeat (apply Forall_cons_2; [unfold is_continuation; rewrite between_true; lia|]);
                 apply Forall_nil_2
                |simpl; decide_byte; done]).
Qed.

Lemma next_char_err s n : s ≠ [] → next_char s = Err n → (0 < n ≤ length s)%nat.
Proof. unfold next_char. intros ? H. repeat (case_match; try done); simplify_eq/=; lia. Qed.

(** Decoding gives well-formed text, and nothing changes where the bytes were. *)
Lemma from_utf8_lossy_valid s : utf8_valid (from_utf8_lossy s) = true.
Proof.
  unfold from_utf8_lossy. generalize (length s) as fuel. intros fuel. revert s.
  induction fuel as [|fuel IH]; intros [|b s]; try done. cbn [lossy_fuel].
  destruct (next_char (b :: s)) as [n|n] eqn:E.
  - apply next_char_ok in E as [Hc _]. by rewrite utf8_valid_app_char.
  - by rewrite utf8_valid_app.
Qed.

Lemma next_char_valid c rest : one_char c → next_char (c ++ rest) = Ok (length c).
Proof.
  intros (b & t & -> & Hl & Hb & Ht & Hv). unfold char_width in Hl. revert Hl Hv.
  unfold next_char, second_ok, is_continuation in *.
  destruct t as [|b1 [|b2 [|b3 [|]]]]; simpl; intros; repeat (case_match; try lia; try done);
    bool_to_prop; rewrite ?between_true, ?between_false in *; simpl; decide_byte; simpl;
    try done; try lia.
  simpl in *. by rewrite (proj2 (between_true 128 191 b1)) in * by lia.
Qed.

Lemma from_utf8_lossy_id s : utf8_valid s = true → from_utf8_lossy s = s.
Proof.
  intros Hs. unfold from_utf8_lossy.
  assert (∀ fuel, (length s ≤ fuel)%nat → lossy_fuel fuel s = s) as H; [|by apply H].
  revert s Hs. refine (utf8_ind _ _ _); [by intros [|]|].
  intros c rest Hc Hr IH fuel Hf. rewrite length_app in Hf.
  pose proof (one_char_nonempty c Hc). destruct fuel as [|fuel]; [lia|].
  destruct (c ++ rest) as [|b s] eqn:E; [by apply app_nil in E as [-> _]|].
  cbn [lossy_fuel]. rewrite <- E, next_char_valid by done.
  rewrite take_app_length, drop_app_length. f_equal. apply IH. lia.
Qed.
