(* ===== verification/ChildLog.v ===== *)
(** * The log of a DS4 child: [src/src/cluster/ds4_log.rs] and its consumers

    The two output streams of a child are cut into lines of at most 16 KiB, each line is
    decoded and parsed for the few events the supervisors wait for, and line and event are
    handed over through two channels.  The route of the coordinator
    ([src/src/cluster/process/coordinator.rs]) and the readiness of a tensor-parallel child
    ([src/src/cluster/process/tp.rs]) are folds over what arrives.

    A stream is the list of what [fill_buf] returns; [Url::parse] is the interface
    [UrlParser]; whether the bounded channel takes a record is the interface [LogChannel]. *)

From S2P Require Import Prelude Bytes Utf8 Text.

(** src/src/cluster/ds4_log.rs:9-9 (MAX_CHILD_LOG_LINE_BYTES) *)
Definition MAX_CHILD_LOG_LINE_BYTES : nat := Z.to_nat (16 * 1024).

Module ChildLogStream.

(** src/src/cluster/ds4_log.rs:11-15 (ChildLogStream) *)
Inductive ChildLogStream := Stdout | Stderr.

End ChildLogStream.
Notation ChildLogStream := ChildLogStream.ChildLogStream.

Record Url := mkUrl { url_scheme : bytes; url_host : option bytes; url_text : bytes }.

Class UrlParser := url_parse : bytes → option Url.

Module Ds4LogEvent.

(** src/src/cluster/ds4_log.rs:17-54 (Ds4LogEvent) *)
Inductive Ds4LogEvent :=
| HttpListening (url : Url)
| DsparkActivated
| WorkerRegistered (detail : bytes)
| CompleteRouteReady (detail : bytes)
| WorkerRemoved (detail : bytes)
| RouteIncomplete (detail : bytes)
| PrefillProgress (current total : Z) (percent : f64) (cached : Z)
    (chunk_tps avg_tps elapsed_secs : f64)
| KvCacheHit (tokens : Z) (load_ms : f64)
| GenerationProgress (completion : Z) (chunk_tps avg_tps elapsed_secs : f64).

End Ds4LogEvent.
Notation Ds4LogEvent := Ds4LogEvent.Ds4LogEvent.

(** src/src/cluster/ds4_log.rs:56-65 (ChildLogRecord) *)
Record ChildLogRecord := mkRecord {
  record_profile_id : bytes;
  record_generation : Z;
  record_pid : Z;
  record_stream : ChildLogStream;
  record_line : bytes;
  record_truncated : bool;
  record_event : option Ds4LogEvent;
}.

(** ** The parser *)

Fixpoint find_map {A B} (f : A → option B) (l : list A) : option B :=
  match l with
  | [] => None
  | a :: l => match f a with Some b => Some b | None => find_map f l end
  end.

(** Remove the prefix [MMDD HH:MM:SS ].
    src/src/cluster/ds4_log.rs:229-245 (strip_timestamp) *)
Definition strip_timestamp (line : bytes) : bytes :=
  if (15 <=? length line)%nat
     && bool_decide (line !! 4%nat = Some 32)
     && bool_decide (line !! 7%nat = Some 58)
     && bool_decide (line !! 10%nat = Some 58)
     && bool_decide (line !! 13%nat = Some 32)
     && forallb is_ascii_digit (take 4 line)
     && forallb is_ascii_digit (slice 5 7 line)
     && forallb is_ascii_digit (slice 8 10 line)
     && forallb is_ascii_digit (slice 11 13 line)
  then drop 14 line else line.

(** src/src/cluster/ds4_log.rs:285-292 (value_after_marker) *)
Definition value_after_marker (text marker : bytes) : option f64 :=
  '(_, rest) ← split_once marker text;
  token ← head (split_whitespace rest);
  parse_f64 token.

(** The last word that is a number of seconds. *)
Definition elapsed_of (rest : bytes) : f64 :=
  default f64_zero
    (find_map (fun token => strip_suffix (str "s") token ≫= parse_f64)
       (reverse (split_whitespace rest))).

(** src/src/cluster/ds4_log.rs:248-283 (parse_prefill_progress) *)
Definition parse_prefill_progress (line : bytes) : option Ds4LogEvent :=
  '(before, after) ← split_once (str " prefill chunk ") line;
  '(current_str, rest) ← split_once (str "/") after;
  current ← parse_u64 (trim current_str);
  '(total_str, rest) ← split_once (str " ") rest;
  total ← parse_u64 (trim total_str);
  '(percent_str, _) ← split_once (str "%") (trim_start_matches 40 (trim_start rest));
  percent ← parse_f64 (trim percent_str);
  let cached :=
    default 0 (parse_u64 (trim (split_first (str "..") (rsplit_first (str "ctx=") before)))) in
  Some (Ds4LogEvent.PrefillProgress current total percent cached
    (default f64_zero (value_after_marker rest (str "chunk=")))
    (default f64_zero (value_after_marker rest (str "avg=")))
    (elapsed_of rest)).

(** The number after the first occurrence of a marker, up to a space. *)
Definition field_after (marker rest : bytes) : option bytes :=
  piece ← split marker rest !! 1%nat; head (split (str " ") piece).

(** src/src/cluster/ds4_log.rs:295-311 (parse_kv_cache_hit) *)
Definition parse_kv_cache_hit (line : bytes) : option Ds4LogEvent :=
  rest ← strip_prefix (str "ds4: kv cache hit text ") line;
  after ← strip_prefix (str "tokens=") rest;
  tokens ← head (split (str " ") after) ≫= parse_u64;
  load_ms ← field_after (str " load=") rest ≫= parse_f64;
  Some (Ds4LogEvent.KvCacheHit tokens load_ms).

(** src/src/cluster/ds4_log.rs:314-348 (parse_generation_progress) *)
Definition parse_generation_progress (line : bytes) : option Ds4LogEvent :=
  rest ← strip_prefix (str "ds4-server: ") line;
  completion ← field_after (str " gen=") rest ≫= parse_u64;
  chunk_tps ← field_after (str " decoding chunk=") rest ≫= parse_f64;
  avg_tps ← field_after (str " avg=") rest ≫= parse_f64;
  Some (Ds4LogEvent.GenerationProgress completion chunk_tps avg_tps (elapsed_of rest)).

Definition LISTENING : bytes := str "ds4-server: listening on ".
Definition REGISTERED : bytes := str "ds4: distributed coordinator: registered worker ".
Definition COMPLETE : bytes := str "ds4: distributed coordinator: complete route ready: ".
Definition REMOVED : bytes := str "ds4: distributed coordinator: removed worker ".
Definition INCOMPLETE : bytes := str "ds4: distributed coordinator: route incomplete; ".
Definition DSPARK_ACTIVATED : bytes :=
  str "ds4: DSpark target-hidden capture enabled: layers=".

(** The detail after a prefix, when there is one. *)
Definition detail_after (line prefix : bytes) : option bytes :=
  rest ← strip_prefix prefix line;
  if bool_decide (trim rest = []) then None else Some (trim rest).

Section Parser.
Context {urls : UrlParser}.

(** src/src/cluster/ds4_log.rs:178-226 (parse_ds4_log_event) *)
Definition parse_ds4_log_event (line : bytes) : option Ds4LogEvent :=
  let line := strip_timestamp line in
  match parse_prefill_progress line with Some e => Some e | None =>
  match parse_kv_cache_hit line with Some e => Some e | None =>
  match parse_generation_progress line with Some e => Some e | None =>
  match strip_prefix LISTENING line with
  | Some value =>
      url ← url_parse (trim value);
      if (bool_decide (url_scheme url = str "http") || bool_decide (url_scheme url = str "https"))
         && negb (bool_decide (url_host url = None))
      then Some (Ds4LogEvent.HttpListening url) else None
  | None =>
  if match strip_prefix DSPARK_ACTIVATED line with
     | Some layers => negb (bool_decide (trim layers = []))
     | None => false
     end
  then Some Ds4LogEvent.DsparkActivated
  else
    find_map (fun '(prefix, event) => event <$> detail_after line prefix)
      [(REGISTERED, Ds4LogEvent.WorkerRegistered); (COMPLETE, Ds4LogEvent.CompleteRouteReady);
       (REMOVED, Ds4LogEvent.WorkerRemoved); (INCOMPLETE, Ds4LogEvent.RouteIncomplete)]
  end end end end.

End Parser.

(** ** Cutting a stream into lines *)

(** What [fill_buf] returns, call by call; an empty buffer is the end of the stream, and
    so is the end of the list. *)
Definition Stream := list (result bytes unit).

(** The position of the first newline. *)
Fixpoint newline_position (l : bytes) : option nat :=
  match l with
  | [] => None
  | b :: l => if b =? byte_newline then Some 0%nat else S <$> newline_position l
  end.

Definition ends_with_byte (b : Z) (l : bytes) : bool := bool_decide (last l = Some b).

(** [line.pop()] of the newline and of a return before it. *)
Definition pop_newline (line : bytes) : bytes :=
  if ends_with_byte byte_newline line then
    let line := removelast line in
    if ends_with_byte byte_return line then removelast line else line
  else line.

(** src/src/cluster/ds4_log.rs:385-422 (read_capped_line) *)
Fixpoint read_capped_line (line : bytes) (truncated saw_bytes : bool) (reader : Stream)
    : result (option (bytes * bool)) unit * Stream :=
  match reader with
  | [] => (Ok (if saw_bytes then Some (line, truncated) else None), [])
  | Err e :: reader => (Err e, reader)
  | Ok [] :: reader' => (Ok (if saw_bytes then Some (line, truncated) else None), reader)
  | Ok available :: reader =>
      let end_ := match newline_position available with
                  | Some position => S position
                  | None => length available
                  end in
      let chunk := take end_ available in
      let remaining := (MAX_CHILD_LOG_LINE_BYTES - length line)%nat in
      let line := line ++ take (length chunk `min` remaining) chunk in
      let truncated := truncated || (remaining <? length chunk)%nat in
      if ends_with_byte byte_newline chunk then
        let rest := drop end_ available in
        (Ok (Some (pop_newline line, truncated)),
         if bool_decide (rest = []) then reader else Ok rest :: reader)
      else read_capped_line line truncated true reader
  end.

(** ** Forwarding *)

Inductive TrySend := Sent | Full | Closed.

(** Whether the channel takes a record, given those sent before it. *)
Class LogChannel := try_send_record : list ChildLogRecord → ChildLogRecord → TrySend.

(** What the two receivers get. *)
Record Forwarded := mkForwarded {
  forwarded_events : list Ds4LogEvent;
  forwarded_records : list ChildLogRecord;
}.

Section Forward.
Context {urls : UrlParser} {channel : LogChannel}.

Definition make_record (profile : bytes) (generation pid : Z) (s : ChildLogStream)
    (read : bytes * bool) : ChildLogRecord :=
  let '(raw, truncated) := read in
  let line := from_utf8_lossy raw in
  {| record_profile_id := profile; record_generation := generation; record_pid := pid;
     record_stream := s;
     record_event := if truncated then None else parse_ds4_log_event line;
     record_line := line; record_truncated := truncated |}.

(** The loop; [None] is fuel exhausted.  [capture] is whether there is a channel of events.
    src/src/cluster/ds4_log.rs:350-383 (forward_stream) *)
Fixpoint forward_stream (fuel : nat) (capture : bool) (profile : bytes) (generation pid : Z)
    (s : ChildLogStream) (out : Forwarded) (reader : Stream)
    : option (result unit unit * Forwarded) :=
  match fuel with
  | O => None
  | S fuel =>
      match read_capped_line [] false false reader with
      | (Err e, _) => Some (Err e, out)
      | (Ok None, _) => Some (Ok tt, out)
      | (Ok (Some read), reader) =>
          let record := make_record profile generation pid s read in
          let events := forwarded_events out ++
            (if capture then option_list (record_event record) else []) in
          match try_send_record (forwarded_records out) record with
          | Sent => forward_stream fuel capture profile generation pid s
              (mkForwarded events (forwarded_records out ++ [record])) reader
          | Full => forward_stream fuel capture profile generation pid s
              (mkForwarded events (forwarded_records out)) reader
          | Closed => Some (Ok tt, mkForwarded events (forwarded_records out))
          end
      end
  end.

End Forward.

(** ** The route of the coordinator *)

(** src/src/cluster/process/coordinator.rs:26-31 (CoordinatorRouteState) *)
Record CoordinatorRouteState := mkRoute {
  http_ready : bool;
  worker_registered : bool;
  complete_route : bool;
}.

Definition route_default : CoordinatorRouteState := mkRoute false false false.

(** The arm of the log task for an event.
    src/src/cluster/process/coordinator.rs:83-91 (DistributedCoordinatorSupervisor::start_inner) *)
Definition route_event (state : CoordinatorRouteState) (event : Ds4LogEvent)
    : CoordinatorRouteState :=
  match event with
  | Ds4LogEvent.WorkerRegistered _ => mkRoute (http_ready state) true (complete_route state)
  | Ds4LogEvent.CompleteRouteReady _ => mkRoute (http_ready state) (worker_registered state) true
  | Ds4LogEvent.WorkerRemoved _ => mkRoute (http_ready state) false false
  | Ds4LogEvent.RouteIncomplete _ => mkRoute (http_ready state) (worker_registered state) false
  | _ => state
  end.

(** ** The readiness of a tensor-parallel child *)

(** src/src/cluster/process/tp.rs:21-26 (TpLogReadiness) *)
Record TpLogReadiness := mkTpLog { tp_peer : bool; tp_bound : bool; tp_failed : bool }.

Definition tp_log_default : TpLogReadiness := mkTpLog false false false.

Definition tp_failure_line (line : bytes) : bool :=
  contains (str "TP gate exchange failed") line
  || contains (str "tp hello exchange failed") line
  || contains (str "tp: prefill synchronization failed") line
  || contains (str "big gate payload exchange failed") line.

Definition tp_peer_line (line : bytes) : bool :=
  starts_with (str "ds4-tp: worker connected, transport=rdma ") line
  || starts_with (str "ds4-tp: leader connected, transport=rdma ") line.

Definition tp_bound_line (line : bytes) : bool :=
  existsb (fun rank => contains (str "tensor parallelism bound: rank " ++ u64_to_string rank
                       ++ str ", 50/50 expert ownership, rdma transport") line) [0; 1].

(** src/src/cluster/process/tp.rs:28-50 (observe, TpLogReadiness::observe) *)
Definition tp_log_observe (self : TpLogReadiness) (line : bytes) : TpLogReadiness :=
  mkTpLog (tp_peer self || tp_peer_line line) (tp_bound self || tp_bound_line line)
    (tp_failed self || tp_failure_line line).

(** src/src/cluster/process/tp.rs:51-53 (connected, TpLogReadiness::connected) *)
Definition tp_log_connected (self : TpLogReadiness) : bool :=
  tp_peer self && tp_bound self && negb (tp_failed self).

(** src/src/cluster/process/tp.rs:297-299 (invalidate) *)
Definition tp_log_invalidate (observed : Z * TpLogReadiness) : Z * TpLogReadiness :=
  (fst observed, mkTpLog (tp_peer (snd observed)) (tp_bound (snd observed)) true).

(** One record in the log task of a session.
    src/src/cluster/process/tp.rs:144-152 (TpProcessSupervisor::start_inner) *)
Definition tp_log_record (session : Z) (observed : Z * TpLogReadiness) (r : ChildLogRecord)
    : Z * TpLogReadiness :=
  if (fst observed =? session) && (record_generation r =? session) && negb (record_truncated r)
  then (fst observed, tp_log_observe (snd observed) (record_line r)) else observed.

(** ** Reference definition of the lines *)

(** The lines of a text; the flag is whether a newline ends the line.  [acc] is the part
    of the current line that was read. *)
Fixpoint text_lines (acc s : bytes) : list (bytes * bool) :=
  match s with
  | [] => if bool_decide (acc = []) then [] else [(acc, false)]
  | b :: s =>
      if b =? byte_newline then (acc, true) :: text_lines [] s else text_lines (acc ++ [b]) s
  end.

(** A line with its newline is cut after the maximum; one that fits loses its end of line. *)
Definition capped (l : bytes * bool) : bytes * bool :=
  let '(line, terminated) := l in
  let raw := if terminated : bool then line ++ [byte_newline] else line in
  let kept := take MAX_CHILD_LOG_LINE_BYTES raw in
  (if terminated : bool then pop_newline kept else kept,
   (MAX_CHILD_LOG_LINE_BYTES <? length raw)%nat).

Definition capped_lines (s : bytes) : list (bytes * bool) := capped <$> text_lines [] s.

#[local] Opaque MAX_CHILD_LOG_LINE_BYTES.

Lemma newline_position_spec l :
  match newline_position l with
  | Some n => ∃ a r, l = a ++ byte_newline :: r ∧ length a = n ∧ byte_newline ∉ a
  | None => byte_newline ∉ l
  end.
Proof.
  induction l as [|b l IH]; simpl; [by intros ?%elem_of_nil|].
  destruct (Z.eqb_spec b byte_newline) as [->|Hb].
  - exists [], l. split_and!; [done..|by intros ?%elem_of_nil].
  - destruct (newline_position l) as [n|]; simpl.
    + destruct IH as (a & r & -> & <- & Ha). exists (b :: a), r. split_and!; [done..|].
      by intros [|]%elem_of_cons.
    + by intros [|]%elem_of_cons.
Qed.

Lemma text_lines_terminated acc a r :
  byte_newline ∉ a → text_lines acc (a ++ byte_newline :: r) = (acc ++ a, true) :: text_lines [] r.
Proof.
  revert acc. induction a as [|b a IH]; intros acc Ha; simpl; [by rewrite app_nil_r|].
  destruct (Z.eqb_spec b byte_newline); [set_solver|].
  rewrite IH by set_solver. by rewrite <- app_assoc.
Qed.

Lemma text_lines_open acc a :
  byte_newline ∉ a →
  text_lines acc a = if bool_decide (acc ++ a = []) then [] else [(acc ++ a, false)].
Proof.
  revert acc. induction a as [|b a IH]; intros acc Ha; simpl; [by rewrite app_nil_r|].
  destruct (Z.eqb_spec b byte_newline); [set_solver|].
  rewrite IH by set_solver. by rewrite <- app_assoc.
Qed.

(** Adding a chunk to a line that was cut. *)
Lemma take_cap_app m (acc c : bytes) :
  take m acc ++ take (length c `min` (m - length (take m acc))) c = take m (acc ++ c).
Proof.
  rewrite take_app, length_take. f_equal.
  destruct (decide (length acc ≤ m)%nat).
  - replace (m - m `min` length acc)%nat with (m - length acc)%nat by lia.
    destruct (decide (length c ≤ m - length acc)%nat).
    + by rewrite Nat.min_l, !take_ge by lia.
    + by rewrite Nat.min_r by lia.
  - replace (length c `min` (m - m `min` length acc))%nat with 0%nat by lia.
    by replace (m - length acc)%nat with 0%nat by lia.
Qed.

Lemma cut_cap_app m (acc c : bytes) :
  (m <? length acc)%nat || (m - length (take m acc) <? length c)%nat = (m <? length (acc ++ c))%nat.
Proof.
  rewrite length_take, length_app.
  destruct (Nat.ltb_spec m (length acc)); simpl.
  - symmetry. apply Nat.ltb_lt. lia.
  - destruct (Nat.ltb_spec (m - m `min` length acc) (length c)); symmetry;
      [apply Nat.ltb_lt|apply Nat.ltb_ge]; lia.
Qed.

(** The buffers of a reader that neither fails nor ends early. *)
Definition buffers (chunks : list bytes) : Stream := Ok <$> chunks.

Notation nonempty_chunks := (Forall (fun c : bytes => c ≠ [])).

Lemma ends_with_byte_snoc b a l : ends_with_byte b (l ++ [a]) = (a =? b).
Proof.
  unfold ends_with_byte. rewrite last_snoc. destruct (Z.eqb_spec a b) as [->|];
    [by apply bool_decide_eq_true_2|apply bool_decide_eq_false_2; congruence].
Qed.

Lemma ends_with_byte_not_elem b l : b ∉ l → ends_with_byte b l = false.
Proof.
  intros Hb. apply bool_decide_eq_false_2. intros (l' & ->)%last_Some. set_solver.
Qed.

(** A buffer with a newline ends the line, one without goes into it. *)
Lemma read_line_end a r acc reader saw :
  byte_newline ∉ a →
  read_capped_line (take MAX_CHILD_LOG_LINE_BYTES acc) (MAX_CHILD_LOG_LINE_BYTES <? length acc)%nat
    saw (Ok (a ++ byte_newline :: r) :: reader)
  = (Ok (Some (capped (acc ++ a, true))), if bool_decide (r = []) then reader else Ok r :: reader).
Proof.
  intros Ha. pose proof (newline_position_spec (a ++ byte_newline :: r)) as Hp.
  assert (newline_position (a ++ byte_newline :: r) = Some (length a)) as Hn.
  { clear Hp. induction a as [|b a IH]; simpl; [done|].
    destruct (Z.eqb_spec b byte_newline); [set_solver|]. by rewrite IH by set_solver. }
  cbn [read_capped_line]. rewrite Hn.
  destruct (a ++ byte_newline :: r) as [|b0 c0] eqn:Ec; [by destruct a|]. rewrite <- Ec.
  rewrite cons_middle, app_assoc, take_app_length', drop_app_length'
    by (rewrite length_app; simpl; lia).
  rewrite take_cap_app, cut_cap_app, ends_with_byte_snoc, Z.eqb_refl, app_assoc. done.
Qed.

Lemma read_line_more c acc reader saw :
  c ≠ [] → byte_newline ∉ c →
  read_capped_line (take MAX_CHILD_LOG_LINE_BYTES acc) (MAX_CHILD_LOG_LINE_BYTES <? length acc)%nat
    saw (Ok c :: reader)
  = read_capped_line (take MAX_CHILD_LOG_LINE_BYTES (acc ++ c))
      (MAX_CHILD_LOG_LINE_BYTES <? length (acc ++ c))%nat true reader.
Proof.
  intros Hc Hb. pose proof (newline_position_spec c) as Hp.
  cbn [read_capped_line]. destruct c as [|b0 c0] eqn:Ec; [done|]. rewrite <- Ec in *.
  destruct (newline_position c); [destruct Hp as (a & r & -> & _); set_solver|].
  rewrite firstn_all, take_cap_app, cut_cap_app, ends_with_byte_not_elem by done. done.
Qed.

(** One line of the reader is one line of the text, whatever the buffers. *)
Lemma read_capped_line_spec chunks : ∀ acc,
  nonempty_chunks chunks →
  match text_lines acc (concat chunks) with
  | [] => read_capped_line (take MAX_CHILD_LOG_LINE_BYTES acc)
            (MAX_CHILD_LOG_LINE_BYTES <? length acc)%nat (negb (bool_decide (acc = [])))
            (buffers chunks) = (Ok None, [])
  | l :: ls => ∃ chunks', nonempty_chunks chunks'
      ∧ read_capped_line (take MAX_CHILD_LOG_LINE_BYTES acc)
            (MAX_CHILD_LOG_LINE_BYTES <? length acc)%nat (negb (bool_decide (acc = [])))
            (buffers chunks) = (Ok (Some (capped l)), buffers chunks')
      ∧ ls = text_lines [] (concat chunks')
  end.
Proof.
  induction chunks as [|c chunks IH]; intros acc Hne.
  - simpl. destruct (bool_decide_reflect (acc = [])) as [->|]; [done|]. by exists [].
  - apply Forall_cons in Hne as [Hc Hne]. cbn [concat buffers fmap list_fmap].
    fold (buffers chunks).
    pose proof (newline_position_spec c) as Hp. destruct (newline_position c) as [n|].
    + destruct Hp as (a & r & -> & _ & Ha).
      rewrite <- (app_assoc a), <- app_comm_cons, (text_lines_terminated acc a) by done.
      exists (if bool_decide (r = []) then chunks else r :: chunks). split_and!.
      * by destruct (bool_decide_reflect (r = [])); [|constructor].
      * rewrite read_line_end by done. by destruct (bool_decide (r = [])).
      * by destruct (bool_decide_reflect (r = [])) as [->|].
    + rewrite read_line_more by done. specialize (IH (acc ++ c) Hne).
      rewrite (bool_decide_eq_false_2 (acc ++ c = [])) in IH by (intros [_ ?]%app_nil; done).
      assert (text_lines acc (c ++ concat chunks) = text_lines (acc ++ c) (concat chunks)) as ->;
        [|exact IH].
      clear IH Hc. revert acc. induction c as [|b c IHc]; intros acc; simpl; [by rewrite app_nil_r|].
      destruct (Z.eqb_spec b byte_newline); [set_solver|].
      rewrite IHc by set_solver. by rewrite <- app_assoc.
Qed.

Lemma text_lines_length acc s : (length (text_lines acc s) ≤ length (acc ++ s))%nat.
Proof.
  revert acc. induction s as [|b s IH]; intros acc; simpl.
  - rewrite app_nil_r. destruct acc; simpl; lia.
  - rewrite length_app. simpl. destruct (b =? byte_newline); simpl.
    + specialize (IH []). simpl in IH. lia.
    + specialize (IH (acc ++ [b])). rewrite !length_app in IH. simpl in IH. lia.
Qed.

(** A line is at most as long as the maximum. *)
Lemma capped_length l : (length (fst (capped l)) ≤ MAX_CHILD_LOG_LINE_BYTES)%nat.
Proof.
  assert (∀ s : bytes, (length (removelast s) ≤ length s)%nat) as Hr.
  { intros s. rewrite <- (reverse_involutive s). destruct (reverse s) as [|b r]; [done|].
    rewrite reverse_cons, removelast_last, length_app. simpl. lia. }
  destruct l as [line []]; simpl; [|rewrite length_take; lia].
  unfold pop_newline. pose proof (length_take (line ++ [byte_newline]) MAX_CHILD_LOG_LINE_BYTES).
  repeat case_match; simpl; rewrite ?H; try lia;
    pose proof (Hr (take MAX_CHILD_LOG_LINE_BYTES (line ++ [byte_newline])));
    pose proof (Hr (removelast (take MAX_CHILD_LOG_LINE_BYTES (line ++ [byte_newline])))); lia.
Qed.

Section Forwarded.
Context {urls : UrlParser} {channel : LogChannel}.
Context (profile : bytes) (generation pid : Z) (s : ChildLogStream).

(** The records of a text. *)
Definition log_records (input : bytes) : list ChildLogRecord :=
  make_record profile generation pid s <$> capped_lines input.

Lemma forward_stream_exact fuel : ∀ chunks out,
  nonempty_chunks chunks →
  (∀ sent r, try_send_record sent r ≠ Closed) →
  (length (text_lines [] (concat chunks)) < fuel)%nat →
  ∃ out', forward_stream fuel true profile generation pid s out (buffers chunks)
          = Some (Ok tt, out')
  ∧ forwarded_events out' = forwarded_events out ++ omap record_event (log_records (concat chunks))
  ∧ ∃ kept, forwarded_records out' = forwarded_records out ++ kept
            ∧ kept `sublist_of` log_records (concat chunks).
Proof.
  induction fuel as [|fuel IH]; intros chunks out Hne Hopen Hf; [lia|].
  pose proof (read_capped_line_spec chunks [] Hne) as Hread. cbn [forward_stream].
  rewrite take_nil in Hread.
  change (MAX_CHILD_LOG_LINE_BYTES <? length (@nil Z))%nat with false in Hread.
  rewrite (bool_decide_eq_true_2 ([] = [])) in Hread by done. cbn [negb] in Hread.
  unfold log_records, capped_lines.
  destruct (text_lines [] (concat chunks)) as [|l ls] eqn:E.
  - rewrite Hread. exists out. cbn. rewrite app_nil_r. split_and!; [done..|].
    exists []. by rewrite app_nil_r.
  - destruct Hread as (chunks' & Hne' & Hl & Els). rewrite Hl. cbn [fmap list_fmap].
    set (r := make_record profile generation pid s (capped l)). subst ls.
    assert (omap record_event (r :: (make_record profile generation pid s <$>
        (capped <$> text_lines [] (concat chunks'))))
      = option_list (record_event r) ++ omap record_event (log_records (concat chunks'))) as ->.
    { cbn. by destruct (record_event r). }
    destruct (try_send_record (forwarded_records out) r) eqn:Hs; [| |by apply Hopen in Hs].
    + destruct (IH chunks' (mkForwarded (forwarded_events out ++ option_list (record_event r))
        (forwarded_records out ++ [r])) Hne' Hopen) as (out' & Hrun & Hev & kept & Hrec & Hsub);
        [simpl in Hf; lia|]. exists out'. split; [exact Hrun|]. split.
      { rewrite Hev. cbn [forwarded_events]. by rewrite <- app_assoc. }
      exists (r :: kept). rewrite Hrec. cbn [forwarded_records]. rewrite <- app_assoc.
      split; [done|]. by apply sublist_skip.
    + destruct (IH chunks' (mkForwarded (forwarded_events out ++ option_list (record_event r))
        (forwarded_records out)) Hne' Hopen) as (out' & Hrun & Hev & kept & Hrec & Hsub);
        [simpl in Hf; lia|]. exists out'. split; [exact Hrun|]. split.
      { rewrite Hev. cbn [forwarded_events]. by rewrite <- app_assoc. }
      exists kept. split; [exact Hrec|]. by apply sublist_cons.
Qed.

End Forwarded.

(** ** Which lines mean what *)

(** A flag that some inputs set and others clear is up when one set it and none after it
    cleared it. *)
Lemma flag_fold {S A} (step : S → A → S) (flag : S → bool) (up down : A → bool) s0 l :
  flag s0 = false →
  (∀ s a, flag (step s a) = if up a then true else if down a then false else flag s) →
  flag (foldl step s0 l) = true ↔
    ∃ l1 a l2, l = l1 ++ a :: l2 ∧ up a = true
      ∧ Forall (fun a => up a = true ∨ down a = false) l2.
Proof.
  intros H0 Hstep. induction l as [|a l IH] using rev_ind.
  - simpl. rewrite H0. split; [done|]. intros (l1 & a & l2 & E & _). by destruct l1.
  - rewrite foldl_snoc, Hstep. destruct (up a) eqn:Hu.
    { split; [|done]. intros _. exists l, a, []. by split_and!. }
    destruct (down a) eqn:Hd.
    + split; [done|]. intros (l1 & b & l2 & E & Hb & Hl).
      destruct l2 as [|c l2 _] using rev_ind; [apply app_inj_tail in E as [_ <-]; congruence|].
      rewrite app_comm_cons, app_assoc in E. apply app_inj_tail in E as [_ <-].
      apply Forall_app in Hl as [_ [[] _]%Forall_cons_1]; congruence.
    + rewrite IH. split.
      * intros (l1 & b & l2 & -> & Hb & Hl). exists l1, b, (l2 ++ [a]). split_and!; [|done|].
        { by rewrite <- app_assoc. }
        apply Forall_app. split; [done|]. apply Forall_singleton. by right.
      * intros (l1 & b & l2 & E & Hb & Hl).
        destruct l2 as [|c l2 _] using rev_ind; [apply app_inj_tail in E as [_ <-]; congruence|].
        rewrite app_comm_cons, app_assoc in E. apply app_inj_tail in E as [-> <-].
        apply Forall_app in Hl as [Hl _]. by exists l1, b, l2.
Qed.

Definition registers (e : Ds4LogEvent) : bool :=
  match e with Ds4LogEvent.WorkerRegistered _ => true | _ => false end.
Definition completes (e : Ds4LogEvent) : bool :=
  match e with Ds4LogEvent.CompleteRouteReady _ => true | _ => false end.
Definition removes (e : Ds4LogEvent) : bool :=
  match e with Ds4LogEvent.WorkerRemoved _ => true | _ => false end.
Definition breaks (e : Ds4LogEvent) : bool :=
  match e with Ds4LogEvent.RouteIncomplete _ => true | _ => removes e end.

(** Whether a line has an event of a kind. *)
Definition on_line (kind : Ds4LogEvent → bool) (r : ChildLogRecord) : bool :=
  match record_event r with Some e => kind e | None => false end.

Definition route_record (state : CoordinatorRouteState) (r : ChildLogRecord) :=
  match record_event r with Some e => route_event state e | None => state end.

Lemma route_events_records state l :
  foldl route_event state (omap record_event l) = foldl route_record state l.
Proof.
  revert state. induction l as [|r l IH]; intros state; [done|]. cbn.
  unfold route_record at 2. destruct (record_event r); apply IH.
Qed.

Section Route.
Context {urls : UrlParser} {channel : LogChannel}.
Context (profile : bytes) (generation pid : Z) (s : ChildLogStream).

(** However the output of a coordinator child arrives in buffers and however slowly its
    log is read, forwarding ends with the output, and the route built from the forwarded
    events is the one of the lines of the text: the worker counts as registered when some
    line registered one and no later line removed one, and the route counts as complete when
    some line completed it and no later line removed a worker or broke the route.  A line of
    more than 16 KiB never counts, and no record holds more. *)
Lemma coordinator_route_follows_log chunks :
  nonempty_chunks chunks →
  (∀ sent r, try_send_record sent r ≠ Closed) →
  let input := concat chunks in
  let lines := log_records profile generation pid s input in
  ∃ out, forward_stream (S (length input)) true profile generation pid s (mkForwarded [] [])
           (buffers chunks) = Some (Ok tt, out)
  ∧ let route := foldl route_event route_default (forwarded_events out) in
    (worker_registered route = true ↔ ∃ l1 r l2, lines = l1 ++ r :: l2
       ∧ on_line registers r = true ∧ Forall (fun r => on_line removes r = false) l2)
  ∧ (complete_route route = true ↔ ∃ l1 r l2, lines = l1 ++ r :: l2
       ∧ on_line completes r = true ∧ Forall (fun r => on_line breaks r = false) l2)
  ∧ Forall (fun r => record_truncated r = true → record_event r = None) lines
  ∧ Forall (fun l => (length (fst l) ≤ MAX_CHILD_LOG_LINE_BYTES)%nat) (capped_lines input).
Proof.
  intros Hne Hopen input lines.
  destruct (forward_stream_exact profile generation pid s (S (length input)) chunks
    (mkForwarded [] []) Hne Hopen) as (out & Hrun & Hev & _).
  { pose proof (text_lines_length [] input). simpl in H. unfold input in *. lia. }
  exists out. split; [done|]. cbn in Hev. rewrite Hev, route_events_records. fold input lines.
  assert (∀ up down l, (∀ r, on_line up r = true → on_line down r = false) →
    Forall (fun r => on_line up r = true ∨ on_line down r = false) l ↔
    Forall (fun r => on_line down r = false) l) as Hweak.
  { intros up down l Hud. rewrite !Forall_forall. naive_solver. }
  split_and!.
  - rewrite (flag_fold route_record worker_registered (on_line registers) (on_line removes)).
    + setoid_rewrite Hweak; [done|]. intros r. unfold on_line. by destruct (record_event r) as [[]|].
    + done.
    + intros st r. unfold route_record, on_line. by destruct (record_event r) as [[]|].
  - rewrite (flag_fold route_record complete_route (on_line completes) (on_line breaks)).
    + setoid_rewrite Hweak; [done|]. intros r. unfold on_line. by destruct (record_event r) as [[]|].
    + done.
    + intros st r. unfold route_record, on_line. by destruct (record_event r) as [[]|].
  - apply Forall_fmap, Forall_forall. intros [raw t] _ Ht. simpl in *. by subst.
  - apply Forall_fmap, Forall_forall. intros l _. apply capped_length.
Qed.

End Route.

(** ** The lines of the route *)

(** The four prefixes and their events. *)
Definition route_markers : list (bytes * (bytes → Ds4LogEvent)) :=
  [(REGISTERED, Ds4LogEvent.WorkerRegistered); (COMPLETE, Ds4LogEvent.CompleteRouteReady);
   (REMOVED, Ds4LogEvent.WorkerRemoved); (INCOMPLETE, Ds4LogEvent.RouteIncomplete)].

Lemma strip_timestamp_spec (stamp line : bytes) :
  length stamp = 14%nat → stamp !! 4%nat = Some 32 → stamp !! 7%nat = Some 58 →
  stamp !! 10%nat = Some 58 → stamp !! 13%nat = Some 32 →
  (∀ i b, stamp !! i = Some b → i ∉ [4; 7; 10; 13]%nat → is_ascii_digit b = true) →
  line ≠ [] → strip_timestamp (stamp ++ line) = line.
Proof.
  intros Hl H4 H7 H10 H13 Hd Hline.
  do 14 (destruct stamp as [|? stamp]; [done|]). destruct stamp; [|done]. simplify_eq/=.
  assert (∀ (i : nat) b, _ !! i = Some b → i ∉ [4; 7; 10; 13]%nat → is_ascii_digit b = true)
    as Hd' by exact Hd.
  unfold strip_timestamp.
  destruct line as [|b line]; [done|]. cbn [app length take drop forallb slice Nat.sub].
  rewrite (Hd 0%nat _ eq_refl), (Hd 1%nat _ eq_refl), (Hd 2%nat _ eq_refl), (Hd 3%nat _ eq_refl),
    (Hd 5%nat _ eq_refl), (Hd 6%nat _ eq_refl), (Hd 8%nat _ eq_refl), (Hd 9%nat _ eq_refl),
    (Hd 11%nat _ eq_refl), (Hd 12%nat _ eq_refl) by set_solver.
  done.
Qed.

Section RouteLines.
Context {urls : UrlParser}.

Lemma prefill_needs_marker line :
  contains (str " prefill chunk ") line = false → parse_prefill_progress line = None.
Proof. intros H%split_once_none. unfold parse_prefill_progress. by rewrite H. Qed.

Lemma prefill_event line e :
  parse_prefill_progress line = Some e → ∃ a b c d f g h, e = Ds4LogEvent.PrefillProgress a b c d f g h.
Proof.
  unfold parse_prefill_progress. intros H.
  repeat (apply bind_Some in H as (? & ? & H); repeat case_match). naive_solver.
Qed.

Lemma kv_event line e :
  parse_kv_cache_hit line = Some e → ∃ a b, e = Ds4LogEvent.KvCacheHit a b.
Proof.
  unfold parse_kv_cache_hit. intros H.
  repeat (apply bind_Some in H as (? & ? & H); repeat case_match). naive_solver.
Qed.

Lemma generation_event line e :
  parse_generation_progress line = Some e → ∃ a b c d, e = Ds4LogEvent.GenerationProgress a b c d.
Proof.
  unfold parse_generation_progress. intros H.
  repeat (apply bind_Some in H as (? & ? & H); repeat case_match). naive_solver.
Qed.

Lemma detail_after_spec line prefix d :
  detail_after line prefix = Some d ↔ ∃ x, line = prefix ++ x ∧ trim x = d ∧ d ≠ [].
Proof.
  unfold detail_after. rewrite bind_Some. setoid_rewrite strip_prefix_spec. split.
  - intros (x & -> & H). case_bool_decide; simplify_eq. by exists x.
  - intros (x & -> & <- & ?). exists x. by rewrite bool_decide_eq_false_2.
Qed.

Lemma find_map_some {A B} (f : A → option B) l b :
  find_map f l = Some b → ∃ a, a ∈ l ∧ f a = Some b.
Proof.
  induction l as [|a l IH]; simpl; [done|]. destruct (f a) eqn:E; [|set_solver].
  intros [= ->]. exists a. set_solver.
Qed.

(** Two texts of which neither starts with the other. *)
Definition differ (p q : bytes) : bool :=
  bool_decide (strip_prefix p q = None) && bool_decide (strip_prefix q p = None).

Lemma strip_other p q x : differ p q = true → strip_prefix p (q ++ x) = None.
Proof.
  unfold differ. rewrite andb_true_iff, !bool_decide_eq_true. revert q.
  induction p as [|a p IH]; intros [|b q]; simpl; [naive_solver..|].
  rewrite (Z.eqb_sym b a). destruct (a =? b); [apply IH|done].
Qed.

Lemma detail_other p q x : differ p q = true → detail_after (q ++ x) p = None.
Proof. intros H. unfold detail_after. by rewrite strip_other. Qed.

Lemma route_markers_inj p ev q ev' d d' :
  (p, ev) ∈ route_markers → (q, ev') ∈ route_markers → ev d = ev' d' → p = q ∧ d = d'.
Proof.
  unfold route_markers. rewrite !elem_of_cons, !elem_of_nil.
  intros [[= -> ->]|[[= -> ->]|[[= -> ->]|[[= -> ->]|[]]]]]
    [[= -> ->]|[[= -> ->]|[[= -> ->]|[[= -> ->]|[]]]]]; intros [= <-]; done.
Qed.

(** No event of another kind is an event of the route. *)
Ltac not_marker H := exfalso; unfold route_markers in H; rewrite !elem_of_cons in H;
  destruct H as [[= -> ->]|[[= -> ->]|[[= -> ->]|[[= -> ->]|[]%elem_of_nil]]]]; discriminate.

(** A line, with or without its time stamp, is the event of the route with detail [d]
    exactly when it is the marker of the event followed by a text that is [d] without the
    white space around it, and [d] is not empty; only a line that also has the marker of
    the prefill progress may be taken for something else. *)
Lemma route_line_exact prefix event line d :
  (prefix, event) ∈ route_markers →
  contains (str " prefill chunk ") (strip_timestamp line) = false →
  parse_ds4_log_event line = Some (event d)
  ↔ ∃ x, strip_timestamp line = prefix ++ x ∧ trim x = d ∧ d ≠ [].
Proof.
  intros Hm Hno. unfold parse_ds4_log_event. rewrite (prefill_needs_marker _ Hno).
  generalize (strip_timestamp line) as l. clear Hno line. intros l.
  rewrite <- detail_after_spec.
  split.
  - destruct (parse_kv_cache_hit l) as [e|] eqn:Hk; [apply kv_event in Hk as (? & ? & ->)|].
    { intros [= E]. not_marker Hm. }
    destruct (parse_generation_progress l) as [e|] eqn:Hg.
    { apply generation_event in Hg as (?&?&?&?&->). intros [= E].
      not_marker Hm. }
    destruct (strip_prefix LISTENING l) as [v|].
    { intros (u & _ & H)%bind_Some. case_match; simplify_eq.
      not_marker Hm. }
    case_match. { intros [= E]. not_marker Hm. }
    intros (p & E & Hp)%find_map_some. destruct p as [q ev]. fold route_markers in E.
    destruct (detail_after l q) as [d'|] eqn:Hq; [|done]. injection Hp as Hev.
    by destruct (route_markers_inj _ _ _ _ _ _ E Hm Hev) as [<- <-].
  - intros Hd. pose proof Hd as (x & -> & _)%detail_after_spec.
    unfold route_markers in Hm. rewrite !elem_of_cons in Hm.
    unfold parse_kv_cache_hit, parse_generation_progress.
    destruct Hm as [[= -> ->]|[[= -> ->]|[[= -> ->]|[[= -> ->]|[]%elem_of_nil]]]];
      rewrite !strip_other by (by vm_compute); cbn [mbind option_bind find_map];
      rewrite ?detail_other by (by vm_compute); by rewrite Hd.
Qed.

End RouteLines.

(** ** The readiness of a session *)

(** A tensor-parallel child counts as connected exactly when, since its session began, some
    complete line of its log announced the peer, some the binding, and none a failure. *)
Lemma tp_connected_iff session l :
  let lines := filter (fun r => record_generation r = session ∧ record_truncated r = false) l in
  tp_log_connected (snd (foldl (tp_log_record session) (session, tp_log_default) l)) = true
  ↔ (∃ r, r ∈ lines ∧ tp_peer_line (record_line r) = true)
    ∧ (∃ r, r ∈ lines ∧ tp_bound_line (record_line r) = true)
    ∧ ∀ r, r ∈ lines → tp_failure_line (record_line r) = false.
Proof.
  intros lines.
  assert (∀ o, fst (foldl (tp_log_record session) (session, o) l) = session
    ∧ snd (foldl (tp_log_record session) (session, o) l)
      = mkTpLog (tp_peer o || existsb (fun r => tp_peer_line (record_line r)) lines)
          (tp_bound o || existsb (fun r => tp_bound_line (record_line r)) lines)
          (tp_failed o || existsb (fun r => tp_failure_line (record_line r)) lines)) as Hfold.
  { unfold lines. clear lines. induction l as [|r l IH]; intros o.
    - simpl. rewrite !orb_false_r. by destruct o.
    - cbn [foldl]. rewrite filter_cons. case_decide as Hr; cbn [existsb].
      + assert (tp_log_record session (session, o) r
          = (session, tp_log_observe o (record_line r))) as ->.
        { unfold tp_log_record. cbn [fst snd]. destruct Hr as [-> ->]. by rewrite Z.eqb_refl. }
        destruct (IH (tp_log_observe o (record_line r))) as [? ->].
        split; [done|]. cbn [tp_log_observe tp_peer tp_bound tp_failed]. by rewrite !orb_assoc.
      + assert (tp_log_record session (session, o) r = (session, o)) as ->; [|apply IH].
        unfold tp_log_record. cbn [fst snd]. rewrite Z.eqb_refl.
        destruct (Z.eqb_spec (record_generation r) session), (record_truncated r); naive_solver. }
  destruct (Hfold tp_log_default) as [_ ->]. unfold tp_log_connected. cbn [tp_peer tp_bound
    tp_failed tp_log_default orb].
  assert (∀ (f : bytes → bool), existsb (fun r => f (record_line r)) lines = true
    ↔ ∃ r, r ∈ lines ∧ f (record_line r) = true) as Hex.
  { intros f. rewrite existsb_exists. by setoid_rewrite list_elem_of_In. }
  rewrite !andb_true_iff, negb_true_iff, <- not_true_iff_false, !Hex.
  split; [intros [[? ?] Hno]|intros (? & ? & Hno)]; split_and!; try done.
  - intros r Hr. apply not_true_iff_false. intros Hf. apply Hno. by exists r.
  - intros (r & Hr & Hf). by rewrite Hno in Hf.
Qed.

(** ** Concrete logs *)

Module DemoLog.

Definition no_urls : UrlParser := fun _ => None.
Definition http_urls : UrlParser := fun t => Some (mkUrl (str "http") (Some (str "127.0.0.1")) t).
Definition wide : LogChannel := fun _ _ => Sent.
(** A channel of the given capacity whose reader does not come. *)
Definition narrow (capacity : nat) : LogChannel :=
  fun sent _ => if (length sent <? capacity)%nat then Sent else Full.
Global Existing Instance http_urls.

Definition nl : bytes := [13; 10].

Definition input : bytes :=
  str "noise" ++ nl
  ++ str "0812 14:30:45 ds4: distributed coordinator: registered worker node-b" ++ nl
  ++ str "ds4: distributed coordinator: complete route ready:  deployment-7 " ++ nl
  ++ str "ds4: distributed coordinator: route incomplete; missing layer 20".

(** The same output in buffers of seven bytes. *)
Definition buffers_of_seven : list bytes :=
  (fun i => slice (7 * i) (7 * i + 7) input) <$> seq 0 (length input / 7 + 1).

Example lines_read :
  (fun r => (record_event r)) <$> log_records (str "p") 1 42 ChildLogStream.Stdout input
  = [None; Some (Ds4LogEvent.WorkerRegistered (str "node-b"));
     Some (Ds4LogEvent.CompleteRouteReady (str "deployment-7"));
     Some (Ds4LogEvent.RouteIncomplete (str "missing layer 20"))].
Proof. vm_compute. reflexivity. Qed.

(** The lines of the repository's tests. *)
Example progress_lines :
  parse_ds4_log_event (str "0812 14:30:45 ds4-server: chat ctx=0..9005:0 prefill chunk 4096/9005 (45.5%) chunk=123.4 t/s avg=100.0 t/s 10.000s")
  = Some (Ds4LogEvent.PrefillProgress 4096 9005 (Decimal false 455 (-1)) 0
      (Decimal false 1234 (-1)) (Decimal false 1000 (-1)) (Decimal false 10000 (-3)))
  ∧ parse_ds4_log_event (str "ds4-server: completion ctx=2048..9005:6957 prefill chunk 8192/9005 (91.0%) chunk=200.0 t/s avg=180.0 t/s 20.000s")
  = Some (Ds4LogEvent.PrefillProgress 8192 9005 (Decimal false 910 (-1)) 2048
      (Decimal false 2000 (-1)) (Decimal false 1800 (-1)) (Decimal false 20000 (-3)))
  ∧ parse_ds4_log_event (str "ds4: kv cache hit text tokens=9005 text=hello quant=8 key=prefix load=12.3 ms file=/tmp/cache.bin")
  = Some (Ds4LogEvent.KvCacheHit 9005 (Decimal false 123 (-1)))
  ∧ parse_ds4_log_event (str "0812 14:31:00 ds4-server: chat ctx=0..9005:0 gen=42 decoding chunk=32.1 t/s avg=28.5 t/s 1.500s")
  = Some (Ds4LogEvent.GenerationProgress 42 (Decimal false 321 (-1)) (Decimal false 285 (-1))
      (Decimal false 1500 (-3)))
  ∧ parse_ds4_log_event (str "ds4: distributed coordinator: registered worker ") = None
  ∧ parse_ds4_log_event (str "ds4: DSpark target-hidden capture enabled: layers=3,7,11")
    = Some Ds4LogEvent.DsparkActivated
  ∧ parse_ds4_log_event (str "model load complete") = None.
Proof. vm_compute. done. Qed.

(** The text of a request in the log can pass for a progress line: the marker is searched
    anywhere in a line, before the prefixes of the route. *)
Example detail_taken_for_progress :
  parse_ds4_log_event (str "ds4: distributed coordinator: removed worker a prefill chunk 1/2 (3%")
  = Some (Ds4LogEvent.PrefillProgress 1 2 (Decimal false 3 0) 0 f64_zero f64_zero f64_zero).
Proof. vm_compute. reflexivity. Qed.

(** A full channel drops records but no event: the supervisors of the distributed children
    read events, while the readiness of a tensor-parallel child is read from the records and
    loses its marker. *)
Definition tp_output : bytes :=
  str "noise" ++ nl ++ str "ds4-tp: worker connected, transport=rdma mtu=4096" ++ nl
  ++ str "tensor parallelism bound: rank 1, 50/50 expert ownership, rdma transport" ++ nl.

Definition tp_readiness (channel : LogChannel) : option bool :=
  out ← forward_stream (channel := channel) 9 false (str "p") 7 42 ChildLogStream.Stderr
    (mkForwarded [] []) [Ok tp_output];
  Some (tp_log_connected (snd (foldl (tp_log_record 7) (7, tp_log_default)
    (forwarded_records (snd out))))).

Example full_channel_loses_marker :
  tp_readiness wide = Some true ∧ tp_readiness (narrow 2) = Some false.
Proof. vm_compute. done. Qed.

End DemoLog.

Section log_witnesses.

Lemma coordinator_route_follows_log_witness :
  ∃ out, forward_stream (urls := DemoLog.no_urls) (channel := DemoLog.narrow 1)
      (S (length (concat DemoLog.buffers_of_seven))) true (str "p") 1 42 ChildLogStream.Stdout
      (mkForwarded [] []) (buffers DemoLog.buffers_of_seven) = Some (Ok tt, out)
  ∧ foldl route_event route_default (forwarded_events out) = mkRoute false true false.
Proof.
  destruct (coordinator_route_follows_log (urls := DemoLog.no_urls)
    (channel := DemoLog.narrow 1) (str "p") 1 42 ChildLogStream.Stdout DemoLog.buffers_of_seven)
    as (out & Hrun & _).
  - repeat (apply Forall_cons_2; [by vm_compute|]). apply Forall_nil_2.
  - intros sent r. unfold try_send_record, DemoLog.narrow. by destruct (_ <? _)%nat.
  - exists out. split; [exact Hrun|]. revert Hrun. vm_compute. intros [= <-]. reflexivity.
Defined.

Lemma route_line_exact_witness :
  parse_ds4_log_event (urls := DemoLog.no_urls)
    (str "0812 14:30:45 ds4: distributed coordinator: removed worker  node-b ")
  = Some (Ds4LogEvent.WorkerRemoved (str "node-b")).
Proof.
  apply (route_line_exact (urls := DemoLog.no_urls) REMOVED Ds4LogEvent.WorkerRemoved
    (str "0812 14:30:45 ds4: distributed coordinator: removed worker  node-b ") (str "node-b")).
  - right. right. left.
  - vm_compute. reflexivity.
  - exists (str " node-b "). split_and!; [vm_compute; reflexivity..|discriminate].
Defined.

End log_witnesses.
