(* ===== verification/Config.v ===== *)
(** * The configuration: [src/src/config.rs]

    The data of the configuration file, its validation, the expansion of paths and the choice
    of the file.  The text of the file is read by serde and toml, which are not modelled; the
    files named in it are the interface [HostFiles], the environment is an argument.  A
    [PathBuf] is its bytes, compared by components as [Path] does; a [Duration] is in
    nanoseconds; an [f64] is the number it holds. *)

From Stdlib Require Import QArith.
From S2P Require Import Prelude Bytes Utf8 Text FileTree.
Local Open Scope Z_scope.

(** ** Values *)

(** An [f64] that was read: a binary fraction, an infinity or not a number. *)
Inductive double := NotANumber | Infinity (negative : bool) | Finite (value : Q).

Definition is_finite (x : double) : bool := match x with Finite _ => true | _ => false end.

(** [lo <= x] and [x <= hi] of a finite [lo] and [hi]. *)
Definition at_least (lo : Q) (x : double) : bool :=
  match x with
  | NotANumber => false
  | Infinity negative => negb negative
  | Finite v => Qle_bool lo v
  end.
Definition at_most (hi : Q) (x : double) : bool :=
  match x with
  | NotANumber => false
  | Infinity negative => negative
  | Finite v => Qle_bool v hi
  end.

Definition secs (n : Z) : Z := n * 1000000000.
Definition from_millis (n : Z) : Z := n * 1000000.

Record SocketAddr := mkSocket { socket_ip : IpAddr; socket_port : Z }.

(** [Path::components] of a path on Unix: empty pieces and [.] disappear, except a leading
    [.] of a relative path. *)
Definition path_component (piece : bytes) : option Component :=
  if bool_decide (piece = []) || bool_decide (piece = str ".") then None
  else if bool_decide (piece = str "..") then Some Component.ParentDir
  else Some (Component.Normal piece).

Definition path_components (p : bytes) : list Component :=
  let pieces := split (str "/") p in
  (if starts_with (str "/") p then [Component.RootDir]
   else if bool_decide (head pieces = Some (str ".")) then [Component.CurDir] else [])
  ++ omap path_component pieces.

(** [PartialEq for Path]. *)
Definition same_path (p q : bytes) : bool :=
  bool_decide (path_components p = path_components q).

(** ** The file *)

Module LogFormat.

(** src/src/config.rs:42-47 (LogFormat) *)
Inductive LogFormat := Json | Text.

End LogFormat.

Module LoggingConfig.

(** src/src/config.rs:16-23 (LoggingConfig) *)
Record LoggingConfig := mkLogging {
  format : LogFormat.LogFormat;
  level : bytes;
  timezone : option bytes;
  redact_headers : list bytes;
}.

End LoggingConfig.

(** src/src/config.rs:26-39 (LoggingConfig::default) *)
Definition logging_default : LoggingConfig.LoggingConfig := {|
  LoggingConfig.format := LogFormat.Json;
  LoggingConfig.level := str "info";
  LoggingConfig.timezone := None;
  LoggingConfig.redact_headers :=
    [str "authorization"; str "proxy-authorization"; str "x-api-key";
     str "x-hermes-session-id"; str "x-hermes-session-key"]
|}.

Module NotificationsConfig.

(** src/src/config.rs:49-54 (NotificationsConfig) *)
Record NotificationsConfig := mkNotifications { enabled : bool; sound : bool }.

End NotificationsConfig.

(** src/src/config.rs:57-62 (NotificationsConfig::default) *)
Definition notifications_default (macos : bool) : NotificationsConfig.NotificationsConfig :=
  NotificationsConfig.mkNotifications macos true.

(** src/src/config.rs:65-71 (StartupCleanupConfig) *)
Record StartupCleanupConfig := mkStartupCleanup { auto_restart : bool }.

(** src/src/config.rs:74-76 (StartupCleanupConfig::default) *)
Definition startup_cleanup_default : StartupCleanupConfig := mkStartupCleanup true.

Module RecoveryConfig.

(** src/src/config.rs:95-112 (RecoveryConfig) *)
Record RecoveryConfig := mkRecovery {
  enabled : bool;
  admission_drain_timeout : Z;
  cooldown : Z;
  max_attempts_12h : Z;
  low_decode_tps : double;
  low_decode_duration : Z;
  progress_stall : Z;
  canary_deadline : Z;
}.

End RecoveryConfig.

(** src/src/config.rs:115-128 (RecoveryConfig::default) *)
Definition recovery_default (low_tps_sustained_millis : Z) : RecoveryConfig.RecoveryConfig := {|
  RecoveryConfig.enabled := false;
  RecoveryConfig.admission_drain_timeout := secs 60;
  RecoveryConfig.cooldown := secs (60 * 60);
  RecoveryConfig.max_attempts_12h := 2;
  RecoveryConfig.low_decode_tps := Finite 5;
  RecoveryConfig.low_decode_duration := from_millis low_tps_sustained_millis;
  RecoveryConfig.progress_stall := secs 60;
  RecoveryConfig.canary_deadline := secs 30
|}.

Module ProxyTimeoutConfig.

(** src/src/config.rs:141-152 (ProxyTimeoutConfig) *)
Record ProxyTimeoutConfig := mkProxyTimeouts {
  connect : Z; response_headers : Z; first_body_byte : Z; stream_idle : Z;
}.

End ProxyTimeoutConfig.

Module ProxyConfig.

(** src/src/config.rs:131-139 (ProxyConfig) *)
Record ProxyConfig := mkProxy {
  public_listen : SocketAddr;
  admin_listen : SocketAddr;
  request_body_limit_bytes : Z;
  max_in_flight : Z;
  timeouts : ProxyTimeoutConfig.ProxyTimeoutConfig;
}.

End ProxyConfig.

Module DiscoveryMode.

(** src/src/config.rs:185-191 (DiscoveryMode) *)
Inductive DiscoveryMode := Bonjour | Static | BonjourWithStaticFallback.

End DiscoveryMode.

Module DiscoveryConfig.

(** src/src/config.rs:173-183 (DiscoveryConfig) *)
Record DiscoveryConfig := mkDiscovery {
  mode : DiscoveryMode.DiscoveryMode;
  bonjour_service_type : bytes;
  bonjour_domain : bytes;
  event_debounce : Z;
  reconcile_interval : Z;
}.

End DiscoveryConfig.

Module ClusterSecurityConfig.

(** src/src/config.rs:193-203 (ClusterSecurityConfig) *)
Record ClusterSecurityConfig := mkSecurity {
  control_secret_file : bytes;
  peer_proxy_token_file : bytes;
  admin_token_file : bytes;
  max_clock_skew : Z;
  nonce_ttl : Z;
}.

End ClusterSecurityConfig.

Module ClusterPolicyConfig.

(** src/src/config.rs:205-218 (ClusterPolicyConfig) *)
Record ClusterPolicyConfig := mkPolicy {
  auto_pair : bool;
  auto_promote : bool;
  auto_demote : bool;
  required_peer_stability : Z;
  route_loss_grace : Z;
  promotion_backoff : Z;
  max_consecutive_promotion_failures : Z;
}.

End ClusterPolicyConfig.

Module ClusterTimeoutConfig.

(** src/src/config.rs:220-243 (ClusterTimeoutConfig) *)
Record ClusterTimeoutConfig := mkTimeouts {
  peer_connect : Z; peer_request : Z; control_lease : Z; drain : Z; stop : Z;
  rendezvous_hello : Z; worker_startup : Z; coordinator_startup : Z; complete_route : Z;
  standalone_startup : Z;
}.

End ClusterTimeoutConfig.

Module ClusterConfig.

(** src/src/config.rs:154-171 (ClusterConfig) *)
Record ClusterConfig := mkCluster {
  enabled : bool;
  node_id : bytes;
  interface : bytes;
  coordinator_address : IpAddr;
  worker_address : IpAddr;
  control_port : Z;
  ds4_distributed_port : Z;
  peer_ingress_port : Z;
  state_path : bytes;
  manifest_cache_dir : bytes;
  discovery : DiscoveryConfig.DiscoveryConfig;
  security : ClusterSecurityConfig.ClusterSecurityConfig;
  policy : ClusterPolicyConfig.ClusterPolicyConfig;
  timeouts : ClusterTimeoutConfig.ClusterTimeoutConfig;
}.

End ClusterConfig.

Module Quantization.

(** src/src/config.rs:294-300 (Quantization) *)
Inductive Quantization := Q2 | Q2Q4 | Mxfp4.

End Quantization.
Notation Quantization := Quantization.Quantization.

Module Transport.

(** src/src/config.rs:308-313 (Transport) *)
Inductive Transport := Tcp | Rdma.

End Transport.
Notation Transport := Transport.Transport.

Module DistributedTopology.

(** src/src/config.rs:331-336 (DistributedTopology) *)
Inductive DistributedTopology := LayerParallel | TensorParallel.

End DistributedTopology.
Notation DistributedTopology := DistributedTopology.DistributedTopology.

Module SpeculativeSupport.

(** src/src/config.rs:353-357 (SpeculativeSupport) *)
Inductive SpeculativeSupport := None | Dspark.

End SpeculativeSupport.
Notation SpeculativeSupport := SpeculativeSupport.SpeculativeSupport.

Module Residency.

(** src/src/config.rs:378-383 (Residency) *)
Inductive Residency := Resident | SsdStreaming.

End Residency.
Notation Residency := Residency.Residency.

Global Instance Quantization_eq_dec : EqDecision Quantization.
Proof. solve_decision. Defined.
Global Instance Transport_eq_dec : EqDecision Transport.
Proof. solve_decision. Defined.
Global Instance DistributedTopology_eq_dec : EqDecision DistributedTopology.
Proof. solve_decision. Defined.
Global Instance SpeculativeSupport_eq_dec : EqDecision SpeculativeSupport.
Proof. solve_decision. Defined.
Global Instance Residency_eq_dec : EqDecision Residency.
Proof. solve_decision. Defined.

(** src/src/config.rs:369-375 (Quantization::name) *)
Definition quantization_name (self : Quantization) : bytes :=
  match self with
  | Quantization.Q2 => str "q2"
  | Quantization.Q2Q4 => str "q2-q4"
  | Quantization.Mxfp4 => str "mxfp4"
  end.

(** src/src/config.rs:316-321 (Transport::name) *)
Definition transport_name (self : Transport) : bytes :=
  match self with Transport.Tcp => str "tcp" | Transport.Rdma => str "rdma" end.

(** src/src/config.rs:339-344 (DistributedTopology::name) *)
Definition topology_name (self : DistributedTopology) : bytes :=
  match self with
  | DistributedTopology.LayerParallel => str "layer-parallel"
  | DistributedTopology.TensorParallel => str "tensor-parallel"
  end.

(** src/src/config.rs:360-365 (SpeculativeSupport::name) *)
Definition speculative_name (self : SpeculativeSupport) : bytes :=
  match self with
  | SpeculativeSupport.None => str "none"
  | SpeculativeSupport.Dspark => str "dspark"
  end.

(** src/src/config.rs:386-391 (Residency::name) *)
Definition residency_name (self : Residency) : bytes :=
  match self with
  | Residency.Resident => str "resident"
  | Residency.SsdStreaming => str "ssd-streaming"
  end.

Module Ds4DsparkConfig.

(** src/src/config.rs:260-267 (Ds4DsparkConfig) *)
Record Ds4DsparkConfig := mkDspark {
  enabled : bool;
  support_model : option bytes;
  confidence : option double;
  strict : bool;
}.

End Ds4DsparkConfig.
Notation Ds4DsparkConfig := Ds4DsparkConfig.Ds4DsparkConfig.

Module Ds4StandaloneConfig.

(** src/src/config.rs:269-292 (Ds4StandaloneConfig) *)
Record Ds4StandaloneConfig := mkStandalone {
  profile_id : bytes;
  model : bytes;
  model_manifest : bytes;
  checkpoint : bytes;
  quantization : Quantization;
  residency : Residency;
  context_size : Z;
  kv_disk_dir : bytes;
  kv_disk_space_mb : Z;
  ssd_cache_experts : option bytes;
  ssd_full_layers : option Z;
  ssd_preload_experts : option Z;
  ssd_cold : bool;
  extra_args : list bytes;
}.

End Ds4StandaloneConfig.
Notation Ds4StandaloneConfig := Ds4StandaloneConfig.Ds4StandaloneConfig.

Module Ds4DistributedConfig.

(** src/src/config.rs:394-434 (Ds4DistributedConfig) *)
Record Ds4DistributedConfig := mkDistributed {
  topology : DistributedTopology;
  quantization : Quantization;
  transport : Transport;
  model : bytes;
  model_manifest : bytes;
  checkpoint : bytes;
  context_size : Z;
  coordinator_layers : option bytes;
  worker_layers : option bytes;
  kv_disk_dir : bytes;
  kv_disk_space_mb : Z;
  extra_args : list bytes;
  role_artifact : option bytes;
  capability_manifest : option bytes;
  rdma_member_interface : option bytes;
  rdma_address : option bytes;
  rdma_device : option bytes;
  rdma_gid : option bytes;
}.

End Ds4DistributedConfig.
Notation Ds4DistributedConfig := Ds4DistributedConfig.Ds4DistributedConfig.

Module Ds4Config.

(** src/src/config.rs:245-258 (Ds4Config) *)
Record Ds4Config := mkDs4 {
  binary : bytes;
  working_directory : bytes;
  http_host : IpAddr;
  http_port : Z;
  allow_sigkill : bool;
  dspark : Ds4DsparkConfig;
  standalone : Ds4StandaloneConfig;
  distributed : Ds4DistributedConfig;
}.

End Ds4Config.
Notation Ds4Config := Ds4Config.Ds4Config.

Module ModeAwareConfig.

(** src/src/config.rs:79-93 (ModeAwareConfig) *)
Record ModeAwareConfig := mkConfig {
  schema_version : Z;
  proxy : ProxyConfig.ProxyConfig;
  cluster : ClusterConfig.ClusterConfig;
  ds4 : Ds4Config;
  logging : LoggingConfig.LoggingConfig;
  notifications : NotificationsConfig.NotificationsConfig;
  startup_cleanup : StartupCleanupConfig;
  recovery : RecoveryConfig.RecoveryConfig;
}.

End ModeAwareConfig.
Notation ModeAwareConfig := ModeAwareConfig.ModeAwareConfig.
Import ModeAwareConfig.

(** ** Durations *)

(** [u64::checked_mul]. *)
Definition checked_mul (a b : Z) : option Z :=
  if a * b <=? u64_max then Some (a * b) else None.

(** The number and the milliseconds of the unit after it. *)
Definition duration_unit (value : bytes) : option (bytes * Z) :=
  match strip_suffix (str "ms") value with Some v => Some (v, 1) | None =>
  match strip_suffix (str "s") value with Some v => Some (v, 1000) | None =>
  match strip_suffix (str "m") value with Some v => Some (v, 60000) | None =>
  match strip_suffix (str "h") value with Some v => Some (v, 3600000) | None =>
  v ← strip_suffix (str "d") value; Some (v, 86400000)
  end end end end.

(** src/src/config.rs:1124-1142 (parse_duration) *)
Definition parse_duration (value : bytes) : option Z :=
  '(number, multiplier) ← duration_unit (trim value);
  n ← parse_u64 number;
  from_millis <$> checked_mul n multiplier.

(** ** Validation *)

(** An error is the text of its message up to the values in it. *)
Notation ConfigError := bytes.
Notation checked := (result unit ConfigError).

(** Checks in order, up to the first that fails. *)
Fixpoint checks (l : list checked) : checked :=
  match l with
  | [] => Ok tt
  | c :: l => match c with Ok _ => checks l | Err e => Err e end
  end.

(** [Metadata] as far as it is looked at. *)
Record Metadata := mkMetadata {
  is_symlink : bool; meta_is_file : bool; meta_is_dir : bool; mode : Z;
}.

(** The files of the host; [None] is an error of the call. *)
Class HostFiles := {
  symlink_metadata : bytes → option Metadata;
  metadata : bytes → option Metadata;
  host_canonicalize : bytes → option bytes;
  host_read : bytes → option bytes;
}.

(** src/src/config.rs:1107-1113 (ensure_loopback_or_explicit) *)
Definition ensure_loopback_or_explicit (ip : IpAddr) : checked :=
  ensure (is_loopback ip)
    (str "admin_listen must use a loopback address until admin authentication is configured").

(** The loop over the ports; [seen] are the ports before. *)
Fixpoint ports_distinct (seen : list Z) (ports : list (bytes * Z)) : checked :=
  match ports with
  | [] => Ok tt
  | (name, port) :: ports =>
      checks [ensure (negb (port =? 0)) (name ++ str " must not use port 0");
              ensure (negb (bool_decide (port ∈ seen))) (str "port collision: ");
              ports_distinct (port :: seen) ports]
  end.

Definition named_ports (config : ModeAwareConfig) : list (bytes * Z) :=
  [(str "proxy.public_listen", socket_port (ProxyConfig.public_listen (proxy config)));
   (str "proxy.admin_listen", socket_port (ProxyConfig.admin_listen (proxy config)));
   (str "cluster.control_port", ClusterConfig.control_port (cluster config));
   (str "cluster.ds4_distributed_port", ClusterConfig.ds4_distributed_port (cluster config));
   (str "cluster.peer_ingress_port", ClusterConfig.peer_ingress_port (cluster config));
   (str "ds4.http_port", Ds4Config.http_port (ds4 config))].

(** src/src/config.rs:600-623 (validate_ports) *)
Definition validate_ports (config : ModeAwareConfig) : checked :=
  ports_distinct [] (named_ports config).

Definition service_label_ok (label : bytes) : bool :=
  between 2 63 (length label)
  && forallb (fun b => is_ascii_alphanumeric b || (b =? 95) || (b =? 45)) label.

Definition domain_label_ok (label : bytes) : bool :=
  negb (bool_decide (label = [])) && (Z.of_nat (length label) <=? 63)
  && negb (starts_with (str "-") label) && negb (bool_decide (last label = Some 45))
  && forallb (fun b => is_ascii_alphanumeric b || (b =? 45)) label.

(** [s.trim_end_matches(b)] of an ASCII character. *)
Definition trim_end_matches (b : Z) (s : bytes) : bytes :=
  reverse (skip_while (Z.eqb b) (reverse s)).

(** src/src/config.rs:625-656 (validate_dns_sd_name) *)
Definition validate_dns_sd_name (service_type domain : bytes) : checked :=
  let service_labels := split (str ".") service_type in
  checks
    [ensure
       match service_labels with
       | [l0; l1] => starts_with (str "_") l0
           && (bool_decide (l1 = str "_tcp") || bool_decide (l1 = str "_udp"))
           && forallb service_label_ok service_labels
       | _ => false
       end (str "cluster.discovery.bonjour_service_type is invalid: ");
     ensure (bool_decide (last domain = Some 46) && (Z.of_nat (length domain) <=? 255))
       (str "cluster.discovery.bonjour_domain must be an absolute DNS name");
     ensure (forallb domain_label_ok (split (str ".") (trim_end_matches 46 domain)))
       (str "cluster.discovery.bonjour_domain contains an invalid label")].

(** The durations that must not be zero, with the names of their fields. *)
Definition named_durations (config : ModeAwareConfig) : list (bytes * Z) :=
  let timeouts := ProxyConfig.timeouts (proxy config) in
  let discovery := ClusterConfig.discovery (cluster config) in
  let security := ClusterConfig.security (cluster config) in
  let policy := ClusterConfig.policy (cluster config) in
  let t := ClusterConfig.timeouts (cluster config) in
  let r := recovery config in
  [(str "proxy.timeouts.connect", ProxyTimeoutConfig.connect timeouts);
   (str "proxy.timeouts.response_headers", ProxyTimeoutConfig.response_headers timeouts);
   (str "proxy.timeouts.first_body_byte", ProxyTimeoutConfig.first_body_byte timeouts);
   (str "proxy.timeouts.stream_idle", ProxyTimeoutConfig.stream_idle timeouts);
   (str "cluster.discovery.event_debounce", DiscoveryConfig.event_debounce discovery);
   (str "cluster.discovery.reconcile_interval", DiscoveryConfig.reconcile_interval discovery);
   (str "cluster.security.max_clock_skew", ClusterSecurityConfig.max_clock_skew security);
   (str "cluster.security.nonce_ttl", ClusterSecurityConfig.nonce_ttl security);
   (str "cluster.policy.required_peer_stability",
      ClusterPolicyConfig.required_peer_stability policy);
   (str "cluster.policy.route_loss_grace", ClusterPolicyConfig.route_loss_grace policy);
   (str "cluster.policy.promotion_backoff", ClusterPolicyConfig.promotion_backoff policy);
   (str "cluster.timeouts.peer_connect", ClusterTimeoutConfig.peer_connect t);
   (str "cluster.timeouts.peer_request", ClusterTimeoutConfig.peer_request t);
   (str "cluster.timeouts.control_lease", ClusterTimeoutConfig.control_lease t);
   (str "cluster.timeouts.drain", ClusterTimeoutConfig.drain t);
   (str "cluster.timeouts.stop", ClusterTimeoutConfig.stop t);
   (str "cluster.timeouts.rendezvous_hello", ClusterTimeoutConfig.rendezvous_hello t);
   (str "cluster.timeouts.worker_startup", ClusterTimeoutConfig.worker_startup t);
   (str "cluster.timeouts.coordinator_startup", ClusterTimeoutConfig.coordinator_startup t);
   (str "cluster.timeouts.complete_route", ClusterTimeoutConfig.complete_route t);
   (str "cluster.timeouts.standalone_startup", ClusterTimeoutConfig.standalone_startup t);
   (str "recovery.admission_drain_timeout", RecoveryConfig.admission_drain_timeout r);
   (str "recovery.cooldown", RecoveryConfig.cooldown r);
   (str "recovery.low_decode_duration", RecoveryConfig.low_decode_duration r);
   (str "recovery.progress_stall", RecoveryConfig.progress_stall r);
   (str "recovery.canary_deadline", RecoveryConfig.canary_deadline r)].

(** src/src/config.rs:674-736 (validate_durations) *)
Definition validate_durations (config : ModeAwareConfig) : checked :=
  let r := recovery config in
  let t := ClusterConfig.timeouts (cluster config) in
  checks
    (((fun '(name, d) => ensure (negb (d =? 0)) (name ++ str " must be greater than zero"))
        <$> named_durations config) ++
     [ensure (0 <? RecoveryConfig.max_attempts_12h r)
        (str "recovery.max_attempts_12h must be greater than zero");
      ensure (is_finite (RecoveryConfig.low_decode_tps r)
              && at_least 0 (RecoveryConfig.low_decode_tps r))
        (str "recovery.low_decode_tps must be finite and non-negative");
      ensure (ClusterTimeoutConfig.worker_startup t <=? ClusterTimeoutConfig.rendezvous_hello t)
        (str "cluster.timeouts.rendezvous_hello must not be shorter than worker_startup");
      ensure (0 <? ClusterPolicyConfig.max_consecutive_promotion_failures
                     (ClusterConfig.policy (cluster config)))
        (str "cluster.policy.max_consecutive_promotion_failures must be greater than zero")]).

(** src/src/config.rs:817-826 (validate_absolute_normalized) *)
Definition validate_absolute_normalized (name p : bytes) : checked :=
  checks
    [ensure (starts_with (str "/") p) (name ++ str " must be an absolute path");
     ensure (negb (existsb (fun c => bool_decide (c = Component.CurDir)
                                     || bool_decide (c = Component.ParentDir))
                     (path_components p)))
       (name ++ str " must not contain '.' or '..' components")].

Definition DSPARK_RESIDENT : bytes := str "DSpark requires standalone residency = 'resident'".

(** src/src/config.rs:847-871 (validate_dspark) *)
Definition validate_dspark (config : ModeAwareConfig) : checked :=
  let dspark := Ds4Config.dspark (ds4 config) in
  checks
    ((if Ds4DsparkConfig.enabled dspark then
        [ensure (negb (bool_decide (Ds4DsparkConfig.support_model dspark = None)))
           (str "ds4.dspark.support_model is required when DSpark is enabled");
         ensure (bool_decide (Ds4StandaloneConfig.residency (Ds4Config.standalone (ds4 config))
                              = Residency.Resident)) DSPARK_RESIDENT]
      else
        [ensure (bool_decide (Ds4DsparkConfig.support_model dspark = None)
                 && negb (is_some (Ds4DsparkConfig.confidence dspark))
                 && negb (Ds4DsparkConfig.strict dspark))
           (str "ds4.dspark support_model/confidence/strict require enabled = true")])
     ++ match Ds4DsparkConfig.confidence dspark with
        | Some confidence =>
            [ensure (is_finite confidence && (at_least 0 confidence && at_most 1 confidence))
               (str "ds4.dspark.confidence must be between 0 and 1")]
        | None => []
        end).

(** src/src/config.rs:828-845 (validate_ssd_streaming) *)
Definition validate_ssd_streaming (config : Ds4StandaloneConfig) : checked :=
  let has_ssd_options := is_some (Ds4StandaloneConfig.ssd_cache_experts config)
    || is_some (Ds4StandaloneConfig.ssd_full_layers config)
    || is_some (Ds4StandaloneConfig.ssd_preload_experts config)
    || Ds4StandaloneConfig.ssd_cold config in
  checks
    (ensure (negb (bool_decide (Ds4StandaloneConfig.residency config = Residency.Resident))
             || negb has_ssd_options)
       (str "SSD streaming options require residency = 'ssd-streaming'") ::
     match Ds4StandaloneConfig.ssd_cache_experts config with
     | Some value =>
         let number := default value (strip_suffix (str "GB") value) in
         [ensure match parse_u64 number with Some n => 0 <? n | None => false end
            (str "ds4.standalone.ssd_cache_experts must be a positive integer or <number>GB")]
     | None => []
     end).

(** *** Layers *)

Module LayerEnd.

(** src/src/config.rs:873-877 (LayerEnd) *)
Inductive LayerEnd := Number (n : Z) | Output.

End LayerEnd.
Notation LayerEnd := LayerEnd.LayerEnd.

(** [FromStr for u32]. *)
Definition parse_u32 (s : bytes) : option Z :=
  v ← parse_u64 s; if v <=? u32_max then Some v else None.

(** src/src/config.rs:879-890 (parse_layer_range) *)
Definition parse_layer_range (value : bytes) : result (Z * LayerEnd) ConfigError :=
  (let? parts := ok_or (split_once (str ":") value) (str "invalid layer range: ") in
   let '(start, end_) := parts in
   let? start := ok_or (parse_u32 start) (str "invalid digit found in string") in
   let? end_ :=
     if bool_decide (end_ = str "output") then Ok LayerEnd.Output
     else (let? n := ok_or (parse_u32 end_) (str "invalid digit found in string") in
           Ok (LayerEnd.Number n)) in
   Ok (start, end_))%rust.

(** src/src/config.rs:892-911 (validate_layer_split) *)
Definition validate_layer_split (coordinator worker : bytes) : checked :=
  (let? c := parse_layer_range coordinator in
   let '(coordinator_start, coordinator_end) := c in
   let? w := parse_layer_range worker in
   let '(worker_start, worker_end) := w in
   let? _ := ensure (coordinator_start =? 0) (str "coordinator layers must start at layer 0") in
   let? coordinator_end :=
     match coordinator_end with
     | LayerEnd.Number n => Ok n
     | LayerEnd.Output => Err (str "coordinator layers must not own output")
     end in
   let? _ := ensure (worker_start =? Z.min (coordinator_end + 1) u32_max)
               (str "layer split must not contain a gap or overlap") in
   ensure match worker_end with LayerEnd.Output => true | _ => false end
     (str "worker layers must own output"))%rust.

(** *** Arguments *)

Definition FORBIDDEN : list bytes :=
  map str ["-m"; "--model"; "--role"; "--layers"; "--coordinator"; "--listen"; "--host"; "--port";
    "--ctx"; "--kv-disk-dir"; "--kv-disk-space-mb"; "--ssd-streaming";
    "--ssd-streaming-cache-experts"; "--ssd-streaming-full-layers";
    "--ssd-streaming-preload-experts"; "--ssd-streaming-cold"; "--mtp"; "--mtp-model"; "--dspark";
    "--dspark-confidence"; "--dspark-strict"]%string.

(** Whether an argument is the option or assigns it. *)
Definition is_option (option_ argument : bytes) : bool :=
  bool_decide (argument = option_)
  || match strip_prefix option_ argument with
     | Some suffix => starts_with (str "=") suffix
     | None => false
     end.

(** src/src/config.rs:952-987 (validate_extra_args) *)
Fixpoint validate_extra_args (name : bytes) (arguments : list bytes) : checked :=
  match arguments with
  | [] => Ok tt
  | argument :: arguments =>
      checks [ensure (negb (existsb (fun f => is_option f argument) FORBIDDEN))
                (name ++ str " must not override generated option ");
              validate_extra_args name arguments]
  end.

(** src/src/config.rs:585-598 (reject_distributed_override) *)
Fixpoint reject_distributed_override (extra_args : list bytes) : checked :=
  match extra_args with
  | [] => Ok tt
  | arg :: extra_args =>
      let normalized := split_first (str "=") arg in
      checks
        [ensure (negb (bool_decide (normalized ∈
            map str ["--role"; "--transport"; "--layers"; "--coordinator"; "--listen"]%string)))
           (str "ds4.distributed.extra_args must not override managed arguments in tensor-parallel: ");
         reject_distributed_override extra_args]
  end.

(** src/src/config.rs:547-582 (validate_distributed_topology) *)
Definition validate_distributed_topology (config : ModeAwareConfig) : checked :=
  let distributed := Ds4Config.distributed (ds4 config) in
  let coordinator := Ds4DistributedConfig.coordinator_layers distributed in
  let worker := Ds4DistributedConfig.worker_layers distributed in
  match Ds4DistributedConfig.topology distributed with
  | DistributedTopology.LayerParallel =>
      checks
        [ensure (is_some coordinator && is_some worker)
           (str "ds4.distributed layer ranges are required for layer-parallel topology");
         validate_layer_split (default [] coordinator) (default [] worker)]
  | DistributedTopology.TensorParallel =>
      checks
        [ensure (bool_decide (Ds4DistributedConfig.transport distributed = Transport.Rdma))
           (str "ds4.distributed.transport must be 'rdma' for tensor-parallel in v0.4");
         ensure (negb (is_some coordinator) && negb (is_some worker))
           (str "ds4.distributed layer ranges are not allowed for tensor-parallel topology");
         ensure (negb (Ds4DsparkConfig.enabled (Ds4Config.dspark (ds4 config))))
           (str "ds4.distributed tensor-parallel does not support DSpark in v0.4");
         ensure (negb (is_some (Ds4StandaloneConfig.ssd_full_layers
                                  (Ds4Config.standalone (ds4 config)))))
           (str "ds4.distributed tensor-parallel does not support SSD streaming in v0.4");
         reject_distributed_override (Ds4DistributedConfig.extra_args distributed)]
  end.

(** *** Files *)

Section Files.
Context {files : HostFiles}.

(** src/src/config.rs:780-802 (validate_regular_file) *)
Definition validate_regular_file (name p : bytes) (executable : bool) : checked :=
  (let? _ := validate_absolute_normalized name p in
   let? meta := ok_or (symlink_metadata p) (name ++ str " is unavailable") in
   let? _ := ensure (negb (is_symlink meta)) (name ++ str " must not be a symlink") in
   let? _ := ensure (meta_is_file meta) (name ++ str " must be a regular file") in
   let? canonical := ok_or (host_canonicalize p) (str "canonicalize") in
   let? _ := ensure (same_path canonical p)
               (name ++ str " must use its canonical absolute path") in
   ensure (negb executable || negb (Z.land (mode meta) 73 =? 0))
     (name ++ str " must be executable"))%rust.

(** src/src/config.rs:804-815 (validate_directory) *)
Definition validate_directory (name p : bytes) : checked :=
  (let? _ := validate_absolute_normalized name p in
   let? meta := ok_or (symlink_metadata p) (name ++ str " is unavailable") in
   let? _ := ensure (negb (is_symlink meta)) (name ++ str " must not be a symlink") in
   let? _ := ensure (meta_is_dir meta) (name ++ str " must be a directory") in
   let? canonical := ok_or (host_canonicalize p) (str "canonicalize") in
   ensure (same_path canonical p) (name ++ str " must be canonical"))%rust.

(** src/src/config.rs:738-778 (validate_paths) *)
Definition validate_paths (config : ModeAwareConfig) : checked :=
  let d := ds4 config in
  let s := Ds4Config.standalone d in
  let m := Ds4Config.distributed d in
  checks
    ([validate_regular_file (str "ds4.binary") (Ds4Config.binary d) true;
      validate_directory (str "ds4.working_directory") (Ds4Config.working_directory d)]
     ++ match Ds4DsparkConfig.support_model (Ds4Config.dspark d) with
        | Some p => [validate_regular_file (str "ds4.dspark.support_model") p false]
        | None => []
        end
     ++ [validate_regular_file (str "ds4.standalone.model") (Ds4StandaloneConfig.model s) false;
         validate_regular_file (str "ds4.standalone.model_manifest")
           (Ds4StandaloneConfig.model_manifest s) false;
         validate_regular_file (str "ds4.distributed.model") (Ds4DistributedConfig.model m) false;
         validate_regular_file (str "ds4.distributed.model_manifest")
           (Ds4DistributedConfig.model_manifest m) false;
         validate_absolute_normalized (str "cluster.state_path")
           (ClusterConfig.state_path (cluster config));
         validate_absolute_normalized (str "cluster.manifest_cache_dir")
           (ClusterConfig.manifest_cache_dir (cluster config));
         validate_absolute_normalized (str "ds4.standalone.kv_disk_dir")
           (Ds4StandaloneConfig.kv_disk_dir s);
         validate_absolute_normalized (str "ds4.distributed.kv_disk_dir")
           (Ds4DistributedConfig.kv_disk_dir m)]).

(** The loop over the secret files, with the paths and the contents before. *)
Fixpoint secret_files (paths : list (list Component)) (contents : list bytes)
    (files : list (bytes * bytes)) : checked :=
  match files with
  | [] => Ok tt
  | (name, p) :: files =>
      (let? _ := validate_regular_file name p false in
       let? _ := ensure (negb (bool_decide (path_components p ∈ paths)))
                   (str "cluster secret/token paths must be different") in
       let? meta := ok_or (metadata p) (str "metadata") in
       let? _ := ensure (Z.land (mode meta) 511 =? 384) (name ++ str " must have mode 0600") in
       let? value := ok_or (host_read p) (str "read") in
       let? _ := ensure (32 <=? Z.of_nat (length value))
                   (name ++ str " must contain at least 32 bytes") in
       let? _ := ensure (negb (bool_decide (value ∈ contents)))
                   (str "cluster secret/token values must be different") in
       secret_files (path_components p :: paths) (value :: contents) files)%rust
  end.

(** src/src/config.rs:913-950 (validate_secret_files) *)
Definition validate_secret_files (config : ClusterSecurityConfig.ClusterSecurityConfig) : checked :=
  secret_files [] []
    [(str "cluster.security.control_secret_file",
        ClusterSecurityConfig.control_secret_file config);
     (str "cluster.security.peer_proxy_token_file",
        ClusterSecurityConfig.peer_proxy_token_file config);
     (str "cluster.security.admin_token_file", ClusterSecurityConfig.admin_token_file config)].

(** src/src/config.rs:503-539 (ModeAwareConfig::validate) *)
Definition validate (self : ModeAwareConfig) : checked :=
  let d := ClusterConfig.discovery (cluster self) in
  let s := Ds4Config.standalone (ds4 self) in
  let m := Ds4Config.distributed (ds4 self) in
  checks
    [ensure (schema_version self =? 2) (str "schema_version must be 2, got ");
     ensure (0 <? ProxyConfig.request_body_limit_bytes (proxy self))
       (str "proxy.request_body_limit_bytes must be greater than zero");
     ensure (0 <? ProxyConfig.max_in_flight (proxy self))
       (str "proxy.max_in_flight must be greater than zero");
     ensure_loopback_or_explicit (socket_ip (ProxyConfig.admin_listen (proxy self)));
     validate_ports self;
     validate_dns_sd_name (DiscoveryConfig.bonjour_service_type d)
       (DiscoveryConfig.bonjour_domain d);
     validate_durations self;
     validate_paths self;
     validate_dspark self;
     validate_ssd_streaming s;
     validate_distributed_topology self;
     ensure (negb (same_path (Ds4StandaloneConfig.kv_disk_dir s)
                             (Ds4DistributedConfig.kv_disk_dir m)))
       (str "standalone and distributed kv_disk_dir must be different");
     validate_secret_files (ClusterConfig.security (cluster self));
     validate_extra_args (str "ds4.standalone.extra_args") (Ds4StandaloneConfig.extra_args s);
     validate_extra_args (str "ds4.distributed.extra_args") (Ds4DistributedConfig.extra_args m)].

End Files.

(** ** Paths with variables *)

(** [PathBuf::push]. *)
Definition path_push (base p : bytes) : bytes :=
  if starts_with (str "/") p then p
  else if bool_decide (base = []) || bool_decide (last base = Some 47) then base ++ p
  else base ++ str "/" ++ p.

Definition is_variable_byte (b : Z) : bool := is_ascii_alphanumeric b || (b =? 95).

(** The longest front of bytes that may be in the name of a variable. *)
Fixpoint span_variable (s : bytes) : bytes * bytes :=
  match s with
  | b :: s' =>
      if is_variable_byte b then let '(name, rest) := span_variable s' in (b :: name, rest)
      else ([], s)
  | [] => ([], [])
  end.

Section Expansion.
Context (env : bytes → option bytes).

(** src/src/config.rs:1031-1044 (environment_config_path) *)
Definition environment_config_path (name suffix : bytes) : result bytes ConfigError :=
  (let? base := ok_or (env name) (str "environment variable referenced by config path is not set") in
   let? _ := ensure (negb (bool_decide (base = [])))
               (str "environment variable referenced by config path is empty") in
   Ok (if bool_decide (suffix = []) then base else path_push base suffix))%rust.

(** The name and what follows it in [$NAME...] or [${NAME}...]. *)
Definition variable_expression (variable : bytes) : result (bytes * bytes) ConfigError :=
  match strip_prefix (str "{") variable with
  | Some variable =>
      ok_or (split_once (str "}") variable)
        (str "invalid environment variable expression in config path: ")
  | None => Ok (span_variable variable)
  end.

(** src/src/config.rs:989-1029 (expand_config_path) *)
Definition expand_config_path (p : bytes) : result bytes ConfigError :=
  if negb (utf8_valid p) then Ok p
  else if bool_decide (p = str "~") then environment_config_path (str "HOME") []
  else match strip_prefix (str "~/") p with
  | Some suffix => environment_config_path (str "HOME") suffix
  | None =>
  match strip_prefix (str "$") p with
  | Some variable =>
      (let? parts := variable_expression variable in
       let '(name, suffix) := parts in
       let? _ := ensure (negb (bool_decide (name = [])) && forallb is_variable_byte name)
                   (str "invalid environment variable name in config path: ") in
       let? _ := ensure (bool_decide (suffix = []) || starts_with (str "/") suffix)
                   (str "environment variable in config path must be followed by '/': ") in
       environment_config_path name (trim_start_matches 47 suffix))%rust
  | None =>
      (let? _ := ensure (negb (starts_with (str "~") p))
                   (str "only '~/' is supported for home expansion in config path: ") in
       Ok p)%rust
  end end.

Definition expand_option (p : option bytes) : result (option bytes) ConfigError :=
  match p with
  | Some p => match expand_config_path p with Ok p => Ok (Some p) | Err e => Err e end
  | None => Ok None
  end.

Definition expand_security (s : ClusterSecurityConfig.ClusterSecurityConfig)
    : result ClusterSecurityConfig.ClusterSecurityConfig ConfigError :=
  (let? control := expand_config_path (ClusterSecurityConfig.control_secret_file s) in
   let? peer := expand_config_path (ClusterSecurityConfig.peer_proxy_token_file s) in
   let? admin := expand_config_path (ClusterSecurityConfig.admin_token_file s) in
   Ok (ClusterSecurityConfig.mkSecurity control peer admin
         (ClusterSecurityConfig.max_clock_skew s) (ClusterSecurityConfig.nonce_ttl s)))%rust.

Definition expand_cluster (c : ClusterConfig.ClusterConfig)
    : result ClusterConfig.ClusterConfig ConfigError :=
  (let? state_path := expand_config_path (ClusterConfig.state_path c) in
   let? manifest_cache_dir := expand_config_path (ClusterConfig.manifest_cache_dir c) in
   let? security := expand_security (ClusterConfig.security c) in
   Ok (ClusterConfig.mkCluster (ClusterConfig.enabled c) (ClusterConfig.node_id c)
         (ClusterConfig.interface c) (ClusterConfig.coordinator_address c)
         (ClusterConfig.worker_address c) (ClusterConfig.control_port c)
         (ClusterConfig.ds4_distributed_port c) (ClusterConfig.peer_ingress_port c)
         state_path manifest_cache_dir (ClusterConfig.discovery c) security
         (ClusterConfig.policy c) (ClusterConfig.timeouts c)))%rust.

Definition expand_standalone (s : Ds4StandaloneConfig) : result Ds4StandaloneConfig ConfigError :=
  (let? model := expand_config_path (Ds4StandaloneConfig.model s) in
   let? model_manifest := expand_config_path (Ds4StandaloneConfig.model_manifest s) in
   let? kv_disk_dir := expand_config_path (Ds4StandaloneConfig.kv_disk_dir s) in
   Ok (Ds4StandaloneConfig.mkStandalone (Ds4StandaloneConfig.profile_id s) model model_manifest
         (Ds4StandaloneConfig.checkpoint s) (Ds4StandaloneConfig.quantization s)
         (Ds4StandaloneConfig.residency s) (Ds4StandaloneConfig.context_size s) kv_disk_dir
         (Ds4StandaloneConfig.kv_disk_space_mb s) (Ds4StandaloneConfig.ssd_cache_experts s)
         (Ds4StandaloneConfig.ssd_full_layers s) (Ds4StandaloneConfig.ssd_preload_experts s)
         (Ds4StandaloneConfig.ssd_cold s) (Ds4StandaloneConfig.extra_args s)))%rust.

Definition expand_distributed (m : Ds4DistributedConfig)
    : result Ds4DistributedConfig ConfigError :=
  (let? model := expand_config_path (Ds4DistributedConfig.model m) in
   let? model_manifest := expand_config_path (Ds4DistributedConfig.model_manifest m) in
   let? kv_disk_dir := expand_config_path (Ds4DistributedConfig.kv_disk_dir m) in
   let? role_artifact := expand_option (Ds4DistributedConfig.role_artifact m) in
   let? capability_manifest := expand_option (Ds4DistributedConfig.capability_manifest m) in
   Ok (Ds4DistributedConfig.mkDistributed (Ds4DistributedConfig.topology m)
         (Ds4DistributedConfig.quantization m) (Ds4DistributedConfig.transport m) model
         model_manifest (Ds4DistributedConfig.checkpoint m) (Ds4DistributedConfig.context_size m)
         (Ds4DistributedConfig.coordinator_layers m) (Ds4DistributedConfig.worker_layers m)
         kv_disk_dir (Ds4DistributedConfig.kv_disk_space_mb m) (Ds4DistributedConfig.extra_args m)
         role_artifact capability_manifest (Ds4DistributedConfig.rdma_member_interface m)
         (Ds4DistributedConfig.rdma_address m) (Ds4DistributedConfig.rdma_device m)
         (Ds4DistributedConfig.rdma_gid m)))%rust.

(** On an error the configuration is dropped by the caller, so only the result counts.
    src/src/config.rs:469-501 (expand_paths) *)
Definition expand_paths (self : ModeAwareConfig) : result ModeAwareConfig ConfigError :=
  let d := ds4 self in
  let dspark := Ds4Config.dspark d in
  (let? cluster := expand_cluster (cluster self) in
   let? binary := expand_config_path (Ds4Config.binary d) in
   let? working_directory := expand_config_path (Ds4Config.working_directory d) in
   let? support_model := expand_option (Ds4DsparkConfig.support_model dspark) in
   let? standalone := expand_standalone (Ds4Config.standalone d) in
   let? distributed := expand_distributed (Ds4Config.distributed d) in
   Ok (ModeAwareConfig.mkConfig (schema_version self) (proxy self) cluster
         (Ds4Config.mkDs4 binary working_directory (Ds4Config.http_host d) (Ds4Config.http_port d)
            (Ds4Config.allow_sigkill d)
            (Ds4DsparkConfig.mkDspark (Ds4DsparkConfig.enabled dspark) support_model
               (Ds4DsparkConfig.confidence dspark) (Ds4DsparkConfig.strict dspark))
            standalone distributed)
         (logging self) (notifications self) (startup_cleanup self) (recovery self)))%rust.

End Expansion.

(** ** The file that is read *)

Definition DEFAULT_CONFIG_FILE : bytes := str "siderostat.toml".

(** src/src/config.rs:1093-1105 (platform_default_path_pure) *)
Definition platform_default_path_pure (macos : bool) (home : option bytes)
    : result bytes ConfigError :=
  if macos then
    (let? home := ok_or home (str "HOME is not set; cannot resolve default config path") in
     let? _ := ensure (negb (bool_decide (home = [])))
                 (str "HOME is set but empty; cannot resolve default config path") in
     Ok (path_push home (str "Library/Application Support/siderostat/config.toml")))%rust
  else Ok (str "/etc/siderostat/config.toml").

(** src/src/config.rs:1060-1088 (resolve_config_path_pure) *)
Definition resolve_config_path_pure (macos : bool) (explicit config_env home : option bytes)
    (exists_ : bytes → bool) : result bytes ConfigError :=
  match explicit, config_env with
  | Some p, _ => Ok p
  | None, Some p =>
      (let? _ := ensure (negb (bool_decide (p = []))) (str "SIDEROSTAT_CONFIG is set but empty") in
       Ok p)%rust
  | None, None =>
      if exists_ DEFAULT_CONFIG_FILE then Ok DEFAULT_CONFIG_FILE
      else
        (let? platform := platform_default_path_pure macos home in
         let? _ := ensure (exists_ platform) (str "configuration not found; tried ") in
         Ok platform)%rust
  end.

(** src/src/config.rs:1049-1056 (resolve_config_path) *)
Definition resolve_config_path (macos : bool) (explicit : option bytes)
    (env : bytes → option bytes) (exists_ : bytes → bool) : result bytes ConfigError :=
  resolve_config_path_pure macos explicit (env (str "SIDEROSTAT_CONFIG")) (env (str "HOME")) exists_.

Definition legacy_fields : list bytes :=
  map str ["backends"; "routing"; "affinity"; "heartbeat"; "active_probe"; "cooldown"]%string.

(** The file as a table of TOML, and what serde makes of it. *)
Class ConfigDecoder := {
  toml_table : bytes → result (option (list bytes)) ConfigError;
  toml_decode : bytes → result ModeAwareConfig ConfigError;
}.

Section Load.
Context {decoder : ConfigDecoder} {files : HostFiles}.

(** src/src/config.rs:446-467 (ModeAwareConfig::parse) *)
Definition parse_config (contents : bytes) : result ModeAwareConfig ConfigError :=
  (let? table := toml_table contents in
   let? _ := match table with
             | Some keys =>
                 ensure (negb (existsb (fun f => bool_decide (f ∈ keys)) legacy_fields))
                   (str "legacy configuration fields are not supported by schema v2: ")
             | None => Ok tt
             end in
   toml_decode contents)%rust.

(** src/src/config.rs:437-444 (ModeAwareConfig::load) *)
Definition load_config (macos : bool) (explicit : option bytes) (env : bytes → option bytes)
    (exists_ : bytes → bool) : result (ModeAwareConfig * bytes) ConfigError :=
  (let? p := resolve_config_path macos explicit env exists_ in
   let? contents := ok_or (host_read p) (str "read") in
   let? config := parse_config contents in
   let? config := expand_paths env config in
   let? _ := validate config in
   Ok (config, p))%rust.

End Load.

(** ** What a valid configuration is *)

Lemma ok_or_ok {A E} (o : option A) (e : E) a : ok_or o e = Ok a ↔ o = Some a.
Proof. destruct o; naive_solver. Qed.

Lemma checks_cons_ok c l : checks (c :: l) = Ok tt ↔ c = Ok tt ∧ checks l = Ok tt.
Proof. simpl. destruct c as [[]|e]; naive_solver. Qed.

Lemma ports_distinct_ok seen ports :
  ports_distinct seen ports = Ok tt ↔
    0 ∉ ports.*2 ∧ NoDup ports.*2 ∧ ∀ p, p ∈ ports.*2 → p ∉ seen.
Proof.
  revert seen. induction ports as [|[n p] ports IH]; intros seen; cbn [ports_distinct fmap list_fmap].
  - split; [intros _|done]. split_and!; [by intros ?%elem_of_nil|constructor|by intros ? ?%elem_of_nil].
  - rewrite !checks_cons_ok, !ensure_ok, !negb_true_iff, Z.eqb_neq, bool_decide_eq_false, IH.
    rewrite NoDup_cons. cbn [snd]. set_solver by lia.
Qed.

(** An absolute path has no [.] among its components: the check for it never fails. *)
Lemma absolute_no_curdir p : starts_with (str "/") p = true → Component.CurDir ∉ path_components p.
Proof.
  intros H. unfold path_components. rewrite H. intros [|Hc]%elem_of_app; [set_solver|].
  apply list_elem_of_omap in Hc as (x & _ & Hx). unfold path_component in Hx.
  by repeat case_match; simplify_eq.
Qed.

(** An absolute path without [..]. *)
Definition plain_path (p : bytes) : Prop :=
  starts_with (str "/") p = true ∧ Component.ParentDir ∉ path_components p.

Lemma validate_absolute_normalized_ok name p :
  validate_absolute_normalized name p = Ok tt ↔ plain_path p.
Proof.
  unfold validate_absolute_normalized, plain_path.
  rewrite !checks_cons_ok, !ensure_ok, negb_true_iff, <- not_true_iff_false, existsb_exists.
  split; [intros (H & Hn & _)|intros [H Hn]].
  - split; [done|]. intros Hp. apply Hn. exists Component.ParentDir.
    split; [by apply list_elem_of_In|done].
  - split_and!; [done| |done]. intros (c & Hc%list_elem_of_In & Hb).
    apply orb_true_iff in Hb as [E%bool_decide_eq_true|E%bool_decide_eq_true]; subst; [|done].
    by apply absolute_no_curdir in Hc.
Qed.

(** The layers a range covers: from its start, up to its end or to the output. *)
Definition owns (range : Z * LayerEnd) (layer : Z) : Prop :=
  fst range ≤ layer ∧ match snd range with LayerEnd.Number n => layer ≤ n | LayerEnd.Output => True end.

Definition layer_split (coordinator worker : bytes) : Prop :=
  ∃ k, parse_layer_range coordinator = Ok (0, LayerEnd.Number k)
     ∧ parse_layer_range worker = Ok (Z.min (k + 1) u32_max, LayerEnd.Output).

Lemma validate_layer_split_ok coordinator worker :
  validate_layer_split coordinator worker = Ok tt ↔ layer_split coordinator worker.
Proof.
  unfold validate_layer_split, layer_split. split.
  - intros ([cs ce] & Hc & ([ws we] & Hw & (u1 & Hs%ensure_ok & (k & Hk & (u2 & Hg%ensure_ok & He%ensure_ok)
      %result_bind_ok)%result_bind_ok)%result_bind_ok)%result_bind_ok)%result_bind_ok.
    apply Z.eqb_eq in Hs, Hg. subst. destruct ce, we; simplify_eq. by exists k.
  - intros (k & -> & ->). simpl. by rewrite Z.eqb_refl.
Qed.

Lemma parse_layer_range_range s start e :
  parse_layer_range s = Ok (start, e) →
  is_u32 start ∧ match e with LayerEnd.Number n => is_u32 n | LayerEnd.Output => True end.
Proof.
  assert (∀ t v, parse_u32 t = Some v → is_u32 v) as Hu.
  { intros t v (w & Hw%parse_u64_range & H)%bind_Some. case_match; simplify_eq.
    bool_to_prop. unfold is_u32, is_u64, u32_max in *. lia. }
  unfold parse_layer_range.
  intros ([a b] & _ & (st & Hst%ok_or_ok & (en & Hen & [= <- <-])%result_bind_ok)
    %result_bind_ok)%result_bind_ok.
  split; [by eapply Hu|]. case_bool_decide; simplify_eq; [done|].
  apply result_bind_ok in Hen as (n & Hn%ok_or_ok & [= <-]). by eapply Hu.
Qed.

(** A split gives every layer to exactly one of the two nodes, unless the coordinator
    ends at the largest number: then that layer is in both. *)
Lemma layer_split_partition coordinator worker c w k layer :
  parse_layer_range coordinator = Ok c → parse_layer_range worker = Ok w →
  layer_split coordinator worker → snd c = LayerEnd.Number k → k ≠ u32_max → 0 ≤ layer →
  (owns c layer ∧ ¬ owns w layer) ∨ (owns w layer ∧ ¬ owns c layer).
Proof.
  intros Hc Hw (k' & Hc' & Hw') Hk Hmax Hl. rewrite Hc in Hc'. rewrite Hw in Hw'. simplify_eq/=.
  apply parse_layer_range_range in Hc as [_ Hu]. unfold is_u32 in Hu. unfold owns. simpl.
  rewrite Z.min_l by lia. lia.
Qed.

Lemma validate_extra_args_ok name args :
  validate_extra_args name args = Ok tt ↔
    ∀ a f, a ∈ args → f ∈ FORBIDDEN → is_option f a = false.
Proof.
  induction args as [|a args IH]; cbn [validate_extra_args].
  - split; [by intros _ ? ? ?%elem_of_nil|done].
  - rewrite !checks_cons_ok, ensure_ok, negb_true_iff, IH, <- not_true_iff_false, existsb_exists.
    split.
    + intros (Hn & Hr & _) b f [->|Hb]%elem_of_cons Hf.
      * apply not_true_iff_false. intros ?. apply Hn. exists f.
        by rewrite <- list_elem_of_In.
      * by apply Hr.
    + intros Hall. split_and!; [|intros b f Hb Hf; apply Hall; [by right|done]|done].
      intros (f & Hf%list_elem_of_In & Ha). rewrite Hall in Ha; [done|by left|done].
Qed.

Lemma reject_override_ok args :
  reject_distributed_override args = Ok tt ↔
    ∀ a, a ∈ args → split_first (str "=") a ∉
      map str ["--role"; "--transport"; "--layers"; "--coordinator"; "--listen"]%string.
Proof.
  induction args as [|a args IH]; cbn [reject_distributed_override].
  - split; [by intros _ ? ?%elem_of_nil|done].
  - rewrite !checks_cons_ok, ensure_ok, negb_true_iff, bool_decide_eq_false, IH. set_solver.
Qed.

Section Valid.
Context {files : HostFiles}.

(** A file that is itself, no link to it, at its canonical path. *)
Definition regular_file (p : bytes) (executable : bool) : Prop :=
  plain_path p ∧ ∃ meta canonical, symlink_metadata p = Some meta
    ∧ is_symlink meta = false ∧ meta_is_file meta = true
    ∧ host_canonicalize p = Some canonical ∧ path_components canonical = path_components p
    ∧ (executable = true → Z.land (mode meta) 73 ≠ 0).

Definition directory (p : bytes) : Prop :=
  plain_path p ∧ ∃ meta canonical, symlink_metadata p = Some meta
    ∧ is_symlink meta = false ∧ meta_is_dir meta = true
    ∧ host_canonicalize p = Some canonical ∧ path_components canonical = path_components p.

(** A secret with its contents: private, and long enough. *)
Definition secret_file (p value : bytes) : Prop :=
  regular_file p false ∧ (∃ meta, metadata p = Some meta ∧ Z.land (mode meta) 511 = 384)
  ∧ host_read p = Some value ∧ 32 ≤ length value.

Lemma validate_regular_file_ok name p executable :
  validate_regular_file name p executable = Ok tt ↔ regular_file p executable.
Proof.
  unfold validate_regular_file, regular_file, same_path. split.
  - intros ([] & Hp%validate_absolute_normalized_ok & (meta & Hm%ok_or_ok & (u1 & Hl%ensure_ok
      & (u2 & Hf%ensure_ok & (canonical & Hc%ok_or_ok & (u3 & Hs%ensure_ok & He%ensure_ok)
      %result_bind_ok)%result_bind_ok)%result_bind_ok)%result_bind_ok)%result_bind_ok)%result_bind_ok.
    bool_to_prop. split; [done|]. exists meta, canonical. split_and!; try done.
    intros ->. by apply negb_true_iff, Z.eqb_neq in He.
  - intros (Hp & meta & canonical & Hm & Hl & Hf & Hc & Hs & He).
    rewrite (proj2 (validate_absolute_normalized_ok name p) Hp), Hm. simpl.
    rewrite Hl, Hf. simpl. rewrite Hc. simpl. rewrite bool_decide_eq_true_2 by done. simpl.
    apply ensure_ok. destruct executable; [|done]. by apply negb_true_iff, Z.eqb_neq, He.
Qed.

Lemma validate_directory_ok name p : validate_directory name p = Ok tt ↔ directory p.
Proof.
  unfold validate_directory, directory, same_path. split.
  - intros ([] & Hp%validate_absolute_normalized_ok & (meta & Hm%ok_or_ok & (u1 & Hl%ensure_ok
      & (u2 & Hf%ensure_ok & (canonical & Hc%ok_or_ok & Hs%ensure_ok)
      %result_bind_ok)%result_bind_ok)%result_bind_ok)%result_bind_ok)%result_bind_ok.
    bool_to_prop. split; [done|]. by exists meta, canonical.
  - intros (Hp & meta & canonical & Hm & Hl & Hf & Hc & Hs).
    rewrite (proj2 (validate_absolute_normalized_ok name p) Hp), Hm. simpl.
    rewrite Hl, Hf. simpl. rewrite Hc. simpl. apply ensure_ok. by apply bool_decide_eq_true_2.
Qed.

Lemma secret_files_ok named : ∀ paths contents,
  secret_files paths contents named = Ok tt ↔
  ∃ values, Forall2 (fun f value => secret_file (snd f) value) named values
    ∧ NoDup (path_components <$> named.*2) ∧ NoDup values
    ∧ (∀ p, p ∈ named.*2 → path_components p ∉ paths) ∧ (∀ v, v ∈ values → v ∉ contents).
Proof.
  induction named as [|[n p] named IH]; intros paths contents; cbn [secret_files].
  - split; [|done]. intros _. exists []. split_and!; try done; try constructor;
      by intros ? ?%elem_of_nil.
  - split.
    + intros ([] & Hf%validate_regular_file_ok & (u1 & Hp%ensure_ok & (meta & Hm%ok_or_ok
        & (u2 & Hmode%ensure_ok & (value & Hr%ok_or_ok & (u3 & Hlen%ensure_ok & (u4 & Hv%ensure_ok
        & (values & Hall & Hnd & Hndv & Hfresh & Hfreshv)%IH)
        %result_bind_ok)%result_bind_ok)%result_bind_ok)%result_bind_ok)%result_bind_ok)
        %result_bind_ok)%result_bind_ok.
      bool_to_prop. exists (value :: values). cbn [fmap list_fmap snd]. rewrite !NoDup_cons.
      split_and!; try done.
      * constructor; [|done]. split_and!; try done. by exists meta.
      * intros (q & Hq & Hin)%list_elem_of_fmap. apply (Hfresh q Hin). rewrite <- Hq. by left.
      * intros Hin. apply (Hfreshv value Hin). by left.
      * intros q [->|Hin]%elem_of_cons; [done|]. intros Hq. apply (Hfresh q Hin). by right.
      * intros v [->|Hin]%elem_of_cons; [done|]. intros Hq. apply (Hfreshv v Hin). by right.
    + intros (values & Hall & Hnd & Hndv & Hfresh & Hfreshv).
      apply Forall2_cons_inv_l in Hall as (value & values' & (Hf & (meta & Hm & Hmode) & Hr & Hlen)
        & Hall & ->). cbn [fmap list_fmap snd] in *. apply NoDup_cons in Hnd as [Hn Hnd].
      apply NoDup_cons in Hndv as [Hnv Hndv].
      rewrite (proj2 (validate_regular_file_ok n p false) Hf). cbn [result_bind].
      rewrite bool_decide_eq_false_2 by (apply Hfresh; by left). cbn [negb ensure result_bind].
      rewrite Hm. cbn [ok_or result_bind]. rewrite Hmode, Z.eqb_refl. cbn [ensure result_bind].
      rewrite Hr. cbn [ok_or result_bind]. rewrite (proj2 (Z.leb_le _ _) Hlen).
      cbn [ensure result_bind].
      rewrite bool_decide_eq_false_2 by (apply Hfreshv; by left). cbn [negb ensure result_bind].
      apply IH. exists values'. split_and!; try done.
      * intros q Hq [E|Hin]%elem_of_cons; [|by eapply Hfresh; [right|]].
        apply Hn. apply list_elem_of_fmap. by exists q.
      * intros v Hv [->|Hin]%elem_of_cons; [done|]. by eapply Hfreshv; [right|].
Qed.

(** The unit interval. *)
Definition fraction (x : double) : Prop := ∃ q, x = Finite q ∧ (0 <= q)%Q ∧ (q <= 1)%Q.

(** The secrets, in the order of the code. *)
Definition secrets (s : ClusterSecurityConfig.ClusterSecurityConfig) : list bytes :=
  [ClusterSecurityConfig.control_secret_file s; ClusterSecurityConfig.peer_proxy_token_file s;
   ClusterSecurityConfig.admin_token_file s].

Definition topology_valid (c : ModeAwareConfig) : Prop :=
  let m := Ds4Config.distributed (ds4 c) in
  match Ds4DistributedConfig.topology m with
  | DistributedTopology.LayerParallel =>
      ∃ coordinator worker, Ds4DistributedConfig.coordinator_layers m = Some coordinator
        ∧ Ds4DistributedConfig.worker_layers m = Some worker ∧ layer_split coordinator worker
  | DistributedTopology.TensorParallel =>
      Ds4DistributedConfig.transport m = Transport.Rdma
      ∧ Ds4DistributedConfig.coordinator_layers m = None
      ∧ Ds4DistributedConfig.worker_layers m = None
      ∧ Ds4DsparkConfig.enabled (Ds4Config.dspark (ds4 c)) = false
      ∧ Ds4StandaloneConfig.ssd_full_layers (Ds4Config.standalone (ds4 c)) = None
      ∧ ∀ a, a ∈ Ds4DistributedConfig.extra_args m → split_first (str "=") a ∉
          map str ["--role"; "--transport"; "--layers"; "--coordinator"; "--listen"]%string
  end.

Definition dspark_valid (c : ModeAwareConfig) : Prop :=
  let d := Ds4Config.dspark (ds4 c) in
  (if Ds4DsparkConfig.enabled d
   then is_Some (Ds4DsparkConfig.support_model d)
     ∧ Ds4StandaloneConfig.residency (Ds4Config.standalone (ds4 c)) = Residency.Resident
   else Ds4DsparkConfig.support_model d = None ∧ Ds4DsparkConfig.confidence d = None
     ∧ Ds4DsparkConfig.strict d = false)
  ∧ ∀ x, Ds4DsparkConfig.confidence d = Some x → fraction x.

Definition ssd_valid (s : Ds4StandaloneConfig) : Prop :=
  (Ds4StandaloneConfig.residency s = Residency.Resident →
     Ds4StandaloneConfig.ssd_cache_experts s = None ∧ Ds4StandaloneConfig.ssd_full_layers s = None
     ∧ Ds4StandaloneConfig.ssd_preload_experts s = None ∧ Ds4StandaloneConfig.ssd_cold s = false)
  ∧ ∀ v, Ds4StandaloneConfig.ssd_cache_experts s = Some v →
      ∃ n, parse_u64 (default v (strip_suffix (str "GB") v)) = Some n ∧ 0 < n.

Definition files_valid (c : ModeAwareConfig) : Prop :=
  let d := ds4 c in
  let s := Ds4Config.standalone d in
  let m := Ds4Config.distributed d in
  regular_file (Ds4Config.binary d) true ∧ directory (Ds4Config.working_directory d)
  ∧ (∀ p, p ∈ option_list (Ds4DsparkConfig.support_model (Ds4Config.dspark d)) ++
       [Ds4StandaloneConfig.model s; Ds4StandaloneConfig.model_manifest s;
        Ds4DistributedConfig.model m; Ds4DistributedConfig.model_manifest m] → regular_file p false)
  ∧ ∀ p, p ∈ [ClusterConfig.state_path (cluster c); ClusterConfig.manifest_cache_dir (cluster c);
        Ds4StandaloneConfig.kv_disk_dir s; Ds4DistributedConfig.kv_disk_dir m] → plain_path p.

(** What the operator may rely on in a configuration that was loaded. *)
Record valid_config (c : ModeAwareConfig) : Prop := {
  valid_schema : schema_version c = 2;
  valid_limits : 0 < ProxyConfig.request_body_limit_bytes (proxy c)
               ∧ 0 < ProxyConfig.max_in_flight (proxy c);
  valid_admin : is_loopback (socket_ip (ProxyConfig.admin_listen (proxy c))) = true;
  valid_ports : NoDup (named_ports c).*2 ∧ 0 ∉ (named_ports c).*2;
  valid_service : let d := ClusterConfig.discovery (cluster c) in
    validate_dns_sd_name (DiscoveryConfig.bonjour_service_type d) (DiscoveryConfig.bonjour_domain d)
    = Ok tt;
  valid_durations : 0 ∉ (named_durations c).*2
    ∧ ClusterTimeoutConfig.worker_startup (ClusterConfig.timeouts (cluster c))
      ≤ ClusterTimeoutConfig.rendezvous_hello (ClusterConfig.timeouts (cluster c));
  valid_recovery : 0 < RecoveryConfig.max_attempts_12h (recovery c)
    ∧ (∃ q, RecoveryConfig.low_decode_tps (recovery c) = Finite q ∧ (0 <= q)%Q)
    ∧ 0 < ClusterPolicyConfig.max_consecutive_promotion_failures (ClusterConfig.policy (cluster c));
  valid_files : files_valid c;
  valid_dspark : dspark_valid c;
  valid_ssd : ssd_valid (Ds4Config.standalone (ds4 c));
  valid_topology : topology_valid c;
  valid_kv : path_components (Ds4StandaloneConfig.kv_disk_dir (Ds4Config.standalone (ds4 c)))
           ≠ path_components (Ds4DistributedConfig.kv_disk_dir (Ds4Config.distributed (ds4 c)));
  valid_secrets : let s := secrets (ClusterConfig.security (cluster c)) in
    NoDup (path_components <$> s) ∧ ∃ values, Forall2 secret_file s values ∧ NoDup values;
  valid_arguments : ∀ a f,
    a ∈ Ds4StandaloneConfig.extra_args (Ds4Config.standalone (ds4 c))
      ++ Ds4DistributedConfig.extra_args (Ds4Config.distributed (ds4 c)) →
    f ∈ FORBIDDEN → is_option f a = false;
}.

Lemma validate_dspark_ok c : validate_dspark c = Ok tt ↔ dspark_valid c.
Proof.
  assert (∀ x, is_finite x && (at_least 0 x && at_most 1 x) = true ↔ fraction x) as Hx.
  { intros [|n|q]; unfold fraction; simpl; [naive_solver..|].
    rewrite andb_true_iff, !Qle_bool_iff. naive_solver. }
  unfold validate_dspark, dspark_valid.
  destruct (Ds4DsparkConfig.enabled _); cbn [app];
    rewrite !checks_cons_ok, !ensure_ok, ?andb_true_iff, ?negb_true_iff, ?bool_decide_eq_true,
      ?bool_decide_eq_false;
    destruct (Ds4DsparkConfig.confidence _) as [x|]; rewrite ?checks_cons_ok, ?ensure_ok, ?Hx.
  - destruct (Ds4DsparkConfig.support_model _); naive_solver.
  - destruct (Ds4DsparkConfig.support_model _); naive_solver.
  - naive_solver.
  - naive_solver.
Qed.

Lemma validate_ssd_ok s : validate_ssd_streaming s = Ok tt ↔ ssd_valid s.
Proof.
  unfold validate_ssd_streaming, ssd_valid. rewrite checks_cons_ok, ensure_ok.
  rewrite orb_true_iff, !negb_true_iff, bool_decide_eq_false, !orb_false_iff.
  destruct (Ds4StandaloneConfig.ssd_cache_experts s) as [v|],
    (Ds4StandaloneConfig.ssd_full_layers s), (Ds4StandaloneConfig.ssd_preload_experts s);
    rewrite ?checks_cons_ok, ?ensure_ok; simpl; split;
    try (destruct (parse_u64 _) eqn:E; rewrite ?Z.ltb_lt);
    destruct (decide (Ds4StandaloneConfig.residency s = Residency.Resident)); naive_solver.
Qed.

Lemma validate_topology_ok c : validate_distributed_topology c = Ok tt ↔ topology_valid c.
Proof.
  unfold validate_distributed_topology, topology_valid.
  destruct (Ds4DistributedConfig.topology _).
  - rewrite !checks_cons_ok, ensure_ok, validate_layer_split_ok, andb_true_iff.
    destruct (Ds4DistributedConfig.coordinator_layers _), (Ds4DistributedConfig.worker_layers _);
      simpl; naive_solver.
  - rewrite !checks_cons_ok, !ensure_ok, reject_override_ok, andb_true_iff, !negb_true_iff,
      bool_decide_eq_true.
    destruct (Ds4DistributedConfig.coordinator_layers _), (Ds4DistributedConfig.worker_layers _),
      (Ds4StandaloneConfig.ssd_full_layers _); simpl; naive_solver.
Qed.

Lemma validate_paths_ok c : validate_paths c = Ok tt ↔ files_valid c.
Proof.
  unfold validate_paths, files_valid. cbn [app]. rewrite !checks_cons_ok.
  rewrite validate_regular_file_ok, validate_directory_ok.
  destruct (Ds4DsparkConfig.support_model _) as [m|]; cbn [app option_list];
    rewrite !checks_cons_ok, !validate_regular_file_ok, !validate_absolute_normalized_ok;
    set_solver.
Qed.

Lemma checks_app_ok l1 l2 : checks (l1 ++ l2) = Ok tt ↔ checks l1 = Ok tt ∧ checks l2 = Ok tt.
Proof. induction l1 as [|[[]|e] l1 IH]; simpl; naive_solver. Qed.

Lemma named_nonzero_ok (l : list (bytes * Z)) :
  checks ((fun '(name, d) => ensure (negb (d =? 0)) (name ++ str " must be greater than zero"))
    <$> l) = Ok tt ↔ 0 ∉ l.*2.
Proof.
  induction l as [|[n d] l IH]; cbn [fmap list_fmap].
  - split; [by intros _ ?%elem_of_nil|done].
  - rewrite checks_cons_ok, ensure_ok, negb_true_iff, Z.eqb_neq, IH, not_elem_of_cons.
    cbn [snd]. naive_solver.
Qed.

Lemma validate_durations_ok c :
  validate_durations c = Ok tt ↔
  (0 ∉ (named_durations c).*2
    ∧ ClusterTimeoutConfig.worker_startup (ClusterConfig.timeouts (cluster c))
      ≤ ClusterTimeoutConfig.rendezvous_hello (ClusterConfig.timeouts (cluster c)))
  ∧ (0 < RecoveryConfig.max_attempts_12h (recovery c)
    ∧ (∃ q, RecoveryConfig.low_decode_tps (recovery c) = Finite q ∧ (0 <= q)%Q)
    ∧ 0 < ClusterPolicyConfig.max_consecutive_promotion_failures
        (ClusterConfig.policy (cluster c))).
Proof.
  unfold validate_durations. rewrite checks_app_ok, named_nonzero_ok, !checks_cons_ok, !ensure_ok.
  rewrite andb_true_iff, !Z.ltb_lt, Z.leb_le.
  assert (∀ x, is_finite x = true ∧ at_least 0 x = true ↔ ∃ q, x = Finite q ∧ (0 <= q)%Q) as ->.
  { intros [|n|q]; simpl; [naive_solver..|]. rewrite Qle_bool_iff. naive_solver. }
  naive_solver.
Qed.

Lemma validate_secrets_ok s :
  validate_secret_files s = Ok tt ↔
  NoDup (path_components <$> secrets s) ∧
  ∃ values, Forall2 secret_file (secrets s) values ∧ NoDup values.
Proof.
  unfold validate_secret_files. rewrite secret_files_ok. cbn [fmap list_fmap snd].
  fold (secrets s).
  assert (∀ (l : list (bytes * bytes)) values, Forall2 (fun f value => secret_file (snd f) value) l values
    ↔ Forall2 secret_file l.*2 values) as Hf by (intros; by rewrite Forall2_fmap_l).
  split.
  - intros (values & Hv%Hf & Hn & Hd & _). split; [exact Hn|]. by exists values.
  - intros (Hn & values & Hv & Hd). exists values. split_and!; try done.
    + by apply Hf.
    + by intros ? _ ?%elem_of_nil.
    + by intros ? _ ?%elem_of_nil.
Qed.

Lemma validate_iff c : validate c = Ok tt ↔ valid_config c.
Proof.
  unfold validate, ensure_loopback_or_explicit, validate_ports, same_path.
  rewrite !checks_cons_ok, !ensure_ok, ports_distinct_ok, validate_durations_ok, validate_paths_ok,
    validate_dspark_ok, validate_ssd_ok, validate_topology_ok, validate_secrets_ok,
    !validate_extra_args_ok, Z.eqb_eq, !Z.ltb_lt, negb_true_iff, bool_decide_eq_false.
  split.
  - intros (Hs & Hb & Hm & Ha & (Hz & Hnd & _) & Hdns & [Hd Hr] & Hf & Hdsp & Hssd & Ht & Hkv & Hsec
      & He1 & He2 & _).
    constructor; try done. intros a f [H|H]%elem_of_app Hf'; [by apply He1|by apply He2].
  - intros [Hs [Hb Hm] Ha [Hnd Hz] Hdns [Hd Hw] (Hr & Htps & Hp) Hf Hdsp Hssd Ht Hkv [Hs1 Hs2] He].
    repeat match goal with |- _ ∧ _ => split end; try done;
      try (by intros ? _ ?%elem_of_nil); try (intros; apply He; [set_solver|done]).
Qed.


End Valid.

(** ** Durations *)

Lemma parse_duration_bound s d : parse_duration s = Some d → 0 ≤ d ≤ from_millis u64_max.
Proof.
  unfold parse_duration. intros ([n m] & Hu & (v & Hv & Hm)%bind_Some)%bind_Some.
  apply fmap_Some in Hm as (ms & Hms & ->). apply parse_u64_range in Hv. unfold is_u64 in Hv.
  unfold checked_mul in Hms. case_match; simplify_eq. bool_to_prop.
  assert (0 ≤ m).
  { unfold duration_unit in Hu. repeat (case_match; simplify_eq; try lia).
    apply bind_Some in Hu as (? & _ & [= <- <-]). lia. }
  unfold from_millis. nia.
Qed.

(** ** Concrete configurations *)

Module DemoConfig.

Definition path_of (name : string) : bytes := str "/srv/ds4/" ++ str name.

Definition config (layers : string * string) (args : list string) : ModeAwareConfig := {|
  schema_version := 2;
  proxy := ProxyConfig.mkProxy (mkSocket (IpAddr.V4 0) 8080) (mkSocket localhost 8081) 1048576 4
    (ProxyTimeoutConfig.mkProxyTimeouts (secs 5) (secs 300) (secs 300) (secs 60));
  cluster := ClusterConfig.mkCluster true (str "node-a") (str "bridge0") (IpAddr.V4 174260225)
    (IpAddr.V4 174260226) 9920 9921 9922 (path_of "state.json") (path_of "cache")
    (DiscoveryConfig.mkDiscovery DiscoveryMode.Bonjour (str "_ds4cluster._tcp") (str "local.")
       (from_millis 500) (secs 10))
    (ClusterSecurityConfig.mkSecurity (path_of "control") (path_of "peer") (path_of "admin")
       (secs 30) (secs 60))
    (ClusterPolicyConfig.mkPolicy true true true (secs 10) (secs 5) (secs 60) 3)
    (ClusterTimeoutConfig.mkTimeouts (secs 2) (secs 5) (secs 15) (secs 60) (secs 30) (secs 120)
       (secs 120) (secs 300) (secs 300) (secs 300));
  ds4 := Ds4Config.mkDs4 (path_of "ds4-server") (str "/srv/ds4") localhost 8000 false
    (Ds4DsparkConfig.mkDspark false None None false)
    (Ds4StandaloneConfig.mkStandalone (str "standalone") (path_of "q2.gguf") (path_of "q2.json")
       (str "v4") Quantization.Q2 Residency.Resident 32768 (path_of "kv-local") 1024 None None
       None false [])
    (Ds4DistributedConfig.mkDistributed DistributedTopology.LayerParallel Quantization.Mxfp4
       Transport.Tcp (path_of "mx.gguf") (path_of "mx.json") (str "v4") 32768
       (Some (str (fst layers))) (Some (str (snd layers))) (path_of "kv-pair") 1024 (map str args)
       None None None None None None);
  logging := logging_default;
  notifications := notifications_default true;
  startup_cleanup := startup_cleanup_default;
  recovery := recovery_default 120000
|}.

(** A host on which every path is a private regular file, and the directory a directory;
    every file holds its own path, padded. *)
Definition host : HostFiles := {|
  symlink_metadata p :=
    let dir := bool_decide (p = str "/srv/ds4") in
    Some (mkMetadata false (negb dir) dir 448);
  metadata _ := Some (mkMetadata false true false 384);
  host_canonicalize p := Some p;
  host_read p := Some (p ++ repeat 0 32)
|}.

Example accepted : validate (files := host) (config ("0:20", "21:output") ["--debug"]) = Ok tt.
Proof. vm_compute. reflexivity. Qed.

Example gap_is_refused :
  validate (files := host) (config ("0:20", "22:output") ["--debug"])
  = Err (str "layer split must not contain a gap or overlap").
Proof. vm_compute. reflexivity. Qed.

Example override_is_refused :
  is_ok (validate (files := host) (config ("0:20", "21:output") ["--ctx=1"])) = false.
Proof. vm_compute. reflexivity. Qed.

(** A [.] inside a path is accepted, although the message of the check excludes it: the
    components of a path do not show it. *)
Example dot_is_accepted :
  validate_absolute_normalized (str "cluster.state_path") (str "/srv/./ds4/state.json") = Ok tt.
Proof. vm_compute. reflexivity. Qed.

(** An absolute suffix after [~/] replaces the home directory, while the slashes after a
    variable are removed. *)
Example slash_after_home :
  let env := fun _ => Some (str "/Users/a") in
  expand_config_path env (str "~//etc/x") = Ok (str "/etc/x")
  ∧ expand_config_path env (str "$HOME//etc/x") = Ok (str "/Users/a/etc/x")
  ∧ expand_config_path env (str "~/etc/x") = Ok (str "/Users/a/etc/x")
  ∧ expand_config_path env (str "${HOME}/etc/x") = Ok (str "/Users/a/etc/x")
  ∧ is_ok (expand_config_path env (str "~root/x")) = false.
Proof. vm_compute. done. Qed.

Example durations :
  parse_duration (str " 500ms ") = Some (from_millis 500)
  ∧ parse_duration (str "15s") = Some (secs 15) ∧ parse_duration (str "2d") = Some (secs 172800)
  ∧ parse_duration (str "1.5s") = None ∧ parse_duration (str "10") = None
  ∧ parse_duration (str "18446744073709551615h") = None.
Proof. vm_compute. done. Qed.

(** Streaming experts from disk is accepted with tensor parallelism, unless full layers
    are configured: the message says that streaming is not supported. *)
Definition streaming_tp : ModeAwareConfig :=
  let c := config ("0:20", "21:output") [] in
  let d := ds4 c in
  let s := Ds4Config.standalone d in
  let m := Ds4Config.distributed d in
  ModeAwareConfig.mkConfig 2 (proxy c) (cluster c)
    (Ds4Config.mkDs4 (Ds4Config.binary d) (Ds4Config.working_directory d) localhost 8000 false
      (Ds4Config.dspark d)
      (Ds4StandaloneConfig.mkStandalone (str "standalone") (path_of "q2.gguf") (path_of "q2.json")
        (str "v4") Quantization.Q2 Residency.SsdStreaming 32768 (path_of "kv-local") 1024
        (Some (str "64GB")) None None true [])
      (Ds4DistributedConfig.mkDistributed DistributedTopology.TensorParallel Quantization.Mxfp4
        Transport.Rdma (path_of "mx.gguf") (path_of "mx.json") (str "v4") 32768 None None
        (path_of "kv-pair") 1024 [] None None None None None None))
    (logging c) (notifications c) (startup_cleanup c) (recovery c).

Example streaming_with_tp_accepted : validate (files := host) streaming_tp = Ok tt.
Proof. vm_compute. reflexivity. Qed.

End DemoConfig.
