(* ===== verification/Command.v ===== *)
(** * The commands of the DS4 children: [src/src/cluster/ds4_command.rs]

    The argument vectors of the five children, as the options of the program with their
    values followed by the operator's extra arguments.  A number is printed in decimal; the
    texts of an IPv6 address and of an [f64] are the interface [Texts]. *)

From S2P Require Import Prelude Bytes Utf8 Text FileTree Config.
Import Ds4DistributedConfig.

(** [Display] of the standard library that is not written out. *)
Class Texts := { ipv6_to_string : Z → bytes; f64_to_string : double → bytes }.

(** An option with the values after it. *)
Notation option_args := (bytes * list bytes)%type.

Section Commands.
Context {texts : Texts}.

(** [IpAddr::to_string]. *)
Definition ip_to_string (ip : IpAddr) : bytes :=
  match ip with
  | IpAddr.V4 o =>
      u64_to_string (o / 2 ^ 24) ++ str "." ++ u64_to_string (o / 2 ^ 16 mod 256) ++ str "."
      ++ u64_to_string (o / 256 mod 256) ++ str "." ++ u64_to_string (o mod 256)
  | IpAddr.V6 o => ipv6_to_string o
  end.

(** src/src/cluster/ds4_command.rs:5-11 (Ds4Profile) *)
Record Ds4Profile := mkProfile {
  profile_id : bytes;
  profile_quantization : Quantization;
  residency : Residency;
  speculative_support : SpeculativeSupport;
}.

(** src/src/cluster/ds4_command.rs:13-19 (Ds4Command) *)
Record Ds4Command := mkCommand {
  executable : bytes;
  working_directory : bytes;
  argv : list bytes;
  profile : Ds4Profile;
}.

(** src/src/cluster/ds4_command.rs:30-46 (Ds4CommandError) *)
Inductive Ds4CommandError :=
| SsdOptionsForResident
| InvalidExtraArguments (e : bytes)
| DistributedDebugRequired
| DsparkSupportModelRequired
| DsparkSsdStreaming
| MissingLayerRange (what : bytes)
| TpManagedArgumentOverride (argument : bytes).

Definition args_of (options : list option_args) : list bytes :=
  concat ((fun o => fst o :: snd o) <$> options).

(** src/src/cluster/ds4_command.rs:120-133 (validate_distributed_extra_args) *)
Definition validate_distributed_extra_args (distributed : Ds4DistributedConfig)
    : result unit Ds4CommandError :=
  (let? _ := map_err InvalidExtraArguments
               (validate_extra_args (str "ds4.distributed.extra_args") (extra_args distributed)) in
   ensure (existsb (fun a => bool_decide (a = str "--debug")) (extra_args distributed))
     DistributedDebugRequired)%rust.

(** src/src/cluster/ds4_command.rs:256-268 (distributed_command) *)
Definition distributed_command (config : Ds4Config) (role : bytes) (argv : list bytes)
    : Ds4Command := {|
  executable := Ds4Config.binary config;
  working_directory := Ds4Config.working_directory config;
  argv := argv;
  profile := {|
    profile_id := str "distributed-layer-parallel-" ++ role;
    profile_quantization := quantization (Ds4Config.distributed config);
    residency := Residency.Resident;
    speculative_support := SpeculativeSupport.None |}
|}.

Definition lp_worker_options (config : Ds4Config) (layers : bytes) (coordinator_address : IpAddr)
    (distributed_port : Z) : list option_args :=
  let distributed := Ds4Config.distributed config in
  [(str "-m", [model distributed]);
   (str "--role", [str "worker"]);
   (str "--layers", [layers]);
   (str "--coordinator", [ip_to_string coordinator_address; u64_to_string distributed_port]);
   (str "--ctx", [u64_to_string (context_size distributed)]);
   (str "--kv-disk-dir", [kv_disk_dir distributed]);
   (str "--kv-disk-space-mb", [u64_to_string (kv_disk_space_mb distributed)])].

(** src/src/cluster/ds4_command.rs:48-81 (build_distributed_worker_command) *)
Definition build_distributed_worker_command (config : Ds4Config) (coordinator_address : IpAddr)
    (distributed_port : Z) : result Ds4Command Ds4CommandError :=
  let distributed := Ds4Config.distributed config in
  (let? _ := validate_distributed_extra_args distributed in
   let? layers := ok_or (worker_layers distributed) (MissingLayerRange (str "worker_layers")) in
   Ok (distributed_command config (str "worker")
         (args_of (lp_worker_options config layers coordinator_address distributed_port)
          ++ extra_args distributed)))%rust.

Definition lp_coordinator_options (config : Ds4Config) (layers : bytes)
    (coordinator_address : IpAddr) (distributed_port : Z) : list option_args :=
  let distributed := Ds4Config.distributed config in
  [(str "-m", [model distributed]);
   (str "--role", [str "coordinator"]);
   (str "--layers", [layers]);
   (str "--listen", [ip_to_string coordinator_address; u64_to_string distributed_port]);
   (str "--host", [ip_to_string (Ds4Config.http_host config)]);
   (str "--port", [u64_to_string (Ds4Config.http_port config)]);
   (str "--ctx", [u64_to_string (context_size distributed)]);
   (str "--kv-disk-dir", [kv_disk_dir distributed]);
   (str "--kv-disk-space-mb", [u64_to_string (kv_disk_space_mb distributed)])].

(** src/src/cluster/ds4_command.rs:83-118 (build_distributed_coordinator_command) *)
Definition build_distributed_coordinator_command (config : Ds4Config)
    (coordinator_address : IpAddr) (distributed_port : Z) : result Ds4Command Ds4CommandError :=
  let distributed := Ds4Config.distributed config in
  (let? _ := validate_distributed_extra_args distributed in
   let? layers := ok_or (coordinator_layers distributed)
                    (MissingLayerRange (str "coordinator_layers")) in
   Ok (distributed_command config (str "coordinator")
         (args_of (lp_coordinator_options config layers coordinator_address distributed_port)
          ++ extra_args distributed)))%rust.

(** *** Tensor parallelism *)

Definition tp_managed : list bytes :=
  map str ["--role"; "--transport"; "--layers"; "--coordinator"; "--listen"; "--debug"; "--ctx";
    "--rdma-device"; "--rdma-gid-index"; "--tensor-parallel"; "--ssd-streaming"; "--dspark";
    "--mtp-model"; "--host"; "--port"; "-m"; "--model"]%string.

(** The first loop of [validate_tp_extra_args]. *)
Fixpoint reject_tp_managed (arguments : list bytes) : result unit Ds4CommandError :=
  match arguments with
  | [] => Ok tt
  | argument :: arguments =>
      if bool_decide (split_first (str "=") argument ∈ tp_managed)
      then Err (TpManagedArgumentOverride argument)
      else reject_tp_managed arguments
  end.

(** src/src/cluster/ds4_command.rs:142-174 (validate_tp_extra_args) *)
Definition validate_tp_extra_args (distributed : Ds4DistributedConfig)
    : result unit Ds4CommandError :=
  (let? _ := reject_tp_managed (extra_args distributed) in
   map_err InvalidExtraArguments
     (validate_extra_args (str "ds4.distributed.extra_args") (extra_args distributed)))%rust.

(** src/src/cluster/ds4_command.rs:136-138 (tp_transport_name) *)
Definition tp_transport_name (config : Ds4Config) : bytes :=
  transport_name (transport (Ds4Config.distributed config)).

(** What [tp_command] adds at the end. *)
Definition tp_trailing_options (config : Ds4Config) : list option_args :=
  let distributed := Ds4Config.distributed config in
  [(str "--ctx", [u64_to_string (context_size distributed)])]
  ++ match rdma_device distributed with
     | Some device => [(str "--rdma-device", [device])]
     | None => []
     end
  ++ match rdma_gid distributed with
     | Some gid => [(str "--rdma-gid-index", [gid])]
     | None => []
     end.

(** src/src/cluster/ds4_command.rs:176-199 (tp_command) *)
Definition tp_command (config : Ds4Config) (role : bytes) (argv : list bytes) : Ds4Command := {|
  executable := Ds4Config.binary config;
  working_directory := Ds4Config.working_directory config;
  argv := argv ++ args_of (tp_trailing_options config);
  profile := {|
    profile_id := str "distributed-tensor-parallel-" ++ role;
    profile_quantization := quantization (Ds4Config.distributed config);
    residency := Residency.Resident;
    speculative_support := SpeculativeSupport.None |}
|}.

Definition tp_worker_options (config : Ds4Config) (coordinator_address : IpAddr)
    (distributed_port : Z) : list option_args :=
  [(str "-m", [model (Ds4Config.distributed config)]);
   (str "--tensor-parallel", []);
   (str "--role", [str "worker"]);
   (str "--coordinator", [ip_to_string coordinator_address; u64_to_string distributed_port]);
   (str "--transport", [tp_transport_name config])].

(** src/src/cluster/ds4_command.rs:203-224 (build_tp_worker_command) *)
Definition build_tp_worker_command (config : Ds4Config) (coordinator_address : IpAddr)
    (distributed_port : Z) : result Ds4Command Ds4CommandError :=
  let distributed := Ds4Config.distributed config in
  (let? _ := validate_tp_extra_args distributed in
   Ok (tp_command config (str "worker")
         (args_of (tp_worker_options config coordinator_address distributed_port)
          ++ extra_args distributed)))%rust.

Definition tp_coordinator_options (config : Ds4Config) (listen_address : IpAddr)
    (distributed_port : Z) : list option_args :=
  [(str "-m", [model (Ds4Config.distributed config)]);
   (str "--tensor-parallel", []);
   (str "--role", [str "coordinator"]);
   (str "--listen", [ip_to_string listen_address; u64_to_string distributed_port]);
   (str "--transport", [tp_transport_name config]);
   (str "--host", [ip_to_string (Ds4Config.http_host config)]);
   (str "--port", [u64_to_string (Ds4Config.http_port config)])].

(** src/src/cluster/ds4_command.rs:229-254 (build_tp_coordinator_command) *)
Definition build_tp_coordinator_command (config : Ds4Config) (listen_address : IpAddr)
    (distributed_port : Z) : result Ds4Command Ds4CommandError :=
  let distributed := Ds4Config.distributed config in
  (let? _ := validate_tp_extra_args distributed in
   Ok (tp_command config (str "coordinator")
         (args_of (tp_coordinator_options config listen_address distributed_port)
          ++ extra_args distributed)))%rust.

(** *** Standalone *)

Import Ds4StandaloneConfig.

(** src/src/cluster/ds4_command.rs:359-364 (push_option) *)
Definition push_option (name : bytes) (value : option bytes) : list option_args :=
  match value with Some value => [(name, [value])] | None => [] end.

Definition ssd_options (standalone : Ds4StandaloneConfig) : list option_args :=
  match Ds4StandaloneConfig.residency standalone with
  | Residency.Resident => []
  | Residency.SsdStreaming =>
      [(str "--ssd-streaming", [])]
      ++ push_option (str "--ssd-streaming-cache-experts") (ssd_cache_experts standalone)
      ++ push_option (str "--ssd-streaming-full-layers")
           (u64_to_string <$> ssd_full_layers standalone)
      ++ match ssd_preload_experts standalone with
         | Some value =>
             if 0 <? value
             then [(str "--ssd-streaming-preload-experts", [u64_to_string value])] else []
         | None => []
         end
      ++ (if ssd_cold standalone then [(str "--ssd-streaming-cold", [])] else [])
  end.

Definition dspark_options (dspark : Ds4DsparkConfig) : result (list option_args) Ds4CommandError :=
  if Ds4DsparkConfig.enabled dspark then
    (let? support_model := ok_or (Ds4DsparkConfig.support_model dspark)
                             DsparkSupportModelRequired in
     Ok ([(str "--mtp-model", [support_model]); (str "--dspark", [])]
         ++ push_option (str "--dspark-confidence")
              (f64_to_string <$> Ds4DsparkConfig.confidence dspark)
         ++ (if Ds4DsparkConfig.strict dspark then [(str "--dspark-strict", [])] else [])))%rust
  else Ok [].

Definition standalone_options (config : Ds4Config) (dspark : list option_args)
    : list option_args :=
  let standalone := Ds4Config.standalone config in
  [(str "-m", [Ds4StandaloneConfig.model standalone]);
   (str "--host", [ip_to_string (Ds4Config.http_host config)]);
   (str "--port", [u64_to_string (Ds4Config.http_port config)]);
   (str "--ctx", [u64_to_string (Ds4StandaloneConfig.context_size standalone)]);
   (str "--kv-disk-dir", [Ds4StandaloneConfig.kv_disk_dir standalone]);
   (str "--kv-disk-space-mb",
      [u64_to_string (Ds4StandaloneConfig.kv_disk_space_mb standalone)])]
  ++ ssd_options standalone ++ dspark.

(** src/src/cluster/ds4_command.rs:270-357 (build_standalone_command) *)
Definition build_standalone_command (config : Ds4Config) : result Ds4Command Ds4CommandError :=
  let standalone := Ds4Config.standalone config in
  let dspark := Ds4Config.dspark config in
  let has_ssd_options := is_some (ssd_cache_experts standalone)
    || is_some (ssd_full_layers standalone) || is_some (ssd_preload_experts standalone)
    || ssd_cold standalone in
  (let? _ := map_err InvalidExtraArguments
               (validate_extra_args (str "ds4.standalone.extra_args")
                  (Ds4StandaloneConfig.extra_args standalone)) in
   let? _ := ensure (negb (bool_decide (Ds4StandaloneConfig.residency standalone = Residency.Resident)
                           && has_ssd_options)) SsdOptionsForResident in
   let? _ := ensure (negb (Ds4DsparkConfig.enabled dspark
               && bool_decide (Ds4StandaloneConfig.residency standalone = Residency.SsdStreaming)))
               DsparkSsdStreaming in
   let? dspark_args := dspark_options dspark in
   Ok (mkCommand (Ds4Config.binary config) (Ds4Config.working_directory config)
         (args_of (standalone_options config dspark_args)
          ++ Ds4StandaloneConfig.extra_args standalone)
         (mkProfile (Ds4StandaloneConfig.profile_id standalone)
            (Ds4StandaloneConfig.quantization standalone)
            (Ds4StandaloneConfig.residency standalone)
            (if Ds4DsparkConfig.enabled dspark then SpeculativeSupport.Dspark
             else SpeculativeSupport.None))))%rust.

End Commands.

(** The address in the command of a tensor-parallel child is the one of the session.
    src/src/cluster/process/tp.rs:118-127 (TpProcessSupervisor::start_inner) *)
Definition retarget (argv : list bytes) (coordinator : bytes) : list bytes :=
  match list_find (fun a => a = str "--coordinator" ∨ a = str "--listen") argv with
  | Some (index, _) => <[S index := coordinator]> argv
  | None => argv
  end.

(** ** Extra arguments do not override generated options *)

Inductive child := StandaloneChild | LpWorker | LpCoordinator | TpWorker | TpCoordinator.

Section Theorems.
Context {texts : Texts}.

(** The command of a child. *)
Definition build (c : child) (config : Ds4Config) (address : IpAddr) (port : Z)
    : result Ds4Command Ds4CommandError :=
  match c with
  | StandaloneChild => build_standalone_command config
  | LpWorker => build_distributed_worker_command config address port
  | LpCoordinator => build_distributed_coordinator_command config address port
  | TpWorker => build_tp_worker_command config address port
  | TpCoordinator => build_tp_coordinator_command config address port
  end.

Definition extra (c : child) (config : Ds4Config) : list bytes :=
  match c with
  | StandaloneChild => Ds4StandaloneConfig.extra_args (Ds4Config.standalone config)
  | _ => extra_args (Ds4Config.distributed config)
  end.

Lemma split_once_sep b o s : b ∉ o → split_once [b] (o ++ b :: s) = Some (o, s).
Proof.
  induction o as [|x o IH]; intros Hb; simpl; [by rewrite Z.eqb_refl|].
  destruct (Z.eqb_spec b x); [set_solver|]. by rewrite IH by set_solver.
Qed.

Lemma split_once_no_sep b o : b ∉ o → split_once [b] o = None.
Proof.
  induction o as [|x o IH]; intros Hb; simpl; [done|].
  destruct (Z.eqb_spec b x); [set_solver|]. by rewrite IH by set_solver.
Qed.

Lemma Ok_inj {A E} (a b : A) : (Ok a : result A E) = Ok b → a = b.
Proof. by intros [= ->]. Qed.

(** What is before the first separator, or all of the text. *)
Lemma split_first_once p s :
  split_first p s = match split_once p s with Some (a, _) => a | None => s end.
Proof.
  unfold split_first, split. destruct s as [|x s].
  - simpl. by destruct (strip_prefix p []).
  - cbn [length split_fuel]. by destruct (split_once p (x :: s)) as [[]|].
Qed.

Lemma is_option_name o a : 61 ∉ o → is_option o a = true → split_first (str "=") a = o.
Proof.
  intros Ho H. rewrite split_first_once. apply orb_true_iff in H as [->%bool_decide_eq_true|H].
  - by rewrite (split_once_no_sep 61).
  - destruct (strip_prefix o a) as [s|] eqn:Hs; [|done]. apply strip_prefix_spec in Hs as ->.
    change (str "=") with [61] in *. destruct s as [|x s]; [done|]. cbn [starts_with] in H.
    apply andb_true_iff in H as [<-%Z.eqb_eq _]. by rewrite split_once_sep.
Qed.

(** Every option in the list of the check is free of the separator. *)
Lemma tp_managed_free args a o :
  reject_tp_managed args = Ok tt → a ∈ args → o ∈ tp_managed → is_option o a = false.
Proof.
  intros Hr Ha Ho. apply not_true_iff_false. intros H.
  assert (61 ∉ o) as Hfree.
  { assert (forallb (fun o => negb (contains_byte 61 o)) tp_managed = true) as Hall
      by (vm_compute; reflexivity).
    rewrite forallb_forall in Hall. apply contains_byte_false, negb_true_iff, Hall.
    by apply list_elem_of_In. }
  apply is_option_name in H; [|done]. induction args as [|b args IH]; [by apply elem_of_nil in Ha|].
  simpl in Hr. case_bool_decide; [done|]. apply elem_of_cons in Ha as [->|Ha]; [congruence|].
  by apply IH.
Qed.

(** The options of the program before and after the extra arguments. *)
Definition generated (c : child) (config : Ds4Config) (address : IpAddr) (port : Z)
    : list option_args * list option_args :=
  let layers f := default [] (f (Ds4Config.distributed config)) in
  match c with
  | StandaloneChild =>
      (standalone_options config match dspark_options (Ds4Config.dspark config) with
                                 | Ok l => l | Err _ => [] end, [])
  | LpWorker => (lp_worker_options config (layers worker_layers) address port, [])
  | LpCoordinator => (lp_coordinator_options config (layers coordinator_layers) address port, [])
  | TpWorker => (tp_worker_options config address port, tp_trailing_options config)
  | TpCoordinator => (tp_coordinator_options config address port, tp_trailing_options config)
  end.

Lemma build_argv c config address port cmd :
  build c config address port = Ok cmd →
  let '(before, after) := generated c config address port in
  argv cmd = args_of before ++ extra c config ++ args_of after
  ∧ (∀ a o, a ∈ extra c config → o ∈ FORBIDDEN → is_option o a = false)
  ∧ (c = TpWorker ∨ c = TpCoordinator →
     ∀ a o, a ∈ extra c config → o ∈ tp_managed → is_option o a = false).
Proof.
  assert (∀ n l u, map_err InvalidExtraArguments (validate_extra_args n l) = Ok u →
    ∀ a o, a ∈ l → o ∈ FORBIDDEN → is_option o a = false) as Hargs.
  { intros n l [] H. apply (validate_extra_args_ok n). by destruct (validate_extra_args n l) as [[]|]. }
  destruct c; cbn [build extra generated].
  - unfold build_standalone_command.
    intros (u & Ha & (u1 & _ & (u2 & _ & (ds & Hd & [= <-])%result_bind_ok)%result_bind_ok)
      %result_bind_ok)%result_bind_ok. rewrite Hd. cbn [argv]. rewrite app_nil_r.
    split_and!; [done|by eapply Hargs|by intros [|]].
  - unfold build_distributed_worker_command, validate_distributed_extra_args.
    intros (u & (u1 & Ha & _)%result_bind_ok & (l & Hl%ok_or_ok & [= <-])%result_bind_ok)
      %result_bind_ok. rewrite Hl. cbn [argv distributed_command default]. rewrite app_nil_r.
    split_and!; [done|by eapply Hargs|by intros [|]].
  - unfold build_distributed_coordinator_command, validate_distributed_extra_args.
    intros (u & (u1 & Ha & _)%result_bind_ok & (l & Hl%ok_or_ok & [= <-])%result_bind_ok)
      %result_bind_ok. rewrite Hl. cbn [argv distributed_command default]. rewrite app_nil_r.
    split_and!; [done|by eapply Hargs|by intros [|]].
  - unfold build_tp_worker_command, validate_tp_extra_args.
    intros ([] & ([] & Hr & Ha)%result_bind_ok & <-%Ok_inj)%result_bind_ok.
    cbn [argv tp_command]. rewrite <- app_assoc.
    split_and!; [done|by eapply Hargs|intros _ a o; by eapply tp_managed_free].
  - unfold build_tp_coordinator_command, validate_tp_extra_args.
    intros ([] & ([] & Hr & Ha)%result_bind_ok & <-%Ok_inj)%result_bind_ok.
    cbn [argv tp_command]. rewrite <- app_assoc.
    split_and!; [done|by eapply Hargs|intros _ a o; by eapply tp_managed_free].
Qed.

(** All the options of a standalone child. *)
Definition standalone_names : list bytes :=
  map str ["-m"; "--host"; "--port"; "--ctx"; "--kv-disk-dir"; "--kv-disk-space-mb";
    "--ssd-streaming"; "--ssd-streaming-cache-experts"; "--ssd-streaming-full-layers";
    "--ssd-streaming-preload-experts"; "--ssd-streaming-cold"; "--mtp-model"; "--dspark";
    "--dspark-confidence"; "--dspark-strict"]%string.

Ltac sub := repeat first [apply sublist_skip | apply sublist_cons | apply sublist_nil_l].

Lemma ssd_names s :
  (ssd_options s).*1 `sublist_of` map str ["--ssd-streaming"; "--ssd-streaming-cache-experts";
    "--ssd-streaming-full-layers"; "--ssd-streaming-preload-experts"; "--ssd-streaming-cold"]%string.
Proof.
  unfold ssd_options, push_option.
  destruct (Ds4StandaloneConfig.residency _); [sub|].
  destruct (Ds4StandaloneConfig.ssd_cache_experts _), (Ds4StandaloneConfig.ssd_full_layers _), (Ds4StandaloneConfig.ssd_preload_experts _) as [v|],
    (Ds4StandaloneConfig.ssd_cold _); try destruct (0 <? v); simpl; sub.
Qed.

Lemma dspark_names d l :
  dspark_options d = Ok l →
  l.*1 `sublist_of` map str ["--mtp-model"; "--dspark"; "--dspark-confidence";
    "--dspark-strict"]%string.
Proof.
  unfold dspark_options, push_option.
  destruct (Ds4DsparkConfig.enabled d), (Ds4DsparkConfig.support_model d),
    (Ds4DsparkConfig.confidence d), (Ds4DsparkConfig.strict d); simpl; intros [= <-]; sub.
Qed.

Lemma standalone_names_sub config l :
  l.*1 `sublist_of` map str ["--mtp-model"; "--dspark"; "--dspark-confidence";
    "--dspark-strict"]%string →
  (standalone_options config l).*1 `sublist_of` standalone_names.
Proof.
  intros Hl. unfold standalone_options. rewrite !fmap_app.
  apply (sublist_app _ (take 6 standalone_names) _ (drop 6 standalone_names)); [by vm_compute|].
  apply (sublist_app _ (take 5 (drop 6 standalone_names)) _ (drop 11 standalone_names));
    [apply ssd_names|exact Hl].
Qed.

(** The names of the options, whatever their values. *)
Lemma generated_names c config address port :
  let '(before, after) := generated c config address port in
  NoDup (before ++ after).*1
  ∧ ∀ o, o ∈ (before ++ after).*1 →
      o ∈ FORBIDDEN ∨ ((c = TpWorker ∨ c = TpCoordinator) ∧ o ∈ tp_managed).
Proof.
  destruct c; cbn [generated].
  - rewrite app_nil_r.
    assert ((standalone_options config match dspark_options (Ds4Config.dspark config) with
      Ok l => l | Err _ => [] end).*1 `sublist_of` standalone_names) as Hs.
    { apply standalone_names_sub. destruct (dspark_options _) eqn:E; [by eapply dspark_names|sub]. }
    split.
    + eapply sublist_NoDup; [|exact Hs]. by apply (bool_decide_eq_true_1 (NoDup standalone_names)).
    + intros o Ho. left. eapply elem_of_sublist in Ho; [|exact Hs].
      revert o Ho. apply list.Forall_forall.
      by apply (bool_decide_eq_true_1 (Forall (fun o => o ∈ FORBIDDEN) standalone_names)).
  - split.
    + by apply (bool_decide_eq_true_1 (NoDup _)).
    + intros o Ho. left. revert o Ho. by apply list.Forall_forall, (bool_decide_eq_true_1 (Forall (fun o => o ∈ FORBIDDEN) _)).
  - split.
    + by apply (bool_decide_eq_true_1 (NoDup _)).
    + intros o Ho. left. revert o Ho. by apply list.Forall_forall, (bool_decide_eq_true_1 (Forall (fun o => o ∈ FORBIDDEN) _)).
  - unfold tp_trailing_options. destruct (rdma_device _), (rdma_gid _); (split;
    [by apply (bool_decide_eq_true_1 (NoDup _))|intros o Ho; right; split; [by left|]; revert o Ho;
     by apply list.Forall_forall, (bool_decide_eq_true_1 (Forall (fun o => o ∈ tp_managed) _))]).
  - unfold tp_trailing_options. destruct (rdma_device _), (rdma_gid _); (split;
    [by apply (bool_decide_eq_true_1 (NoDup _))|intros o Ho; right; split; [by right|]; revert o Ho;
     by apply list.Forall_forall, (bool_decide_eq_true_1 (Forall (fun o => o ∈ tp_managed) _))]).
Qed.

(** C33: The command of every child is the program's options, in order, each of them once,
    with the operator's extra arguments between them, and none of those extra arguments is,
    or assigns, one of the program's options. *)
Theorem generated_options_final c config address port cmd :
  build c config address port = Ok cmd →
  let '(before, after) := generated c config address port in
  argv cmd = args_of before ++ extra c config ++ args_of after
  ∧ NoDup (before ++ after).*1
  ∧ ∀ a o, a ∈ extra c config → o ∈ (before ++ after).*1 → is_option o a = false.
Proof.
  intros Hb. apply build_argv in Hb. pose proof (generated_names c config address port) as Hn.
  destruct (generated c config address port) as [before after].
  destruct Hb as (Hargv & Hforb & Htp), Hn as [Hnd Hin]. split_and!; [done..|].
  intros a o Ha Ho. destruct (Hin o Ho) as [Hf|[Hc Hm]]; [by apply Hforb|by apply Htp].
Qed.

(** ** From a valid configuration to a command *)

Lemma reject_tp_managed_ok args :
  reject_tp_managed args = Ok tt ↔ Forall (fun a => split_first (str "=") a ∉ tp_managed) args.
Proof.
  induction args as [|a args IH]; [by split|]. cbn [reject_tp_managed].
  rewrite Forall_cons, <- IH. case_bool_decide; naive_solver.
Qed.

Lemma valid_args_ok (name : bytes) args :
  (∀ a f, a ∈ args → f ∈ FORBIDDEN → is_option f a = false) →
  validate_extra_args name args = Ok tt.
Proof. intros H. by apply validate_extra_args_ok. Qed.

Lemma valid_standalone_builds `{files : HostFiles} c address port :
  valid_config c → is_ok (build StandaloneChild (ModeAwareConfig.ds4 c) address port) = true.
Proof.
  intros Hv. cbn [build]. unfold build_standalone_command, dspark_options.
  rewrite valid_args_ok by (intros; eapply (valid_arguments _ Hv); [set_solver|done]).
  cbn [map_err result_bind]. destruct (valid_ssd _ Hv) as [Hssd _], (valid_dspark _ Hv) as [Hd _].
  destruct (Ds4StandaloneConfig.residency _) eqn:Hr.
  - destruct (Hssd eq_refl) as (-> & -> & -> & ->). cbn.
    destruct (Ds4DsparkConfig.enabled _); [|done]. by destruct Hd as [[m ->] _].
  - destruct (Ds4DsparkConfig.enabled _); [by destruct Hd|done].
Qed.

Lemma valid_lp_builds `{files : HostFiles} c child address port :
  valid_config c → child = LpWorker ∨ child = LpCoordinator →
  topology (Ds4Config.distributed (ModeAwareConfig.ds4 c)) = DistributedTopology.LayerParallel →
  is_ok (build child (ModeAwareConfig.ds4 c) address port)
  = existsb (fun a => bool_decide (a = str "--debug"))
      (extra_args (Ds4Config.distributed (ModeAwareConfig.ds4 c))).
Proof.
  intros Hv Hc Ht. pose proof (valid_topology _ Hv) as Hl. unfold topology_valid in Hl.
  rewrite Ht in Hl. destruct Hl as (coordinator & worker & Hco & Hwo & _).
  destruct Hc as [->| ->]; cbn [build];
    unfold build_distributed_worker_command, build_distributed_coordinator_command,
      validate_distributed_extra_args;
    rewrite valid_args_ok by (intros; eapply (valid_arguments _ Hv); [set_solver|done]);
    rewrite ?Hco, ?Hwo; cbn [map_err result_bind]; unfold ensure; by destruct (existsb _ _).
Qed.

Lemma valid_tp_builds `{files : HostFiles} c child address port :
  valid_config c → child = TpWorker ∨ child = TpCoordinator →
  is_ok (build child (ModeAwareConfig.ds4 c) address port) = true
  ↔ Forall (fun a => split_first (str "=") a ∉ tp_managed)
      (extra_args (Ds4Config.distributed (ModeAwareConfig.ds4 c))).
Proof.
  intros Hv Hc. rewrite <- reject_tp_managed_ok.
  destruct Hc as [->| ->]; cbn [build];
    unfold build_tp_worker_command, build_tp_coordinator_command, validate_tp_extra_args;
    rewrite valid_args_ok by (intros; eapply (valid_arguments _ Hv); [set_solver|done]);
    destruct (reject_tp_managed _) as [[]|]; simpl; naive_solver.
Qed.

(** Every configuration that validation accepts has a standalone command.  With the
    layer-parallel topology both distributed commands can be built exactly when the extra
    arguments ask for the debug log, which the supervisor reads its events from; with the
    tensor-parallel topology exactly when they name no managed option. *)
Lemma valid_config_starts `{files : HostFiles} c address port :
  validate c = Ok tt →
  let config := ModeAwareConfig.ds4 c in
  let args := extra_args (Ds4Config.distributed config) in
  is_ok (build StandaloneChild config address port) = true
  ∧ match topology (Ds4Config.distributed config) with
    | DistributedTopology.LayerParallel =>
        ∀ child, child = LpWorker ∨ child = LpCoordinator →
          is_ok (build child config address port) = true ↔ str "--debug" ∈ args
    | DistributedTopology.TensorParallel =>
        ∀ child, child = TpWorker ∨ child = TpCoordinator →
          is_ok (build child config address port) = true
          ↔ Forall (fun a => split_first (str "=") a ∉ tp_managed) args
    end.
Proof.
  intros Hv%validate_iff config args. split; [by eapply valid_standalone_builds|].
  destruct (topology _) eqn:Ht; intros child Hc; [|by eapply valid_tp_builds].
  rewrite (valid_lp_builds c) by done. fold config args. rewrite existsb_exists. split.
  - intros (a & Ha%list_elem_of_In & ->%bool_decide_eq_true). done.
  - intros Ha. exists (str "--debug"). split; [by apply list_elem_of_In|by apply bool_decide_eq_true_2].
Qed.

(** ** The address of a session *)

Definition takes_address (a : bytes) : Prop := a = str "--coordinator" ∨ a = str "--listen".

Lemma retarget_spec before option_ old after new :
  Forall (fun a => ¬ takes_address a) before → takes_address option_ →
  retarget (before ++ option_ :: old :: after) new = before ++ option_ :: new :: after.
Proof.
  intros Hb Ho. unfold retarget.
  assert (list_find (fun a => a = str "--coordinator" ∨ a = str "--listen")
    (before ++ option_ :: old :: after) = Some (length before, option_)) as ->.
  { induction before as [|a before IH]; simpl.
    - by rewrite decide_True.
    - apply Forall_cons in Hb as [Ha Hb]. rewrite decide_False by done. by rewrite IH. }
  rewrite insert_app_r_alt by lia. by replace (S (length before) - length before)%nat with 1%nat by lia.
Qed.

(** Putting the address of a session into the command is building it for that address. *)
Lemma retarget_builds c config a b port cmd :
  c = TpWorker ∨ c = TpCoordinator → build c config a port = Ok cmd →
  ¬ takes_address (model (Ds4Config.distributed config)) →
  ∃ cmd', build c config b port = Ok cmd' ∧ argv cmd' = retarget (argv cmd) (ip_to_string b).
Proof.
  intros Hc Hb Hm.
  destruct Hc as [-> | ->]; cbn [build] in *.
  - unfold build_tp_worker_command in *. apply result_bind_ok in Hb as ([] & -> & <-%Ok_inj).
    eexists. split; [done|]. symmetry.
    apply (retarget_spec [str "-m"; model (Ds4Config.distributed config); str "--tensor-parallel";
      str "--role"; str "worker"]); [|by left].
    repeat constructor; try done; by intros [|].
  - unfold build_tp_coordinator_command in *. apply result_bind_ok in Hb as ([] & -> & <-%Ok_inj).
    eexists. split; [done|]. symmetry.
    apply (retarget_spec [str "-m"; model (Ds4Config.distributed config); str "--tensor-parallel";
      str "--role"; str "coordinator"]); [|by right].
    repeat constructor; try done; by intros [|].
Qed.

End Theorems.

(** ** Concrete commands *)

Module DemoCommand.

Definition texts : Texts := {| ipv6_to_string _ := str "::1"; f64_to_string _ := str "0.5" |}.
Global Existing Instance texts.

Definition pair_config : Ds4Config := ModeAwareConfig.ds4 (DemoConfig.config ("0:20", "21:output") ["--debug"]).
Definition coordinator_ip : IpAddr := IpAddr.V4 174260225.

Example worker_command :
  (argv <$> match build LpWorker pair_config coordinator_ip 9921 with Ok c => Some c | Err _ => None end)
  = Some (map str ["-m"; "/srv/ds4/mx.gguf"; "--role"; "worker"; "--layers"; "21:output";
      "--coordinator"; "10.99.0.1"; "9921"; "--ctx"; "32768"; "--kv-disk-dir"; "/srv/ds4/kv-pair";
      "--kv-disk-space-mb"; "1024"; "--debug"])%string.
Proof. vm_compute. reflexivity. Qed.

(** Validation accepts a layer-parallel configuration without the debug option, but its
    commands cannot be built. *)
Example no_debug_fails_late :
  let c := DemoConfig.config ("0:20", "21:output") [] in
  validate (files := DemoConfig.host) c = Ok tt
  ∧ build LpWorker (ModeAwareConfig.ds4 c) coordinator_ip 9921 = Err DistributedDebugRequired.
Proof. vm_compute. done. Qed.

End DemoCommand.

Section command_witnesses.

Lemma generated_options_final_witness :
  ∃ cmd, build LpCoordinator DemoCommand.pair_config DemoCommand.coordinator_ip 9921 = Ok cmd
  ∧ NoDup (lp_coordinator_options DemoCommand.pair_config (str "0:20") DemoCommand.coordinator_ip
             9921 ++ []).*1.
Proof.
  eexists. split; [vm_compute; reflexivity|].
  destruct (generated_options_final LpCoordinator DemoCommand.pair_config
    DemoCommand.coordinator_ip 9921 _ ltac:(vm_compute; reflexivity)) as (_ & H & _). exact H.
Defined.

Lemma valid_config_starts_witness :
  is_ok (build StandaloneChild DemoCommand.pair_config DemoCommand.coordinator_ip 9921) = true
  ∧ (is_ok (build LpWorker DemoCommand.pair_config DemoCommand.coordinator_ip 9921) = true
     ↔ str "--debug" ∈ extra_args (Ds4Config.distributed DemoCommand.pair_config)).
Proof.
  destruct (valid_config_starts (files := DemoConfig.host) (DemoConfig.config ("0:20", "21:output") ["--debug"])
    DemoCommand.coordinator_ip 9921 ltac:(vm_compute; reflexivity)) as [H1 H2].
  split; [exact H1|]. exact (H2 LpWorker (or_introl eq_refl)).
Defined.

End command_witnesses.
