(* ===== verification/Launch.v ===== *)
(** * Starting and supervising the children: [src/src/cluster/process.rs, process/]

    How a child is spawned and identified, how its readiness is awaited, and the start, stop
    and status of the five supervisors on their slots.  The answers of the operating system,
    of the child's HTTP port and of its log are the interface [Launcher], functions of what
    happened so far like those of [Kernel].  A supervisor has one slot; the record
    [Supervisor] has besides it what the supervisors of the different kinds keep. *)

From S2P Require Import Prelude Bytes Utf8 Text Json Auth Process ChildLog Config Command.
From S2P Require TpRuntime.

(** [sys_spawn] is the pid the kernel gave, if it told one; [sys_http] whether a request
    succeeds and how long it takes; [sys_log] the records the log task has got since the
    last look; [sys_activation] whether the activation is seen, and when. *)
Class Launcher := {
  sys_canonicalize : syslog → bytes → result bytes unit;
  sys_spawn : syslog → Ds4Command → list (bytes * option bytes) → result (option Z) unit;
  sys_http : syslog → bool * nat;
  sys_log : syslog → list ChildLogRecord;
  sys_activation : syslog → bool * nat;
  sys_millis : syslog → Z;
}.

(** src/src/cluster/process/tp.rs:13-13 (TP_QUEUE_KEEPALIVE_MS) *)
Definition TP_QUEUE_KEEPALIVE_MS : bytes := str "100".
(** src/src/cluster/process/tp.rs:16-17 (TP_ENV_OVERRIDES) *)
Definition TP_ENV_OVERRIDES : list (bytes * bytes) :=
  [(str "DS4_METAL_QUEUE_KEEPALIVE_MS", TP_QUEUE_KEEPALIVE_MS)].
(** src/src/cluster/process/tp.rs:19-19 (TP_ENV_REMOVALS) *)
Definition TP_ENV_REMOVALS : list bytes := [str "DS4_METAL_DISABLE_QUEUE_KEEPALIVE"].

(** The changes to the environment, in order; [None] removes a variable.
    src/src/cluster/process.rs:518-528 (apply_child_environment) *)
Definition apply_child_environment (overrides : list (bytes * bytes)) (removals : list bytes)
    : list (bytes * option bytes) :=
  ((fun name => (name, None)) <$> removals) ++ ((fun '(name, v) => (name, Some v)) <$> overrides).

Section Launch.
Context {crypto : Crypto} {kernel : Kernel} {launcher : Launcher}.

Notation process_method A := (method Machine ProcessControlError A).

(** ** Spawning *)

Definition launch_event (e : LaunchEvent) (m : Machine) : Machine :=
  mkMachine (clock m) (Launched e :: log m).

Definition canonicalize_executable (p : bytes) : process_method bytes := fun m =>
  let r := sys_canonicalize (log m) p in (io r, launch_event (Canonicalized r) m).

Definition spawn_process (command : Ds4Command) (changes : list (bytes * option bytes))
    : process_method (option Z) := fun m =>
  let r := sys_spawn (log m) command changes in (io r, launch_event (Spawned r) m).

(** src/src/cluster/process.rs:778-781 (reap_failed_spawn) *)
Definition reap_failed_spawn : process_method unit := modify (launch_event Reaped).

(** src/src/cluster/process.rs:799-806 (system_time_millis) *)
Definition system_time_millis : process_method Z := fun m => (Ok (sys_millis (log m)), m).

(** src/src/cluster/process.rs:537-597 (ManagedChild::spawn_with_environment) *)
Definition spawn_with_environment (command : Ds4Command) (generation : Z)
    (overrides : list (bytes * bytes)) (removals : list bytes) : process_method ChildIdentity :=
  exe ← canonicalize_executable (Command.executable command);
  spawned ← spawn_process command (apply_child_environment overrides removals);
  match spawned with
  | None => reap_failed_spawn;; fail ProcessControlError.MissingPid
  | Some p =>
      found ← attempt (F := ProcessControlError) (observe p);
      match found with
      | Ok (Some o) =>
          spawned_at ← system_time_millis;
          let identity := mkChildIdentity
            (mkProcessIdentity p exe (argv_sha256 exe (argv command)) (start_time_micros o))
            (Command.profile_id (profile command)) generation spawned_at in
          verified ← attempt (F := ProcessControlError) (verify_child identity);
          match verified with
          | Ok _ => mret identity
          | Err error => reap_failed_spawn;; fail error
          end
      | Ok None => reap_failed_spawn;; fail ProcessControlError.NotRunning
      | Err _ => reap_failed_spawn;; fail ProcessControlError.Io
      end
  end.

(** src/src/cluster/process.rs:531-534 (ManagedChild::spawn) *)
Definition spawn (command : Ds4Command) (generation : Z) : process_method ChildIdentity :=
  spawn_with_environment command generation [] [].

(** ** Readiness *)

(** A request under [tokio::time::timeout]. *)
Definition ask_http (attempt_timeout : Z) : process_method bool := fun m =>
  let '(success, took) := sys_http (log m) in
  let ok := success && (took <=? attempt_timeout) in
  (Ok ok, mkMachine (clock m + Z.min took attempt_timeout) (Launched (HttpAsked ok) :: log m)).

(** [None] is fuel exhausted.
    src/src/cluster/process.rs:739-776 (wait_for_http_readiness) *)
Fixpoint http_readiness_loop (fuel : nat) (deadline poll_interval : Z)
    : process_method (option unit) :=
  match fuel with
  | O => mret None
  | S fuel =>
      exited ← try_wait;
      if (exited : bool) then fail ProcessControlError.EarlyExit
      else
        t ← now;
        let remaining := sat_sub deadline t in
        if remaining =? 0 then fail ProcessControlError.ReadinessTimeout
        else
          success ← ask_http (Z.min remaining poll_interval);
          if (success : bool) then
            exited ← try_wait;
            if (exited : bool) then fail ProcessControlError.EarlyExit else mret (Some tt)
          else
            t ← now;
            let remaining := sat_sub deadline t in
            if remaining =? 0 then fail ProcessControlError.ReadinessTimeout
            else sleep (Z.min remaining poll_interval);;
                 http_readiness_loop fuel deadline poll_interval
  end.

(** src/src/cluster/process.rs:739-776 (wait_for_http_readiness) *)
Definition wait_for_http_readiness (fuel : nat) (startup_timeout poll_interval : Z)
    : process_method (option unit) :=
  require (negb ((startup_timeout =? 0) || (poll_interval =? 0)))
    ProcessControlError.InvalidReadinessTiming;;
  t ← now;
  http_readiness_loop fuel (t + startup_timeout) poll_interval.

(** ** The supervisors *)

Record Supervisor := mkSupervisor {
  slot : SupervisedSlot;
  route : CoordinatorRouteState;
  observed : Z * TpLogReadiness;
  connected : bool;
  dry_running : bool;
}.

Definition on_slot {A} (m : method SupervisedSlot ProcessControlError A)
    : method Supervisor ProcessControlError A :=
  on_field slot (fun x s => mkSupervisor x (route s) (observed s) (connected s) (dry_running s)) m.

Definition on_machine {A} (m : process_method A) : method Supervisor ProcessControlError A :=
  on_slot (with_machine m).

Definition set_child (c : option ChildIdentity) : method Supervisor ProcessControlError unit :=
  on_slot (modify (fun s => mkSlot c (machine s))).

Definition set_route (r : CoordinatorRouteState) (s : Supervisor) : Supervisor :=
  mkSupervisor (slot s) r (observed s) (connected s) (dry_running s).
Definition set_observed (o : Z * TpLogReadiness) (s : Supervisor) : Supervisor :=
  mkSupervisor (slot s) (route s) o (connected s) (dry_running s).
Definition set_connected (b : bool) (s : Supervisor) : Supervisor :=
  mkSupervisor (slot s) (route s) (observed s) b (dry_running s).
Definition set_dry_running (b : bool) (s : Supervisor) : Supervisor :=
  mkSupervisor (slot s) (route s) (observed s) (connected s) b.

(** The records the log task has got since the last look. *)
Definition look : method Supervisor ProcessControlError (list ChildLogRecord) :=
  on_machine (fun m => (Ok (sys_log (log m)), launch_event Looked m)).

(** The configuration of a supervisor. *)
Record Settings := mkSettings {
  command : Ds4Command;
  startup_timeout : Z;
  poll_interval : Z;
  stop_timeout : Z;
  allow_sigkill : bool;
  dry_run : bool;
}.

Context (cfg : Settings).

(** A start that fails: the child is stopped, whatever comes of it, and its handle dropped,
    which kills it.
    src/src/cluster/process/standalone.rs:201-205 (StandaloneSupervisor::start_inner) *)
Definition abandon (fuel : nat) (child : ChildIdentity)
    : method Supervisor ProcessControlError unit :=
  attempt (F := ProcessControlError)
    (on_machine (managed_stop fuel child (stop_timeout cfg) (allow_sigkill cfg)));;
  on_machine (modify (launch_event Dropped)).

(** *** Standalone *)

Definition activates (r : ChildLogRecord) : bool :=
  match record_event r with Some Ds4LogEvent.DsparkActivated => true | _ => false end.

(** [timeout(remaining, rx.wait_for(..))]; the wait also ends, without the activation, when
    the log task ends. *)
Definition await_activation (remaining : Z) : process_method bool := fun m =>
  let '(seen, took) := sys_activation (log m) in
  let ok := seen && (took <=? remaining) in
  (Ok ok, mkMachine (clock m + Z.min took remaining) (Launched (Waited took) :: log m)).

(** [None] is fuel exhausted.
    src/src/cluster/process/standalone.rs:100-235 (StandaloneSupervisor::start_inner) *)
Definition standalone_start (fuel : nat) (generation : Z)
    : method Supervisor ProcessControlError (option unit) :=
  if dry_run cfg then modify (set_dry_running true);; mret (Some tt)
  else
  go ← on_slot begin_start;
  if negb go then mret (Some tt)
  else
    t ← on_machine now;
    let startup_deadline := t + startup_timeout cfg in
    child ← on_machine (spawn (command cfg) generation);
    ready ← attempt (F := ProcessControlError)
      (on_machine (wait_for_http_readiness fuel (startup_timeout cfg) (poll_interval cfg)));
    match ready with
    | Err error => abandon fuel child;; fail error
    | Ok None => mret None
    | Ok (Some _) =>
        records ← look;
        let dspark := bool_decide (speculative_support (profile (command cfg))
                                   = SpeculativeSupport.Dspark) in
        activated ← (if dspark && negb (existsb activates records) then
                       t ← on_machine now;
                       on_machine (await_activation (sat_sub startup_deadline t))
                     else mret true);
        if (activated : bool) then set_child (Some child);; mret (Some tt)
        else abandon fuel child;; fail ProcessControlError.DsparkActivationTimeout
    end.

(** src/src/cluster/process/standalone.rs:251-261 (StandaloneSupervisor::stop_inner) *)
Definition standalone_stop (fuel : nat) : method Supervisor ProcessControlError (option unit) :=
  if dry_run cfg then modify (set_dry_running false);; mret (Some tt)
  else on_slot (slot_stop fuel (stop_timeout cfg) (allow_sigkill cfg)).

(** src/src/cluster/process/standalone.rs:263-268 (StandaloneSupervisor::is_running_inner) *)
Definition standalone_is_running : method Supervisor ProcessControlError bool :=
  s ← self;
  if dry_run cfg then mret (dry_running s) else on_slot slot_is_running.

(** src/src/cluster/process/standalone.rs:93-98 (StandaloneSupervisor::child_identity) *)
Definition standalone_child_identity : method Supervisor ProcessControlError (option ChildIdentity) :=
  s ← self;
  if dry_run cfg then mret None else mret (slot_child (slot s)).

(** *** Coordinator *)

(** The log task handles what arrived. *)
Definition pump_route : method Supervisor ProcessControlError unit :=
  records ← look;
  modify (fun s => set_route (foldl route_event (route s) (omap record_event records)) s).

(** The route is read, changed and written back; the events handled between the two are
    overwritten.
    src/src/cluster/process/coordinator.rs:68-173 (DistributedCoordinatorSupervisor::start_inner) *)
Definition coordinator_start (fuel : nat) (generation : Z)
    : method Supervisor ProcessControlError (option unit) :=
  go ← on_slot begin_start;
  if negb go then mret (Some tt)
  else
    modify (set_route route_default);;
    child ← on_machine (spawn (command cfg) generation);
    pump_route;;
    ready ← attempt (F := ProcessControlError)
      (on_machine (wait_for_http_readiness fuel (startup_timeout cfg) (poll_interval cfg)));
    match ready with
    | Err error => abandon fuel child;; fail error
    | Ok None => mret None
    | Ok (Some _) =>
        pump_route;;
        s ← self;
        let state := route s in
        pump_route;;
        modify (set_route (mkRoute true (worker_registered state) (complete_route state)));;
        set_child (Some child);; mret (Some tt)
    end.

(** src/src/cluster/process/coordinator.rs:180-190 (DistributedCoordinatorSupervisor::stop_inner) *)
Definition coordinator_stop (fuel : nat) : method Supervisor ProcessControlError (option unit) :=
  r ← attempt (on_slot (slot_stop fuel (stop_timeout cfg) (allow_sigkill cfg)));
  modify (set_route route_default);;
  lift r.

Definition route_up (r : CoordinatorRouteState) : bool :=
  http_ready r && worker_registered r && complete_route r.

(** The wait of one turn of the two loops: for a change of the route or one poll interval. *)
Definition next_turn : method Supervisor ProcessControlError unit :=
  on_machine (fun m =>
    let took := Z.min (snd (sys_activation (log m))) (poll_interval cfg) in
    (Ok tt, mkMachine (clock m + took) (Launched (Waited took) :: log m))).

(** [None]: the loop still waits; the caller gives it a deadline.
    src/src/cluster/process/coordinator.rs:196-211 (wait_ready_inner) *)
Fixpoint wait_ready (turns : nat) : method Supervisor ProcessControlError (option unit) :=
  match turns with
  | O => mret None
  | S turns =>
      pump_route;;
      s ← self;
      if route_up (route s) then mret (Some tt)
      else
        running ← on_slot slot_is_running;
        if negb running then fail ProcessControlError.NotRunning
        else next_turn;; wait_ready turns
  end.

(** src/src/cluster/process/coordinator.rs:213-228 (wait_route_loss_inner) *)
Fixpoint wait_route_loss (turns : nat) : method Supervisor ProcessControlError (option unit) :=
  match turns with
  | O => mret None
  | S turns =>
      pump_route;;
      s ← self;
      if negb (route_up (route s)) then mret (Some tt)
      else
        running ← on_slot slot_is_running;
        if negb running then mret (Some tt)
        else next_turn;; wait_route_loss turns
  end.

(** *** Workers *)

(** src/src/cluster/process/worker.rs:45-112 (DistributedWorkerSupervisor::start_inner) *)
Definition worker_start (generation : Z) : method Supervisor ProcessControlError unit :=
  go ← on_slot begin_start;
  if negb go then mret tt
  else
    child ← on_machine (spawn (command cfg) generation);
    set_child (Some child).

(** src/src/cluster/process/worker.rs:127-132 (DistributedWorkerSupervisor::stop_inner) *)
Definition worker_stop (fuel : nat) : method Supervisor ProcessControlError (option unit) :=
  on_slot (slot_stop fuel (stop_timeout cfg) (allow_sigkill cfg)).

Definition connects (r : ChildLogRecord) : bool :=
  match record_event r with
  | Some (Ds4LogEvent.WorkerRegistered _) | Some (Ds4LogEvent.CompleteRouteReady _) => true
  | _ => false
  end.

(** The log task of a tensor-parallel worker handles what arrived. *)
Definition pump_connected : method Supervisor ProcessControlError unit :=
  records ← look;
  modify (fun s => set_connected (connected s || existsb connects records) s).

(** The flag is cleared after the log task was started.
    src/src/cluster/process/worker.rs:208-295 (prepare_inner) *)
Definition tp_prepare (generation : Z)
    : method Supervisor ProcessControlError (Z * option ChildIdentity) :=
  go ← on_slot begin_start;
  if negb go then s ← self; mret (generation, slot_child (slot s))
  else
    child ← on_machine (spawn (command cfg) generation);
    pump_connected;;
    set_child (Some child);;
    modify (set_connected false);;
    mret (generation, Some child).

(** src/src/cluster/process/worker.rs:203-206 (is_connected) *)
Definition is_connected : method Supervisor ProcessControlError bool :=
  pump_connected;; s ← self; mret (connected s).

(** src/src/cluster/process/worker.rs:313-323 (observe_connected_inner) *)
Definition observe_connected : method Supervisor ProcessControlError unit :=
  modify (set_connected true).

(** *** Tensor parallelism *)

Definition pump_observed : method Supervisor ProcessControlError unit :=
  records ← look;
  modify (fun s => set_observed (foldl (tp_log_record (fst (observed s))) (observed s) records) s).

Definition retargeted (command : Ds4Command) (coordinator : bytes) : Ds4Command :=
  mkCommand (Command.executable command) (working_directory command)
    (retarget (argv command) coordinator) (profile command).

(** [NotRunning] stands for the error "TP child already running".
    src/src/cluster/process/tp.rs:107-159 (TpProcessSupervisor::start_inner) *)
Definition tp_start (session : Z) (coordinator : bytes)
    : method Supervisor ProcessControlError unit :=
  go ← on_slot begin_start;
  require go ProcessControlError.NotRunning;;
  modify (set_observed (session, tp_log_default));;
  child ← on_machine (spawn_with_environment (retargeted (command cfg) coordinator) session
            TP_ENV_OVERRIDES TP_ENV_REMOVALS);
  set_child (Some child).

(** src/src/cluster/process/tp.rs:198-233 (TpProcessSupervisor::status) *)
Definition tp_status (coordinator : bool) (session : Z)
    : method Supervisor ProcessControlError TpRuntime.TpLocalStatus :=
  pump_observed;;
  s ← self;
  let connected := (fst (observed s) =? session) && tp_log_connected (snd (observed s)) in
  running ← on_slot slot_is_running;
  (if (running : bool) then
     s ← self;
     match slot_child (slot s) with
     | Some identity => on_machine (verify_child identity)
     | None => fail ProcessControlError.NotRunning
     end
   else mret tt);;
  http_ready ← (if coordinator && running && connected then on_machine (ask_http (secs 2))
                else mret false);
  mret (TpRuntime.mkStatus running (connected && running) http_ready).

(** src/src/cluster/process/tp.rs:279-291 (TpProcessSupervisor::stop) *)
Definition tp_stop (fuel : nat) : method Supervisor ProcessControlError (option unit) :=
  modify (fun s => set_observed (tp_log_invalidate (observed s)) s);;
  on_slot (slot_stop fuel (stop_timeout cfg) (allow_sigkill cfg)).

End Launch.

(** ** One child at a time *)

(** The child of the log that nobody has disposed of: it was spawned, with the pid the
    kernel told, and neither reaped nor dropped nor seen to have exited. *)
Fixpoint child_left (l : syslog) : option (option Z) :=
  match l with
  | [] => None
  | Launched (Spawned (Ok p)) :: _ => Some p
  | Launched Reaped :: _ | Launched Dropped :: _ | TryWaited (Ok true) :: _ => None
  | _ :: l => child_left l
  end.

(** A child is only spawned when none is left. *)
Definition one_at_a_time (l : syslog) : Prop :=
  ∀ t1 r t2, l = t1 ++ Launched (Spawned r) :: t2 → child_left t2 = None.

Definition is_spawn (e : SysEvent) : bool :=
  match e with Launched (Spawned _) => true | _ => false end.

(** Nothing is spawned; at most the child that was left is disposed of. *)
Definition calm (m m' : Machine) : Prop :=
  (one_at_a_time (log m) → one_at_a_time (log m'))
  ∧ (child_left (log m') = child_left (log m) ∨ child_left (log m') = None)
  ∧ log m `suffix_of` log m'.

Global Instance calm_preorder : PreOrder calm.
Proof.
  split; [intros m; split_and!; [done|by left|reflexivity]|].
  intros m1 m2 m3 (H1 & C1 & S1) (H2 & C2 & S2).
  split_and!; [by auto| |by etrans]. destruct C2 as [-> | ->]; [exact C1|by right].
Qed.

Lemma one_at_a_time_cons e l :
  is_spawn e = false → one_at_a_time l → one_at_a_time (e :: l).
Proof.
  intros He Hl t1 r t2 E. destruct t1 as [|e' t1]; simplify_eq/=. by eapply Hl.
Qed.

Lemma calm_event m m' e :
  is_spawn e = false → log m' = e :: log m → calm m m'.
Proof.
  intros He E. unfold calm. rewrite E.
  split_and!; [by apply one_at_a_time_cons| |by apply suffix_cons_r].
  destruct e as [[]|[[]|]| | |]; simpl in *; try discriminate; auto.
Qed.

(** What a successful spawn adds. *)
Lemma one_at_a_time_spawn r l :
  child_left l = None → one_at_a_time l → one_at_a_time (Launched (Spawned r) :: l).
Proof. intros Hn Hl t1 r' t2 E. destruct t1 as [|e t1]; simplify_eq/=; [done|]. by eapply Hl. Qed.

Ltac one_event := eapply calm_event; [|reflexivity]; reflexivity.

Section Calm.
Context {crypto : Crypto} {kernel : Kernel} {launcher : Launcher}.

Lemma calm_now : keeps calm now.
Proof. by intros m. Qed.
Lemma calm_sleep d : keeps calm (sleep d).
Proof. intros m. one_event. Qed.
Lemma calm_try_wait : keeps calm try_wait.
Proof. intros m. one_event. Qed.
Lemma calm_observe p : keeps calm (observe p).
Proof. intros m. one_event. Qed.
Lemma calm_signal p s : keeps calm (signal_process p s).
Proof. intros m. one_event. Qed.
Lemma calm_ask_http d : keeps calm (ask_http d).
Proof. intros m. unfold ask_http. destruct (sys_http (log m)). one_event. Qed.
Lemma calm_canonicalize p : keeps calm (canonicalize_executable p).
Proof. intros m. one_event. Qed.

Lemma calm_verify identity : keeps calm (verify_process identity).
Proof.
  apply keeps_bind; [apply _|apply calm_observe|]. intros o.
  apply keeps_bind; [apply _|apply keeps_lift; apply _|]. intros. by apply keeps_require; apply _.
Qed.

Lemma calm_signal_owned identity s : keeps calm (signal_owned identity s).
Proof.
  apply keeps_bind; [apply _|apply calm_verify|]. intros _. apply calm_signal.
Qed.

Lemma calm_still_running {A} (c : method Machine ProcessControlError A) :
  keeps calm c → keeps calm (still_running c).
Proof.
  intros H. apply keeps_bind; [apply _|by apply keeps_attempt|].
  intros [a|[]]; first [apply keeps_ret|apply keeps_fail]; apply _.
Qed.

Lemma calm_wait_exit fuel deadline : keeps calm (wait_child_exit_until fuel deadline).
Proof.
  induction fuel as [|fuel IH]; simpl; [apply keeps_ret; apply _|].
  eauto 12 using calm_now, calm_sleep, calm_try_wait with rust typeclass_instances.
Qed.

Lemma calm_managed_stop fuel identity timeout allow :
  keeps calm (managed_stop fuel identity timeout allow).
Proof.
  unfold managed_stop.
  apply keeps_bind; [apply _|apply calm_try_wait|intros exited].
  apply keeps_if; [apply _|apply keeps_ret; apply _|].
  apply keeps_bind; [apply _|apply calm_still_running, calm_signal_owned|intros _].
  apply keeps_bind; [apply _|apply calm_now|intros t].
  apply keeps_bind; [apply _|apply calm_wait_exit|intros e].
  destruct e as [[]|]; try (apply keeps_ret; apply _).
  apply keeps_bind; [apply _|by apply keeps_require; apply _|intros _].
  apply keeps_bind; [apply _|apply calm_still_running, calm_signal_owned|intros _].
  apply keeps_bind; [apply _|apply calm_now|intros t'].
  apply keeps_bind; [apply _|apply calm_wait_exit|intros e].
  destruct e as [[]|]; first [apply keeps_ret; apply _|apply keeps_fail; apply _].
Qed.

Lemma calm_signal_approved identity s : keeps calm (signal_approved_process identity s).
Proof.
  apply keeps_bind; [apply _|apply calm_observe|intros o].
  apply keeps_bind; [apply _|apply keeps_lift; apply _|intros o'].
  apply keeps_bind; [apply _|by apply keeps_require; apply _|intros _]. apply calm_signal.
Qed.

Lemma calm_poll_gone fuel identity poll deadline :
  keeps calm (poll_gone fuel (verify_process identity) poll deadline).
Proof.
  induction fuel as [|fuel IH]; simpl; [apply keeps_ret; apply _|].
  eauto 15 using calm_now, calm_sleep, calm_still_running, calm_verify with rust typeclass_instances.
Qed.

Lemma calm_force_stop fuel identity timeout poll :
  keeps calm (force_stop_approved fuel identity timeout poll).
Proof.
  unfold force_stop_approved, stop_in_two_phases.
  apply keeps_bind; [apply _|by apply keeps_require; apply _|intros _].
  apply keeps_bind; [apply _|apply calm_still_running, calm_signal_approved|intros there].
  apply keeps_if; [apply _|apply keeps_ret; apply _|].
  apply keeps_bind; [apply _|apply calm_now|intros t].
  apply keeps_bind; [apply _|apply calm_poll_gone|intros g].
  destruct g as [[]|]; try (apply keeps_ret; apply _).
  apply keeps_bind; [apply _|by apply keeps_require; apply _|intros _].
  apply keeps_bind; [apply _|apply calm_signal_approved|intros _].
  apply keeps_bind; [apply _|apply calm_now|intros t'].
  apply keeps_bind; [apply _|apply calm_poll_gone|intros g].
  destruct g as [[]|]; first [apply keeps_ret; apply _|apply keeps_fail; apply _].
Qed.

Lemma calm_http_loop fuel deadline poll : keeps calm (http_readiness_loop fuel deadline poll).
Proof.
  induction fuel as [|fuel IH]; simpl; [apply keeps_ret; apply _|].
  eauto 20 using calm_now, calm_sleep, calm_try_wait, calm_ask_http with rust typeclass_instances.
Qed.

Lemma calm_wait_http fuel timeout poll : keeps calm (wait_for_http_readiness fuel timeout poll).
Proof.
  apply keeps_bind; [apply _|by apply keeps_require; apply _|intros _].
  apply keeps_bind; [apply _|apply calm_now|intros t]. apply calm_http_loop.
Qed.

(** Spawning with none left: an identity with its child, or an error and no child. *)
Lemma spawn_spec command generation overrides removals m :
  one_at_a_time (log m) → child_left (log m) = None →
  wp (spawn_with_environment command generation overrides removals)
    (fun c m' => one_at_a_time (log m')
       ∧ child_left (log m') = Some (Some (pid (child_process c)))
       ∧ clock m' = clock m
       ∧ (∃ o t, log m' = Observed (pid (child_process c)) (Ok (Some o)) :: t
            ∧ identity_matches (child_process c) o = true)
       ∧ child_generation c = generation ∧ log m `suffix_of` log m')
    (fun _ m' => one_at_a_time (log m') ∧ child_left (log m') = None) m.
Proof.
  intros Ho Hn.
  unfold wp, spawn_with_environment, canonicalize_executable, spawn_process, observe, attempt,
    verify_child, verify_process, reap_failed_spawn, system_time_millis, modify, lift, require, self,
    fail, mbind, method_bind, mret, method_ret, emit, launch_event, io.
  destruct (sys_canonicalize (log m) (Command.executable command)) as [exe|[]]; simpl;
    [|split; [by apply one_at_a_time_cons|done]].
  set (l1 := Launched (Canonicalized (Ok exe)) :: log m).
  assert (one_at_a_time l1) as H1 by by apply one_at_a_time_cons.
  assert (child_left l1 = None) as N1 by done.
  destruct (sys_spawn l1 command (apply_child_environment overrides removals)) as [[p|]|[]]; simpl.
  2, 3: split; [repeat (apply one_at_a_time_cons; [done|]); by apply one_at_a_time_spawn|done].
  pose proof (one_at_a_time_spawn (Ok (Some p)) l1 N1 H1) as H2.
  set (l2 := Launched (Spawned (Ok (Some p))) :: l1) in *.
  destruct (sys_observe l2 p) as [[o|]|[]]; simpl.
  2, 3: split; [by repeat (apply one_at_a_time_cons; [done|])|done].
  set (l3 := Observed p (Ok (Some o)) :: l2).
  destruct (sys_observe l3 p) as [[o'|]|[]]; simpl.
  2, 3: split; [by repeat (apply one_at_a_time_cons; [done|])|done].
  destruct (identity_matches _ o') eqn:Hm; simpl.
  - split_and!; [by repeat (apply one_at_a_time_cons; [done|])|done|done| |done|].
    + by exists o', l3.
    + by repeat apply suffix_cons_r.
  - split; [by repeat (apply one_at_a_time_cons; [done|])|done].
Qed.

End Calm.

(** ** The supervisors and their slot *)

Section Supervision.
Context {crypto : Crypto} {kernel : Kernel} {launcher : Launcher} (cfg : Settings).

Definition machine_of (s : Supervisor) : Machine := machine (slot s).
Definition child_of (s : Supervisor) : option ChildIdentity := slot_child (slot s).
Definition put_machine (m : Machine) (s : Supervisor) : Supervisor :=
  mkSupervisor (mkSlot (child_of s) m) (route s) (observed s) (connected s) (dry_running s).

(** The child that is left, if any, is the one in the slot. *)
Definition owned (s : Supervisor) : Prop :=
  one_at_a_time (log (machine_of s))
  ∧ ∀ p, child_left (log (machine_of s)) = Some p →
      ∃ c, child_of s = Some c ∧ p = Some (pid (child_process c)).

(** No child is in the slot and none is left. *)
Definition vacant (s : Supervisor) : Prop :=
  one_at_a_time (log (machine_of s)) ∧ child_left (log (machine_of s)) = None ∧ child_of s = None.

(** The identity was compared with an observation of its pid. *)
Definition verified (c : ChildIdentity) (l : syslog) : Prop :=
  ∃ o t, Observed (pid (child_process c)) (Ok (Some o)) :: t `suffix_of` l
    ∧ identity_matches (child_process c) o = true.

(** A start has spawned [c] and has not put it into the slot yet. *)
Definition pending (c : ChildIdentity) (s : Supervisor) : Prop :=
  one_at_a_time (log (machine_of s)) ∧ child_of s = None
  ∧ (∀ p, child_left (log (machine_of s)) = Some p → p = Some (pid (child_process c)))
  ∧ verified c (log (machine_of s)).

Lemma vacant_owned s : vacant s → owned s.
Proof. intros (H1 & H2 & _). split; [done|]. by rewrite H2. Qed.

Lemma wp_on_machine {A} (m : method Machine ProcessControlError A) (Q : A → Supervisor → Prop)
    (X : ProcessControlError → Supervisor → Prop) s :
  wp m (fun a x => Q a (put_machine x s)) (fun e x => X e (put_machine x s)) (machine_of s) →
  wp (on_machine m) Q X s.
Proof. intros H. by apply wp_on_field, wp_on_field. Qed.

Lemma wp_calm {A} (m : method Machine ProcessControlError A) (Q : A → Machine → Prop)
    (X : ProcessControlError → Machine → Prop) s :
  keeps calm m → wp m Q X s →
  wp m (fun a s' => Q a s' ∧ calm s s') (fun e s' => X e s' ∧ calm s s') s.
Proof. intros H Hw. specialize (H s). unfold wp in *. by destruct (m s) as [[]]. Qed.

Lemma calm_owned s m' : owned s → calm (machine_of s) m' → owned (put_machine m' s).
Proof.
  intros [H1 H2] (C1 & C2 & _). split; [by apply C1|]. intros p Hp. apply H2.
  change (child_left (log m') = Some p) in Hp. destruct C2 as [<-|E]; congruence.
Qed.

Lemma calm_pending c s m' : pending c s → calm (machine_of s) m' → pending c (put_machine m' s).
Proof.
  intros (H1 & H2 & H3 & o & t & Ht & Ho) (C1 & C2 & C3). split_and!; [by apply C1|done| |].
  2: { exists o, t. split; [|done]. by etrans. }
  intros p Hp. apply H3. change (child_left (log m') = Some p) in Hp. destruct C2 as [<-|E]; congruence.
Qed.

(** What keeps the machine calm keeps the slot. *)
Lemma owned_on_machine {A} (m : method Machine ProcessControlError A) s :
  keeps calm m → owned s → wp (on_machine m) (fun _ => owned) (fun _ => owned) s.
Proof.
  intros Hm Hs. apply wp_on_machine. specialize (Hm (machine_of s)). unfold wp.
  destruct (m (machine_of s)) as [[] x]; by eapply calm_owned.
Qed.

Lemma pending_on_machine {A} c (m : method Machine ProcessControlError A) s :
  keeps calm m → pending c s → wp (on_machine m) (fun _ => pending c) (fun _ => pending c) s.
Proof.
  intros Hm Hs. apply wp_on_machine. specialize (Hm (machine_of s)). unfold wp.
  destruct (m (machine_of s)) as [[] x]; by eapply calm_pending.
Qed.

(** An empty slot leaves no child. *)
Lemma owned_empty s : owned s → child_of s = None → child_left (log (machine_of s)) = None.
Proof.
  intros [_ H] Hc. destruct (child_left _) as [p|]; [|done].
  destruct (H p eq_refl) as (c & ? & _). congruence.
Qed.

(** *** The slot *)

Lemma wp_begin_start s :
  owned s →
  wp (on_slot begin_start)
    (fun b s' => if b then vacant s' ∧ clock (machine_of s') = clock (machine_of s)
                 else owned s' ∧ child_of s' = child_of s ∧ is_Some (child_of s)
                      ∧ machine_of s' = emit (TryWaited (Ok false)) (machine_of s))
    (fun _ => owned) s.
Proof.
  intros Hs. unfold wp, on_slot, on_field, begin_start, self, modify, with_machine, try_wait, emit, io,
    mbind, method_bind, mret, method_ret. destruct Hs as [Ho Hc].
  destruct (slot_child (slot s)) as [c|] eqn:E; simpl.
  - destruct (sys_try_wait (log (machine (slot s)))) as [[]|[]]; simpl.
    + split; [|done]. split_and!; [|done|done]. by apply one_at_a_time_cons.
    + split_and!; [split; [by apply one_at_a_time_cons|by apply Hc]|done
                 |unfold child_of; by rewrite E|done].
    + split; [by apply one_at_a_time_cons|by apply Hc].
  - split; [|done]. split_and!; [done| |done]. by apply (owned_empty s).
Qed.

(** The fuel is enough for the stop and for the wait for readiness. *)
Definition ample (fuel : nat) : Prop :=
  (0 < fuel)%nat ∧ 0 ≤ stop_timeout cfg ≤ millis 50 * (fuel - 1)
  ∧ 0 ≤ startup_timeout cfg ≤ poll_interval cfg * (fuel - 1).

Lemma wp_stop_child fuel c m :
  ample fuel →
  wp (managed_stop fuel c (stop_timeout cfg) (allow_sigkill cfg))
    (fun r m' => (r = Some tt ∧ child_left (log m') = None) ∧ calm m m')
    (fun _ m' => True ∧ calm m m') m.
Proof.
  intros (Hf & [H0 H1] & _). apply wp_calm; [apply calm_managed_stop|].
  eapply wp_mono; [by apply managed_stop_wp|..]; [|done].
  intros r m' [[-> [l ->]] _]. done.
Qed.

Lemma wp_slot_stop fuel s :
  ample fuel → owned s →
  wp (on_slot (slot_stop fuel (stop_timeout cfg) (allow_sigkill cfg)))
    (fun r s' => vacant s' ∧ r = Some tt) (fun _ s' => owned s' ∧ child_of s' = child_of s) s.
Proof.
  intros Hf Hs. pose proof Hs as [Ho Hc]. apply wp_on_field. unfold slot_stop. apply wp_bind, wp_self.
  destruct (slot_child (slot s)) as [c|] eqn:E.
  - apply wp_bind, wp_modify, wp_bind, wp_attempt. unfold with_machine. apply wp_on_field. simpl.
    eapply wp_mono; [by apply wp_stop_child|..]; simpl.
    + intros r m' [[-> Hn] (C1 & _)]. apply wp_ret. split; [|done]. split_and!; [by apply C1|done|done].
    + intros e m' [_ (C1 & C2 & _)]. apply wp_bind, wp_modify, wp_fail. simpl.
      split; [|unfold child_of; by rewrite E]. split; [by apply C1|]. simpl. intros p Hp.
      destruct (Hc p) as (c' & Hc' & ->).
      { change (child_left (log m') = Some p) in Hp.
        destruct C2 as [En|En]; rewrite En in Hp; [exact Hp|done]. }
      unfold child_of in Hc'. exists c'. by rewrite E in Hc'.
  - apply wp_ret. split; [|done]. split_and!; [done| |done]. simpl.
    by apply (owned_empty s).
Qed.

(** *** Starting *)

Lemma wp_spawn command generation overrides removals s :
  vacant s →
  wp (on_machine (spawn_with_environment command generation overrides removals))
    (fun c s' => pending c s' ∧ child_generation c = generation
                 ∧ clock (machine_of s') = clock (machine_of s)
                 ∧ log (machine_of s) `suffix_of` log (machine_of s'))
    (fun _ => owned) s.
Proof.
  intros (H1 & H2 & H3). apply wp_on_machine. eapply wp_mono; [by apply spawn_spec|..]; simpl.
  - intros c m' (Ho & Hl & Hclock & (o & t & Ht & Hm) & Hg & Hsuf).
    split_and!; [|done..]. split_and!; [done..| |].
    + intros p Hp. change (child_left (log m') = Some p) in Hp. congruence.
    + exists o, t. by rewrite <- Ht.
  - intros e m' [Ho Hn]. split; [done|]. intros p Hp.
    change (child_left (log m') = Some p) in Hp. congruence.
Qed.

Lemma wp_set_child c (Q : unit → Supervisor → Prop) X s :
  pending c s → (∀ s', owned s' → child_of s' = Some c → machine_of s' = machine_of s → Q tt s') →
  wp (set_child (Some c)) Q X s.
Proof.
  intros (H1 & H2 & H3 & _) HQ. apply wp_on_field, wp_modify. simpl. apply HQ; try done.
  split; [done|]. intros p Hp. exists c. split; [done|by apply H3].
Qed.

Lemma wp_abandon {A} fuel c e s :
  ample fuel → pending c s →
  wp (abandon cfg fuel c;; fail e : method Supervisor ProcessControlError A) (fun _ _ => False)
    (fun _ => owned) s.
Proof.
  intros Hf Hp. apply wp_bind. unfold abandon. apply wp_bind, wp_attempt.
  assert (∀ s', pending c s' → wp (on_machine (modify (launch_event Dropped)))
    (fun _ s'' => wp (fail e : method Supervisor ProcessControlError A) (fun _ _ => False)
       (fun _ => owned) s'') (fun _ => owned) s') as Hdrop.
  { intros s' (H1 & H2 & _). apply wp_on_machine, wp_modify, wp_fail. split; [|done].
    by apply one_at_a_time_cons. }
  eapply wp_mono; [apply (pending_on_machine c); [apply calm_managed_stop|done]|..];
    simpl; intros; by apply Hdrop.
Qed.

(** *** Readiness *)

(** The last two calls: a request that succeeded, and the child still running after it. *)
Definition answered (l : syslog) : Prop :=
  ∃ t, l = TryWaited (Ok false) :: Launched (HttpAsked true) :: t.

Lemma ask_http_spec d m :
  0 ≤ d →
  wp (ask_http d)
    (fun b m' => clock m ≤ clock m' ≤ clock m + d ∧ log m' = Launched (HttpAsked b) :: log m)
    (fun _ _ => False) m.
Proof. intros Hd. unfold wp, ask_http. destruct (sys_http (log m)). simpl. split; [lia|done]. Qed.

Lemma http_loop_spec fuel : ∀ deadline poll m,
  (0 < fuel)%nat → 0 < poll → deadline - clock m ≤ poll * (fuel - 1) →
  wp (http_readiness_loop fuel deadline poll)
    (fun r m' => r = Some tt ∧ answered (log m') ∧ timely m m' deadline)
    (fun _ _ => True) m.
Proof.
  induction fuel as [|fuel IH]; intros deadline poll m Hf Hp Hd; [lia|]. cbn [http_readiness_loop].
  apply wp_bind, wp_try_wait; [|done]. intros [|]; [by apply wp_fail|].
  apply wp_bind, wp_now. cbn [clock emit]. unfold sat_sub.
  destruct (Z.eqb_spec (Z.max (deadline - clock m) 0) 0) as [Hz|Hz]; [by apply wp_fail|].
  apply wp_bind. eapply wp_mono; [apply ask_http_spec; lia|..]; [|done].
  intros b m1 [Hm1 Hl1]. simpl in Hm1. destruct b.
  - apply wp_bind, wp_try_wait; [|done]. intros [|]; [by apply wp_fail|]. apply wp_ret.
    split_and!; [done| |].
    + simpl. rewrite Hl1. by eexists.
    + split; simpl; lia.
  - apply wp_bind, wp_now. destruct (Z.eqb_spec (Z.max (deadline - clock m1) 0) 0) as [|Hz1];
      [by apply wp_fail|].
    apply wp_bind, wp_sleep. intros m2 Hm2.
    assert (0 < fuel)%nat as Hf' by (destruct fuel; lia).
    assert (0 ≤ poll * (fuel - 1)) by nia.
    eapply wp_mono; [apply IH; lia|..]; [|done].
    intros r m' (Hr & Ha & H1 & H2). split_and!; [done..|]. split; [lia|].
    intros Hs. specialize (H2 Hs). rewrite (Hs (log m1)) in Hm2. lia.
Qed.

Lemma wait_http_spec fuel m :
  ample fuel →
  wp (wait_for_http_readiness fuel (startup_timeout cfg) (poll_interval cfg))
    (fun r m' => (r = Some tt ∧ answered (log m') ∧ timely m m' (clock m + startup_timeout cfg))
                 ∧ calm m m') (fun _ m' => True ∧ calm m m') m.
Proof.
  intros (Hf & _ & Hs). apply wp_calm; [apply calm_wait_http|]. unfold wait_for_http_readiness.
  apply wp_bind, wp_require; [|done]. intros Hb. bool_to_prop. apply wp_bind, wp_now.
  destruct (decide (0 < poll_interval cfg)); [apply http_loop_spec; lia|].
  exfalso. destruct fuel as [|[|fuel]]; [lia| |]; nia.
Qed.

(** *** The starts keep the slot *)

(** A look at the log changes nothing else; [P] stands for [owned] and [pending]. *)
Lemma wp_look (P : Supervisor → Prop) s :
  (∀ m', calm (machine_of s) m' → P (put_machine m' s)) → P s →
  wp look (fun _ => P) (fun _ _ => False) s.
Proof. intros HP _. apply wp_on_machine. apply HP. one_event. Qed.

Lemma wp_pump (P : Supervisor → Prop) s :
  (∀ s', P s' → ∀ m', calm (machine_of s') m' → P (put_machine m' s')) →
  (∀ s' r, P s' → P (set_route r s')) → P s →
  wp pump_route (fun _ => P) (fun _ _ => False) s.
Proof.
  intros HP Hr Hs. apply wp_bind. eapply wp_mono; [by apply (wp_look P); [apply HP|]|..]; [|done].
  intros rs s' Hs'. by apply wp_modify, Hr.
Qed.

Lemma owned_pump s : owned s → wp pump_route (fun _ => owned) (fun _ _ => False) s.
Proof. apply wp_pump; [|done]. intros. by apply calm_owned. Qed.
Lemma pending_pump c s : pending c s → wp pump_route (fun _ => pending c) (fun _ _ => False) s.
Proof. apply wp_pump; [|done]. intros. by apply calm_pending. Qed.

(** The wait for readiness of a child that is not in the slot yet. *)
Lemma pending_ready fuel c s :
  ample fuel → pending c s →
  wp (attempt (F := ProcessControlError)
        (on_machine (wait_for_http_readiness fuel (startup_timeout cfg) (poll_interval cfg))))
    (fun r s' => pending c s' ∧ match r with
       | Ok r => r = Some tt ∧ answered (log (machine_of s'))
                 ∧ timely (machine_of s) (machine_of s') (clock (machine_of s) + startup_timeout cfg)
       | Err _ => True end)
    (fun _ _ => False) s.
Proof.
  intros Hf Hp. apply wp_attempt, wp_on_machine.
  eapply wp_mono; [by apply wait_http_spec|..]; simpl.
  - intros r m' [H C]. split; [by apply calm_pending|done].
  - intros e m' [_ C]. split; [by apply calm_pending|done].
Qed.

Lemma owned_coordinator_start fuel generation s :
  ample fuel → owned s → wp (coordinator_start cfg fuel generation) (fun _ => owned) (fun _ => owned) s.
Proof.
  intros Hf Hs. unfold coordinator_start. apply wp_bind.
  eapply wp_mono; [by apply wp_begin_start|..]; [|done]. intros [] s1 H1; cbn [negb].
  2: { apply wp_ret, H1. }
  destruct H1 as [H1 _].
  apply wp_bind, wp_modify, wp_bind. eapply wp_mono; [by apply wp_spawn|..]; [|done].
  intros c s2 [H2 _]. apply wp_bind. eapply wp_mono; [by apply (pending_pump c)|..]; [|done].
  intros [] s3 H3. apply wp_bind. eapply wp_mono; [by apply pending_ready|..]; [|done].
  intros [r|e] s4 [H4 Hr].
  2: { eapply wp_mono; [by apply wp_abandon|..]; done. }
  destruct Hr as [-> _]. apply wp_bind.
  eapply wp_mono; [by apply (pending_pump c)|..]; [|done]. intros [] s5 H5. apply wp_bind, wp_self.
  apply wp_bind. eapply wp_mono; [by apply (pending_pump c)|..]; [|done]. intros [] s6 H6.
  apply wp_bind, wp_modify, wp_bind. eapply (wp_set_child c); [done|].
  intros s7 H7 _ _. by apply wp_ret.
Qed.

(** *** The standalone start *)

(** After the answer of the child only the log was looked at. *)
Definition is_look (e : SysEvent) : bool :=
  match e with Launched Looked | Launched (Waited _) => true | _ => false end.

Definition ready_log (l : syslog) : Prop :=
  ∃ looks l0, l = looks ++ l0 ∧ answered l0 ∧ forallb is_look looks = true.

(** The activation of the feature was among what the log showed. *)
Definition activation_seen (l : syslog) : Prop :=
  ∃ l0, l0 `suffix_of` l ∧ (existsb activates (sys_log l0) = true ∨ fst (sys_activation l0) = true).

Definition needs_activation : bool :=
  bool_decide (speculative_support (profile (command cfg)) = SpeculativeSupport.Dspark).

(** The state in which the child is put into the slot. *)
Definition ready_child (t0 : Z) (c : ChildIdentity) (s : Supervisor) : Prop :=
  pending c s ∧ ready_log (log (machine_of s))
  ∧ (needs_activation = true → activation_seen (log (machine_of s)))
  ∧ (exact_sleep → clock (machine_of s) ≤ t0 + startup_timeout cfg).

Lemma await_activation_spec remaining m :
  0 ≤ remaining →
  wp (await_activation remaining)
    (fun b m' => (∃ n, log m' = Launched (Waited n) :: log m)
       ∧ clock m ≤ clock m' ≤ clock m + remaining
       ∧ (b = true → fst (sys_activation (log m)) = true)) (fun _ _ => False) m.
Proof.
  intros Hr. unfold wp, await_activation. destruct (sys_activation (log m)) as [seen took].
  cbn [log clock fst]. split_and!; [by eexists|lia|lia|by destruct seen].
Qed.

(** One more look keeps the log of a ready child. *)
Lemma ready_log_cons e l : is_look e = true → ready_log l → ready_log (e :: l).
Proof. intros He (looks & l0 & -> & Ha & Hl). exists (e :: looks), l0. simpl. by rewrite He. Qed.

Lemma wp_activation {A} t0 c s (K : bool → method Supervisor ProcessControlError A) Q X :
  0 ≤ startup_timeout cfg →
  pending c s → ready_log (log (machine_of s)) →
  (exact_sleep → clock (machine_of s) ≤ t0 + startup_timeout cfg) →
  (∀ b s', pending c s' → (b = true → ready_child t0 c s') → wp (K b) Q X s') →
  wp (records ← look;
      activated ← (if needs_activation && negb (existsb activates records)
                   then t ← on_machine now;
                        on_machine (await_activation (sat_sub (t0 + startup_timeout cfg) t))
                   else mret true);
      K activated) Q X s.
Proof.
  intros Ht Hp Hr Hc HK. apply wp_bind. set (m1 := launch_event Looked (machine_of s)).
  assert (pending c (put_machine m1 s)) as Hp1 by (apply calm_pending; [done|one_event]).
  assert (ready_log (log m1)) as Hr1 by by apply ready_log_cons.
  apply wp_on_machine. unfold wp at 1. fold m1. apply wp_bind.
  destruct needs_activation eqn:Hn; cbn [andb].
  2: { apply wp_ret, HK; [done|]. intros _. split_and!; [done..| |done]. by rewrite Hn. }
  destruct (existsb activates (sys_log (log (machine_of s)))) eqn:He; cbn [negb].
  - apply wp_ret, HK; [done|]. intros _. split_and!; [done..| |done].
    intros _. exists (log (machine_of s)). split; [by apply suffix_cons_r|by left].
  - apply wp_bind, wp_on_machine, wp_now, wp_on_machine.
    eapply wp_mono; [apply await_activation_spec; unfold sat_sub; lia|..]; [|done].
    intros b m' ((n & Hl) & Hclock & Hb). simpl in Hl.
    assert (pending c (put_machine m' (put_machine m1 s))) as Hp2.
    { apply calm_pending; [done|]. by apply (calm_event _ _ (Launched (Waited n))). }
    apply HK; [exact Hp2|]. intros ->. split_and!; [exact Hp2| | |].
    + cbn. rewrite Hl. by apply ready_log_cons.
    + intros _. exists (log m1). split; [cbn; rewrite Hl; by apply suffix_cons_r|right; by apply Hb].
    + intros Hs. specialize (Hc Hs). cbn in *. unfold sat_sub in Hclock. lia.
Qed.

Lemma standalone_start_spec fuel generation s :
  dry_run cfg = false → ample fuel → owned s →
  wp (standalone_start cfg fuel generation)
    (fun r s' => r = Some tt ∧ owned s' ∧ ∃ c, child_of s' = Some c ∧
       ((child_of s = Some c ∧ machine_of s' = emit (TryWaited (Ok false)) (machine_of s))
        ∨ (child_generation c = generation ∧ verified c (log (machine_of s'))
           ∧ ready_log (log (machine_of s'))
           ∧ (needs_activation = true → activation_seen (log (machine_of s')))
           ∧ (exact_sleep → clock (machine_of s') ≤ clock (machine_of s) + startup_timeout cfg))))
    (fun _ => owned) s.
Proof.
  intros Hd Hf Hs. unfold standalone_start. rewrite Hd. apply wp_bind.
  eapply wp_mono; [by apply wp_begin_start|..]; [|done]. intros [] s1 H1; cbn [negb].
  2: { apply wp_ret. destruct H1 as (Ho & Hc & [c Hc'] & Hm). split_and!; [done..|].
       exists c. split; [congruence|]. by left. }
  destruct H1 as [H1 Hc1]. apply wp_bind, wp_on_machine, wp_now, wp_bind.
  eapply wp_mono; [by apply wp_spawn|..]; [|done]. intros c s2 (H2 & Hg & Hc2 & _).
  apply wp_bind. eapply wp_mono; [by apply pending_ready|..]; [|done].
  intros [r|e] s3 [H3 Hr].
  2: { eapply wp_mono; [by apply wp_abandon|..]; done. }
  destruct Hr as (-> & Ha & _ & Ht).
  assert (clock (machine_of s2) = clock (machine_of s)) as Hc by (cbn in Hc2; congruence).
  apply (wp_activation (clock (machine_of s1)) c s3).
  - destruct Hf as (_ & _ & ? & _). done.
  - done.
  - exists [], (log (machine_of s3)). by split_and!.
  - destruct Hf as (_ & _ & ? & _). intros He. specialize (Ht He). lia.
  - intros b s4 H4 Hb. destruct b.
    2: { eapply wp_mono; [by apply wp_abandon|..]; done. }
    destruct (Hb eq_refl) as (_ & Hr & Hact & Hclock). apply wp_bind, (wp_set_child c); [done|].
    intros s5 H5 Hc5 Hm5. apply wp_ret. split_and!; [done..|]. exists c. split; [done|]. right.
    rewrite Hm5. destruct H4 as (_ & _ & _ & Hv). split_and!; [done..|].
    intros He. specialize (Hclock He). lia.
Qed.

(** *** The other operations *)

(** The slot is left alone and the machine stays calm. *)
Definition quiet (s s' : Supervisor) : Prop :=
  child_of s' = child_of s ∧ calm (machine_of s) (machine_of s').

Global Instance quiet_preorder : PreOrder quiet.
Proof.
  split; [by intros s; split|]. intros s1 s2 s3 [H1 C1] [H2 C2].
  split; [congruence|by etrans].
Qed.

Lemma quiet_owned s s' : quiet s s' → owned s → owned s'.
Proof.
  intros [Hc (C1 & C2 & _)] [H1 H2]. split; [by apply C1|]. intros p Hp. rewrite Hc. apply H2.
  destruct C2 as [<-|E]; congruence.
Qed.

Lemma quiet_machine {A} (m : method Machine ProcessControlError A) :
  keeps calm m → keeps quiet (on_machine m).
Proof.
  intros H s. unfold on_machine, on_slot, with_machine, on_field. specialize (H (machine (slot s))).
  destruct (m (machine (slot s))) as [r x]. by split.
Qed.

Lemma quiet_set (f : Supervisor → Supervisor) :
  (∀ s, slot (f s) = slot s) → keeps quiet (modify f : method Supervisor ProcessControlError unit).
Proof. intros H s. split; unfold child_of, machine_of; simpl; by rewrite H. Qed.

Lemma quiet_look : keeps quiet look.
Proof. apply quiet_machine. intros m. one_event. Qed.

Lemma quiet_pump : keeps quiet pump_route.
Proof. apply keeps_bind; [apply _|apply quiet_look|intros rs]. by apply quiet_set. Qed.

Lemma quiet_is_running : keeps quiet (on_slot slot_is_running).
Proof.
  intros s. unfold on_slot, on_field, slot_is_running, self, with_machine, mbind, method_bind.
  destruct (slot_child (slot s)) as [c|] eqn:E; cbn.
  - unfold on_field, try_wait, io. destruct (sys_try_wait _); cbn;
      (split; [unfold child_of; by rewrite E|one_event]).
  - split; [unfold child_of; cbn; by rewrite E|done].
Qed.

Lemma quiet_next_turn : keeps quiet (next_turn cfg).
Proof. apply quiet_machine. intros m. one_event. Qed.

Lemma quiet_wait_ready n : keeps quiet (wait_ready cfg n).
Proof.
  induction n as [|n IH]; simpl; [apply keeps_ret; apply _|].
  eauto 15 using quiet_pump, quiet_is_running, quiet_next_turn with rust typeclass_instances.
Qed.

Lemma quiet_wait_route_loss n : keeps quiet (wait_route_loss cfg n).
Proof.
  induction n as [|n IH]; simpl; [apply keeps_ret; apply _|].
  eauto 15 using quiet_pump, quiet_is_running, quiet_next_turn with rust typeclass_instances.
Qed.

Lemma quiet_tp_status coordinator session : keeps quiet (tp_status coordinator session).
Proof.
  unfold tp_status. apply keeps_bind; [apply _| |intros _].
  { apply keeps_bind; [apply _|apply quiet_look|intros rs]. by apply quiet_set. }
  apply keeps_bind; [apply _|apply keeps_self; apply _|intros s].
  apply keeps_bind; [apply _|apply quiet_is_running|intros b].
  apply keeps_bind; [apply _| |intros _].
  - apply keeps_if; [apply _| |apply keeps_ret; apply _].
    apply keeps_bind; [apply _|apply keeps_self; apply _|intros s'].
    destruct (slot_child (slot s')); [apply quiet_machine, calm_verify|apply keeps_fail; apply _].
  - apply keeps_bind; [apply _| |intros h; apply keeps_ret; apply _].
    apply keeps_if; [apply _|apply quiet_machine, calm_ask_http|apply keeps_ret; apply _].
Qed.

(** The operations that the runtime calls on a supervisor. *)
Inductive supervisor_op :=
| StandaloneStart (generation : Z) | StandaloneStop
| CoordinatorStart (generation : Z) | CoordinatorStop | WaitReady (turns : nat)
| WaitRouteLoss (turns : nat)
| WorkerStart (generation : Z) | WorkerStop
| TpPrepare (generation : Z) | ObserveConnected
| TpStart (session : Z) (coordinator : bytes) | TpStatus (coordinator : bool) (session : Z) | TpStop
| IsRunning.

Definition supervise (fuel : nat) (op : supervisor_op) : method Supervisor ProcessControlError unit :=
  match op with
  | StandaloneStart g => standalone_start cfg fuel g;; mret tt
  | StandaloneStop => standalone_stop cfg fuel;; mret tt
  | CoordinatorStart g => coordinator_start cfg fuel g;; mret tt
  | CoordinatorStop => coordinator_stop cfg fuel;; mret tt
  | WaitReady n => wait_ready cfg n;; mret tt
  | WaitRouteLoss n => wait_route_loss cfg n;; mret tt
  | WorkerStart g => worker_start cfg g
  | WorkerStop => worker_stop cfg fuel;; mret tt
  | TpPrepare g => tp_prepare cfg g;; mret tt
  | ObserveConnected => observe_connected
  | TpStart session a => tp_start cfg session a
  | TpStatus b session => tp_status b session;; mret tt
  | TpStop => tp_stop cfg fuel;; mret tt
  | IsRunning => on_slot slot_is_running;; mret tt
  end.

Definition supervision (fuel : nat) (ops : list supervisor_op) (s : Supervisor) : Supervisor :=
  foldl (fun s op => snd (supervise fuel op s)) s ops.

(** A start without a wait: the child is put into the slot as soon as it is identified. *)
Lemma owned_spawn {A} command generation overrides removals
    (k : ChildIdentity → method Supervisor ProcessControlError A) s :
  vacant s →
  (∀ c s', pending c s' → wp (k c) (fun _ => owned) (fun _ => owned) s') →
  wp (c ← on_machine (spawn_with_environment command generation overrides removals); k c)
    (fun _ => owned) (fun _ => owned) s.
Proof.
  intros Hv Hk. apply wp_bind. eapply wp_mono; [by apply wp_spawn|..]; [|done].
  intros c s' [Hp _]. by apply Hk.
Qed.

Lemma owned_set_child c s :
  pending c s → wp (set_child (Some c)) (fun _ => owned) (fun _ => owned) s.
Proof. intros Hp. by eapply wp_set_child. Qed.

Lemma owned_slot_stop fuel s :
  ample fuel → owned s →
  wp (on_slot (slot_stop fuel (stop_timeout cfg) (allow_sigkill cfg))) (fun _ => owned)
    (fun _ => owned) s.
Proof.
  intros Hf Hs. eapply wp_mono; [by apply wp_slot_stop|..]; simpl.
  - intros r s' [Hv _]. by apply vacant_owned.
  - by intros e s' [Hv _].
Qed.

Lemma wp_keeps_quiet {A} (m : method Supervisor ProcessControlError A) s :
  keeps quiet m → owned s → wp m (fun _ => owned) (fun _ => owned) s.
Proof.
  intros Hm Hs. specialize (Hm s). unfold wp. destruct (m s) as [[] s']; by eapply quiet_owned.
Qed.

(** The result of an operation is not looked at. *)
Lemma owned_ignore {A} (m : method Supervisor ProcessControlError A) s :
  wp m (fun _ => owned) (fun _ => owned) s → wp (m;; mret tt) (fun _ => owned) (fun _ => owned) s.
Proof. intros H. apply wp_bind. eapply wp_mono; [exact H|..]; [|done]. intros a s' Hs. by apply wp_ret. Qed.
Lemma owned_standalone fuel generation s :
  ample fuel → owned s →
  wp (standalone_start cfg fuel generation) (fun _ => owned) (fun _ => owned) s.
Proof.
  intros Hf Hs. destruct (dry_run cfg) eqn:Hd.
  - unfold standalone_start. rewrite Hd. by apply wp_bind, wp_modify, wp_ret.
  - eapply wp_mono; [by apply standalone_start_spec|..]; [|done]. by intros r s' (_ & Ho & _).
Qed.

(** The starts of the children that are not waited for. *)
Lemma owned_worker_start generation s :
  owned s → wp (worker_start cfg generation) (fun _ => owned) (fun _ => owned) s.
Proof.
  intros Hs. apply wp_bind. eapply wp_mono; [by apply wp_begin_start|..]; [|done].
  intros [] s1 H1; cbn [negb]; [|by apply wp_ret, H1].
  apply owned_spawn; [apply H1|]. intros. by apply owned_set_child.
Qed.

Lemma owned_tp_prepare generation s :
  owned s → wp (tp_prepare cfg generation) (fun _ => owned) (fun _ => owned) s.
Proof.
  intros Hs. apply wp_bind. eapply wp_mono; [by apply wp_begin_start|..]; [|done].
  intros [] s1 H1; cbn [negb]; [|by apply wp_bind, wp_self, wp_ret, H1].
  apply owned_spawn; [apply H1|]. intros c s2 H2. apply wp_bind.
  assert (wp pump_connected (fun _ => pending c) (fun _ _ => False) s2) as Hp.
  { apply wp_bind. eapply wp_mono; [by apply (wp_look (pending c)); [intros; by apply calm_pending|]|..];
      [|done]. intros rs s3 H3. by apply wp_modify. }
  eapply wp_mono; [exact Hp|..]; [|done]. intros [] s3 H3. apply wp_bind.
  eapply (wp_set_child c); [done|]. intros s4 H4 _ _. by apply wp_bind, wp_modify, wp_ret.
Qed.

Lemma owned_tp_start session address s :
  owned s → wp (tp_start cfg session address) (fun _ => owned) (fun _ => owned) s.
Proof.
  intros Hs. apply wp_bind. eapply wp_mono; [by apply wp_begin_start|..]; [|done].
  intros [] s1 H1; apply wp_bind, wp_require; try done; [|by intros _; apply H1].
  intros _. apply wp_bind, wp_modify. apply owned_spawn; [apply H1|]. intros. by apply owned_set_child.
Qed.

Lemma owned_step fuel op s :
  ample fuel → owned s → wp (supervise fuel op) (fun _ => owned) (fun _ => owned) s.
Proof.
  intros Hf Hs. destruct op; cbn [supervise].
  - by apply owned_ignore, owned_standalone.
  - apply owned_ignore. unfold standalone_stop. destruct (dry_run cfg); [|by apply owned_slot_stop].
    by apply wp_bind, wp_modify, wp_ret.
  - by apply owned_ignore, owned_coordinator_start.
  - apply owned_ignore. unfold coordinator_stop. apply wp_bind, wp_attempt.
    eapply wp_mono; [by apply owned_slot_stop|..]; simpl; intros r s' Hs';
      by apply wp_bind, wp_modify, wp_lift.
  - apply owned_ignore, wp_keeps_quiet; [apply quiet_wait_ready|done].
  - apply owned_ignore, wp_keeps_quiet; [apply quiet_wait_route_loss|done].
  - by apply owned_worker_start.
  - by apply owned_ignore, owned_slot_stop.
  - by apply owned_ignore, owned_tp_prepare.
  - by apply wp_modify.
  - by apply owned_tp_start.
  - apply owned_ignore, wp_keeps_quiet; [apply quiet_tp_status|done].
  - apply owned_ignore. unfold tp_stop. apply wp_bind, wp_modify. by apply owned_slot_stop.
  - apply owned_ignore, wp_keeps_quiet; [apply quiet_is_running|done].
Qed.

(** C20: A supervisor never owns two children and leaves none behind: after any sequence of
    starts, stops, waits and status requests, whatever the operating system, the HTTP port
    and the log of the children answer, a child was only spawned when every earlier one had
    been reaped, dropped or seen to have exited, and a child that is left is the one in the
    slot, which the next stop goes to. *)
Theorem one_child_at_a_time fuel ops s :
  ample fuel → log (machine_of s) = [] →
  let s' := supervision fuel ops s in
  one_at_a_time (log (machine_of s'))
  ∧ ∀ p, child_left (log (machine_of s')) = Some p →
      ∃ c, child_of s' = Some c ∧ p = Some (pid (child_process c)).
Proof.
  intros Hf Hlog. assert (owned s) as Hs.
  { split; rewrite Hlog; [intros t1 r t2 E; by destruct t1|done]. }
  clear Hlog. unfold supervision. revert s Hs.
  induction ops as [|op ops IH]; intros s Hs; [exact Hs|]. apply IH.
  pose proof (owned_step fuel op s Hf Hs) as H. unfold wp in H.
  by destruct (supervise fuel op s) as [[] s'].
Qed.

(** When the start of a standalone child returns without an error, the slot holds a
    child: the one that was running, or a new one of the given generation, whose identity
    was checked against the running process, which answered an HTTP request and was running
    after that, whose speculative feature, where the profile has it, was seen in the log,
    all within the startup timeout.  When it fails, no child is left outside the slot. *)
Lemma standalone_start_ready fuel generation s :
  dry_run cfg = false → ample fuel → owned s →
  match standalone_start cfg fuel generation s with
  | (Ok r, s') => r = Some tt ∧ ∃ c, child_of s' = Some c ∧
       ((child_of s = Some c ∧ machine_of s' = emit (TryWaited (Ok false)) (machine_of s))
        ∨ (child_generation c = generation ∧ verified c (log (machine_of s'))
           ∧ ready_log (log (machine_of s'))
           ∧ (needs_activation = true → activation_seen (log (machine_of s')))
           ∧ (exact_sleep → clock (machine_of s') ≤ clock (machine_of s) + startup_timeout cfg)))
  | (Err _, s') => owned s'
  end.
Proof.
  intros Hd Hf Hs. pose proof (standalone_start_spec fuel generation s Hd Hf Hs) as H.
  unfold wp in H. destruct (standalone_start cfg fuel generation s) as [[r|e] s']; [|exact H].
  by destruct H as (? & _ & ?).
Qed.

End Supervision.

(** ** The route of the coordinator under interleaving

    The log task and the start both read the route, change a field and write it back
    ([borrow] and [send_replace]); here the two halves are steps of their own. *)

Inductive route_action := LogBorrow | LogSend (e : Ds4LogEvent) | StartBorrow | StartSend.

Record route_race := mkRace {
  race_route : CoordinatorRouteState;
  race_log : CoordinatorRouteState;
  race_start : CoordinatorRouteState;
}.

(** src/src/cluster/process/coordinator.rs:83-128 (DistributedCoordinatorSupervisor::start_inner) *)
Definition race_step (r : route_race) (a : route_action) : route_race :=
  match a with
  | LogBorrow => mkRace (race_route r) (race_route r) (race_start r)
  | LogSend e => mkRace (route_event (race_log r) e) (race_log r) (race_start r)
  | StartBorrow => mkRace (race_route r) (race_log r) (race_route r)
  | StartSend =>
      mkRace (mkRoute true (worker_registered (race_start r)) (complete_route (race_start r)))
        (race_log r) (race_start r)
  end.

Definition race_run (l : list route_action) : CoordinatorRouteState :=
  race_route (foldl race_step (mkRace route_default route_default route_default) l).

(** ** The warm-up of a tensor-parallel session *)

Inductive WarmupError :=
| NotCoordinator
| HttpFailed
| TooLarge
| InvalidJson
| NoModel
| NoGeneration.

(** An answer: whether its status is a client or server error, and the chunks of its
    body; an error when there is none. *)
Record Response := mkResponse { error_status : bool; chunks : list (result bytes unit) }.

(** The HTTP client: [get] of the model list, [post] of a completion. *)
Class ModelHttp := {
  get_models : result Response unit;
  post_completion : Value → result Response unit;
}.

Definition MAX_WARMUP_BYTES : nat := Z.to_nat 65536.
#[global] Arguments MAX_WARMUP_BYTES : simpl never.

(** The loop over the chunks of a body.
    src/src/cluster/process/tp.rs:245-252 (warmup) *)
Fixpoint read_body (body : bytes) (chunks : list (result bytes unit)) : result bytes WarmupError :=
  match chunks with
  | [] => Ok body
  | Err _ :: _ => Err HttpFailed
  | Ok chunk :: chunks =>
      if (MAX_WARMUP_BYTES <? length body + length chunk)%nat then Err TooLarge
      else read_body (body ++ chunk) chunks
  end.

Definition read_response (r : result Response unit) : result bytes WarmupError :=
  match r with
  | Ok r => if error_status r then Err HttpFailed else read_body [] (chunks r)
  | Err _ => Err HttpFailed
  end.

(** [v\[n\]]: [Null] out of range. *)
Definition index_nth (n : nat) (v : Value) : Value :=
  default Value.Null (items ← as_array v; items !! n).

(** [v.as_u64()]: a literal without sign, fraction and exponent. *)
Definition as_u64 (v : Value) : option Z :=
  match v with Value.Number literal => parse_u64 literal | _ => None end.

Definition completion_request (model : bytes) : Value :=
  Value.Object [("model", Value.String model);
    ("messages", Value.Array [Value.Object [("role", jstr "user"); ("content", jstr "Reply OK.")]]);
    ("max_tokens", jnum 1); ("temperature", jnum 0); ("stream", Value.Bool false)]%string.

(** [index_nth 0 (index "data" models)] is [models\["data"\]\[0\]].
    src/src/cluster/process/tp.rs:234-278 (warmup) *)
Definition warmup {serde : Serde} {http : ModelHttp} (coordinator : bool) : result unit WarmupError :=
  (let? _ := ensure coordinator NotCoordinator in
   let? body := read_response get_models in
   let? models := ok_or (from_slice body) InvalidJson in
   let? model := ok_or (as_str (index "id" (index_nth 0 (index "data" models)))) NoModel in
   let? body := read_response (post_completion (completion_request model)) in
   let? answer := ok_or (from_slice body) InvalidJson in
   ensure (negb (is_some (get "error" answer))
           && match as_array (index "choices" answer) with
              | Some choices => negb (bool_decide (choices = []))
              | None => false
              end
           && match as_u64 (index "completion_tokens" (index "usage" answer)) with
              | Some n => 0 <? n
              | None => false
              end) NoGeneration)%rust.

(** The bodies that the loop accepts are those within the limit. *)
Lemma read_body_spec body chunks r :
  (length body ≤ MAX_WARMUP_BYTES)%nat →
  read_body body chunks = Ok r → (length r ≤ MAX_WARMUP_BYTES)%nat.
Proof.
  revert body. induction chunks as [|[c|] chunks IH]; intros body Hb; simpl; [naive_solver| |done].
  destruct (_ <? _)%nat eqn:E; [done|]. apply Nat.ltb_ge in E. apply IH. by rewrite length_app.
Qed.

(** *** The simulated child of a dry run *)

(** src/src/cluster/process/tp.rs:302-306 (SimulatedTp) *)
Record SimulatedTp := mkSimulated { simulated_session : Z }.

(** src/src/cluster/process/tp.rs:311-315 (SimulatedTp::start) *)
Definition simulated_start (session : Z) (self : SimulatedTp) : SimulatedTp := mkSimulated session.
(** src/src/cluster/process/tp.rs:316-326 (SimulatedTp::status) *)
Definition simulated_status (session : Z) (self : SimulatedTp) : TpRuntime.TpLocalStatus :=
  let running := (simulated_session self =? session) && negb (session =? 0) in
  TpRuntime.mkStatus running running running.
(** src/src/cluster/process/tp.rs:330-333 (SimulatedTp::stop) *)
Definition simulated_stop (self : SimulatedTp) : SimulatedTp := mkSimulated 0.

(** ** Cleaning up at the start of the program: [src/src/startup_cleanup.rs] *)

Module StartupProcessKind.

(** src/src/cluster/process.rs:82-86 (StartupProcessKind) *)
Inductive StartupProcessKind := Siderostat | Ds4.

End StartupProcessKind.
Notation StartupProcessKind := StartupProcessKind.StartupProcessKind.

(** src/src/cluster/process.rs:89-94 (StartupProcessKind::name) *)
Definition startup_kind_name (self : StartupProcessKind) : bytes :=
  match self with
  | StartupProcessKind.Siderostat => str "siderostat"
  | StartupProcessKind.Ds4 => str "ds4-server"
  end.

(** src/src/cluster/process.rs:98-102 (StartupProcessCandidate) *)
Record StartupProcessCandidate := mkCandidate {
  candidate_kind : StartupProcessKind;
  candidate_observed : ObservedProcess;
}.

(** [Path::file_name]: the last component, unless it is [..] or the root. *)
Definition path_file_name (p : bytes) : option bytes :=
  match last (path_components p) with
  | Some (FileTree.Component.Normal name) => Some name
  | _ => None
  end.

Definition startup_kind (configured_name : option bytes) (observed : ObservedProcess)
    : option StartupProcessKind :=
  let executable_name := path_file_name (observed_executable observed) in
  if bool_decide (executable_name = Some (str "siderostat")) then Some StartupProcessKind.Siderostat
  else if bool_decide (executable_name = Some (str "ds4-server"))
          || (is_some configured_name && bool_decide (executable_name = configured_name))
  then Some StartupProcessKind.Ds4
  else None.

(** [processes] is what the platform lists.
    src/src/cluster/process.rs:384-415 (discover_startup_processes) *)
Definition discover_startup_processes (current_pid : Z) (configured_ds4_binary : bytes)
    (processes : list ObservedProcess) : list StartupProcessCandidate :=
  omap (fun o => kind ← startup_kind (path_file_name configured_ds4_binary) o;
                 Some (mkCandidate kind o))
    (List.filter (fun o => negb (observed_pid o =? current_pid)) processes).

(** src/src/startup_cleanup.rs:12-18 (StartupCleanupOptions) *)
Record StartupCleanupOptions := mkCleanup { decline : bool; cleanup_auto_restart : bool }.

(** src/src/startup_cleanup.rs:20-25 (StartupCleanupOutcome) *)
Inductive StartupCleanupOutcome :=
| NoCandidates
| Approved (count : Z)
| Declined (count : Z).

Section Cleanup.
Context {crypto : Crypto} {kernel : Kernel}.

(** src/src/cluster/process.rs:105-107 (StartupProcessCandidate::identity) *)
Definition candidate_identity (c : StartupProcessCandidate) : ProcessIdentity :=
  from_observed (candidate_observed c).

(** The notice is shown, then five seconds pass; the notification itself has no effect on
    the outcome.
    src/src/startup_cleanup.rs:74-97 (confirm_cleanup) *)
Definition confirm_cleanup (options : StartupCleanupOptions)
    : method Machine ProcessControlError bool :=
  if decline options || negb (cleanup_auto_restart options) then mret false
  else sleep (secs 5);; mret true.

(** The loop over the candidates, which an error ends. *)
Fixpoint stop_candidates (fuel : nat) (stop_timeout : Z) (candidates : list StartupProcessCandidate)
    : method Machine ProcessControlError (option unit) :=
  match candidates with
  | [] => mret (Some tt)
  | c :: candidates =>
      stopped ← force_stop_approved fuel (candidate_identity c) stop_timeout (millis 20);
      match stopped with
      | None => mret None
      | Some _ => stop_candidates fuel stop_timeout candidates
      end
  end.

(** [None] is fuel exhausted.
    src/src/startup_cleanup.rs:29-72 (cleanup_startup_processes) *)
Definition cleanup_startup_processes (fuel : nat) (current_pid : Z) (configured_ds4_binary : bytes)
    (processes : list ObservedProcess) (stop_timeout : Z) (options : StartupCleanupOptions)
    : method Machine ProcessControlError (option StartupCleanupOutcome) :=
  let candidates := discover_startup_processes current_pid configured_ds4_binary processes in
  let count := Z.of_nat (length candidates) in
  if bool_decide (candidates = []) then mret (Some NoCandidates)
  else
    confirmed ← confirm_cleanup options;
    if negb confirmed then mret (Some (Declined count))
    else
      stopped ← stop_candidates fuel stop_timeout candidates;
      match stopped with
      | None => mret None
      | Some _ => mret (Some (Approved count))
      end.

(** *** The cleanup signals candidates only *)

(** [o0] is a process the cleanup may stop: listed, not this process, and a siderostat or a
    DS4 server by the name of its executable. *)
Definition may_clean (current_pid : Z) (configured : bytes) (processes : list ObservedProcess)
    (o0 : ObservedProcess) : Prop :=
  o0 ∈ processes ∧ observed_pid o0 ≠ current_pid
  ∧ is_some (startup_kind (path_file_name configured) o0) = true.

Definition clean_target current_pid configured processes (p : Z) (s : ProcessSignal)
    (o : ObservedProcess) : Prop :=
  ∃ o0, may_clean current_pid configured processes o0 ∧ p = observed_pid o0
    ∧ identity_matches (from_observed o0) o = true.

(** The process was seen to be gone. *)
Definition seen_gone (m : Machine) (p : Z) : Prop :=
  ∃ t, Observed p (Ok None) :: t `suffix_of` log m.

Lemma elem_of_candidates current_pid configured processes c :
  c ∈ discover_startup_processes current_pid configured processes ↔
  may_clean current_pid configured processes (candidate_observed c)
  ∧ startup_kind (path_file_name configured) (candidate_observed c) = Some (candidate_kind c).
Proof.
  unfold discover_startup_processes, may_clean. rewrite list_elem_of_omap. split.
  - intros (o & Ho & Hc). rewrite list_elem_of_In, filter_In, <-list_elem_of_In, negb_true_iff,
      Z.eqb_neq in Ho. destruct Ho as [Ho Hp].
    destruct (startup_kind _ o) eqn:E; [|done]. simplify_eq/=. by rewrite E.
  - intros [(Ho & Hp & _) Hk]. exists (candidate_observed c).
    rewrite list_elem_of_In, filter_In, <-list_elem_of_In, negb_true_iff, Z.eqb_neq, Hk.
    by destruct c.
Qed.

Lemma stop_candidates_spec fuel timeout ok candidates : ∀ m,
  (∀ c p s o, c ∈ candidates → signal_ok (candidate_identity c) true p s o → ok p s o) →
  guarded_by ok (log m) →
  wp (stop_candidates fuel timeout candidates)
    (fun r m' => guarded_by ok (log m') ∧ log m `suffix_of` log m'
       ∧ (r = Some tt → ∀ c, c ∈ candidates → seen_gone m' (observed_pid (candidate_observed c))))
    (fun _ m' => guarded_by ok (log m')) m.
Proof.
  induction candidates as [|c candidates IH]; intros m Hok Hg; cbn [stop_candidates].
  { apply wp_ret. split_and!; [done..|]. intros _ c Hc. by apply not_elem_of_nil in Hc. }
  apply wp_bind.
  pose proof (keeps_force_stop ok fuel (candidate_identity c) timeout (millis 20)
    (fun p s o => Hok c p s o (list_elem_of_here _ _)) m Hg) as H1.
  pose proof (calm_force_stop fuel (candidate_identity c) timeout (millis 20) m) as (_ & _ & H2).
  pose proof (wp_force_stop fuel (candidate_identity c) timeout (millis 20) m) as H3.
  unfold wp at 1. unfold wp in H3.
  destruct (force_stop_approved _ _ _ _ m) as [[r|e] m1]; cbn [snd] in *; [|done].
  destruct r as [[]|]; [|by apply wp_ret]. destruct (H3 eq_refl) as [t Ht].
  eapply wp_mono; [apply IH; [|done]|..]; [|intros r m' (G & S & C)|done].
  { intros c' p s o Hc'. apply Hok. by apply list_elem_of_further. }
  split_and!; [done|by etrans|]. intros -> c' [->|Hc']%elem_of_cons; [|by apply C].
  exists t. cbn in Ht. by rewrite <-Ht.
Qed.

Lemma stop_candidates_ends (fuel : nat) timeout candidates : ∀ m,
  0 ≤ timeout → timeout ≤ fuel * millis 20 →
  fst (stop_candidates (S fuel) timeout candidates m) ≠ Ok None.
Proof.
  induction candidates as [|c candidates IH]; intros m H0 Ht; [done|]. cbn [stop_candidates].
  unfold mbind, method_bind.
  pose proof (force_stop_ends fuel (candidate_identity c) timeout (millis 20) m H0
    ltac:(by vm_compute) Ht) as H.
  destruct (force_stop_approved _ _ _ _ m) as [[[[]|]|e] m1]; cbn [fst] in H; try done. by apply IH.
Qed.

(** The cleanup at the start of the program leaves everybody else alone: whatever the
    kernel answers, it only signals a listed process that is not this one and whose
    executable is named like siderostat or a DS4 server, right after it observed that
    process under that pid; when it is declined it makes no system call at all; when it
    returns approval, every candidate was seen to be gone; and it does return. *)
Lemma cleanup_spares_others (fuel : nat) current_pid configured processes timeout options m :
  log m = [] → 0 ≤ timeout → timeout ≤ fuel * millis 20 →
  let candidates := discover_startup_processes current_pid configured processes in
  match cleanup_startup_processes (S fuel) current_pid configured processes timeout options m with
  | (r, m') =>
      guarded_by (clean_target current_pid configured processes) (log m')
      ∧ match r with
        | Ok (Some NoCandidates) => candidates = [] ∧ m' = m
        | Ok (Some (Declined n)) =>
            n = length candidates ∧ m' = m
            ∧ (decline options = true ∨ cleanup_auto_restart options = false)
        | Ok (Some (Approved n)) =>
            n = length candidates
            ∧ ∀ o0, may_clean current_pid configured processes o0 → seen_gone m' (observed_pid o0)
        | Ok None => False
        | Err _ => True
        end
  end.
Proof.
  intros Hlog H0 Ht candidates.
  set (ok := clean_target current_pid configured processes).
  assert (guarded_by ok (log m)) as Hg.
  { intros t1 p s r t2 E. rewrite Hlog in E. by destruct t1. }
  unfold cleanup_startup_processes. fold candidates.
  case_bool_decide as Hc; [done|]. unfold confirm_cleanup.
  destruct (decline options || negb (cleanup_auto_restart options)) eqn:Hd.
  { cbn. split_and!; try done. apply orb_true_iff in Hd as [|?%negb_true_iff]; auto. }
  set (m1 := mkMachine (clock m + secs 5 + oversleep (log m)) (Slept (secs 5) :: log m)).
  assert (guarded_by ok (log m1)) as Hg1 by (apply guarded_cons; done).
  pose proof (stop_candidates_spec (S fuel) timeout ok candidates m1) as H.
  pose proof (stop_candidates_ends fuel timeout candidates m1 H0 Ht) as He.
  unfold mbind, method_bind. cbn. fold m1.
  assert (∀ c p s o, c ∈ candidates → signal_ok (candidate_identity c) true p s o → ok p s o) as Hok.
  { intros c p s o [Hm _]%elem_of_candidates (-> & _ & Hi). exists (candidate_observed c).
    by split_and!. }
  specialize (H Hok Hg1). unfold wp in H.
  destruct (stop_candidates _ _ _ m1) as [[[[]|]|e] m2]; cbn in *; try done.
  destruct H as (G & _ & S). split_and!; [done..|]. intros o0 Ho.
  destruct (startup_kind (path_file_name configured) o0) as [k|] eqn:Hk.
  - apply (S eq_refl (mkCandidate k o0)). by apply elem_of_candidates.
  - destruct Ho as (_ & _ & Hs). by rewrite Hk in Hs.
Qed.

End Cleanup.

(** ** Concrete runs *)

Module DemoLaunch.

Definition command : Ds4Command :=
  mkCommand (str "/opt/ds4/ds4-server") (str "/") [str "--port"; str "8080"]
    (mkProfile (str "standalone") Quantization.Mxfp4 Residency.Resident SpeculativeSupport.None).

Definition settings (allow : bool) : Settings :=
  mkSettings command (millis 1000) (millis 100) (millis 100) allow false.

(** A system that spawns the process 4242; a request takes five nanoseconds. *)
Definition launcher (up : bool) (records : list ChildLogRecord) : Launcher := {|
  sys_canonicalize _ p := Ok p;
  sys_spawn _ _ _ := Ok (Some 4242);
  sys_http _ := (up, 5%nat);
  sys_log l := if existsb (fun e => match e with Launched Looked => true | _ => false end) l
               then [] else records;
  sys_activation _ := (false, 0%nat);
  sys_millis _ := 1000;
|}.

Definition idle : Supervisor := mkSupervisor (mkSlot None boot) route_default (0, tp_log_default) false false.

(** The process becomes ready at the first request. *)
Definition started := standalone_start (crypto := toy_crypto) (kernel := stubborn)
  (launcher := launcher true []) (settings true) 20 3 idle.

Example start_ready : fst started = Ok (Some tt) ∧ child_of (snd started) = Some demo_identity.
Proof. vm_compute. done. Qed.

(** A child that does not answer and does not end on [SIGTERM], in a configuration that
    forbids [SIGKILL]: no such signal is sent, but the handle that is dropped kills it. *)
Definition refused := standalone_start (crypto := toy_crypto) (kernel := stubborn)
  (launcher := launcher false []) (settings false) 20 3 idle.

Example dropped_is_killed :
  fst refused = Err ProcessControlError.ReadinessTimeout
  ∧ existsb is_kill (log (machine_of (snd refused))) = false
  ∧ head (log (machine_of (snd refused))) = Some (Launched Dropped).
Proof. vm_compute. done. Qed.

(** The update of the start and one of the log task between its two halves: either is
    lost. *)
Example lost_http_ready :
  race_run [LogBorrow; StartBorrow; StartSend; LogSend (Ds4LogEvent.WorkerRegistered [])]
  = mkRoute false true false.
Proof. reflexivity. Qed.

Example lost_complete_route :
  race_run [LogBorrow; LogSend (Ds4LogEvent.WorkerRegistered []); StartBorrow; LogBorrow;
            LogSend (Ds4LogEvent.CompleteRouteReady []); StartSend]
  = mkRoute true true false.
Proof. reflexivity. Qed.

(** A worker that connects before the preparation clears its flag is never seen to be
    connected. *)
Definition early : list ChildLogRecord :=
  [{| record_profile_id := str "tp"; record_generation := 3; record_pid := 4242;
      record_stream := ChildLogStream.Stderr; record_line := []; record_truncated := false;
      record_event := Some (Ds4LogEvent.WorkerRegistered []) |}].
Definition prepared := tp_prepare (crypto := toy_crypto) (kernel := stubborn)
  (launcher := launcher true early) (settings true) 3 idle.

Example early_connection_lost :
  fst (is_connected (launcher := launcher true early) (snd prepared)) = Ok false.
Proof. vm_compute. done. Qed.

(** Of a shell, an old runtime, this process and an old server, two are stopped. *)
Definition listed : list ObservedProcess :=
  [mkObserved 10 (str "/bin/zsh") [] 5; mkObserved 11 (str "/usr/local/bin/siderostat") [] 6;
   mkObserved 12 (str "/usr/local/bin/siderostat") [] 7; demo_process].

(** [SIGTERM] ends them. *)
Definition obedient : Kernel := {|
  sys_try_wait _ := Ok true;
  sys_observe l p := Ok (if existsb (fun e => match e with
      Signalled q _ _ => p =? q | _ => false end) l then None
    else list_find (fun o => observed_pid o = p) listed ≫= fun x => Some (snd x));
  sys_signal _ _ _ := Ok tt;
  oversleep _ := 0%nat;
|}.

Definition cleaned := cleanup_startup_processes (crypto := toy_crypto) (kernel := obedient) 10 12
  (str "/srv/ds4/ds4-server") listed (millis 100) (mkCleanup false true) boot.

Example two_stopped :
  fst cleaned = Ok (Some (Approved 2))
  ∧ omap (fun e => match e with Signalled p _ _ => Some p | _ => None end) (log (snd cleaned))
    = [4242; 11].
Proof. vm_compute. done. Qed.

End DemoLaunch.

Section launch_witnesses.

Lemma one_child_at_a_time_witness :
  let s' := supervision (crypto := toy_crypto) (kernel := stubborn)
    (launcher := DemoLaunch.launcher true []) (DemoLaunch.settings true) 20
    [StandaloneStart 3; StandaloneStart 4; StandaloneStop; StandaloneStart 5] DemoLaunch.idle in
  length (List.filter is_spawn (log (machine_of s'))) = 2%nat
  ∧ one_at_a_time (log (machine_of s')).
Proof.
  cbv zeta. split; [vm_compute; reflexivity|].
  apply (one_child_at_a_time (crypto := toy_crypto) (kernel := stubborn)
    (launcher := DemoLaunch.launcher true []) (DemoLaunch.settings true) 20
    [StandaloneStart 3; StandaloneStart 4; StandaloneStop; StandaloneStart 5] DemoLaunch.idle).
  - unfold ample, DemoLaunch.settings, millis. simpl. lia.
  - reflexivity.
Defined.

Lemma standalone_start_ready_witness :
  ∃ c, child_of (snd DemoLaunch.started) = Some c
  ∧ (needs_activation (DemoLaunch.settings true) = true →
     activation_seen (launcher := DemoLaunch.launcher true []) (log (machine_of (snd DemoLaunch.started))))
  ∧ clock (machine_of (snd DemoLaunch.started)) = 5.
Proof.
  pose proof (standalone_start_ready (crypto := toy_crypto) (kernel := stubborn)
    (launcher := DemoLaunch.launcher true []) (DemoLaunch.settings true) 20 3 DemoLaunch.idle
    eq_refl ltac:(unfold ample, DemoLaunch.settings, millis; simpl; lia)
    ltac:(split; [intros t1 r t2 E; by destruct t1|by intros p H])) as H.
  exists demo_identity. split; [vm_compute; reflexivity|]. split; [|vm_compute; reflexivity].
  unfold DemoLaunch.started. destruct (standalone_start _ _ _ _) as [[r|e] s'] eqn:E; [|by vm_compute in E].
  destruct H as (_ & c & Hc & [[H _]|(_ & _ & _ & Ha & _)]); [by vm_compute in H|exact Ha].
Defined.

Lemma cleanup_spares_others_witness :
  fst DemoLaunch.cleaned = Ok (Some (Approved 2))
  ∧ guarded_by (clean_target (crypto := toy_crypto) 12 (str "/srv/ds4/ds4-server") DemoLaunch.listed)
      (log (snd DemoLaunch.cleaned)).
Proof.
  split; [vm_compute; reflexivity|].
  pose proof (cleanup_spares_others (crypto := toy_crypto) (kernel := DemoLaunch.obedient) 9 12
    (str "/srv/ds4/ds4-server") DemoLaunch.listed (millis 100) (mkCleanup false true) boot
    eq_refl ltac:(by vm_compute) ltac:(by vm_compute)) as H.
  cbv zeta in H. unfold DemoLaunch.cleaned.
  destruct (cleanup_startup_processes _ _ _ _ _ _ _) as [r m']. exact (proj1 H).
Defined.

End launch_witnesses.
