(* ===== verification/Sse.v ===== *)
(** * Server-sent events through the proxy: [src/src/proxy.rs]

    The proxy cuts the stream of a completion into whole events, so that an event that the
    upstream did not finish is never shown, and ends every stream that fails with an event
    that says so.  A stream is what its consumer gets from one pull after the other; the
    source of the framing is the list of what the upstream yields, in the chunks it happens
    to arrive in. *)

From S2P Require Import Prelude Bytes Utf8 Text Json.

(** ** The frame buffer *)

(** src/src/proxy.rs:31-31 (MAX_SSE_EVENT_BYTES) *)
Definition MAX_SSE_EVENT_BYTES : nat := Z.to_nat (1024 * 1024).
#[global] Arguments MAX_SSE_EVENT_BYTES : simpl never.

(** src/src/proxy.rs:33-39 (SseFrameBuffer) *)
Record SseFrameBuffer := mkBuffer {
  buffered : bytes;
  cursor : nat;
  line_start : nat;
  pending_lf : bool;
}.

Definition buffer_default : SseFrameBuffer := mkBuffer [] 0 0 false.

Definition LF : Z := 10.
Definition CR : Z := 13.

(** [buffer.bytes.extend_from_slice(chunk)]. *)
Definition extend (chunk : bytes) (b : SseFrameBuffer) : SseFrameBuffer :=
  mkBuffer (buffered b ++ chunk) (cursor b) (line_start b) (pending_lf b).

(** The loop over the bytes from the cursor on, [rest].
    src/src/proxy.rs:52-83 (SseFrameBuffer::take_event) *)
Fixpoint scan (eof : bool) (rest : bytes) (self : SseFrameBuffer)
    : option bytes * SseFrameBuffer :=
  match rest with
  | [] => (None, self)
  | byte :: rest =>
      if negb ((byte =? LF) || (byte =? CR)) then
        scan eof rest (mkBuffer (buffered self) (cursor self + 1) (line_start self) (pending_lf self))
      else
        let final := bool_decide (rest = []) in
        let empty := (cursor self =? line_start self)%nat in
        if (byte =? CR) && final && negb eof && negb empty then (None, self)
        else
          let split_crlf := (byte =? CR) && final && negb eof in
          let crlf := (byte =? CR) && bool_decide (head rest = Some LF) in
          let end_ := (cursor self + (if crlf then 2 else 1))%nat in
          if empty then
            (Some (take end_ (buffered self)), mkBuffer (drop end_ (buffered self)) 0 0 split_crlf)
          else
            let self := mkBuffer (buffered self) end_ end_ (pending_lf self) in
            if crlf then match rest with [] => (None, self) | _ :: rest => scan eof rest self end
            else scan eof rest self
  end.

(** src/src/proxy.rs:42-84 (SseFrameBuffer::take_event) *)
Definition take_event (eof : bool) (self : SseFrameBuffer) : option bytes * SseFrameBuffer :=
  let scan_on self := scan eof (drop (cursor self) (buffered self)) self in
  if pending_lf self then
    if bool_decide (buffered self = []) && negb eof then (None, self)
    else
      let self := mkBuffer (buffered self) (cursor self) (line_start self) false in
      match buffered self with
      | byte :: rest =>
          if byte =? LF then (Some [byte], mkBuffer rest (cursor self) (line_start self) false)
          else scan_on self
      | [] => scan_on self
      end
  else scan_on self.

(** ** Terminal events *)

Definition BOM : bytes := [239; 187; 191].

(** [text.trim_start_matches(BOM)]; every match consumes bytes. *)
Fixpoint trim_boms (fuel : nat) (text : bytes) : bytes :=
  match fuel, strip_prefix BOM text with
  | S fuel, Some text => trim_boms fuel text
  | _, _ => text
  end.

Definition data_line (line : bytes) : option bytes :=
  if bool_decide (line = str "data") then Some []
  else value ← strip_prefix (str "data:") line;
       Some (default value (strip_prefix (str " ") value)).

(** src/src/proxy.rs:87-110 (is_sse_terminal_event) *)
Definition is_sse_terminal_event {serde : Serde} (event : bytes) : bool :=
  let text := from_utf8_lossy event in
  let text := replace [CR] [LF] (replace [CR; LF] [LF] (trim_boms (length text) text)) in
  let data := join_with [LF] (omap data_line (lines text)) in
  bool_decide (data = str "[DONE]")
  || match from_slice data ≫= get "error" with
     | Some Value.Null | None => false
     | Some _ => true
     end.

(** ** The framing of a stream *)

Module StreamError.

(** [io::Error], as the streams distinguish it. *)
Inductive StreamError :=
| IdleTimeout | Transport | SizeLimit | Incomplete | MissingTerminal | Interrupted.

End StreamError.
Notation StreamError := StreamError.StreamError.

Global Instance StreamError_eq_dec : EqDecision StreamError.
Proof. solve_decision. Defined.

Notation Chunk := (result bytes StreamError).

(** What an upstream does: after what time it yields which item, and after what time it
    ends; [None] if it does not. *)
Record Upstream := mkUpstream { yields : list (Z * Chunk); ends_after : option Z }.

(** src/src/proxy.rs:174-194 (with_idle_timeout) *)
Fixpoint with_idle_timeout (timeout : Z) (yields : list (Z * Chunk)) (ends_after : option Z)
    : list Chunk :=
  match yields with
  | [] => if match ends_after with Some d => d <=? timeout | None => false end then []
          else [Err StreamError.IdleTimeout]
  | (d, item) :: yields =>
      if d <=? timeout then item :: with_idle_timeout timeout yields ends_after
      else [Err StreamError.IdleTimeout]
  end.

Record FrameState := mkFrames {
  source : list Chunk;
  buffer : SseFrameBuffer;
  at_eof : bool;
  done : bool;
  pending_error : option StreamError;
}.

Section Frames.
Context {serde : Serde} (require_terminal : bool).

(** A turn of the loop up to the read of the source: [inl] is what the pull returns, [inr]
    the buffer with which the source is read.
    src/src/proxy.rs:126-160 (frame_sse_stream) *)
Definition frame_turn (source : list Chunk) (buffer : SseFrameBuffer) (eof : bool)
    (pending_error : option StreamError) : option (Chunk * FrameState) + SseFrameBuffer :=
  match take_event eof buffer with
  | (Some event, buffer) =>
      if (MAX_SSE_EVENT_BYTES <? length event)%nat then
        inl (Some (Err StreamError.SizeLimit, mkFrames source buffer eof true pending_error))
      else
        let terminal := require_terminal && is_sse_terminal_event event in
        inl (Some (Ok event, mkFrames source buffer eof terminal pending_error))
  | (None, buffer) =>
      match pending_error with
      | Some error => inl (Some (Err error, mkFrames source buffer eof true None))
      | None =>
          if (MAX_SSE_EVENT_BYTES <? length (buffered buffer))%nat
             || (eof && negb (bool_decide (buffered buffer = []))) then
            inl (Some (Err StreamError.Incomplete, mkFrames source buffer eof true None))
          else if eof then
            inl (if require_terminal
                 then Some (Err StreamError.MissingTerminal, mkFrames source buffer eof true None)
                 else None)
          else inr buffer
      end
  end.

(** The turn after the end or an error of the source, which never reads. *)
Definition last_turn (source : list Chunk) (buffer : SseFrameBuffer)
    (pending_error : option StreamError) : option (Chunk * FrameState) :=
  match frame_turn source buffer true pending_error with inl r => r | inr _ => None end.

(** One pull.  src/src/proxy.rs:125-169 (frame_sse_stream) *)
Fixpoint next_frame (source : list Chunk) (buffer : SseFrameBuffer) : option (Chunk * FrameState) :=
  match frame_turn source buffer false None with
  | inl r => r
  | inr buffer =>
      match source with
      | Ok chunk :: source => next_frame source (extend chunk buffer)
      | Err error :: source => last_turn source buffer (Some error)
      | [] => last_turn [] buffer None
      end
  end.

(** src/src/proxy.rs:112-172 (frame_sse_stream) *)
Definition frame_pull (s : FrameState) : option (Chunk * FrameState) :=
  if done s then None
  else if at_eof s then last_turn (source s) (buffer s) (pending_error s)
  else next_frame (source s) (buffer s).

Definition frame_start (source : list Chunk) : FrameState :=
  mkFrames source buffer_default false false None.

(** What the first [n] pulls give. *)
Fixpoint frames (n : nat) (s : FrameState) : list Chunk :=
  match n with
  | O => []
  | S n => match frame_pull s with
           | Some (item, s) => item :: frames n s
           | None => []
           end
  end.

End Frames.

(** ** The body of a response *)

(** Text with double quotes for the single ones. *)
Definition json_quotes (text : string) : bytes :=
  (fun b => if b =? 39 then 34 else b) <$> str text.

(** The data of an error event, between blank lines. *)
Definition error_event (json : string) : bytes := [LF; LF] ++ str "data: " ++ json_quotes json ++ [LF; LF].

Definition INTERRUPTED_EVENT : bytes := error_event
  "{'error':{'message':'Stream interrupted by runtime restart','type':'service_unavailable','code':'stream_interrupted'}}".
Definition TIMEOUT_EVENT : bytes := error_event
  "{'error':{'message':'Upstream stream timed out','type':'upstream_timeout','code':'upstream_stream_timeout'}}".
Definition INCOMPLETE_EVENT : bytes := error_event
  "{'error':{'message':'Upstream stream ended without completion','type':'upstream_error','code':'upstream_stream_incomplete'}}".
Definition FAILED_EVENT : bytes := error_event
  "{'error':{'message':'Upstream stream interrupted','type':'upstream_error','code':'upstream_stream_interrupted'}}".

(** The stream under the response: as it comes, framed, or [stream::empty()]. *)
Inductive BodySource :=
| Raw (chunks : list Chunk)
| Framed (require_terminal : bool) (s : FrameState)
| Emptied.

(** The state of the [unfold]: whether it still holds the admission permit, and the failure
    it has noted for the metrics. *)
Record ResponseStream := mkResponseStream {
  upstream : BodySource;
  has_permit : bool;
  noted_failure : option bytes;
  finished : bool;
}.

Section Body.
Context {serde : Serde} (is_sse : bool).

Definition source_pull (s : BodySource) : option (Chunk * BodySource) :=
  match s with
  | Raw [] | Emptied => None
  | Raw (chunk :: chunks) => Some (chunk, Raw chunks)
  | Framed q s => '(item, s) ← frame_pull q s; Some (item, Framed q s)
  end.

(** The last item: the upstream is dropped, the permit is released. *)
Definition last_item (event : bytes) (error : StreamError) (failure : string)
    : option (Chunk * ResponseStream) :=
  Some (if is_sse then Ok event else Err error,
        mkResponseStream Emptied false (Some (str failure)) true).

(** One pull; [interrupted] when the interrupt is seen before the upstream yields.
    src/src/proxy.rs:974-1045 (build_mode_aware_response) *)
Definition response_next (interrupted : bool) (s : ResponseStream) : option (Chunk * ResponseStream) :=
  if finished s then None
  else if interrupted then last_item INTERRUPTED_EVENT StreamError.Interrupted "stream-interrupted"
  else
    match source_pull (upstream s) with
    | Some (Ok chunk, u) => Some (Ok chunk, mkResponseStream u (has_permit s) (noted_failure s) false)
    | Some (Err StreamError.IdleTimeout, _) =>
        last_item TIMEOUT_EVENT StreamError.IdleTimeout "stream-idle-timeout"
    | Some (Err (StreamError.Incomplete | StreamError.MissingTerminal), _) =>
        last_item INCOMPLETE_EVENT StreamError.Transport "stream-error"
    | Some (Err _, _) => last_item FAILED_EVENT StreamError.Transport "stream-error"
    | None => None
    end.

(** What the first [n] pulls give when the interrupt is seen at pull [k] if [seen k]. *)
Fixpoint delivered (seen : nat → bool) (n k : nat) (s : ResponseStream) : list Chunk :=
  match n with
  | O => []
  | S n => match response_next (seen k) s with
           | Some (item, s) => item :: delivered seen n (S k) s
           | None => []
           end
  end.

End Body.

(** ** Where the events of a stream end

    A reference for the cuts, one byte at a time: [Start] at the start of a line, [Mid] in
    one, [CrMid] after a carriage return that ended a line with something in it, [CrEmpty]
    after one that ended an empty line.  A byte that ends an empty line, or completes its
    terminator, ends an event. *)

Inductive scan_state := Start | Mid | CrMid | CrEmpty.

Definition scan_step (st : scan_state) (b : Z) : scan_state * bool :=
  if b =? LF then
    match st with Start | CrEmpty => (Start, true) | Mid | CrMid => (Start, false) end
  else if b =? CR then match st with Mid => (CrMid, false) | _ => (CrEmpty, true) end
  else (Mid, false).

(** The state after [s] and the bytes since the last end of an event, [h] before. *)
Fixpoint walk (st : scan_state) (h s : bytes) : scan_state * bytes :=
  match s with
  | [] => (st, h)
  | b :: s => let '(st, ended) := scan_step st b in walk st (if ended then [] else h ++ [b]) s
  end.

(** The unfinished event at the end of a stream. *)
Definition held (s : bytes) : bytes := snd (walk Start [] s).

Lemma walk_app st h s1 s2 :
  walk st h (s1 ++ s2) = walk (fst (walk st h s1)) (snd (walk st h s1)) s2.
Proof.
  revert st h. induction s1 as [|b s1 IH]; intros st h; [done|]. simpl.
  destruct (scan_step st b). apply IH.
Qed.

Lemma walk_snoc st h s b st' h' :
  walk st h s = (st', h') →
  walk st h (s ++ [b]) = (fst (scan_step st' b), if snd (scan_step st' b) then [] else h' ++ [b]).
Proof. intros E. rewrite walk_app, E. simpl. by destruct (scan_step st' b). Qed.

Lemma walk_suffix s : ∀ st h, ∃ p, h ++ s = p ++ snd (walk st h s).
Proof.
  induction s as [|b s IH]; intros st h; simpl; [exists []; by rewrite app_nil_r|].
  destruct (scan_step st b) as [st' []]; [|rewrite cons_middle, app_assoc; apply IH].
  destruct (IH st' []) as [p E]. exists (h ++ b :: p). rewrite <-app_assoc. simpl in *. by rewrite <-E.
Qed.

(** What precedes the unfinished event ends an event. *)
Lemma held_suffix s : ∃ p, s = p ++ held s.
Proof. apply (walk_suffix s Start []). Qed.

(** The buffer after the bytes [e] were emitted: the cursor stands where a walk over the
    whole stream would be, with the bytes before the cursor held. *)
Definition at_line_start (eof : bool) (st : scan_state) (rest : bytes) : Prop :=
  st = Start ∨ ((st = CrMid ∨ st = CrEmpty) ∧ head rest ≠ Some LF ∧ (rest ≠ [] ∨ eof = true)).

Definition tracked (e : bytes) (eof : bool) (b : SseFrameBuffer) : Prop :=
  if pending_lf b
  then cursor b = 0%nat ∧ line_start b = 0%nat ∧ walk Start [] e = (CrEmpty, [])
  else (cursor b ≤ length (buffered b))%nat
    ∧ ∃ st, walk Start [] (e ++ take (cursor b) (buffered b)) = (st, take (cursor b) (buffered b))
        ∧ ((cursor b = line_start b ∧ at_line_start eof st (drop (cursor b) (buffered b)))
           ∨ (line_start b < cursor b)%nat ∧ st = Mid).

(** What an emitted event or its absence means for the stream. *)
Definition event_spec (e : bytes) (eof : bool) (b : SseFrameBuffer)
    (r : option bytes * SseFrameBuffer) : Prop :=
  match r with
  | (Some event, b') => buffered b = event ++ buffered b' ∧ event ≠ [] ∧ held (e ++ event) = []
                        ∧ tracked (e ++ event) eof b'
  | (None, b') => buffered b' = buffered b ∧ tracked e eof b' ∧ held (e ++ buffered b) = buffered b
  end.

Lemma take_snoc (n : nat) (l : bytes) b rest :
  drop n l = b :: rest → take (n + 1) l = take n l ++ [b] ∧ drop (n + 1) l = rest.
Proof.
  revert l. induction n as [|n IH]; intros l; [by destruct l; intros [=]; simplify_eq|].
  destruct l as [|a l]; [done|]. simpl. intros H. apply IH in H as [H1 H2].
  by rewrite H1, H2.
Qed.

Lemma walk_take e (l : bytes) n byte rest st h :
  drop n l = byte :: rest → walk Start [] (e ++ take n l) = (st, h) →
  walk Start [] (e ++ take (n + 1) l)
  = (fst (scan_step st byte), if snd (scan_step st byte) then [] else h ++ [byte]).
Proof.
  intros Hd Hw. apply take_snoc in Hd as [-> _]. rewrite app_assoc. by apply walk_snoc.
Qed.

(** The cursor at the end of the buffer, or before a last carriage return. *)
Lemma held_all e b st :
  drop (cursor b) (buffered b) = [] →
  walk Start [] (e ++ take (cursor b) (buffered b)) = (st, take (cursor b) (buffered b)) →
  held (e ++ buffered b) = buffered b.
Proof.
  intros Hd Hw. assert (buffered b = take (cursor b) (buffered b)) as E.
  { by rewrite <-(take_drop (cursor b) (buffered b)) at 1; rewrite Hd, app_nil_r. }
  unfold held. rewrite E, Hw. done.
Qed.

(** The buffer after an event. *)
Lemma tracked_event e eof rest st (p : bool) :
  walk Start [] e = (st, []) →
  (if p then st = CrEmpty else at_line_start eof st rest) →
  tracked e eof (mkBuffer rest 0 0 p).
Proof.
  intros Hw Hs. unfold tracked. cbn. destruct p; [by subst|]. split; [lia|].
  exists st. rewrite drop_0, app_nil_r. auto.
Qed.

(** An event is cut off behind the bytes scanned so far. *)
Lemma cut_spec e eof b (n : nat) (p : bool) st :
  (0 < n ≤ length (buffered b))%nat →
  walk Start [] (e ++ take n (buffered b)) = (st, []) →
  (if p then st = CrEmpty else at_line_start eof st (drop n (buffered b))) →
  event_spec e eof b (Some (take n (buffered b)), mkBuffer (drop n (buffered b)) 0 0 p).
Proof.
  intros Hn Hw Hs. split_and!; [cbn; by rewrite take_drop| |unfold held; by rewrite Hw|by eapply tracked_event].
  intros E%(f_equal length). rewrite length_take in E. simpl in E. lia.
Qed.

Definition scan_from (eof : bool) (b : SseFrameBuffer) : option bytes * SseFrameBuffer :=
  scan eof (drop (cursor b) (buffered b)) b.

Lemma not_newline byte :
  (byte =? LF) = false → (byte =? CR) = false → ∀ st, scan_step st byte = (Mid, false).
Proof. intros H1 H2 st. unfold scan_step. by rewrite H1, H2. Qed.

Lemma scan_spec eof (e : bytes) : ∀ (n : nat) b,
  length (drop (cursor b) (buffered b)) = n → pending_lf b = false → tracked e eof b →
  event_spec e eof b (scan_from eof b).
Proof.
  intros n. induction n as [n IH] using lt_wf_ind. intros b Hn Hp Ht.
  pose proof Ht as Ht'. unfold tracked in Ht. rewrite Hp in Ht. destruct Ht as (Hc & st & Hw & Hst).
  unfold scan_from. destruct (drop (cursor b) (buffered b)) as [|byte rest] eqn:Hr;
    [cbn; split_and!; [done..|by eapply held_all]|].
  pose proof (walk_take e _ _ byte rest st _ Hr Hw) as Hw1.
  pose proof (take_snoc _ _ _ _ Hr) as [Ht1 Hd1]. rewrite <-Ht1 in Hw1. simpl in Hn.
  assert (cursor b + 1 ≤ length (buffered b))%nat as Hc1.
  { apply (f_equal length) in Hr. rewrite length_drop in Hr. simpl in Hr. lia. }
  assert (line_start b ≤ cursor b)%nat as Hls by (destruct Hst as [[]|[]]; lia).
  (* a step to a later cursor of the same buffer *)
  assert (∀ c ls, (cursor b < c)%nat →
    tracked e eof (mkBuffer (buffered b) c ls false) →
    event_spec e eof b (scan eof (drop c (buffered b)) (mkBuffer (buffered b) c ls (pending_lf b)))) as Hgo.
  { intros c ls Hlt Htr. rewrite Hp.
    refine (IH (length (drop c (buffered b))) _ (mkBuffer (buffered b) c ls false) eq_refl eq_refl Htr).
    apply (f_equal length) in Hr. rewrite length_drop in *. simpl in Hr. lia. }
  cbn [scan]. destruct (negb ((byte =? LF) || (byte =? CR))) eqn:Hnl.
  { rewrite negb_true_iff, orb_false_iff in Hnl. destruct Hnl as [H1 H2].
    rewrite (not_newline byte H1 H2) in Hw1. rewrite <-Hd1. apply Hgo; [lia|].
    split; [done|]. exists Mid. split; [done|]. right. cbn. split; [lia|done]. }
  apply negb_false_iff, orb_true_iff in Hnl.
  assert (head (byte :: rest) = Some byte) as Hhead by done.
  destruct ((byte =? CR) && bool_decide (head rest = Some LF)) eqn:Hcrlf.
  - (* both bytes of the terminator are there *)
    apply andb_true_iff in Hcrlf as [->%Z.eqb_eq Hlf%bool_decide_eq_true].
    destruct rest as [|lf rest]; [done|]. injection Hlf as ->.
    pose proof (take_snoc _ _ _ _ Hd1) as [Ht2 Hd2].
    assert (cursor b + 2 ≤ length (buffered b))%nat as Hc2.
    { apply (f_equal length) in Hd1. rewrite length_drop in Hd1. simpl in Hd1. lia. }
    replace (cursor b + 1 + 1)%nat with (cursor b + 2)%nat in * by lia.
    rewrite (bool_decide_false (_ :: _ = [])) by done. rewrite andb_false_r. cbn [andb].
    destruct Hst as [[Hls' Hst]|[Hls' ->]].
    + rewrite (proj2 (Nat.eqb_eq _ _) Hls').
      assert (scan_step st CR = (CrEmpty, true)) as E.
      { destruct Hst as [->|([-> | ->] & _)]; done. }
      rewrite E in Hw1. apply (walk_take _ _ _ _ _ _ _ Hd1) in Hw1. cbn in Hw1.
      replace (cursor b + 1 + 1)%nat with (cursor b + 2)%nat in * by lia.
      eapply cut_spec; [lia|done|by left].
    + rewrite (proj2 (Nat.eqb_neq _ _)) by lia.
      apply (walk_take _ _ _ _ _ _ _ Hd1) in Hw1. cbn in Hw1.
      replace (cursor b + 1 + 1)%nat with (cursor b + 2)%nat in * by lia. rewrite <-Ht2 in Hw1.
      rewrite <-Hd2. apply Hgo; [lia|]. split; [done|]. exists Start. split; [done|]. left.
      split; [done|by left].
  - rewrite andb_false_iff, bool_decide_eq_false in Hcrlf.
    destruct (cursor b =? line_start b)%nat eqn:Hls'.
    + (* the end of an empty line *)
      apply Nat.eqb_eq in Hls'. rewrite andb_false_r. destruct Hst as [[_ Hst]|[? _]]; [|lia].
      destruct Hnl as [->%Z.eqb_eq | ->%Z.eqb_eq].
      * assert (st = Start) as ->.
        { destruct Hst as [->|(_ & Hne & _)]; [done|]. by destruct Hne. }
        eapply cut_spec; [lia|done|by left].
      * assert (scan_step st CR = (CrEmpty, true)) as E.
        { destruct Hst as [->|([-> | ->] & _)]; done. }
        rewrite E in Hw1. eapply cut_spec; [lia|done|]. rewrite Hd1.
        change (CR =? CR) with true in *. cbn [andb fst].
        destruct (bool_decide (rest = []) && negb eof) eqn:Hf; [done|]. right.
        split_and!; [by right|by destruct Hcrlf|].
        destruct rest; [|by left]. right. by destruct eof.
    + (* the end of a line with something in it *)
      apply Nat.eqb_neq in Hls'. destruct Hst as [[? _]|[_ ->]]; [done|].
      destruct ((byte =? CR) && bool_decide (rest = []) && negb eof && negb false) eqn:Hf.
      * rewrite !andb_true_iff in Hf. destruct Hf as [[[->%Z.eqb_eq Hf%bool_decide_eq_true] _] _].
        rewrite Hf in Hd1. split_and!; [done..|]. cbn in Hw1.
        assert (take (cursor b + 1) (buffered b) = buffered b) as E.
        { apply take_ge. apply (f_equal length) in Hd1. rewrite length_drop in Hd1. simpl in Hd1. lia. }
        unfold held. rewrite E in Hw1. by rewrite Hw1.
      * rewrite <-Hd1. apply Hgo; [lia|]. split; [done|]. cbn. rewrite Hd1.
        destruct Hnl as [->%Z.eqb_eq | ->%Z.eqb_eq]; cbn in Hw1.
        -- exists Start. split; [done|]. left. split; [done|by left].
        -- change (CR =? CR) with true in *. exists CrMid. split; [done|]. left. split; [done|]. right.
           split_and!; [by left|by destruct Hcrlf|]. destruct rest; [|by left]. right. by destruct eof.
Qed.

Lemma take_event_spec eof (e : bytes) b :
  tracked e eof b → event_spec e eof b (take_event eof b).
Proof.
  intros Ht. unfold take_event. destruct (pending_lf b) eqn:Hp.
  2: { by eapply scan_spec. }
  pose proof Ht as Ht'. unfold tracked in Ht. rewrite Hp in Ht. destruct Ht as (Hc & Hl & Hw).
  destruct (bool_decide (buffered b = []) && negb eof) eqn:Hb.
  { apply andb_true_iff in Hb as [Hb%bool_decide_eq_true _].
    split_and!; [done..|]. unfold held. by rewrite Hb, app_nil_r, Hw. }
  set (b0 := mkBuffer (buffered b) (cursor b) (line_start b) false).
  assert (head (buffered b) ≠ Some LF → event_spec e eof b (scan_from eof b0)) as Hscan.
  { intros Hlf. apply (scan_spec eof e _ b0 eq_refl eq_refl). unfold b0, tracked. cbn.
    rewrite Hc, Hl, drop_0, app_nil_r. split; [lia|]. exists CrEmpty. split; [done|]. left.
    split; [done|]. right. split_and!; [by right|done|].
    destruct (buffered b); [|by left]. right. by destruct eof. }
  assert (buffered b0 = buffered b ∧ cursor b0 = 0%nat ∧ line_start b0 = 0%nat) as (Eb & Ec & El) by done.
  clearbody b0. unfold scan_from in Hscan. rewrite <-Eb in Hscan.
  destruct (buffered b0) as [|byte rest]; [by apply Hscan|].
  destruct (byte =? LF) eqn:Hbyte; [|by apply Hscan; intros [= ->]].
  apply Z.eqb_eq in Hbyte as ->. rewrite Ec, El. unfold event_spec. rewrite <-Eb.
  assert (walk Start [] (e ++ [LF]) = (Start, [])) as Hw' by by rewrite walk_app, Hw.
  split_and!; [done..|by unfold held; rewrite Hw'|]. eapply tracked_event; [done|by left].
Qed.

Lemma tracked_extend e b chunk : tracked e false b → tracked e false (extend chunk b).
Proof.
  unfold tracked, extend. cbn. destruct (pending_lf b); [done|]. intros (Hc & st & Hw & Hst).
  rewrite length_app, take_app_le, drop_app_le by lia. split; [lia|]. exists st. split; [done|].
  destruct Hst as [[? [->|(? & Hh & [Hr|?])]]|?]; [left; split; [done|by left]| |done|by right].
  left. split; [done|]. right. split_and!; [done| |left].
  - by destruct (drop _ _).
  - intros [? ?]%app_nil. done.
Qed.

Lemma tracked_eof e b : tracked e false b → tracked e true b.
Proof.
  unfold tracked. destruct (pending_lf b); [done|]. intros (Hc & st & Hw & Hst). split; [done|].
  exists st. split; [done|]. destruct Hst as [[? [->|(? & ? & ?)]]|?]; [left..|by right].
  - split; [done|by left].
  - split; [done|]. right. auto.
Qed.

(** ** The framed stream *)

(** What the source delivers, and the error that ends it. *)
Fixpoint received (source : list Chunk) : bytes :=
  match source with Ok chunk :: source => chunk ++ received source | _ => [] end.
Fixpoint ending (source : list Chunk) : option StreamError :=
  match source with
  | Ok _ :: source => ending source
  | Err error :: _ => Some error
  | [] => None
  end.

Definition frames_left (s : FrameState) : bytes :=
  buffered (buffer s) ++ (if at_eof s then [] else received (source s)).
Definition frames_ending (s : FrameState) : option StreamError :=
  if at_eof s then pending_error s else ending (source s).

Section FrameProofs.
Context {serde : Serde} (require_terminal : bool).

Definition terminates (event : bytes) : bool := require_terminal && is_sse_terminal_event event.

(** The state of a stream that has emitted [e] and not ended. *)
Definition framing (e : bytes) (s : FrameState) : Prop :=
  done s = false ∧ tracked e (at_eof s) (buffer s) ∧ (at_eof s = false → pending_error s = None).

(** Why a stream fails with [x] when [left_] is left: it is the error of the source, with an
    unfinished event; the source ended in an event; an event is too long; or the source
    ended without the terminal event. *)
Definition fails (e left_ : bytes) (source_error : option StreamError) (x : StreamError) : Prop :=
  (source_error = Some x ∧ held (e ++ left_) = left_)
  ∨ (x = StreamError.Incomplete ∧ source_error = None ∧ held (e ++ left_) = left_ ∧ left_ ≠ [])
  ∨ ((x = StreamError.Incomplete ∨ x = StreamError.SizeLimit)
     ∧ ∃ p, p `prefix_of` left_ ∧ (MAX_SSE_EVENT_BYTES < length p)%nat)
  ∨ (x = StreamError.MissingTerminal ∧ require_terminal = true ∧ source_error = None ∧ left_ = []).

Definition pull_spec (e : bytes) (s : FrameState) (r : option (Chunk * FrameState)) : Prop :=
  match r with
  | Some (Ok event, s') =>
      event ≠ [] ∧ (length event ≤ MAX_SSE_EVENT_BYTES)%nat ∧ done s' = terminates event
      ∧ frames_left s = event ++ frames_left s' ∧ frames_ending s' = frames_ending s
      ∧ held (e ++ event) = [] ∧ tracked (e ++ event) (at_eof s') (buffer s')
      ∧ (at_eof s' = false → pending_error s' = None)
  | Some (Err x, s') => done s' = true ∧ fails e (frames_left s) (frames_ending s) x
  | None => require_terminal = false ∧ frames_ending s = None ∧ frames_left s = []
  end.

Lemma turn_spec e source b (eof : bool) pending :
  tracked e eof b → (eof = false → pending = None) →
  match frame_turn require_terminal source b eof pending with
  | inl r => pull_spec e (mkFrames source b eof false pending) r
  | inr b' => eof = false ∧ tracked e false b' ∧ buffered b' = buffered b
  end.
Proof.
  intros Ht Hpe. unfold frame_turn. pose proof (take_event_spec eof e b Ht) as H.
  destruct (take_event eof b) as [[event|] b']; cbn in H.
  - destruct H as (Hb & Hne & Hh & Ht').
    destruct (MAX_SSE_EVENT_BYTES <? length event)%nat eqn:Hl.
    + apply Nat.ltb_lt in Hl. split; [done|]. right. right. left. split; [by right|].
      exists event. split; [|done]. unfold frames_left. cbn. rewrite Hb, <-app_assoc. by eexists.
    + apply Nat.ltb_ge in Hl. split_and!; try done. unfold frames_left. cbn.
      by rewrite Hb, <-app_assoc.
  - destruct H as (Hb & Ht' & Hh). destruct pending as [x|].
    { destruct eof; [|by specialize (Hpe eq_refl)]. cbn. split; [done|]. left.
      unfold frames_left. cbn. by rewrite app_nil_r. }
    rewrite Hb. destruct (MAX_SSE_EVENT_BYTES <? length (buffered b))%nat eqn:Hl; cbn [orb].
    { apply Nat.ltb_lt in Hl. split; [done|]. right. right. left. split; [by left|].
      exists (buffered b). split; [by eexists|done]. }
    destruct eof; cbn [andb].
    2: { done. }
    case_bool_decide as Hn; cbn [negb].
    + unfold pull_spec, frames_left, frames_ending. cbn. rewrite Hn.
      destruct require_terminal eqn:E; [|done]. split; [done|]. right. right. right. by split_and!.
    + split; [done|]. right. left. unfold frames_left, frames_ending. cbn. by rewrite app_nil_r.
Qed.

Lemma last_turn_spec e source b pending :
  tracked e true b →
  pull_spec e (mkFrames source b true false pending) (last_turn require_terminal source b pending).
Proof.
  intros Ht. unfold last_turn. pose proof (turn_spec e source b true pending Ht ltac:(done)) as H.
  destruct (frame_turn _ _ _ _ _); [done|]. by destruct H.
Qed.

(** The pull of a state with the same rest says the same. *)
Lemma pull_spec_same e s s' r :
  frames_left s = frames_left s' → frames_ending s = frames_ending s' →
  pull_spec e s r → pull_spec e s' r.
Proof. unfold pull_spec. by intros -> ->. Qed.

Lemma next_frame_spec e source : ∀ b,
  tracked e false b →
  pull_spec e (mkFrames source b false false None) (next_frame require_terminal source b).
Proof.
  induction source as [|[chunk|error] source IH]; intros b Ht; cbn [next_frame];
    pose proof (turn_spec e) as H.
  all: match goal with |- context [frame_turn ?q ?s ?b false None] =>
         specialize (H s b false None Ht ltac:(done)); destruct (frame_turn q s b false None) as [r|b'] end.
  all: try exact H. all: destruct H as (_ & Ht' & Hb).
  - eapply pull_spec_same; [| |by apply last_turn_spec, tracked_eof];
      unfold frames_left, frames_ending; cbn; by rewrite ?Hb.
  - eapply pull_spec_same; [| |by apply IH, tracked_extend];
      unfold frames_left, frames_ending; cbn; by rewrite ?Hb, <-?app_assoc.
  - eapply pull_spec_same; [| |by apply last_turn_spec, tracked_eof];
      unfold frames_left, frames_ending; cbn; by rewrite ?Hb.
Qed.

Lemma frame_pull_spec e s :
  framing e s → pull_spec e s (frame_pull require_terminal s).
Proof.
  intros (Hd & Ht & Hp). unfold frame_pull. rewrite Hd.
  destruct s as [source b [] d pending]; cbn in *; subst.
  - eapply pull_spec_same; [| |by apply last_turn_spec]; done.
  - rewrite (Hp eq_refl). by apply next_frame_spec.
Qed.

(** How a framed stream ends after the events [events], with [left_] not emitted: with the
    terminal event, with the clean end of a stream that needs none, or with an error. *)
Definition ends (e : bytes) (events : list bytes) (left_ : bytes) (source_error : option StreamError)
    (tail : list Chunk) : Prop :=
  match tail with
  | [] => (∃ event, last events = Some event ∧ terminates event = true)
          ∨ (require_terminal = false ∧ source_error = None ∧ left_ = [])
  | [Err x] => fails (e ++ concat events) left_ source_error x
  | _ => False
  end.

(** Every event but the last is not terminal. *)
Definition whole_events (e : bytes) (events : list bytes) : Prop :=
  Forall (fun event => event ≠ [] ∧ (length event ≤ MAX_SSE_EVENT_BYTES)%nat) events
  ∧ Forall (fun event => terminates event = false) (removelast events)
  ∧ ∀ p, p `prefix_of` events → p ≠ [] → held (e ++ concat p) = [].

Lemma whole_events_nil e : whole_events e [].
Proof. split_and!; [constructor..|]. by intros p ->%prefix_nil_inv. Qed.

Lemma frames_done n s : done s = true → frames require_terminal n s = [].
Proof. destruct n; [done|]. cbn. unfold frame_pull. by intros ->. Qed.

Lemma frames_spec (n : nat) : ∀ e s,
  framing e s → (length (frames_left s) < n)%nat →
  ∃ events left_ tail, frames require_terminal n s = (Ok <$> events) ++ tail
    ∧ frames_left s = concat events ++ left_
    ∧ whole_events e events ∧ ends e events left_ (frames_ending s) tail.
Proof.
  induction n as [|n IH]; intros e s Hs Hn; [lia|]. cbn [frames].
  pose proof (frame_pull_spec e s Hs) as H. destruct (frame_pull require_terminal s) as [[[event|x] s']|].
  - destruct H as (Hne & Hlen & Hd & Hl & He & Hh & Ht & Hp).
    unfold whole_events. destruct (terminates event) eqn:Hterm.
    + exists [event], (frames_left s'), []. rewrite frames_done by done.
      split_and!; [done|cbn; by rewrite app_nil_r|by apply Forall_singleton|constructor| |].
      * intros p Hpre Hnil. destruct p as [|a p]; [done|]. apply prefix_cons_inv_1 in Hpre as Ha.
        apply prefix_cons_inv_2, prefix_nil_inv in Hpre as ->. cbn. by rewrite app_nil_r, Ha.
      * left. by exists event.
    + destruct (IH (e ++ event) s') as (events & left_ & tail & Hf & Hl' & (Hw1 & Hw2 & Hw3) & Hend).
      { by split_and!. }
      { rewrite Hl, length_app in Hn. destruct event; [done|]. simpl in Hn. lia. }
      exists (event :: events), left_, tail. rewrite Hf. split_and!.
      * done.
      * rewrite Hl, Hl'. cbn. by rewrite <-app_assoc.
      * by constructor.
      * destruct events; [constructor|]. by apply Forall_cons_2.
      * intros p Hpre Hnil. destruct p as [|a p]; [done|]. apply prefix_cons_inv_1 in Hpre as Ha.
        apply prefix_cons_inv_2 in Hpre. subst a. cbn. destruct p; [cbn; by rewrite app_nil_r|].
        rewrite app_assoc. by apply Hw3.
      * rewrite He in Hend. unfold ends in *. cbn. rewrite app_assoc. destruct tail; [|done].
        destruct Hend as [(ev & Hl'' & ?)|?]; [left|by right]. exists ev. split; [|done].
        destruct events; [done|]. exact Hl''.
  - destruct H as [Hd Hf]. exists [], (frames_left s), [Err x]. rewrite frames_done by done.
    split_and!; [done|done|by apply whole_events_nil|]. unfold ends. cbn. by rewrite app_nil_r.
  - destruct H as (Hr & He & Hl). exists [], [], []. split_and!; [done|by rewrite Hl|by apply whole_events_nil|].
    right. by rewrite He.
Qed.

End FrameProofs.

(** ** The delivered body *)

Section BodyProofs.
Context {serde : Serde} (require_terminal : bool).

Definition error_payload (x : StreamError) : bytes :=
  match x with
  | StreamError.IdleTimeout => TIMEOUT_EVENT
  | StreamError.Incomplete | StreamError.MissingTerminal => INCOMPLETE_EVENT
  | _ => FAILED_EVENT
  end.

(** An item that ends the body gives the permit back and leaves a failure for the metrics. *)
Lemma response_next_releases is_sse interrupted s item s' :
  response_next is_sse interrupted s = Some (item, s') →
  (finished s' = true ∧ has_permit s' = false ∧ is_some (noted_failure s') = true)
  ∨ (finished s' = false ∧ has_permit s' = has_permit s ∧ ∃ chunk, item = Ok chunk).
Proof.
  unfold response_next, last_item.
  destruct (finished s); [done|]. destruct interrupted; [by intros [= <- <-]; left|].
  destruct (source_pull (upstream s)) as [[[c|[]] u]|]; [|by intros [= <- <-]; left..|done].
  intros [= <- <-]. right. split_and!; [done..|by eexists].
Qed.

(** What is delivered of a framed stream: its events with the payload of its error, or the
    first of them and the payload of the interruption. *)
Lemma delivered_frames seen (n : nat) : ∀ k s permit failure events tail,
  frames require_terminal n s = (Ok <$> events) ++ tail →
  (tail = [] ∨ ∃ x, tail = [Err x]) →
  let out := delivered true seen n k (mkResponseStream (Framed require_terminal s) permit failure false) in
  (out = Ok <$> events ++ match tail with [Err x] => [error_payload x] | _ => [] end)
  ∨ ∃ j, (j ≤ length events)%nat ∧ out = Ok <$> take j events ++ [INTERRUPTED_EVENT]
        ∧ ∃ i, seen i = true.
Proof.
  induction n as [|n IH]; intros k s permit failure events tail Hf Htail; cbn [frames delivered] in *.
  { symmetry in Hf. apply app_nil in Hf as [Hf ->]. apply fmap_nil_inv in Hf as ->. by left. }
  assert (∀ s, finished s = true → delivered true seen n (S k) s = []) as Hfin.
  { intros s0 H0. destruct n; [done|]. cbn. unfold response_next. by rewrite H0. }
  unfold response_next. cbn [finished upstream source_pull]. destruct (seen k) eqn:Hseen.
  { right. exists 0%nat. cbn. rewrite Hfin by done. split_and!; [lia|done|by exists k]. }
  destruct (frame_pull require_terminal s) as [[[chunk|x] s']|] eqn:Hp; cbn.
  - destruct events as [|event events].
    { cbn in Hf. destruct Htail as [->|[x ->]]; done. }
    cbn in Hf. injection Hf as -> Hf.
    destruct (IH (S k) s' permit failure events tail Hf Htail) as [->|(j & Hj & -> & Hi)]; [by left|].
    right. exists (S j). cbn. split_and!; [lia|done|done].
  - destruct events as [|event events]; [|done]. cbn in Hf. destruct Htail as [->|[y ->]]; [done|].
    injection Hf as -> _. left. unfold last_item.
    destruct y; cbn; by rewrite Hfin.
  - symmetry in Hf. apply app_nil in Hf as [Hf ->]. apply fmap_nil_inv in Hf as ->. by left.
Qed.

(** Only the data of this stream: [frames_spec] from its start. *)
Lemma stream_frames chunks (n : nat) :
  (length (received chunks) < n)%nat →
  ∃ events left_ tail, frames require_terminal n (frame_start chunks) = (Ok <$> events) ++ tail
    ∧ received chunks = concat events ++ left_ ∧ held (concat events) = []
    ∧ whole_events require_terminal [] events
    ∧ ends require_terminal [] events left_ (ending chunks) tail.
Proof.
  intros Hn. destruct (frames_spec require_terminal n [] (frame_start chunks))
    as (events & left_ & tail & Hf & Hl & Hw & Hend); [|done|].
  { split_and!; [done| |done]. split; [done|]. exists Start. split; [done|]. left.
    split; [done|by left]. }
  exists events, left_, tail. split_and!; [done..| |done|done].
  destruct Hw as (_ & _ & Hh). destruct events; [done|by apply (Hh (_ :: _))].
Qed.


(** The delivered body consists of whole events and, unless it ends well, one event that
    tells the error. *)
Lemma delivered_sound chunks seen (n : nat) :
  (length (received chunks) < n)%nat →
  let out := delivered true seen n 0
    (mkResponseStream (Framed require_terminal (frame_start chunks)) true None false) in
  ∃ events left_ tail, out = Ok <$> events ++ tail
    ∧ received chunks = concat events ++ left_ ∧ held (concat events) = []
    ∧ Forall (fun event => (length event ≤ MAX_SSE_EVENT_BYTES)%nat) events
    ∧ match tail with
      | [] => (∃ event, last events = Some event ∧ terminates require_terminal event = true)
              ∨ (require_terminal = false ∧ ending chunks = None ∧ left_ = [])
      | [payload] =>
          (payload = INTERRUPTED_EVENT ∧ ∃ i, seen i = true)
          ∨ ∃ x, payload = error_payload x
              ∧ fails require_terminal (concat events) left_ (ending chunks) x
      | _ => False
      end.
Proof.
  intros Hn out.
  destruct (stream_frames chunks n Hn) as (events & left_ & tail & Hf & Hl & Hh & Hw & Hend).
  assert (tail = [] ∨ ∃ x, tail = [Err x]) as Htail.
  { destruct tail as [|[|x] [|]]; try done; [by left|right; by eexists]. }
  destruct Hw as (Hw & _ & Hp).
  assert (Forall (fun event => (length event ≤ MAX_SSE_EVENT_BYTES)%nat) events) as Hlen.
  { eapply Forall_impl; [exact Hw|]. by intros ? []. }
  destruct (delivered_frames seen n 0 _ true None events tail Hf Htail) as [Ho|(j & Hj & Ho & Hi)].
  - exists events, left_, (match tail with [Err x] => [error_payload x] | _ => [] end).
    split_and!; [exact Ho|done..|]. destruct tail as [|[|x] [|]]; try done. right. by exists x.
  - exists (take j events), (concat (drop j events) ++ left_), [INTERRUPTED_EVENT].
    split_and!; [exact Ho| | |by apply Forall_take|by left].
    + by rewrite app_assoc, <-concat_app, take_drop.
    + destruct (take j events) as [|a l] eqn:E; [done|]. rewrite <-E.
      apply (Hp (take j events)); [exists (drop j events); by rewrite take_drop|by rewrite E].
Qed.

End BodyProofs.

(** ** Concrete runs *)

Module DemoSse.

Definition nl : bytes := [CR; LF].
(** A completion whose terminators are cut by the chunks. *)
Definition chunks : list Chunk :=
  [Ok (str "data: a" ++ nl ++ [CR]); Ok ([LF] ++ str "data: [DO"); Ok (str "NE]" ++ [LF; LF] ++ str "late")].

Definition body (seen : nat → bool) (chunks : list Chunk) : list Chunk :=
  delivered (serde := printing_serde) true seen 60 0
    (mkResponseStream (Framed true (frame_start chunks)) true None false).

Example whole : body (fun _ => false) chunks
  = Ok <$> [str "data: a" ++ nl ++ [CR]; [LF]; str "data: [DONE]" ++ [LF; LF]].
Proof. vm_compute. reflexivity. Qed.

(** The upstream fails within an event: the half event is not shown. *)
Example cut_off : body (fun _ => false) [Ok (str "data: a" ++ [LF; LF] ++ str "data: b"); Err StreamError.Transport]
  = Ok <$> [str "data: a" ++ [LF; LF]; FAILED_EVENT].
Proof. vm_compute. reflexivity. Qed.

(** An interruption after the terminal event still adds an error event. *)
Example error_after_done : body (fun k => (3 <=? k)%nat) chunks
  = Ok <$> [str "data: a" ++ nl ++ [CR]; [LF]; str "data: [DONE]" ++ [LF; LF]; INTERRUPTED_EVENT].
Proof. vm_compute. reflexivity. Qed.

End DemoSse.

Section sse_witnesses.


End sse_witnesses.
