(* ===== verification/Headers.v ===== *)
(** * Headers of the proxy: [src/src/proxy.rs, error.rs]

    The headers that go to an upstream and come back from it, the authentication of the
    peer's ingress and the proxy's own error answers.  A [HeaderMap] is the list of its
    entries; what text a header value may hold is the interface [HeaderText]. *)

From S2P Require Import Prelude Bytes Utf8 Text Json Auth Command Catalog.
From S2P Require Sse.

(** [HeaderValue]: which texts and bytes make a value, and which values are texts. *)
Class HeaderText := {
  from_str_ok : bytes → bool;
  from_bytes_ok : bytes → bool;
  is_text : bytes → bool;
}.

(** What is made from a text is read back as that text, and is made of valid bytes. *)
Class HeaderTextLaws `{HeaderText} : Prop := {
  from_str_is_text s : from_str_ok s = true → is_text s = true;
}.

Notation HeaderMap := (list (bytes * bytes)).

Section Map.
Context {headers : HeaderText}.

(** [HeaderValue::to_str]. *)
Definition to_str (v : bytes) : option bytes := if is_text v then Some v else None.

(** [headers.get(name)]: the first value. *)
Definition header_get (name : bytes) (h : HeaderMap) : option bytes :=
  snd <$> List.find (fun e => bool_decide (e.1 = name)) h.
(** [headers.get_all(name)]. *)
Definition header_get_all (name : bytes) (h : HeaderMap) : list bytes :=
  snd <$> List.filter (fun e => bool_decide (e.1 = name)) h.
Definition header_remove (name : bytes) (h : HeaderMap) : HeaderMap :=
  List.filter (fun e => negb (bool_decide (e.1 = name))) h.
(** [headers.insert(name, value)] replaces all values; [append] adds one. *)
Definition header_insert (name value : bytes) (h : HeaderMap) : HeaderMap :=
  header_remove name h ++ [(name, value)].
Definition header_append (name value : bytes) (h : HeaderMap) : HeaderMap := h ++ [(name, value)].

Definition header_text (name : string) (h : HeaderMap) : option bytes :=
  header_get (str name) h ≫= to_str.

End Map.

(** ** Errors *)

Module ProxyError.

(** src/src/error.rs:9-25 (ProxyError) *)
Inductive ProxyError :=
| NoBackendAvailable
| BodyTooLarge
| Connect
| ResponseHeaderTimeout
| FirstByteTimeout
| Protocol
| Internal.

End ProxyError.
Notation ProxyError := ProxyError.ProxyError.

Global Instance ProxyError_eq_dec : EqDecision ProxyError.
Proof. solve_decision. Defined.

(** src/src/error.rs:10-26 (ProxyError) *)
Definition error_message (self : ProxyError) : string :=
  match self with
  | ProxyError.NoBackendAvailable => "No DS4 backend is currently available"
  | ProxyError.BodyTooLarge => "request body is too large"
  | ProxyError.Connect => "upstream connection failed"
  | ProxyError.ResponseHeaderTimeout => "upstream DS4 backend timed out before returning response headers"
  | ProxyError.FirstByteTimeout => "upstream DS4 backend timed out before producing output"
  | ProxyError.Protocol => "upstream protocol error"
  | ProxyError.Internal => "internal state error"
  end.

(** src/src/error.rs:42-50 (ProxyError::status) *)
Definition error_status (self : ProxyError) : Z :=
  match self with
  | ProxyError.BodyTooLarge => 413
  | ProxyError.NoBackendAvailable => 503
  | ProxyError.Connect | ProxyError.Protocol => 502
  | ProxyError.ResponseHeaderTimeout | ProxyError.FirstByteTimeout => 504
  | ProxyError.Internal => 500
  end.

(** src/src/error.rs:52-62 (ProxyError::code) *)
Definition error_code (self : ProxyError) : string :=
  match self with
  | ProxyError.NoBackendAvailable => "no_backend_available"
  | ProxyError.BodyTooLarge => "request_body_too_large"
  | ProxyError.Connect => "upstream_connect_failed"
  | ProxyError.ResponseHeaderTimeout => "response_header_timeout"
  | ProxyError.FirstByteTimeout => "first_body_byte_timeout"
  | ProxyError.Protocol => "upstream_protocol_error"
  | ProxyError.Internal => "internal_state_error"
  end.

(** src/src/error.rs:64-72 (ProxyError::error_type) *)
Definition error_type (self : ProxyError) : string :=
  let status := error_status self in
  if (status =? 400) || (status =? 413) then "invalid_request_error"
  else if status =? 503 then "service_unavailable"
  else if status =? 502 then "upstream_error"
  else if status =? 504 then "upstream_timeout"
  else "internal_error".

(** The envelope; [request_id] must be text.
    src/src/error.rs:28-40 (ErrorEnvelope) *)
Definition error_envelope (self : ProxyError) (request_id : bytes) : Value :=
  Value.Object [("error", Value.Object
    [("message", jstr (error_message self)); ("type", jstr (error_type self));
     ("code", jstr (error_code self)); ("request_id", Value.String request_id)])]%string.

(** An answer of the proxy itself. *)
Record OwnResponse := mkOwn { own_status : Z; own_headers : HeaderMap; own_body : bytes }.

Module PeerIngressError.

(** src/src/proxy.rs:343-350 (PeerIngressError) *)
Inductive PeerIngressError :=
| InvalidTokenConfiguration | MissingSecurityConfiguration | WrongSource | InvalidToken | InvalidHop.

End PeerIngressError.
Notation PeerIngressError := PeerIngressError.PeerIngressError.

Section Upstream.
Context {serde : Serde} {headers : HeaderText} {texts : Texts}.

(** src/src/proxy.rs:296-300 (insert_request_id) *)
Definition insert_request_id (request_id : bytes) (h : HeaderMap) : HeaderMap :=
  if from_str_ok request_id then header_insert (str "x-request-id") request_id h else h.

(** src/src/error.rs:74-98 (ProxyError::response) *)
Definition error_response (self : ProxyError) (request_id : bytes) : OwnResponse :=
  let h := [(str "content-type", str "application/json")] in
  let h := if bool_decide (self = ProxyError.NoBackendAvailable)
           then header_insert (str "retry-after") (str "5") h else h in
  mkOwn (error_status self) (insert_request_id request_id h)
    (to_string (error_envelope self request_id)).

(** ** Hop-by-hop headers *)

(** [s.to_ascii_lowercase()]. *)
Definition to_ascii_lowercase (s : bytes) : bytes :=
  map ascii_lower s.

(** src/src/proxy.rs:241-249 (connection_header_tokens) *)
Definition connection_header_tokens (h : HeaderMap) : list bytes :=
  flat_map (fun value => (fun token => to_ascii_lowercase (trim token)) <$> split (str ",") value)
    (omap to_str (header_get_all (str "connection") h)).

(** src/src/proxy.rs:251-264 (is_hop_by_hop) *)
Definition is_hop_by_hop (name : bytes) (connection_tokens : list bytes) : bool :=
  bool_decide (name ∈ connection_tokens)
  || bool_decide (name ∈ str <$> ["connection"; "keep-alive"; "proxy-authenticate";
       "proxy-authorization"; "te"; "trailer"; "transfer-encoding"; "upgrade"]%string).

(** src/src/proxy.rs:266-283 (append_forwarded) *)
Definition append_forwarded (name : string) (value : bytes) (h : HeaderMap) : result HeaderMap ProxyError :=
  let combined := match header_text name h with
                  | Some existing => existing ++ str ", " ++ value
                  | None => value
                  end in
  (let? _ := ensure (from_str_ok combined) ProxyError.Internal in
   Ok (header_insert (str name) combined h))%rust.

(** [scheme] is [uri.scheme_str()].
    src/src/proxy.rs:202-230 (build_upstream_headers) *)
Definition build_upstream_headers (incoming : HeaderMap) (peer : IpAddr) (scheme : option bytes)
    (request_id : bytes) : result HeaderMap ProxyError :=
  let connection_tokens := connection_header_tokens incoming in
  let output := List.filter (fun e => negb (is_hop_by_hop e.1 connection_tokens)
                                      && negb (bool_decide (e.1 = str "host"))) incoming in
  (let? output := append_forwarded "x-forwarded-for" (ip_to_string peer) output in
   let output := match header_get (str "host") incoming with
                 | Some host => header_insert (str "x-forwarded-host") host output
                 | None => output
                 end in
   let? output :=
     if is_some (header_get (str "x-forwarded-proto") output) then Ok output
     else let protocol := default (str "http") scheme in
          let? _ := ensure (from_str_ok protocol) ProxyError.Internal in
          Ok (header_insert (str "x-forwarded-proto") protocol output) in
   let? output := append_forwarded "via" (str "1.1 siderostat") output in
   Ok (insert_request_id request_id output))%rust.

(** src/src/proxy.rs:232-239 (copy_response_headers) *)
Definition copy_response_headers (source destination : HeaderMap) : HeaderMap :=
  let connection_tokens := connection_header_tokens source in
  destination ++ List.filter (fun e => negb (is_hop_by_hop e.1 connection_tokens)) source.

(** [fresh] is a new [Uuid], simple.
    src/src/proxy.rs:285-294 (request_id) *)
Definition request_id (fresh : bytes) (h : HeaderMap) : bytes :=
  match header_text "x-request-id" h with
  | Some value =>
      if negb (bool_decide (value = [])) && (length value <=? 128)%nat
         && negb (existsb is_control (chars value))
      then value else str "req_" ++ fresh
  | None => str "req_" ++ fresh
  end.

(** ** The peer's ingress *)

Inductive ProxyIngress := Public | Peer.
Global Instance ProxyIngress_eq_dec : EqDecision ProxyIngress.
Proof. solve_decision. Defined.

(** src/src/proxy.rs:312-312 (PeerProxyToken) *)
Definition PeerProxyToken := bytes.

(** src/src/proxy.rs:315-328 (PeerProxyToken::new) *)
Definition peer_token_new (secret : bytes) : result PeerProxyToken PeerIngressError :=
  if (length secret <? 32)%nat then Err PeerIngressError.InvalidTokenConfiguration
  else Ok (encode_lower_hex secret).

(** src/src/proxy.rs:352-356 (PeerProxySecurity) *)
Record PeerProxySecurity := mkSecurity { token : PeerProxyToken; expected_source : IpAddr }.

(** src/src/proxy.rs:359-379 (PeerProxySecurity::verify) *)
Definition verify_peer (self : PeerProxySecurity) (source : IpAddr) (h : HeaderMap)
    : result unit PeerIngressError :=
  (let? _ := ensure (bool_decide (source = expected_source self)) PeerIngressError.WrongSource in
   let? _ := ensure (bool_decide (header_text "x-ds4-proxy-hop" h = Some (str "1")))
               PeerIngressError.InvalidHop in
   let? supplied := ok_or (header_get (str "x-ds4-peer-proxy-token") h) PeerIngressError.InvalidToken in
   ensure (bool_decide (supplied = token self)) PeerIngressError.InvalidToken)%rust.

(** src/src/proxy.rs:862-890 (build_mode_aware_headers) *)
Definition build_mode_aware_headers (incoming : HeaderMap) (scheme : option bytes) (request_id : bytes)
    (ingress : ProxyIngress) (peer : IpAddr) (peer_security : option PeerProxySecurity)
    : result HeaderMap ProxyError :=
  (let? h := build_upstream_headers incoming peer scheme request_id in
   let h := header_remove (str "x-ds4-proxy-hop") (header_remove (str "x-ds4-peer-proxy-token") h) in
   let h := List.filter (fun e => negb (is_some (strip_prefix (str "x-ds4-cluster-") e.1))) h in
   match ingress, peer_security with
   | Public, Some security =>
       let? _ := ensure (from_bytes_ok (token security)) ProxyError.Internal in
       Ok (header_insert (str "x-ds4-proxy-hop") (str "1")
             (header_insert (str "x-ds4-peer-proxy-token") (token security) h))
   | _, _ => Ok h
   end)%rust.

(** src/src/proxy.rs:620-631 (peer_ingress_rejection) *)
Definition peer_ingress_rejection (request_id : bytes) : OwnResponse :=
  mkOwn 401 (insert_request_id request_id [(str "content-type", str "application/json")])
    (Sse.json_quotes "{'error':{'message':'peer ingress authentication failed','type':'authentication_error','code':'peer_authentication_failed'}}").

End Upstream.

(** ** Lemmas on the map *)

Lemma header_get_remove name h : header_get name (header_remove name h) = None.
Proof.
  unfold header_get, header_remove. induction h as [|[n v] h IH]; [done|]. cbn.
  destruct (bool_decide (n = name)) eqn:E; cbn; [done|]. by rewrite E.
Qed.

Lemma header_get_app name h1 h2 :
  header_get name (h1 ++ h2)
  = match header_get name h1 with Some v => Some v | None => header_get name h2 end.
Proof.
  unfold header_get. induction h1 as [|[n v] h1 IH]; [done|]. cbn.
  by destruct (bool_decide (n = name)).
Qed.

Lemma header_get_insert name v h : header_get name (header_insert name v h) = Some v.
Proof.
  unfold header_insert. rewrite header_get_app, header_get_remove. unfold header_get. cbn.
  by rewrite bool_decide_true.
Qed.

Lemma header_get_remove_ne name other h :
  other ≠ name → header_get other (header_remove name h) = header_get other h.
Proof.
  intros Hne. unfold header_get, header_remove. induction h as [|[n v] h IH]; [done|]. cbn.
  destruct (bool_decide (n = name)) eqn:E; cbn.
  - apply bool_decide_eq_true in E as ->. by rewrite (bool_decide_false (name = other)) by done.
  - by destruct (bool_decide (n = other)).
Qed.

Lemma header_get_insert_ne name other v h :
  other ≠ name → header_get other (header_insert name v h) = header_get other h.
Proof.
  intros Hne. unfold header_insert. rewrite header_get_app, header_get_remove_ne by done.
  destruct (header_get other h); [done|]. unfold header_get. cbn.
  by rewrite bool_decide_false by congruence.
Qed.

Lemma header_get_filter_none name f h :
  (∀ v, f (name, v) = false) → header_get name (List.filter f h) = None.
Proof.
  intros Hf. unfold header_get. induction h as [|[n v] h IH]; [done|]. cbn.
  destruct (f (n, v)) eqn:E; [|done]. cbn. case_bool_decide; [|done]. subst. by rewrite Hf in E.
Qed.

Lemma elem_of_header_insert e name v h :
  e ∈ header_insert name v h → e = (name, v) ∨ e ∈ h ∧ e.1 ≠ name.
Proof.
  unfold header_insert, header_remove. intros [H|H]%elem_of_app.
  - rewrite list_elem_of_In, filter_In, <-list_elem_of_In, negb_true_iff, bool_decide_eq_false in H.
    by right.
  - left. by apply list_elem_of_singleton in H.
Qed.

Lemma elem_of_filter_bool {A} (f : A → bool) x l : x ∈ List.filter f l ↔ x ∈ l ∧ f x = true.
Proof. by rewrite !list_elem_of_In, filter_In. Qed.

(** ** What goes upstream *)

Definition TOKEN_HEADER : bytes := str "x-ds4-peer-proxy-token".
Definition HOP_HEADER : bytes := str "x-ds4-proxy-hop".

(** The headers the proxy writes itself. *)
Definition own_header_names : list bytes :=
  str <$> ["x-forwarded-for"; "x-forwarded-host"; "x-forwarded-proto"; "via"; "x-request-id"]%string.

Section UpstreamProofs.
Context {serde : Serde} {headers : HeaderText} {texts : Texts}.

Definition passed_on (incoming : HeaderMap) (e : bytes * bytes) : Prop :=
  e ∈ incoming ∧ is_hop_by_hop e.1 (connection_header_tokens incoming) = false ∧ e.1 ≠ str "host".

Lemma append_forwarded_elem name v h h' e :
  append_forwarded name v h = Ok h' → e ∈ h' → e.1 = str name ∨ e ∈ h.
Proof.
  unfold append_forwarded. intros H He.
  destruct (from_str_ok _); cbn [ensure result_bind] in H; [|done]. injection H as <-.
  apply elem_of_header_insert in He as [->|[? _]]; auto.
Qed.

Lemma build_upstream_elem incoming peer scheme rid h e :
  build_upstream_headers incoming peer scheme rid = Ok h → e ∈ h →
  e.1 ∈ own_header_names ∨ passed_on incoming e.
Proof.
  unfold build_upstream_headers. set (h0 := List.filter _ incoming). intros H He.
  assert (e ∈ h0 → passed_on incoming e) as H0.
  { intros [H1 H2]%elem_of_filter_bool. apply andb_true_iff in H2 as [H2 H3].
    apply negb_true_iff in H2, H3. apply bool_decide_eq_false in H3. done. }
  clearbody h0.
  destruct (append_forwarded "x-forwarded-for" _ h0) as [h1|] eqn:E1; cbn [ensure result_bind] in H; [|done].
  set (h2 := match header_get (str "host") incoming with
             | Some host => header_insert (str "x-forwarded-host") host h1 | None => h1 end) in H.
  assert (e ∈ h2 → e.1 ∈ own_header_names ∨ e ∈ h0) as H2.
  { intros He2. assert (e.1 = str "x-forwarded-host" ∨ e ∈ h1) as [->|He1].
    - unfold h2 in He2. destruct (header_get _ incoming); [|by right].
      apply elem_of_header_insert in He2 as [->|[? _]]; auto.
    - left. by do 1 right; left.
    - eapply append_forwarded_elem in He1 as [->|?]; [left; left|by right|exact E1]. }
  clearbody h2.
  set (r3 := if is_some (header_get (str "x-forwarded-proto") h2) then _ else _) in H.
  destruct r3 as [h3|] eqn:E3; cbn [ensure result_bind] in H; [|done]. unfold r3 in E3. clear r3.
  assert (e ∈ h3 → e.1 ∈ own_header_names ∨ e ∈ h0) as H3.
  { intros He3. destruct (is_some (header_get (str "x-forwarded-proto") h2)); [by simplify_eq; auto|].
    destruct (from_str_ok _); cbn [ensure result_bind] in E3; [|done]. injection E3 as <-.
    apply elem_of_header_insert in He3 as [->|[? _]]; [|by auto]. left. by do 2 right; left. }
  destruct (append_forwarded "via" _ h3) as [h4|] eqn:E4; cbn [ensure result_bind] in H; [|done].
  injection H as <-. unfold insert_request_id in He.
  assert (e.1 = str "x-request-id" ∨ e ∈ h4) as [->|He4].
  { destruct (from_str_ok rid); [|by right]. apply elem_of_header_insert in He as [->|[? _]]; auto. }
  - left. by do 4 right; left.
  - eapply append_forwarded_elem in He4 as [->|He3]; [left; by do 3 right; left| |exact E4].
    destruct (H3 He3); auto.
Qed.
(** The headers that are the cluster's own, which a client cannot send through. *)
Definition reserved_header (name : bytes) : bool :=
  bool_decide (name = TOKEN_HEADER) || bool_decide (name = HOP_HEADER)
  || is_some (strip_prefix (str "x-ds4-cluster-") name).

Lemma build_mode_aware_elem incoming scheme rid ingress peer security h name v :
  build_mode_aware_headers incoming scheme rid ingress peer security = Ok h → (name, v) ∈ h →
  name ∈ own_header_names
  ∨ (passed_on incoming (name, v) ∧ reserved_header name = false)
  ∨ (ingress = Public ∧ ∃ s, security = Some s
       ∧ ((name = TOKEN_HEADER ∧ v = token s) ∨ (name = HOP_HEADER ∧ v = str "1"))).
Proof.
  unfold build_mode_aware_headers. intros H He.
  destruct (build_upstream_headers incoming peer scheme rid) as [h0|] eqn:E0;
    cbn [result_bind] in H; [|done].
  set (h1 := List.filter _ _) in H.
  assert ((name, v) ∈ h1 → name ∈ own_header_names ∨ (passed_on incoming (name, v) ∧ reserved_header name = false))
    as H1.
  { intros [[[Hin Ht]%elem_of_filter_bool Hh]%elem_of_filter_bool Hc]%elem_of_filter_bool.
    cbn [fst] in Ht, Hh, Hc. apply negb_true_iff in Ht, Hh, Hc.
    destruct (build_upstream_elem _ _ _ _ _ _ E0 Hin) as [?|?]; [by left|right].
    split; [done|]. unfold reserved_header, TOKEN_HEADER, HOP_HEADER. by rewrite Ht, Hh, Hc. }
  clearbody h1.
  assert (Ok h1 = Ok (E := ProxyError) h → (name, v) ∈ h1) as Hsame by (intros [= ->]; done).
  destruct ingress, security as [s|]; [|destruct (H1 (Hsame H)); auto..].
  destruct (from_bytes_ok (token s)); cbn [ensure result_bind] in H; [|done]. injection H as <-.
  apply elem_of_header_insert in He as [[= -> ->]|[He _]]; [right; right; eauto 10|].
  apply elem_of_header_insert in He as [[= -> ->]|[He _]]; [right; right; eauto 10|].
  destruct (H1 He); auto.
Qed.


(** The two nodes agree on the peer's ingress: the headers with which a node forwards a
    public request to the coordinator are accepted there, from the expected address, exactly
    when both hold the same token; the headers of a request that came in from the peer are
    accepted nowhere, so a request is forwarded at most once. *)
Lemma peer_forward_once incoming scheme rid ingress peer security h (other : PeerProxySecurity) :
  is_text (str "1") = true →
  build_mode_aware_headers incoming scheme rid ingress peer security = Ok h →
  match ingress, security with
  | Public, Some s =>
      verify_peer other (expected_source other) h = Ok tt ↔ token other = token s
  | _, _ => ∀ source, is_ok (verify_peer other source h) = false
  end.
Proof.
  intros Htext. unfold build_mode_aware_headers. intros H.
  destruct (build_upstream_headers incoming peer scheme rid) as [h0|]; cbn [result_bind] in H; [|done].
  set (h1 := List.filter _ _) in H.
  assert (header_get HOP_HEADER h1 = None) as Hhop.
  { unfold h1, header_get. destruct (List.find _ _) as [[n v]|] eqn:E; [|done].
    apply List.find_some in E as [E1 E2]. apply bool_decide_eq_true in E2. cbn [fst] in E2. subst n.
    apply filter_In in E1 as [E1 _]. apply filter_In in E1 as [_ E1]. cbn [fst] in E1.
    by rewrite (bool_decide_true (HOP_HEADER = str "x-ds4-proxy-hop")) in E1. }
  clearbody h1.
  assert (Ok h1 = Ok (E := ProxyError) h → ∀ source, is_ok (verify_peer other source h) = false) as Hsame.
  { intros [= <-] source. unfold verify_peer, ensure, header_text.
    change (str "x-ds4-proxy-hop") with HOP_HEADER. rewrite Hhop. by destruct (bool_decide (source = _)). }
  destruct ingress, security as [s|]; [|by apply Hsame..].
  destruct (from_bytes_ok (token s)); cbn [ensure result_bind] in H; [|done]. injection H as <-.
  unfold verify_peer, ensure, header_text. rewrite bool_decide_true by done. cbn [result_bind].
  rewrite header_get_insert. unfold mbind, option_bind, to_str. rewrite Htext, bool_decide_true by done.
  cbn [result_bind].
  rewrite header_get_insert_ne, header_get_insert by done. cbn [ok_or result_bind].
  by case_bool_decide; split; congruence || done.
Qed.

End UpstreamProofs.

Module DemoHeaders.

(** The values that the program's own texts need: visible ASCII and tabs. *)
Definition visible (b : Z) : bool := ((32 <=? b) && (b <? 127)) || (b =? 9).
Definition ascii_headers : HeaderText := {|
  from_str_ok := forallb visible;
  from_bytes_ok := forallb (fun b => (32 <=? b) && negb (b =? 127) || (b =? 9));
  is_text := forallb visible;
|}.

Definition incoming : HeaderMap :=
  [(str "host", str "proxy"); (str "connection", str "keep-alive, X-Secret"); (str "x-secret", str "1");
   (str "x-ds4-peer-proxy-token", str "forged"); (str "x-ds4-cluster-node", str "forged");
   (str "x-forwarded-for", str "10.0.0.1"); (str "x-forwarded-for", str "10.0.0.2");
   (str "accept", str "*/*")].
Definition security : PeerProxySecurity := mkSecurity (str "0a0b") (IpAddr.V4 174260225).
Definition built := build_mode_aware_headers (headers := ascii_headers) (texts := DemoCommand.texts)
  incoming None (str "req_1") Public (IpAddr.V4 (127 * 2 ^ 24 + 1)) (Some security).

(** Of two forwarded-for headers only the first is kept. *)
Example forwarded : built = Ok (map (fun '(n, v) => (str n, str v))
  [("accept", "*/*"); ("x-forwarded-for", "10.0.0.1, 127.0.0.1"); ("x-forwarded-host", "proxy");
   ("x-forwarded-proto", "http"); ("via", "1.1 siderostat"); ("x-request-id", "req_1");
   ("x-ds4-peer-proxy-token", "0a0b"); ("x-ds4-proxy-hop", "1")]%string).
Proof. vm_compute. reflexivity. Qed.

End DemoHeaders.

Section header_witnesses.


Lemma peer_forward_once_witness :
  ∃ h, DemoHeaders.built = Ok h
  ∧ (verify_peer (headers := DemoHeaders.ascii_headers) DemoHeaders.security (IpAddr.V4 174260225) h = Ok tt
     ↔ token DemoHeaders.security = token DemoHeaders.security).
Proof.
  eexists. split; [vm_compute; reflexivity|].
  apply (peer_forward_once (headers := DemoHeaders.ascii_headers) (texts := DemoCommand.texts)
    DemoHeaders.incoming None (str "req_1") Public (IpAddr.V4 (127 * 2 ^ 24 + 1)) (Some DemoHeaders.security));
    vm_compute; reflexivity.
Defined.

End header_witnesses.
