(* ===== verification/Metrics.v ===== *)
(** * Metrics: [src/src/metrics.rs]

    The counters, gauges and progress values of the proxy and the text in which they are
    shown.  A time is in nanoseconds.  A floating-point sum is the exact sum of its addends;
    rounding is left out, and the text of a floating-point number is the interface [Texts]. *)

From stdpp Require Import sorting.
From Stdlib Require Import QArith_base.
From S2P Require Import Prelude Bytes Text Target Admission ClusterFsm Config Command.
Local Open Scope Z_scope.

(** ** Data *)

(** [as_secs_f64] and the addition of [f64], before rounding. *)
Definition as_secs_f64 (nanos : Z) : double := Finite (Qmake nanos 1000000000).
Definition double_zero : double := Finite 0.
Definition double_add (x y : double) : double :=
  match x, y with
  | Finite a, Finite b => Finite (Qplus a b)
  | NotANumber, _ | _, NotANumber => NotANumber
  | Infinity a, Infinity b => if Bool.eqb a b then Infinity a else NotANumber
  | Infinity a, _ | _, Infinity a => Infinity a
  end.

(** src/src/metrics.rs:16-20 (Summary) *)
Record Summary := mkSummary { sum : double; count : Z }.
Definition summary_default : Summary := mkSummary double_zero 0.

(** src/src/metrics.rs:22-27 (ProgressFreshness) *)
Record ProgressFreshness := mkFreshness {
  last_progress_at : option Z;
  last_tokens : option Z;
  token_delta : Z;
}.
Definition freshness_default : ProgressFreshness := mkFreshness None None 0.

(** src/src/metrics.rs:30-37 (ProgressFreshness::record) *)
Definition freshness_record (now tokens : Z) (self : ProgressFreshness) : ProgressFreshness :=
  mkFreshness (Some now) (Some tokens)
    (match last_tokens self with
     | Some previous => if previous <=? tokens then tokens - previous else tokens
     | None => tokens
     end).

(** In nanoseconds.  src/src/metrics.rs:39-47 (ProgressFreshness::age_seconds) *)
Definition age_seconds (now : Z) (active : bool) (self : ProgressFreshness) : Z :=
  if negb active then 0
  else match last_progress_at self with Some t => sat_sub now t | None => 0 end.

(** src/src/metrics.rs:49-51 (ProgressFreshness::observed) *)
Definition progress_seen (self : ProgressFreshness) : bool := is_some (last_progress_at self).

(** src/src/metrics.rs:79-88 (PrefillProgress) *)
Record PrefillProgress := mkPrefill {
  pp_current : Z; pp_total : Z; pp_percent : double; pp_cached : Z;
  pp_chunk_tps : double; pp_avg_tps : double; pp_elapsed_secs : double;
}.
Definition prefill_default : PrefillProgress :=
  mkPrefill 0 0 double_zero 0 double_zero double_zero double_zero.

(** The values of a generation: completion, chunk and average throughput, elapsed time. *)
Record GenerationProgress := mkGeneration {
  gp_completion : Z; gp_chunk_tps : double; gp_avg_tps : double; gp_elapsed_secs : double;
}.
Definition generation_default : GenerationProgress :=
  mkGeneration 0 double_zero double_zero double_zero.

(** [prefill] holds the seven fields of the last prefill progress, [generation] the four of
    the generation.
    src/src/metrics.rs:58-77 (Ds4MetricsState) *)
Record Ds4MetricsState := mkDs4 {
  prefill_active : bool;
  prefill : PrefillProgress;
  kv_cache_hits : Z;
  kv_cache_hit_tokens : Z;
  kv_cache_load_ms : double;
  generation_values : GenerationProgress;
  prefill_progress_at : ProgressFreshness;
  generation_progress_at : ProgressFreshness;
}.
Definition ds4_default : Ds4MetricsState :=
  mkDs4 false prefill_default 0 0 double_zero generation_default freshness_default freshness_default.

(** src/src/metrics.rs:134-142 (Metrics) *)
Record Metrics := mkMetrics {
  counters : gmap bytes Z;
  summaries : gmap bytes Summary;
  in_flight_gauges : gmap (bytes * bytes) Z;
  generation_in_flight : Z;
  generation_started_at : option Z;
  ds4 : Ds4MetricsState;
}.
Definition metrics_default : Metrics := mkMetrics ∅ ∅ ∅ 0 None ds4_default.

(** src/src/metrics.rs:144-157 (RequestMetricGuard) *)
Record RequestMetricGuard := mkGuard {
  g_ingress : bytes;
  g_target : bytes;
  g_started : Z;
  g_status : Z;
  g_ttfb : option Z;
  g_failure : option bytes;
  g_request_id : bytes;
  g_method : bytes;
  g_path_template : bytes;
  g_in_flight_before : Z;
  g_tracks_generation : bool;
}.

Definition set_counters x m := mkMetrics x (summaries m) (in_flight_gauges m)
  (generation_in_flight m) (generation_started_at m) (ds4 m).
Definition set_summaries x m := mkMetrics (counters m) x (in_flight_gauges m)
  (generation_in_flight m) (generation_started_at m) (ds4 m).
Definition set_gauges x m := mkMetrics (counters m) (summaries m) x
  (generation_in_flight m) (generation_started_at m) (ds4 m).
Definition set_generations n t m := mkMetrics (counters m) (summaries m) (in_flight_gauges m) n t (ds4 m).
Definition set_ds4 x m := mkMetrics (counters m) (summaries m) (in_flight_gauges m)
  (generation_in_flight m) (generation_started_at m) x.

(** ** Keys *)

(** src/src/metrics.rs:849-854 (escape_label) *)
Definition escape_label (value : bytes) : bytes :=
  replace [10] (str "\n") (replace [34] [92; 34] (replace [92] [92; 92] value)).

(** [format!] of one label. *)
Definition label_text (label : string * bytes) : bytes :=
  str label.1 ++ [61; 34] ++ escape_label label.2 ++ [34].

(** src/src/metrics.rs:837-847 (metric_key) *)
Definition metric_key (name : string) (labels : list (string * bytes)) : bytes :=
  match labels with
  | [] => str name
  | _ => str name ++ [123] ++ join_with [44] (label_text <$> labels) ++ [125]
  end.

(** src/src/metrics.rs:706-713 (Metrics::increment) *)
Definition increment (name : string) (labels : list (string * bytes)) (m : Metrics) : Metrics :=
  let key := metric_key name labels in
  set_counters (<[key := wrap64 (default 0 (counters m !! key) + 1)]> (counters m)) m.

(** src/src/metrics.rs:715-724 (Metrics::observe) *)
Definition observe (name : string) (labels : list (string * bytes)) (value : double) (m : Metrics)
    : Metrics :=
  let key := metric_key name labels in
  let s := default summary_default (summaries m !! key) in
  set_summaries (<[key := mkSummary (double_add (sum s) value) (wrap64 (count s + 1))]> (summaries m)) m.

(** ** Requests *)

(** src/src/metrics.rs:727-729 (is_generation_path) *)
Definition is_generation_path (path_template : bytes) : bool :=
  bool_decide (path_template = str "/v1/chat/completions" ∨ path_template = str "/v1/completions").

(** src/src/metrics.rs:160-207 (Metrics::begin_request) *)
Definition begin_request (now : Z) (ingress target request_id method path_template : bytes)
    (m : Metrics) : RequestMetricGuard * Metrics :=
  let key := (ingress, target) in
  let before := default 0 (in_flight_gauges m !! key) in
  let m := set_gauges (<[key := wrap64 (before + 1)]> (in_flight_gauges m)) m in
  let tracks := is_generation_path path_template in
  let m := if tracks then
             set_generations (wrap64 (generation_in_flight m + 1))
               (if generation_in_flight m =? 0 then Some now else generation_started_at m) m
           else m in
  (mkGuard ingress target now 500 None None request_id method path_template before tracks, m).

(** src/src/metrics.rs:732-734 (RequestMetricGuard::set_status) *)
Definition set_status (status : Z) (g : RequestMetricGuard) : RequestMetricGuard :=
  mkGuard (g_ingress g) (g_target g) (g_started g) status (g_ttfb g) (g_failure g) (g_request_id g)
    (g_method g) (g_path_template g) (g_in_flight_before g) (g_tracks_generation g).
(** src/src/metrics.rs:736-738 (RequestMetricGuard::set_ttfb) *)
Definition set_ttfb (nanos : Z) (g : RequestMetricGuard) : RequestMetricGuard :=
  mkGuard (g_ingress g) (g_target g) (g_started g) (g_status g) (Some nanos) (g_failure g)
    (g_request_id g) (g_method g) (g_path_template g) (g_in_flight_before g) (g_tracks_generation g).
(** src/src/metrics.rs:740-742 (RequestMetricGuard::set_failure) *)
Definition set_failure (failure : bytes) (g : RequestMetricGuard) : RequestMetricGuard :=
  mkGuard (g_ingress g) (g_target g) (g_started g) (g_status g) (g_ttfb g) (Some failure)
    (g_request_id g) (g_method g) (g_path_template g) (g_in_flight_before g) (g_tracks_generation g).

(** The accounts of a finished request, up to the release of the lock on the number of
    generations: the new state and whether the last generation has finished.
    src/src/metrics.rs:649-695 (Metrics::finish_request) *)
Definition finish_account (now : Z) (g : RequestMetricGuard) (m : Metrics) : Metrics * bool :=
  let m := increment "ds4_proxy_requests_total"
    [("ingress", g_ingress g); ("target", g_target g);
     ("status_class", (u64_to_string (g_status g / 100) ++ str "xx")%list)]%string m in
  let m := observe "ds4_proxy_request_duration_seconds" [("target"%string, g_target g)]
    (as_secs_f64 (now - g_started g)) m in
  let m := match g_ttfb g with
           | Some t => observe "ds4_proxy_time_to_first_byte_seconds" [("target"%string, g_target g)]
                         (as_secs_f64 t) m
           | None => m
           end in
  let m := match g_failure g with
           | Some reason => increment "ds4_proxy_upstream_failures_total"
                              [("target", g_target g); ("reason", reason)]%string m
           | None => m
           end in
  let m := set_gauges (alter (fun v => sat_sub v 1) (g_ingress g, g_target g) (in_flight_gauges m)) m in
  if g_tracks_generation g then
    let n := sat_sub (generation_in_flight m) 1 in
    (set_generations n (generation_started_at m) m, n =? 0)
  else (m, false).

(** src/src/metrics.rs:340-350 (Metrics::reset_generation) *)
Definition reset_generation (m : Metrics) : Metrics :=
  set_ds4 (mkDs4 (prefill_active (ds4 m)) (prefill (ds4 m)) (kv_cache_hits (ds4 m))
    (kv_cache_hit_tokens (ds4 m)) (kv_cache_load_ms (ds4 m)) generation_default
    (prefill_progress_at (ds4 m)) freshness_default) m.

(** What follows when the last generation has finished, under locks of its own.
    src/src/metrics.rs:696-702 (Metrics::finish_request) *)
Definition finish_reset (m : Metrics) : Metrics :=
  let m := reset_generation m in set_generations (generation_in_flight m) None m.

(** src/src/metrics.rs:649-704 (Metrics::finish_request) *)
Definition finish_request (now : Z) (g : RequestMetricGuard) (m : Metrics) : Metrics :=
  let '(m, last) := finish_account now g m in if (last : bool) then finish_reset m else m.

(** In nanoseconds.  src/src/metrics.rs:406-418 (Metrics::generation_active_age_secs) *)
Definition generation_active_age (now : Z) (m : Metrics) : option Z :=
  if 0 <? generation_in_flight m
  then Some (match generation_started_at m with Some t => sat_sub now t | None => 0 end)
  else None.

(** ** Events *)

(** src/src/cluster/state.rs:418-429 (transition_name) *)
Definition transition_name (from to : ClusterState) : string :=
  match from, to with
  | ClusterState.SoloStandaloneReady, ClusterState.Pairing => "pair"
  | ClusterState.PairedStandaloneReady, ClusterState.AwaitingWorkerHello
  | ClusterState.AwaitingWorkerHello, ClusterState.Promoting
  | ClusterState.Promoting, ClusterState.DistributedStarting
  | ClusterState.DistributedStarting, ClusterState.DistributedReady => "promote"
  | ClusterState.DistributedReady, ClusterState.Demoting
  | ClusterState.Demoting, ClusterState.PairedStandaloneReady => "demote"
  | _, _ => "reconcile"
  end.

(** src/src/metrics.rs:209-231 (Metrics::transition) *)
Definition note_transition (from to : ClusterState) (result reason : bytes) (seconds : double)
    (m : Metrics) : Metrics :=
  observe "ds4_proxy_cluster_transition_duration_seconds"
    [("transition"%string, str (transition_name from to))] seconds
    (increment "ds4_proxy_cluster_transitions_total"
      [("from", str (ClusterState_name from)); ("to", str (ClusterState_name to));
       ("result", result); ("reason", reason)]%string m).

(** src/src/metrics.rs:233-238 (Metrics::child_restart) *)
Definition note_child_restart (profile reason : bytes) : Metrics → Metrics :=
  increment "ds4_proxy_cluster_child_restarts_total" [("profile", profile); ("reason", reason)]%string.
(** src/src/metrics.rs:240-245 (Metrics::hello) *)
Definition note_hello (result reason : bytes) : Metrics → Metrics :=
  increment "ds4_proxy_cluster_hello_total" [("result", result); ("reason", reason)]%string.
(** src/src/metrics.rs:247-252 (Metrics::deployment_mismatch) *)
Definition note_deployment_mismatch (field : bytes) : Metrics → Metrics :=
  increment "ds4_proxy_cluster_deployment_mismatch_total" [("field"%string, field)].
(** src/src/metrics.rs:254-259 (Metrics::discovery_event) *)
Definition note_discovery (source result : bytes) : Metrics → Metrics :=
  increment "ds4_proxy_peer_discovery_events_total" [("source", source); ("result", result)]%string.
(** src/src/metrics.rs:284-289 (Metrics::recovery_event) *)
Definition note_recovery (event : string) (reason : bytes) : Metrics → Metrics :=
  increment "ds4_proxy_recovery_events_total" [("event", str event); ("reason", reason)]%string.
(** src/src/metrics.rs:261-263 (Metrics::recovery_started) *)
Definition recovery_started := note_recovery "started".
(** src/src/metrics.rs:265-267 (Metrics::recovery_completed) *)
Definition recovery_completed := note_recovery "completed".
(** src/src/metrics.rs:269-271 (Metrics::recovery_failed) *)
Definition recovery_failed := note_recovery "failed".
(** src/src/metrics.rs:273-275 (Metrics::recovery_suppressed) *)
Definition recovery_suppressed := note_recovery "suppressed".
(** src/src/metrics.rs:277-282 (Metrics::notification_suppressed) *)
Definition note_notification_suppressed (kind : bytes) : Metrics → Metrics :=
  increment "ds4_proxy_notification_events_total" [("event", str "suppressed"); ("kind", kind)]%string.

(** src/src/metrics.rs:293-308 (Metrics::prefill_progress) *)
Definition prefill_progress (now : Z) (p : PrefillProgress) (m : Metrics) : Metrics :=
  set_ds4 (mkDs4 (pp_current p <? pp_total p) p (kv_cache_hits (ds4 m)) (kv_cache_hit_tokens (ds4 m))
    (kv_cache_load_ms (ds4 m)) (generation_values (ds4 m))
    (freshness_record now (pp_current p) (prefill_progress_at (ds4 m)))
    (generation_progress_at (ds4 m))) m.

(** src/src/metrics.rs:311-319 (Metrics::kv_cache_hit) *)
Definition kv_cache_hit (tokens : Z) (load_ms : double) (m : Metrics) : Metrics :=
  set_ds4 (mkDs4 (prefill_active (ds4 m)) (prefill (ds4 m)) (sat_add64 (kv_cache_hits (ds4 m)) 1)
    tokens load_ms (generation_values (ds4 m)) (prefill_progress_at (ds4 m))
    (generation_progress_at (ds4 m))) m.

(** src/src/metrics.rs:322-338 (Metrics::generation_progress) *)
Definition generation_progress (now : Z) (p : GenerationProgress) (m : Metrics) : Metrics :=
  set_ds4 (mkDs4 (prefill_active (ds4 m)) (prefill (ds4 m)) (kv_cache_hits (ds4 m))
    (kv_cache_hit_tokens (ds4 m)) (kv_cache_load_ms (ds4 m)) p (prefill_progress_at (ds4 m))
    (freshness_record now (gp_completion p) (generation_progress_at (ds4 m)))) m.

(** ** Snapshots *)

(** [age] is in nanoseconds.
    src/src/metrics.rs:93-106 (ProgressDiagnosticSnapshot) *)
Record ProgressDiagnosticSnapshot := mkProgressSnapshot {
  s_active : bool;
  s_progress_observed : bool;
  s_current : option Z;
  s_total : option Z;
  s_percent : double;
  s_cached : option Z;
  s_chunk_tps : double;
  s_avg_tps : double;
  s_elapsed_secs : double;
  s_age : option Z;
  s_token_delta : Z;
}.

(** src/src/metrics.rs:126-132 (MetricsDiagnosticSnapshot) *)
Record MetricsDiagnosticSnapshot := mkDiagnostic {
  d_in_flight : Z;
  d_generation_in_flight : Z;
  d_prefill : ProgressDiagnosticSnapshot;
  d_generation : ProgressDiagnosticSnapshot;
}.

Definition active_age (now : Z) (active : bool) (f : ProgressFreshness) : option Z :=
  if active then Some (age_seconds now true f) else None.

(** The sum of the gauges wraps in a release build.
    src/src/metrics.rs:354-404 (Metrics::diagnostic_snapshot) *)
Definition diagnostic_snapshot (now : Z) (m : Metrics) : MetricsDiagnosticSnapshot :=
  let p := prefill (ds4 m) in
  let g := generation_values (ds4 m) in
  let generating := 0 <? generation_in_flight m in
  mkDiagnostic (wrap64 (foldr Z.add 0 (map_to_list (in_flight_gauges m)).*2)) (generation_in_flight m)
    (mkProgressSnapshot (prefill_active (ds4 m)) (progress_seen (prefill_progress_at (ds4 m)))
      (Some (pp_current p)) (Some (pp_total p)) (pp_percent p) (Some (pp_cached p)) (pp_chunk_tps p)
      (pp_avg_tps p) (pp_elapsed_secs p)
      (active_age now (prefill_active (ds4 m)) (prefill_progress_at (ds4 m)))
      (token_delta (prefill_progress_at (ds4 m))))
    (mkProgressSnapshot generating (progress_seen (generation_progress_at (ds4 m)))
      (Some (gp_completion g)) None double_zero None (gp_chunk_tps g) (gp_avg_tps g)
      (gp_elapsed_secs g) (active_age now generating (generation_progress_at (ds4 m)))
      (token_delta (generation_progress_at (ds4 m)))).

(** ** The text of the metrics *)

(** src/src/proxy.rs:395-399 (ModeAwareTargetSnapshot) *)
Record ModeAwareTargetSnapshot := mkTargetSnapshot { ts_target : ProxyTarget; ts_ready : bool }.

(** src/src/metrics.rs:772-784 (MetricSnapshot) *)
Record MetricSnapshot := mkMetricSnapshot {
  ms_node_id : bytes;
  ms_interface : bytes;
  ms_target : ModeAwareTargetSnapshot;
  ms_admission : AdmissionSnapshot;
  ms_cluster : option ClusterSnapshot;
  ms_peer_lease_seconds : double;
  ms_thunderbolt_ip_state : bytes;
  ms_discovery_results : Z;
  ms_quantization : Quantization;
  ms_speculative_support : SpeculativeSupport;
  ms_residency : Residency;
}.

(** src/src/app.rs:3245-3259 (target_name) *)
Definition target_name (target : ProxyTarget) : string :=
  match target with
  | ProxyTarget.LocalStandalone => "local-standalone"
  | ProxyTarget.Coordinator => "coordinator"
  | ProxyTarget.Unavailable UnavailableReason.Transition => "unavailable-transition"
  | ProxyTarget.Unavailable UnavailableReason.InconsistentStableState => "unavailable-inconsistent-state"
  | ProxyTarget.Unavailable UnavailableReason.UnknownRoleWithoutLocalStandalone => "unavailable-unknown-role"
  end.

Section Text.
Context {texts : Texts}.

Definition line (parts : list bytes) : bytes := concat parts ++ [10].
Definition type_line (name kind : string) : bytes :=
  line [str "# TYPE "; str name; str " "; str kind].
(** A series with labels whose values are written as they are. *)
Definition series (name : string) (labels : list (string * bytes)) (value : bytes) : bytes :=
  line ([str name] ++ (if bool_decide (labels = []) then [] else
     [[123]; join_with [44] ((fun l => str l.1 ++ [61; 34] ++ l.2 ++ [34]) <$> labels); [125]])
     ++ [str " "; value]).
Definition gauge (name : string) (labels : list (string * bytes)) (value : bytes) : bytes :=
  type_line name "gauge" ++ series name labels value.

Definition flag (b : bool) : bytes := if b then str "1" else str "0".

Definition entry_le {A} (a b : bytes * A) : Prop := lex_leb a.1 b.1 = true.
Global Instance entry_le_dec {A} (a b : bytes * A) : Decision (entry_le a b) :=
  decide (lex_leb a.1 b.1 = true).

(** src/src/metrics.rs:786-808 (render_counters) *)
Definition render_counters (counters : gmap bytes Z) : bytes :=
  concat ((fun name => type_line name "counter") <$>
    ["ds4_proxy_requests_total"; "ds4_proxy_upstream_failures_total";
     "ds4_proxy_peer_discovery_events_total"; "ds4_proxy_cluster_transitions_total";
     "ds4_proxy_cluster_child_restarts_total"; "ds4_proxy_cluster_hello_total";
     "ds4_proxy_cluster_deployment_mismatch_total"; "ds4_proxy_recovery_events_total";
     "ds4_proxy_notification_events_total"]%string)
  ++ concat ((fun kv => line [kv.1; str " "; u64_to_string kv.2]) <$>
       merge_sort entry_le (map_to_list counters)).

(** src/src/metrics.rs:810-835 (render_summaries) *)
Definition render_summaries (summaries : gmap bytes Summary) : bytes :=
  concat ((fun name => type_line name "summary") <$>
    ["ds4_proxy_request_duration_seconds"; "ds4_proxy_time_to_first_byte_seconds";
     "ds4_proxy_cluster_transition_duration_seconds"]%string)
  ++ concat ((fun kv =>
       let '(name, labels) := default (kv.1, []) (split_once [123] kv.1) in
       let suffix := if bool_decide (labels = []) then [] else [123] ++ labels in
       line [name; str "_sum"; suffix; str " "; f64_to_string (sum kv.2)]
       ++ line [name; str "_count"; suffix; str " "; u64_to_string (count kv.2)])
     <$> merge_sort entry_le (map_to_list summaries)).

(** The order of the gauges by ingress and target. *)
Definition gauge_le (a b : (bytes * bytes) * Z) : Prop :=
  if bool_decide (a.1.1 = b.1.1) then lex_leb a.1.2 b.1.2 = true else lex_leb a.1.1 b.1.1 = true.
Global Instance gauge_le_dec a b : Decision (gauge_le a b).
Proof. unfold gauge_le. case_bool_decide; apply _. Defined.

Definition show_secs (nanos : Z) : bytes := f64_to_string (as_secs_f64 nanos).

(** src/src/metrics.rs:420-647 (Metrics::render_mode_aware) *)
Definition render_mode_aware (now : Z) (snapshot : MetricSnapshot) (m : Metrics) : bytes :=
  let target := str (target_name (ts_target (ms_target snapshot))) in
  let gauges := merge_sort gauge_le (map_to_list (in_flight_gauges m)) in
  let present := existsb (fun kv => bool_decide (kv.1 = (str "public", target))) gauges in
  let target_ready := ts_ready (ms_target snapshot)
    && bool_decide (snapshot_state (ms_admission snapshot) = AdmissionState.Serving) in
  let node := ("node_id"%string, escape_label (ms_node_id snapshot)) in
  let '(state, mode, generation) :=
    match ms_cluster snapshot with
    | Some c => (ClusterState_name (ClusterFsm.state c), StableMode_name (stable_mode c), ClusterFsm.generation c)
    | None => ("booting"%string, "unknown"%string, 0)
    end in
  let generating := 0 <? generation_in_flight m in
  let p := prefill (ds4 m) in
  let g := generation_values (ds4 m) in
  render_counters (counters m) ++ render_summaries (summaries m)
  ++ type_line "ds4_proxy_in_flight" "gauge"
  ++ concat ((fun kv => series "ds4_proxy_in_flight"
        [("ingress", escape_label kv.1.1); ("target", escape_label kv.1.2)]%string
        (u64_to_string kv.2)) <$> gauges)
  ++ (if present then [] else
        series "ds4_proxy_in_flight" [("ingress", str "public"); ("target", target)]%string
          (u64_to_string (snapshot_in_flight (ms_admission snapshot))))
  ++ gauge "ds4_proxy_target_ready" [("target"%string, target)] (flag target_ready)
  ++ gauge "ds4_proxy_cluster_state" [node; ("state"%string, str state)] (str "1")
  ++ gauge "ds4_proxy_cluster_mode" [node; ("mode"%string, str mode)] (str "1")
  ++ gauge "ds4_proxy_cluster_generation" [node] (u64_to_string generation)
  ++ gauge "ds4_proxy_cluster_peer_lease_seconds" [node] (f64_to_string (ms_peer_lease_seconds snapshot))
  ++ gauge "ds4_proxy_thunderbolt_ip_state"
       [node; ("state"%string, escape_label (ms_thunderbolt_ip_state snapshot))] (str "1")
  ++ gauge "ds4_proxy_peer_discovery_results"
       [node; ("interface"%string, escape_label (ms_interface snapshot))]
       (u64_to_string (ms_discovery_results snapshot))
  ++ gauge "ds4_proxy_standalone_profile_info"
       [node; ("quantization"%string, quantization_name (ms_quantization snapshot));
        ("speculative_support"%string, speculative_name (ms_speculative_support snapshot));
        ("residency"%string, residency_name (ms_residency snapshot))] (str "1")
  ++ gauge "ds4_proxy_ds4_prefill_active" [] (flag (prefill_active (ds4 m)))
  ++ gauge "ds4_proxy_ds4_prefill_current" [] (u64_to_string (pp_current p))
  ++ gauge "ds4_proxy_ds4_prefill_total" [] (u64_to_string (pp_total p))
  ++ gauge "ds4_proxy_ds4_prefill_percent" [] (f64_to_string (pp_percent p))
  ++ gauge "ds4_proxy_ds4_prefill_cached" [] (u64_to_string (pp_cached p))
  ++ gauge "ds4_proxy_ds4_prefill_chunk_tps" [] (f64_to_string (pp_chunk_tps p))
  ++ gauge "ds4_proxy_ds4_prefill_avg_tps" [] (f64_to_string (pp_avg_tps p))
  ++ gauge "ds4_proxy_ds4_prefill_elapsed_seconds" [] (f64_to_string (pp_elapsed_secs p))
  ++ gauge "ds4_proxy_ds4_prefill_last_progress_age_seconds" []
       (show_secs (age_seconds now (prefill_active (ds4 m)) (prefill_progress_at (ds4 m))))
  ++ gauge "ds4_proxy_ds4_prefill_progress_token_delta" []
       (u64_to_string (token_delta (prefill_progress_at (ds4 m))))
  ++ type_line "ds4_proxy_ds4_kv_cache_hits_total" "counter"
  ++ series "ds4_proxy_ds4_kv_cache_hits_total" [] (u64_to_string (kv_cache_hits (ds4 m)))
  ++ gauge "ds4_proxy_ds4_kv_cache_hit_tokens" [] (u64_to_string (kv_cache_hit_tokens (ds4 m)))
  ++ gauge "ds4_proxy_ds4_kv_cache_load_ms" [] (f64_to_string (kv_cache_load_ms (ds4 m)))
  ++ gauge "ds4_proxy_ds4_generation_active" [] (flag generating)
  ++ gauge "ds4_proxy_ds4_generation_completion" [] (u64_to_string (gp_completion g))
  ++ gauge "ds4_proxy_ds4_generation_chunk_tps" [] (f64_to_string (gp_chunk_tps g))
  ++ gauge "ds4_proxy_ds4_generation_avg_tps" [] (f64_to_string (gp_avg_tps g))
  ++ gauge "ds4_proxy_ds4_generation_elapsed_seconds" [] (f64_to_string (gp_elapsed_secs g))
  ++ gauge "ds4_proxy_ds4_generation_progress_observed" []
       (flag (progress_seen (generation_progress_at (ds4 m))))
  ++ gauge "ds4_proxy_ds4_generation_last_progress_age_seconds" []
       (show_secs (age_seconds now generating (generation_progress_at (ds4 m))))
  ++ gauge "ds4_proxy_ds4_generation_progress_token_delta" []
       (u64_to_string (token_delta (generation_progress_at (ds4 m)))).

End Text.

(** ** Keys of different labels differ *)

Definition escape_byte (b : Z) : bytes :=
  if b =? 92 then [92; 92] else if b =? 34 then [92; 34] else if b =? 10 then str "\n" else [b].

Lemma split_once_byte b s before rest :
  split_once [b] s = Some (before, rest) → s = before ++ b :: rest ∧ b ∉ before.
Proof.
  revert before. induction s as [|a s IH]; intros before; cbn; [done|].
  destruct (b =? a) eqn:E.
  - apply Z.eqb_eq in E as ->. intros [= <- <-]. split; [done|apply not_elem_of_nil].
  - destruct (split_once [b] s) as [[x y]|]; cbn; [|done]. intros [= <- <-].
    destruct (IH x eq_refl) as [-> Hn]. split; [done|]. apply Z.eqb_neq in E.
    apply not_elem_of_cons. done.
Qed.

Definition map_byte (b : Z) (r : bytes) (c : Z) : bytes := if c =? b then r else [c].

Lemma split_once_absent b s : split_once [b] s = None → b ∉ s.
Proof.
  induction s as [|a s IH]; cbn; [intros _; apply not_elem_of_nil|]. destruct (b =? a) eqn:E; [done|].
  destruct (split_once [b] s) as [[]|]; [done|]. intros _. apply Z.eqb_neq in E.
  apply not_elem_of_cons. auto.
Qed.

Lemma map_byte_absent b r s : b ∉ s → flat_map (map_byte b r) s = s.
Proof.
  induction s as [|a s IH]; [done|]. intros [Hn Hs]%not_elem_of_cons. cbn.
  unfold map_byte at 1. rewrite (proj2 (Z.eqb_neq a b)) by done. cbn. by rewrite IH.
Qed.

(** Replacing one byte works on each byte for itself. *)
Lemma replace_byte b r s : replace [b] r s = flat_map (map_byte b r) s.
Proof.
  unfold replace, split. assert (length s ≤ length s)%nat as H by lia. revert H.
  generalize (length s) at 2 3 as fuel. intros fuel. revert s. induction fuel as [|fuel IH]; intros s Hs.
  { destruct s; [done|simpl in Hs; lia]. }
  cbn [split_fuel]. destruct (split_once [b] s) as [[before rest]|] eqn:E.
  2: { apply split_once_absent in E. by rewrite map_byte_absent. }
  apply split_once_byte in E as [-> Hn]. rewrite length_app in Hs. cbn in Hs.
  specialize (IH rest ltac:(lia)). rewrite flat_map_app. cbn.
  rewrite map_byte_absent by done. unfold map_byte at 1. rewrite Z.eqb_refl, <-IH.
  destruct (split_fuel fuel [b] rest) eqn:E; [|done].
  by destruct fuel; cbn in E; [|destruct (split_once _ _) as [[]|]].
Qed.

Lemma escape_label_bytes v : escape_label v = flat_map escape_byte v.
Proof.
  unfold escape_label. rewrite !replace_byte. induction v as [|b v IH]; [done|]. cbn [flat_map].
  rewrite !flat_map_app, IH. f_equal. unfold escape_byte, map_byte at 3.
  destruct (b =? 92) eqn:E1; [reflexivity|]. cbn [flat_map]. rewrite app_nil_r.
  unfold map_byte at 2. destruct (b =? 34) eqn:E2; [reflexivity|]. cbn [flat_map].
  rewrite app_nil_r. unfold map_byte. by destruct (b =? 10).
Qed.

(** An escaped value ends at the quote after it. *)
Lemma quoted_inj v w x y :
  flat_map escape_byte v ++ 34 :: x = flat_map escape_byte w ++ 34 :: y → v = w ∧ x = y.
Proof.
  revert w. induction v as [|b v IH]; intros [|c w]; cbn.
  - by intros [= ->].
  - unfold escape_byte. repeat case_match; intros [=]; bool_to_prop; by subst.
  - unfold escape_byte. repeat case_match; intros [=]; bool_to_prop; by subst.
  - unfold escape_byte.
    destruct (b =? 92) eqn:B1; [|destruct (b =? 34) eqn:B2; [|destruct (b =? 10) eqn:B3]];
      (destruct (c =? 92) eqn:C1; [|destruct (c =? 34) eqn:C2; [|destruct (c =? 10) eqn:C3]]);
      intros [=]; repeat match goal with
        | H : (_ =? _) = true |- _ => apply Z.eqb_eq in H
        | H : (_ =? _) = false |- _ => apply Z.eqb_neq in H
        end; try (exfalso; lia);
      match goal with H : flat_map _ _ ++ _ = _ |- _ => apply IH in H as [-> ->] end;
      split; congruence.
Qed.

(** No two series are mixed up: the keys of a metric with the same label names are the
    same only when all label values are, whatever quotes, backslashes or line breaks the
    values contain. *)
Lemma metric_key_injective name keys values values' :
  length values = length keys → length values' = length keys →
  metric_key name (zip keys values) = metric_key name (zip keys values') → values = values'.
Proof.
  assert (∀ x y, join_with [44] (label_text <$> zip keys values) ++ x
                 = join_with [44] (label_text <$> zip keys values') ++ y →
    length values = length keys → length values' = length keys → values = values') as Hjoin.
  { revert values values'. induction keys as [|k keys IH]; intros [|v values] [|w values'] x y H Hv Hw; try done.
    cbn in Hv, Hw. injection Hv as Hv. injection Hw as Hw.
    assert (∃ r r', label_text (k, v) ++ r = label_text (k, w) ++ r'
      ∧ (r = r' → values = values')) as (r & r' & E & Hr).
    { destruct values as [|v' values], values' as [|w' values'], keys as [|k' keys];
        try done.
      - exists x, y. split; [exact H|done].
      - eexists (44 :: join_with [44] (label_text <$> zip (k' :: keys) (v' :: values)) ++ x),
          (44 :: join_with [44] (label_text <$> zip (k' :: keys) (w' :: values')) ++ y).
        split; [|intros [= E]; by eapply IH].
        change (label_text (k, v) ++ [44] ++ join_with [44] (label_text <$> zip (k' :: keys) (v' :: values)) ++ x
          = label_text (k, w) ++ [44] ++ join_with [44] (label_text <$> zip (k' :: keys) (w' :: values')) ++ y).
        change ((label_text (k, v) ++ [44] ++ join_with [44] (label_text <$> zip (k' :: keys) (v' :: values))) ++ x
          = (label_text (k, w) ++ [44] ++ join_with [44] (label_text <$> zip (k' :: keys) (w' :: values'))) ++ y) in H.
        rewrite <-!app_assoc in H. exact H. }
    unfold label_text in E. cbn [fst snd] in E. rewrite <-!app_assoc in E. apply app_inv_head in E.
    injection E as E. rewrite !escape_label_bytes in E. apply quoted_inj in E as [-> E].
    f_equal. by apply Hr. }
  intros Hv Hw. unfold metric_key. destruct keys as [|k keys]; [by destruct values, values'|].
  destruct values as [|v values], values' as [|w values']; try done.
  intros H. cbn [zip zip_with] in H. apply app_inv_head, (app_inv_head [123]) in H.
  by apply (Hjoin [125] [125]).
Qed.

(** ** The gauges count the requests *)

(** Requests that begin and finish at the same time; the accounts of a finish and the reset
    that follows when it was the last generation are steps of their own. *)
Record Traffic := mkTraffic {
  metrics : Metrics;
  live : list RequestMetricGuard;
  resets_due : nat;
}.

Inductive traffic_step :=
| Begin (now : Z) (ingress target request_id method path : bytes)
| Account (now : Z) (i : nat)
| Reset.

Definition traffic_run (s : Traffic) (step : traffic_step) : Traffic :=
  match step with
  | Begin now ingress target rid method path =>
      let '(g, m) := begin_request now ingress target rid method path (metrics s) in
      mkTraffic m (g :: live s) (resets_due s)
  | Account now i =>
      match live s !! i with
      | Some g =>
          let '(m, last) := finish_account now g (metrics s) in
          mkTraffic m (delete i (live s)) (if last : bool then S (resets_due s) else resets_due s)
      | None => s
      end
  | Reset =>
      match resets_due s with
      | O => s
      | S n => mkTraffic (finish_reset (metrics s)) (live s) n
      end
  end.

Definition idle_traffic : Traffic := mkTraffic metrics_default [] 0.

Definition has_key (key : bytes * bytes) (g : RequestMetricGuard) : bool :=
  bool_decide ((g_ingress g, g_target g) = key).
Definition count_live (f : RequestMetricGuard → bool) (l : list RequestMetricGuard) : Z :=
  Z.of_nat (length (List.filter f l)).

Definition counted (s : Traffic) : Prop :=
  (∀ key, default 0 (in_flight_gauges (metrics s) !! key) = count_live (has_key key) (live s))
  ∧ (∀ g, g ∈ live s → is_some (in_flight_gauges (metrics s) !! (g_ingress g, g_target g)) = true)
  ∧ generation_in_flight (metrics s) = count_live g_tracks_generation (live s).

Lemma count_live_cons f g l : count_live f (g :: l) = (if f g then 1 else 0) + count_live f l.
Proof. unfold count_live. cbn. destruct (f g); cbn [length]; lia. Qed.

Lemma count_live_le f l : 0 ≤ count_live f l ≤ length l.
Proof.
  unfold count_live. split; [lia|]. induction l as [|a l IH]; [done|]. cbn. destruct (f a); cbn; lia.
Qed.

Lemma count_live_delete f l i g :
  l !! i = Some g → count_live f l = (if f g then 1 else 0) + count_live f (delete i l).
Proof.
  revert i. induction l as [|a l IH]; intros [|i] H; try done.
  - injection H as ->. apply count_live_cons.
  - change (delete (S i) (a :: l)) with (a :: delete i l). rewrite !count_live_cons, (IH i H). lia.
Qed.

(** What the counters and summaries do does not touch the gauges. *)
Lemma finish_account_gauges now g m :
  let '(m', last) := finish_account now g m in
  in_flight_gauges m' = alter (fun v => sat_sub v 1) (g_ingress g, g_target g) (in_flight_gauges m)
  ∧ generation_in_flight m' = (if g_tracks_generation g then sat_sub (generation_in_flight m) 1
                               else generation_in_flight m)
  ∧ generation_started_at m' = generation_started_at m
  ∧ last = g_tracks_generation g && (generation_in_flight m' =? 0).
Proof.
  unfold finish_account. destruct (g_ttfb g), (g_failure g), (g_tracks_generation g); done.
Qed.

Lemma counted_step s step :
  (length (live s) < 2 ^ 63) → counted s → counted (traffic_run s step).
Proof.
  intros Hlen (Hk & Hs & Hg). destruct step as [now ingress target rid method path|now i|]; cbn [traffic_run].
  - unfold begin_request. set (tracks := is_generation_path path).
    pose proof (count_live_le g_tracks_generation (live s)).
    assert (∀ m, (if tracks then set_generations (wrap64 (generation_in_flight m + 1))
        (if generation_in_flight m =? 0 then Some now else generation_started_at m) m else m)
      = set_generations (if tracks then wrap64 (generation_in_flight m + 1) else generation_in_flight m)
          (if tracks then if generation_in_flight m =? 0 then Some now else generation_started_at m
           else generation_started_at m) m) as E by (intros [? ? ? ? ? ?]; by destruct tracks).
    rewrite E. clear E. split_and!; cbn [metrics live in_flight_gauges generation_in_flight set_generations set_gauges].
    + intros key. rewrite count_live_cons.
      pose proof (count_live_le (has_key key) (live s)).
      match goal with |- context [has_key key ?g] => destruct (has_key key g) eqn:E end;
        [apply bool_decide_eq_true in E|apply bool_decide_eq_false in E]; cbn [g_ingress g_target] in E.
      * subst key. rewrite lookup_insert_eq. cbn [default]. unfold id. rewrite Hk, wrap64_small; [lia|].
        unfold is_u64, u64_max. lia.
      * rewrite lookup_insert_ne by done. rewrite Hk. lia.
    + intros g [->|Hin]%elem_of_cons; cbn [g_ingress g_target].
      * by rewrite lookup_insert_eq.
      * destruct (decide ((ingress, target) = (g_ingress g, g_target g))) as [->|Hne].
        -- by rewrite lookup_insert_eq.
        -- rewrite lookup_insert_ne by done. by apply Hs.
    + rewrite count_live_cons. cbn [g_tracks_generation]. fold tracks. rewrite Hg.
      destruct tracks; [|lia]. rewrite wrap64_small; [lia|]. unfold is_u64, u64_max. lia.
  - destruct (live s !! i) as [g|] eqn:Hi; [|done].
    pose proof (finish_account_gauges now g (metrics s)) as H.
    destruct (finish_account now g (metrics s)) as [m last]. destruct H as (H1 & H2 & _ & _).
    split_and!; cbn [metrics live]; rewrite ?H1, ?H2.
    + intros key. pose proof (count_live_delete (has_key key) _ _ _ Hi) as Hd. unfold has_key at 2 in Hd.
      pose proof (count_live_le (has_key key) (delete i (live s))).
      specialize (Hk key). destruct (decide ((g_ingress g, g_target g) = key)) as [<-|Hne].
      * rewrite bool_decide_true in Hd by done. rewrite lookup_alter_eq.
        specialize (Hs g (list_elem_of_lookup_2 _ _ _ Hi)).
        destruct (in_flight_gauges (metrics s) !! _) as [v|]; [|done]. cbn in *. unfold sat_sub. lia.
      * rewrite bool_decide_false in Hd by done. rewrite lookup_alter_ne by done. lia.
    + intros g' Hin. assert (g' ∈ live s) as Hin'.
      { by eapply list_elem_of_delete_inv. }
      specialize (Hs g' Hin'). destruct (decide ((g_ingress g, g_target g) = (g_ingress g', g_target g'))) as [E|Hne].
      * rewrite <-E in *. rewrite lookup_alter_eq. by destruct (_ !! _).
      * by rewrite lookup_alter_ne.
    + pose proof (count_live_delete g_tracks_generation _ _ _ Hi) as Hd.
      pose proof (count_live_le g_tracks_generation (delete i (live s))).
      rewrite Hg. destruct (g_tracks_generation g); unfold sat_sub; lia.
  - destruct (resets_due s); done.
Qed.

Lemma traffic_run_live s step : (length (live (traffic_run s step)) ≤ S (length (live s)))%nat.
Proof.
  destruct step as [| |]; cbn.
  - lia.
  - destruct (live s !! i) as [g|] eqn:Hi; [|lia].
    destruct (finish_account _ _ _). cbn. rewrite length_delete by (by eexists). lia.
  - destruct (resets_due s); cbn; lia.
Qed.

(** C23: The gauges are exact: whatever requests begin and finish in whatever order, also
    when the reset of the last generation comes late, the gauge of every ingress and target
    is the number of requests of that kind that have begun and not finished, and the number
    of generations that of those on a completion path. *)
Theorem gauges_count_live steps :
  length steps < 2 ^ 63 →
  let s := foldl traffic_run idle_traffic steps in
  (∀ ingress target, default 0 (in_flight_gauges (metrics s) !! (ingress, target))
     = count_live (has_key (ingress, target)) (live s))
  ∧ generation_in_flight (metrics s) = count_live g_tracks_generation (live s).
Proof.
  intros Hlen. assert (∀ s, counted s → length (live s) + length steps < 2 ^ 63 →
    counted (foldl traffic_run s steps)) as H.
  { clear Hlen. induction steps as [|step steps IH]; intros s Hs Hlen; [done|]. cbn in *.
    pose proof (traffic_run_live s step). apply IH; [apply counted_step; [lia|done]|lia]. }
  destruct (H idle_traffic) as (Hk & _ & Hg); [|cbn; lia|].
  { split_and!; [intros key; cbn; by rewrite lookup_empty|intros g Hg; by apply not_elem_of_nil in Hg|done]. }
  split; [|exact Hg]. intros ingress target. apply Hk.
Qed.

Module DemoMetrics.

Definition completion : bytes := str "/v1/completions".
Definition begin_completion (now : Z) : traffic_step :=
  Begin now (str "public") (str "coordinator") (str "req_1") (str "POST") completion.

(** A finish whose reset comes after the next request began: the start of the new one is
    forgotten and its age stays zero. *)
Definition late_reset : Traffic :=
  foldl traffic_run idle_traffic [begin_completion 10; Account 20 0; begin_completion 30; Reset].

Example age_forgotten :
  generation_in_flight (metrics late_reset) = 1
  ∧ generation_active_age (secs 3600) (metrics late_reset) = Some 0.
Proof. vm_compute. done. Qed.

Example age_known :
  generation_active_age (secs 3600)
    (metrics (foldl traffic_run idle_traffic [begin_completion 10; Account 20 0; Reset; begin_completion 30]))
  = Some (secs 3600 - 30).
Proof. vm_compute. reflexivity. Qed.

Example key_with_quotes :
  metric_key "m" [("reason"%string, [34; 10; 92])] = str "m{reason=" ++ [34; 92; 34; 92; 110; 92; 92; 34] ++ str "}".
Proof. vm_compute. reflexivity. Qed.

End DemoMetrics.

Section metric_witnesses.

Lemma metric_key_injective_witness :
  [str "a"] = [str "a"]
  ∧ metric_key "m" (zip ["reason"%string] [str "a"]) = metric_key "m" (zip ["reason"%string] [str "a"]).
Proof.
  split; [|reflexivity].
  apply (metric_key_injective "m" ["reason"%string] [str "a"] [str "a"]); reflexivity.
Defined.

Lemma gauges_count_live_witness :
  generation_in_flight (metrics DemoMetrics.late_reset) = 1
  ∧ default 0 (in_flight_gauges (metrics DemoMetrics.late_reset) !! (str "public", str "coordinator")) = 1.
Proof.
  destruct (gauges_count_live
    [DemoMetrics.begin_completion 10; Account 20 0; DemoMetrics.begin_completion 30; Reset]) as [H1 H2];
    [reflexivity|].
  split; [exact H2|]. exact (H1 (str "public") (str "coordinator")).
Defined.

End metric_witnesses.
