(* ===== verification/Proxy.v ===== *)
(** * The proxy: [src/src/proxy.rs]

    A request on its way through the proxy: the choice of the upstream, the permit, the
    headers, the limits, the answer and its body.  The HTTP client, URLs and the clock are
    the interface; what goes upstream is recorded in the result. *)

From S2P Require Import Prelude Bytes Utf8 Text Json Target Admission Auth Command Headers Metrics Sse.

(** src/src/canary.rs:20-20 (RECOVERY_CANARY_HEADER) *)
Definition RECOVERY_CANARY_HEADER : bytes := str "x-siderostat-recovery-canary".

(** [url::Url] as far as the proxy changes it. *)
Class Urls (U : Type) := {
  url_path : U → bytes;
  set_path : bytes → U → U;
  set_query : option bytes → U → U;
}.

(** The answer of an upstream: its status and headers, [content_length] and the body.
    [broken_off] when the interrupt is seen before the body begins. *)
Record Answer := mkAnswer {
  a_status : Z;
  a_headers : HeaderMap;
  a_content_length : option Z;
  a_body : Upstream;
  broken_off : bool;
}.

Inductive Exchange :=
| SendInterrupted
| HeaderTimeout
| SendFailed (is_connect : bool) (chain : bytes)
| Answered (a : Answer).

(** What is sent upstream. *)
Record Sent {U : Type} := mkSent {
  sent_url : U;
  sent_method : bytes;
  sent_headers : HeaderMap;
  sent_body : list (result bytes bytes);
}.
Arguments Sent : clear implicits.

Class Backend (U : Type) := exchange : Sent U → Exchange.

(** src/src/proxy.rs:196-200 (RecoveryCanaryPermit) *)
Record RecoveryCanaryPermit := mkCanary {
  canary_recovery_id : bytes;
  canary_token : bytes;
  canary_expires_at : Z;
}.

(** src/src/proxy.rs:401-415 (ModeAwareProxyState) *)
Record ModeAwareProxyState {U : Type} := mkProxy {
  local_upstream : U;
  coordinator_upstream : U;
  px_target : ModeAwareTargetSnapshot;
  px_security : option PeerProxySecurity;
  px_admission : Inner;
  request_body_limit_bytes : Z;
  first_body_byte_timeout : Z;
  stream_idle_timeout : Z;
  px_metrics : option Metrics;
  px_canary : option RecoveryCanaryPermit;
  px_interrupted : bool;
}.
Arguments ModeAwareProxyState : clear implicits.

Record Request := mkRequest {
  r_method : bytes;
  r_scheme : option bytes;
  r_path : bytes;
  r_query : option bytes;
  r_headers : HeaderMap;
  r_body : list (result bytes bytes);
}.

(** src/src/proxy.rs:382-387 (ProxyRequestContext) *)
Record ProxyRequestContext := mkContext { ingress : ProxyIngress; peer : IpAddr; hop : Z }.

(** The times of a request: its begin, the answer's first byte and its end. *)
Record Times := mkTimes { t_begin : Z; t_prepared : Z; t_end : Z }.

Section State.
Context {U : Type}.
Implicit Types s : ModeAwareProxyState U.

Definition with_target x s := mkProxy U (local_upstream s) (coordinator_upstream s) x (px_security s)
  (px_admission s) (request_body_limit_bytes s) (first_body_byte_timeout s) (stream_idle_timeout s)
  (px_metrics s) (px_canary s) (px_interrupted s).
Definition with_security x s := mkProxy U (local_upstream s) (coordinator_upstream s) (px_target s) x
  (px_admission s) (request_body_limit_bytes s) (first_body_byte_timeout s) (stream_idle_timeout s)
  (px_metrics s) (px_canary s) (px_interrupted s).
Definition with_admission x s := mkProxy U (local_upstream s) (coordinator_upstream s) (px_target s)
  (px_security s) x (request_body_limit_bytes s) (first_body_byte_timeout s) (stream_idle_timeout s)
  (px_metrics s) (px_canary s) (px_interrupted s).
Definition with_metrics x s := mkProxy U (local_upstream s) (coordinator_upstream s) (px_target s)
  (px_security s) (px_admission s) (request_body_limit_bytes s) (first_body_byte_timeout s)
  (stream_idle_timeout s) x (px_canary s) (px_interrupted s).
Definition with_canary x s := mkProxy U (local_upstream s) (coordinator_upstream s) (px_target s)
  (px_security s) (px_admission s) (request_body_limit_bytes s) (first_body_byte_timeout s)
  (stream_idle_timeout s) (px_metrics s) x (px_interrupted s).
Definition with_interrupt x s := mkProxy U (local_upstream s) (coordinator_upstream s) (px_target s)
  (px_security s) (px_admission s) (request_body_limit_bytes s) (first_body_byte_timeout s)
  (stream_idle_timeout s) (px_metrics s) (px_canary s) x.

(** [None] is the failed assertion of the gate.
    src/src/proxy.rs:428-455 (ModeAwareProxyState::new) *)
Definition proxy_new (local coordinator : U) (max_in_flight body_limit first_byte idle : Z)
    : option (ModeAwareProxyState U) :=
  gate ← gate_new max_in_flight;
  Some (mkProxy U local coordinator
    (mkTargetSnapshot (ProxyTarget.Unavailable UnavailableReason.Transition) false) None gate body_limit
    first_byte idle None None false).

(** src/src/proxy.rs:457-462 (ModeAwareProxyState::set_target) *)
Definition set_target (target : ProxyTarget) (ready : bool) : ModeAwareProxyState U → ModeAwareProxyState U :=
  with_target (mkTargetSnapshot target ready).
(** src/src/proxy.rs:563-569 (ModeAwareProxyState::target_snapshot) *)
Definition target_snapshot (s : ModeAwareProxyState U) : ModeAwareTargetSnapshot := px_target s.
(** src/src/proxy.rs:468-471 (ModeAwareProxyState::interrupt_in_flight) *)
Definition interrupt_in_flight s := with_interrupt true (with_admission (close (px_admission s)) s).
(** src/src/proxy.rs:513-521 (ModeAwareProxyState::configure_peer_proxy) *)
Definition configure_peer_proxy (token : PeerProxyToken) (source : IpAddr) :=
  with_security (Some (mkSecurity token source)).
(** src/src/proxy.rs:523-528 (ModeAwareProxyState::configure_metrics) *)
Definition configure_metrics (m : Metrics) := with_metrics (Some m).

(** [token] is a new [Uuid], simple.
    src/src/proxy.rs:475-490 (ModeAwareProxyState::issue_recovery_canary_permit) *)
Definition issue_recovery_canary_permit (now lifetime : Z) (recovery_id token : bytes) :=
  with_canary (Some (mkCanary recovery_id token (now + lifetime))).

(** src/src/proxy.rs:492-511 (ModeAwareProxyState::consume_recovery_canary_permit) *)
Definition consume_recovery_canary_permit (now : Z) (token : bytes) (s : ModeAwareProxyState U)
    : bool * ModeAwareProxyState U :=
  match px_canary s with
  | None => (false, s)
  | Some permit =>
      let valid := negb (bool_decide (canary_recovery_id permit = []))
                   && (now <? canary_expires_at permit)
                   && bool_decide (canary_token permit = token) in
      (valid, if valid || (canary_expires_at permit <=? now) then with_canary None s else s)
  end.

(** src/src/proxy.rs:819-827 (safe_path_template) *)
Definition safe_path_template (path : bytes) : bytes :=
  if bool_decide (path ∈ str <$> ["/v1/chat/completions"; "/v1/completions"; "/v1/models"; "/health"]%string)
  then path else str "/*".

(** src/src/proxy.rs:530-554 (ModeAwareProxyState::begin_request_metrics) *)
Definition begin_request_metrics (now : Z) (i : ProxyIngress) (target : ProxyTarget)
    (request_id method path_template : bytes) (s : ModeAwareProxyState U)
    : option RequestMetricGuard * ModeAwareProxyState U :=
  match px_metrics s with
  | None => (None, s)
  | Some m =>
      let '(g, m) := begin_request now (match i with Public => str "public" | Peer => str "peer" end)
                       (str (target_name target)) request_id method path_template m in
      (Some g, with_metrics (Some m) s)
  end.

(** The end of a guard. *)
Definition drop_guard (now : Z) (g : option RequestMetricGuard) (s : ModeAwareProxyState U)
    : ModeAwareProxyState U :=
  match g, px_metrics s with
  | Some g, Some m => with_metrics (Some (finish_request now g m)) s
  | _, _ => s
  end.

(** The end of a permit. *)
Definition drop_permit (s : ModeAwareProxyState U) : ModeAwareProxyState U :=
  with_admission (fst (permit_drop (px_admission s))) s.

End State.

(** The body of a request, up to the limit.
    src/src/proxy.rs:727-752 (forward_mode_aware) *)
Fixpoint limit_body (limit total : Z) (body : list (result bytes bytes)) : list (result bytes bytes) :=
  match body with
  | [] => []
  | Ok chunk :: body =>
      let new_total := sat_add64 total (length chunk) in
      if limit <? new_total then [Err (str "request body limit exceeded")]
      else Ok chunk :: limit_body limit new_total body
  | Err error :: _ => [Err error]
  end.

Section Forward.
Context {U : Type} {urls : Urls U} {backend : Backend U}.
Context {serde : Serde} {headers : HeaderText} {texts : Texts}.
Notation State := (ModeAwareProxyState U).

(** src/src/proxy.rs:849-860 (fixed_upstream_url) *)
Definition fixed_upstream_url (base : U) (r : Request) : U :=
  let base_path := reverse (trim_start_matches 47 (reverse (url_path base))) in
  let path := if bool_decide (base_path = []) then r_path r else base_path ++ r_path r in
  set_query (r_query r) (set_path path base).

(** src/src/proxy.rs:892-897 (ModeAwarePreparedResponse) *)
Record ModeAwarePreparedResponse := mkPrepared {
  p_status : Z;
  p_headers : HeaderMap;
  p_stream : Upstream;
  p_first_chunk : option bytes;
}.

(** src/src/proxy.rs:899-931 (prepare_mode_aware_response) *)
Definition prepare_mode_aware_response (timeout : Z) (a : Answer)
    : result ModeAwarePreparedResponse ProxyError :=
  let no_body := (a_status a =? 204) || bool_decide (a_content_length a = Some 0) in
  let body := a_body a in
  if no_body then Ok (mkPrepared (a_status a) (a_headers a) body None)
  else
    match yields body with
    | [] =>
        if match ends_after body with Some d => d <=? timeout | None => false end
        then Ok (mkPrepared (a_status a) (a_headers a) body None)
        else Err ProxyError.FirstByteTimeout
    | (d, item) :: rest =>
        if d <=? timeout then
          match item with
          | Ok chunk => Ok (mkPrepared (a_status a) (a_headers a) (mkUpstream rest (ends_after body)) (Some chunk))
          | Err _ => Err ProxyError.Protocol
          end
        else Err ProxyError.FirstByteTimeout
    end.

(** Whether the answer is a stream of events that the proxy cuts into events.
    src/src/proxy.rs:943-957 (build_mode_aware_response) *)
Definition is_event_stream (completion : bool) (status : Z) (h : HeaderMap) : bool :=
  completion
  && negb ((status =? 204) || (status =? 205) || (status =? 304))
  && match header_text "content-type" h with
     | Some value => eq_ignore_ascii_case (trim (split_first (str ";") value)) (str "text/event-stream")
     | None => false
     end
  && forallb (fun value => match to_str value with
                           | Some encoding => eq_ignore_ascii_case (trim encoding) (str "identity")
                           | None => false
                           end) (header_get_all (str "content-encoding") h).

Definition is_success (status : Z) : bool := (200 <=? status) && (status <? 300).

(** A transport error of the body; the client's own errors have no further distinction. *)
Definition as_io_error (item : Chunk) : Chunk :=
  match item with Ok chunk => Ok chunk | Err _ => Err StreamError.Transport end.

(** The chunks under the response: the first one, then the rest under the idle timeout.
    src/src/proxy.rs:960-968 (build_mode_aware_response) *)
Definition body_chunks (idle : Z) (p : ModeAwarePreparedResponse) : list Chunk :=
  match p_first_chunk p with Some chunk => [Ok chunk] | None => [] end
  ++ with_idle_timeout idle ((fun y => (y.1, as_io_error y.2)) <$> yields (p_stream p))
       (ends_after (p_stream p)).

(** src/src/proxy.rs:969-973 (build_mode_aware_response) *)
Definition body_source (idle : Z) (p : ModeAwarePreparedResponse) (completion : bool) : BodySource :=
  if is_event_stream completion (p_status p) (p_headers p)
  then Framed (completion && is_success (p_status p)) (frame_start (body_chunks idle p))
  else Raw (body_chunks idle p).

Inductive ProxyResponse :=
| OwnAnswer (r : OwnResponse)
| Relayed (status : Z) (h : HeaderMap) (is_sse : bool) (stream : ResponseStream)
    (guard : option RequestMetricGuard).

(** src/src/proxy.rs:933-1054 (build_mode_aware_response) *)
Definition build_mode_aware_response (idle : Z) (request_id : bytes) (p : ModeAwarePreparedResponse)
    (guard : option RequestMetricGuard) (completion : bool) : ProxyResponse :=
  let is_sse := is_event_stream completion (p_status p) (p_headers p) in
  let h := copy_response_headers (p_headers p) [] in
  let h := if is_sse then header_remove (str "content-length") h else h in
  Relayed (p_status p) (insert_request_id request_id h) is_sse
    (mkResponseStream (body_source idle p completion) true None false) guard.

(** The guard is dropped with the request.
    src/src/proxy.rs:829-847 (observed_error) *)
Definition observed_error (error : ProxyError) (request_id : bytes) (now : Z)
    (guard : option RequestMetricGuard) (s : State) : ProxyResponse * State :=
  let guard := set_status (error_status error) <$> guard in
  let guard :=
    match error with
    | ProxyError.Connect | ProxyError.ResponseHeaderTimeout | ProxyError.FirstByteTimeout
    | ProxyError.Protocol => set_failure (str (error_code error)) <$> guard
    | _ => guard
    end in
  (OwnAnswer (error_response error request_id), drop_guard now guard s).

(** The upstream of a request, if it has one.
    src/src/proxy.rs:667-680 (forward_mode_aware) *)
Definition upstream_of (i : ProxyIngress) (s : State) : result U ProxyError :=
  match i, ts_target (px_target s) with
  | _, ProxyTarget.LocalStandalone => Ok (local_upstream s)
  | Public, ProxyTarget.Coordinator => Ok (coordinator_upstream s)
  | Peer, ProxyTarget.Coordinator | Peer, ProxyTarget.Unavailable _
  | Public, ProxyTarget.Unavailable _ => Err ProxyError.NoBackendAvailable
  end.

(** src/src/proxy.rs:681-696 (forward_mode_aware) *)
Definition acquire (now : Z) (canary : option bytes) (s : State) : result unit ProxyError * State :=
  let ready := ts_ready (px_target s) in
  let '(recovery, s) := match canary with
                        | Some token => consume_recovery_canary_permit now token s
                        | None => (false, s)
                        end in
  match (if (recovery : bool) then try_acquire_recovery else try_acquire) ready (px_admission s) with
  | Ok inner => (Ok tt, with_admission inner s)
  | Err _ => (Err ProxyError.NoBackendAvailable, s)
  end.

(** What is to be sent.  src/src/proxy.rs:697-724 (forward_mode_aware) *)
Definition outgoing (context : ProxyRequestContext) (base : U) (request_id : bytes) (r : Request)
    (s : State) : result (Sent U) ProxyError :=
  (let? security :=
     if bool_decide (ts_target (px_target s) = ProxyTarget.Coordinator)
     then let? security := ok_or (px_security s) ProxyError.NoBackendAvailable in Ok (Some security)
     else Ok None in
   let? h := build_mode_aware_headers (r_headers r) (r_scheme r) request_id (ingress context)
               (peer context) security in
   Ok (mkSent U (fixed_upstream_url base r) (r_method r) h
         (limit_body (request_body_limit_bytes s) 0 (r_body r))))%rust.

(** The exchange with the upstream up to the first byte of the answer.
    src/src/proxy.rs:758-790 (forward_mode_aware) *)
Definition exchange_with (first_byte_timeout : Z) (sent : Sent U)
    : result ModeAwarePreparedResponse ProxyError :=
  match exchange sent with
  | SendInterrupted => Err ProxyError.NoBackendAvailable
  | HeaderTimeout => Err ProxyError.ResponseHeaderTimeout
  | SendFailed is_connect chain =>
      Err (if contains (str "request body limit exceeded") chain then ProxyError.BodyTooLarge
           else if is_connect then ProxyError.Connect else ProxyError.Protocol)
  | Answered a =>
      if broken_off a then Err ProxyError.NoBackendAvailable
      else prepare_mode_aware_response first_byte_timeout a
  end.

Definition is_completion (r : Request) : bool :=
  negb (bool_decide (r_method r = str "HEAD"))
  && bool_decide (r_path r ∈ str <$> ["/v1/chat/completions"; "/v1/completions"]%string).

(** The answer, what went upstream, and the state.  [fresh] is a new [Uuid], simple.
    src/src/proxy.rs:633-810 (forward_mode_aware) *)
Definition forward_mode_aware (times : Times) (fresh : bytes) (context : ProxyRequestContext)
    (r : Request) (s : State) : ProxyResponse * option (Sent U) * State :=
  let canary := match ingress context with
                | Public => header_get RECOVERY_CANARY_HEADER (r_headers r) ≫= to_str
                | Peer => None
                end in
  let r := mkRequest (r_method r) (r_scheme r) (r_path r) (r_query r)
             (header_remove RECOVERY_CANARY_HEADER (r_headers r)) (r_body r) in
  let rid := request_id fresh (r_headers r) in
  let '(guard, s) := begin_request_metrics (t_begin times) (ingress context) (ts_target (px_target s)) rid
                       (r_method r) (safe_path_template (r_path r)) s in
  let refuse error sent s :=
    let '(response, s) := observed_error error rid (t_end times) guard s in (response, sent, s) in
  let declared := header_text "content-length" (r_headers r) ≫= parse_u64 in
  if is_some_and declared (fun length => request_body_limit_bytes s <? length)
  then refuse ProxyError.BodyTooLarge None s
  else
    match upstream_of (ingress context) s with
    | Err error => refuse error None s
    | Ok base =>
        match acquire (t_begin times) canary s with
        | (Err error, s) => refuse error None s
        | (Ok _, s) =>
            match outgoing context base rid r s with
            | Err error => refuse error None (drop_permit s)
            | Ok sent =>
                match exchange_with (first_body_byte_timeout s) sent with
                | Err error => refuse error (Some sent) (drop_permit s)
                | Ok prepared =>
                    let guard := (fun g => set_ttfb (t_prepared times - t_begin times)
                                             (set_status (p_status prepared) g)) <$> guard in
                    (build_mode_aware_response (stream_idle_timeout s) rid prepared guard
                       (is_completion r), Some sent, s)
                end
            end
        end
    end.

(** src/src/proxy.rs:579-594 (mode_aware_proxy_handler) *)
Definition mode_aware_proxy_handler (times : Times) (fresh : bytes) (peer : IpAddr) (r : Request)
    (s : State) : ProxyResponse * option (Sent U) * State :=
  forward_mode_aware times fresh (mkContext Public peer 0) r s.

(** src/src/proxy.rs:596-618 (peer_ingress_handler) *)
Definition peer_ingress_handler (times : Times) (fresh fresh' : bytes) (peer : IpAddr) (r : Request)
    (s : State) : ProxyResponse * option (Sent U) * State :=
  let rid := request_id fresh (r_headers r) in
  match px_security s with
  | None => (OwnAnswer (error_response ProxyError.NoBackendAvailable rid), None, s)
  | Some security =>
      match verify_peer security peer (r_headers r) with
      | Err _ => (OwnAnswer (peer_ingress_rejection rid), None, s)
      | Ok _ => forward_mode_aware times fresh' (mkContext Peer peer 1) r s
      end
  end.

End Forward.

(** ** What a request leads to *)

Fixpoint body_size (body : list (result bytes bytes)) : Z :=
  match body with
  | Ok chunk :: body => length chunk + body_size body
  | Err _ :: body => body_size body
  | [] => 0
  end.

Lemma body_size_nonneg body : 0 ≤ body_size body.
Proof. induction body as [|[]]; cbn; lia. Qed.

Lemma limit_body_size limit body : ∀ total,
  0 ≤ total ≤ limit → limit < u64_max → total + body_size (limit_body limit total body) ≤ limit.
Proof.
  induction body as [|[chunk|e] body IH]; intros total Ht Hl; cbn; [lia| |lia].
  unfold sat_add64 in *. destruct (limit <? Z.min (total + length chunk) u64_max) eqn:E; cbn; [lia|].
  apply Z.ltb_ge in E. rewrite Z.min_l in * by lia. specialize (IH (total + length chunk)). lia.
Qed.

(** A body within the limit is sent as it comes, up to its first error. *)
Lemma limit_body_id limit chunks : ∀ total,
  0 ≤ total → total + body_size (Ok <$> chunks) ≤ limit → limit < u64_max →
  limit_body limit total (Ok <$> chunks) = Ok <$> chunks.
Proof.
  induction chunks as [|chunk chunks IH]; intros total Ht Hs Hl; cbn in *; [done|].
  pose proof (body_size_nonneg (Ok <$> chunks)) as Hn.
  unfold sat_add64. rewrite Z.min_l by (unfold fmap in *; lia).
  rewrite (proj2 (Z.ltb_ge _ _)) by (unfold fmap in *; lia).
  unfold fmap in *. rewrite IH; [done|lia..].
Qed.

Section ForwardProofs.
Context {U : Type} {urls : Urls U} {backend : Backend U}.
Context {serde : Serde} {headers : HeaderText} {texts : Texts}.
Notation State := (ModeAwareProxyState U).

(** The states that differ in the metrics only. *)
Definition but_metrics (s s' : State) : Prop := with_metrics None s' = with_metrics None s.

Lemma but_metrics_admission s s' : but_metrics s s' → px_admission s' = px_admission s.
Proof. unfold but_metrics, with_metrics. by intros [=]. Qed.

Lemma but_metrics_facts i s s' :
  but_metrics s s' →
  upstream_of i s' = upstream_of i s ∧ px_target s' = px_target s
  ∧ px_admission s' = px_admission s ∧ request_body_limit_bytes s' = request_body_limit_bytes s
  ∧ with_metrics (px_metrics s) s' = s.
Proof.
  intros H.
  pose proof (f_equal local_upstream H) as E1. pose proof (f_equal coordinator_upstream H) as E2.
  pose proof (f_equal px_target H) as E3. cbn in E1, E2, E3. split_and!.
  - unfold upstream_of. by rewrite E1, E2, E3.
  - exact E3.
  - exact (f_equal px_admission H).
  - exact (f_equal request_body_limit_bytes H).
  - change (with_metrics (px_metrics s) (with_metrics None s') = s). rewrite H. by destruct s.
Qed.

Lemma begin_but_metrics now i t rid method path s :
  but_metrics s (snd (begin_request_metrics now i t rid method path s)).
Proof.
  unfold begin_request_metrics. destruct (px_metrics s) as [m|]; [|done].
  by destruct (begin_request _ _ _ _ _ _ m).
Qed.

Lemma drop_guard_but_metrics now g s : but_metrics s (drop_guard now g s).
Proof. unfold drop_guard. by destruct g, (px_metrics s). Qed.

Definition canary_of (context : ProxyRequestContext) (r : Request) : option bytes :=
  match ingress context with
  | Public => header_get RECOVERY_CANARY_HEADER (r_headers r) ≫= to_str
  | Peer => None
  end.

(** The token is the one that was issued, for a recovery, and is still valid. *)
Definition canary_valid (now : Z) (token : bytes) (s : State) : Prop :=
  ∃ permit, px_canary s = Some permit ∧ canary_token permit = token ∧ now < canary_expires_at permit
    ∧ canary_recovery_id permit ≠ [].

(** The gate lets a request through. *)
Definition let_through (now : Z) (canary : option bytes) (s : State) : Prop :=
  closed (px_admission s) = false ∧ ts_ready (px_target s) = true
  ∧ Admission.in_flight (px_admission s) < max_in_flight (px_admission s)
  ∧ (Admission.state (px_admission s) = AdmissionState.Serving
     ∨ ∃ token, canary = Some token ∧ canary_valid now token s).

Definition one_more (inner : Inner) : Inner :=
  mkInner (Admission.state inner) (closed inner) (wrap64 (Admission.in_flight inner + 1))
    (max_in_flight inner) (drain_generation inner).

Lemma acquire_permit_spec ready inner inner' :
  acquire_permit ready inner = Ok inner' →
  closed inner = false ∧ ready = true ∧ Admission.in_flight inner < max_in_flight inner
  ∧ inner' = one_more inner.
Proof.
  unfold acquire_permit. destruct (closed inner) eqn:E1; [done|]. destruct ready; [|done].
  destruct (_ <=? _) eqn:E; [done|]. apply Z.leb_gt in E. intros [= <-]. unfold one_more. by rewrite E1.
Qed.

Lemma consume_spec now token (s : State) :
  let '(valid, s') := consume_recovery_canary_permit now token s in
  (valid = true → canary_valid now token s ∧ px_canary s' = None)
  ∧ with_canary None s' = with_canary None s.
Proof.
  unfold consume_recovery_canary_permit, canary_valid.
  destruct (px_canary s) as [permit|] eqn:E; [|done].
  destruct (negb (bool_decide (canary_recovery_id permit = [])) && (now <? canary_expires_at permit)
            && bool_decide (canary_token permit = token)) eqn:Hv; cbn [orb].
  - split; [|done]. intros _. rewrite !andb_true_iff, negb_true_iff, bool_decide_eq_false in Hv.
    destruct Hv as [[H1 H2%Z.ltb_lt] H3%bool_decide_eq_true]. split; [|done]. by exists permit.
  - split; [done|]. by destruct (_ <=? _).
Qed.

Lemma acquire_spec now canary (s s' : State) r :
  acquire now canary s = (r, s') →
  with_admission (px_admission s) (with_canary None s') = with_canary None s
  ∧ match r with
    | Ok _ => let_through now canary s ∧ px_admission s' = one_more (px_admission s)
    | Err e => e = ProxyError.NoBackendAvailable ∧ px_admission s' = px_admission s
    end.
Proof.
  unfold acquire. intros H.
  set (p := match canary with Some token => consume_recovery_canary_permit now token s
            | None => (false, s) end) in H.
  assert (let '(b, s1) := p in with_canary None s1 = with_canary None s
    ∧ (b = true → ∃ token, canary = Some token ∧ canary_valid now token s)) as Hp.
  { unfold p. destruct canary as [token|]; [|done]. pose proof (consume_spec now token s) as Hc.
    destruct (consume_recovery_canary_permit now token s) as [b s1]. destruct Hc as [H1 H2].
    split; [done|]. intros Hb. exists token. split; [done|]. by apply H1. }
  clearbody p. destruct p as [b s1]. destruct Hp as [Hs1 Hb].
  assert (px_admission s1 = px_admission s ∧ ts_ready (px_target s1) = ts_ready (px_target s)) as [Ha Hr].
  { split; [exact (f_equal px_admission Hs1)|].
    exact (f_equal (fun s => ts_ready (px_target s)) Hs1). }
  assert (with_admission (px_admission s) s1 = s1) as Hsame by (rewrite <-Ha; by destruct s1).
  assert (∀ inner, with_admission (px_admission s) (with_canary None (with_admission inner s1))
    = with_canary None s) as Hinner.
  { intros inner. change (with_canary None (with_admission (px_admission s) s1) = with_canary None s).
    by rewrite Hsame. }
  destruct ((if b then try_acquire_recovery else try_acquire) _ _) as [inner|e] eqn:E; injection H as <- <-.
  - split; [apply Hinner|].
    assert (acquire_permit (ts_ready (px_target s)) (px_admission s) = Ok inner
      ∧ (Admission.state (px_admission s) = AdmissionState.Serving ∨ b = true)) as [Hq Hst].
    { rewrite Ha in E. destruct b; [split; [exact E|by right]|]. unfold try_acquire in E.
      case_bool_decide; [|done]. split; [exact E|by left]. }
    apply acquire_permit_spec in Hq as (H1 & H2 & H3 & ->). split; [|done].
    split_and!; [done..|]. destruct Hst as [?|Hst]; [by left|right; by apply Hb].
  - split; [|done]. rewrite <-(Hinner (px_admission s1)). by destruct s1.
Qed.
(** What is sent of a request that may be sent. *)
Definition sent_well (context : ProxyRequestContext) (r : Request) (s : State) (x : Sent U) : Prop :=
  (∃ base, upstream_of (ingress context) s = Ok base ∧ sent_url x = fixed_upstream_url base r)
  ∧ sent_method x = r_method r
  ∧ body_size (sent_body x) ≤ request_body_limit_bytes s
  ∧ header_get RECOVERY_CANARY_HEADER (sent_headers x) = None
  ∧ (header_get TOKEN_HEADER (sent_headers x) ≠ None →
       ingress context = Public ∧ ts_target (px_target s) = ProxyTarget.Coordinator).

Lemma header_get_elem name h v : header_get name h = Some v → (name, v) ∈ h.
Proof.
  unfold header_get. destruct (List.find _ h) as [[n w]|] eqn:E; [|done].
  apply List.find_some in E as [E1 E2]. cbn in *. apply bool_decide_eq_true in E2 as ->.
  intros [= ->]. by apply list_elem_of_In.
Qed.

Lemma outgoing_well context base rid r (s : State) x :
  0 ≤ request_body_limit_bytes s < u64_max →
  upstream_of (ingress context) s = Ok base →
  outgoing context base rid
    (mkRequest (r_method r) (r_scheme r) (r_path r) (r_query r)
       (header_remove RECOVERY_CANARY_HEADER (r_headers r)) (r_body r)) s = Ok x →
  sent_well context r s x.
Proof.
  intros Hl Hb. unfold outgoing. cbn [r_headers r_scheme r_method r_body]. intros H.
  set (security := if bool_decide _ then _ else _) in H.
  destruct security as [security'|] eqn:Hsec; cbn [result_bind] in H; [|done].
  destruct (build_mode_aware_headers _ _ _ _ _ _) as [h|] eqn:Hh; cbn [result_bind] in H; [|done].
  injection H as <-. split_and!; cbn [sent_url sent_method sent_body sent_headers].
  - by exists base.
  - done.
  - apply (limit_body_size _ _ 0); lia.
  - destruct (header_get RECOVERY_CANARY_HEADER h) as [v|] eqn:E; [|done].
    apply header_get_elem in E.
    destruct (build_mode_aware_elem _ _ _ _ _ _ _ _ _ Hh E) as [Hin|[[[Hin _] _]|(_ & sec & _ & [[Hn _]|[Hn _]])]];
      [| |done..].
    + exfalso. apply (bool_decide_eq_true_2 _) in Hin. by vm_compute in Hin.
    + apply elem_of_filter_bool in Hin as [_ Hin]. cbn [fst] in Hin. by rewrite bool_decide_true in Hin.
  - destruct (header_get TOKEN_HEADER h) as [v|] eqn:E; [|done]. intros _. apply header_get_elem in E.
    destruct (build_mode_aware_elem _ _ _ _ _ _ _ _ _ Hh E) as [Hin|[[_ Hr]|(Hp & sec & Hs & _)]].
    + exfalso. apply (bool_decide_eq_true_2 _) in Hin. by vm_compute in Hin.
    + done.
    + split; [done|]. unfold security in Hsec. case_bool_decide as Ht; [done|]. congruence.
Qed.

Lemma drop_one_more inner :
  is_u64 (Admission.in_flight inner) → fst (permit_drop (one_more inner)) = inner.
Proof.
  intros Hf. unfold permit_drop, one_more. cbn. unfold wrap64.
  rewrite Zminus_mod_idemp_l, Z.add_simpl_r, Z.mod_small; [by destruct inner|].
  unfold is_u64, u64_max in Hf. lia.
Qed.


(** C11: What a client of a completion sees is never half an event and never silence: of an
    answer that is relayed as a stream of events, whatever the chunks, the pauses, the errors
    of the upstream and the time of an interruption, the body consists of whole events, each
    at most a megabyte, whose bytes are the beginning of what the upstream sent within its
    timeouts; it ends with the terminal event (or, of an answer that is no success, with
    everything passed on), or with one event that tells the error: of the interruption, of
    the timeout, of the missing end or of the failed upstream.  Its length is not announced. *)
Theorem completion_answer_sound times fresh context r (s : State) status h stream guard sent s' :
  forward_mode_aware times fresh context r s = (Relayed status h true stream guard, sent, s') →
  header_get (str "content-length") h = None ∧
  ∃ x prepared, sent = Some x ∧ exchange_with (first_body_byte_timeout s) x = Ok prepared
    ∧ status = p_status prepared ∧
  let chunks := body_chunks (stream_idle_timeout s) prepared in
  ∀ seen (n : nat), (length (received chunks) < n)%nat →
  ∃ events left_ tail, delivered true seen n 0 stream = Ok <$> events ++ tail
    ∧ received chunks = concat events ++ left_ ∧ held (concat events) = []
    ∧ Forall (fun event => (length event ≤ MAX_SSE_EVENT_BYTES)%nat) events
    ∧ match tail with
      | [] => (∃ event, last events = Some event ∧ is_success status = true
                 ∧ is_sse_terminal_event event = true)
              ∨ (is_success status = false ∧ ending chunks = None ∧ left_ = [])
      | [payload] =>
          (payload = INTERRUPTED_EVENT ∧ ∃ i, seen i = true)
          ∨ ∃ e, payload = error_payload e
              ∧ fails (is_success status) (concat events) left_ (ending chunks) e
      | _ => False
      end.
Proof.
  intros H. unfold forward_mode_aware in H. fold (canary_of context r) in H.
  set (r' := mkRequest _ _ _ _ _ _) in H. set (rid := request_id _ _) in H.
  pose proof (begin_but_metrics (t_begin times) (ingress context) (ts_target (px_target s)) rid
    (r_method r') (safe_path_template (r_path r')) s) as Hs1.
  destruct (begin_request_metrics _ _ _ _ _ _ s) as [guard1 s1]. cbn [snd] in Hs1.
  destruct (is_some_and _ _) in H; [done|].
  destruct (upstream_of (ingress context) s1) as [base|e]; [|done].
  destruct (acquire (t_begin times) (canary_of context r) s1) as [res s2] eqn:Hacq.
  apply acquire_spec in Hacq as [Hs2 _].
  assert (first_body_byte_timeout s2 = first_body_byte_timeout s
    ∧ stream_idle_timeout s2 = stream_idle_timeout s) as [Ef Ei].
  { split.
    - transitivity (first_body_byte_timeout s1);
        [exact (f_equal first_body_byte_timeout Hs2)|exact (f_equal first_body_byte_timeout Hs1)].
    - transitivity (stream_idle_timeout s1);
        [exact (f_equal stream_idle_timeout Hs2)|exact (f_equal stream_idle_timeout Hs1)]. }
  destruct res as [[]|]; [|done]. destruct (outgoing context base rid r' s2) as [x|]; [|done].
  rewrite Ef in H. destruct (exchange_with _ x) as [prepared|] eqn:Hx; [|done].
  unfold build_mode_aware_response, body_source in H. rewrite Ei in H.
  injection H as <- <- Hsse <- _ <- _. rewrite Hsse. split.
  { unfold insert_request_id. destruct (from_str_ok rid); [|apply header_get_remove].
    rewrite header_get_insert_ne by done. apply header_get_remove. }
  exists x, prepared. split_and!; [done..|]. intros chunks seen n Hn.
  assert (is_completion r' = true) as Hc.
  { unfold is_event_stream in Hsse. by destruct (is_completion r'). }
  rewrite Hc. cbn [andb].
  destruct (delivered_sound (is_success (p_status prepared)) chunks seen n Hn)
    as (events & left_ & tail & H1 & H2 & H3 & H4 & H5).
  exists events, left_, tail. split_and!; [done..|].
  destruct tail as [|payload [|]]; [|done..]. destruct H5 as [(ev & Hl & Ht)|?]; [left|by right].
  exists ev. unfold terminates in Ht. by apply andb_true_iff in Ht as [? ?].
Qed.

(** Attempts to spend a token, each at its time. *)
Definition spend_step (p : list bool * State) (attempt : Z * bytes) : list bool * State :=
  let '(valid, s) := consume_recovery_canary_permit attempt.1 attempt.2 p.2 in (p.1 ++ [valid], s).
Definition spend (attempts : list (Z * bytes)) (s : State) : list bool * State :=
  foldl spend_step ([], s) attempts.

Lemma spend_none attempts : ∀ answers s,
  px_canary s = None →
  foldl spend_step (answers, s) attempts = (answers ++ repeat false (length attempts), s).
Proof.
  induction attempts as [|[now token] attempts IH]; intros answers s Hs; cbn.
  { by rewrite app_nil_r. }
  unfold spend_step at 2, consume_recovery_canary_permit. cbn [fst snd]. rewrite Hs, IH by done. by rewrite <-app_assoc.
Qed.

Lemma filter_id_repeat n : List.filter id (repeat false n) = [].
Proof. by induction n. Qed.

Lemma spend_once attempts : ∀ answers s permit,
  px_canary s = Some permit →
  ∃ answers', (foldl spend_step (answers, s) attempts).1 = answers ++ answers' ∧ length answers' = length attempts
    ∧ (length (List.filter id answers') ≤ 1)%nat
    ∧ ∀ i now token, attempts !! i = Some (now, token) → answers' !! i = Some true →
        token = canary_token permit ∧ now < canary_expires_at permit.
Proof.
  induction attempts as [|[now token] attempts IH]; intros answers s permit Hs; cbn.
  { exists []. rewrite app_nil_r. split_and!; [done..|cbn; lia|done]. }
  unfold spend_step at 2, consume_recovery_canary_permit. cbn [fst snd]. rewrite Hs.
  set (valid := negb (bool_decide (canary_recovery_id permit = []))
     && (now <? canary_expires_at permit) && bool_decide (canary_token permit = token)).
  assert (valid = true → token = canary_token permit ∧ now < canary_expires_at permit) as Hv.
  { unfold valid. rewrite !andb_true_iff. intros [[_ H1%Z.ltb_lt] H2%bool_decide_eq_true]. done. }
  clearbody valid. destruct (valid || _) eqn:Hspent.
  - rewrite spend_none by done. exists (valid :: repeat false (length attempts)).
    split_and!; [cbn; by rewrite <-app_assoc|cbn; f_equal; apply repeat_length| |].
    + cbn. rewrite filter_id_repeat. destruct valid; cbn; lia.
    + intros [|i] now' token' Ha Hb; cbn in *; [simplify_eq; by apply Hv|].
      exfalso. apply list_elem_of_lookup_2, list_elem_of_In, repeat_spec in Hb. done.
  - apply orb_false_iff in Hspent as [-> _].
    destruct (IH (answers ++ [false]) s permit Hs) as (answers' & -> & H1 & H2 & H3).
    exists (false :: answers'). split_and!; [by rewrite <-app_assoc|cbn; by f_equal|done|].
    intros [|i] now' token' Ha Hb; cbn in *; [done|by eapply H3].
Qed.

(** The token of a recovery passes the gate once: of any attempts at any times after it
    was issued at most one is accepted, with that very token and before it expires. *)
Lemma recovery_canary_once now lifetime recovery_id token attempts (s : State) :
  let answers := (spend attempts (issue_recovery_canary_permit now lifetime recovery_id token s)).1 in
  (length (List.filter id answers) ≤ 1)%nat
  ∧ ∀ i now' token', attempts !! i = Some (now', token') → answers !! i = Some true →
      token' = token ∧ now' < now + lifetime.
Proof.
  destruct (spend_once attempts [] (issue_recovery_canary_permit now lifetime recovery_id token s) _ eq_refl)
    as (answers & H & _ & H2 & H3).
  cbn zeta. unfold spend. rewrite H. cbn [app]. split; [exact H2|]. exact H3.
Qed.

End ForwardProofs.

(** ** Concrete runs *)

Module DemoProxy.

Definition urls : Urls bytes := {|
  url_path u := u;
  set_path p _ := p;
  set_query q u := u ++ match q with Some q => str "?" ++ q | None => [] end;
|}.

(** An upstream that streams a completion and breaks off within its second event. *)
Definition event : bytes := str "data: a" ++ [LF; LF].
Definition answer : Answer :=
  mkAnswer 200 [(str "content-type", str "text/event-stream; charset=utf-8"); (str "content-length", str "99")]
    (Some 99) (mkUpstream [(5, Ok event); (5, Ok (str "data: b")); (5, Err StreamError.Transport)] (Some 5)) false.
Definition backend : Backend bytes := fun _ => Answered answer.

Definition state (target : ProxyTarget) (security : option PeerProxySecurity) : ModeAwareProxyState bytes :=
  mkProxy bytes (str "/") (str "/") (mkTargetSnapshot target true) security
    (mkInner AdmissionState.Serving false 0 4 None) 100 1000 1000 (Some metrics_default) None false.

Definition request : Request :=
  mkRequest (str "POST") None (str "/v1/chat/completions") None [(str "accept", str "*/*")] [Ok (str "{}")].

Definition forwarded (context : ProxyRequestContext) (s : ModeAwareProxyState bytes) :=
  forward_mode_aware (urls := urls) (backend := backend) (serde := printing_serde)
    (headers := DemoHeaders.ascii_headers) (texts := DemoCommand.texts)
    (mkTimes 10 20 30) (str "0") context request s.

Definition client : ProxyRequestContext := mkContext Public (IpAddr.V4 1) 0.
Definition local : ModeAwareProxyState bytes := state ProxyTarget.LocalStandalone None.

Definition body (response : ProxyResponse) : list Chunk :=
  match response with
  | Relayed _ _ is_sse stream _ =>
      delivered (serde := printing_serde) is_sse (fun _ => false) 30 0 stream
  | OwnAnswer r => [Ok (own_body r)]
  end.

Example relayed : body (forwarded client local).1.1 = Ok <$> [event; FAILED_EVENT].
Proof. vm_compute. reflexivity. Qed.

(** A request of the peer is not sent on to the coordinator. *)
Example peer_goes_no_further :
  (forwarded (mkContext Peer (IpAddr.V4 1) 1) (state ProxyTarget.Coordinator (Some DemoHeaders.security))).1.2 = None.
Proof. vm_compute. reflexivity. Qed.

(** A body over the limit is cut, and the permit comes back. *)
Example too_large :
  limit_body 3 0 [Ok [1; 2]; Ok [3; 4]; Ok [5]] = [Ok [1; 2]; Err (str "request body limit exceeded")].
Proof. vm_compute. reflexivity. Qed.

End DemoProxy.

Section proxy_witnesses.


Lemma completion_answer_sound_witness :
  ∃ status h stream guard x s',
    DemoProxy.forwarded DemoProxy.client DemoProxy.local = (Relayed status h true stream guard, Some x, s')
    ∧ header_get (str "content-length") h = None.
Proof.
  do 6 eexists. split; [vm_compute; reflexivity|].
  refine (proj1 (completion_answer_sound (urls := DemoProxy.urls) (backend := DemoProxy.backend)
    (serde := printing_serde) (headers := DemoHeaders.ascii_headers) (texts := DemoCommand.texts)
    (mkTimes 10 20 30) (str "0") DemoProxy.client DemoProxy.request DemoProxy.local _ _ _ _ _ _ _)).
  vm_compute. reflexivity.
Defined.

End proxy_witnesses.
