(* ===== verification/Canary.v ===== *)
(** * The canary: [src/src/canary.rs]

    One small completion through the public port, read with a parser of its own under a
    deadline and a limit between two tokens.  The HTTP client is what it yields and when; the
    clock stands still while the canary itself computes. *)

From Stdlib Require Import QArith_base.
From S2P Require Import Prelude Bytes Utf8 Recovery Text Json Config Command Sse Metrics Launch Proxy.
Local Open Scope Z_scope.

(** src/src/canary.rs:13-13 (CANARY_PROMPT) *)
Definition CANARY_PROMPT : string := "Reply with the single word: OK.".
(** src/src/canary.rs:14-14 (CANARY_MAX_TOKENS) *)
Definition CANARY_MAX_TOKENS : Z := 64.
(** src/src/canary.rs:15-15 (CANARY_DEADLINE) *)
Definition CANARY_DEADLINE : Z := secs 30.
(** src/src/canary.rs:16-16 (CANARY_PROGRESS_STALL) *)
Definition CANARY_PROGRESS_STALL : Z := secs 60.
(** src/src/canary.rs:17-17 (CANARY_LOW_DECODE_TPS) *)
Definition CANARY_LOW_DECODE_TPS : double := Finite 5.
(** src/src/canary.rs:18-18 (CANARY_PATH) *)
Definition CANARY_PATH : bytes := str "/v1/chat/completions".
(** src/src/canary.rs:19-19 (MAX_SSE_BUFFER_BYTES) *)
Definition MAX_SSE_BUFFER_BYTES : nat := Z.to_nat (128 * 1024).
#[global] Arguments MAX_SSE_BUFFER_BYTES : simpl never.

(** src/src/canary.rs:22-27 (CanaryPolicy) *)
Record CanaryPolicy := mkPolicy { deadline : Z; progress_stall : Z; low_decode_tps : double }.
(** src/src/canary.rs:30-36 (CanaryPolicy::default) *)
Definition policy_default : CanaryPolicy :=
  mkPolicy CANARY_DEADLINE CANARY_PROGRESS_STALL CANARY_LOW_DECODE_TPS.

(** src/src/canary.rs:49-58 (CanaryResult) *)
Record CanaryResult := mkResult {
  status : string;
  reason : CanaryReason;
  elapsed_ms : Z;
  ttfb_ms : option Z;
  generated : Z;
  chunk_tps : option double;
  http_status : option Z;
}.

(** src/src/canary.rs:72-85 (CanaryExecutor::new) *)
Definition policy_valid (p : CanaryPolicy) : bool :=
  negb (deadline p =? 0) && negb (progress_stall p =? 0)
  && is_finite (low_decode_tps p) && at_least 0 (low_decode_tps p).

(** ** The parser *)

(** [windows(n).position(|w| w == pattern)]. *)
Fixpoint position (pattern buffer : bytes) : option nat :=
  match strip_prefix pattern buffer with
  | Some _ => Some 0%nat
  | None => match buffer with [] => None | _ :: buffer => S <$> position pattern buffer end
  end.

(** src/src/canary.rs:327-336 (event_boundary) *)
Definition event_boundary (buffer : bytes) : option (nat * nat) :=
  match position [LF; LF] buffer, position [CR; LF; CR; LF] buffer with
  | Some lf, Some crlf => if (crlf <? lf)%nat then Some (crlf, 4%nat) else Some (lf, 2%nat)
  | Some lf, None => Some (lf, 2%nat)
  | None, Some crlf => Some (crlf, 4%nat)
  | None, None => None
  end.

(** src/src/canary.rs:338-342 (SseEvent) *)
Record SseEvent := mkEvent { ev_done : bool; ev_tokens : Z }.

Definition nonempty_str (v : Value) : bool :=
  match as_str v with Some s => negb (bool_decide (s = [])) | None => false end.

(** src/src/canary.rs:372-387 (generated_tokens) *)
Definition generated_tokens (value : Value) : Z :=
  match as_u64 (index "completion_tokens" (index "usage" value)) with
  | Some tokens => tokens
  | None =>
      Z.of_nat (length (List.filter
        (fun choice => nonempty_str (index "content" (index "delta" choice))
                       || nonempty_str (index "text" choice))
        (default [] (as_array (index "choices" value)))))
  end.

Section Parser.
Context {serde : Serde}.

(** The data lines of an event; an empty line at the front adds nothing.
    src/src/canary.rs:346-355 (parse_event) *)
Definition event_data (text : bytes) : bytes :=
  foldl (fun data line =>
    match strip_prefix (str "data:") line with
    | None => data
    | Some value =>
        (if bool_decide (data = []) then data else data ++ [LF])
        ++ default value (strip_prefix (str " ") value)
    end) [] (lines text).

(** src/src/canary.rs:344-370 (parse_event) *)
Definition parse_event (text : bytes) : option SseEvent :=
  if negb (utf8_valid text) then None
  else
    let data := event_data text in
    if bool_decide (data = str "[DONE]") then Some (mkEvent true 0)
    else if bool_decide (data = []) then Some (mkEvent false 0)
    else value ← from_slice data; Some (mkEvent false (generated_tokens value)).

(** The loop over the events of the buffer; each takes at least two bytes, so the length of
    the buffer is enough fuel. *)
Fixpoint take_events (fuel : nat) (buffer : bytes) : option (list SseEvent * bytes) :=
  match fuel, event_boundary buffer with
  | S fuel, Some (end_, delimiter) =>
      event ← parse_event (take end_ buffer);
      '(events, rest) ← take_events fuel (drop (end_ + delimiter) buffer);
      Some (event :: events, rest)
  | _, _ => Some ([], buffer)
  end.

(** [None] is the error.  src/src/canary.rs:312-324 (SseParser::push) *)
Definition parser_push (chunk buffer : bytes) : option (list SseEvent * bytes) :=
  if (MAX_SSE_BUFFER_BYTES <? length buffer + length chunk)%nat then None
  else take_events (length (buffer ++ chunk)) (buffer ++ chunk).

End Parser.

(** ** The run *)

(** src/src/canary.rs:275-281 (status_for) *)
Definition status_for (r : CanaryReason) : string :=
  if bool_decide (r = CanaryReason.Healthy) then "healthy" else "failed".

(** src/src/canary.rs:287-300 (timeout_reason) *)
Definition timeout_reason (now deadline : Z) (last_progress : option Z) (progress_stall : Z)
    : CanaryReason :=
  match last_progress with
  | Some last =>
      if (last + progress_stall <=? now) && (last + progress_stall <? deadline)
      then CanaryReason.ProgressStall else CanaryReason.Deadline
  | None => CanaryReason.Deadline
  end.

(** src/src/canary.rs:302-304 (elapsed_millis) *)
Definition elapsed_millis (started now : Z) : Z := Z.min (sat_sub now started / 1000000) u64_max.

(** src/src/canary.rs:237-254 (CanaryExecutor::failure) *)
Definition failure (started now : Z) (http_status : option Z) (r : CanaryReason) (tokens : Z)
    (ttfb : option Z) : CanaryResult :=
  mkResult (status_for r) r (elapsed_millis started now) ttfb tokens None http_status.

(** What the canary has seen so far. *)
Record Progress := mkProgress {
  parser : bytes;
  ttfb : option Z;
  tokens : Z;
  generation_started : option Z;
  last_progress : option Z;
  completed : bool;
}.

(** The effect of one event.  src/src/canary.rs:161-171 (CanaryExecutor::execute_with_permit) *)
Definition note_event (now : Z) (p : Progress) (event : SseEvent) : Progress :=
  let p := if ev_done event
           then mkProgress (parser p) (ttfb p) (tokens p) (generation_started p) (last_progress p) true
           else p in
  if 0 <? ev_tokens event then
    mkProgress (parser p) (ttfb p) (sat_add64 (tokens p) (ev_tokens event))
      (Some (default now (generation_started p))) (Some now) (completed p)
  else p.

(** A throughput, before rounding; the seconds are positive. *)
Definition tps (tokens nanos : Z) : double := Finite (inject_Z (tokens * 1000000000) / inject_Z nanos).
Definition double_lt (x y : double) : bool :=
  match x, y with
  | Finite a, Finite b => negb (Qle_bool b a)
  | NotANumber, _ | _, NotANumber => false
  | Infinity a, Infinity b => a && negb b
  | Infinity a, Finite _ => a
  | Finite _, Infinity b => negb b
  end.

Section Run.
Context {serde : Serde} (policy : CanaryPolicy) (started : Z).

Definition until : Z := started + deadline policy.

(** The result of a completed stream.  src/src/canary.rs:193-223 (CanaryExecutor::execute_with_permit) *)
Definition conclude (now http_status : Z) (p : Progress) : CanaryResult :=
  if tokens p =? 0 then failure started now (Some http_status) CanaryReason.HttpError (tokens p) (ttfb p)
  else
    let rate := first ← generation_started p;
                if 0 <? sat_sub now first then Some (tps (tokens p) (sat_sub now first)) else None in
    let r := if (2 <=? tokens p) && match rate with Some t => double_lt t (low_decode_tps policy)
                                    | None => false end
             then CanaryReason.LowDecodeTps else CanaryReason.Healthy in
    mkResult (status_for r) r (elapsed_millis started now) (ttfb p) (tokens p) rate (Some http_status).

(** How long the next chunk is waited for.  src/src/canary.rs:133-140 (CanaryExecutor::execute_with_permit) *)
Definition wait_for_chunk (now : Z) (p : Progress) : Z :=
  let deadline_remaining := sat_sub until now in
  Z.min deadline_remaining
    (match last_progress p with
     | Some last => sat_sub (progress_stall policy) (sat_sub now last)
     | None => deadline_remaining
     end).

(** The loop over the chunks.  src/src/canary.rs:132-191 (CanaryExecutor::execute_with_permit) *)
Fixpoint read_stream (now http_status : Z) (p : Progress) (items : list (Z * Chunk))
    (ends_after : option Z) : CanaryResult * Z :=
  let wait := wait_for_chunk now p in
  let fail_at now r := (failure started now (Some http_status) r (tokens p) (ttfb p), now) in
  let timed_out now := fail_at now (timeout_reason now until (last_progress p) (progress_stall policy)) in
  if wait =? 0 then timed_out now
  else
    match items with
    | [] =>
        match ends_after with
        | Some d => if d <=? wait then fail_at (now + d) CanaryReason.HttpError else timed_out (now + wait)
        | None => timed_out (now + wait)
        end
    | (d, item) :: items =>
        if d <=? wait then
          let now := now + d in
          match item with
          | Err _ => fail_at now CanaryReason.HttpError
          | Ok bytes =>
              let seen := Some (default (elapsed_millis started now) (ttfb p)) in
              match parser_push bytes (parser p) with
              | None => (failure started now (Some http_status) CanaryReason.HttpError (tokens p) seen, now)
              | Some (events, rest) =>
                  let p := mkProgress rest seen (tokens p) (generation_started p) (last_progress p)
                             (completed p) in
                  let p := foldl (note_event now) p events in
                  if completed p then (conclude now http_status p, now)
                  else read_stream now http_status p items ends_after
              end
          end
        else timed_out (now + wait)
    end.

(** The answer to the request: after what time, and its status and body, if there is one. *)
Record CanaryAnswer := mkCanaryAnswer { took : Z; answer : option (Z * Upstream) }.

(** The result and the time it is there.
    src/src/canary.rs:102-223 (CanaryExecutor::execute_with_permit) *)
Definition execute_with_permit (a : CanaryAnswer) : CanaryResult * Z :=
  let fail_at now status r := (failure started now status r 0 None, now) in
  if took a <=? deadline policy then
    let now := started + took a in
    match answer a with
    | None => fail_at now None CanaryReason.HttpError
    | Some (code, body) =>
        if negb (is_success code) then fail_at now (Some code) CanaryReason.HttpError
        else read_stream now code (mkProgress [] None 0 None None false) (yields body) (ends_after body)
    end
  else fail_at until None CanaryReason.Deadline.

End Run.

(** src/src/canary.rs:268-273 (loopback_for) *)
Definition loopback_for (ip : IpAddr) : IpAddr :=
  match ip with IpAddr.V4 _ => IpAddr.V4 (127 * 2 ^ 24 + 1) | IpAddr.V6 _ => IpAddr.V6 1 end.

(** The socket address the request goes to.
    src/src/canary.rs:225-235 (CanaryExecutor::endpoint) *)
Definition endpoint_address (public_listen : SocketAddr) : SocketAddr :=
  if match socket_ip public_listen with IpAddr.V4 o | IpAddr.V6 o => o =? 0 end
  then mkSocket (loopback_for (socket_ip public_listen)) (socket_port public_listen)
  else public_listen.

(** src/src/canary.rs:257-266 (canary_request_payload) *)
Definition canary_request_payload : Value :=
  Value.Object [("messages", Value.Array [Value.Object [("role", jstr "user"); ("content", jstr CANARY_PROMPT)]]);
    ("max_tokens", jnum CANARY_MAX_TOKENS); ("stream", Value.Bool true)]%string.

(** ** What the canary reports *)

Section RunProofs.
Context {serde : Serde} (policy : CanaryPolicy) (started : Z).

(** The progress that was noted lies between the start and now. *)
Definition progress_ok (now : Z) (p : Progress) : Prop :=
  0 ≤ tokens p ∧ ∀ last, last_progress p = Some last → started ≤ last ≤ now.

Lemma progress_ok_later now now' p : now ≤ now' → progress_ok now p → progress_ok now' p.
Proof. intros H [? Hl]. split; [done|]. intros last E. specialize (Hl last E). lia. Qed.

Lemma note_event_ok now p event :
  started ≤ now → progress_ok now p → progress_ok now (note_event now p event).
Proof.
  intros Hn [Ht Hl]. unfold note_event. destruct (0 <? ev_tokens event) eqn:E.
  - apply Z.ltb_lt in E. split; cbn.
    + unfold sat_add64, u64_max. destruct (ev_done event); cbn; lia.
    + intros last [= <-]. lia.
  - by destruct (ev_done event).
Qed.

Lemma note_events_ok now events : ∀ p,
  started ≤ now → progress_ok now p → progress_ok now (foldl (note_event now) p events).
Proof.
  induction events as [|event events IH]; intros p Hn Hp; [done|].
  apply IH; [done|by apply note_event_ok].
Qed.

(** What a result says, at time [t]. *)
Definition sound (code : option Z) (r : CanaryResult) (t : Z) : Prop :=
  started ≤ t ≤ until policy started ∧ elapsed_ms r = elapsed_millis started t
  ∧ status r = status_for (reason r) ∧ http_status r = code
  ∧ (reason r = CanaryReason.Healthy → 0 < generated r
       ∧ ¬ (2 ≤ generated r ∧ ∃ rate, chunk_tps r = Some rate ∧ double_lt rate (low_decode_tps policy) = true))
  ∧ (reason r = CanaryReason.LowDecodeTps → 2 ≤ generated r
       ∧ ∃ rate, chunk_tps r = Some rate ∧ double_lt rate (low_decode_tps policy) = true)
  ∧ (reason r = CanaryReason.ProgressStall → progress_stall policy < deadline policy
       ∧ started + progress_stall policy ≤ t).

Lemma failure_sound now code r n ttfb :
  started ≤ now ≤ until policy started →
  r = CanaryReason.HttpError ∨ r = CanaryReason.Deadline →
  sound code (failure started now code r n ttfb) now.
Proof. intros [H1 H2] [-> | ->]; by split_and!. Qed.

Lemma timeout_sound now code p :
  started ≤ now ≤ until policy started → progress_ok now p →
  sound (Some code)
    (failure started now (Some code) (timeout_reason now (until policy started) (last_progress p) (progress_stall policy))
       (tokens p) (ttfb p)) now.
Proof.
  intros Hn [_ Hl]. unfold timeout_reason.
  destruct (last_progress p) as [last|]; [|apply failure_sound; auto].
  specialize (Hl last eq_refl).
  destruct (_ && _) eqn:E; [|apply failure_sound; auto].
  apply andb_true_iff in E as [E1%Z.leb_le E2%Z.ltb_lt]. unfold until in *.
  unfold sound, until. split_and!; cbn; try done; try lia; intros HR; try discriminate HR; lia.
Qed.

Lemma conclude_sound now code p :
  started ≤ now ≤ until policy started → progress_ok now p →
  sound (Some code) (conclude policy started now code p) now.
Proof.
  intros Hn [Ht _]. unfold conclude. destruct (tokens p =? 0) eqn:E; [apply failure_sound; auto|].
  apply Z.eqb_neq in E.
  set (rate := first ← generation_started p; _). clearbody rate.
  destruct ((2 <=? tokens p) && _) eqn:Hlow; split_and!; try done; cbn; try lia.
  - intros _. apply andb_true_iff in Hlow as [H1%Z.leb_le H2]. split; [done|].
    destruct rate as [x|]; [|done]. by exists x.
  - intros _. split; [lia|]. intros (H1 & x & -> & Hx). rewrite Hx in Hlow.
    rewrite (proj2 (Z.leb_le _ _) H1) in Hlow. done.
Qed.

Lemma wait_bounds now p :
  now ≤ until policy started → 0 ≤ wait_for_chunk policy started now p ≤ until policy started - now.
Proof. intros H. unfold wait_for_chunk, sat_sub. destruct (last_progress p); lia. Qed.

Lemma read_stream_sound code items ends_after : ∀ now p,
  started ≤ now ≤ until policy started → progress_ok now p →
  Forall (fun y => 0 ≤ y.1) items → (∀ d, ends_after = Some d → 0 ≤ d) →
  let '(r, t) := read_stream policy started now code p items ends_after in sound (Some code) r t.
Proof.
  induction items as [|[d item] items IH]; intros now p Hn Hp Hd He; cbn [read_stream].
  all: pose proof (wait_bounds now p ltac:(lia)) as Hw.
  all: destruct (wait_for_chunk policy started now p =? 0); [by apply timeout_sound|].
  all: assert (sound (Some code) (failure started (now + wait_for_chunk policy started now p) (Some code)
      (timeout_reason (now + wait_for_chunk policy started now p) (until policy started) (last_progress p)
         (progress_stall policy)) (tokens p) (ttfb p)) (now + wait_for_chunk policy started now p)) as Hto
    by (apply timeout_sound; [lia|by eapply progress_ok_later; [|done]; lia]).
  - destruct ends_after as [d|]; [|done]. destruct (d <=? _) eqn:E; [|done]. apply Z.leb_le in E.
    specialize (He d eq_refl). apply failure_sound; [lia|auto].
  - destruct (d <=? _) eqn:E; [|done]. apply Z.leb_le in E. apply Forall_cons in Hd as [Hd Hds].
    cbn in Hd. destruct item as [chunk|]; [|apply failure_sound; [lia|auto]].
    destruct (parser_push chunk (parser p)) as [[events rest]|]; [|apply failure_sound; [lia|auto]].
    set (p1 := mkProgress rest _ _ _ _ _).
    assert (progress_ok (now + d) p1) as Hp1 by by eapply (progress_ok_later now); [lia|].
    pose proof (note_events_ok (now + d) events p1 ltac:(lia) Hp1) as Hp2.
    match goal with |- context [if completed ?q then _ else _] => destruct (completed q) end.
    + apply conclude_sound; [lia|done].
    + apply IH; [lia|done..].
Qed.


End RunProofs.

(** With the default policy, whose limit between two tokens is longer than its deadline, a
    stall is never reported. *)
Lemma default_never_stalls {serde : Serde} started code items ends_after now p :
  started ≤ now ≤ until policy_default started → progress_ok started now p →
  Forall (fun y => 0 ≤ y.1) items → (∀ d, ends_after = Some d → 0 ≤ d) →
  reason (fst (read_stream policy_default started now code p items ends_after)) ≠ CanaryReason.ProgressStall.
Proof.
  intros Hn Hp Hi He Hr.
  pose proof (read_stream_sound policy_default started code items ends_after now p Hn Hp Hi He) as H.
  destruct (read_stream _ _ _ _ _ _ _) as [r t]. destruct H as (_ & _ & _ & _ & _ & _ & H).
  destruct (H Hr) as [Hlt _]. by vm_compute in Hlt.
Qed.

Module DemoCanary.

(** A [Serde] that knows the chunks below. *)
Definition token_chunk : bytes := str "{token}".
Definition usage_chunk : bytes := str "{usage}".
Definition serde : Serde := {|
  from_slice b :=
    if bool_decide (b = token_chunk) then
      Some (Value.Object [("choices", Value.Array [Value.Object
        [("delta", Value.Object [("content", jstr "OK")])]])]%string)
    else if bool_decide (b = usage_chunk) then
      Some (Value.Object [("usage", Value.Object [("completion_tokens", jnum 2)])]%string)
    else None;
  to_string := CompactPrinter.print;
|}.

Definition data (b : bytes) : bytes := str "data: " ++ b ++ [LF; LF].
Definition run (items : list (Z * Chunk)) :=
  execute_with_permit (serde := serde) policy_default 0
    (mkCanaryAnswer (secs 1) (Some (200, mkUpstream items (Some 0)))).

(** Two tokens in two tenths of a second. *)
Definition quick : list (Z * Chunk) :=
  [(secs 1, Ok (data token_chunk)); (from_millis 200, Ok (data token_chunk ++ data (str "[DONE]")))].

Example quick_is_healthy :
  reason (run quick).1 = CanaryReason.Healthy ∧ generated (run quick).1 = 2
  ∧ elapsed_ms (run quick).1 = 2200.
Proof. vm_compute. done. Qed.

(** Two tokens half a second apart are four per second, below the limit of five; when the
    stream also reports its usage they count twice, and the rate passes as eight. *)
Definition slow (usage : list (Z * Chunk)) : list (Z * Chunk) :=
  [(secs 1, Ok (data token_chunk)); (from_millis 500, Ok (data token_chunk))]
  ++ usage ++ [(0, Ok (data (str "[DONE]")))].

Example usage_counts_twice :
  reason (run (slow [])).1 = CanaryReason.LowDecodeTps
  ∧ generated (run (slow [(0, Ok (data usage_chunk))])).1 = 4
  ∧ reason (run (slow [(0, Ok (data usage_chunk))])).1 = CanaryReason.Healthy.
Proof. vm_compute. done. Qed.

(** Forty seconds of silence after the first token are a missed deadline, no stall. *)
Example silence_is_deadline :
  reason (run [(secs 1, Ok (data token_chunk)); (secs 40, Ok (data (str "[DONE]")))]).1
  = CanaryReason.Deadline.
Proof. vm_compute. reflexivity. Qed.

End DemoCanary.

Section canary_witnesses.


End canary_witnesses.
