(* ===== verification/Notify.v ===== *)
(** * Desktop notifications: [src/src/notify.rs], [src/src/localization.rs]

    Which transitions of the cluster are told to the user, once per epoch and paced, the relay
    of a notification from the runtime to the menu-bar monitor, and the permission of the
    notification centre.  A time is in milliseconds.  The strings of the application bundle
    are the interface [Bundle]; the notification centre, the GUI session and the relay's
    socket appear as their answers. *)

From stdpp Require Import sorting.
From S2P Require Import Prelude Bytes Text Target ClusterFsm Metrics.
Local Open Scope Z_scope.

(** The localized strings of the application bundle, which the system looks up. *)
Class Bundle := { localized : bytes → option bytes }.

(** src/src/localization.rs:4-52 (text) *)
Definition text `{Bundle} (key fallback : string) : bytes :=
  default (str fallback) (localized (str key)).

(** ** Data *)

(** src/src/notify.rs:28-28 (NOTIFICATION_MIN_INTERVAL) *)
Definition NOTIFICATION_MIN_INTERVAL : Z := 5000.

(** src/src/notify.rs:33-38 (Notification) *)
Record Notification := mkNotification { title : bytes; body : bytes }.

Module NotificationKind.

(** src/src/notify.rs:40-49 (NotificationKind) *)
Inductive NotificationKind :=
| SoloStandaloneReady
| PairedStandaloneReady
| StandaloneRestart
| DistributedReady
| Backoff
| ManualInterventionRequired
| DeploymentMismatch.

End NotificationKind.
Notation NotificationKind := NotificationKind.NotificationKind.

#[export] Instance NotificationKind_eq_dec : EqDecision NotificationKind.
Proof. solve_decision. Defined.

(** src/src/notify.rs:51-62 (NotificationKind::as_str) *)
Definition kind_name (k : NotificationKind) : bytes :=
  match k with
  | NotificationKind.SoloStandaloneReady => str "solo-standalone-ready"
  | NotificationKind.PairedStandaloneReady => str "paired-standalone-ready"
  | NotificationKind.StandaloneRestart => str "standalone-restart"
  | NotificationKind.DistributedReady => str "distributed-ready"
  | NotificationKind.Backoff => str "backoff"
  | NotificationKind.ManualInterventionRequired => str "manual-intervention-required"
  | NotificationKind.DeploymentMismatch => str "deployment-mismatch"
  end.

(** src/src/notify.rs:64-74 (NotificationEvent) *)
Record NotificationEvent := mkNotificationEvent {
  ev_kind : NotificationKind;
  ev_notification : Notification;
}.

(** src/src/notify.rs:82-86 (NotificationEpoch) *)
Record NotificationEpoch := mkEpoch { ep_recovery_id : bytes; ep_generation : Z }.

#[export] Instance NotificationEpoch_eq_dec : EqDecision NotificationEpoch.
Proof. solve_decision. Defined.

(** src/src/notify.rs:90-94 (NotificationDeduplicator) *)
Record NotificationDeduplicator := mkDedup {
  emitted_stable_states : list NotificationKind;
  epoch : option NotificationEpoch;
}.
Definition dedup_default : NotificationDeduplicator := mkDedup [] None.

(** src/src/notify.rs:97-104 (NotificationDeduplicator::ensure_implicit_epoch) *)
Definition ensure_implicit_epoch (generation : Z) (d : NotificationDeduplicator)
    : NotificationDeduplicator :=
  match epoch d with
  | None => mkDedup (emitted_stable_states d) (Some (mkEpoch (str "cluster-transition") generation))
  | Some _ => d
  end.

(** src/src/notify.rs:106-115 (NotificationDeduplicator::begin_recovery_epoch) *)
Definition begin_recovery_epoch (recovery_id : bytes) (generation : Z) (d : NotificationDeduplicator)
    : NotificationDeduplicator :=
  let e := mkEpoch recovery_id generation in
  if bool_decide (epoch d = Some e) then d else mkDedup [] (Some e).

(** src/src/notify.rs:121-124 (NotificationDeduplicator::end_epoch) *)
Definition end_epoch : NotificationDeduplicator := mkDedup [] None.

Definition is_stable (k : NotificationKind) : bool :=
  match k with
  | NotificationKind.SoloStandaloneReady | NotificationKind.PairedStandaloneReady => true
  | _ => false
  end.

(** src/src/notify.rs:126-138 (NotificationDeduplicator::should_emit) *)
Definition should_emit (k : NotificationKind) (d : NotificationDeduplicator)
    : bool * NotificationDeduplicator :=
  if bool_decide (k = NotificationKind.DistributedReady) then (true, mkDedup [] (epoch d))
  else if is_stable k then
    if bool_decide (k ∈ emitted_stable_states d) then (false, d)
    else (true, mkDedup (k :: emitted_stable_states d) (epoch d))
  else (true, d).

(** ** What a transition tells *)

Section Events.
Context {bundle : Bundle}.

(** src/src/notify.rs:825-912 (notification_event_for_snapshot_transition) *)
Definition notification_event_for_snapshot_transition (previous current : ClusterState)
    (failure : option ClusterFailure) : option NotificationEvent :=
  let event kind key fallback :=
    Some (mkNotificationEvent kind (mkNotification (text "app.name" "Siderostat") (text key fallback))) in
  if bool_decide (current = ClusterState.SoloStandaloneReady)
     && bool_decide (failure = Some ClusterFailure.DeploymentMismatch) then
    event NotificationKind.DeploymentMismatch "notification.deployment_mismatch"
      "2台のds4-serverの設定が一致しないためDistributed（layer-parallel）モードを開始できません。設定を確認して再試行してください。Standaloneモードで待機します"
  else
    match previous, current with
    | ClusterState.Demoting, ClusterState.PairedStandaloneReady =>
        event NotificationKind.StandaloneRestart "notification.standalone.restarted"
          "ds4-serverをStandaloneモードで再起動しました"
    | _, ClusterState.SoloStandaloneReady =>
        event NotificationKind.SoloStandaloneReady "notification.standalone.started"
          "ds4-serverをStandaloneモードで起動しました"
    | _, ClusterState.PairedStandaloneReady =>
        event NotificationKind.PairedStandaloneReady "notification.standalone.peer_detected"
          "ネットワーク上の別のds4-serverを検出しました"
    | ClusterState.DistributedStarting, ClusterState.DistributedReady =>
        event NotificationKind.DistributedReady "notification.distributed.ready"
          "2台のds4-serverをDistributed（layer-parallel）モードに切り替えました"
    | _, ClusterState.Backoff =>
        event NotificationKind.Backoff "notification.distributed.backoff"
          "ds4-serverのDistributed（layer-parallel）モードへの切替に失敗しました。Standaloneモードで待機します"
    | _, ClusterState.ManualInterventionRequired =>
        event NotificationKind.ManualInterventionRequired "notification.manual_intervention"
          "ds4-serverのモード変更に失敗しました。手動で復旧してください"
    | _, _ => None
    end%string.

(** src/src/notify.rs:914-930 (notification_event_for_snapshots) *)
Definition notification_event_for_snapshots (previous current : ClusterSnapshot)
    : option NotificationEvent :=
  event ← notification_event_for_snapshot_transition (state previous) (state current)
            (last_failure current);
  if bool_decide (ev_kind event = NotificationKind.PairedStandaloneReady)
     && bool_decide (role current = LocalRole.Worker) && negb (local_standalone_ready current)
  then None else Some event.

(** ** The service *)

(** [posted]: the notifications handed to a task of their own, the latest last, with the time.
    src/src/notify.rs:573-579 (DesktopNotificationService) *)
Record DesktopNotificationService := mkService {
  metrics : Metrics;
  last_sent_at : option Z;
  deduplicator : NotificationDeduplicator;
  posted : list (Z * Notification);
}.

(** src/src/notify.rs:589-612 (DesktopNotificationService::with_session_check_and_metrics) *)
Definition service_new (m : Metrics) : DesktopNotificationService := mkService m None dedup_default [].

(** src/src/notify.rs:774-801 (DesktopNotificationService::maybe_notify) *)
Definition maybe_notify (now : Z) (n : Notification) (s : DesktopNotificationService)
    : DesktopNotificationService :=
  match last_sent_at s with
  | Some last =>
      if sat_sub now last <? NOTIFICATION_MIN_INTERVAL then s
      else mkService (metrics s) (Some now) (deduplicator s) (posted s ++ [(now, n)])
  | None => mkService (metrics s) (Some now) (deduplicator s) (posted s ++ [(now, n)])
  end.

Definition with_dedup (f : NotificationDeduplicator → NotificationDeduplicator)
    (s : DesktopNotificationService) : DesktopNotificationService :=
  mkService (metrics s) (last_sent_at s) (f (deduplicator s)) (posted s).

(** src/src/notify.rs:753-772 (DesktopNotificationService::observe_event) *)
Definition observe_event (now : Z) (event : NotificationEvent) (s : DesktopNotificationService)
    : DesktopNotificationService :=
  let (emit, d) := should_emit (ev_kind event) (deduplicator s) in
  if (emit : bool) then maybe_notify now (ev_notification event) (with_dedup (λ _, d) s)
  else mkService (note_notification_suppressed (kind_name (ev_kind event)) (metrics s))
         (last_sent_at s) d (posted s).

(** src/src/notify.rs:652-664 (DesktopNotificationService::observe_snapshot_transition) *)
Definition observe_snapshot_transition (now : Z) (previous current : ClusterSnapshot)
    (s : DesktopNotificationService) : DesktopNotificationService :=
  let s := with_dedup (ensure_implicit_epoch (generation current)) s in
  let s := match notification_event_for_snapshots previous current with
           | Some event => observe_event now event s
           | None => s
           end in
  if bool_decide (state current = ClusterState.DistributedReady)
  then with_dedup (λ _, end_epoch) s else s.

(** src/src/notify.rs:668-700 (DesktopNotificationService::observe_startup) *)
Definition observe_startup (now : Z) (started : ClusterState) (s : DesktopNotificationService)
    : DesktopNotificationService :=
  let heading := text "notification.startup.title" "ds4-serverの起動" in
  let event kind key fallback :=
    observe_event now (mkNotificationEvent kind (mkNotification heading (text key fallback))) s in
  match started with
  | ClusterState.SoloStandaloneReady =>
      event NotificationKind.SoloStandaloneReady "notification.standalone.started"
        "ds4-serverをStandaloneモードで起動しました"
  | ClusterState.ManualInterventionRequired =>
      event NotificationKind.ManualInterventionRequired "notification.manual_intervention"
        "ds4-serverのモード変更に失敗しました。手動で復旧してください"
  | _ => maybe_notify now (mkNotification heading
           (text "notification.startup.starting" "ds4-serverを起動中")) s
  end%string.

(** src/src/notify.rs:703-711 (DesktopNotificationService::observe_child_restart) *)
Definition observe_child_restart (now : Z) : DesktopNotificationService → DesktopNotificationService :=
  maybe_notify now (mkNotification (text "app.name" "Siderostat")
    (text "notification.standalone.restarted" "ds4-serverをStandaloneモードで再起動しました")).

(** src/src/notify.rs:716-725 (DesktopNotificationService::observe_recovery_started) *)
Definition observe_recovery_started (recovery_id : bytes) (generation : Z)
    : DesktopNotificationService → DesktopNotificationService :=
  with_dedup (begin_recovery_epoch recovery_id generation).

(** The snapshots are those that the task saw: a watch channel keeps only the last one.
    src/src/notify.rs:934-944 (run_desktop_notifier) *)
Fixpoint run_desktop_notifier (previous : ClusterSnapshot) (seen : list (Z * ClusterSnapshot))
    (s : DesktopNotificationService) : DesktopNotificationService :=
  match seen with
  | [] => s
  | (now, current) :: seen =>
      run_desktop_notifier current seen (observe_snapshot_transition now previous current s)
  end.

(** src/src/app.rs:1157-1180 (spawn_desktop_notifier) *)
Definition spawn_desktop_notifier (now : Z) (startup_state : ClusterState) (first : ClusterSnapshot)
    (seen : list (Z * ClusterSnapshot)) (s : DesktopNotificationService)
    : DesktopNotificationService :=
  run_desktop_notifier first seen (observe_startup now startup_state s).

(** A pass of the local monitor: [after] is the snapshot of a reconcile that succeeded.
    src/src/app.rs:1199-1210 (spawn_local_monitor) *)
Definition local_monitor_pass (now before : Z) (after : option ClusterSnapshot)
    (s : DesktopNotificationService) : DesktopNotificationService :=
  match after with
  | Some snapshot =>
      if bool_decide (generation snapshot ≠ before) then observe_child_restart now s else s
  | None => s
  end.

(** Everything that happens to the service of a node. *)
Inductive Input :=
| Started (st : ClusterState)
| Transition (previous current : ClusterSnapshot)
| ChildRestarted
| RecoveryStarted (recovery_id : bytes) (gen : Z).

Definition step (now : Z) (i : Input) : DesktopNotificationService → DesktopNotificationService :=
  match i with
  | Started st => observe_startup now st
  | Transition previous current => observe_snapshot_transition now previous current
  | ChildRestarted => observe_child_restart now
  | RecoveryStarted id gen => observe_recovery_started id gen
  end.

Fixpoint serve (inputs : list (Z * Input)) (s : DesktopNotificationService)
    : DesktopNotificationService :=
  match inputs with
  | [] => s
  | (now, i) :: inputs => serve inputs (step now i s)
  end.

End Events.

(** ** The relay to the menu-bar monitor *)

Module NotifyError.

(** src/src/notify.rs:150-160 (NotifyError) *)
Inductive NotifyError := SessionUnavailable | Native | Relay | Io.

End NotifyError.
Notation NotifyError := NotifyError.NotifyError.

(** src/src/notify.rs:220-224 (NotificationEnvelope) *)
Record NotificationEnvelope := mkEnvelope { en_notification : Notification; en_sound : bool }.

(** src/src/notify.rs:393-400 (send_notification_envelope) *)
Definition retry_delays : list Z := [0; 100; 250; 500; 1000; 2000].

(** What a connection to the relay's socket does: it is refused, or the envelope is written
    and the stream shut down. *)
Inductive Connection := Refused | Connected (written : result unit unit).

(** The answer, the time slept and the connections tried; [connect] is the answer to the nth
    one.
    src/src/notify.rs:402-418 (send_notification_envelope) *)
Fixpoint send_loop (connect : nat → Connection) (tried : nat) (slept : Z) (delays : list Z)
    : result unit NotifyError * Z * nat :=
  match delays with
  | [] => (Err NotifyError.Relay, slept, tried)
  | delay :: delays =>
      match connect tried with
      | Connected (Ok _) => (Ok tt, slept + delay, S tried)
      | Connected (Err _) => (Err NotifyError.Io, slept + delay, S tried)
      | Refused => send_loop connect (S tried) (slept + delay) delays
      end
  end.

(** src/src/notify.rs:382-419 (send_notification_envelope) *)
Definition send_notification_envelope (home : option bytes) (connect : nat → Connection)
    : result unit NotifyError * Z * nat :=
  match home with
  | None => (Err NotifyError.Relay, 0, 0%nat)
  | Some _ => send_loop connect 0 0 retry_delays
  end.

(** src/src/notify.rs:236-256 (NotificationRelayNotifier::send) *)
Definition relay_send (enabled : bool) (home : option bytes) (connect : nat → Connection)
    : result unit NotifyError * Z * nat :=
  if negb enabled then (Ok tt, 0, 0%nat) else send_notification_envelope home connect.

(** The socket before the relay starts. *)
Record RelaySocket := mkSocket {
  directory_created : result unit unit;
  socket_exists : bool;
  answers : bool;
  removed : result unit unit;
  bound : result unit unit;
}.

(** src/src/notify.rs:290-320 (start_notification_relay) *)
Definition start_notification_relay (home : option bytes) (f : RelaySocket)
    : result unit NotifyError :=
  (let? _ := ok_or home NotifyError.Relay in
   let? _ := map_err (λ _, NotifyError.Io) (directory_created f) in
   let? _ := if socket_exists f then
               if answers f then Err NotifyError.Relay else map_err (λ _, NotifyError.Io) (removed f)
             else Ok tt in
   map_err (λ _, NotifyError.Io) (bound f))%rust.

(** ** The notification centre *)

(** [AUTHORIZATION_STATE], what was shown with or without sound, and the request whose
    permission is being asked for.
    src/src/notify.rs:451-455 (post_user_notification) *)
Record Centre := mkCentre {
  authorization : Z;
  shown : list (Notification * bool);
  asking : option (Notification * bool);
  asked : nat;
}.
Definition centre_new : Centre := mkCentre 0 [] None 0.

(** src/src/notify.rs:442-512 (post_user_notification) *)
Definition post_user_notification (n : Notification) (sound : bool) (c : Centre)
    : result unit NotifyError * Centre :=
  if authorization c =? 0 then (Ok tt, mkCentre 1 (shown c) (Some (n, sound)) (S (asked c)))
  else if authorization c =? 2 then
    (Ok tt, mkCentre 2 (shown c ++ [(n, sound)]) (asking c) (asked c))
  else if (authorization c =? 1) || (authorization c =? 3) then (Ok tt, c)
  else (Err NotifyError.Native, c).

(** The completion of the request for permission.
    src/src/notify.rs:480-494 (post_user_notification) *)
Definition permission_answered (granted : bool) (c : Centre) : Centre :=
  match asking c with
  | None => c
  | Some request =>
      if granted then mkCentre 2 (shown c ++ [request]) None (asked c)
      else mkCentre 3 (shown c) None (asked c)
  end.

(** src/src/notify.rs:193-199 (UserNotificationsNotifier::post) *)
Definition post (enabled sound : bool) (n : Notification) (c : Centre)
    : result unit NotifyError * Centre :=
  if negb enabled then (Ok tt, c) else post_user_notification n sound c.

(** [payload] is what the connection carried, [None] when it cannot be read or decoded.
    src/src/notify.rs:354-378 (handle_notification_connection) *)
Definition handle_notification_connection (enabled sound : bool)
    (payload : option NotificationEnvelope) (c : Centre) : Centre :=
  match payload with
  | None => c
  | Some e => (post enabled (sound && en_sound e) (en_notification e) c).2
  end.

Inductive CentreInput :=
| Received (payload : option NotificationEnvelope)
| Answered (granted : bool).

Definition centre_step (enabled sound : bool) (i : CentreInput) (c : Centre) : Centre :=
  match i with
  | Received payload => handle_notification_connection enabled sound payload c
  | Answered granted => permission_answered granted c
  end.

Fixpoint centre_run (enabled sound : bool) (inputs : list CentreInput) (c : Centre) : Centre :=
  match inputs with
  | [] => c
  | i :: inputs => centre_run enabled sound inputs (centre_step enabled sound i c)
  end.

(** ** The choice of the notifier *)

Inductive Notifier := UserNotifications | RelayNotifier | NoopNotifier.
Inductive NotifyPlatform := MacOs | Other.

(** [Path::extension] of a file name. *)
Definition extension (name : bytes) : option bytes :=
  match split (str ".") name with
  | [] | [_] | [[]; _] => None
  | pieces => last pieces
  end.

(** [executable] is the list of the components of the path, [is_file] the file system.
    src/src/notify.rs:430-439 (is_siderostat_app_process) *)
Definition is_siderostat_app_process (executable : option (list bytes)) (is_file : list bytes → bool)
    : bool :=
  match executable with
  | None => false
  | Some executable =>
      bool_decide (last executable = Some (str "Siderostat"))
      && existsb (λ n, let path := take n executable in
                       bool_decide ((name ← last path; extension name) = Some (str "app"))
                       && is_file (path ++ [str "Contents"; str "Info.plist"]))
           (seq 0 (S (length executable)))
  end.

(** src/src/notify.rs:266-281 (build_notifier) *)
Definition build_notifier (executable : option (list bytes)) (is_file : list bytes → bool)
    (platform : NotifyPlatform) : Notifier :=
  match platform with
  | MacOs => if is_siderostat_app_process executable is_file then UserNotifications else RelayNotifier
  | Other => NoopNotifier
  end.

(** ** The service tells each state once and keeps its pace *)

Section Service.
Context {bundle : Bundle}.

(** What an input would tell if nothing held it back. *)
Definition candidate (i : Input) : option (option NotificationKind * Notification) :=
  match i with
  | Started st =>
      match st with
      | ClusterState.SoloStandaloneReady | ClusterState.ManualInterventionRequired =>
          Some (Some (if bool_decide (st = ClusterState.SoloStandaloneReady)
                      then NotificationKind.SoloStandaloneReady
                      else NotificationKind.ManualInterventionRequired),
                mkNotification (text "notification.startup.title" "ds4-serverの起動")
                  (if bool_decide (st = ClusterState.SoloStandaloneReady)
                   then text "notification.standalone.started" "ds4-serverをStandaloneモードで起動しました"
                   else text "notification.manual_intervention"
                          "ds4-serverのモード変更に失敗しました。手動で復旧してください"))
      | _ => Some (None, mkNotification (text "notification.startup.title" "ds4-serverの起動")
                           (text "notification.startup.starting" "ds4-serverを起動中"))
      end
  | Transition previous current =>
      e ← notification_event_for_snapshots previous current;
      Some (Some (ev_kind e), ev_notification e)
  | ChildRestarted =>
      Some (None, mkNotification (text "app.name" "Siderostat")
        (text "notification.standalone.restarted" "ds4-serverをStandaloneモードで再起動しました"))
  | RecoveryStarted _ _ => None
  end%string.

(** An input after which the stable states are told again. *)
Definition ends_epoch (i : Input) : bool :=
  match i with
  | Transition _ current => bool_decide (state current = ClusterState.DistributedReady)
  | RecoveryStarted _ _ => true
  | _ => false
  end.

(** What an input does: nothing is told, or its candidate is. *)
Definition told_kind (i : Input) : option NotificationKind := c ← candidate i; c.1.
Definition post_of (x : Z * Input) : option (Z * Notification) := c ← candidate x.2; Some (x.1, c.2).

Lemma maybe_notify_spec now n s :
  (maybe_notify now n s = s ∧ ∃ last, last_sent_at s = Some last ∧ now < last + NOTIFICATION_MIN_INTERVAL)
  ∨ maybe_notify now n s
      = mkService (metrics s) (Some now) (deduplicator s) (posted s ++ [(now, n)])
    ∧ (∀ last, last_sent_at s = Some last → last + NOTIFICATION_MIN_INTERVAL ≤ now).
Proof.
  unfold maybe_notify, NOTIFICATION_MIN_INTERVAL, sat_sub.
  destruct (last_sent_at s) as [last|]; [|right; done].
  destruct (Z.ltb_spec (Z.max (now - last) 0) 5000).
  - left. split; [done|]. eexists. split; [done|]. lia.
  - right. split; [done|]. intros ? [= <-]. lia.
Qed.

Definition emitted (s : DesktopNotificationService) : list NotificationKind :=
  emitted_stable_states (deduplicator s).

(** [s'] is [s], up to the counters and the epoch, after nothing was told. *)
Definition silent (s s' : DesktopNotificationService) : Prop :=
  posted s' = posted s ∧ last_sent_at s' = last_sent_at s ∧ emitted s ⊆ emitted s'.

Definition tells (now : Z) (k : option NotificationKind) (n : Notification)
    (s s' : DesktopNotificationService) : Prop :=
  posted s' = posted s ++ [(now, n)] ∧ last_sent_at s' = Some now ∧ emitted s ⊆ emitted s'
  ∧ (∀ last, last_sent_at s = Some last → last + NOTIFICATION_MIN_INTERVAL ≤ now)
  ∧ (∀ k', k = Some k' → is_stable k' = true → k' ∉ emitted s ∧ k' ∈ emitted s').

(** Nothing holds back an input of this kind. *)
Definition free_to_tell (now : Z) (k : option NotificationKind) (s : DesktopNotificationService)
    : Prop :=
  (∀ last, last_sent_at s = Some last → last + NOTIFICATION_MIN_INTERVAL ≤ now)
  ∧ (∀ k', k = Some k' → is_stable k' = true → k' ∉ emitted s).

Definition tells_or_silent (now : Z) (c : option (option NotificationKind * Notification))
    (s s' : DesktopNotificationService) : Prop :=
  (silent s s' ∧ ∀ k n, c = Some (k, n) → ¬ free_to_tell now k s)
  ∨ ∃ k n, c = Some (k, n) ∧ tells now k n s s'.

Lemma maybe_notify_tells now n s : tells_or_silent now (Some (None, n)) s (maybe_notify now n s).
Proof.
  destruct (maybe_notify_spec now n s) as [(-> & last & Hl & H) | (-> & H)].
  - left. split; [by split_and!|]. intros k n' [= <- <-] [H' _]. specialize (H' last Hl). lia.
  - right. exists None, n. split; [done|]. by split_and!.
Qed.

Lemma with_dedup_tells now k n d s :
  emitted s ⊆ emitted_stable_states d →
  (∀ k', k = Some k' → is_stable k' = true →
     k' ∉ emitted s ∧ k' ∈ emitted_stable_states d) →
  tells_or_silent now (Some (k, n)) s (maybe_notify now n (with_dedup (λ _, d) s)).
Proof.
  intros Hd Hk.
  destruct (maybe_notify_spec now n (with_dedup (λ _, d) s)) as [(-> & last & Hl & H) | (-> & H)].
  - left. split; [done|]. intros k' n' [= <- <-] [H' _]. specialize (H' last Hl). lia.
  - right. exists k, n. by split_and!.
Qed.

Lemma observe_event_tells now e s :
  ev_kind e ≠ NotificationKind.DistributedReady →
  tells_or_silent now (Some (Some (ev_kind e), ev_notification e)) s (observe_event now e s).
Proof.
  intros Hk. unfold observe_event, should_emit. rewrite (bool_decide_eq_false_2 _ Hk).
  destruct (is_stable (ev_kind e)) eqn:Hs; [case_bool_decide as Hin|].
  - left. split; [by split_and!|]. intros k n [= <- <-] [_ H]. exact (H _ eq_refl Hs Hin).
  - apply with_dedup_tells; [set_solver|]. intros k' [= <-] _. split; [exact Hin|set_solver].
  - apply with_dedup_tells; [done|]. intros k' [= <-] ?. congruence.
Qed.

Lemma event_not_ready previous current e :
  state current ≠ ClusterState.DistributedReady →
  notification_event_for_snapshots previous current = Some e →
  ev_kind e ≠ NotificationKind.DistributedReady.
Proof.
  unfold notification_event_for_snapshots, notification_event_for_snapshot_transition. intros Hr.
  destruct (_ && _); [cbn; repeat case_match; naive_solver|].
  destruct (state previous), (state current); try done; cbn; repeat case_match; naive_solver.
Qed.

Lemma step_tells now i s :
  ends_epoch i = false → tells_or_silent now (candidate i) s (step now i s).
Proof.
  destruct i as [st|previous current| |id gen]; cbn [ends_epoch step candidate]; intros He; [| | |done].
  - destruct st; try apply maybe_notify_tells; by apply observe_event_tells.
  - apply bool_decide_eq_false in He. unfold observe_snapshot_transition.
    rewrite (bool_decide_eq_false_2 _ He).
    set (s1 := with_dedup _ s).
    assert (H : emitted s1 = emitted s) by (unfold s1, emitted, ensure_implicit_epoch; cbn; by destruct (epoch (deduplicator s))).
    destruct (notification_event_for_snapshots previous current) as [e|] eqn:Hev; cbn.
    + pose proof (observe_event_tells now e s1 (event_not_ready _ _ _ He Hev)) as [[H1 H2]|(k & n & Hc & H1)].
      * left. split; [by unfold silent in *; rewrite H in H1|].
        intros k n Hc Hf. apply (H2 k n Hc). unfold free_to_tell in *. by rewrite H.
      * right. exists k, n. split; [done|]. unfold tells in *. by rewrite H in H1.
    + left. split; [|done]. unfold silent. by rewrite H.
  - apply maybe_notify_tells.
Qed.

(** ** Every run *)

Definition paced (s : DesktopNotificationService) : Prop :=
  StronglySorted (λ x y, x.1 + NOTIFICATION_MIN_INTERVAL ≤ y.1) (posted s)
  ∧ ∀ x, x ∈ posted s → ∃ last, last_sent_at s = Some last ∧ x.1 ≤ last.

Definition posts (now : Z) (s s' : DesktopNotificationService) : Prop :=
  (posted s' = posted s ∧ last_sent_at s' = last_sent_at s)
  ∨ ∃ n, posted s' = posted s ++ [(now, n)] ∧ last_sent_at s' = Some now
         ∧ ∀ last, last_sent_at s = Some last → last + NOTIFICATION_MIN_INTERVAL ≤ now.

Lemma maybe_notify_posts now n s : posts now s (maybe_notify now n s).
Proof. destruct (maybe_notify_spec now n s) as [[-> _]|[-> H]]; [by left|]. right. eauto. Qed.

Lemma observe_event_posts now e s : posts now s (observe_event now e s).
Proof.
  unfold observe_event. destruct (should_emit _ _) as [[] d]; [|by left].
  apply (maybe_notify_posts _ _ (with_dedup (λ _, d) s)).
Qed.

Lemma step_posts now i s : posts now s (step now i s).
Proof.
  destruct i as [st|previous current| |id gen]; cbn [step].
  - destruct st; first [apply maybe_notify_posts | apply observe_event_posts].
  - unfold observe_snapshot_transition. set (s1 := with_dedup _ s).
    destruct (notification_event_for_snapshots previous current) as [e|];
      [destruct (observe_event_posts now e s1) as [?|?]|]; case_bool_decide;
      first [by left | by right].
  - apply maybe_notify_posts.
  - by left.
Qed.

Lemma paced_step now i s : paced s → paced (step now i s).
Proof.
  intros [Hs Hl].
  destruct (step_posts now i s) as [[H1 H2]|(n & H1 & H2 & H3)]; unfold paced; rewrite H1, H2; [done|].
  split.
  - apply StronglySorted_app_2; [|done|by repeat constructor].
    intros x y Hx Hy%list_elem_of_singleton. subst y. destruct (Hl x Hx) as (last & ? & ?).
    specialize (H3 last ltac:(done)). cbn. lia.
  - intros x [Hx|Hx%list_elem_of_singleton]%elem_of_app; [|subst x; exists now; split; [done|cbn; lia]].
    destruct (Hl x Hx) as (last & ? & ?). specialize (H3 last ltac:(done)).
    unfold NOTIFICATION_MIN_INTERVAL in H3. exists now. split; [done|lia].
Qed.

Lemma paced_serve inputs s : paced s → paced (serve inputs s).
Proof.
  revert s; induction inputs as [|[now i] inputs IH]; intros s H; [done|]. cbn.
  apply IH, paced_step, H.
Qed.

Lemma serve_app a b s : serve (a ++ b) s = serve b (serve a s).
Proof. revert s; induction a as [|[now i] a IH]; intros s; [done|]. cbn. apply IH. Qed.

Definition stable_told (x : Z * Input) : option NotificationKind :=
  k ← told_kind x.2; if is_stable k then Some k else None.

Lemma serve_told inputs s :
  Forall (λ x, ends_epoch x.2 = false) inputs →
  emitted s ⊆ emitted (serve inputs s) ∧
  ∃ told, told `sublist_of` inputs ∧ posted (serve inputs s) = posted s ++ omap post_of told
    ∧ NoDup (omap stable_told told) ∧ (∀ k, k ∈ omap stable_told told → k ∉ emitted s).
Proof.
  revert s; induction inputs as [|[now i] inputs IH]; intros s H.
  { split; [done|]. exists []. split_and!; [done|by rewrite app_nil_r|constructor|set_solver]. }
  apply Forall_cons in H as [Hi H]. cbn [serve].
  destruct (IH (step now i s) H) as (IH1 & told & Hsub & Hp & Hnd & Hem).
  destruct (step_tells now i s Hi) as [((H1 & H2 & H3) & _)|(k & n & Hc & H1 & H2 & H3 & _ & H4)].
  - split; [set_solver|]. exists told. split_and!; [by constructor|by rewrite Hp, H1|done|set_solver].
  - split; [set_solver|]. exists ((now, i) :: told).
    assert (Hpost : post_of (now, i) = Some (now, n)) by (unfold post_of; cbn; by rewrite Hc).
    split; [by constructor|]. cbn [omap list_omap]. rewrite Hpost.
    split; [by rewrite Hp, H1, <- app_assoc|].
    assert (Hem' : ∀ k', k' ∈ omap stable_told told → k' ∉ emitted s)
      by (intros k' Hk' Hin; exact (Hem k' Hk' (H3 k' Hin))).
    assert (Hst : stable_told (now, i) = k' ← k; if is_stable k' then Some k' else None)
      by (unfold stable_told, told_kind; cbn; by rewrite Hc).
    destruct (stable_told (now, i)) as [k'|]; [|done].
    destruct k as [k0|]; [|done]. cbn in Hst. destruct (is_stable k0) eqn:Hk; [|done].
    injection Hst as ->. destruct (H4 k0 eq_refl Hk) as [H5 H6]. split.
    + constructor; [|done]. intros H7. exact (Hem k0 H7 H6).
    + intros k' [->|Hk']%elem_of_cons; [exact H5|exact (Hem' k' Hk')].
Qed.

Lemma step_keeps_posted now i s : posted s `prefix_of` posted (step now i s).
Proof. destruct (step_posts now i s) as [[-> _]|(n & -> & _)]; [done|by eexists]. Qed.

Lemma serve_keeps_posted inputs s : posted s `prefix_of` posted (serve inputs s).
Proof.
  revert s; induction inputs as [|[now i] inputs IH]; intros s; [done|]. cbn.
  transitivity (posted (step now i s)); [apply step_keeps_posted|apply IH].
Qed.

(** C31: The user is told, and not pestered.  Two notifications are never less than five
    seconds apart.  As long as no distributed operation is reached and no recovery starts,
    however often the two nodes find and lose each other, what is shown comes from inputs of
    the time it is shown, in their order, and each of the two stable states is told at most
    once; a failure that comes five seconds after the last notification, or later, is
    always told. *)
Theorem told_once_and_paced m before inputs :
  Forall (λ x, ends_epoch x.2 = false) inputs →
  let s := serve before (service_new m) in
  let s' := serve inputs s in
  StronglySorted (λ x y, x.1 + NOTIFICATION_MIN_INTERVAL ≤ y.1) (posted s')
  ∧ (∃ told, told `sublist_of` inputs ∧ posted s' = posted s ++ omap post_of told
      ∧ NoDup (omap stable_told told))
  ∧ (∀ a now i b k n, inputs = a ++ (now, i) :: b → candidate i = Some (Some k, n) →
      is_stable k = false →
      (∀ last, last_sent_at (serve a s) = Some last → last + NOTIFICATION_MIN_INTERVAL ≤ now) →
      (now, n) ∈ posted s').
Proof.
  intros H s s'. split_and!.
  - apply (paced_serve inputs), paced_serve. split; [constructor|set_solver].
  - destruct (serve_told inputs s H) as (_ & told & H1 & H2 & H3 & _). eauto.
  - intros a now i b k n -> Hc Hk Hfree. apply Forall_app in H as [_ H].
    apply Forall_cons in H as [Hi _]. unfold s'. rewrite serve_app. cbn [serve].
    destruct (serve_keeps_posted b (step now i (serve a s))) as [rest ->].
    apply elem_of_app; left.
    destruct (step_tells now i (serve a s) Hi) as [[_ Hno]|(k' & n' & Hc' & H1 & _)].
    + destruct (Hno _ _ Hc). split; [exact Hfree|]. intros k' [= <-]. by rewrite Hk.
    + cbn in Hi, Hc'. rewrite Hc in Hc'. injection Hc' as <- <-. rewrite H1. set_solver.
Qed.

End Service.

(** ** The relay and the centre *)

(** An envelope waits for the relay: it is written to the first of six connections that is
    accepted, and only when all six are refused, after 3.85 seconds, it is given up. *)
Lemma relay_retries home connect :
  send_notification_envelope (Some home) connect
  = match List.find (λ k, match connect k with Refused => false | _ => true end) (seq 0 6) with
    | Some k => (match connect k with Connected (Ok _) => Ok tt | _ => Err NotifyError.Io end,
                 foldr Z.add 0 (take (S k) retry_delays), S k)
    | None => (Err NotifyError.Relay, 3850, 6%nat)
    end.
Proof.
  unfold send_notification_envelope. cbn.
  repeat (case_match; try done).
Qed.

(** A relay that answers keeps its socket. *)
Lemma second_relay_refused home f :
  directory_created f = Ok tt → socket_exists f = true → answers f = true →
  start_notification_relay home f = Err NotifyError.Relay.
Proof. unfold start_notification_relay. intros -> -> ->. by destruct home. Qed.

Definition centre_ok (c : Centre) : Prop :=
  (authorization c = 0 ∧ asked c = 0%nat ∧ shown c = [] ∧ asking c = None)
  ∨ (asked c = 1%nat
     ∧ (authorization c = 1 ∧ shown c = [] ∧ is_Some (asking c)
        ∨ authorization c = 2 ∧ asking c = None
        ∨ authorization c = 3 ∧ shown c = [] ∧ asking c = None)).

Lemma centre_step_ok enabled sound i c : centre_ok c → centre_ok (centre_step enabled sound i c).
Proof.
  intros H. destruct i as [[e|]|granted]; cbn; [|done|].
  - unfold post, post_user_notification. destruct enabled; cbn; [|done].
    destruct H as [(H & H1 & H2 & H3)|(H & [(H1 & H2 & H3)|[(H1 & H2)|(H1 & H2 & H3)]])].
    + rewrite H. cbn. right. cbn. rewrite H1. split; [done|]. left. eauto.
    + rewrite H1. cbn. right. eauto 6.
    + rewrite H1. cbn. right. cbn. eauto 6.
    + rewrite H1. cbn. right. eauto 6.
  - unfold permission_answered.
    destruct H as [(H & H1 & H2 & H3)|(H & [(H1 & H2 & [r H3])|[(H1 & H2)|(H1 & H2 & H3)]])].
    + rewrite H3. left. eauto.
    + rewrite H3. right. destruct granted; cbn; eauto 6.
    + rewrite H2. right. eauto 6.
    + rewrite H3. right. eauto 6.
Qed.

(** The user is asked for the permission once, whatever is posted and answered, the code of
    an unknown permission is never reached, and nothing is shown without the permission. *)
Lemma permission_asked_once enabled sound inputs :
  let c := centre_run enabled sound inputs centre_new in
  (asked c ≤ 1)%nat ∧ 0 ≤ authorization c ≤ 3 ∧ (authorization c ≠ 2 → shown c = []).
Proof.
  assert (H : ∀ c, centre_ok c → centre_ok (centre_run enabled sound inputs c)).
  { induction inputs as [|i inputs IH]; intros c H; [done|]. cbn. apply IH, centre_step_ok, H. }
  cbn zeta. destruct (H centre_new) as [(-> & -> & -> & _)|(-> & Hc)];
    [by left|by split_and!; try lia|].
  split; [lia|]. naive_solver lia.
Qed.

Module DemoNotify.
#[local] Instance no_bundle : Bundle := { localized _ := None }.

Definition at_state (m : StableMode) (st : ClusterState) : ClusterSnapshot :=
  mkSnapshot 4 LocalRole.Coordinator m st ProxyTarget.LocalStandalone true None None.
Definition solo := at_state StableMode.SoloStandalone ClusterState.SoloStandaloneReady.
Definition paired := at_state StableMode.PairedStandalone ClusterState.PairedStandaloneReady.
Definition starting := at_state StableMode.PairedStandalone ClusterState.DistributedStarting.
Definition backoff := at_state StableMode.PairedStandalone ClusterState.Backoff.
Definition manual := at_state StableMode.PairedStandalone ClusterState.ManualInterventionRequired.
Definition ready := at_state StableMode.DistributedLayerParallel ClusterState.DistributedReady.

Definition shown_at (seen : list (Z * ClusterSnapshot)) : list Z :=
  (posted (run_desktop_notifier starting seen (service_new metrics_default))).*1.

(** Two nodes that find and lose each other for a while. *)
Definition flapping : list (Z * Input) :=
  [(0, Transition starting paired); (60000, Transition paired solo);
   (120000, Transition solo paired); (180000, Transition paired solo)].

(** The failure that needs the operator comes two seconds after the backoff and is not told. *)
Example manual_intervention_lost : shown_at [(0, backoff); (2000, manual)] = [0].
Proof. vm_compute. done. Qed.

(** A stable state that the pace held back counts as told and stays untold. *)
Example held_back_for_good :
  shown_at [(0, paired); (2000, solo); (60000, paired); (120000, solo)] = [0].
Proof. vm_compute. done. Qed.

(** A distributed operation that another state came between is not told. *)
Example ready_after_unseen_start : shown_at [(0, backoff); (60000, ready)] = [0].
Proof. vm_compute. done. Qed.

End DemoNotify.

Lemma told_once_and_paced_witness :
  (posted (serve (bundle := DemoNotify.no_bundle)
    DemoNotify.flapping (service_new metrics_default))).*1 = [0; 60000]
  ∧ StronglySorted (λ x y, x.1 + NOTIFICATION_MIN_INTERVAL ≤ y.1)
      (posted (serve (bundle := DemoNotify.no_bundle) DemoNotify.flapping
                 (service_new metrics_default))).
Proof.
  split; [vm_compute; reflexivity|].
  exact (proj1 (told_once_and_paced (bundle := DemoNotify.no_bundle) metrics_default [] DemoNotify.flapping
    ltac:(repeat constructor))).
Defined.
