(* ===== verification/Canonical.v ===== *)
(** * Canonical JSON: [canonical_json] of [src/src/cluster/manifest.rs]

    The text whose digest identifies a deployment: an object with its members in the order of
    their names.  That the text determines the members is a law of the JSON library; a
    compact printer meets it. *)

From S2P Require Import Prelude Bytes Json.
Local Open Scope Z_scope.

Fixpoint insert_member (m : string * Value) (l : list (string * Value)) : list (string * Value) :=
  match l with
  | [] => [m]
  | m' :: l' => if String.leb m.1 m'.1 then m :: l else m' :: insert_member m l'
  end.

(** The members of a [BTreeMap]. *)
Definition sort_members (l : list (string * Value)) : list (string * Value) :=
  foldr insert_member [] l.

(** [members] are the fields of a struct.
    src/src/cluster/manifest.rs:541-544 (canonical_json) *)
Definition canonical_json `{Serde} (members : list (string * Value)) : bytes :=
  to_string (Value.Object (sort_members members)).

(** The values in the identities of deployments: strings, [u64]s and lists of strings. *)
Definition string_value (v : Value) : Prop :=
  match v with Value.String s => is_bytes s | _ => False end.

Definition flat (v : Value) : Prop :=
  match v with
  | Value.String s => is_bytes s
  | Value.Number n => ∃ k, is_u64 k ∧ n = u64_to_string k
  | Value.Array l => Forall string_value l
  | _ => False
  end.

Definition jstring (s : bytes) : Value := Value.String s.
Definition jstrings (l : list bytes) : Value := Value.Array (Value.String <$> l).

(** The text of a flat object determines the values of its members. *)
Class CanonicalText `{Serde} : Prop := {
  same_text l l' :
    l.*1 = l'.*1 → Forall flat l.*2 → Forall flat l'.*2 →
    to_string (Value.Object l) = to_string (Value.Object l') → l = l';
}.

(** ** Sorting keeps the members *)

Lemma insert_member_perm m l : insert_member m l ≡ₚ m :: l.
Proof.
  induction l as [|m' l IH]; cbn; [done|]. destruct (String.leb _ _); [done|].
  rewrite IH. constructor.
Qed.

Lemma sort_members_perm l : sort_members l ≡ₚ l.
Proof. induction l as [|m l IH]; cbn; [done|]. by rewrite insert_member_perm, IH. Qed.

Lemma insert_member_keys m m' l l' :
  m.1 = m'.1 → l.*1 = l'.*1 → (insert_member m l).*1 = (insert_member m' l').*1.
Proof.
  revert l'; induction l as [|a l IH]; intros [|a' l'] Hm H; try done; cbn; [by rewrite Hm|].
  cbn in H. injection H as H1 H2. rewrite <- Hm, <- H1.
  destruct (String.leb _ _); cbn; [by rewrite Hm, H1, H2|]. by rewrite H1, (IH l').
Qed.

Lemma sort_members_keys l l' : l.*1 = l'.*1 → (sort_members l).*1 = (sort_members l').*1.
Proof.
  revert l'; induction l as [|m l IH]; intros [|m' l'] H; try done.
  cbn in H. injection H as H1 H2. cbn. by apply insert_member_keys, IH.
Qed.

Lemma insert_member_inj m m' l l' :
  m.1 = m'.1 → l.*1 = l'.*1 → insert_member m l = insert_member m' l' → m = m' ∧ l = l'.
Proof.
  revert l'; induction l as [|a l IH]; intros [|a' l'] Hm H Hi; try done.
  { cbn in Hi. by injection Hi as ->. }
  cbn in H, Hi. injection H as H1 H2. rewrite <- Hm, <- H1 in Hi.
  destruct (String.leb _ _); injection Hi as Hi1 Hi2; [by subst|].
  destruct (IH l' Hm H2 Hi2) as [-> ->]. by subst.
Qed.

Lemma sort_members_inj l l' : l.*1 = l'.*1 → sort_members l = sort_members l' → l = l'.
Proof.
  revert l'; induction l as [|m l IH]; intros [|m' l'] H Hs; try done.
  cbn in H, Hs. injection H as H1 H2.
  destruct (insert_member_inj m m' _ _ H1 (sort_members_keys _ _ H2) Hs) as [-> Hs'].
  f_equal. by apply IH.
Qed.

(** The canonical text of a struct determines its fields. *)
Lemma canonical_json_inj `{CanonicalText} l l' :
  l.*1 = l'.*1 → Forall flat l.*2 → Forall flat l'.*2 →
  canonical_json l = canonical_json l' → l = l'.
Proof.
  intros Hk Hl Hl' Hc. apply sort_members_inj; [done|].
  apply same_text; [by apply sort_members_keys|by rewrite sort_members_perm..|exact Hc].
Qed.

(** ** The compact printer *)

Section printer.
Import CompactPrinter.

Lemma hex_inj a b : 0 ≤ a < 16 → 0 ≤ b < 16 → hex a = hex b → a = b.
Proof.
  unfold hex. intros Ha Hb. destruct (Z.ltb_spec a 10), (Z.ltb_spec b 10); lia.
Qed.

Definition escape_case (b : Z) : Prop :=
  (escape b = [92; b] ∧ (b = 34 ∨ b = 92))
  ∨ (escape b = [92; 117; 48; 48; hex (b / 16); hex (b mod 16)] ∧ 0 ≤ b < 32)
  ∨ (escape b = [b] ∧ b ≠ 34 ∧ b ≠ 92 ∧ 32 ≤ b).

Lemma escape_cases b : is_u8 b → escape_case b.
Proof.
  unfold escape_case, escape. intros [H1 H2].
  destruct (Z.eqb_spec b 34), (Z.eqb_spec b 92); cbn [orb]; [lia|naive_solver..|].
  destruct (Z.ltb_spec b 32); [right; left|right; right]; split; (done || lia).
Qed.

Lemma escape_prefix b b' r r' :
  is_u8 b → is_u8 b' → escape b ++ r = escape b' ++ r' → b = b' ∧ r = r'.
Proof.
  intros Hb Hb'.
  destruct (escape_cases b Hb) as [[-> Hc]|[[-> Hc]|[-> Hc]]],
    (escape_cases b' Hb') as [[-> Hc']|[[-> Hc']|[-> Hc']]]; cbn; intros E;
    injection E; intros; subst; try (split; [lia|done]); try lia.
  split; [|done].
  pose proof (Z.div_mod b 16 ltac:(lia)). pose proof (Z.div_mod b' 16 ltac:(lia)).
  assert (b / 16 = b' / 16) by (apply hex_inj; [| |done]; split; try apply Z.div_pos;
    try apply Z.div_lt_upper_bound; lia).
  assert (b mod 16 = b' mod 16) by (apply hex_inj; try apply Z.mod_pos_bound; lia || done).
  lia.
Qed.

Lemma escape_not_quote b : is_u8 b → ∃ c l, escape b = c :: l ∧ c ≠ 34.
Proof.
  intros Hb. destruct (escape_cases b Hb) as [[-> _]|[[-> _]|[-> Hc]]]; eexists _, _;
    (split; [done|lia]).
Qed.

Lemma quote_prefix s s' r r' :
  is_bytes s → is_bytes s' → quote s ++ r = quote s' ++ r' → s = s' ∧ r = r'.
Proof.
  unfold quote. cbn. intros Hs Hs' E. injection E as E. rewrite <- !app_assoc in E. cbn in E.
  revert s' Hs' E; induction s as [|b s IH]; intros [|b' s'] Hs' E; cbn in E.
  - by injection E.
  - apply Forall_cons in Hs' as [Hb' _]. destruct (escape_not_quote b' Hb') as (c & l & Hl & Hc).
    rewrite Hl in E. cbn in E. congruence.
  - apply Forall_cons in Hs as [Hb _]. destruct (escape_not_quote b Hb) as (c & l & Hl & Hc).
    rewrite Hl in E. cbn in E. congruence.
  - apply Forall_cons in Hs as [Hb Hs]. apply Forall_cons in Hs' as [Hb' Hs'].
    rewrite <- !app_assoc in E. apply escape_prefix in E as [-> E]; [|done..].
    by destruct (IH Hs s' Hs' E) as [-> ->].
Qed.

Lemma digits_prefix d d' c c' r r' :
  forallb is_ascii_digit d = true → forallb is_ascii_digit d' = true →
  is_ascii_digit c = false → is_ascii_digit c' = false →
  d ++ c :: r = d' ++ c' :: r' → d = d' ∧ c :: r = c' :: r'.
Proof.
  revert d'; induction d as [|b d IH]; intros [|b' d'] Hd Hd' Hc Hc' E; cbn in *; [done|..].
  - injection E as -> E. by rewrite Hc in Hd'.
  - injection E as -> E. by rewrite Hc' in Hd.
  - apply andb_true_iff in Hd as [_ Hd], Hd' as [_ Hd']. injection E as -> E.
    by destruct (IH d' Hd Hd' Hc Hc' E) as [-> ->].
Qed.

Definition joined (l : list bytes) : bytes :=
  match l with [] => [] | x :: l => x ++ concat (map (cons 44) l) end.

Lemma join_joined l : join l = joined l.
Proof.
  induction l as [|x l IH]; [done|]. destruct l as [|y l]; [cbn; by rewrite app_nil_r|].
  change (join (x :: y :: l)) with (x ++ 44 :: join (y :: l)). by rewrite IH.
Qed.

(** Texts that are told apart whatever follows them, up to a separator. *)
Definition closes (c : Z) : Prop := c = 44 ∨ c = 93 ∨ c = 125.

Definition tells_apart {A} (p : A → bytes) (a b : A) : Prop :=
  ∀ c c' r r', closes c → closes c' → p a ++ c :: r = p b ++ c' :: r' → a = b ∧ c :: r = c' :: r'.

Lemma tails_prefix {A} (p : A → bytes) e l l' r r' :
  closes e → e ≠ 44 → Forall2 (tells_apart p) l l' ∨ (∀ a b, a ∈ l → b ∈ l' → tells_apart p a b) →
  concat (map (cons 44) (p <$> l)) ++ e :: r = concat (map (cons 44) (p <$> l')) ++ e :: r' →
  l = l' ∧ r = r'.
Proof.
  intros He Hne H.
  assert (Hfirst : ∀ (k : list A) q, ∃ c t, closes c ∧ concat (map (cons 44) (p <$> k)) ++ e :: q = c :: t).
  { intros [|a k] q; [by exists e, q|]. cbn. eexists 44, _. split; [by left|done]. }
  revert l' H; induction l as [|a l IH]; intros [|b l'] H E; cbn in E.
  - by injection E.
  - congruence.
  - congruence.
  - injection E as E. rewrite <- !app_assoc in E.
    destruct (Hfirst l r) as (c & t & Hc & Ht), (Hfirst l' r') as (c' & t' & Hc' & Ht').
    rewrite Ht, Ht' in E.
    assert (Hab : tells_apart p a b).
    { destruct H as [H|H]; [by inversion H|apply H; left]. }
    destruct (Hab c c' t t' Hc Hc' E) as [-> E']. rewrite <- Ht, <- Ht' in E'.
    destruct (IH l') as [-> ->]; [|exact E'|done].
    destruct H as [H|H]; [left; by inversion H|right]. intros x y Hx Hy. apply H; by right.
Qed.

Lemma string_apart v w : string_value v → string_value w → tells_apart print v w.
Proof.
  intros Hv Hw c c' r r' _ _ E. destruct v, w; try done. cbn in E.
  by destruct (quote_prefix _ _ _ _ Hv Hw E) as [-> ->].
Qed.

Lemma strings_prefix l l' r r' :
  Forall string_value l → Forall string_value l' →
  join (map print l) ++ 93 :: r = join (map print l') ++ 93 :: r' → l = l' ∧ r = r'.
Proof.
  rewrite !join_joined. intros Hl Hl' E.
  assert (Ha : ∀ a b, a ∈ l → b ∈ l' → tells_apart print a b).
  { rewrite Forall_forall in Hl, Hl'. intros a b ? ?. apply string_apart; auto. }
  apply (tails_prefix print 93 l l' r r'); [by right; left|done|by right|].
  destruct l as [|a l], l' as [|b l']; [done| | |exact (f_equal (cons 44) E)].
  all: cbn in E.
  - apply Forall_cons in Hl' as [Hb _]. by destruct b.
  - apply Forall_cons in Hl as [Hb _]. by destruct a.
Qed.

Lemma digits_start n : is_u64 n → ∃ c t, u64_to_string n = c :: t ∧ is_ascii_digit c = true.
Proof.
  intros Hn. destruct (u64_to_string_spec n Hn) as (Hne & Hd & _).
  destruct (u64_to_string n) as [|c t]; [done|]. cbn in Hd. apply andb_true_iff in Hd as [Hd _]. eauto.
Qed.

Lemma closes_not_digit c : closes c → is_ascii_digit c = false.
Proof. by intros [->|[->| ->]]. Qed.

Lemma flat_apart v w : flat v → flat w → tells_apart print v w.
Proof.
  intros Hv Hw c c' r r' Hc Hc' E. destruct v as [| |n|s|l|], w as [| |n'|s'|l'|]; try done; cbn [flat] in Hv, Hw; cbn [print] in E.
  - destruct Hv as (k & Hk & ->), Hw as (k' & Hk' & ->).
    destruct (u64_to_string_spec k Hk) as (_ & Hd & _), (u64_to_string_spec k' Hk') as (_ & Hd' & _).
    destruct (digits_prefix _ _ c c' r r' Hd Hd') as [-> E'];
      [by apply closes_not_digit|by apply closes_not_digit|done|by rewrite E'].
  - destruct Hv as (k & Hk & ->). destruct (digits_start k Hk) as (d & t & Ht & Hd).
    rewrite Ht in E. injection E as -> _. done.
  - destruct Hv as (k & Hk & ->). destruct (digits_start k Hk) as (d & t & Ht & Hd).
    rewrite Ht in E. injection E as -> _. done.
  - destruct Hw as (k & Hk & ->). destruct (digits_start k Hk) as (d & t & Ht & Hd).
    rewrite Ht in E. injection E as <- _. done.
  - by destruct (quote_prefix _ _ _ _ Hv Hw E) as [-> ->].
  - destruct Hw as (k & Hk & ->). destruct (digits_start k Hk) as (d & t & Ht & Hd).
    rewrite Ht in E. injection E as <- _. done.
  - injection E as E. rewrite <- !app_assoc in E. cbn [app] in E.
    by destruct (strings_prefix _ _ _ _ Hv Hw E) as [-> ->].
Qed.

Definition print_member (kv : string * Value) : bytes :=
  quote (bytes_of kv.1) ++ 58 :: print kv.2.

Lemma member_apart kv kv' :
  kv.1 = kv'.1 → flat kv.2 → flat kv'.2 → tells_apart print_member kv kv'.
Proof.
  destruct kv as [k v], kv' as [k' v']. cbn. intros -> Hv Hv' c c' r r' Hc Hc' E.
  unfold print_member in E. cbn in E. rewrite <- !app_assoc in E. apply (inj (cons 34)) in E.
  apply (inj (app _)), (inj (app _)) in E. injection E as E.
  by destruct (flat_apart v v' Hv Hv' c c' r r' Hc Hc' E) as [-> ->].
Qed.

End printer.

#[export] Instance printing_canonical : @CanonicalText printing_serde.
Proof.
  constructor. intros l l' Hk Hl Hl' E. cbn in E. injection E as E.
  rewrite !join_joined in E.
  assert (H : Forall2 (tells_apart print_member) l l').
  { clear E. revert l' Hk Hl Hl'. induction l as [|kv l IH]; intros [|kv' l'] Hk Hl Hl'; try done.
    cbn in Hk, Hl, Hl'. injection Hk as H1 H2. apply Forall_cons in Hl as [Hl1 Hl], Hl' as [Hl1' Hl'].
    constructor; [by apply member_apart|by apply IH]. }
  apply (tails_prefix print_member 125 l l' [] []); [by right; right|done|by left|].
  destruct l as [|kv l], l' as [|kv' l']; [done..|exact (f_equal (cons 44) E)].
Qed.
