(* ===== verification/Manifest.v ===== *)
(** * Manifests: [src/src/cluster/manifest.rs], [src/src/cluster/capability.rs]

    What two nodes must agree on before they serve together: the manifests of a deployment,
    their validation and identity, the capability of a build, and the fingerprints of files. *)

From Stdlib Require Import QArith_base.
From stdpp Require Import sorting.
From S2P Require Import Prelude Bytes Text Json Canonical Auth Download Config.
Local Open Scope Z_scope.

Module ManifestError.

(** src/src/cluster/manifest.rs:451-477 (ManifestError) *)
Inductive ManifestError :=
| UnsupportedSchema (version : Z)
| InvalidSha256
| InvalidBinaryCompatibilitySet
| BinaryNotApproved
| InvalidSourceCommit
| EmptyField
| ZeroSize
| IncompleteDspark
| InvalidDsparkConfidence
| DsparkBindingMismatch
| InconsistentSpeculativeSupport.

End ManifestError.
Notation ManifestError := ManifestError.ManifestError.

(** ** Checks *)

Definition is_lower_hex (b : Z) : bool := is_ascii_digit b || between 97 102 b.

(** src/src/cluster/manifest.rs:546-556 (validate_sha256) *)
Definition validate_sha256 (value : bytes) : result unit ManifestError :=
  ensure ((length value =? 64)%nat && forallb is_lower_hex value) ManifestError.InvalidSha256.

(** src/src/cluster/manifest.rs:558-568 (validate_source_commit) *)
Definition validate_source_commit (value : bytes) : result unit ManifestError :=
  ensure (((length value =? 40)%nat || (length value =? 64)%nat) && forallb is_lower_hex value)
    ManifestError.InvalidSourceCommit.

(** [for x in l { check(x)?; }]. *)
Fixpoint each {A E} (check : A → result unit E) (l : list A) : result unit E :=
  match l with
  | [] => Ok tt
  | x :: l => (let? _ := check x in each check l)%rust
  end.

Definition is_blank (value : bytes) : bool := bool_decide (trim value = []).

(** [windows(2).all(|pair| pair[0] < pair[1])]. *)
Fixpoint strictly_sorted (l : list bytes) : bool :=
  match l with
  | a :: (b :: _) as l' => negb (lex_leb b a) && strictly_sorted l'
  | _ => true
  end.

(** One to eight digests in order, each of them once. *)
Definition is_compatibility_set (l : list bytes) : bool :=
  negb (bool_decide (l = [])) && (length l <=? 8)%nat && strictly_sorted l.

(** [binary_search] in a sorted list. *)
Definition approves (l : list bytes) (digest : bytes) : bool := bool_decide (digest ∈ l).

(** ** The layer-parallel manifest *)

(** src/src/cluster/manifest.rs:15-15 (DEPLOYMENT_MANIFEST_SCHEMA_VERSION) *)
Definition DEPLOYMENT_MANIFEST_SCHEMA_VERSION : Z := 2.

Module Distributed.

(** src/src/cluster/manifest.rs:17-42 (DistributedManifest) *)
Record DistributedManifest := mkDistributedManifest {
  schema_version : Z;
  profile : bytes;
  ds4_binary_sha256 : bytes;
  compatible_ds4_binary_sha256 : list bytes;
  ds4_source_commit : bytes;
  model_sha256 : bytes;
  model_size : Z;
  checkpoint : bytes;
  model_family : bytes;
  quantization : bytes;
  topology : bytes;
  speculative_support : bytes;
  context_size : Z;
  coordinator_layers : bytes;
  worker_layers : bytes;
  ds4_wire_schema : bytes;
  argv_profile_sha256 : bytes;
}.

(** src/src/cluster/manifest.rs:45-96 (DistributedManifest::validate) *)
Definition validate (self : DistributedManifest) : result unit ManifestError :=
  (let? _ := ensure (schema_version self =? DEPLOYMENT_MANIFEST_SCHEMA_VERSION)
               (ManifestError.UnsupportedSchema (schema_version self)) in
   let? _ := each validate_sha256
               [ds4_binary_sha256 self; model_sha256 self; argv_profile_sha256 self] in
   let? _ := ensure (is_compatibility_set (compatible_ds4_binary_sha256 self))
               ManifestError.InvalidBinaryCompatibilitySet in
   let? _ := each validate_sha256 (compatible_ds4_binary_sha256 self) in
   let? _ := ensure (approves (compatible_ds4_binary_sha256 self) (ds4_binary_sha256 self))
               ManifestError.BinaryNotApproved in
   let? _ := validate_source_commit (ds4_source_commit self) in
   let? _ := each (λ value, ensure (negb (is_blank value)) ManifestError.EmptyField)
               [profile self; ds4_source_commit self; checkpoint self; model_family self;
                quantization self; topology self; speculative_support self;
                coordinator_layers self; worker_layers self; ds4_wire_schema self] in
   ensure (negb ((model_size self =? 0) || (context_size self =? 0))) ManifestError.ZeroSize)%rust.

(** The fields of [DistributedCompatibilityManifest], which leaves out the local binary.
    src/src/cluster/manifest.rs:105-122 (DistributedManifest::deployment_id) *)
Definition identity (self : DistributedManifest) : list (string * Value) :=
  [("schema_version", jnum (schema_version self));
   ("profile", jstring (profile self));
   ("compatible_ds4_binary_sha256", jstrings (compatible_ds4_binary_sha256 self));
   ("ds4_source_commit", jstring (ds4_source_commit self));
   ("model_sha256", jstring (model_sha256 self));
   ("model_size", jnum (model_size self));
   ("checkpoint", jstring (checkpoint self));
   ("model_family", jstring (model_family self));
   ("quantization", jstring (quantization self));
   ("topology", jstring (topology self));
   ("speculative_support", jstring (speculative_support self));
   ("context_size", jnum (context_size self));
   ("coordinator_layers", jstring (coordinator_layers self));
   ("worker_layers", jstring (worker_layers self));
   ("ds4_wire_schema", jstring (ds4_wire_schema self));
   ("argv_profile_sha256", jstring (argv_profile_sha256 self))]%string.

(** src/src/cluster/manifest.rs:103-124 (DistributedManifest::deployment_id) *)
Definition deployment_id `{Crypto} `{Serde} (self : DistributedManifest) : result bytes ManifestError :=
  (let? _ := validate self in Ok (sha256_hex (Canonical.canonical_json (identity self))))%rust.

(** src/src/cluster/manifest.rs:126-144 (DistributedManifest::compatible_with) *)
Definition compatible_with (self other : DistributedManifest) : result bool ManifestError :=
  (let? _ := validate self in
   let? _ := validate other in
   Ok (bool_decide (profile self = profile other)
    && bool_decide (compatible_ds4_binary_sha256 self = compatible_ds4_binary_sha256 other)
    && bool_decide (ds4_source_commit self = ds4_source_commit other)
    && bool_decide (model_sha256 self = model_sha256 other)
    && (model_size self =? model_size other)
    && bool_decide (checkpoint self = checkpoint other)
    && bool_decide (model_family self = model_family other)
    && bool_decide (quantization self = quantization other)
    && bool_decide (topology self = topology other)
    && bool_decide (speculative_support self = speculative_support other)
    && (context_size self =? context_size other)
    && bool_decide (coordinator_layers self = coordinator_layers other)
    && bool_decide (worker_layers self = worker_layers other)
    && bool_decide (ds4_wire_schema self = ds4_wire_schema other)
    && bool_decide (argv_profile_sha256 self = argv_profile_sha256 other)))%rust.

End Distributed.
Notation DistributedManifest := Distributed.DistributedManifest.

(** ** The standalone manifest *)

Module Standalone.

(** src/src/cluster/manifest.rs:167-195 (StandaloneManifest) *)
Record StandaloneManifest := mkStandaloneManifest {
  schema_version : Z;
  profile : bytes;
  profile_id : bytes;
  ds4_binary_sha256 : bytes;
  model_sha256 : bytes;
  checkpoint : bytes;
  quantization : bytes;
  residency : bytes;
  context_size : Z;
  argv_profile_sha256 : bytes;
  speculative_support : option bytes;
  dspark_enabled : bool;
  dspark_support_sha256 : option bytes;
  dspark_support_size : option Z;
  dspark_confidence : option double;
  dspark_strict : bool;
}.

(** src/src/cluster/manifest.rs:223-244 (StandaloneManifest::validate) *)
Definition validate_dspark (self : StandaloneManifest) : result unit ManifestError :=
  (if dspark_enabled self then
     let? digest := ok_or (dspark_support_sha256 self) ManifestError.IncompleteDspark in
     let? _ := validate_sha256 digest in
     let? _ := ensure (match dspark_support_size self with None => false | Some size => negb (size =? 0) end)
                 ManifestError.IncompleteDspark in
     ensure (match dspark_confidence self with
             | Some value => is_finite value && at_least 0%Q value && at_most 1%Q value
             | None => true
             end) ManifestError.InvalidDsparkConfidence
   else
     ensure (negb (is_some (dspark_support_sha256 self) || is_some (dspark_support_size self)
                   || is_some (dspark_confidence self) || dspark_strict self))
       ManifestError.IncompleteDspark)%rust.

(** src/src/cluster/manifest.rs:198-263 (StandaloneManifest::validate) *)
Definition validate (self : StandaloneManifest) : result unit ManifestError :=
  (let? _ := ensure (schema_version self =? DEPLOYMENT_MANIFEST_SCHEMA_VERSION)
               (ManifestError.UnsupportedSchema (schema_version self)) in
   let? _ := each validate_sha256
               [ds4_binary_sha256 self; model_sha256 self; argv_profile_sha256 self] in
   let? _ := each (λ value, ensure (negb (is_blank value)) ManifestError.EmptyField)
               [profile self; profile_id self; checkpoint self; quantization self; residency self] in
   let? _ := ensure (negb (context_size self =? 0)) ManifestError.ZeroSize in
   let? _ := validate_dspark self in
   match speculative_support self with
   | None => Ok tt
   | Some value =>
       let? _ := ensure (negb (is_blank value)) ManifestError.EmptyField in
       ensure (bool_decide (value = if dspark_enabled self then str "dspark" else str "none"))
         ManifestError.InconsistentSpeculativeSupport
   end)%rust.

End Standalone.
Notation StandaloneManifest := Standalone.StandaloneManifest.

(** ** Fingerprints *)

(** src/src/cluster/manifest.rs:289-298 (FileFingerprint) *)
Record FileFingerprint := mkFingerprint {
  fp_device_id : Z;
  fp_inode : Z;
  fp_size : Z;
  fp_modified_nanos : Z;
  fp_sha256 : bytes;
  fp_computed_at_millis : Z;
}.

(** src/src/cluster/manifest.rs:514-520 (FileMetadata) *)
Record FileMetadata := mkMetadata {
  device_id : Z;
  inode : Z;
  size : Z;
  modified_nanos : Z;
}.

#[export] Instance FileMetadata_eq_dec : EqDecision FileMetadata.
Proof. solve_decision. Defined.
#[export] Instance FileFingerprint_eq_dec : EqDecision FileFingerprint.
Proof. solve_decision. Defined.

Inductive FileError := FileFailed | MetadataChanged.

(** [mtime] and [mtime_nsec] in an [i128], then a [u128].
    src/src/cluster/manifest.rs:522-539 (fingerprint_metadata) *)
Definition fingerprint_metadata (dev ino len mtime mtime_nsec : Z) : FileMetadata :=
  mkMetadata dev ino len (let nanos := mtime * 1000000000 + mtime_nsec in
                          if nanos <? 0 then 0 else nanos).

Definition metadata_of (f : FileFingerprint) : FileMetadata :=
  mkMetadata (fp_device_id f) (fp_inode f) (fp_size f) (fp_modified_nanos f).

(** src/src/cluster/manifest.rs:301-307 (FileFingerprint::is_stale) *)
Definition is_stale (self : FileFingerprint) (current : FileMetadata) : bool :=
  negb (fp_device_id self =? device_id current) || negb (fp_inode self =? inode current)
  || negb (fp_size self =? size current) || negb (fp_modified_nanos self =? modified_nanos current).

(** What a file answers while its fingerprint is taken: the metadata before and after, and
    what each [read] gives. *)
Record FileAnswers := mkAnswers {
  before : result FileMetadata FileError;
  opened : result unit FileError;
  reads : list (result bytes FileError);
  after : result FileMetadata FileError;
}.

(** src/src/cluster/manifest.rs:482-491 (fingerprint_file) *)
Fixpoint read_all (reads : list (result bytes FileError)) (digested : bytes) : result bytes FileError :=
  match reads with
  | [] | Ok [] :: _ => Ok digested
  | Ok chunk :: reads => read_all reads (digested ++ chunk)
  | Err e :: _ => Err e
  end.

(** src/src/cluster/manifest.rs:479-512 (fingerprint_file) *)
Definition fingerprint_file `{Crypto} (now : Z) (f : FileAnswers) : result FileFingerprint FileError :=
  (let? initial := before f in
   let? _ := opened f in
   let? content := read_all (reads f) [] in
   let? final_metadata := after f in
   let? _ := ensure (bool_decide (initial = final_metadata)) MetadataChanged in
   Ok (mkFingerprint (device_id initial) (inode initial) (size initial) (modified_nanos initial)
         (sha256_hex content) (Z.min now u64_max)))%rust.

(** src/src/cluster/manifest.rs:310-315 (FingerprintCacheState) *)
Inductive FingerprintCacheState :=
| Missing
| Stale (f : FileFingerprint)
| Fresh (f : FileFingerprint).

(** src/src/cluster/manifest.rs:348-353 (FingerprintJobStatus) *)
Inductive FingerprintJobStatus :=
| Running
| Complete (f : FileFingerprint)
| Failed (e : FileError).

#[export] Instance FileError_eq_dec : EqDecision FileError.
Proof. solve_decision. Defined.
#[export] Instance FingerprintJobStatus_eq_dec : EqDecision FingerprintJobStatus.
Proof. solve_decision. Defined.

(** src/src/cluster/manifest.rs:355-360 (FingerprintJob) *)
Record FingerprintJob := mkFingerprintJob {
  fj_job_id : bytes;
  fj_profile : bytes;
  fj_status : FingerprintJobStatus;
}.

(** The cache and the jobs, each behind its lock, and the tasks that were spawned and have
    not finished, with their profile and job.
    src/src/cluster/manifest.rs:373-377 (FingerprintJobsInner) *)
Record FingerprintJobs := mkFingerprintJobs {
  cache : gmap bytes FileFingerprint;
  jobs : gmap bytes FingerprintJob;
  tasks : list (bytes * bytes);
}.
Definition fingerprint_jobs_default : FingerprintJobs := mkFingerprintJobs ∅ ∅ [].

(** [current] is the metadata of the file.
    src/src/cluster/manifest.rs:323-338 (FingerprintCache::state) *)
Definition cache_state (profile : bytes) (current : result FileMetadata FileError)
    (self : FingerprintJobs) : result FingerprintCacheState FileError :=
  match cache self !! profile with
  | None => Ok Missing
  | Some cached =>
      (let? current := current in Ok (if is_stale cached current then Stale cached else Fresh cached))%rust
  end.

(** [fresh] is a new [Uuid].
    src/src/cluster/manifest.rs:389-407 (FingerprintJobs::start) *)
Definition start (fresh profile : bytes) (self : FingerprintJobs)
    : result FingerprintJob bytes * FingerprintJobs :=
  if is_some_and (jobs self !! profile) (λ job, bool_decide (fj_status job = Running))
  then (Err profile, self)
  else
    let job := mkFingerprintJob fresh profile Running in
    (Ok job, mkFingerprintJobs (cache self) (<[profile := job]> (jobs self))
               (tasks self ++ [(profile, fresh)])).

(** The end of the task of a job.
    src/src/cluster/manifest.rs:411-437 (FingerprintJobs::start) *)
Definition finish (profile job_id : bytes) (answer : result FileFingerprint FileError)
    (self : FingerprintJobs) : FingerprintJobs :=
  let cache' := match answer with
                | Ok fingerprint => <[profile := fingerprint]> (cache self)
                | Err _ => cache self
                end in
  let status := match answer with Ok f => Complete f | Err e => Failed e end in
  mkFingerprintJobs cache'
    (if is_some_and (jobs self !! profile) (λ current, bool_decide (fj_job_id current = job_id))
     then <[profile := mkFingerprintJob job_id profile status]> (jobs self) else jobs self)
    (List.filter (λ t, negb (bool_decide (t = (profile, job_id)))) (tasks self)).

(** src/src/cluster/manifest.rs:441-448 (FingerprintJobs::get) *)
Definition get_job (profile : bytes) (self : FingerprintJobs) : option FingerprintJob :=
  jobs self !! profile.

(** [==] of [f64]s. *)
Definition double_eq (x y : double) : bool :=
  match x, y with
  | Finite a, Finite b => Qeq_bool a b
  | Infinity a, Infinity b => Bool.eqb a b
  | _, _ => false
  end.

(** src/src/cluster/manifest.rs:270-286 (StandaloneManifest::validate_dspark_binding) *)
Definition validate_dspark_binding (self : StandaloneManifest) (fingerprint : FileFingerprint)
    (confidence : option double) (strict : bool) : result unit ManifestError :=
  (let? _ := Standalone.validate self in
   ensure (Standalone.dspark_enabled self
           && bool_decide (Standalone.dspark_support_sha256 self = Some (fp_sha256 fingerprint))
           && bool_decide (Standalone.dspark_support_size self = Some (fp_size fingerprint))
           && match Standalone.dspark_confidence self, confidence with
              | Some a, Some b => double_eq a b
              | None, None => true
              | _, _ => false
              end
           && Bool.eqb (Standalone.dspark_strict self) strict)
     ManifestError.DsparkBindingMismatch)%rust.

(** ** The capability of a build *)

Module CapabilityStatus.

(** src/src/cluster/capability.rs:16-27 (CapabilityStatus) *)
Inductive CapabilityStatus := Reference | Candidate | Stable | Unsupported.

End CapabilityStatus.
Notation CapabilityStatus := CapabilityStatus.CapabilityStatus.

Module RoleKind.

(** src/src/cluster/capability.rs:33-38 (RoleKind) *)
Inductive RoleKind := Worker | Coordinator.

End RoleKind.
Notation RoleKind := RoleKind.RoleKind.

(** src/src/cluster/capability.rs:41-48 (ExecutableKind) *)
Inductive ExecutableKind := Ds4 | Ds4Server.

#[export] Instance CapabilityStatus_eq_dec : EqDecision CapabilityStatus.
Proof. solve_decision. Defined.
#[export] Instance RoleKind_eq_dec : EqDecision RoleKind.
Proof. solve_decision. Defined.
#[export] Instance ExecutableKind_eq_dec : EqDecision ExecutableKind.
Proof. solve_decision. Defined.

(** src/src/cluster/capability.rs:52-68 (RoleArtifact) *)
Record RoleArtifact := mkRoleArtifact {
  ra_role : RoleKind;
  ra_executable_kind : ExecutableKind;
  ra_path : bytes;
  ra_binary_sha256 : bytes;
  ra_compatible_binary_sha256 : list bytes;
  ra_source_commit : bytes;
  ra_arch : bytes;
  ra_backend : bytes;
  ra_help_sha256 : option bytes;
}.

Module CapabilityError.

(** src/src/cluster/capability.rs:218-236 (CapabilityError) *)
Inductive CapabilityError :=
| UnsupportedSchema (version : Z)
| NoRoleArtifacts
| DuplicateRole (role : RoleKind)
| RoleBinaryNotApproved (role : RoleKind)
| InvalidBinaryCompatibilitySet
| EmptyField
| Manifest (e : ManifestError).

End CapabilityError.
Notation CapabilityError := CapabilityError.CapabilityError.

(** [if let Some(digest) = o { validate_sha256(digest)?; }]. *)
Definition validate_optional_sha256 (o : option bytes) : result unit ManifestError :=
  match o with Some digest => validate_sha256 digest | None => Ok tt end.

(** A loop over the artifacts that refuses a role that comes again.  [check] is the rest of
    its body. *)
Fixpoint each_role {E} (duplicate : RoleKind → E) (check : RoleArtifact → result unit E)
    (roles : list RoleKind) (l : list RoleArtifact) : result unit E :=
  match l with
  | [] => Ok tt
  | a :: l =>
      (let? _ := ensure (bool_decide (ra_role a ∉ roles)) (duplicate (ra_role a)) in
       let? _ := check a in
       each_role duplicate check (ra_role a :: roles) l)%rust
  end.

Module Capability.

(** src/src/cluster/capability.rs:71-80 (MainAncestryProof) *)
Record MainAncestryProof := mkAncestry {
  tracked_commit : bytes;
  ancestor_of_main : bool;
  evidence : bytes;
}.

(** src/src/cluster/capability.rs:83-91 (Verification) *)
Record Verification := mkVerification {
  verified : bool;
  checked_at_millis : Z;
  notes : list bytes;
}.

(** src/src/cluster/capability.rs:94-111 (Ds4CapabilityManifest) *)
Record Ds4CapabilityManifest := mkCapability {
  schema_version : Z;
  source_commit : bytes;
  main_ancestry_proof : MainAncestryProof;
  build_id : bytes;
  role_artifacts : list RoleArtifact;
  transport : bytes;
  model_family : bytes;
  capabilities : list bytes;
  restrictions : list bytes;
  reference : bytes;
  verification : Verification;
}.

(** src/src/cluster/capability.rs:140-169 (Ds4CapabilityManifest::validate) *)
Definition validate_artifact (a : RoleArtifact) : result unit CapabilityError :=
  (let? _ := map_err CapabilityError.Manifest (validate_sha256 (ra_binary_sha256 a)) in
   let? _ := map_err CapabilityError.Manifest (validate_optional_sha256 (ra_help_sha256 a)) in
   let? _ := map_err CapabilityError.Manifest (validate_source_commit (ra_source_commit a)) in
   let? _ := ensure (negb (is_blank (ra_path a) || is_blank (ra_arch a) || is_blank (ra_backend a)))
               CapabilityError.EmptyField in
   let? _ := ensure (is_compatibility_set (ra_compatible_binary_sha256 a))
               CapabilityError.InvalidBinaryCompatibilitySet in
   let? _ := map_err CapabilityError.Manifest (each validate_sha256 (ra_compatible_binary_sha256 a)) in
   ensure (approves (ra_compatible_binary_sha256 a) (ra_binary_sha256 a))
     (CapabilityError.RoleBinaryNotApproved (ra_role a)))%rust.

(** src/src/cluster/capability.rs:121-172 (Ds4CapabilityManifest::validate) *)
Definition validate (self : Ds4CapabilityManifest) : result unit CapabilityError :=
  (let? _ := ensure (schema_version self =? 1) (CapabilityError.UnsupportedSchema (schema_version self)) in
   let? _ := map_err CapabilityError.Manifest (validate_source_commit (source_commit self)) in
   let? _ := map_err CapabilityError.Manifest
               (validate_source_commit (tracked_commit (main_ancestry_proof self))) in
   let? _ := ensure (negb (is_blank (build_id self) || is_blank (reference self)))
               CapabilityError.EmptyField in
   let? _ := ensure (negb (bool_decide (length (role_artifacts self) = 0%nat)))
               CapabilityError.NoRoleArtifacts in
   each_role CapabilityError.DuplicateRole validate_artifact [] (role_artifacts self))%rust.

(** src/src/cluster/capability.rs:114-118 (CapabilityAssessment) *)
Record CapabilityAssessment := mkAssessment { status : CapabilityStatus; reason : option bytes }.

(** src/src/cluster/capability.rs:180-204 (Ds4CapabilityManifest::assess) *)
Definition assess (self : Ds4CapabilityManifest) : result CapabilityAssessment CapabilityError :=
  (let? _ := validate self in
   Ok (if negb (ancestor_of_main (main_ancestry_proof self)) then
         mkAssessment CapabilityStatus.Reference
           (Some (str "tracked commit " ++ tracked_commit (main_ancestry_proof self)
                  ++ str " is not an ancestor of upstream main"))
       else if verified (verification self) then mkAssessment CapabilityStatus.Stable None
       else mkAssessment CapabilityStatus.Candidate
              (Some (str "main-tracked but verification not complete"))))%rust.

(** src/src/cluster/capability.rs:208-215 (Ds4CapabilityManifest::status_for) *)
Definition status_for (self : Ds4CapabilityManifest) (capability : bytes)
    : result CapabilityStatus CapabilityError :=
  (let? _ := validate self in
   if bool_decide (capability ∈ restrictions self) then Ok CapabilityStatus.Unsupported
   else let? a := assess self in Ok (status a))%rust.

End Capability.
Notation Ds4CapabilityManifest := Capability.Ds4CapabilityManifest.

(** ** The tensor-parallel manifest *)

Module ModelIdentity.

(** src/src/cluster/manifest.rs:586-600 (ModelIdentity) *)
Record ModelIdentity := mkModelIdentity {
  catalog_id : bytes;
  sha256 : bytes;
  size : Z;
  family : bytes;
  quantization : bytes;
  encoder_digest : option bytes;
  support_digest : option bytes;
  prefix_file_digest : option bytes;
}.

(** src/src/cluster/manifest.rs:603-624 (ModelIdentity::validate) *)
Definition validate (self : ModelIdentity) : result unit ManifestError :=
  (let? _ := validate_sha256 (sha256 self) in
   let? _ := each (λ value, ensure (negb (is_blank value)) ManifestError.EmptyField)
               [catalog_id self; family self; quantization self] in
   let? _ := ensure (negb (size self =? 0)) ManifestError.ZeroSize in
   each validate_optional_sha256
     [encoder_digest self; support_digest self; prefix_file_digest self])%rust.

End ModelIdentity.
Notation ModelIdentity := ModelIdentity.ModelIdentity.

(** src/src/cluster/manifest.rs:668-671 (TpDeploymentManifest::validate) *)
Definition expected_executable (role : RoleKind) : ExecutableKind :=
  match role with RoleKind.Worker => Ds4 | RoleKind.Coordinator => Ds4Server end.

(** [sort_unstable] of strings. *)
Definition lex_le (a b : bytes) : Prop := lex_leb a b = true.
#[export] Instance lex_le_dec a b : Decision (lex_le a b) := decide (lex_leb a b = true).
Definition sort_strings (l : list bytes) : list bytes := merge_sort lex_le l.

Module TpDeployment.

(** src/src/cluster/manifest.rs:629-642 (TpDeploymentManifest) *)
Record TpDeploymentManifest := mkTpDeployment {
  schema_version : Z;
  profile_id : bytes;
  source_commit : bytes;
  role_artifacts : list RoleArtifact;
  model : ModelIdentity;
  transport : bytes;
  context_size : Z;
  argv_contract_id : bytes;
}.

(** src/src/cluster/manifest.rs:672-701 (TpDeploymentManifest::validate) *)
Definition validate_artifact (source_commit : bytes) (a : RoleArtifact) : result unit ManifestError :=
  (let? _ := ensure (bool_decide (ra_executable_kind a = expected_executable (ra_role a)))
               ManifestError.EmptyField in
   let? _ := ensure (bool_decide (ra_source_commit a = source_commit))
               ManifestError.InvalidSourceCommit in
   let? _ := validate_sha256 (ra_binary_sha256 a) in
   let? _ := validate_optional_sha256 (ra_help_sha256 a) in
   let? _ := ensure (is_compatibility_set (ra_compatible_binary_sha256 a))
               ManifestError.InvalidBinaryCompatibilitySet in
   let? _ := each validate_sha256 (ra_compatible_binary_sha256 a) in
   ensure (approves (ra_compatible_binary_sha256 a) (ra_binary_sha256 a))
     ManifestError.BinaryNotApproved)%rust.

(** src/src/cluster/manifest.rs:645-704 (TpDeploymentManifest::validate) *)
Definition validate (self : TpDeploymentManifest) : result unit ManifestError :=
  (let? _ := ensure (schema_version self =? 3) (ManifestError.UnsupportedSchema (schema_version self)) in
   let? _ := each (λ value, ensure (negb (is_blank value)) ManifestError.EmptyField)
               [profile_id self; transport self; argv_contract_id self] in
   let? _ := validate_source_commit (source_commit self) in
   let? _ := ModelIdentity.validate (model self) in
   let? _ := ensure (negb (context_size self =? 0)) ManifestError.ZeroSize in
   let? _ := ensure (negb (bool_decide (length (role_artifacts self) = 0%nat)))
               ManifestError.EmptyField in
   each_role (λ _, ManifestError.EmptyField) (validate_artifact (source_commit self)) []
     (role_artifacts self))%rust.

(** src/src/cluster/manifest.rs:710-736 (TpDeploymentManifest::deployment_id) *)
Definition identity (self : TpDeploymentManifest) : list (string * Value) :=
  [("schema_version", jnum (schema_version self));
   ("profile_id", jstring (profile_id self));
   ("source_commit", jstring (source_commit self));
   ("role_binaries", jstrings (sort_strings (ra_binary_sha256 <$> role_artifacts self)));
   ("model_sha256", jstring (ModelIdentity.sha256 (model self)));
   ("transport", jstring (transport self));
   ("context_size", jnum (context_size self));
   ("argv_contract_id", jstring (argv_contract_id self))]%string.

(** src/src/cluster/manifest.rs:708-738 (TpDeploymentManifest::deployment_id) *)
Definition deployment_id `{Crypto} `{Serde} (self : TpDeploymentManifest) : result bytes ManifestError :=
  (let? _ := validate self in Ok (sha256_hex (Canonical.canonical_json (identity self))))%rust.

End TpDeployment.
Notation TpDeploymentManifest := TpDeployment.TpDeploymentManifest.

(** ** The checks as propositions *)

Lemma each_ok {A E} (check : A → result unit E) l :
  each check l = Ok tt ↔ Forall (λ x, check x = Ok tt) l.
Proof.
  induction l as [|x l IH]; cbn; [by split; [constructor|]|].
  rewrite Forall_cons, <- IH. destruct (check x) as [[]|]; cbn; naive_solver.
Qed.

Lemma each_role_ok {E} (duplicate : RoleKind → E) check roles l :
  each_role duplicate check roles l = Ok tt
  ↔ NoDup (ra_role <$> l) ∧ (∀ r, r ∈ ra_role <$> l → r ∉ roles) ∧ Forall (λ a, check a = Ok tt) l.
Proof.
  revert roles; induction l as [|a l IH]; intros roles; cbn [each_role fmap list_fmap].
  { split; [|done]. intros _. split_and!; [constructor|set_solver|constructor]. }
  rewrite NoDup_cons, Forall_cons. unfold ensure. case_bool_decide as Hr; cbn.
  - destruct (check a) as [[]|e]; cbn; [rewrite IH; set_solver|naive_solver].
  - split; [done|]. intros (_ & H & _). exfalso. exact (H (ra_role a) ltac:(left) Hr).
Qed.

Lemma ensure_tt {E} (b : bool) (e : E) : ensure b e = Ok tt ↔ b = true.
Proof. apply ensure_ok. Qed.

Lemma bind_tt {B E} (c : result unit E) (k : unit → result B E) b :
  result_bind c k = Ok b ↔ c = Ok tt ∧ k tt = Ok b.
Proof. destruct c as [[]|]; cbn; naive_solver. Qed.

Definition is_sha256 (value : bytes) : Prop := validate_sha256 value = Ok tt.
Definition is_commit (value : bytes) : Prop := validate_source_commit value = Ok tt.
Definition given (value : bytes) : Prop := is_blank value = false.

Lemma each_given (l : list bytes) :
  each (λ value, ensure (negb (is_blank value)) ManifestError.EmptyField) l = Ok tt ↔ Forall given l.
Proof.
  rewrite each_ok. apply Forall_iff. intros x. rewrite ensure_tt. unfold given.
  by destruct (is_blank x).
Qed.

Lemma distributed_valid m :
  Distributed.validate m = Ok tt ↔
  Distributed.schema_version m = DEPLOYMENT_MANIFEST_SCHEMA_VERSION
  ∧ Forall is_sha256 [Distributed.ds4_binary_sha256 m; Distributed.model_sha256 m;
                      Distributed.argv_profile_sha256 m]
  ∧ is_compatibility_set (Distributed.compatible_ds4_binary_sha256 m) = true
  ∧ Forall is_sha256 (Distributed.compatible_ds4_binary_sha256 m)
  ∧ Distributed.ds4_binary_sha256 m ∈ Distributed.compatible_ds4_binary_sha256 m
  ∧ is_commit (Distributed.ds4_source_commit m)
  ∧ Forall given [Distributed.profile m; Distributed.ds4_source_commit m; Distributed.checkpoint m;
      Distributed.model_family m; Distributed.quantization m; Distributed.topology m;
      Distributed.speculative_support m; Distributed.coordinator_layers m;
      Distributed.worker_layers m; Distributed.ds4_wire_schema m]
  ∧ Distributed.model_size m ≠ 0 ∧ Distributed.context_size m ≠ 0.
Proof.
  unfold Distributed.validate, approves. rewrite !bind_tt, !ensure_tt, each_given, !each_ok.
  rewrite Z.eqb_eq, bool_decide_eq_true, negb_true_iff, orb_false_iff, !Z.eqb_neq. done.
Qed.

Lemma encode_lower_hex_inj b b' :
  is_bytes b → is_bytes b' → encode_lower_hex b = encode_lower_hex b' → b = b'.
Proof.
  intros Hb Hb' E. apply (f_equal decode_pairs) in E. rewrite !decode_encode in E by done. congruence.
Qed.

(** The digest of the canonical text tells two lists of fields apart, or two texts collide. *)
Lemma identity_digest `{Crypto} `{CanonicalText} l l' :
  l.*1 = l'.*1 → Forall flat l.*2 → Forall flat l'.*2 →
  sha256_hex (Canonical.canonical_json l) = sha256_hex (Canonical.canonical_json l') →
  l = l' ∨ (Canonical.canonical_json l ≠ Canonical.canonical_json l'
            ∧ sha256 (Canonical.canonical_json l) = sha256 (Canonical.canonical_json l')).
Proof.
  intros Hk Hl Hl' E. apply encode_lower_hex_inj in E; [|apply sha256_bytes..].
  destruct (decide (Canonical.canonical_json l = Canonical.canonical_json l')) as [Hc|Hc]; [left|by right].
  by apply canonical_json_inj.
Qed.

(** ** The identity of a deployment *)

(** Strings are bytes and the numbers of their width. *)
Definition distributed_typed (m : DistributedManifest) : Prop :=
  is_u64 (Distributed.schema_version m) ∧ is_u64 (Distributed.model_size m)
  ∧ is_u64 (Distributed.context_size m)
  ∧ Forall is_bytes (Distributed.compatible_ds4_binary_sha256 m)
  ∧ Forall is_bytes [Distributed.profile m; Distributed.ds4_source_commit m;
      Distributed.model_sha256 m; Distributed.checkpoint m; Distributed.model_family m;
      Distributed.quantization m; Distributed.topology m; Distributed.speculative_support m;
      Distributed.coordinator_layers m; Distributed.worker_layers m;
      Distributed.ds4_wire_schema m; Distributed.argv_profile_sha256 m].

Lemma flat_jnum n : is_u64 n → flat (jnum n).
Proof. intros Hn. exists n. done. Qed.

Lemma flat_jstrings l : Forall is_bytes l → flat (jstrings l).
Proof. intros H. apply Forall_fmap. by apply (Forall_impl _ _ _ H). Qed.

Lemma jnum_inj n m : is_u64 n → is_u64 m → jnum n = jnum m → n = m.
Proof.
  intros Hn Hm E.
  exact (u64_to_string_inj n m Hn Hm
    (f_equal (λ v, match v with Value.Number s => s | _ => [] end) E)).
Qed.

Lemma jstrings_inj l l' : jstrings l = jstrings l' → l = l'.
Proof.
  intros E. injection E as E. revert l' E.
  induction l as [|s l IH]; intros [|s' l'] E; cbn in E; [done..|]. injection E as -> E.
  by rewrite (IH l' E).
Qed.

Lemma distributed_flat m : distributed_typed m → Forall flat (Distributed.identity m).*2.
Proof.
  intros (H1 & H2 & H3 & H4 & H5). rewrite !Forall_cons in H5. cbn [fmap list_fmap snd Distributed.identity].
  repeat match goal with H : _ ∧ _ |- _ => destruct H end.
  repeat (constructor; [first [by apply flat_jnum | by apply flat_jstrings | done]|]). constructor.
Qed.

Lemma compatible_identity a b :
  Distributed.validate a = Ok tt → Distributed.validate b = Ok tt →
  distributed_typed a → distributed_typed b →
  Distributed.compatible_with a b = Ok true ↔ Distributed.identity a = Distributed.identity b.
Proof.
  intros Ha Hb (Ha1 & Ha2 & Ha3 & _) (Hb1 & Hb2 & Hb3 & _).
  unfold Distributed.compatible_with. rewrite Ha, Hb. cbn [result_bind].
  apply distributed_valid in Ha as [Ha _], Hb as [Hb _]. split.
  - intros E. injection E as E. rewrite !andb_true_iff, !Z.eqb_eq, !bool_decide_eq_true in E.
    destruct E as [[[[[[[[[[[[[[E1 E2] E3] E4] E5] E6] E7] E8] E9] E10] E11] E12] E13] E14] E15].
    unfold Distributed.identity.
    by rewrite Ha, Hb, E1, E2, E3, E4, E5, E6, E7, E8, E9, E10, E11, E12, E13, E14, E15.
  - intros E. f_equal. rewrite !andb_true_iff, !Z.eqb_eq, !bool_decide_eq_true.
    unfold Distributed.identity in E.
    apply (f_equal (fmap snd)) in E. cbn [fmap list_fmap snd] in E. unfold jstring in E.
    injection E as _ E1 E2 E3 E4 E5 E6 E7 E8 E9 E10 E11 E12 E13 E14.
    split_and!; try done.
    + apply jstrings_inj. unfold jstrings. by f_equal.
    + exact (u64_to_string_inj _ _ Ha2 Hb2 E5).
    + exact (u64_to_string_inj _ _ Ha3 Hb3 E11).
Qed.

(** C28: The identity of a deployment is its compatibility.  Two nodes whose manifests are
    compatible compute the same deployment id, whichever of the approved binaries each of
    them runs; and two manifests with the same id are compatible, unless SHA-256 maps two
    different canonical texts to one digest. *)
Theorem deployment_id_exact `{Crypto} `{CanonicalText} a b i j :
  Distributed.deployment_id a = Ok i → Distributed.deployment_id b = Ok j →
  distributed_typed a → distributed_typed b →
  (Distributed.compatible_with a b = Ok true → i = j)
  ∧ (i = j → Distributed.compatible_with a b = Ok true
       ∨ ∃ x y, x ≠ y ∧ sha256 x = sha256 y
           ∧ x = Canonical.canonical_json (Distributed.identity a)
           ∧ y = Canonical.canonical_json (Distributed.identity b)).
Proof.
  unfold Distributed.deployment_id. rewrite !bind_tt. intros [Ha E1] [Hb E2] Hta Htb.
  injection E1 as <-. injection E2 as <-. rewrite (compatible_identity a b) by done. split.
  - by intros ->.
  - intros E. apply identity_digest in E as [E|[E1 E2]];
      [by left|right; by eexists _, _|done|by apply distributed_flat|by apply distributed_flat].
Qed.

(** ** The identity of a tensor-parallel deployment *)

Lemma lex_leb_trans a b c : lex_leb a b = true → lex_leb b c = true → lex_leb a c = true.
Proof.
  revert b c; induction a as [|x a IH]; intros [|y b] [|z c]; cbn; try done.
  rewrite !orb_true_iff, !andb_true_iff, !Z.ltb_lt, !Z.eqb_eq.
  intros [H1|[H1 H2]] [H3|[H3 H4]]; [left; lia|left; lia|left; lia|right].
  split; [lia|]. by apply (IH b).
Qed.

Lemma lex_leb_antisym a b : lex_leb a b = true → lex_leb b a = true → a = b.
Proof.
  revert b; induction a as [|x a IH]; intros [|y b]; cbn; try done.
  rewrite !orb_true_iff, !andb_true_iff, !Z.ltb_lt, !Z.eqb_eq.
  intros [H1|[-> H2]] [H3|[H3 H4]]; try lia. by rewrite (IH b).
Qed.

#[export] Instance lex_le_trans : Transitive lex_le.
Proof. intros a b c. apply lex_leb_trans. Qed.
#[export] Instance lex_le_antisym : AntiSymm (=) lex_le.
Proof. intros a b. apply lex_leb_antisym. Qed.
#[export] Instance lex_le_total : Total lex_le.
Proof. intros a b. apply lex_leb_total. Qed.

(** Sorted lists are the same when they hold the same strings. *)
Lemma sort_strings_eq l l' : sort_strings l = sort_strings l' ↔ l ≡ₚ l'.
Proof.
  unfold sort_strings. split; intros H.
  - by rewrite <- (merge_sort_Permutation lex_le l), H, merge_sort_Permutation.
  - apply (Sorted_unique lex_le); [apply Sorted_merge_sort; apply _..|].
    by rewrite !merge_sort_Permutation.
Qed.

Definition tp_typed (m : TpDeploymentManifest) : Prop :=
  is_u64 (TpDeployment.schema_version m) ∧ is_u64 (TpDeployment.context_size m)
  ∧ Forall is_bytes (ra_binary_sha256 <$> TpDeployment.role_artifacts m)
  ∧ Forall is_bytes [TpDeployment.profile_id m; TpDeployment.source_commit m;
      ModelIdentity.sha256 (TpDeployment.model m); TpDeployment.transport m;
      TpDeployment.argv_contract_id m].

(** What the identity of a tensor-parallel deployment says: nothing of which role runs which
    binary, and nothing of the paths. *)
Definition same_deployment (a b : TpDeploymentManifest) : Prop :=
  TpDeployment.profile_id a = TpDeployment.profile_id b
  ∧ TpDeployment.source_commit a = TpDeployment.source_commit b
  ∧ (ra_binary_sha256 <$> TpDeployment.role_artifacts a)
      ≡ₚ (ra_binary_sha256 <$> TpDeployment.role_artifacts b)
  ∧ ModelIdentity.sha256 (TpDeployment.model a) = ModelIdentity.sha256 (TpDeployment.model b)
  ∧ TpDeployment.transport a = TpDeployment.transport b
  ∧ TpDeployment.context_size a = TpDeployment.context_size b
  ∧ TpDeployment.argv_contract_id a = TpDeployment.argv_contract_id b.

Lemma tp_flat m : tp_typed m → Forall flat (TpDeployment.identity m).*2.
Proof.
  intros (H1 & H2 & H3 & H4). rewrite !Forall_cons in H4. cbn [fmap list_fmap snd TpDeployment.identity].
  assert (H5 : Forall is_bytes (sort_strings (ra_binary_sha256 <$> TpDeployment.role_artifacts m)))
    by (unfold sort_strings; by rewrite merge_sort_Permutation).
  repeat match goal with H : _ ∧ _ |- _ => destruct H end.
  repeat (constructor; [first [by apply flat_jnum | by apply flat_jstrings | done]|]). constructor.
Qed.

Lemma tp_same_identity a b :
  tp_typed a → tp_typed b → TpDeployment.schema_version a = TpDeployment.schema_version b →
  TpDeployment.identity a = TpDeployment.identity b ↔ same_deployment a b.
Proof.
  intros (_ & Ha & _) (_ & Hb & _) Hs. unfold TpDeployment.identity, same_deployment.
  rewrite <- sort_strings_eq. split.
  - intros E. apply (f_equal (fmap snd)) in E. cbn [fmap list_fmap snd] in E. unfold jstring in E.
    injection E as _ E1 E2 E3 E4 E5 E6 E7.
    split_and!; try done.
    + apply jstrings_inj. unfold jstrings. by f_equal.
    + exact (u64_to_string_inj _ _ Ha Hb E6).
  - by intros (-> & -> & -> & -> & -> & -> & ->); rewrite Hs.
Qed.

(** Two valid tensor-parallel manifests have the same id exactly when they agree on what the
    identity says, but for a collision of SHA-256. *)
Lemma tp_deployment_id_exact `{Crypto} `{CanonicalText} a b i j :
  TpDeployment.deployment_id a = Ok i → TpDeployment.deployment_id b = Ok j →
  tp_typed a → tp_typed b →
  (same_deployment a b → i = j)
  ∧ (i = j → same_deployment a b ∨ ∃ x y, x ≠ y ∧ sha256 x = sha256 y).
Proof.
  unfold TpDeployment.deployment_id. rewrite !bind_tt. intros [Ha E1] [Hb E2] Hta Htb.
  injection E1 as <-. injection E2 as <-.
  unfold TpDeployment.validate in Ha, Hb. rewrite bind_tt, ensure_tt, Z.eqb_eq in Ha, Hb.
  destruct Ha as [Ha _], Hb as [Hb _].
  rewrite <- (tp_same_identity a b) by (done || congruence). split.
  - by intros ->.
  - intros E. apply identity_digest in E as [E|[E1 E2]];
      [by left|right; by eexists _, _|done|by apply tp_flat|by apply tp_flat].
Qed.

(** ** One fingerprint per profile at a time *)

Inductive FingerprintOp :=
| StartOp (fresh profile : bytes)
| FinishOp (profile job_id : bytes) (answer : result FileFingerprint FileError).

(** A task ends once, and only one that runs. *)
Definition fingerprint_step (op : FingerprintOp) (s : FingerprintJobs) : FingerprintJobs :=
  match op with
  | StartOp fresh profile => (start fresh profile s).2
  | FinishOp profile job_id answer =>
      if bool_decide ((profile, job_id) ∈ tasks s) then finish profile job_id answer s else s
  end.

Definition fingerprints_ok (s : FingerprintJobs) : Prop :=
  NoDup (tasks s).*1
  ∧ (∀ p j, jobs s !! p = Some j → fj_status j = Running ↔ (p, fj_job_id j) ∈ tasks s)
  ∧ (∀ p id, (p, id) ∈ tasks s → is_Some (jobs s !! p) ∧ fj_job_id <$> jobs s !! p = Some id)
  ∧ (∀ p j f, jobs s !! p = Some j → fj_status j = Complete f → cache s !! p = Some f).

Lemma new_job_ok fresh profile s :
  fingerprints_ok s → (∀ id, (profile, id) ∉ tasks s) →
  fingerprints_ok (mkFingerprintJobs (cache s) (<[profile := mkFingerprintJob fresh profile Running]> (jobs s))
                     (tasks s ++ [(profile, fresh)])).
Proof.
  intros (H1 & H2 & H3 & H4) Hno. unfold fingerprints_ok. cbn [jobs cache tasks]. split_and!.
  - rewrite fmap_app. apply NoDup_app. split_and!; [done| |apply NoDup_singleton].
    intros p Hp. cbn. rewrite list_elem_of_singleton. intros ->.
    apply list_elem_of_fmap in Hp as ([p' id] & -> & Hp). exact (Hno id Hp).
  - intros p j Hp. destruct (decide (p = profile)) as [->|Hne].
    + rewrite lookup_insert_eq in Hp. injection Hp as <-. cbn. set_solver.
    + rewrite lookup_insert_ne in Hp by done. rewrite (H2 p j Hp). set_solver.
  - intros p id Hp. destruct (decide (p = profile)) as [->|Hne].
    + rewrite lookup_insert_eq. cbn. set_solver.
    + rewrite lookup_insert_ne by done. apply H3. set_solver.
  - intros p j f Hp Hf. destruct (decide (p = profile)) as [->|Hne].
    + rewrite lookup_insert_eq in Hp. by injection Hp as <-.
    + rewrite lookup_insert_ne in Hp by done. eauto.
Qed.

Lemma start_ok fresh profile s : fingerprints_ok s → fingerprints_ok (start fresh profile s).2.
Proof.
  intros H. pose proof H as (_ & H2 & H3 & _). unfold start, is_some_and.
  destruct (jobs s !! profile) as [j|] eqn:Hj.
  - destruct (bool_decide_reflect (fj_status j = Running)) as [Hr|Hr]; [done|].
    apply new_job_ok; [done|]. intros id Hin. destruct (H3 _ _ Hin) as [_ Hid].
    rewrite Hj in Hid. cbn in Hid. injection Hid as <-. by apply Hr, (H2 profile j Hj).
  - apply new_job_ok; [done|]. intros id Hin. destruct (H3 _ _ Hin) as [[? ?] _]. congruence.
Qed.

Lemma finish_ok profile id answer s :
  fingerprints_ok s → (profile, id) ∈ tasks s → fingerprints_ok (finish profile id answer s).
Proof.
  intros (H1 & H2 & H3 & H4) Hin. destruct (H3 _ _ Hin) as [[j Hj] Hid].
  rewrite Hj in Hid. cbn in Hid. injection Hid as <-.
  unfold finish, is_some_and. rewrite Hj. rewrite bool_decide_eq_true_2 by done.
  set (l := List.filter _ (tasks s)).
  assert (Hl : ∀ p id, (p, id) ∈ l ↔ (p, id) ∈ tasks s ∧ p ≠ profile).
  { intros p id. unfold l. rewrite list_elem_of_In, filter_In, <- list_elem_of_In, negb_true_iff,
      bool_decide_eq_false. split; [|naive_solver]. intros [Hp Hne]. split; [done|]. intros ->.
    destruct (H3 _ _ Hp) as [_ Hid]. rewrite Hj in Hid. cbn in Hid. naive_solver. }
  assert (Hnd : NoDup l.*1).
  { unfold l. clear -H1. induction (tasks s) as [|t ts IH]; cbn in *; [constructor|].
    apply NoDup_cons in H1 as [H1 H2]. destruct (negb _); [|by apply IH].
    cbn. apply NoDup_cons. split; [|by apply IH]. intros Hin. apply H1.
    apply list_elem_of_fmap in Hin as (y & -> & Hy). apply list_elem_of_fmap. exists y.
    split; [done|]. apply list_elem_of_In, filter_In in Hy as [Hy _]. by apply list_elem_of_In. }
  unfold fingerprints_ok. cbn [jobs cache tasks]. split_and!; [done| | |].
  - intros p j' Hp. rewrite Hl. destruct (decide (p = profile)) as [->|Hne].
    + rewrite lookup_insert_eq in Hp. injection Hp as <-. cbn. destruct answer; naive_solver.
    + rewrite lookup_insert_ne in Hp by done. rewrite (H2 p j' Hp). naive_solver.
  - intros p id [Hp Hne]%Hl. rewrite lookup_insert_ne by done. by apply H3.
  - intros p j' f Hp Hf. destruct (decide (p = profile)) as [->|Hne].
    + rewrite lookup_insert_eq in Hp. injection Hp as <-. cbn in Hf.
      destruct answer as [f'|]; [|done]. injection Hf as <-. by rewrite lookup_insert_eq.
    + rewrite lookup_insert_ne in Hp by done. destruct answer; [rewrite lookup_insert_ne by done|]; eauto.
Qed.

(** However jobs are started and end, a profile has one task at most, a job is running exactly
    while its task is, and a completed job's fingerprint is the one in the cache. *)
Lemma fingerprint_jobs_sound ops :
  fingerprints_ok (foldl (λ s op, fingerprint_step op s) fingerprint_jobs_default ops).
Proof.
  assert (H : ∀ s, fingerprints_ok s → fingerprints_ok (foldl (λ s op, fingerprint_step op s) s ops)).
  { induction ops as [|op ops IH]; intros s H; [done|]. cbn. apply IH.
    destruct op as [fresh profile|profile id answer]; cbn; [by apply start_ok|].
    case_bool_decide; [by apply finish_ok|done]. }
  apply H. split_and!; cbn; try done; [constructor|intros p id Hp; set_solver].
Qed.

(** A fingerprint is the digest of what was read while the file kept its metadata. *)
Lemma fingerprint_file_sound `{Crypto} now f fp :
  fingerprint_file now f = Ok fp →
  before f = Ok (metadata_of fp) ∧ after f = Ok (metadata_of fp)
  ∧ ∃ content, read_all (reads f) [] = Ok content ∧ fp_sha256 fp = sha256_hex content.
Proof.
  unfold fingerprint_file. rewrite result_bind_ok. intros ([] & Hb & E). rewrite bind_tt in E.
  destruct E as [_ E]. apply result_bind_ok in E as (content & Hc & E).
  apply result_bind_ok in E as (m & Hm & E). rewrite bind_tt, ensure_tt, bool_decide_eq_true in E.
  destruct E as [<- E]. injection E as <-. cbn. rewrite Hb, Hm. eauto.
Qed.

Module DemoManifest.
#[local] Existing Instance toy_crypto.
#[local] Existing Instance printing_serde.
#[local] Existing Instance printing_canonical.

Definition digest (c : Z) : bytes := repeat c 64.
Definition commit : bytes := repeat 57 40.

Definition deployment (binary : bytes) : DistributedManifest :=
  Distributed.mkDistributedManifest 2 (str "lp") binary [digest 97; digest 98] commit (digest 99) 4096
    (str "v4") (str "deepseek") (str "q4") (str "layer-parallel") (str "none") 8192
    (str "0-30") (str "31-60") (str "ds4-1") (digest 100).

Definition artifact (r : RoleKind) (binary : bytes) : RoleArtifact :=
  mkRoleArtifact r (expected_executable r) (str "/ds4") binary [digest 97; digest 98] commit
    (str "aarch64") (str "metal") (Some (digest 101)).

Definition tp_deployment (worker coordinator : bytes) : TpDeploymentManifest :=
  TpDeployment.mkTpDeployment 3 (str "tp") commit
    [artifact RoleKind.Worker worker; artifact RoleKind.Coordinator coordinator]
    (ModelIdentity.mkModelIdentity (str "v4") (digest 99) 4096 (str "deepseek") (str "q4") None None None)
    (str "rdma") 8192 (str "siderostat-tp-v1").

(** The identity of a tensor-parallel deployment does not say which role runs which binary:
    with the two exchanged it is the same. *)
Example swapped_binaries :
  TpDeployment.deployment_id (tp_deployment (digest 97) (digest 98))
  = TpDeployment.deployment_id (tp_deployment (digest 98) (digest 97))
  ∧ is_ok (TpDeployment.deployment_id (tp_deployment (digest 97) (digest 98))) = true.
Proof. vm_compute. done. Qed.

Definition capability (restricted : list bytes) : Ds4CapabilityManifest :=
  Capability.mkCapability 1 commit (Capability.mkAncestry commit true (str "ls-remote")) (str "build-1")
    [artifact RoleKind.Worker (digest 97)] (str "rdma") (str "deepseek") [str "tensor-parallel"]
    restricted (str "main") (Capability.mkVerification true 0 []).

(** A capability that the build does not list has the status of the build. *)
Example unlisted_capability_is_stable :
  Capability.status_for (capability []) (str "unheard-of") = Ok CapabilityStatus.Stable
  ∧ Capability.status_for (capability [str "unheard-of"]) (str "unheard-of")
    = Ok CapabilityStatus.Unsupported.
Proof. vm_compute. done. Qed.

End DemoManifest.

Lemma deployment_id_exact_witness :
  ∃ i j, Distributed.deployment_id (H := toy_crypto) (H0 := printing_serde)
           (DemoManifest.deployment (DemoManifest.digest 97)) = Ok i
       ∧ Distributed.deployment_id (H := toy_crypto) (H0 := printing_serde)
           (DemoManifest.deployment (DemoManifest.digest 98)) = Ok j
       ∧ i = j.
Proof.
  assert (Ht : ∀ c, c = 97 ∨ c = 98 → distributed_typed (DemoManifest.deployment (DemoManifest.digest c))).
  { intros c [-> | ->]; (split; [by vm_compute|split; [by vm_compute|split; [by vm_compute|split]]];
      by apply (bool_decide_unpack (Forall is_bytes _)); vm_compute). }
  eexists _, _. split; [vm_compute; reflexivity|]. split; [vm_compute; reflexivity|].
  refine (proj1 (deployment_id_exact (H := toy_crypto) (H0 := printing_serde)
    (H1 := printing_canonical) (DemoManifest.deployment (DemoManifest.digest 97))
    (DemoManifest.deployment (DemoManifest.digest 98)) _ _ _ _ (Ht 97 (or_introl eq_refl))
    (Ht 98 (or_intror eq_refl))) _); vm_compute; reflexivity.
Defined.
