(* ===== verification/Deployment.v ===== *)
(** * Deployments: [src/src/cluster/deployment.rs], [src/src/cluster/artifacts.rs]

    The deployment a node runs, of either topology: how it is made from the capability of a
    build, checked before any child is touched, and turned into a command.  What the host
    answers (files, digests, the help of a binary) is the interface [DeploymentHost]; decoded
    JSON is [ManifestDecoder]. *)

From stdpp Require Import sorting.
From S2P Require Import Prelude Bytes Utf8 Text Target Json Canonical Auth Download Control Config Command Manifest Registry.
Local Open Scope Z_scope.

(** [bail!] and [ensure!] with their message, or the error of a step. *)
Inductive DeploymentError :=
| Refused (message : string)
| OfManifest (e : ManifestError)
| OfCapability (e : CapabilityError)
| OfCommand (e : Ds4CommandError)
| OfHost (e : FileError).

(** What running a binary for its help gives: the exit within ten seconds and its output. *)
Record HelpOutput := mkHelp { help_success : bool; help_stdout : bytes; help_stderr : bytes }.

Class DeploymentHost := {
  (** [read] and [from_slice]. *)
  read_capability : bytes → result Ds4CapabilityManifest FileError;
  read_role_artifact : bytes → result RoleArtifact FileError;
  (** [fingerprint_file]. *)
  fingerprint : bytes → result FileFingerprint FileError;
  (** [canonicalize(path) == path]. *)
  is_canonical : bytes → result bool FileError;
  (** [symlink_metadata(path).file_type().is_symlink()]. *)
  is_symlink : bytes → result bool FileError;
  (** [path --help distributed]. *)
  run_help : bytes → result HelpOutput FileError;
}.

Class ManifestDecoder := {
  decode_lp : bytes → option DistributedManifest;
  decode_tp : bytes → option TpDeploymentManifest;
}.

Module RuntimeDeployment.

(** src/src/cluster/deployment.rs:12-16 (RuntimeDeployment) *)
Inductive RuntimeDeployment :=
| LayerParallel (m : DistributedManifest)
| TensorParallel (m : TpDeploymentManifest).

End RuntimeDeployment.
Notation RuntimeDeployment := RuntimeDeployment.RuntimeDeployment.

(** src/src/cluster/deployment.rs:182-187 (RuntimeDeployment::tp) *)
Definition tp_of (self : RuntimeDeployment) : option TpDeploymentManifest :=
  match self with RuntimeDeployment.TensorParallel m => Some m | _ => None end.

(** src/src/cluster/deployment.rs:188-193 (RuntimeDeployment::lp) *)
Definition lp_of (self : RuntimeDeployment) : result DistributedManifest DeploymentError :=
  match self with
  | RuntimeDeployment.LayerParallel m => Ok m
  | _ => Err (Refused "LP operation cannot use a TP deployment")
  end.

(** src/src/cluster/deployment.rs:176-181 (RuntimeDeployment::model_family) *)
Definition model_family (self : RuntimeDeployment) : bytes :=
  match self with
  | RuntimeDeployment.LayerParallel m => Distributed.model_family m
  | RuntimeDeployment.TensorParallel m => ModelIdentity.family (TpDeployment.model m)
  end.

(** src/src/cluster/deployment.rs:149-168 (RuntimeDeployment::validate) *)
Definition validate (self : RuntimeDeployment) : result unit DeploymentError :=
  match self with
  | RuntimeDeployment.LayerParallel m => map_err OfManifest (Distributed.validate m)
  | RuntimeDeployment.TensorParallel m =>
      (let? _ := map_err OfManifest (TpDeployment.validate m) in
       let? _ := ensure (bool_decide (TpDeployment.transport m = str "rdma"))
                   (Refused "TP requires explicit RDMA transport") in
       let? _ := ensure (length (TpDeployment.role_artifacts m) =? 2)%nat
                   (Refused "TP requires both role artifacts") in
       ensure (forallb (λ r, is_some (ra_help_sha256 r) && bool_decide (ra_backend r = str "metal"))
                 (TpDeployment.role_artifacts m))
         (Refused "TP requires verified Metal role help"))%rust
  end.

(** src/src/cluster/deployment.rs:170-175 (RuntimeDeployment::deployment_id) *)
Definition deployment_id `{Crypto} `{Serde} (self : RuntimeDeployment) : result bytes DeploymentError :=
  map_err OfManifest (match self with
                      | RuntimeDeployment.LayerParallel m => Distributed.deployment_id m
                      | RuntimeDeployment.TensorParallel m => TpDeployment.deployment_id m
                      end).

(** src/src/cluster/deployment.rs:136-147 (RuntimeDeployment::parse) *)
Definition parse `{ManifestDecoder} (text : bytes) (topology : DistributedTopology)
    : result RuntimeDeployment DeploymentError :=
  (let? d := match topology with
             | DistributedTopology.LayerParallel =>
                 ok_or (RuntimeDeployment.LayerParallel <$> decode_lp text) (OfHost FileFailed)
             | DistributedTopology.TensorParallel =>
                 ok_or (RuntimeDeployment.TensorParallel <$> decode_tp text) (OfHost FileFailed)
             end in
   let? _ := validate d in
   Ok d)%rust.

(** The kind of a known role.
    src/src/cluster/deployment.rs:233-237 (RuntimeDeployment::verify_tp) *)
Definition role_kind (role : LocalRole) : option RoleKind :=
  match role with
  | LocalRole.Worker => Some RoleKind.Worker
  | LocalRole.Coordinator => Some RoleKind.Coordinator
  | LocalRole.Unknown => None
  end.

Definition find_role (kind : RoleKind) (l : list RoleArtifact) : option RoleArtifact :=
  List.find (λ a, bool_decide (ra_role a = kind)) l.

Notation tp_capability := (str "tensor-parallel").

(** The status of the capability and its mention.
    src/src/cluster/deployment.rs:101-105 (RuntimeDeployment::from_tp_capability) *)
Definition check_stable (cap : Ds4CapabilityManifest) (message : string) : result unit DeploymentError :=
  (let? status := map_err OfCapability (Capability.status_for cap tp_capability) in
   ensure (bool_decide (status = CapabilityStatus.Stable)
           && bool_decide (tp_capability ∈ Capability.capabilities cap)) (Refused message))%rust.

(** src/src/cluster/deployment.rs:95-135 (RuntimeDeployment::from_tp_capability) *)
Definition from_tp_capability (config : Ds4Config) (cap : Ds4CapabilityManifest)
    (model_sha256 : bytes) (model_size : Z) : result RuntimeDeployment DeploymentError :=
  let distributed := Ds4Config.distributed config in
  let quantization := quantization_name (Ds4DistributedConfig.quantization distributed) in
  (let? _ := check_stable cap "TP capability must be verified stable" in
   let? _ := ensure (bool_decide (Capability.source_commit cap
                                  = Capability.tracked_commit (Capability.main_ancestry_proof cap))
                     && bool_decide (Capability.transport cap = str "rdma"))
               (Refused "TP source/transport capability mismatch") in
   let d := RuntimeDeployment.TensorParallel (TpDeployment.mkTpDeployment 3
     (Ds4DistributedConfig.checkpoint distributed ++ str "-" ++ quantization ++ str "-tp")
     (Capability.source_commit cap) (Capability.role_artifacts cap)
     (ModelIdentity.mkModelIdentity (Ds4DistributedConfig.checkpoint distributed) model_sha256
        model_size (Capability.model_family cap) quantization None None None)
     (str "rdma") (Ds4DistributedConfig.context_size distributed) (str "siderostat-tp-v1")) in
   let? _ := validate d in
   Ok d)%rust.

Section Host.
Context {crypto : Crypto} {texts : Texts} {host : DeploymentHost}.

(** src/src/cluster/deployment.rs:25-62 (RuntimeDeployment::tp_command) *)
Definition deployment_command (self : RuntimeDeployment) (config : Ds4Config) (distributed_port : Z)
    (role : LocalRole) (coordinator : IpAddr) : result Ds4Command DeploymentError :=
  (let? m := ok_or (tp_of self) (Refused "TP command requires schema3 deployment") in
   let? found :=
     match role with
     | LocalRole.Worker =>
         let? c := map_err OfCommand (build_tp_worker_command config coordinator distributed_port) in
         Ok (RoleKind.Worker, c)
     | LocalRole.Coordinator =>
         let? c := map_err OfCommand (build_tp_coordinator_command config coordinator distributed_port) in
         Ok (RoleKind.Coordinator, c)
     | LocalRole.Unknown => Err (Refused "TP role unknown")
     end in
   let? a := ok_or (find_role found.1 (TpDeployment.role_artifacts m)) (Refused "TP role missing") in
   Ok (mkCommand (ra_path a) (Command.working_directory found.2) (argv found.2)
         (Command.profile found.2)))%rust.

Definition with_path (path : bytes) (a : RoleArtifact) : RoleArtifact :=
  mkRoleArtifact (ra_role a) (ra_executable_kind a) path (ra_binary_sha256 a)
    (ra_compatible_binary_sha256 a) (ra_source_commit a) (ra_arch a) (ra_backend a) (ra_help_sha256 a).

(** The first artifact of the role, changed in place. *)
Fixpoint update_role (kind : RoleKind) (f : RoleArtifact → RoleArtifact) (l : list RoleArtifact)
    : list RoleArtifact :=
  match l with
  | [] => []
  | a :: l => if bool_decide (ra_role a = kind) then f a :: l else a :: update_role kind f l
  end.

Definition with_artifacts (l : list RoleArtifact) (m : TpDeploymentManifest) : TpDeploymentManifest :=
  TpDeployment.mkTpDeployment (TpDeployment.schema_version m) (TpDeployment.profile_id m)
    (TpDeployment.source_commit m) l (TpDeployment.model m) (TpDeployment.transport m)
    (TpDeployment.context_size m) (TpDeployment.argv_contract_id m).

(** [self] is changed in place: the state after a failure is the one before.
    src/src/cluster/deployment.rs:63-94 (RuntimeDeployment::resolve_local_artifact) *)
Definition resolve_local_artifact (config : Ds4Config) (role : LocalRole) (self : RuntimeDeployment)
    : result unit DeploymentError * RuntimeDeployment :=
  match tp_of self, role_kind role, Ds4DistributedConfig.role_artifact (Ds4Config.distributed config) with
  | Some m, Some kind, Some path =>
      match (let? local := map_err OfHost (read_role_artifact path) in
             let? slot := ok_or (find_role kind (TpDeployment.role_artifacts m))
                            (Refused "TP local role missing") in
             let? _ := ensure (bool_decide (ra_role local = kind)
                         && bool_decide (ra_binary_sha256 local = ra_binary_sha256 slot)
                         && bool_decide (ra_source_commit local = ra_source_commit slot)
                         && bool_decide (ra_executable_kind local = ra_executable_kind slot)
                         && bool_decide (ra_help_sha256 local = ra_help_sha256 slot))
                         (Refused "local TP role artifact differs from deployment") in
             Ok (ra_path local))%rust with
      | Ok path =>
          (Ok tt, RuntimeDeployment.TensorParallel (with_artifacts
             (update_role kind (with_path path) (TpDeployment.role_artifacts m)) m))
      | Err e => (Err e, self)
      end
  | _, _, _ => (Ok tt, self)
  end.

(** src/src/cluster/deployment.rs:290-295 (RuntimeDeployment::verify_tp) *)
Definition required_flags : list bytes :=
  [str "--tensor-parallel"; str "--transport"; str "--rdma-device"; str "--rdma-gid-index"].

(** The file of the local role.
    src/src/cluster/deployment.rs:257-299 (RuntimeDeployment::verify_tp) *)
Definition verify_local (a : RoleArtifact) : result unit DeploymentError :=
  let path := ra_path a in
  let noncanonical := Refused "TP role path must be canonical and non-symlink" in
  (let? _ := ensure (starts_with (str "/") path) noncanonical in
   let? canonical := map_err OfHost (is_canonical path) in
   let? _ := ensure canonical noncanonical in
   let? symlink := map_err OfHost (is_symlink path) in
   let? _ := ensure (negb symlink) noncanonical in
   let? actual := map_err OfHost (fingerprint path) in
   let? _ := ensure (bool_decide (fp_sha256 actual = ra_binary_sha256 a))
               (Refused "TP role binary digest mismatch") in
   let? output := map_err OfHost (run_help path) in
   let? _ := ensure (help_success output) (Refused "TP role help failed") in
   let help := help_stdout output ++ help_stderr output in
   let? _ := ensure (bool_decide (Some (sha256_hex help) = ra_help_sha256 a))
               (Refused "TP role help digest mismatch") in
   ensure (forallb (λ flag, contains flag (from_utf8_lossy help)) required_flags)
     (Refused "TP role lacks required help contract"))%rust.

(** src/src/cluster/deployment.rs:239-299 (RuntimeDeployment::verify_tp) *)
Definition verify_artifact (m : TpDeploymentManifest) (cap : Ds4CapabilityManifest)
    (local : option RoleKind) (a : RoleArtifact) : result unit DeploymentError :=
  (let? approved := ok_or (find_role (ra_role a) (Capability.role_artifacts cap))
                      (Refused "TP capability lacks role") in
   let? _ := ensure (bool_decide (ra_source_commit approved = TpDeployment.source_commit m)
               && bool_decide (ra_executable_kind approved = ra_executable_kind a)
               && bool_decide (ra_binary_sha256 a ∈ ra_compatible_binary_sha256 approved)
               && bool_decide (ra_help_sha256 approved = ra_help_sha256 a))
               (Refused "TP role is not approved by capability") in
   if bool_decide (Some (ra_role a) = local) then verify_local a else Ok tt)%rust.

(** src/src/cluster/deployment.rs:199-302 (RuntimeDeployment::verify_tp) *)
Definition verify_tp (self : RuntimeDeployment) (config : Ds4Config) (role : LocalRole)
    : result unit DeploymentError :=
  let distributed := Ds4Config.distributed config in
  match tp_of self with
  | None => Ok tt
  | Some m =>
      (let? _ := ensure (Ds4DistributedConfig.context_size distributed =? TpDeployment.context_size m)
                   (Refused "TP context differs from deployment") in
       let? _ := ensure (bool_decide (quantization_name (Ds4DistributedConfig.quantization distributed)
                                      = ModelIdentity.quantization (TpDeployment.model m)))
                   (Refused "TP quantization differs from deployment") in
       let? path := ok_or (Ds4DistributedConfig.capability_manifest distributed)
                      (Refused "TP capability_manifest is required") in
       let? cap := map_err OfHost (read_capability path) in
       let? _ := check_stable cap "TP capability is not verified stable" in
       let? _ := ensure (bool_decide (Capability.source_commit cap = TpDeployment.source_commit m)
                   && bool_decide (Capability.tracked_commit (Capability.main_ancestry_proof cap)
                                   = TpDeployment.source_commit m)
                   && bool_decide (Capability.transport cap = str "rdma")
                   && bool_decide (Capability.model_family cap
                                   = ModelIdentity.family (TpDeployment.model m)))
                   (Refused "TP capability/deployment mismatch") in
       let? file := map_err OfHost (fingerprint (Ds4DistributedConfig.model distributed)) in
       let? _ := ensure ((fp_size file =? ModelIdentity.size (TpDeployment.model m))
                   && bool_decide (fp_sha256 file = ModelIdentity.sha256 (TpDeployment.model m)))
                   (Refused "TP model digest differs from deployment") in
       each (verify_artifact m cap (role_kind role)) (TpDeployment.role_artifacts m))%rust
  end.

End Host.

(** ** Resolved profiles *)

Module ResolveError.

(** src/src/cluster/artifacts.rs:178-190 (ResolveError) *)
Inductive ResolveError :=
| RoleExecutableMismatch (role : RoleKind) (kind expected : ExecutableKind)
| Manifest (e : ManifestError).

End ResolveError.
Notation ResolveError := ResolveError.ResolveError.

Module Resolved.

(** src/src/cluster/artifacts.rs:19-30 (ResolvedDs4Profile) *)
Record ResolvedDs4Profile := mkResolved {
  profile_id : bytes;
  topology : bytes;
  transport : bytes;
  role_artifacts : list RoleArtifact;
  model_identity : ModelIdentity;
  context : Z;
  residency : Residency;
  speculative_support : SpeculativeSupport;
  capability_manifest_id : bytes;
}.

(** src/src/cluster/artifacts.rs:34-69 (ResolvedDs4Profile::resolve) *)
Definition resolve (manifest : TpDeploymentManifest) (topology transport : bytes)
    (residency : Residency) (speculative_support : SpeculativeSupport)
    (capability_manifest_id : bytes) : result ResolvedDs4Profile ResolveError :=
  (let? _ := each (λ a, ensure (bool_decide (ra_executable_kind a = expected_executable (ra_role a)))
                          (ResolveError.RoleExecutableMismatch (ra_role a) (ra_executable_kind a)
                             (expected_executable (ra_role a))))
               (TpDeployment.role_artifacts manifest) in
   let? _ := map_err ResolveError.Manifest (TpDeployment.validate manifest) in
   Ok (mkResolved (TpDeployment.profile_id manifest) topology transport
         (TpDeployment.role_artifacts manifest) (TpDeployment.model manifest)
         (TpDeployment.context_size manifest) residency speculative_support
         capability_manifest_id))%rust.

(** src/src/cluster/artifacts.rs:74-104 (ResolvedDs4Profile::deployment_id) *)
Definition identity (self : ResolvedDs4Profile) : list (string * Value) :=
  [("profile_id", jstring (profile_id self));
   ("topology", jstring (topology self));
   ("transport", jstring (transport self));
   ("role_binaries", jstrings (sort_strings (ra_binary_sha256 <$> role_artifacts self)));
   ("source_commits", jstrings (sort_strings (ra_source_commit <$> role_artifacts self)));
   ("model_sha256", jstring (ModelIdentity.sha256 (model_identity self)));
   ("context", jnum (context self))]%string.

(** src/src/cluster/artifacts.rs:73-107 (ResolvedDs4Profile::deployment_id) *)
Definition deployment_id `{Crypto} `{Serde} (self : ResolvedDs4Profile) : bytes :=
  sha256_hex (Canonical.canonical_json (identity self)).

End Resolved.
Notation ResolvedDs4Profile := Resolved.ResolvedDs4Profile.

(** src/src/cluster/artifacts.rs:113-149 (convert_layer_parallel) *)
Definition convert_layer_parallel (manifest : DistributedManifest) (transport : bytes)
    : result TpDeploymentManifest ManifestError :=
  (let? _ := Distributed.validate manifest in
   Ok (TpDeployment.mkTpDeployment 3 (Distributed.profile manifest)
         (Distributed.ds4_source_commit manifest)
         [mkRoleArtifact RoleKind.Worker Ds4 [] (Distributed.ds4_binary_sha256 manifest)
            (Distributed.compatible_ds4_binary_sha256 manifest)
            (Distributed.ds4_source_commit manifest) [] [] None]
         (ModelIdentity.mkModelIdentity (Distributed.checkpoint manifest)
            (Distributed.model_sha256 manifest) (Distributed.model_size manifest)
            (Distributed.model_family manifest) (Distributed.quantization manifest) None None None)
         transport (Distributed.context_size manifest)
         (Distributed.argv_profile_sha256 manifest)))%rust.

(** [rel_path] is the text of the verified path.
    src/src/cluster/artifacts.rs:156-176 (role_artifact_from_verified) *)
Definition role_artifact_from_verified (role : RoleKind) (kind : ExecutableKind) (rel_path : bytes)
    (verified : VerifiedArtifact) (source_commit arch backend : bytes) : RoleArtifact :=
  mkRoleArtifact role kind rel_path (verified_sha256 verified) [verified_sha256 verified]
    source_commit arch backend None.

(** ** What a verified deployment runs *)

Lemma char_seq_ascii s : Forall (λ b, b < 128) s → char_seq s = (λ b, [b]) <$> s.
Proof.
  unfold char_seq. induction s as [|b s IH]; [done|]. rewrite Forall_cons. intros [Hb Hs].
  cbn [length char_seq_fuel]. replace (char_width b) with 1%nat
    by (unfold char_width; by rewrite (proj2 (Z.ltb_lt _ _) Hb)).
  cbn [take drop fmap list_fmap]. f_equal. apply IH, Hs.
Qed.

Lemma concat_singletons (s : bytes) : concat ((λ b, [b]) <$> s) = s.
Proof. induction s as [|b s IH]; cbn; [done|by rewrite IH]. Qed.

Lemma hex_not_white b : is_lower_hex b = true → char_is_whitespace [b] = false ∧ b < 128.
Proof.
  unfold is_lower_hex, is_ascii_digit, between. rewrite orb_true_iff, !andb_true_iff, !Z.leb_le.
  intros Hb. split; [|lia]. unfold char_is_whitespace. cbn.
  rewrite (proj2 (Z.ltb_lt b 128)) by lia. cbn. unfold is_whitespace, between.
  repeat (rewrite orb_false_iff || rewrite andb_true_r). split_and!; lia.
Qed.

(** A digest is no blank text. *)
Lemma sha256_given s : is_sha256 s → given s.
Proof.
  unfold is_sha256, validate_sha256. rewrite ensure_tt, andb_true_iff, Nat.eqb_eq, forallb_forall.
  intros [Hl Hs]. setoid_rewrite <- list_elem_of_In in Hs. unfold given, is_blank.
  assert (Hne : s ≠ []) by (by intros ->).
  assert (Ha : Forall (λ b, b < 128) s)
    by (apply Forall_forall; intros b Hb; exact (proj2 (hex_not_white b (Hs b Hb)))).
  assert (Ht : trim_start s = s).
  { unfold trim_start. rewrite char_seq_ascii by done. destruct s as [|b s]; [done|]. cbn [fmap list_fmap skip_while].
    rewrite (proj1 (hex_not_white b (Hs b ltac:(left)))).
    change (concat ((λ b, [b]) <$> (b :: s)) = b :: s). apply concat_singletons. }
  unfold trim. rewrite Ht. unfold trim_end. rewrite char_seq_ascii by done.
  destruct s as [|b s _] using rev_ind; [done|]. rewrite fmap_app, reverse_app.
  cbn [fmap list_fmap]. rewrite reverse_singleton. cbn [app skip_while].
  rewrite (proj1 (hex_not_white b (Hs b ltac:(set_solver)))).
  apply bool_decide_eq_false. rewrite reverse_cons, concat_app. cbn. by destruct (concat _).
Qed.

Lemma find_role_some kind l a :
  find_role kind l = Some a → a ∈ l ∧ ra_role a = kind.
Proof.
  intros [H1 H2]%List.find_some. split; [by apply list_elem_of_In|by apply bool_decide_eq_true in H2].
Qed.

Lemma find_role_unique l a :
  NoDup (ra_role <$> l) → a ∈ l → find_role (ra_role a) l = Some a.
Proof.
  induction l as [|b l IH]; [by intros _ ?%not_elem_of_nil|].
  rewrite fmap_cons, NoDup_cons. intros [Hb Hnd]. unfold find_role. cbn.
  case_bool_decide as Hr; rewrite elem_of_cons.
  - intros [->|Ha]; [done|]. destruct Hb. rewrite Hr. by apply list_elem_of_fmap_2.
  - intros [->|Ha]; [done|]. by apply IH.
Qed.

Lemma map_err_ok {A E F} (f : E → F) (c : result A E) a : map_err f c = Ok a ↔ c = Ok a.
Proof. destruct c; cbn; naive_solver. Qed.

Lemma tp_valid m :
  TpDeployment.validate m = Ok tt →
  NoDup (ra_role <$> TpDeployment.role_artifacts m)
  ∧ Forall (λ a, ra_executable_kind a = expected_executable (ra_role a)
                 ∧ ra_source_commit a = TpDeployment.source_commit m
                 ∧ ra_binary_sha256 a ∈ ra_compatible_binary_sha256 a)
      (TpDeployment.role_artifacts m).
Proof.
  unfold TpDeployment.validate. rewrite !bind_tt, each_role_ok. intros (_ & _ & _ & _ & _ & _ & H1 & _ & H2).
  split; [done|]. apply (Forall_impl _ _ _ H2). intros a Ha.
  unfold TpDeployment.validate_artifact, approves in Ha. rewrite !bind_tt, !ensure_tt, !bool_decide_eq_true in Ha.
  naive_solver.
Qed.

(** A build is stable for a capability when it is valid, not restricted, of the main line and
    verified. *)
Lemma stable_spec cap c :
  Capability.status_for cap c = Ok CapabilityStatus.Stable ↔
  Capability.validate cap = Ok tt ∧ c ∉ Capability.restrictions cap
  ∧ Capability.ancestor_of_main (Capability.main_ancestry_proof cap) = true
  ∧ Capability.verified (Capability.verification cap) = true.
Proof.
  unfold Capability.status_for, Capability.assess. rewrite bind_tt. split.
  - intros [Hv E]. rewrite Hv in E. case_bool_decide; [done|]. cbn in E.
    destruct (Capability.ancestor_of_main _), (Capability.verified _); naive_solver.
  - intros (Hv & Hr & Hm & Hd). split; [done|]. rewrite bool_decide_eq_false_2 by done.
    rewrite Hv. cbn. by rewrite Hm, Hd.
Qed.

Lemma check_stable_ok cap message :
  check_stable cap message = Ok tt ↔
  Capability.status_for cap tp_capability = Ok CapabilityStatus.Stable
  ∧ tp_capability ∈ Capability.capabilities cap.
Proof.
  unfold check_stable. rewrite result_bind_ok. setoid_rewrite map_err_ok.
  setoid_rewrite ensure_tt. setoid_rewrite andb_true_iff. setoid_rewrite bool_decide_eq_true.
  naive_solver.
Qed.

Section Verified.
Context {crypto : Crypto} {texts : Texts} {host : DeploymentHost}.

(** What the check of the local file found. *)
Definition checked_file (a : RoleArtifact) : Prop :=
  is_canonical (ra_path a) = Ok true ∧ is_symlink (ra_path a) = Ok false
  ∧ (∃ file, fingerprint (ra_path a) = Ok file ∧ fp_sha256 file = ra_binary_sha256 a)
  ∧ ∃ output, run_help (ra_path a) = Ok output ∧ help_success output = true
      ∧ ra_help_sha256 a = Some (sha256_hex (help_stdout output ++ help_stderr output))
      ∧ ∀ flag, flag ∈ required_flags →
          contains flag (from_utf8_lossy (help_stdout output ++ help_stderr output)) = true.

Lemma verify_local_ok a : verify_local a = Ok tt → checked_file a.
Proof.
  unfold verify_local. rewrite bind_tt. intros [_ E].
  apply result_bind_ok in E as (c & Hc%map_err_ok & E). rewrite bind_tt, ensure_tt in E.
  destruct E as [-> E].
  apply result_bind_ok in E as (sl & Hs%map_err_ok & E). rewrite bind_tt, ensure_tt in E.
  destruct E as [Hsl%negb_true_iff E]. subst sl.
  apply result_bind_ok in E as (file & Hf%map_err_ok & E). rewrite bind_tt, ensure_tt, bool_decide_eq_true in E.
  destruct E as [Hd E].
  apply result_bind_ok in E as (out & Ho%map_err_ok & E).
  rewrite !bind_tt, !ensure_tt, bool_decide_eq_true in E. destruct E as (H1 & H2 & H3).
  split; [done|]. split; [done|]. split; [by eexists|]. eexists. split; [done|]. split; [done|].
  split; [done|]. intros flag Hflag. rewrite forallb_forall in H3. apply H3. by apply list_elem_of_In.
Qed.

(** [approved] is the build's entry for the role of [a]. *)
Definition approves_artifact (m : TpDeploymentManifest) (approved a : RoleArtifact) : Prop :=
  ra_role approved = ra_role a ∧ ra_source_commit approved = TpDeployment.source_commit m
  ∧ ra_executable_kind approved = ra_executable_kind a
  ∧ ra_binary_sha256 a ∈ ra_compatible_binary_sha256 approved
  ∧ ra_help_sha256 approved = ra_help_sha256 a.

Lemma verify_artifact_ok m cap local a :
  verify_artifact m cap local a = Ok tt ↔
  (∃ approved, find_role (ra_role a) (Capability.role_artifacts cap) = Some approved
     ∧ approves_artifact m approved a)
  ∧ (Some (ra_role a) = local → verify_local a = Ok tt).
Proof.
  unfold verify_artifact, approves_artifact. generalize (verify_local a); intros checked.
  rewrite result_bind_ok. setoid_rewrite ok_or_ok.
  setoid_rewrite bind_tt. setoid_rewrite ensure_tt. setoid_rewrite andb_true_iff.
  setoid_rewrite andb_true_iff. setoid_rewrite andb_true_iff. setoid_rewrite bool_decide_eq_true.
  split.
  - intros (ap & Hf & (((H1 & H2) & H3) & H4) & H5). destruct (find_role_some _ _ _ Hf) as [_ Hr].
    split; [naive_solver|]. intros Hl.
    rewrite (bool_decide_eq_true_2 (Some (ra_role a) = local) Hl) in H5. exact H5.
  - intros [(ap & Hf & H0 & H1 & H2 & H3 & H4) H5]. exists ap. split_and!; try done.
    case_bool_decide; auto.
Qed.

Lemma deployment_command_ok m config port role coordinator cmd :
  deployment_command (RuntimeDeployment.TensorParallel m) config port role coordinator = Ok cmd →
  ∃ kind a, role_kind role = Some kind ∧ find_role kind (TpDeployment.role_artifacts m) = Some a
    ∧ executable cmd = ra_path a.
Proof.
  unfold deployment_command. cbn [tp_of ok_or result_bind]. intros E.
  apply result_bind_ok in E as ([kind c] & E1 & E).
  apply result_bind_ok in E as (a & Ha%ok_or_ok & E). injection E as <-. exists kind, a.
  split; [|done]. destruct role; try done;
    apply result_bind_ok in E1 as (? & _ & E1); by injection E1 as <- _.
Qed.


(** C30: A deployment made from the capability of a build is accepted by the verification
    against that capability: with the model it was made for, before the role is known, no
    check refuses it. *)
Theorem capability_deployment_verifies config cap model_sha256 model_size d path file :
  from_tp_capability config cap model_sha256 model_size = Ok d →
  Ds4DistributedConfig.capability_manifest (Ds4Config.distributed config) = Some path →
  read_capability path = Ok cap →
  fingerprint (Ds4DistributedConfig.model (Ds4Config.distributed config)) = Ok file →
  fp_sha256 file = model_sha256 → fp_size file = model_size →
  validate d = Ok tt ∧ verify_tp d config LocalRole.Unknown = Ok tt.
Proof.
  unfold from_tp_capability. rewrite !bind_tt, ensure_tt, andb_true_iff, !bool_decide_eq_true.
  intros (Hst & [Hsrc Htr] & Hv & E) Hp Hc Hf Hsha Hsize. injection E as <-. split; [exact Hv|].
  unfold verify_tp. cbn [tp_of]. set (m := TpDeployment.mkTpDeployment _ _ _ _ _ _ _ _) in *.
  rewrite !bind_tt, !ensure_tt, bool_decide_eq_true. split_and!; [by apply Z.eqb_eq|done|].
  rewrite Hp. cbn [ok_or result_bind]. rewrite Hc. cbn [map_err result_bind]. rewrite !bind_tt, !ensure_tt.
  split_and!.
  - apply check_stable_ok. by apply check_stable_ok in Hst.
  - rewrite !bool_decide_eq_true_2; congruence || done.
  - rewrite Hf. cbn [map_err result_bind]. rewrite bind_tt, ensure_tt, andb_true_iff, bool_decide_eq_true.
    split; [split; [by apply Z.eqb_eq|done]|].
    cbn [validate] in Hv. rewrite !bind_tt, map_err_ok in Hv. destruct Hv as (Hv & _).
    destruct (tp_valid m Hv) as [Hnd Hall]. rewrite each_ok. rewrite Forall_forall in Hall |- *.
    intros a Ha. apply verify_artifact_ok. split; [|done]. exists a.
    destruct (Hall a Ha) as (_ & H2 & H3). split; [|by split_and!].
    by apply find_role_unique.
Qed.

(** ** Paths of a host are not part of the identity *)

Lemma update_role_each {E} (duplicate : RoleKind → E) check roles kind path l :
  (∀ a, check (with_path path a) = check a) →
  each_role duplicate check roles (update_role kind (with_path path) l)
  = each_role duplicate check roles l.
Proof.
  intros Hc. revert roles; induction l as [|a l IH]; intros roles; [done|]. cbn [update_role].
  case_bool_decide; cbn [each_role]; [by rewrite Hc|]. by rewrite IH.
Qed.

Lemma update_role_binaries kind path l :
  ra_binary_sha256 <$> update_role kind (with_path path) l = ra_binary_sha256 <$> l.
Proof.
  induction l as [|a l IH]; [done|]. cbn [update_role]. case_bool_decide; cbn; [done|by rewrite <- IH].
Qed.

Lemma update_role_length kind path l : length (update_role kind (with_path path) l) = length l.
Proof.
  induction l as [|a l IH]; [done|]. cbn [update_role]. case_bool_decide; cbn; [done|by rewrite IH].
Qed.

Lemma with_path_keeps_id `{Serde} kind path m :
  TpDeployment.deployment_id
    (with_artifacts (update_role kind (with_path path) (TpDeployment.role_artifacts m)) m)
  = TpDeployment.deployment_id m.
Proof.
  unfold TpDeployment.deployment_id, TpDeployment.validate, TpDeployment.identity, with_artifacts.
  cbn [TpDeployment.schema_version TpDeployment.profile_id TpDeployment.source_commit
    TpDeployment.role_artifacts TpDeployment.model TpDeployment.transport TpDeployment.context_size
    TpDeployment.argv_contract_id].
  by rewrite update_role_each, update_role_binaries, update_role_length by done.
Qed.

(** Resolving the local file changes a path only: the deployment id stays. *)
Lemma resolve_keeps_id `{Serde} config role d :
  deployment_id (resolve_local_artifact config role d).2 = deployment_id d.
Proof.
  unfold resolve_local_artifact. destruct d as [m|m]; cbn [tp_of]; [done|].
  destruct (role_kind role) as [kind|],
    (Ds4DistributedConfig.role_artifact (Ds4Config.distributed config)) as [path|]; try done.
  destruct (result_bind (map_err OfHost (read_role_artifact path)) _) as [p|e]; [|done].
  unfold deployment_id. cbn [snd]. by rewrite with_path_keeps_id.
Qed.

(** A layer-parallel manifest becomes a valid tensor-parallel one. *)
Lemma converted_is_valid m transport t :
  convert_layer_parallel m transport = Ok t → given transport → TpDeployment.validate t = Ok tt.
Proof.
  unfold convert_layer_parallel. rewrite bind_tt. intros [Hv E] Ht. injection E as <-.
  apply distributed_valid in Hv as (_ & H1 & H2 & H3 & H4 & H5 & H6 & H7 & H8).
  rewrite !Forall_cons in H1. destruct H1 as (H1 & H1a & H1b & _). rewrite !Forall_cons in H6.
  destruct H6 as (G1 & _ & G3 & G4 & G5 & _). apply sha256_given in H1b.
  unfold TpDeployment.validate, ModelIdentity.validate.
  rewrite !bind_tt, !ensure_tt, !each_given, each_role_ok, each_ok, !negb_true_iff, !Z.eqb_neq.
  cbn [TpDeployment.schema_version TpDeployment.profile_id TpDeployment.source_commit
    TpDeployment.role_artifacts TpDeployment.model TpDeployment.transport TpDeployment.context_size
    TpDeployment.argv_contract_id ModelIdentity.sha256 ModelIdentity.catalog_id ModelIdentity.size
    ModelIdentity.family ModelIdentity.quantization fmap list_fmap].
  split_and!; try done; try (by repeat constructor).
  - apply NoDup_singleton.
  - set_solver.
  - constructor; [|constructor]. unfold TpDeployment.validate_artifact, approves.
    rewrite !bind_tt, !ensure_tt, each_ok, !bool_decide_eq_true. by split_and!.
Qed.

End Verified.

Module DemoDeployment.
#[local] Existing Instance toy_crypto.
#[local] Instance texts : Texts := {| ipv6_to_string _ := []; f64_to_string _ := [] |}.

Definition help_text : bytes := concat required_flags.
Definition model_path : bytes := str "/srv/ds4/model.gguf".
Definition model_content : bytes := str "weights".
Definition binary_content : bytes := str "ds4".
Definition commit : bytes := repeat 57 40.

Definition artifact (kind : RoleKind) (path : string) : RoleArtifact :=
  mkRoleArtifact kind (expected_executable kind) (str path) (sha256_hex binary_content)
    [sha256_hex binary_content] commit (str "aarch64") (str "metal") (Some (sha256_hex help_text)).

Definition build (verified : bool) : Ds4CapabilityManifest :=
  Capability.mkCapability 1 commit (Capability.mkAncestry commit true (str "ls-remote")) (str "build-1")
    [artifact RoleKind.Worker "/opt/ds4"; artifact RoleKind.Coordinator "/opt/ds4-server"]
    (str "rdma") (str "deepseek") [str "tensor-parallel"] [] (str "main")
    (Capability.mkVerification verified 0 []).

Definition config : Ds4Config :=
  Ds4Config.mkDs4 (str "/opt/ds4-server") (str "/srv/ds4") (IpAddr.V4 2130706433) 8000 false
    (Ds4DsparkConfig.mkDspark false None None false)
    (Ds4Config.standalone DemoCommand.pair_config)
    (Ds4DistributedConfig.mkDistributed DistributedTopology.TensorParallel Quantization.Mxfp4
       Transport.Rdma model_path (str "/srv/ds4/mx.json") (str "v4") 32768 None None
       (str "/srv/ds4/kv") 1024 [] None (Some (str "/srv/ds4/capability.json")) None None
       (Some (str "rdma_en5")) (Some (str "1"))).

Definition host (verified : bool) : DeploymentHost := {|
  read_capability _ := Ok (build verified);
  read_role_artifact _ := Err FileFailed;
  fingerprint path :=
    let content := if bool_decide (path = model_path) then model_content else binary_content in
    Ok (mkFingerprint 1 2 (length content) 3 (sha256_hex content) 4);
  is_canonical _ := Ok true;
  is_symlink _ := Ok false;
  run_help _ := Ok (mkHelp true help_text []);
|}.

Definition deployed : result RuntimeDeployment DeploymentError :=
  from_tp_capability config (build true) (sha256_hex model_content) 7.

Definition manifest : TpDeploymentManifest :=
  match deployed with
  | Ok (RuntimeDeployment.TensorParallel m) => m
  | _ => TpDeployment.mkTpDeployment 3 [] [] [] (ModelIdentity.mkModelIdentity [] [] 0 [] [] None None None) [] 0 []
  end.

(** With a build that was not verified nothing is started. *)
Example unverified_is_refused :
  verify_tp (host := host false) (RuntimeDeployment.TensorParallel manifest) config LocalRole.Worker
  = Err (Refused "TP capability is not verified stable").
Proof. vm_compute. done. Qed.

End DemoDeployment.


Lemma capability_deployment_verifies_witness :
  verify_tp (crypto := toy_crypto) (host := DemoDeployment.host true)
    (RuntimeDeployment.TensorParallel DemoDeployment.manifest) DemoDeployment.config LocalRole.Unknown
  = Ok tt.
Proof.
  refine (proj2 (capability_deployment_verifies (crypto := toy_crypto) (host := DemoDeployment.host true)
    DemoDeployment.config (DemoDeployment.build true) (sha256_hex (H := toy_crypto) DemoDeployment.model_content)
    7 (RuntimeDeployment.TensorParallel DemoDeployment.manifest) _ _ _ _ _ _ _ _));
    vm_compute; reflexivity.
Defined.
