(* ===== verification/RecoveryRun.v ===== *)
(** * A degraded recovery, from its request to its report: [src/src/app.rs]

    The recovery composes the whole coordinator: the service of [Recovery] accepts it, the
    owner flag keeps other lifecycle requests away, and a task demotes and promotes the node
    of [Runtime] and [Production] with a closed gate, lets the canary of [Canary] through, and
    reports.  The node stays under the invariant of [Node].  Each step of the system runs to
    its end before the next; a request of the canary to the proxy itself is [Proxy]. *)

From Stdlib Require Import QArith_base.
From S2P Require Import Prelude Bytes Utf8 Text Target Operation Tp Auth Control Hello Admission.
From S2P Require Import ClusterFsm Promotion Runtime Production Node Config Metrics Notify Proxy Canary Recovery.
Local Open Scope Z_scope.

(** ** Names and texts *)

(** src/src/recovery.rs:46-53 (RecoveryTrigger::as_str) *)
Definition trigger_name (t : RecoveryTrigger) : string :=
  match t with
  | RecoveryTrigger.ManualCanaryFailure => "manual-canary-failure"
  | RecoveryTrigger.ProgressStall => "progress-stall"
  | RecoveryTrigger.LowDecodeTps => "low-decode-tps"
  | RecoveryTrigger.FirstTokenTimeout => "first-token-timeout"
  end.

(** src/src/recovery.rs:368-384 (RecoveryFailureReason::as_str) *)
Definition failure_name (r : RecoveryFailureReason) : string :=
  match r with
  | RecoveryFailureReason.NotCoordinator => "not-coordinator"
  | RecoveryFailureReason.NotDistributedReady => "not-distributed-ready"
  | RecoveryFailureReason.Cooldown => "cooldown"
  | RecoveryFailureReason.AttemptLimit => "attempt-limit"
  | RecoveryFailureReason.SnapshotWrite => "snapshot-write"
  | RecoveryFailureReason.UnknownRecoveryId => "unknown-recovery-id"
  | RecoveryFailureReason.RecoveryOwnerBusy => "recovery-owner-busy"
  | RecoveryFailureReason.DrainTimeout => "drain-timeout"
  | RecoveryFailureReason.DemotionFailed => "demotion-failed"
  | RecoveryFailureReason.PromotionFailed => "promotion-failed"
  | RecoveryFailureReason.ChildIdentityMismatch => "child-identity-mismatch"
  | RecoveryFailureReason.PeerLoss => "peer-loss"
  | RecoveryFailureReason.CanaryFailed => "canary-failed"
  end.

(** The [Debug] texts that the compiler derives, the texts of the errors of other crates and
    of the payloads that [Runtime] drops, and what [uuid] parses. *)
Class Surroundings := {
  debug_state : ClusterState → bytes;
  debug_event : ClusterEventKind → bytes;
  debug_canary : CanaryReason → bytes;
  payload : ProductionError → bytes;
  uuid_parses : bytes → bool;
}.

Section Texts.
Context {around : Surroundings}.

(** src/src/cluster/state.rs:325-336 (TransitionError) *)
Definition transition_text (e : TransitionError) : bytes :=
  match e with
  | TransitionError.StaleGeneration expected current =>
      str "stale cluster generation: expected " ++ u64_to_string expected
      ++ str ", current " ++ u64_to_string current
  | TransitionError.InvalidTransition from event =>
      str "invalid cluster transition from " ++ debug_state from ++ str " via " ++ debug_event event
  | TransitionError.Stopped => str "cluster state machine stopped"
  end.

(** src/src/admission.rs:31-37 (DrainError) *)
Definition drain_text (e : DrainError) : bytes :=
  match e with
  | DrainError.Timeout => str "drain timed out"
  | DrainError.GenerationChanged => str "drain generation changed"
  end.

(** src/src/cluster/state.rs:289-295 (PromotionTrackerError) *)
Definition tracker_text (e : PromotionTrackerError) : bytes :=
  match e with
  | PromotionTrackerError.InvalidPolicy => str "promotion backoff and maximum failures must be positive"
  | PromotionTrackerError.NotPromotionFailure => str "failure is not eligible for promotion retry"
  end.

(** src/src/cluster/coordinator.rs:56-82 (CoordinatorLifecycleError) *)
Definition lifecycle_text (e : CoordinatorLifecycleError) : bytes :=
  match e with
  | CoordinatorLifecycleError.Transition e => transition_text e
  | CoordinatorLifecycleError.Drain e => drain_text e
  | CoordinatorLifecycleError.Standalone => str "standalone lifecycle failed: " ++ payload (Lifecycle e)
  | CoordinatorLifecycleError.Coordinator =>
      str "distributed coordinator lifecycle failed: " ++ payload (Lifecycle e)
  | CoordinatorLifecycleError.Peer => str "worker control lifecycle failed: " ++ payload (Lifecycle e)
  | CoordinatorLifecycleError.StartupTimeout => str "distributed coordinator startup timed out"
  | CoordinatorLifecycleError.CompleteRouteTimeout => str "complete distributed route timed out"
  | CoordinatorLifecycleError.Recovery =>
      str "promotion failed and Paired Standalone recovery also failed: " ++ payload (Lifecycle e)
  | CoordinatorLifecycleError.InvalidTiming => str "coordinator lifecycle timeouts must be positive"
  | CoordinatorLifecycleError.PromotionTracker e => tracker_text e
  | CoordinatorLifecycleError.PrerequisiteMissing =>
      str "worker HELLO promotion requires ready worker control and a valid lease"
  | CoordinatorLifecycleError.LeaseLost => str "worker lease was lost during distributed promotion"
  end.

(** src/src/cluster/production/policy.rs:235-248 (AutomaticPromotionVerdict::name) *)
Definition verdict_name (v : AutomaticPromotionVerdict) : string :=
  match v with
  | AutomaticPromotionVerdict.Allow => "auto-promote-allowed"
  | AutomaticPromotionVerdict.AutoPromoteDisabled => "auto-promote-disabled"
  | AutomaticPromotionVerdict.PeerAbsent => "auto-promote-peer-absent"
  | AutomaticPromotionVerdict.EpochMismatch => "auto-promote-epoch-mismatch"
  | AutomaticPromotionVerdict.DeploymentMismatchLatch => "auto-promote-deployment-mismatch-latch"
  | AutomaticPromotionVerdict.ForcedStandaloneLatch => "auto-promote-forced-standalone-latch"
  end.

(** src/src/cluster/production/pairing.rs:19-29 (PromotionHelloError) *)
Definition hello_text (e : PromotionHelloError) : bytes :=
  match e with
  | PromotionHelloError.Rendezvous _ | PromotionHelloError.Control _ => payload (HelloFailed e)
  | PromotionHelloError.Preflight _ => str "promotion preflight control failed: " ++ payload (HelloFailed e)
  | PromotionHelloError.WorkerStartupTimeout =>
      str "worker did not become Ready before the startup deadline"
  end.

(** A denied promotion has changed nothing: the first check that fails names the reason.
    src/src/cluster/production/pairing.rs:134-153 (ProductionClusterRuntime::promote_internal) *)
Definition denied_text (policy : PolicyState) (w : World) : bytes :=
  if negb (bool_decide (role (cluster w) = LocalRole.Coordinator))
  then str "only the coordinator may promote"
  else if negb (bool_decide (ClusterFsm.state (cluster w) = ClusterState.PairedStandaloneReady))
  then str "cluster is not paired standalone"
  else str "automatic promotion blocked by policy gate: "
       ++ str (verdict_name (automatic_promotion_gate policy (automatic_pairing_blocked w) true
                               (policy_epoch policy))).

Definition production_text (policy : PolicyState) (w : World) (e : ProductionError) : bytes :=
  match e with
  | Lifecycle e => lifecycle_text e
  | Apply e => transition_text e
  | HelloFailed e => hello_text e
  | Denied => denied_text policy w
  | _ => payload e
  end.

(** src/src/app.rs:2132-2145 (run_recovery_lifecycle) *)
Definition failure_of_text (error_text : bytes) : RecoveryFailureReason :=
  if contains (str "drain") error_text then RecoveryFailureReason.DrainTimeout
  else if contains (str "child identity") error_text then RecoveryFailureReason.ChildIdentityMismatch
  else if contains (str "promotion") error_text then RecoveryFailureReason.PromotionFailed
  else if contains (str "canary") error_text then RecoveryFailureReason.CanaryFailed
  else RecoveryFailureReason.DemotionFailed.

End Texts.

(** ** The state of the application that a recovery works on *)

(** The fields of the diagnosis that are compared: generation and pid of the local child.
    src/src/cluster/production.rs:1744-1747 (ProductionDiagnostics) *)
Record ProductionDiagnostics := mkDiagnostics {
  distributed_coordinator : option (Z * Z);
  peer_distributed_child_generation : option Z;
}.

Record AppState := mkApp {
  node : World;
  has_cluster : bool;
  has_production : bool;
  recovery : RecoveryInner;
  recovery_owner_active : bool;
  canary_permit : option RecoveryCanaryPermit;
  app_metrics : Metrics;
  notifications : option DesktopNotificationService;
  route_loss_monitors : Z;
}.

Definition with_node (w : World) (a : AppState) : AppState :=
  mkApp w (has_cluster a) (has_production a) (recovery a) (recovery_owner_active a) (canary_permit a)
    (app_metrics a) (notifications a) (route_loss_monitors a).
Definition with_recovery (s : RecoveryInner) (a : AppState) : AppState :=
  mkApp (node a) (has_cluster a) (has_production a) s (recovery_owner_active a) (canary_permit a)
    (app_metrics a) (notifications a) (route_loss_monitors a).
Definition with_owner (b : bool) (a : AppState) : AppState :=
  mkApp (node a) (has_cluster a) (has_production a) (recovery a) b (canary_permit a)
    (app_metrics a) (notifications a) (route_loss_monitors a).
Definition with_permit (p : option RecoveryCanaryPermit) (a : AppState) : AppState :=
  mkApp (node a) (has_cluster a) (has_production a) (recovery a) (recovery_owner_active a) p
    (app_metrics a) (notifications a) (route_loss_monitors a).
Definition with_metrics (f : Metrics → Metrics) (a : AppState) : AppState :=
  mkApp (node a) (has_cluster a) (has_production a) (recovery a) (recovery_owner_active a)
    (canary_permit a) (f (app_metrics a)) (notifications a) (route_loss_monitors a).
Definition with_notifications (f : DesktopNotificationService → DesktopNotificationService)
    (a : AppState) : AppState :=
  mkApp (node a) (has_cluster a) (has_production a) (recovery a) (recovery_owner_active a)
    (canary_permit a) (app_metrics a) (f <$> notifications a) (route_loss_monitors a).
Definition with_monitor (a : AppState) : AppState :=
  mkApp (node a) (has_cluster a) (has_production a) (recovery a) (recovery_owner_active a)
    (canary_permit a) (app_metrics a) (notifications a) (route_loss_monitors a + 1).

(** src/src/app.rs:181-187 (AppState::cluster_snapshot) *)
Definition cluster_snapshot (a : AppState) : option ClusterSnapshot :=
  if has_cluster a then Some (cluster (node a)) else None.

(** src/src/cluster/production.rs:1223-1228 (try_claim_recovery_owner) *)
Definition try_claim_recovery_owner (a : AppState) : bool * AppState :=
  if recovery_owner_active a then (false, a) else (true, with_owner true a).

(** [if let Some(production) = state.production_runtime() { production.release_recovery_owner() }].
    src/src/cluster/production.rs:1230-1234 (release_recovery_owner) *)
Definition release_recovery_owner (a : AppState) : AppState :=
  if has_production a then with_owner false a else a.

(** The settings of the recovery. *)
Record RecoveryConfig := mkRecoveryConfig {
  rc_progress_stall : Z;
  rc_low_decode_tps : double;
  rc_low_decode_duration : Z;
  rc_canary_deadline : Z;
  rc_auto_demote : bool;
}.

(** src/src/app.rs:1888-1903 (recovery_gate) *)
Definition recovery_gate (a : AppState) : RecoveryGate :=
  match cluster_snapshot a with
  | Some snapshot => mkRecoveryGate (role snapshot) (stable_mode snapshot) (ClusterFsm.state snapshot)
                       (ClusterFsm.generation snapshot)
  | None => mkRecoveryGate LocalRole.Unknown StableMode.SoloStandalone ClusterState.Booting 0
  end.

(** src/src/app.rs:2178-2185 (notify_recovery_started) *)
Definition notify_recovery_started (recovery_id : bytes) (generation : Z) : AppState → AppState :=
  with_notifications (observe_recovery_started recovery_id generation).

(** src/src/app.rs:2268-2284 (recovery_children_replaced) *)
Definition recovery_children_replaced (before after : ProductionDiagnostics) : bool :=
  match distributed_coordinator before, distributed_coordinator after with
  | Some (g, pid), Some (g', pid') => negb (g =? g') || negb (pid =? pid')
  | _, _ => false
  end
  && match peer_distributed_child_generation before, peer_distributed_child_generation after with
     | Some g, Some g' => negb (g =? g')
     | _, _ => false
     end.

(** src/src/app.rs:2160-2176 (restore_recovery_admission_if_unchanged) *)
Definition restore_recovery_admission_if_unchanged (old_generation : Z)
    (old_target : ProxyTarget * bool) (old_admission_state : AdmissionState) (a : AppState)
    : bool * AppState :=
  let generation_unchanged :=
    is_some_and (cluster_snapshot a) (fun s => ClusterFsm.generation s =? old_generation) in
  let target_unchanged := bool_decide (proxy_target (node a) = old_target) in
  if generation_unchanged && target_unchanged
     && bool_decide (old_admission_state = AdmissionState.Serving)
  then (true, with_node (with_gate start_serving (node a)) a)
  else (false, a).

(** ** The lifecycle of a recovery *)

(** What the world outside of the node does while a recovery runs. *)
Record Circumstances := mkCircumstances {
  snapshot_captured : bool;
  snapshot_written : bool;
  policy : PolicyState;
  hello : result unit PromotionHelloError;
  prerequisites : bool;
  promoted_at : Z;
  diagnostics_before : ProductionDiagnostics;
  diagnostics_after : ProductionDiagnostics;
  permit_token : bytes;
  permit_issued_at : Z;
  permit_used : bool;
  canary_client : bool;
  canary_started : Z;
  canary_answer : CanaryAnswer;
  finished_at : Z;
}.

Section Lifecycle.
Context {env : Environment} {serde : Json.Serde} {around : Surroundings}.
Context (config : RecoveryConfig).

Notation app_method A := (method AppState bytes A).

(** [service.mark_...(...).ok_or_else(|| anyhow!(e))?] *)
Definition mark (f : RecoveryInner → option RecoveryJob * RecoveryInner) (e : bytes) : app_method unit :=
  fun a => let '(r, s) := f (recovery a) in
           (match r with Some _ => Ok tt | None => Err e end, with_recovery s a).

(** An operation of the production runtime; its error is only used as a text. *)
Definition on_node {A} (policy : PolicyState) (m : method World ProductionError A) : app_method A :=
  fun a => let '(r, w) := m (node a) in
           (map_err (production_text policy w) r, with_node w a).

(** src/src/cluster/production/pairing.rs:289-304 (demote_for_recovery) *)
Definition demote_for_recovery : app_method ClusterSnapshot :=
  a ← self;
  require (bool_decide (role (cluster (node a)) = LocalRole.Coordinator))
    (str "only the coordinator may demote");;
  on_field node with_node (map_error lifecycle_text Runtime.demote_for_recovery).

(** src/src/cluster/production/pairing.rs:126-128 (promote_for_recovery) *)
Definition promote_for_recovery (c : Circumstances) : app_method ClusterSnapshot :=
  on_node (policy c) (promote_internal (policy c) false (hello c) (prerequisites c) (promoted_at c)).

(** The settings of the probe.  src/src/app.rs:2067-2077 (run_recovery_lifecycle) *)
Definition canary_policy : CanaryPolicy :=
  Canary.mkPolicy (rc_canary_deadline config) (rc_progress_stall config) (rc_low_decode_tps config).

(** The first check of [CanaryExecutor::new] that fails, or the error of the client.
    src/src/canary.rs:67-85 (CanaryExecutor::new) *)
Definition canary_error (client : bool) (p : CanaryPolicy) : option bytes :=
  if Canary.deadline p =? 0 then Some (str "canary deadline must be positive")
  else if Canary.progress_stall p =? 0 then Some (str "canary progress stall must be positive")
  else if negb (is_finite (Canary.low_decode_tps p) && at_least 0 (Canary.low_decode_tps p))
  then Some (str "canary low decode TPS must be finite and non-negative")
  else if client then None else Some (payload StandaloneRecoveryFailed).

(** src/src/cluster/production/pairing.rs:257-266 (start_route_loss_monitor) *)
Definition start_route_loss_monitor (a : AppState) : AppState :=
  if rc_auto_demote config then with_monitor a else a.

Definition left_owner : bytes := str "recovery job left the active owner".

(** The probe with its permit, and its verdict as the service notes it.
    src/src/app.rs:2062-2086 (run_recovery_lifecycle) *)
Definition run_canary (c : Circumstances) (id : bytes) : app_method unit :=
  modify (with_permit (Some (mkCanary id (permit_token c) (permit_issued_at c + rc_canary_deadline config))));;
  (match canary_error (canary_client c) canary_policy with Some e => fail e | None => mret tt end);;
  modify (fun a => if permit_used c then with_permit None a else a);;
  let result := (execute_with_permit canary_policy (canary_started c) (canary_answer c)).1 in
  mark (mark_post_recovery_canary id (Canary.reason result)) left_owner;;
  require (bool_decide (Canary.reason result = CanaryReason.Healthy))
    (str "post-recovery canary failed: " ++ debug_canary (Canary.reason result)).

(** src/src/app.rs:2015-2112 (run_recovery_lifecycle) *)
Definition recovery_body (c : Circumstances) (id : bytes) (old_generation : Z) : app_method unit :=
  let phase p e := mark (mark_phase id p (Some (str "blocked"))) e in
  phase RecoveryPhase.AdmissionBlocked (str "recovery job is no longer active");;
  phase RecoveryPhase.Draining left_owner;;
  phase RecoveryPhase.Demoting left_owner;;
  demote_for_recovery;;
  phase RecoveryPhase.PairedStandalone left_owner;;
  phase RecoveryPhase.Promoting left_owner;;
  distributed ← promote_for_recovery c;
  require (old_generation <? ClusterFsm.generation distributed)
    (str "recovery promotion did not create a new cluster generation");;
  require (recovery_children_replaced (diagnostics_before c) (diagnostics_after c))
    (str "recovery child identity/generation did not change on both nodes");;
  phase RecoveryPhase.PostRecoveryCanary left_owner;;
  run_canary c id;;
  modify (fun a => with_node (with_gate start_serving (node a)) a);;
  mark (mark_phase id RecoveryPhase.Serving (Some (str "serving"))) left_owner;;
  mark (mark_succeeded id (finished_at c) (ClusterFsm.generation distributed))
    (str "recovery job could not be completed");;
  modify (fun a => with_metrics (recovery_completed
    (str (match Recovery.status (recovery a) id with
          | Some job => trigger_name (job_trigger job)
          | None => "throughput-degraded"
          end))) a);;
  modify start_route_loss_monitor.

(** src/src/app.rs:1991-2158 (run_recovery_lifecycle) *)
Definition run_recovery_lifecycle (c : Circumstances) (id : bytes) (a : AppState)
    : option RecoveryFailureReason * AppState :=
  if negb (has_production a) then (Some RecoveryFailureReason.RecoveryOwnerBusy, a)
  else
    match cluster_generation <$> Recovery.status (recovery a) id with
    | None => (Some RecoveryFailureReason.UnknownRecoveryId, a)
    | Some old_generation =>
        let old_target := proxy_target (node a) in
        let old_admission := Admission.state (gate (node a)) in
        let '(result, a) := recovery_body c id old_generation a in
        let a := release_recovery_owner a in
        match result with
        | Ok _ => (None, a)
        | Err error =>
            let '(_, a) := restore_recovery_admission_if_unchanged old_generation old_target
                             old_admission a in
            (Some (failure_of_text error), a)
        end
    end.

(** The report of a recovery that failed.
    src/src/app.rs:1931-1939 (spawn_recovery_snapshot) *)
Definition report_failure (f : bytes → RecoveryFailureReason → Z → RecoveryInner →
                               option RecoveryJob * RecoveryInner)
    (id : bytes) (reason : RecoveryFailureReason) (now : Z) (a : AppState) : AppState :=
  let a := with_metrics (recovery_failed (str (failure_name reason))) a in
  with_recovery (f id reason now (recovery a)).2 a.

(** The task of an accepted recovery.  src/src/app.rs:1905-1989 (spawn_recovery_snapshot) *)
Definition recovery_task (c : Circumstances) (id : bytes) (a : AppState) : AppState :=
  if negb (uuid_parses id) then
    release_recovery_owner
      (with_recovery (mark_snapshot_failed id RecoveryFailureReason.SnapshotWrite (finished_at c)
                        (recovery a)).2 a)
  else if snapshot_captured c && snapshot_written c then
    let path := str "recovery/snapshots/" ++ id ++ str "/snapshot.json" in
    let a := with_recovery (mark_snapshot_succeeded id path (recovery a)).2 a in
    let '(failed, a) := run_recovery_lifecycle c id a in
    match failed with
    | None => a
    | Some reason => report_failure (fun id reason now => mark_failed id now reason) id reason (finished_at c) a
    end
  else release_recovery_owner
         (report_failure mark_snapshot_failed id RecoveryFailureReason.SnapshotWrite (finished_at c) a).

(** The started job, and the task it leaves behind.  The log of a failure is all there is to
    [observe_recovery_failed] and [observe_recovery_completed].
    src/src/app.rs:2210-2266 (begin_recovery) *)
Definition begin_recovery (uuid : bytes) (now : Z) (request : RecoveryRequest) (a : AppState)
    : RecoveryStart * AppState * option bytes :=
  let '(started, s) := begin_at uuid (recovery_gate a) request now (recovery a) in
  let a := with_recovery s a in
  match started with
  | RecoveryStart.Created job =>
      let id := recovery_id job in
      let a := with_metrics (recovery_started (str (trigger_name (job_trigger job)))) a in
      let a := notify_recovery_started id (cluster_generation job) a in
      let '(claimed, a) := if has_production a then try_claim_recovery_owner a else (true, a) in
      if claimed then (started, a, Some id)
      else
        let a := with_recovery (mark_failed id now RecoveryFailureReason.RecoveryOwnerBusy (recovery a)).2 a in
        let a := with_metrics (recovery_failed (str (failure_name RecoveryFailureReason.RecoveryOwnerBusy))) a in
        (RecoveryStart.Existing (default job (Recovery.status (recovery a) id)), a, None)
  | RecoveryStart.Suppressed job =>
      let reason := from_option failure_name "suppressed" (failure_reason job) in
      (started, with_metrics (recovery_suppressed (str reason)) a, None)
  | RecoveryStart.Existing _ => (started, a, None)
  end.

(** ** Who asks for a recovery *)

(** The answer to a request: the status, and a text or the job. *)
Inductive Reply :=
| ReplyError (code : Z) (error : bytes)
| ReplyJob (code : Z) (job : RecoveryJob)
| ReplyNotFound (code : Z) (reason : RecoveryFailureReason).

(** The controller, if the admin interface runs, says whether the header authorizes.
    src/src/app.rs:2911-2931 (authorized_admin) *)
Definition authorized_admin (admin : option bool) : option Reply :=
  match admin with
  | None => Some (ReplyError 503 (str "admin lifecycle unavailable"))
  | Some false => Some (ReplyError 401 (str "unauthorized"))
  | Some true => None
  end.

(** The three fields of the decoded body, or the error of serde.
    src/src/app.rs:1859-1873 (parse_recovery_request) *)
Definition parse_recovery_request (body : result (bytes * bytes * bytes) bytes)
    : result RecoveryRequest bytes :=
  (let? '(reason, trigger, key) := body in
   let? reason := if bool_decide (reason = str "throughput-degraded") then Ok ThroughputDegraded
                  else Err (str "reason must be throughput-degraded") in
   let? trigger :=
     if bool_decide (trigger = str "manual-canary-failure") then Ok RecoveryTrigger.ManualCanaryFailure
     else if bool_decide (trigger = str "progress-stall") then Ok RecoveryTrigger.ProgressStall
     else if bool_decide (trigger = str "low-decode-tps") then Ok RecoveryTrigger.LowDecodeTps
     else if bool_decide (trigger = str "first-token-timeout") then Ok RecoveryTrigger.FirstTokenTimeout
     else Err (str "trigger is not supported") in
   match request_new reason trigger key with
   | Some request => Ok request
   | None => Err (if bool_decide (key = []) || (RECOVERY_IDEMPOTENCY_KEY_MAX_BYTES <? length key)
                  then str "idempotency_key must be between 1 and 128 bytes"
                  else str "idempotency_key must not contain control characters")
   end)%rust.

(** src/src/app.rs:2286-2292 (recovery_job) *)
Definition recovery_job (start : RecoveryStart) : RecoveryJob :=
  match start with
  | RecoveryStart.Created job | RecoveryStart.Existing job | RecoveryStart.Suppressed job => job
  end.

(** src/src/app.rs:1803-1831 (recover_degraded) *)
Definition recover_degraded (admin : option bool) (body : result (bytes * bytes * bytes) bytes)
    (uuid : bytes) (now : Z) (a : AppState) : Reply * AppState * option bytes :=
  match authorized_admin admin with
  | Some refused => (refused, a, None)
  | None =>
      match parse_recovery_request body with
      | Err error => (ReplyError 400 (str "invalid recovery request: " ++ error), a, None)
      | Ok request =>
          let '(started, a, task) := begin_recovery uuid now request a in
          let status := match started with
                        | RecoveryStart.Suppressed _ => 409
                        | RecoveryStart.Existing job =>
                            if bool_decide (failure_reason job = Some RecoveryFailureReason.RecoveryOwnerBusy)
                            then 409 else 202
                        | RecoveryStart.Created _ => 202
                        end in
          (ReplyJob status (recovery_job started), a, task)
      end
  end.

(** src/src/app.rs:1833-1857 (recover_degraded_status) *)
Definition recover_degraded_status (admin : option bool) (recovery_id : bytes) (a : AppState) : Reply :=
  match authorized_admin admin with
  | Some refused => refused
  | None =>
      if negb (uuid_parses recovery_id) then ReplyError 400 (str "recovery_id must be a UUID")
      else match Recovery.status (recovery a) recovery_id with
           | Some job => ReplyJob 200 job
           | None => ReplyNotFound 404 RecoveryFailureReason.UnknownRecoveryId
           end
  end.

(** src/src/app.rs:1875-1877 (duration_millis) *)
Definition duration_millis (nanos : Z) : Z := Z.min (nanos / 1000000) u64_max.

(** Seconds kept as nanoseconds, never negative or infinite.
    src/src/app.rs:1296-1301 (seconds_to_millis) *)
Definition seconds_to_millis (nanos : Z) : option Z :=
  if nanos / 1000000 <=? u64_max then Some (nanos / 1000000) else None.

Definition f64_of (x : double) : f64 :=
  match x with
  | Config.NotANumber => NotANumber
  | Config.Infinity negative => Infinite negative
  | Config.Finite q => Finite q
  end.

(** src/src/app.rs:1879-1886 (recovery_detector_policy) *)
Definition recovery_detector_policy : RecoveryDetectorPolicy :=
  mkDetectorPolicy (f64_of (rc_low_decode_tps config)) (duration_millis (rc_low_decode_duration config))
    (duration_millis (rc_progress_stall config)) (duration_millis (rc_canary_deadline config)).

(** What the detector is shown of the metrics.
    src/src/app.rs:1249-1268 (spawn_recovery_detector) *)
Definition observation (now : Z) (m : Metrics) : RecoveryObservation :=
  let snapshot := diagnostic_snapshot now m in
  if d_generation_in_flight snapshot =? 0 then Idle
  else
    let generation := d_generation snapshot in
    Active (s_progress_observed generation)
      (default 0 (a ← generation_active_age now m; seconds_to_millis a))
      (a ← s_age generation; seconds_to_millis a)
      (if s_progress_observed generation then Some (f64_of (s_chunk_tps generation)) else None).

(** One tick; [clock] is the time since the detector was started.
    src/src/app.rs:1247-1299 (spawn_recovery_detector) *)
Definition detector_tick (clock metrics_now now : Z) (key uuid : bytes) (d : RecoveryDetector) (a : AppState)
    : RecoveryDetector * AppState * option bytes :=
  let '(trigger, d) := observe_at (duration_millis clock) (observation metrics_now (app_metrics a)) d in
  match trigger with
  | None => (d, a, None)
  | Some trigger =>
      match request_new ThroughputDegraded trigger (str "automatic-" ++ key) with
      | None => (d, a, None)
      | Some request =>
          let '(_, a, task) := begin_recovery uuid now request a in (d, a, task)
      end
  end.

(** ** The system *)

(** The application, its detector, and the tasks that have not run yet. *)
Record System := mkSystem {
  app : AppState;
  detector : RecoveryDetector;
  tasks : list bytes;
}.

Inductive Happening :=
| Asked (admin : option bool) (body : result (bytes * bytes * bytes) bytes) (uuid : bytes) (now : Z)
| Ticked (clock metrics_now now : Z) (key uuid : bytes)
| Recovered (c : Circumstances)
| Managed (policy : PolicyState) (op : Op)
| Served (f : Metrics → Metrics).

(** The requests that are refused while a recovery owns the node; what the node does on its own,
    such as the recovery from a lost peer, is not.
    src/src/cluster/production/pairing.rs:119-122 (promote) *)
Definition refused_by_owner (op : Op) (a : AppState) : bool :=
  recovery_owner_active a && match op with OpPromote true _ _ _ | OpDemote _ => true | _ => false end.

(** A planned restart that succeeds ends the process; traffic changes the metrics. *)
Definition happens (h : Happening) (s : System) : option System :=
  match h with
  | Asked admin body uuid now =>
      let '(_, a, task) := recover_degraded admin body uuid now (app s) in
      Some (mkSystem a (detector s) (tasks s ++ option_list task))
  | Ticked clock metrics_now now key uuid =>
      let '(d, a, task) := detector_tick clock metrics_now now key uuid (detector s) (app s) in
      Some (mkSystem a d (tasks s ++ option_list task))
  | Recovered c =>
      match tasks s with
      | id :: rest => Some (mkSystem (recovery_task c id (app s)) (detector s) rest)
      | [] => None
      end
  | Managed policy op =>
      if refused_by_owner op (app s) then Some s else
      let '(ok, w) := run_op policy op (node (app s)) in
      if ok && match op with OpPlannedRestart => true | _ => false end then None
      else Some (mkSystem (with_node w (app s)) (detector s) (tasks s))
  | Served f => Some (mkSystem (with_metrics f (app s)) (detector s) (tasks s))
  end.

Definition reached (hs : list Happening) (s : System) : option System :=
  foldl (fun o h => s ← o; happens h s) (Some s) hs.

(** A coordinator that has spawned its node, with an empty service. *)
Definition app_spawned (w : World) (has_production : bool) (p : RecoveryPolicy)
    (n : option DesktopNotificationService) : AppState :=
  mkApp w true has_production (with_policy p) false None metrics_default n 0.

End Lifecycle.

(** ** The node after a promotion *)

Section NodeReady.
Context {env : Environment}.

(** A node in distributed operation whose proxy has a target. *)
Definition ready (w : World) : Prop :=
  good w ∧ ClusterFsm.state (cluster w) = ClusterState.DistributedReady ∧ proxy_target w = local_route.

Lemma ready_live w : ready w → Node.live Distributed (calls w) = true.
Proof. intros (Hg & Hst & Ht). pose proof (good_routed _ Hg Ht) as H. by rewrite Hst in H. Qed.

Lemma promote_inner_ready promoting resume w :
  good w → ClusterFsm.state (cluster w) = ClusterState.Promoting →
  wp (promote_inner promoting resume) (fun s w' => ready w' ∧ s = cluster w') (fun _ _ => True) w.
Proof.
  intros Hg Hst. open_good Hg Hst. unfold promote_inner. wp_run; try done.
  all: split; [|done].
  all: split; [good_leaf|]; split; [done|].
  all: unfold local_route; simpl; by rewrite sane_target by (try done; known; set_solver).
Qed.

Lemma promote_ready prerequisites now resume w :
  good w →
  wp (promote_validated_with_admission prerequisites now resume)
    (fun s w' => ready w' ∧ s = cluster w') (fun _ _ => True) w.
Proof.
  intros Hg. unfold promote_validated_with_admission.
  destruct (ClusterFsm.state (cluster w)) eqn:Hst; open_good Hg Hst; wp_run; try done.
  eapply wp_mono.
  { apply promote_inner_ready; [good_leaf|done]. }
  - intros s' w' [[Hg' Hr] ->]. simpl. wp_run. split; [|done]. split; [|done]. destruct Hg'. by constructor.
  - intros e w' _. simpl. apply wp_then_fail.
Qed.

Lemma promote_internal_ready policy resume hello pre now w :
  good w →
  wp (promote_internal policy resume hello pre now) (fun s w' => ready w' ∧ s = cluster w')
    (fun _ _ => True) w.
Proof.
  intros Hg. unfold promote_internal.
  destruct (ClusterFsm.state (cluster w)) eqn:Hst; open_good Hg Hst; wp_run; try done.
  - eapply wp_mono; [by apply promote_ready; good_leaf| |done].
    intros s' w' [[Hg' Hrd] ->]. simpl. wp_run; [|done]. split; [|done]. split; [by apply good_call|done].
  - match goal with |- wp ?m _ _ ?w => unfold wp; by destruct (m w) as [[] ?] end.
Qed.

End NodeReady.

(** ** A recovery keeps what it found *)

Section Proofs.
Context {env : Environment} {lawful : LawfulEnvironment env} {serde : Json.Serde}
  {around : Surroundings} (config : RecoveryConfig).

Definition active_id (s : RecoveryInner) : option bytes := recovery_id <$> active s.

(** Between two steps of a recovery: the job is active, and all that the steps do not own is as
    it was. *)
Record running (id : bytes) (a0 a : AppState) : Prop := {
  run_good : good (node a);
  run_active : active_id (recovery a) = Some id;
  run_history : history (recovery a) = history (recovery a0);
  run_policy : service_policy (recovery a) = service_policy (recovery a0);
  run_owner : recovery_owner_active a = recovery_owner_active a0;
  run_production : has_production a = has_production a0;
}.

Lemma update_active_running id f s r s' :
  (∀ j, recovery_id (f j) = recovery_id j) →
  update_active id f s = (r, s') → active_id s = Some id →
  active_id s' = Some id ∧ history s' = history s ∧ service_policy s' = service_policy s.
Proof.
  unfold update_active, active_id. intros Hf. destruct (active s) as [j|] eqn:E; [|done].
  destruct (decide (recovery_id j = id)) as [Hi|Hi].
  - rewrite bool_decide_eq_true_2 by done. cbn. intros [= <- <-] _. cbn. by rewrite Hf, Hi.
  - rewrite bool_decide_eq_false_2 by done. cbn. intros [= <- <-]. by rewrite E.
Qed.

Lemma wp_mark_running id f e a0 a (Q : unit → AppState → Prop) X :
  (∀ j, recovery_id (f j) = recovery_id j) →
  running id a0 a →
  (∀ a', running id a0 a' → node a' = node a → Q tt a') →
  wp (mark (update_active id f) e) Q X a.
Proof.
  intros Hf [Hg Ha Hh Hp Ho Hpr] HQ. unfold wp, mark.
  destruct (update_active id f (recovery a)) as [r s] eqn:E.
  destruct (update_active_running _ _ _ _ _ Hf E Ha) as (H1 & H2 & H3).
  destruct r; cycle 1.
  { exfalso. unfold update_active, active_id in *. destruct (active (recovery a)); [|done].
    cbn in Ha. injection Ha as Ha. rewrite bool_decide_eq_true_2 in E by done. done. }
  apply HQ; [|done]. split; cbn; congruence.
Qed.

Lemma wp_mark_phase id p adm e a0 a (Q : unit → AppState → Prop) X :
  running id a0 a → (∀ a', running id a0 a' → node a' = node a → Q tt a') →
  wp (mark (mark_phase id p adm) e) Q X a.
Proof. by apply wp_mark_running. Qed.

Lemma wp_mark_canary id r e a0 a (Q : unit → AppState → Prop) X :
  running id a0 a → (∀ a', running id a0 a' → node a' = node a → Q tt a') →
  wp (mark (mark_post_recovery_canary id r) e) Q X a.
Proof. by apply wp_mark_running. Qed.

Lemma running_node id a0 a w : running id a0 a → good w → running id a0 (with_node w a).
Proof. intros [] Hw. by split. Qed.

Lemma wp_demote_running id a0 a (Q : ClusterSnapshot → AppState → Prop) :
  running id a0 a →
  (∀ s a', running id a0 a' → Q s a') →
  wp demote_for_recovery Q (fun _ => running id a0) a.
Proof.
  intros Hr HQ. unfold demote_for_recovery.
  apply wp_bind, wp_self, wp_bind, wp_require; intros _; [|done].
  apply wp_on_field, wp_map_error.
  eapply wp_mono; [apply (demote_good false), Hr|..]; intros; [apply HQ|]; by apply running_node.
Qed.

Lemma wp_promote_running c id a0 a (Q : ClusterSnapshot → AppState → Prop) :
  running id a0 a →
  (∀ a', running id a0 a' → ready (node a') → Q (cluster (node a')) a') →
  wp (promote_for_recovery c) Q (fun _ => running id a0) a.
Proof.
  intros Hr HQ. unfold promote_for_recovery, on_node, wp.
  pose proof (promote_internal_good (policy c) false (hello c) (prerequisites c) (promoted_at c)
    (node a) (run_good _ _ _ Hr)) as H1.
  pose proof (promote_internal_ready (policy c) false (hello c) (prerequisites c) (promoted_at c)
    (node a) (run_good _ _ _ Hr)) as H2.
  unfold wp in H1, H2. destruct (promote_internal _ _ _ _ _ _) as [[s|e] w]; cbn.
  - destruct H2 as [H2 ->]. apply (HQ (with_node w a)); [by apply running_node|done].
  - by apply running_node.
Qed.

Lemma wp_canary c id a0 a (Q : unit → AppState → Prop) :
  running id a0 a →
  (∀ a', running id a0 a' → node a' = node a →
     Canary.reason (execute_with_permit (canary_policy config) (canary_started c) (canary_answer c)).1
       = CanaryReason.Healthy → Q tt a') →
  wp (run_canary config c id) Q (fun _ => running id a0) a.
Proof.
  intros Hr HQ. unfold run_canary. apply wp_bind, wp_modify, wp_bind.
  assert (∀ p, running id a0 (with_permit p a)) as Hp by (intros p; destruct Hr; by split).
  destruct (canary_error _ _); [by apply wp_fail|]. apply wp_ret, wp_bind, wp_modify, wp_bind.
  eapply wp_mark_canary.
  - destruct (permit_used c); apply Hp.
  - intros a' Hr' Hn. apply wp_require; [|done].
    intros Hh%bool_decide_eq_true. apply HQ; [done| |done]. rewrite Hn. by destruct (permit_used c).
Qed.

(** The end of a job: nothing is active, and the history ends with its report. *)
Record finished (id : bytes) (a0 a : AppState) (job : RecoveryJob) : Prop := {
  fin_active : active (recovery a) = None;
  fin_last : last (history (recovery a)) = Some job;
  fin_id : recovery_id job = id;
  fin_policy : service_policy (recovery a) = service_policy (recovery a0);
  fin_production : has_production a = has_production a0;
}.

(** What a recovery that succeeded leaves: a node in distributed operation, newer than the one
    that it found, with replaced children and a healthy canary, that serves unless the process
    shuts down. *)
Record recovered (c : Circumstances) (old_generation : Z) (a : AppState) : Prop := {
  rd_ready : ready (node a);
  rd_live : Node.live Distributed (calls (node a)) = true;
  rd_serving : closed (gate (node a)) = false → serving (node a);
  rd_newer : old_generation < ClusterFsm.generation (cluster (node a));
  rd_replaced : recovery_children_replaced (diagnostics_before c) (diagnostics_after c) = true;
  rd_healthy : Canary.reason (execute_with_permit (canary_policy config) (canary_started c)
                                (canary_answer c)).1 = CanaryReason.Healthy;
}.

Lemma last_push s j :
  1 ≤ history_limit (service_policy s) → last (history (push_history s j)) = Some j.
Proof.
  intros Hl. unfold push_history. cbn. rewrite length_app, drop_app_le by (cbn; lia). apply last_snoc.
Qed.

Lemma finish_active_spec id f s :
  active_id s = Some id → 1 ≤ history_limit (service_policy s) → (∀ j, recovery_id (f j) = recovery_id j) →
  ∃ j s', finish_active id f s = (Some (f j), s') ∧ active s = Some j ∧ recovery_id j = id
    ∧ active s' = None ∧ last (history s') = Some (f j) ∧ service_policy s' = service_policy s.
Proof.
  unfold active_id, finish_active. intros Ha Hl Hf. destruct (active s) as [j|]; [|done].
  cbn in Ha. injection Ha as Ha. exists j. rewrite bool_decide_eq_true_2 by done. cbn [negb].
  eexists. split; [done|]. do 3 (split; [done|]). split; [by apply last_push|done].
Qed.

Lemma good_serve w : good w → proxy_target w = local_route → good (with_gate start_serving w).
Proof. intros [] Ht. by split. Qed.

Lemma serve_open w : closed (gate (with_gate start_serving w)) = false → serving (with_gate start_serving w).
Proof. unfold serving, start_serving. cbn. destruct (closed (gate w)) eqn:E; cbn; congruence. Qed.

Lemma status_last s j : active s = None → last (history s) = Some j → Recovery.status s (recovery_id j) = Some j.
Proof.
  unfold Recovery.status. intros -> Hl. apply last_Some in Hl as [h ->].
  unfold find_last. rewrite reverse_snoc. cbn. by rewrite bool_decide_eq_true_2.
Qed.

Lemma wp_mark_succeeded id now g e a0 a (Q : unit → AppState → Prop) X :
  running id a0 a → 1 ≤ history_limit (service_policy (recovery a0)) →
  (∀ s' job, (∀ a', recovery a' = s' → has_production a' = has_production a0 → finished id a0 a' job) →
     job_state job = RecoveryState.Succeeded → new_cluster_generation job = Some g →
     Q tt (with_recovery s' a)) →
  wp (mark (mark_succeeded id now g) e) Q X a.
Proof.
  intros Hr Hl HQ. unfold wp, mark, mark_succeeded, mark_terminal.
  match goal with |- context [finish_active id ?f _] =>
    destruct (finish_active_spec id f (recovery a)) as (j & s' & E & Hj & Hid & H1 & H2 & H3);
      [apply Hr|by rewrite (run_policy _ _ _ Hr)|done|] end.
  rewrite E. match type of E with _ = (Some ?job, _) => apply (HQ s' job) end; [|done|done].
  intros a' Ha' Hp.
  split; rewrite ?Ha'; try done. by rewrite H3, (run_policy _ _ _ Hr).
Qed.

(** The whole lifecycle: success, or the job still to be reported. *)
Lemma wp_body c id old a :
  good (node a) → active_id (recovery a) = Some id → 1 ≤ history_limit (service_policy (recovery a)) →
  wp (recovery_body config c id old)
    (fun _ a' => recovered c old a' ∧ recovery_owner_active a' = recovery_owner_active a
       ∧ ∃ job, finished id a a' job ∧ job_state job = RecoveryState.Succeeded
           ∧ new_cluster_generation job = Some (ClusterFsm.generation (cluster (node a'))))
    (fun _ a' => running id a a') a.
Proof.
  intros Hg Ha Hl. unfold recovery_body.
  assert (running id a a) as Hr by done.
  do 3 (apply wp_bind; eapply wp_mark_phase; [exact Hr|]; clear Hr; intros ? Hr _).
  apply wp_bind. eapply wp_demote_running; [exact Hr|]. clear Hr. intros _ ? Hr.
  do 2 (apply wp_bind; eapply wp_mark_phase; [exact Hr|]; clear Hr; intros ? Hr _).
  apply wp_bind. eapply wp_promote_running; [exact Hr|]. clear Hr. intros a1 Hr Hready.
  apply wp_bind, wp_require; [intros Hnew%Z.ltb_lt|done].
  apply wp_bind, wp_require; [intros Hrep|done].
  apply wp_bind; eapply wp_mark_phase; [exact Hr|]; clear Hr; intros a2 Hr Hn2.
  apply wp_bind. eapply wp_canary; [exact Hr|]. clear Hr. intros a3 Hr Hn3 Hh.
  apply wp_bind, wp_modify.
  assert (node a3 = node a1) as Hn by congruence. destruct Hready as (Hg1 & Hst & Ht).
  set (w := with_gate start_serving (node a3)).
  assert (ready w) as Hw.
  { unfold w. rewrite Hn. split; [by apply good_serve|done]. }
  assert (running id a (with_node w a3)) as Hr' by (by apply running_node, Hw). clear Hr.
  apply wp_bind; eapply wp_mark_phase; [exact Hr'|]; clear Hr'; intros a4 Hr Hn4. cbn in Hn4.
  apply wp_bind. eapply wp_mark_succeeded; [exact Hr|done|]. intros s' job Hf Hs Hgen.
  apply wp_bind, wp_modify, wp_modify.
  match goal with |- recovered _ _ ?a' ∧ _ =>
    assert (node a' = w ∧ recovery a' = s' ∧ has_production a' = has_production a
            ∧ recovery_owner_active a' = recovery_owner_active a) as (Hw' & Hs' & Hp & Ho) end.
  { unfold start_route_loss_monitor. destruct Hr. by destruct (rc_auto_demote config). }
  split; [|split; [done|]].
  - split; rewrite ?Hw'; try done; [by apply ready_live|apply serve_open|]. unfold w. by rewrite Hn.
  - exists job. split; [by apply Hf|]. rewrite Hw', Hgen. unfold w. by rewrite Hn.
Qed.

(** A failure that left generation and target as they were leaves the node serving. *)
Definition kept_service (old : Z) (a a' : AppState) : Prop :=
  has_cluster a' = true → ClusterFsm.generation (cluster (node a')) = old →
  proxy_target (node a') = proxy_target (node a) → serving (node a) →
  closed (gate (node a')) = false → serving (node a').

Lemma node_release a : node (release_recovery_owner a) = node a.
Proof. unfold release_recovery_owner. by destruct (has_production a). Qed.

Lemma recovery_release a : recovery (release_recovery_owner a) = recovery a.
Proof. unfold release_recovery_owner. by destruct (has_production a). Qed.

Lemma production_release a : has_production (release_recovery_owner a) = has_production a.
Proof. unfold release_recovery_owner. by destruct (has_production a) eqn:E; cbn; rewrite ?E. Qed.

Lemma running_release id a0 a :
  running id a0 a → running id (release_recovery_owner a0) (release_recovery_owner a).
Proof.
  intros [Hg Ha Hh Hp Ho Hpr]. unfold release_recovery_owner. rewrite Hpr.
  destruct (has_production a0) eqn:E; split; cbn; congruence.
Qed.

Lemma restore_running id old a0 a :
  running id a0 a → good (node a0) →
  running id a0 (restore_recovery_admission_if_unchanged old (proxy_target (node a0))
                   (Admission.state (gate (node a0))) a).2
  ∧ kept_service old a0 (restore_recovery_admission_if_unchanged old (proxy_target (node a0))
                           (Admission.state (gate (node a0))) a).2.
Proof.
  intros Hr Hg. unfold restore_recovery_admission_if_unchanged, kept_service, cluster_snapshot, serving.
  destruct (has_cluster a) eqn:Hc; cbn [is_some_and andb].
  2: { split; [done|]. cbn. congruence. }
  destruct (_ && _) eqn:E; cbn [snd].
  - rewrite !andb_true_iff, !bool_decide_eq_true in E. destruct E as [[_ Ht] Hs].
    split; [|intros _ _ _ _; apply (serve_open (node a))].
    apply running_node; [done|]. apply good_serve; [apply Hr|]. rewrite Ht. by apply (good_serving _ Hg).
  - split; [done|]. intros _ Hgen Ht Hs. rewrite Ht, Hs, Hgen, Z.eqb_refl, !bool_decide_eq_true_2 in E by done.
    done.
Qed.

(** The lifecycle of an active job. *)
Lemma lifecycle_spec c id a :
  good (node a) → active_id (recovery a) = Some id → 1 ≤ history_limit (service_policy (recovery a)) →
  ∃ old, (∀ j, active (recovery a) = Some j → old = cluster_generation j) ∧
  match run_recovery_lifecycle config c id a with
  | (None, a') =>
      recovered c old a' ∧ recovery_owner_active a' = recovery_owner_active (release_recovery_owner a)
      ∧ ∃ job, finished id a a' job ∧ job_state job = RecoveryState.Succeeded
          ∧ new_cluster_generation job = Some (ClusterFsm.generation (cluster (node a')))
  | (Some _, a') => running id (release_recovery_owner a) a' ∧ kept_service old a a'
  end.
Proof.
  intros Hg Ha Hl. unfold run_recovery_lifecycle, active_id in *.
  destruct (active (recovery a)) as [j|] eqn:Ej; [|done]. cbn in Ha. injection Ha as Ha.
  exists (cluster_generation j). split; [by intros ? [= ->]|].
  destruct (has_production a) eqn:Hp; cbn [negb].
  2: { split; [|by intros ????]. unfold release_recovery_owner. rewrite Hp. split; try done.
       unfold active_id. by rewrite Ej, <- Ha. }
  unfold Recovery.status. rewrite Ej, bool_decide_eq_true_2 by done. cbn [fmap option_fmap option_map].
  pose proof (wp_body c id (cluster_generation j) a Hg ltac:(unfold active_id; by rewrite Ej, <- Ha) Hl) as H.
  unfold wp in H. destruct (recovery_body _ _ _ _ _) as [[[]|e] a'].
  - destruct H as ([] & Ho & job & [] & Hs). unfold release_recovery_owner in *. rewrite Hp.
    replace (has_production a') with true by congruence.
    split; [by split|]. split; [done|]. exists job. split; [by split|done].
  - apply running_release in H.
    pose proof (restore_running id (cluster_generation j) _ _ H) as Hre.
    unfold kept_service in Hre. rewrite node_release in Hre. specialize (Hre Hg).
    by destruct (restore_recovery_admission_if_unchanged _ _ _ _) as [b a''].
Qed.

(** The report of a failed job. *)
Definition reports (reason : RecoveryFailureReason) (id : bytes) (s s' : RecoveryInner) : Prop :=
  active s' = None ∧ service_policy s' = service_policy s
  ∧ ∃ job, last (history s') = Some job ∧ recovery_id job = id ∧ job_state job = RecoveryState.Failed
      ∧ failure_reason job = Some reason.

Lemma mark_failed_reports id reason now s :
  active_id s = Some id → 1 ≤ history_limit (service_policy s) →
  reports reason id s (mark_failed id now reason s).2.
Proof.
  intros Ha Hl. unfold mark_failed, mark_terminal.
  match goal with |- context [finish_active id ?f _] =>
    destruct (finish_active_spec id f s Ha Hl ltac:(done)) as (j & s' & -> & _ & Hid & H1 & H2 & H3) end.
  split; [done|]. split; [done|]. by eexists.
Qed.

Lemma mark_snapshot_failed_reports id now s :
  active_id s = Some id → 1 ≤ history_limit (service_policy s) →
  reports RecoveryFailureReason.SnapshotWrite id s
    (mark_snapshot_failed id RecoveryFailureReason.SnapshotWrite now s).2.
Proof.
  intros Ha Hl. unfold mark_snapshot_failed.
  match goal with |- context [finish_active id ?f _] =>
    destruct (finish_active_spec id f s Ha Hl ltac:(done)) as (j & s' & -> & _ & Hid & H1 & H2 & H3) end.
  split; [done|]. split; [done|]. by eexists.
Qed.

(** What the task of a job leaves behind. *)
Record task_done (c : Circumstances) (id : bytes) (a a' : AppState) : Prop := {
  td_good : good (node a');
  td_active : active (recovery a') = None;
  td_owner : recovery_owner_active a' = false;
  td_policy : service_policy (recovery a') = service_policy (recovery a);
  td_production : has_production a' = has_production a;
  td_report : ∃ job, last (history (recovery a')) = Some job ∧ recovery_id job = id
    ∧ ((job_state job = RecoveryState.Succeeded
         ∧ new_cluster_generation job = Some (ClusterFsm.generation (cluster (node a')))
         ∧ ∃ j, active (recovery a) = Some j ∧ recovered c (cluster_generation j) a')
       ∨ job_state job = RecoveryState.Failed ∧ is_Some (failure_reason job));
}.

Lemma task_reported c id reason a a1 a' :
  reports reason id (recovery a1) (recovery a') →
  service_policy (recovery a1) = service_policy (recovery a) →
  good (node a') → recovery_owner_active a' = false → has_production a' = has_production a →
  task_done c id a a'.
Proof.
  intros (H1 & H2 & job & H3 & H4 & H5 & H6) Hp Hg Ho Hpr.
  split; try done; [congruence|]. exists job. split; [done|]. split; [done|]. right. by rewrite H6.
Qed.

Lemma owner_released a : recovery_owner_active a = has_production a →
  recovery_owner_active (release_recovery_owner a) = false.
Proof. unfold release_recovery_owner. destruct (has_production a) eqn:E; cbn; congruence. Qed.

Lemma task_spec c id a :
  good (node a) → active_id (recovery a) = Some id → 1 ≤ history_limit (service_policy (recovery a)) →
  recovery_owner_active a = has_production a →
  task_done c id a (recovery_task config c id a).
Proof.
  intros Hg Ha Hl Ho. unfold recovery_task, report_failure.
  destruct (uuid_parses id); cbn [negb]; [destruct (snapshot_captured c && snapshot_written c)|].
  2, 3: by eapply (task_reported c id _ a a);
    [rewrite recovery_release; by apply mark_snapshot_failed_reports|done|by rewrite node_release
    |by apply owner_released|rewrite production_release].
  set (path := str _ ++ _). clearbody path.
  destruct (mark_snapshot_succeeded id path (recovery a)) as [r s] eqn:E.
  pose proof E as E'. eapply update_active_running in E' as (H1 & _ & H3); [|done|done].
  cbn [snd]. set (a1 := with_recovery s a).
  destruct (lifecycle_spec c id a1) as (old & Hold & H); [done|done|cbn; by rewrite H3|].
  destruct (run_recovery_lifecycle config c id a1) as [[reason|] a2].
  - destruct H as [Hr _].
    eapply (task_reported c id reason a (with_metrics _ a2)).
    + apply mark_failed_reports; [apply Hr|]. cbn. rewrite (run_policy _ _ _ Hr), recovery_release. cbn. by rewrite H3.
    + cbn. rewrite (run_policy _ _ _ Hr), recovery_release. done.
    + apply Hr.
    + cbn. rewrite (run_owner _ _ _ Hr). by apply owner_released.
    + cbn. by rewrite (run_production _ _ _ Hr), production_release.
  - destruct H as (Hrec & Ho2 & job & [F1 F2 F3 F4 F5] & Hs & Hgen).
    split; try done; [apply Hrec|by rewrite Ho2; apply owner_released|by rewrite F4|].
    exists job. split; [done|]. split; [done|]. left. split; [done|]. split; [done|].
    unfold mark_snapshot_succeeded, update_active, active_id in *.
    destruct (active (recovery a)) as [j|]; [|done]. cbn in Ha. injection Ha as Ha.
    rewrite bool_decide_eq_true_2 in E by done. injection E as <- <-. cbn in Hold.
    exists j. split; [done|]. specialize (Hold _ eq_refl). cbn in Hold. by subst old.
Qed.

(** ** The system *)

(** One task for the active job, none else; the owner flag is up exactly meanwhile. *)
Record system_ok (s : System) : Prop := {
  ok_good : good (node (app s));
  ok_tasks : tasks s = option_list (active_id (recovery (app s)));
  ok_owner : recovery_owner_active (app s) = has_production (app s) && bool_decide (tasks s ≠ []);
  ok_limit : 1 ≤ history_limit (service_policy (recovery (app s)));
}.

Lemma begin_at_spec uuid g r now s st s' :
  begin_at uuid g r now s = (st, s') →
  service_policy s' = service_policy s ∧
  match st with
  | RecoveryStart.Created job => active s = None ∧ active s' = Some job
  | _ => active s' = active s
  end.
Proof.
  unfold begin_at, suppress. destruct (active s) as [j|] eqn:Ej; [by intros [= <- <-]; rewrite Ej|].
  destruct (find_last _ _); [by intros [= <- <-]; rewrite Ej|].
  repeat case_match; intros; simplify_eq; cbn; by rewrite ?Ej.
Qed.

(** A request leaves a task exactly when it makes a job active. *)
Lemma begin_ok uuid now request a d ts :
  system_ok (mkSystem a d ts) →
  let '(_, a', task) := begin_recovery uuid now request a in
  ∀ d', system_ok (mkSystem a' d' (ts ++ option_list task)).
Proof.
  intros [Hg Ht Ho Hl]. cbn [app tasks] in *. unfold begin_recovery.
  destruct (begin_at uuid (recovery_gate a) request now (recovery a)) as [st s'] eqn:E.
  apply begin_at_spec in E as [Hp E]. destruct st as [job|job|job].
  - destruct E as [E1 E2]. unfold active_id in Ht. rewrite E1 in Ht. cbn in Ht. subst ts.
    cbn [bool_decide] in Ho. rewrite andb_false_r in Ho.
    set (a1 := notify_recovery_started _ _ _).
    assert (recovery_owner_active a1 = false) as Ho1 by done.
    assert (recovery a1 = s') as Hs1 by done. assert (node a1 = node a) as Hn1 by done.
    assert (has_production a1 = has_production a) as Hp1 by done. clearbody a1.
    unfold try_claim_recovery_owner. rewrite Ho1.
    destruct (has_production a1) eqn:Hpr; intros d';
      (split; cbn [app tasks node recovery recovery_owner_active has_production with_owner option_list "++"];
       [by rewrite Hn1|by unfold active_id; rewrite Hs1, E2| |by rewrite Hs1, Hp]); by rewrite ?Ho1, ?Hpr.
  - intros d'. rewrite app_nil_r. split; cbn; [done|by unfold active_id; rewrite E|done|by rewrite Hp].
  - intros d'. rewrite app_nil_r. split; cbn; [done|by unfold active_id; rewrite E|done|by rewrite Hp].
Qed.

Lemma happens_ok h s s' : system_ok s → happens config h s = Some s' → system_ok s'.
Proof.
  intros Hok. destruct h as [admin body uuid now|clock mnow now key uuid|c|policy op|f]; cbn [happens].
  - unfold recover_degraded. destruct s as [a d ts]. cbn [app detector tasks].
    destruct (authorized_admin admin); [by intros [= <-]; rewrite app_nil_r|].
    destruct (parse_recovery_request body) as [request|]; [|by intros [= <-]; rewrite app_nil_r].
    pose proof (begin_ok uuid now request a d ts Hok) as H.
    destruct (begin_recovery _ _ _ _) as [[st a'] task]. by intros [= <-].
  - unfold detector_tick. destruct s as [a d ts]. cbn [app detector tasks].
    destruct (observe_at _ _ _) as [[t|] d1]; [|intros [= <-]; rewrite app_nil_r; by destruct Hok].
    destruct (request_new _ _ _) as [request|]; [|intros [= <-]; rewrite app_nil_r; by destruct Hok].
    pose proof (begin_ok uuid now request a d ts Hok) as H.
    destruct (begin_recovery _ _ _ _) as [[st a'] task]. by intros [= <-].
  - destruct Hok as [Hg Ht Ho Hl]. rewrite Ht in *. destruct (active_id _) as [id|] eqn:Ea; [|done].
    cbn [option_list] in *. rewrite bool_decide_eq_true_2, andb_true_r in Ho by done.
    intros [= <-]. destruct (task_spec c id (app s) Hg Ea Hl Ho) as [T1 T2 T3 T4 T5 _].
    split; cbn [app tasks]; [done|by unfold active_id; rewrite T2| |by rewrite T4].
    by rewrite T3, andb_false_r.
  - destruct (refused_by_owner op (app s)); [by intros [= <-]|].
    destruct (run_op policy op (node (app s))) as [ok w] eqn:E.
    destruct (ok && _) eqn:Hop; [done|]. intros [= <-]. destruct Hok as [Hg Ht Ho Hl]. split; try done.
    eapply run_op_good; [exact Hg|exact E|]. intros ->. by rewrite andb_true_r in Hop.
  - intros [= <-]. by destruct Hok.
Qed.

Lemma reached_ok hs : ∀ s s', system_ok s → reached config hs s = Some s' → system_ok s'.
Proof.
  induction hs as [|h hs IH] using rev_ind; intros s s' Hs; unfold reached; [by intros [= <-]|].
  rewrite foldl_app. cbn. change (foldl _ (Some s) hs) with (reached config hs s).
  destruct (reached config hs s) as [s1|] eqn:E; [|done]. cbn. apply happens_ok. by eapply IH.
Qed.


End Proofs.

(** ** Concrete runs *)

Module DemoRun.
#[local] Instance around : Surroundings := {|
  debug_state _ := str "State";
  debug_event _ := str "Event";
  debug_canary _ := str "Reason";
  payload _ := str "exit";
  uuid_parses id := bool_decide (id ≠ []);
|}.

Definition config : RecoveryConfig :=
  mkRecoveryConfig (secs 60) (Config.Finite 5) (secs 30) (secs 30) true.

(** The canary of [DemoCanary]; both children are new ones. *)
Definition fine : Circumstances :=
  mkCircumstances true true open_policy (Ok tt) true 5000
    (mkDiagnostics (Some (6, 100)) (Some 6)) (mkDiagnostics (Some (11, 200)) (Some 11))
    (str "token") 0 true true 0
    (mkCanaryAnswer (secs 1) (Some (200, Sse.mkUpstream DemoCanary.quick (Some 0)))) 90000.

Definition id : bytes := str "job-1".
Definition manual : result (bytes * bytes * bytes) bytes :=
  Ok (str "throughput-degraded", str "low-decode-tps", str "key-1").

(** A coordinator in distributed operation, and the request of the operator. *)
Definition asked : list Happening :=
  [Managed open_policy OpReconcilePeer; Managed open_policy promote_op;
   Asked (Some true) manual id 1000].

Definition watch : RecoveryDetector := mkDetector (recovery_detector_policy config) None false 0.
Definition start (env : Environment) : System :=
  mkSystem (app_spawned (spawned env) true policy_default None) watch [].
Definition run (env : Environment) (hs : list Happening) : option System :=
  reached (env := env) (serde := DemoCanary.serde) config hs (start env).

Definition phase_of (s : System) : option (RecoveryState * option RecoveryFailureReason) :=
  j ← Recovery.status (recovery (app s)) id; Some (job_state j, failure_reason j).
Definition view (s : System) :=
  (phase_of s, ClusterFsm.state (cluster (node (app s))), Admission.state (gate (node (app s)))).

Example recovery_succeeds :
  view <$> run willing (asked ++ [Recovered fine])
  = Some (Some (RecoveryState.Succeeded, None), ClusterState.DistributedReady, AdmissionState.Serving).
Proof. by vm_compute. Qed.

(** The call at hand was answered before. *)
Definition again (c : Call) (t : trace) : bool :=
  existsb (fun x => match c, x.1 with
                    | WaitReady, WaitReady | WaitForZero _, WaitForZero _ => true
                    | _, _ => false
                    end) t.

(** The second promotion does not complete its route in time. *)
Definition route_times_out : Environment := fun t c =>
  match c with WaitReady => if again c t then Expired else Success | _ => Success end.
(** The drain of the demotion, the second one, does not end in time. *)
Definition drain_times_out : Environment := fun t c =>
  match c with WaitForZero _ => if again c t then Expired else Success | _ => Success end.

(** A promotion that failed because the route was late is reported as a failed demotion: the
    text of the error has none of the words that are looked for. *)
Example late_route_reported_as_demotion :
  view <$> run route_times_out (asked ++ [Recovered fine])
  = Some (Some (RecoveryState.Failed, Some RecoveryFailureReason.DemotionFailed),
          ClusterState.PairedStandaloneReady, AdmissionState.Blocked).
Proof. by vm_compute. Qed.

(** And the paired node that it leaves, with a running standalone server and a target, does not
    serve; a reconcile with the peer present, or of the operator, does not change that: only the
    next promotion does. *)
Example late_route_leaves_node_closed :
  view <$> run route_times_out (asked ++ [Recovered fine; Managed open_policy (OpReconcilePeriodic 99000);
    Managed open_policy OpReconcilePeer; Managed open_policy OpReconcileLocal;
    Managed open_policy OpOperatorReconcile])
  = Some (Some (RecoveryState.Failed, Some RecoveryFailureReason.DemotionFailed),
          ClusterState.PairedStandaloneReady, AdmissionState.Blocked).
Proof. by vm_compute. Qed.

(** After a drain that timed out the node stays in its demotion, with its gate closed: neither
    reconciles nor a demotion or promotion of the operator get it out. *)
Example late_drain_leaves_node_demoting :
  view <$> run drain_times_out (asked ++ [Recovered fine; Managed open_policy (OpReconcilePeriodic 99000);
    Managed open_policy OpReconcilePeer; Managed open_policy OpReconcileLocal;
    Managed open_policy OpOperatorReconcile; Managed open_policy (OpDemote true);
    Managed open_policy promote_op])
  = Some (Some (RecoveryState.Failed, Some RecoveryFailureReason.DrainTimeout),
          ClusterState.Demoting, AdmissionState.Draining).
Proof. by vm_compute. Qed.

(** The node while its recovery is accepted. *)
Definition first : System :=
  mkSystem (app_spawned (spawned willing) true policy_default None) watch [].
Definition pending : System :=
  default first (reached (env := willing) (serde := DemoCanary.serde) config asked first).

End DemoRun.

Lemma asked_reached :
  is_some_and (reached (env := willing) (serde := DemoCanary.serde) (around := DemoRun.around)
                 DemoRun.config DemoRun.asked DemoRun.first) (fun _ => true) = true.
Proof. vm_compute. reflexivity. Qed.

Lemma pending_reached :
  reached (env := willing) (serde := DemoCanary.serde) (around := DemoRun.around) DemoRun.config
    DemoRun.asked DemoRun.first = Some DemoRun.pending.
Proof.
  unfold DemoRun.pending. pose proof asked_reached as H.
  by destruct (reached DemoRun.config DemoRun.asked DemoRun.first).
Qed.

Lemma spawned_runs : node_run (env := willing) 0 idle_gate fresh_tracker (spawned willing).
Proof. apply NodeSpawned. vm_compute. reflexivity. Qed.

Lemma pending_job_id :
  is_some_and (active (recovery (app DemoRun.pending)))
    (fun j => bool_decide (Recovery.recovery_id j = DemoRun.id)) = true.
Proof. vm_compute. reflexivity. Qed.

Lemma pending_active :
  ∃ j, active (recovery (app DemoRun.pending)) = Some j ∧ Recovery.recovery_id j = DemoRun.id.
Proof.
  pose proof pending_job_id as H. destruct (active _) as [j|]; [|done].
  exists j. split; [done|]. by apply bool_decide_eq_true in H.
Qed.

