(* ===== verification/Admin.v ===== *)
(** * The admin controller: [src/src/cluster/admin.rs]

    The controller turns a request into a job that a spawned task executes: lifecycle actions
    under the operation lease of [Operation], one fingerprint per profile, and policy requests
    that are idempotent by their id.  A task releases its lease and records its result in two
    steps, so what an observer sees in between is part of the model; [start] takes its locks
    one after the other without interference.  The executor is what it answers, and new UUIDs
    are arguments that no task and no job has yet. *)

From S2P Require Import Prelude Bytes Utf8 Text Json Operation.
Local Open Scope Z_scope.

(** ** Data *)

Module FingerprintProfile.

(** src/src/cluster/admin.rs:46-50 (FingerprintProfile) *)
Inductive FingerprintProfile := Standalone | Distributed.

End FingerprintProfile.
Notation FingerprintProfile := FingerprintProfile.FingerprintProfile.

Module AdminAction.

(** src/src/cluster/admin.rs:24-44 (AdminAction) *)
Inductive AdminAction :=
| Reconcile
| Pair
| Promote
| Demote (reason : option bytes)
| Restart
| Fingerprint (profile : FingerprintProfile)
| SetPolicy (desired : OperationPolicy) (expected_generation request_id : Z).

End AdminAction.
Notation AdminAction := AdminAction.AdminAction.

Module AdminJobState.

(** src/src/cluster/admin.rs:65-71 (AdminJobState) *)
Inductive AdminJobState := Running | Complete | Failed.

End AdminJobState.
Notation AdminJobState := AdminJobState.AdminJobState.

Global Instance FingerprintProfile_eq_dec : EqDecision FingerprintProfile.
Proof. solve_decision. Defined.
Global Instance FingerprintProfile_countable : Countable FingerprintProfile.
Proof.
  refine (inj_countable'
    (fun p => match p with FingerprintProfile.Standalone => true | FingerprintProfile.Distributed => false end)
    (fun b : bool => if b then FingerprintProfile.Standalone else FingerprintProfile.Distributed) _).
  by intros [].
Defined.
Global Instance AdminJobState_eq_dec : EqDecision AdminJobState.
Proof. solve_decision. Defined.

(** src/src/cluster/admin.rs:53-58 (FingerprintProfile::as_str) *)
Definition profile_name (self : FingerprintProfile) : string :=
  match self with
  | FingerprintProfile.Standalone => "standalone"
  | FingerprintProfile.Distributed => "distributed"
  end.

(** src/src/cluster/admin.rs:462-472 (action_name) *)
Definition action_name (action : AdminAction) : string :=
  match action with
  | AdminAction.Reconcile => "reconcile"
  | AdminAction.Pair => "pair"
  | AdminAction.Promote => "promote"
  | AdminAction.Demote _ => "demote"
  | AdminAction.Restart => "restart"
  | AdminAction.Fingerprint _ => "fingerprint"
  | AdminAction.SetPolicy _ _ _ => "operation-policy"
  end.

(** src/src/cluster/admin.rs:476-485 (operation_kind) *)
Definition operation_kind (action : AdminAction) : option OperationKind :=
  match action with
  | AdminAction.Reconcile => Some OperationKind.Restart
  | AdminAction.Pair | AdminAction.Promote => Some OperationKind.Promotion
  | AdminAction.Demote _ => Some OperationKind.Demotion
  | AdminAction.Restart => Some OperationKind.Restart
  | AdminAction.Fingerprint _ => None
  | AdminAction.SetPolicy _ _ _ => Some OperationKind.Policy
  end.

(** src/src/cluster/admin.rs:73-82 (AdminJob) *)
Record AdminJob := mkJob {
  operation : string;
  state : AdminJobState;
  job_result : option Value;
  job_error : option bytes;
}.

Module PolicyJobState.

(** src/src/cluster/admin.rs:85-91 (PolicyJobState) *)
Inductive PolicyJobState := Running | Complete | Failed.

End PolicyJobState.
Notation PolicyJobState := PolicyJobState.PolicyJobState.

Global Instance PolicyJobState_eq_dec : EqDecision PolicyJobState.
Proof. solve_decision. Defined.

(** src/src/cluster/admin.rs:95-102 (PolicyNodeResult) *)
Record PolicyNodeResult := mkNodeResult {
  node_id : bytes;
  node_state : PolicyJobState;
  node_applied : OperationPolicy;
  node_error : option bytes;
}.

(** [kind] is a constant.  src/src/cluster/admin.rs:105-115 (PolicyJob) *)
Record PolicyJob := mkPolicyJob {
  policy_job_id : bytes;
  policy_state : PolicyJobState;
  desired : OperationPolicy;
  applied : OperationPolicy;
  nodes : list PolicyNodeResult;
  policy_error : option bytes;
}.

Module AdminStartError.

(** src/src/cluster/admin.rs:16-22 (AdminStartError) *)
Inductive AdminStartError :=
| FingerprintBusy (profile : FingerprintProfile)
| LeaseBusy (error : OperationLeaseError).

End AdminStartError.
Notation AdminStartError := AdminStartError.AdminStartError.

(** src/src/cluster/admin.rs:118-124 (PolicyStart) *)
Inductive PolicyStart := Created (job : PolicyJob) | Existing (job : PolicyJob).

Module PolicyStartError.

(** src/src/cluster/admin.rs:127-133 (PolicyStartError) *)
Inductive PolicyStartError := IdempotencyConflict | LeaseBusy (error : OperationLeaseError).

End PolicyStartError.
Notation PolicyStartError := PolicyStartError.PolicyStartError.

(** src/src/cluster/admin.rs:145-158 (AdminController) *)
Record AdminController := mkController {
  token : bytes;
  jobs : gmap bytes AdminJob;
  active_fingerprints : gset FingerprintProfile;
  policy_jobs : gmap Z PolicyJob;
  policy_idempotency : gmap Z Z;
  lease : OperationLease;
}.

Definition with_jobs (x : gmap bytes AdminJob) (c : AdminController) : AdminController :=
  mkController (token c) x (active_fingerprints c) (policy_jobs c) (policy_idempotency c) (lease c).
Definition with_fingerprints (x : gset FingerprintProfile) (c : AdminController) : AdminController :=
  mkController (token c) (jobs c) x (policy_jobs c) (policy_idempotency c) (lease c).
Definition with_policy_jobs (x : gmap Z PolicyJob) (c : AdminController) : AdminController :=
  mkController (token c) (jobs c) (active_fingerprints c) x (policy_idempotency c) (lease c).
Definition with_idempotency (x : gmap Z Z) (c : AdminController) : AdminController :=
  mkController (token c) (jobs c) (active_fingerprints c) (policy_jobs c) x (lease c).
Definition with_lease (x : OperationLease) (c : AdminController) : AdminController :=
  mkController (token c) (jobs c) (active_fingerprints c) (policy_jobs c) (policy_idempotency c) x.

(** ** The token *)

(** src/src/cluster/admin.rs:444-446 (encode_token) *)
Definition encode_token (token : bytes) : bytes := concat ((fun b => [CompactPrinter.hex (b / 16); CompactPrinter.hex (b mod 16)]) <$> token).

(** A digit of [from_str_radix(_, 16)]. *)
Definition hex_digit (b : Z) : option Z :=
  if between 48 57 b then Some (b - 48)
  else if between 97 102 b then Some (b - 87)
  else if between 65 70 b then Some (b - 55)
  else None.

(** [u8::from_str_radix(pair, 16)] of two bytes: a sign may take the place of the first digit. *)
Definition parse_pair (a b : Z) : option Z :=
  lo ← hex_digit b;
  if a =? 43 then Some lo else hi ← hex_digit a; Some (16 * hi + lo).

(** src/src/cluster/admin.rs:448-460 (decode_hex) *)
Fixpoint decode_hex (value : bytes) : option bytes :=
  match value with
  | [] => Some []
  | [_] => None
  | a :: b :: rest => x ← parse_pair a b; xs ← decode_hex rest; Some (x :: xs)
  end.

(** ** The controller *)

(** src/src/cluster/admin.rs:161-172 (AdminController::new) *)
Definition controller_new (token : bytes) : option AdminController :=
  if bool_decide (token = []) then None else Some (mkController token ∅ ∅ ∅ ∅ lease_new).

(** src/src/cluster/admin.rs:174-182 (AdminController::authorize) *)
Definition authorize (authorization : option bytes) (self : AdminController) : bool :=
  match from_option (strip_prefix (str "Bearer ")) None authorization with
  | None => false
  | Some value =>
      match decode_hex value with
      | None => false
      | Some supplied => bool_decide (length supplied = length (token self))
                         && bool_decide (supplied = token self)
      end
  end.

(** What a spawned task executes, and the job it reports to. *)
Inductive Work :=
| JobWork (job_id : bytes) (action : AdminAction)
| PolicyWork (request_id : Z) (desired : OperationPolicy) (expected_generation : Z).

(** The operation id and whether the lease was given back. *)
Record Task := mkTask { work : Work; task_operation : OperationId; released : bool }.

(** src/src/cluster/admin.rs:184-259 (AdminController::start) *)
Definition start (action : AdminAction) (operation_id : OperationId) (job_id : bytes) (self : AdminController)
    : result (AdminJob * Task) AdminStartError * AdminController :=
  let fingerprint_profile := match action with AdminAction.Fingerprint profile => Some profile | _ => None end in
  let busy := match fingerprint_profile with
              | Some profile => bool_decide (profile ∈ active_fingerprints self)
              | None => false
              end in
  match fingerprint_profile, busy with
  | Some profile, true => (Err (AdminStartError.FingerprintBusy profile), self)
  | _, _ =>
      let self := match fingerprint_profile with
                  | Some profile => with_fingerprints ({[profile]} ∪ active_fingerprints self) self
                  | None => self
                  end in
      let acquired := match operation_kind action with
                      | Some kind => try_acquire kind operation_id (lease self)
                      | None => Ok (lease self)
                      end in
      match acquired with
      | Err error =>
          (Err (AdminStartError.LeaseBusy error),
           match fingerprint_profile with
           | Some profile => with_fingerprints (active_fingerprints self ∖ {[profile]}) self
           | None => self
           end)
      | Ok l =>
          let job := mkJob (action_name action) AdminJobState.Running None None in
          (Ok (job, mkTask (JobWork job_id action) operation_id false),
           with_jobs (<[job_id := job]> (jobs self)) (with_lease l self))
      end
  end.

(** Policy requests of ForcedStandalone do not wait for a lease.
    src/src/cluster/admin.rs:319-319 (AdminController::start_policy) *)
Definition policy_has_lease (desired : OperationPolicy) : bool :=
  negb (bool_decide (desired = OperationPolicy.ForcedStandalone)).

(** src/src/cluster/admin.rs:292-355 (AdminController::start_policy) *)
Definition start_policy (request_id body_hash : Z) (wanted : OperationPolicy) (expected_generation : Z)
    (local_node_id : bytes) (operation_id : OperationId) (job_id : bytes) (self : AdminController)
    : result (PolicyStart * option Task) PolicyStartError * AdminController :=
  match policy_idempotency self !! request_id with
  | Some existing =>
      if existing =? body_hash then
        match policy_jobs self !! request_id with
        | Some job => (Ok (Existing job, None), self)
        | None => (Err PolicyStartError.IdempotencyConflict, self)
        end
      else (Err PolicyStartError.IdempotencyConflict, self)
  | None =>
      let acquired := if policy_has_lease wanted
                      then try_acquire OperationKind.Policy operation_id (lease self)
                      else Ok (lease self) in
      match acquired with
      | Err error => (Err (PolicyStartError.LeaseBusy error), self)
      | Ok l =>
          let job := mkPolicyJob job_id PolicyJobState.Running wanted OperationPolicy.Automatic
            [mkNodeResult local_node_id PolicyJobState.Running OperationPolicy.Automatic None] None in
          (Ok (Created job, Some (mkTask (PolicyWork request_id wanted expected_generation) operation_id false)),
           with_policy_jobs (<[request_id := job]> (policy_jobs self))
             (with_idempotency (<[request_id := body_hash]> (policy_idempotency self)) (with_lease l self)))
      end
  end.

(** The lease that a task holds while it executes. *)
Definition holds (t : Task) : option OperationKind :=
  match work t with
  | JobWork _ action => operation_kind action
  | PolicyWork _ desired _ => if policy_has_lease desired then Some OperationKind.Policy else None
  end.

(** The executor has answered: the lease is released.
    src/src/cluster/admin.rs:229-234 (AdminController::start) *)
Definition task_release (t : Task) (self : AdminController) : AdminController :=
  match holds t with
  | Some kind => with_lease (release kind (task_operation t) (lease self)) self
  | None => self
  end.

(** serde's decoder of a [PolicyNodeResult]. *)
Class NodeDecoder := node_of_value : Value → option PolicyNodeResult.

Definition node_complete (n : PolicyNodeResult) : bool := bool_decide (node_state n = PolicyJobState.Complete).

(** [as_bool] of a member. *)
Definition as_bool (v : Value) : option bool := match v with Value.Bool b => Some b | _ => None end.

(** src/src/cluster/admin.rs:369-421 (AdminController::start_policy) *)
Definition policy_outcome {decoder : NodeDecoder} (wanted : OperationPolicy) (r : result Value bytes)
    (entry : PolicyJob) : PolicyJob :=
  match r with
  | Ok value =>
      let listed := default (nodes entry)
        (v ← get "nodes" value; l ← as_array v; mapM node_of_value l) in
      let cluster_complete := default (bool_decide (length listed = 1%nat) && forallb node_complete listed)
        (v ← get "cluster_complete" value; as_bool v) in
      if cluster_complete && forallb node_complete listed
      then mkPolicyJob (policy_job_id entry) PolicyJobState.Complete (desired entry) wanted listed
             (policy_error entry)
      else mkPolicyJob (policy_job_id entry) PolicyJobState.Failed (desired entry) (applied entry) listed
             (Some (str "cluster-wide policy apply did not complete on every node"))
  | Err error =>
      mkPolicyJob (policy_job_id entry) PolicyJobState.Failed (desired entry) (applied entry)
        (match nodes entry with
         | n :: rest => mkNodeResult (node_id n) PolicyJobState.Failed (node_applied n) (Some error) :: rest
         | [] => []
         end) (Some error)
  end.

(** The result is recorded, and the profile of a fingerprint is free again.
    src/src/cluster/admin.rs:235-257 (AdminController::start) *)
Definition task_record {decoder : NodeDecoder} (t : Task) (r : result Value bytes) (self : AdminController)
    : AdminController :=
  match work t with
  | JobWork job_id action =>
      match jobs self !! job_id with
      | None => self
      | Some job =>
          let job := match r with
                     | Ok value => mkJob (operation job) AdminJobState.Complete (Some value) (job_error job)
                     | Err error => mkJob (operation job) AdminJobState.Failed (job_result job) (Some error)
                     end in
          let self := with_jobs (<[job_id := job]> (jobs self)) self in
          match action with
          | AdminAction.Fingerprint profile =>
              with_fingerprints (active_fingerprints self ∖ {[profile]}) self
          | _ => self
          end
      end
  | PolicyWork request_id wanted _ =>
      match policy_jobs self !! request_id with
      | None => self
      | Some entry => with_policy_jobs (<[request_id := policy_outcome wanted r entry]> (policy_jobs self)) self
      end
  end.

(** src/src/cluster/admin.rs:281-287 (AdminController::job) *)
Definition job (job_id : bytes) (self : AdminController) : option AdminJob := jobs self !! job_id.
(** src/src/cluster/admin.rs:435-441 (AdminController::policy_job) *)
Definition policy_job (request_id : Z) (self : AdminController) : option PolicyJob := policy_jobs self !! request_id.

Definition running_mutation (j : AdminJob) : bool :=
  bool_decide (state j = AdminJobState.Running) && negb (bool_decide (operation j = "fingerprint"%string)).

Definition running_policy (j : PolicyJob) : bool := bool_decide (policy_state j = PolicyJobState.Running).

(** src/src/cluster/admin.rs:262-279 (AdminController::has_running_mutation) *)
Definition has_running_mutation (self : AdminController) : bool :=
  existsb (fun x => running_mutation x.2) (map_to_list (jobs self))
  || existsb (fun x => running_policy x.2) (map_to_list (policy_jobs self)).

(** ** The system *)

Record AdminSystem := mkAdmin {
  controller : AdminController;
  running : list Task;
}.

Inductive Event :=
| Start (action : AdminAction) (operation_id : OperationId) (job_id : bytes)
| StartPolicy (request_id body_hash : Z) (wanted : OperationPolicy) (expected_generation : Z)
    (local_node_id : bytes) (operation_id : OperationId) (job_id : bytes)
| Executed (i : nat)
| Recorded (i : nat) (r : result Value bytes).

(** The UUID of a job is new. *)
Definition fresh (e : Event) (s : AdminSystem) : Prop :=
  match e with Start _ _ job_id => jobs (controller s) !! job_id = None | _ => True end.

Section System.
Context {decoder : NodeDecoder}.

(** A task records its result after it has released its lease. *)
Definition happens (e : Event) (s : AdminSystem) : AdminSystem :=
  match e with
  | Start action operation_id job_id =>
      match start action operation_id job_id (controller s) with
      | (Ok (_, t), c) => mkAdmin c (running s ++ [t])
      | (Err _, c) => mkAdmin c (running s)
      end
  | StartPolicy request_id body_hash wanted expected_generation local_node_id operation_id job_id =>
      match start_policy request_id body_hash wanted expected_generation local_node_id operation_id job_id
              (controller s) with
      | (Ok (_, t), c) => mkAdmin c (running s ++ option_list t)
      | (Err _, c) => mkAdmin c (running s)
      end
  | Executed i =>
      match running s !! i with
      | Some t => if released t then s
                  else mkAdmin (task_release t (controller s))
                         (<[i := mkTask (work t) (task_operation t) true]> (running s))
      | None => s
      end
  | Recorded i r =>
      match running s !! i with
      | Some t => if released t then mkAdmin (task_record t r (controller s)) (delete i (running s)) else s
      | None => s
      end
  end.

Inductive admin_run (token : bytes) : AdminSystem → Prop :=
| AdminNew c : controller_new token = Some c → admin_run token (mkAdmin c [])
| AdminStep s e : admin_run token s → fresh e s → admin_run token (happens e s).

End System.

(** ** One owner at a time *)

(** The kinds of lease that tasks hold. *)
Definition held (l : list Task) : list (OperationKind * OperationId) :=
  omap (fun t => if released t then None else k ← holds t; Some (k, task_operation t)) l.

Definition job_of (t : Task) : option bytes :=
  match work t with JobWork job_id _ => Some job_id | _ => None end.
Definition policy_of (t : Task) : option Z :=
  match work t with PolicyWork request_id _ _ => Some request_id | _ => None end.
Definition profile_of (t : Task) : option FingerprintProfile :=
  match work t with JobWork _ (AdminAction.Fingerprint profile) => Some profile | _ => None end.

(** A task that may change the children: everything but a fingerprint. *)
Definition mutates (t : Task) : bool :=
  match work t with JobWork _ (AdminAction.Fingerprint _) => false | _ => true end.

(** What holds between any two steps. *)
Record admin_ok (s : AdminSystem) : Prop := {
  ok_held : (held (running s) = [] ∧ owners (lease (controller s)) = ∅)
    ∨ ∃ kind id, held (running s) = [(kind, id)] ∧ owners (lease (controller s)) = {[kind := id]};
  ok_jobs : NoDup (omap job_of (running s));
  ok_job_state id : (∃ j, jobs (controller s) !! id = Some j ∧ state j = AdminJobState.Running)
    ↔ id ∈ omap job_of (running s);
  ok_job_name id action j : JobWork id action ∈ work <$> running s →
    jobs (controller s) !! id = Some j → operation j = action_name action;
  ok_profiles : NoDup (omap profile_of (running s));
  ok_active p : p ∈ active_fingerprints (controller s) ↔ p ∈ omap profile_of (running s);
  ok_policies : NoDup (omap policy_of (running s));
  ok_policy_state id :
    (∃ j, policy_jobs (controller s) !! id = Some j ∧ policy_state j = PolicyJobState.Running)
    ↔ id ∈ omap policy_of (running s);
  ok_policy_known id :
    is_Some (policy_jobs (controller s) !! id) ↔ is_Some (policy_idempotency (controller s) !! id);
}.

(** The table of jobs: those that run are those of the tasks. *)
Section Table.
Context `{Countable K} {V : Type} (run : V → Prop).

Definition table_of (m : gmap K V) (ids : list K) : Prop :=
  ∀ id, (∃ v, m !! id = Some v ∧ run v) ↔ id ∈ ids.

Lemma table_start m ids k v : table_of m ids → run v → table_of (<[k := v]> m) (ids ++ [k]).
Proof.
  intros Ht Hv id. rewrite elem_of_app, list_elem_of_singleton, <- (Ht id).
  destruct (decide (id = k)) as [->|Hn].
  - rewrite lookup_insert_eq. naive_solver.
  - rewrite lookup_insert_ne by done. naive_solver.
Qed.

Lemma table_finish m l1 l2 k v :
  table_of m (l1 ++ k :: l2) → NoDup (l1 ++ k :: l2) → ¬ run v → table_of (<[k := v]> m) (l1 ++ l2).
Proof.
  intros Ht Hd Hv id. apply NoDup_app in Hd as (_ & H1 & [H2 _]%NoDup_cons).
  destruct (decide (id = k)) as [->|Hn].
  - rewrite lookup_insert_eq, elem_of_app. split; [naive_solver|]. intros [Hk|Hk]; [|done].
    destruct (H1 _ Hk). by left.
  - rewrite lookup_insert_ne by done. rewrite (Ht id), !elem_of_app, elem_of_cons. naive_solver.
Qed.

Lemma NoDup_snoc_new (l : list K) x : NoDup l → x ∉ l → NoDup (l ++ [x]).
Proof.
  intros Hl Hx. apply NoDup_app. split; [done|]. split; [|apply NoDup_singleton].
  intros y Hy ->%list_elem_of_singleton. done.
Qed.

Lemma NoDup_middle (l1 l2 : list K) x : NoDup (l1 ++ x :: l2) → NoDup (l1 ++ l2).
Proof. rewrite <- (Permutation_middle l1 l2 x). by intros [_ ?]%NoDup_cons. Qed.

Lemma elem_of_middle (l1 l2 : list K) x y :
  NoDup (l1 ++ x :: l2) → (y ∈ l1 ++ x :: l2 ∧ y ≠ x) ↔ y ∈ l1 ++ l2.
Proof.
  intros Hd. rewrite !elem_of_app, elem_of_cons.
  apply NoDup_app in Hd as (_ & H1 & [H2 _]%NoDup_cons). split; [naive_solver|].
  intros [Hy|Hy]; (split; [by eauto|]); intros ->; [|done]. destruct (H1 _ Hy). by left.
Qed.

End Table.

Section Proofs.
Context {decoder : NodeDecoder}.

Lemma held_snoc l t : released t = false →
  held (l ++ [t]) = held l ++ match holds t with Some k => [(k, task_operation t)] | None => [] end.
Proof. intros Hr. unfold held. rewrite omap_app. cbn. rewrite Hr. by destruct (holds t). Qed.

Lemma acquired_held kind id c l' s :
  admin_ok (mkAdmin c s) → try_acquire kind id (lease c) = Ok l' →
  held s = [] ∧ owners l' = {[kind := id]}.
Proof.
  intros [Hh _ _ _ _ _ _ _ _] E. unfold try_acquire in E. apply result_bind_ok in E as (_ & _ & E).
  apply try_acquire_commit_ok in E as (E1 & E2 & _). split; [|done].
  destruct Hh as [[? _]|(k & i & _ & Ho)]; [done|]. cbn in Ho. rewrite E1 in Ho.
  apply (f_equal (lookup k)) in Ho. by rewrite lookup_empty, lookup_singleton_eq in Ho.
Qed.

(** The lease after a task has begun. *)
Lemma held_started c l kind t ts :
  admin_ok (mkAdmin c ts) → released t = false → holds t = kind →
  match kind with
  | Some kind => try_acquire kind (task_operation t) (lease c) = Ok l
  | None => l = lease c
  end →
  (held (ts ++ [t]) = [] ∧ owners l = ∅)
  ∨ ∃ kind id, held (ts ++ [t]) = [(kind, id)] ∧ owners l = {[kind := id]}.
Proof.
  intros Hok Hr Hk Hl. rewrite held_snoc, Hk by done. destruct kind as [k|].
  - destruct (acquired_held _ _ _ _ _ Hok Hl) as [-> Ho]. right. by exists k, (task_operation t).
  - subst l. rewrite app_nil_r. apply Hok.
Qed.

(** A job begins: its profile, if it has one, is free, and it has the lease that it needs. *)
Lemma job_started c l fp action operation_id job_id ts :
  admin_ok (mkAdmin c ts) → jobs c !! job_id = None →
  match operation_kind action with
  | Some kind => try_acquire kind operation_id (lease c) = Ok l
  | None => l = lease c
  end →
  (∀ p, p ∈ fp ↔ p ∈ active_fingerprints c ∨ action = AdminAction.Fingerprint p) →
  (∀ p, action = AdminAction.Fingerprint p → p ∉ active_fingerprints c) →
  admin_ok (mkAdmin
    (with_jobs (<[job_id := mkJob (action_name action) AdminJobState.Running None None]> (jobs c))
       (with_lease l (with_fingerprints fp c)))
    (ts ++ [mkTask (JobWork job_id action) operation_id false])).
Proof.
  intros Hok Hf Hl Hfp Hfree.
  pose proof (held_started c l _ (mkTask (JobWork job_id action) operation_id false) ts Hok eq_refl eq_refl Hl) as Hheld.
  destruct Hok as [Hh Hj Hs Hn Hp Ha Hpo Hps Hpk]. cbn [controller running] in *.
  assert (job_id ∉ omap job_of ts) as Hnew by (rewrite <- Hs; naive_solver).
  split; cbn [controller running jobs active_fingerprints policy_jobs policy_idempotency lease with_jobs
              with_lease with_fingerprints]; rewrite ?omap_app, ?fmap_app;
    cbn [omap list_omap job_of policy_of work fmap list_fmap]; rewrite ?app_nil_r; try done.
  - by apply NoDup_snoc_new.
  - by apply (table_start (fun j => state j = AdminJobState.Running)).
  - intros id a j. rewrite elem_of_app, list_elem_of_singleton. intros [Hin|[= -> ->]].
    + rewrite lookup_insert_ne; [by apply Hn|]. intros <-. apply Hnew. apply list_elem_of_omap.
      apply list_elem_of_fmap in Hin as (t & Ht & Hin). exists t. split; [done|]. unfold job_of. by rewrite <- Ht.
    + rewrite lookup_insert_eq. by intros [= <-].
  - cbn [profile_of work]. destruct action; rewrite ?app_nil_r; try done.
    apply NoDup_snoc_new; [done|]. rewrite <- Ha. by apply Hfree.
  - intros p. rewrite Hfp, elem_of_app, <- Ha. cbn [profile_of work].
    destruct action; cbn; rewrite ?elem_of_nil, ?list_elem_of_singleton; naive_solver.
Qed.

Lemma admin_start_ok action operation_id job_id s :
  admin_ok s → fresh (Start action operation_id job_id) s →
  admin_ok (happens (Start action operation_id job_id) s).
Proof.
  destruct s as [c ts]. intros Hok Hf. cbn [happens controller running fresh] in *. unfold start.
  destruct (match action with AdminAction.Fingerprint profile => Some profile | _ => None end)
    as [profile|] eqn:Ep.
  - assert (action = AdminAction.Fingerprint profile) as -> by (destruct action; by simplify_eq).
    destruct (bool_decide _) eqn:Eb; [done|]. apply bool_decide_eq_false in Eb. cbn [operation_kind].
    apply (job_started c (lease c) ({[profile]} ∪ active_fingerprints c)
             (AdminAction.Fingerprint profile) operation_id job_id ts Hok Hf eq_refl); [|by intros p [= <-]].
    intros p. rewrite elem_of_union, elem_of_singleton. naive_solver.
  - assert (∀ p, action ≠ AdminAction.Fingerprint p) as Hnot by (by intros p ->).
    destruct (match operation_kind action with Some kind => _ | None => _ end) as [l|e] eqn:El; [|done].
    pose proof (job_started c l (active_fingerprints c) action operation_id job_id ts Hok Hf) as H.
    replace (with_fingerprints (active_fingerprints c) c) with c in H by (by destruct c).
    apply H; [|naive_solver..]. destruct (operation_kind action); [done|]. by injection El.
Qed.

Lemma start_policy_ok request_id body_hash wanted expected local_node operation_id job_id s :
  admin_ok s →
  admin_ok (happens (StartPolicy request_id body_hash wanted expected local_node operation_id job_id) s).
Proof.
  destruct s as [c ts]. intros Hok. cbn [happens controller running] in *. unfold start_policy.
  destruct (policy_idempotency c !! request_id) as [h|] eqn:Ei.
  { destruct (h =? body_hash); [|done]. destruct (policy_jobs c !! request_id); [|done].
    cbn. by rewrite app_nil_r. }
  destruct (if policy_has_lease wanted then _ else _) as [l|e] eqn:El; [|done]. cbv beta iota delta [option_list option_rect].
  pose proof (held_started c l (if policy_has_lease wanted then Some OperationKind.Policy else None)
    (mkTask (PolicyWork request_id wanted expected) operation_id false) ts Hok eq_refl eq_refl) as Hheld.
  destruct Hok as [Hh Hj Hs Hn Hp Ha Hpo Hps Hpk]. cbn [controller running] in *.
  assert (policy_jobs c !! request_id = None) as Hnone.
  { apply eq_None_not_Some. rewrite Hpk, Ei. by intros []. }
  split; cbn [controller running jobs active_fingerprints policy_jobs policy_idempotency lease with_policy_jobs
              with_lease with_idempotency option_list]; rewrite ?omap_app, ?fmap_app;
    cbn [omap list_omap job_of policy_of profile_of work fmap list_fmap]; rewrite ?app_nil_r; try done.
  - apply Hheld. destruct (policy_has_lease wanted); [done|]. by injection El.
  - intros id a j. rewrite elem_of_app, list_elem_of_singleton. intros [Hin|[=]]. by apply Hn.
  - apply NoDup_snoc_new; [done|]. rewrite <- Hps. naive_solver.
  - by apply (table_start (fun j => policy_state j = PolicyJobState.Running)).
  - intros id. destruct (decide (id = request_id)) as [->|Hne].
    + rewrite !lookup_insert_eq. split; eauto.
    + by rewrite !lookup_insert_ne by done.
Qed.

Lemma task_release_fields t c :
  jobs (task_release t c) = jobs c ∧ active_fingerprints (task_release t c) = active_fingerprints c
  ∧ policy_jobs (task_release t c) = policy_jobs c
  ∧ policy_idempotency (task_release t c) = policy_idempotency c.
Proof. unfold task_release. by destruct (holds t). Qed.

Lemma held_split l1 t l2 :
  held (l1 ++ t :: l2)
  = held l1 ++ (if released t then [] else match holds t with Some k => [(k, task_operation t)] | None => [] end)
    ++ held l2.
Proof. unfold held. rewrite omap_app. cbn. destruct (released t); [done|]. by destruct (holds t). Qed.

Lemma executed_ok i s : admin_ok s → admin_ok (happens (Executed i) s).
Proof.
  destruct s as [c ts]. intros Hok. cbn [happens controller running].
  destruct (ts !! i) as [t|] eqn:Et; [|done]. destruct (released t) eqn:Er; [done|].
  apply list_elem_of_split_length in Et as (l1 & l2 & -> & ->).
  rewrite insert_app_r_alt, Nat.sub_diag by lia. cbn [insert list_insert].
  destruct (task_release_fields t c) as (F1 & F2 & F3 & F4).
  destruct Hok as [Hh Hj Hs Hn Hp Ha Hpo Hps Hpk]. cbn [controller running] in *.
  split; cbn [controller running]; rewrite ?F1, ?F2, ?F3, ?F4; rewrite ?omap_app, ?fmap_app in *; try done.
  rewrite held_split in *. cbn [released] in *. rewrite Er in Hh. unfold task_release.
  destruct (holds t) as [k|]; [|done].
  destruct Hh as [[Hh _]|(k' & id & Hh & Ho)]; [by destruct (held l1)|].
  destruct (held l1) as [|? [|??]]; [|by simplify_eq/=|by simplify_eq/=].
  cbn in Hh. injection Hh as -> -> ->. left. split; [done|].
  cbn. unfold release. rewrite Ho, lookup_singleton_eq, bool_decide_eq_true_2 by done.
  cbn. by rewrite delete_singleton_eq.
Qed.

(** The entries of the tasks that are left. *)
Lemma omap_delete {A} (f : Task → option A) l1 t l2 :
  omap f (l1 ++ t :: l2) = omap f l1 ++ option_list (f t) ++ omap f l2.
Proof. rewrite omap_app. cbn. by destruct (f t). Qed.

Lemma recorded_ok i r s : admin_ok s → admin_ok (happens (Recorded i r) s).
Proof.
  destruct s as [c ts]. intros Hok. cbn [happens controller running].
  destruct (ts !! i) as [t|] eqn:Et; [|done]. destruct (released t) eqn:Er; [|done].
  apply list_elem_of_split_length in Et as (l1 & l2 & -> & ->). rewrite delete_middle.
  destruct Hok as [Hh Hj Hs Hn Hp Ha Hpo Hps Hpk]. cbn [controller running] in *.
  rewrite held_split, Er in Hh. cbn [app] in Hh. fold (held l1) (held l2) in Hh.
  assert (held (l1 ++ l2) = held l1 ++ held l2) as Hheld by (unfold held; by rewrite omap_app).
  rewrite !omap_delete in *.
  assert (∀ id a j, JobWork id a ∈ work <$> l1 ++ l2 → jobs c !! id = Some j → operation j = action_name a) as Hn'.
  { intros id a j Hin. apply Hn. rewrite fmap_app in *. cbn. apply elem_of_app in Hin. set_solver. }
  unfold task_record. destruct (work t) as [job_id action|request_id wanted g] eqn:Ew.
  - assert (job_of t = Some job_id ∧ policy_of t = None) as [Ej Ep] by (unfold job_of, policy_of; by rewrite Ew).
    rewrite Ej, Ep in *. cbn [option_list option_rect app] in *.
    destruct (proj2 (Hs job_id)) as (j & Hj1 & Hj2); [rewrite elem_of_app; right; by left|]. rewrite Hj1.
    set (J := match r with Ok _ => _ | Err _ => _ end).
    assert (operation J = operation j ∧ state J ≠ AdminJobState.Running) as [HJ1 HJ2] by (by destruct r).
    clearbody J.
    assert (table_of (fun j => state j = AdminJobState.Running) (<[job_id := J]> (jobs c))
              (omap job_of l1 ++ omap job_of l2)) as Htab by (by apply table_finish).
    assert (∀ fp, (∀ p, p ∈ fp ↔ p ∈ omap profile_of l1 ++ omap profile_of l2) →
      admin_ok (mkAdmin (with_fingerprints fp (with_jobs (<[job_id := J]> (jobs c)) c)) (l1 ++ l2))) as Hdone.
    { intros fp Hfp. split; cbn; rewrite ?omap_app, ?Hheld; try done.
      - by eapply NoDup_middle.
      - intros id a j'. destruct (decide (id = job_id)) as [->|Hne].
        + rewrite lookup_insert_eq. intros Hin [= <-]. rewrite HJ1. by eapply Hn'.
        + rewrite lookup_insert_ne by done. apply Hn'.
      - destruct (profile_of t) as [p0|]; [by eapply (NoDup_middle _ _ p0)|done]. }
    destruct action as [| | |reason| |profile|d g rq];
      try (specialize (Hdone (active_fingerprints c)); unfold profile_of in Hdone, Ha at 2;
           rewrite Ew in *; by apply Hdone).
    apply Hdone. intros p. cbn [active_fingerprints with_jobs].
    assert (profile_of t = Some profile) as Epr by (unfold profile_of; by rewrite Ew).
    rewrite Epr in *. cbn [option_list option_rect app] in *.
    rewrite elem_of_difference, elem_of_singleton, Ha. by apply elem_of_middle.
  - assert (job_of t = None ∧ policy_of t = Some request_id ∧ profile_of t = None) as (Ej & Ep & Epr)
      by (unfold job_of, policy_of, profile_of; by rewrite Ew).
    rewrite Ej, Ep, Epr in *. cbn [option_list option_rect app] in *.
    destruct (proj2 (Hps request_id)) as (j & Hj1 & Hj2); [rewrite elem_of_app; right; by left|]. rewrite Hj1.
    assert (policy_state (policy_outcome wanted r j) ≠ PolicyJobState.Running) as HJ.
    { unfold policy_outcome. destruct r; [|done]. by destruct (_ && _). }
    set (J := policy_outcome wanted r j) in *. clearbody J.
    split; cbn; rewrite ?omap_app, ?Hheld; try done.
    + by eapply NoDup_middle.
    + by apply (table_finish (fun j => policy_state j = PolicyJobState.Running)).
    + intros id. rewrite <- Hpk. destruct (decide (id = request_id)) as [->|Hne].
      * rewrite lookup_insert_eq, Hj1. split; eauto.
      * by rewrite lookup_insert_ne.
Qed.

Lemma admin_run_ok token s : admin_run token s → admin_ok s.
Proof.
  induction 1 as [c Hc|s e _ IH Hf].
  - unfold controller_new in Hc. destruct (bool_decide _); [done|]. injection Hc as <-.
    split; cbn; try done; try apply NoDup_nil_2; try (intros; rewrite ?lookup_empty; set_solver).
  - destruct e; [by apply admin_start_ok|by apply start_policy_ok|by apply executed_ok|by apply recorded_ok].
Qed.

Lemma existsb_map {K V} `{Countable K} (p : V → bool) (m : gmap K V) :
  existsb (fun x => p x.2) (map_to_list m) = true ↔ ∃ k v, m !! k = Some v ∧ p v = true.
Proof.
  rewrite existsb_exists. setoid_rewrite <- list_elem_of_In. split.
  - intros ([k v] & Hk%elem_of_map_to_list & Hp). by exists k, v.
  - intros (k & v & Hk & Hp). exists (k, v). by rewrite elem_of_map_to_list.
Qed.

Lemma fingerprint_name action :
  action_name action = "fingerprint"%string ↔ ∃ p, action = AdminAction.Fingerprint p.
Proof. destruct action; cbn; naive_solver. Qed.

(** The flag that the shutdown waits for. *)
Lemma running_mutation_exact s :
  admin_ok s → has_running_mutation (controller s) = true ↔ ∃ t, t ∈ running s ∧ mutates t = true.
Proof.
  intros [_ _ Hs Hn _ _ _ Hps _]. unfold has_running_mutation.
  rewrite orb_true_iff, (existsb_map running_mutation), (existsb_map running_policy).
  unfold running_mutation, running_policy, mutates.
  setoid_rewrite andb_true_iff. setoid_rewrite negb_true_iff.
  setoid_rewrite bool_decide_eq_true. setoid_rewrite bool_decide_eq_false. split.
  - intros [(id & j & Hj & Hr & Ho)|(id & j & Hj & Hr)].
    + destruct (proj1 (list_elem_of_omap _ _ _) (proj1 (Hs id) ltac:(by eauto))) as (t & Ht & Hid).
      exists t. split; [done|]. unfold job_of in Hid. destruct (work t) as [id' a|] eqn:Ew; [|done].
      injection Hid as ->. destruct a; try done. exfalso. apply Ho. rewrite (Hn id _ j ltac:(
        rewrite <- Ew; by apply list_elem_of_fmap_2) Hj). done.
    + destruct (proj1 (list_elem_of_omap _ _ _) (proj1 (Hps id) ltac:(by eauto))) as (t & Ht & Hid).
      exists t. split; [done|]. unfold policy_of in Hid. by destruct (work t).
  - intros (t & Ht & Hm). destruct (work t) as [id a|id w g] eqn:Ew; [left|right].
    + assert (id ∈ omap job_of (running s)) as Hin
        by (apply list_elem_of_omap; exists t; split; [done|unfold job_of; by rewrite Ew]).
      destruct (proj2 (Hs id) Hin) as (j & Hj & Hr). exists id, j. split; [done|]. split; [done|].
      rewrite (Hn id a j ltac:(rewrite <- Ew; by apply list_elem_of_fmap_2) Hj), fingerprint_name.
      intros [p ->]. done.
    + assert (id ∈ omap policy_of (running s)) as Hin
        by (apply list_elem_of_omap; exists t; split; [done|unfold policy_of; by rewrite Ew]).
      destruct (proj2 (Hps id) Hin) as (j & Hj & Hr). by exists id, j.
Qed.

(** C25: Jobs of the admin interface, in every interleaving of requests, of executors that answer
    in any order, and of the two steps in which a task gives its lease back and records its
    result.  At most one task holds a lease, and the lease names exactly that one; no two
    fingerprints of one profile run at once; a lifecycle job or policy request is reported as
    running exactly while its task has not recorded the result, which is what the shutdown of
    the process waits for; and a policy request that is repeated starts nothing: the same body
    gets the job of the first one, another body a conflict. *)
Theorem admin_jobs_exact token s :
  admin_run token s →
  (length (held (running s)) ≤ 1)%nat
  ∧ (∀ kind id, owner kind (lease (controller s)) = Some id ↔ (kind, id) ∈ held (running s))
  ∧ NoDup (omap profile_of (running s))
  ∧ (has_running_mutation (controller s) = true ↔ ∃ t, t ∈ running s ∧ mutates t = true)
  ∧ ∀ request_id job body wanted g node operation_id job_id,
      policy_jobs (controller s) !! request_id = Some job →
      start_policy request_id body wanted g node operation_id job_id (controller s)
      = (if bool_decide (policy_idempotency (controller s) !! request_id = Some body)
         then Ok (Existing job, None) else Err PolicyStartError.IdempotencyConflict, controller s).
Proof.
  intros Hok%admin_run_ok. pose proof (running_mutation_exact s Hok) as Hm.
  destruct Hok as [Hh _ _ _ Hp _ _ _ Hpk]. split; [|split; [|split; [done|split; [done|]]]].
  - destruct Hh as [[-> _]|(? & ? & -> & _)]; cbn; lia.
  - intros kind id. unfold owner. destruct Hh as [[-> ->]|(k & i & -> & ->)].
    + rewrite lookup_empty, elem_of_nil. naive_solver.
    + rewrite list_elem_of_singleton, lookup_singleton_Some. naive_solver.
  - intros request_id job body wanted g node operation_id job_id Hj. unfold start_policy.
    destruct (proj1 (Hpk request_id) ltac:(by rewrite Hj)) as [h ->]. rewrite Hj.
    destruct (Z.eqb_spec h body) as [->|Hne]; [by rewrite bool_decide_eq_true_2|].
    by rewrite bool_decide_eq_false_2 by congruence.
Qed.

End Proofs.

(** The header made from the token is accepted, and only texts that decode to it are. *)
Lemma parse_pair_hex b : 0 ≤ b < 256 →
  parse_pair (CompactPrinter.hex (b / 16)) (CompactPrinter.hex (b mod 16)) = Some b.
Proof.
  intros Hb. assert (0 ≤ b / 16 < 16) as Hq by (split; [apply Z.div_pos|apply Z.div_lt_upper_bound]; lia).
  pose proof (Z.mod_pos_bound b 16 ltac:(lia)) as Hm. pose proof (Z.div_mod b 16 ltac:(lia)) as E.
  assert (∀ d, 0 ≤ d < 16 → hex_digit (CompactPrinter.hex d) = Some d ∧ CompactPrinter.hex d ≠ 43) as Hd.
  { intros d Hd. assert (forallb (fun d => bool_decide (hex_digit (CompactPrinter.hex d) = Some d)
      && negb (CompactPrinter.hex d =? 43)) (Z.of_nat <$> seq 0 16) = true) as H by (vm_compute; reflexivity).
    rewrite forallb_forall in H. specialize (H d). rewrite andb_true_iff, bool_decide_eq_true in H.
    destruct H as [H1 H2]; [|split; [done|lia]].
    apply list_elem_of_In, list_elem_of_fmap. exists (Z.to_nat d). split; [lia|]. apply elem_of_seq. lia. }
  unfold parse_pair. destruct (Hd _ Hm) as [-> _], (Hd _ Hq) as [-> Hn]. cbn.
  destruct (Z.eqb_spec (CompactPrinter.hex (b / 16)) 43); [done|]. f_equal. lia.
Qed.

Lemma token_authorizes token c :
  controller_new token = Some c → Forall (fun b => 0 ≤ b < 256) token →
  authorize (Some (str "Bearer " ++ encode_token token)) c = true.
Proof.
  unfold controller_new, authorize. destruct (bool_decide _); [done|]. intros [= <-] Hb. cbn [from_option].
  rewrite (proj2 (strip_prefix_spec _ _ _) eq_refl). cbn [Admin.token].
  assert (decode_hex (encode_token token) = Some token) as ->; [|by rewrite !bool_decide_eq_true_2].
  induction Hb as [|b l Hb _ IH]; [done|]. unfold encode_token in *. cbn [fmap list_fmap concat app decode_hex].
  by rewrite parse_pair_hex, IH.
Qed.

Module DemoAdmin.
#[local] Instance no_nodes : NodeDecoder := fun _ => None.

Definition ids (n : Z) : OperationId := mkOperationId n.
Definition run (es : list Event) : AdminSystem :=
  foldl (fun s e => happens e s) (mkAdmin (mkController [1; 2] ∅ ∅ ∅ ∅ lease_new) []) es.

(** A fingerprint runs next to a pairing; a promotion has to wait for the lease; the pairing is
    still reported as running after it gave its lease back. *)
Definition busy : list Event :=
  [Start AdminAction.Pair (ids 1) [1]; Start (AdminAction.Fingerprint FingerprintProfile.Standalone) (ids 2) [2];
   Start AdminAction.Promote (ids 3) [3]; Executed 0; StartPolicy 9 77 OperationPolicy.Automatic 4 [65] (ids 4) [4]].

Example busy_tasks : (fun t => (task_operation t, released t)) <$> running (run busy)
  = [(ids 1, true); (ids 2, false); (ids 4, false)].
Proof. vm_compute. reflexivity. Qed.

(** A sign may stand for a zero digit: the header has more than one accepted text. *)
Example signed_token : authorize (Some (str "Bearer +1+2")) (controller (run [])) = true.
Proof. vm_compute. reflexivity. Qed.

Lemma busy_runs : admin_run [1; 2] (run busy).
Proof.
  unfold run, busy. cbn [foldl].
  do 5 (apply AdminStep; [|exact I || (vm_compute; reflexivity)]). by apply AdminNew.
Qed.

End DemoAdmin.

Lemma admin_jobs_exact_witness :
  length (held (running (DemoAdmin.run DemoAdmin.busy))) = 1%nat
  ∧ has_running_mutation (controller (DemoAdmin.run DemoAdmin.busy)) = true
  ∧ ∃ t, t ∈ running (DemoAdmin.run DemoAdmin.busy) ∧ mutates t = true.
Proof.
  destruct (admin_jobs_exact (decoder := DemoAdmin.no_nodes) [1; 2] (DemoAdmin.run DemoAdmin.busy)
    DemoAdmin.busy_runs) as (_ & _ & _ & H & _).
  assert (has_running_mutation (controller (DemoAdmin.run DemoAdmin.busy)) = true) as Hm
    by (vm_compute; reflexivity).
  split; [vm_compute; reflexivity|]. split; [exact Hm|]. apply H. exact Hm.
Defined.
