(* ===== verification/Shutdown.v ===== *)
(** * Shutdown and planned restart of the process: [src/src/app.rs]

    The flags of the shutdown and the gate of the mutating requests, the sequence of a planned
    restart, and the concurrent system of handlers, accepted jobs and the server that cleans up
    its children.  The jobs are those of [Admin] and the recovery of [RecoveryRun]: here they
    are counted.  A load, a store or a critical section is one atomic step. *)

From S2P Require Import Prelude Bytes Target Operation Tp Auth Control Hello Admission.
From S2P Require Import ClusterFsm Promotion Runtime Production.
Local Open Scope Z_scope.

(** ** The flags *)

(** [shutdown_phase] is 0 before a shutdown, 1 while requests drain, 2 while children stop and
    3 after a failure; the two notifications hold at most one permit.
    src/src/app.rs:66-92 (AppState) *)
Record Flags := mkFlags {
  shutdown_phase : Z;
  server_shutting_down : bool;
  graceful_restart_in_progress : bool;
  restart_requested : bool;
  cleanup_retry_requested : bool;
}.

Definition flags_init : Flags := mkFlags 0 false false false false.

Definition with_phase (p : Z) (f : Flags) : Flags :=
  mkFlags p (server_shutting_down f) (graceful_restart_in_progress f) (restart_requested f)
    (cleanup_retry_requested f).
Definition with_shutting_down (f : Flags) : Flags :=
  mkFlags (shutdown_phase f) true (graceful_restart_in_progress f) (restart_requested f)
    (cleanup_retry_requested f).
Definition with_restart_slot (b : bool) (f : Flags) : Flags :=
  mkFlags (shutdown_phase f) (server_shutting_down f) b (restart_requested f) (cleanup_retry_requested f).
Definition with_restart_requested (b : bool) (f : Flags) : Flags :=
  mkFlags (shutdown_phase f) (server_shutting_down f) (graceful_restart_in_progress f) b
    (cleanup_retry_requested f).
Definition with_retry_requested (b : bool) (f : Flags) : Flags :=
  mkFlags (shutdown_phase f) (server_shutting_down f) (graceful_restart_in_progress f)
    (restart_requested f) b.

(** src/src/app.rs:302-306 (try_claim_graceful_restart) *)
Definition try_claim_graceful_restart (f : Flags) : bool * Flags :=
  (negb (graceful_restart_in_progress f), with_restart_slot true f).
(** src/src/app.rs:311-314 (release_graceful_restart) *)
Definition release_graceful_restart : Flags → Flags := with_restart_slot false.
(** src/src/app.rs:316-328 (set_manual_shutdown_phase) *)
Definition set_manual_shutdown_phase (phase : Z) (f : Flags) : Flags :=
  if server_shutting_down f then f else with_phase phase f.
(** src/src/app.rs:340-352 (mark_shutdown_draining) *)
Definition mark_shutdown_draining (f : Flags) : Flags :=
  if (shutdown_phase f =? 0) || (shutdown_phase f =? 3) then with_phase 1 f else f.
(** src/src/app.rs:330-338 (begin_server_shutdown) *)
Definition begin_server_shutdown (f : Flags) : Flags := mark_shutdown_draining (with_shutting_down f).
(** [compare_exchange(3, 1)] of the phase.  src/src/app.rs:2624-2632 (graceful_restart) *)
Definition claim_retry (f : Flags) : bool * Flags :=
  if shutdown_phase f =? 3 then (true, with_phase 1 f) else (false, f).
(** src/src/app.rs:354-380 (request_graceful_restart) *)
Definition request_graceful_restart (f : Flags) : Flags :=
  if server_shutting_down f then
    let '(claimed, f) := claim_retry f in
    if claimed then with_retry_requested true f else f
  else with_restart_requested true (mark_shutdown_draining f).

(** What the middleware lets through, from the two flags as it read them.
    src/src/app.rs:1766-1780 (reject_shutdown_mutations) *)
Definition mutation_passes (phase : Z) (shutting_down restart_path : bool) : bool :=
  let cleanup_retry := (phase =? 3) && restart_path in
  cleanup_retry || negb (shutting_down || (phase =? 1) || (phase =? 2)).

(** ** The sequence of a planned restart *)

(** The body of the request: empty, or decoded.  src/src/app.rs:2677-2689 (resolve_drain_timeout) *)
Definition resolve_drain_timeout (body : option (result (option Z) bytes)) (default_timeout : Z)
    : result Z bytes :=
  match body with
  | None => Ok default_timeout
  | Some (Err error) => Err error
  | Some (Ok drain_timeout_ms) => Ok (from_option (fun ms => ms * 1000000) default_timeout drain_timeout_ms)
  end.

Module GracefulRestartOutcome.

(** src/src/app.rs:2693-2708 (GracefulRestartOutcome) *)
Inductive GracefulRestartOutcome :=
| Ready
| DrainTimeout (in_flight : Z)
| ChildIdentityMismatch
| ChildStopFailed
| PeerPreparationFailed.

End GracefulRestartOutcome.
Notation GracefulRestartOutcome := GracefulRestartOutcome.GracefulRestartOutcome.

(** The part of the application that a restart works on. *)
Record Restarting := mkRestarting { flags : Flags; world : World }.
Definition with_flags (f : Flags → Flags) (r : Restarting) : Restarting := mkRestarting (f (flags r)) (world r).
Definition with_world (w : World) (r : Restarting) : Restarting := mkRestarting (flags r) w.

Section Sequence.
Context {env : Environment}.

(** The owner of the children: [None] without a production runtime, then [supervised] says
    whether there is a supervisor.  A runtime without tensor parallelism. *)
Record Owner := mkOwner { has_runtime : bool; supervised : bool }.

Definition with_planned_restart (b : bool) (w : World) : World :=
  mkWorld (cluster w) (gate w) (proxy_target w) (failures w) (completed_generation w)
    (automatic_pairing_blocked w) b (calls w).

(** src/src/cluster/production.rs:1142-1144 (begin_planned_restart) *)
Definition begin_planned_restart : World → World := with_planned_restart true.
(** src/src/cluster/production.rs:1146-1149 (cancel_planned_restart) *)
Definition cancel_planned_restart : World → World := with_planned_restart false.

(** src/src/cluster/production.rs:1151-1168 (prepare_peer_for_planned_restart) *)
Definition prepare_peer_for_planned_restart : method World ProductionError bool :=
  w ← self;
  if negb (bool_decide (role (cluster w) = LocalRole.Coordinator))
     || negb (bool_decide (state (cluster w) = ClusterState.DistributedReady))
  then mret false
  else perform SendControl ControlSendFailed;; mret true.

(** src/src/cluster/production.rs:1170-1185 (cancel_peer_planned_restart) *)
Definition cancel_peer_planned_restart : method World ProductionError unit :=
  w ← self;
  if negb (bool_decide (role (cluster w) = LocalRole.Coordinator)) then mret tt
  else perform SendControl ControlSendFailed.

(** Only the child of the node's role exists.
    src/src/cluster/production/worker.rs:317-329 (stop_distributed) *)
Definition stop_distributed : method World ProductionError unit :=
  w ← self;
  match role (cluster w) with
  | LocalRole.Coordinator | LocalRole.Worker => perform (Stop Distributed) ChildStopFailed
  | LocalRole.Unknown => mret tt
  end.

(** src/src/cluster/production.rs:1187-1205 (stop_for_planned_restart) *)
Definition stop_for_planned_restart : method World ProductionError unit :=
  w ← self;
  if bool_decide (role (cluster w) = LocalRole.Coordinator)
     && bool_decide (state (cluster w) = ClusterState.DistributedReady)
  then map_error Lifecycle Runtime.stop_for_planned_restart;; mret tt
  else stop_distributed.

(** src/src/app.rs:2788-2800 (graceful_restart_sequence) *)
Definition stop_owned (o : Owner) : method World ProductionError unit :=
  if has_runtime o then stop_for_planned_restart
  else if supervised o then perform (Stop Standalone) ChildStopFailed
  else fail ChildStopFailed.

(** Whether the error that was returned is itself an identity mismatch of a process: the errors
    of the coordinator's runtime wrap the one of their child and never are.
    src/src/app.rs:2830-2835 (is_graceful_identity_mismatch) *)
Definition is_graceful_identity_mismatch (mismatch : bool) (e : ProductionError) : bool :=
  match e with Production.ChildStopFailed => mismatch | _ => false end.

(** A step on the node whose error is looked at. *)
Definition on_world {A E} (m : method World E A) : method Restarting Empty_set (result A E) :=
  attempt (on_field world with_world m).
Definition on_node (f : World → World) : method Restarting Empty_set unit :=
  modify (fun r => with_world (f (world r)) r).
Definition cancel_local (o : Owner) : method Restarting Empty_set unit :=
  if has_runtime o then on_node cancel_planned_restart else mret tt.

(** The end of the sequence, from the stop of the children on; [mismatch]: what the stop of the
    child failed with.  src/src/app.rs:2778-2825 (graceful_restart_sequence) *)
Definition stop_prepared (o : Owner) (mismatch peer_prepared : bool)
    : method Restarting Empty_set GracefulRestartOutcome :=
  modify (with_flags (set_manual_shutdown_phase 2));;
  stopped ← on_world (stop_owned o);
  match (stopped : result unit ProductionError) with
  | Ok _ => on_node (with_gate block);; mret GracefulRestartOutcome.Ready
  | Err error =>
      (if peer_prepared && has_runtime o then on_world cancel_peer_planned_restart else mret (Ok tt));;
      cancel_local o;;
      mret (if is_graceful_identity_mismatch mismatch error
            then GracefulRestartOutcome.ChildIdentityMismatch
            else GracefulRestartOutcome.ChildStopFailed)
  end.

(** src/src/app.rs:2732-2776 (graceful_restart_sequence) *)
Definition graceful_restart_sequence (o : Owner) (mismatch : bool)
    : method Restarting Empty_set GracefulRestartOutcome :=
  (if has_runtime o then on_node begin_planned_restart else mret tt);;
  on_node (with_gate block);;
  drained ← on_world (drain id 0);
  match (drained : result unit DrainError) with
  | Err DrainError.Timeout =>
      cancel_local o;;
      r ← self;
      mret (GracefulRestartOutcome.DrainTimeout (in_flight (gate (world r))))
  | _ =>
      prepared ← (if has_runtime o then on_world prepare_peer_for_planned_restart else mret (Ok false));
      match (prepared : result bool ProductionError) with
      | Err _ =>
          on_world cancel_peer_planned_restart;;
          cancel_local o;;
          mret GracefulRestartOutcome.PeerPreparationFailed
      | Ok peer_prepared => stop_prepared o mismatch peer_prepared
      end
  end.

(** The status of the answer.  src/src/app.rs:2842-2901 (perform_graceful_restart) *)
Definition perform_graceful_restart (o : Owner) (mismatch : bool) (r : Restarting) : Z * Restarting :=
  let r := with_flags (set_manual_shutdown_phase 1) r in
  match graceful_restart_sequence o mismatch r with
  | (Err e, r) => match e with end
  | (Ok GracefulRestartOutcome.Ready, r) => (202, r)
  | (Ok outcome, r) =>
      (match outcome with GracefulRestartOutcome.ChildStopFailed => 500 | _ => 409 end,
       with_flags release_graceful_restart (with_flags (set_manual_shutdown_phase 3) r))
  end.

(** The status; [admin] is the decision of [authorized_admin].
    src/src/app.rs:2599-2671 (graceful_restart) *)
Definition graceful_restart (admin : option Z) (body : option (result (option Z) bytes)) (default_timeout : Z)
    (o : Owner) (mismatch : bool) (r : Restarting) : Z * Restarting :=
  match admin with
  | Some refused => (refused, r)
  | None =>
      match resolve_drain_timeout body default_timeout with
      | Err _ => (400, r)
      | Ok _ =>
          if server_shutting_down (flags r) then
            let '(claimed, f) := claim_retry (flags r) in
            if claimed then (202, mkRestarting (with_retry_requested true f) (world r))
            else (409, r)
          else
            let '(claimed, f) := try_claim_graceful_restart (flags r) in
            if negb claimed then (409, r)
            else if negb (supervised o) && negb (has_runtime o)
            then (409, mkRestarting (release_graceful_restart f) (world r))
            else perform_graceful_restart o mismatch (mkRestarting f (world r))
      end
  end.

End Sequence.

(** ** Handlers, jobs and the server

    A mutating request holds a read lock of [shutdown_gate] from the check of the middleware to
    the end of its handler.  The server takes the write lock once, so that the requests of
    before the shutdown are over, and then polls the jobs and the recovery. *)

Inductive HandlerStage :=
| Holding
| PhaseLoaded (phase : Z)
| Passed
| NotShuttingDown
| InRestart
| Notifying.

(** A request of [/admin/restart], or of any other mutation. *)
Record Handler := mkHandler { restart_path : bool; stage : HandlerStage }.

Inductive ServerStage :=
| Serving
| Draining
| GateWait
| JobsWait
| RecoveryWait
| Cleaning
| Failed
| Finished.

Record System := mkSystem {
  sflags : Flags;
  handlers : gmap nat Handler;
  jobs : nat;
  recovering : bool;
  restart_tasks : nat;
  server : ServerStage;
}.

Definition system_init : System := mkSystem flags_init ∅ 0 false 0 Serving.

Definition set_flags (f : Flags → Flags) (s : System) : System :=
  mkSystem (f (sflags s)) (handlers s) (jobs s) (recovering s) (restart_tasks s) (server s).
Definition set_handler (i : nat) (restart : bool) (x : HandlerStage) (s : System) : System :=
  mkSystem (sflags s) (<[i := mkHandler restart x]> (handlers s)) (jobs s) (recovering s)
    (restart_tasks s) (server s).
Definition leave (i : nat) (s : System) : System :=
  mkSystem (sflags s) (delete i (handlers s)) (jobs s) (recovering s) (restart_tasks s) (server s).
Definition set_jobs (n : nat) (s : System) : System :=
  mkSystem (sflags s) (handlers s) n (recovering s) (restart_tasks s) (server s).
Definition set_recovering (b : bool) (s : System) : System :=
  mkSystem (sflags s) (handlers s) (jobs s) b (restart_tasks s) (server s).
Definition set_restart_tasks (n : nat) (s : System) : System :=
  mkSystem (sflags s) (handlers s) (jobs s) (recovering s) n (server s).
Definition set_server (x : ServerStage) (s : System) : System :=
  mkSystem (sflags s) (handlers s) (jobs s) (recovering s) (restart_tasks s) x.

Definition at_stage (s : System) (i : nat) (restart : bool) (x : HandlerStage) : Prop :=
  handlers s !! i = Some (mkHandler restart x).

(** The requests are those of [reject_shutdown_mutations] and of [graceful_restart] above, the
    stages of the server those of the cleanup with its loop of retries.
    src/src/app.rs:1449-1548 (finish_child_cleanup) *)
Inductive step : relation System :=
(* The middleware: [reject_shutdown_mutations]. *)
| Arrives s i restart :
    handlers s !! i = None → step s (set_handler i restart Holding s)
| LoadsPhase s i restart :
    at_stage s i restart Holding →
    step s (set_handler i restart (PhaseLoaded (shutdown_phase (sflags s))) s)
| Passes s i restart p :
    at_stage s i restart (PhaseLoaded p) →
    mutation_passes p (server_shutting_down (sflags s)) restart = true →
    step s (set_handler i restart Passed s)
| Rejected s i restart p :
    at_stage s i restart (PhaseLoaded p) →
    mutation_passes p (server_shutting_down (sflags s)) restart = false →
    step s (leave i s)
(* The other mutations: accept a job or a recovery, and leave. *)
| AcceptsJob s i :
    at_stage s i false Passed → step s (set_jobs (S (jobs s)) s)
| AcceptsRecovery s i :
    at_stage s i false Passed → step s (set_recovering true s)
| Leaves s i restart :
    at_stage s i restart Passed → step s (leave i s)
(* [graceful_restart]. *)
| SeesShutdown s i f :
    at_stage s i true Passed → server_shutting_down (sflags s) = true →
    claim_retry (sflags s) = (true, f) →
    step s (set_handler i true Notifying (set_flags (fun _ => f) s))
| Notifies s i :
    at_stage s i true Notifying →
    step s (leave i (set_flags (with_retry_requested true) s))
| SeesNoShutdown s i :
    at_stage s i true Passed → server_shutting_down (sflags s) = false →
    step s (set_handler i true NotShuttingDown s)
| RestartBusy s i f :
    at_stage s i true NotShuttingDown → try_claim_graceful_restart (sflags s) = (false, f) →
    step s (leave i s)
| RestartClaims s i f :
    at_stage s i true NotShuttingDown → try_claim_graceful_restart (sflags s) = (true, f) →
    step s (set_handler i true InRestart (set_flags (fun _ => set_manual_shutdown_phase 1 f) s))
| RestartStops s i :
    at_stage s i true InRestart →
    step s (set_flags (set_manual_shutdown_phase 2) s)
| RestartReady s i :
    at_stage s i true InRestart →
    step s (leave i (set_restart_tasks (S (restart_tasks s)) s))
| RestartFails s i :
    at_stage s i true InRestart →
    step s (leave i (set_flags (fun f => release_graceful_restart (set_manual_shutdown_phase 3 f)) s))
(* The tasks of jobs, of the detector and of a restart that is ready. *)
| JobEnds s n :
    jobs s = S n → step s (set_jobs n s)
| RecoveryEnds s :
    step s (set_recovering false s)
| Detected s :
    server s = Serving ∨ server s = Draining → step s (set_recovering true s)
| RestartRequested s n :
    restart_tasks s = S n →
    step s (set_restart_tasks n (set_flags request_graceful_restart s))
(* [run_servers]. *)
| ServerStops s :
    server s = Serving →
    step s (set_server Draining (set_flags (fun f => begin_server_shutdown (with_restart_requested false f)) s))
| TasksAborted s :
    server s = Draining → step s (set_server GateWait s)
| GateTaken s :
    server s = GateWait → handlers s = ∅ → step s (set_server JobsWait s)
| NoJobs s :
    server s = JobsWait → jobs s = 0%nat → step s (set_server RecoveryWait s)
| RecoveryRuns s :
    server s = RecoveryWait → recovering s = true → step s (set_server JobsWait s)
| NoRecovery s :
    server s = RecoveryWait → recovering s = false →
    step s (set_server Cleaning (set_flags (with_phase 2) s))
| WaitTimedOut s :
    server s = GateWait ∨ server s = JobsWait ∨ server s = RecoveryWait →
    step s (set_server Failed (set_flags (with_phase 3) s))
| CleanupFails s :
    server s = Cleaning → step s (set_server Failed (set_flags (with_phase 3) s))
| CleanupDone s :
    server s = Cleaning → step s (set_server Finished s)
| Retried s :
    server s = Failed → cleanup_retry_requested (sflags s) = true →
    step s (set_server GateWait (set_flags (fun f => mark_shutdown_draining (with_retry_requested false f)) s))
| RetriedAlone s :
    server s = Failed → step s (set_server GateWait (set_flags mark_shutdown_draining s)).

(** The handler may accept jobs or stop children, now or without another look at the flag. *)
Definition mutating (h : Handler) : bool :=
  match stage h with
  | Passed => negb (restart_path h)
  | NotShuttingDown | InRestart => true
  | _ => false
  end.

(** The write lock was taken and the wait is not over. *)
Definition exclusive_stage (x : ServerStage) : bool :=
  match x with JobsWait | RecoveryWait | Cleaning | Finished => true | _ => false end.

Definition gate_free (hs : gmap nat Handler) : Prop := ∀ i h, hs !! i = Some h → mutating h = false.
(** At most one handler is in the sequence of a restart, and it has the slot. *)
Definition slot_ok (hs : gmap nat Handler) (slot : bool) : Prop :=
  ∀ i r, hs !! i = Some (mkHandler r InRestart) →
    slot = true ∧ ∀ j r', hs !! j = Some (mkHandler r' InRestart) → j = i.
Definition notifying (hs : gmap nat Handler) : Prop := ∃ i, hs !! i = Some (mkHandler true Notifying).

Record shutdown_ok (s : System) : Prop := {
  ok_flag : server s = Serving ∨ server_shutting_down (sflags s) = true;
  ok_gate : exclusive_stage (server s) = true → gate_free (handlers s);
  ok_jobs : server s = RecoveryWait ∨ server s = Cleaning ∨ server s = Finished → jobs s = 0%nat;
  ok_recovery : server s = Cleaning ∨ server s = Finished → recovering s = false;
  ok_retry : server s = Failed → shutdown_phase (sflags s) = 3
    ∨ cleanup_retry_requested (sflags s) = true ∨ notifying (handlers s);
  ok_slot : slot_ok (handlers s) (graceful_restart_in_progress (sflags s));
}.

(** ** The invariant *)

Lemma mark_shutting f : server_shutting_down (mark_shutdown_draining f) = server_shutting_down f.
Proof. unfold mark_shutdown_draining. by destruct (_ || _). Qed.
Lemma mark_slot f : graceful_restart_in_progress (mark_shutdown_draining f) = graceful_restart_in_progress f.
Proof. unfold mark_shutdown_draining. by destruct (_ || _). Qed.
Lemma manual_shutting p f : server_shutting_down (set_manual_shutdown_phase p f) = server_shutting_down f.
Proof. unfold set_manual_shutdown_phase. by destruct (server_shutting_down f) eqn:E; cbn; rewrite ?E. Qed.
Lemma manual_slot p f :
  graceful_restart_in_progress (set_manual_shutdown_phase p f) = graceful_restart_in_progress f.
Proof. unfold set_manual_shutdown_phase. by destruct (server_shutting_down f) eqn:E; cbn; rewrite ?E. Qed.
Lemma claim_retry_spec f f' b :
  claim_retry f = (b, f') → server_shutting_down f' = server_shutting_down f
  ∧ graceful_restart_in_progress f' = graceful_restart_in_progress f
  ∧ cleanup_retry_requested f' = cleanup_retry_requested f.
Proof. unfold claim_retry. by destruct (_ =? _); intros [= <- <-]. Qed.

(** Once the server shuts down, a request of its owner to restart retries the cleanup. *)
Lemma request_spec f :
  server_shutting_down (request_graceful_restart f) = server_shutting_down f
  ∧ graceful_restart_in_progress (request_graceful_restart f) = graceful_restart_in_progress f
  ∧ (server_shutting_down f = true → cleanup_retry_requested f = true →
     cleanup_retry_requested (request_graceful_restart f) = true)
  ∧ (server_shutting_down f = true → shutdown_phase f = 3 →
     cleanup_retry_requested (request_graceful_restart f) = true).
Proof.
  unfold request_graceful_restart, claim_retry. destruct (server_shutting_down f) eqn:E.
  - destruct (shutdown_phase f =? 3) eqn:E3; cbn; rewrite ?E; repeat split; try done.
    intros _ H. by rewrite H in E3.
  - unfold with_restart_requested. cbn. by rewrite mark_shutting, mark_slot.
Qed.

Lemma gate_free_insert hs i h : gate_free hs → mutating h = false → gate_free (<[i := h]> hs).
Proof.
  intros H Hh j h'. destruct (decide (j = i)) as [->|Hn];
    [rewrite lookup_insert_eq; by intros [= <-]|rewrite lookup_insert_ne by done; apply H].
Qed.
Lemma gate_free_delete hs i : gate_free hs → gate_free (delete i hs).
Proof. intros H j h [_ Hj]%lookup_delete_Some. by eapply H. Qed.

Lemma slot_insert hs b i r x : x ≠ InRestart → slot_ok hs b → slot_ok (<[i := mkHandler r x]> hs) b.
Proof.
  intros Hx H i' r' Hi.
  assert (∀ j r0, <[i := mkHandler r x]> hs !! j = Some (mkHandler r0 InRestart) →
    hs !! j = Some (mkHandler r0 InRestart)) as Hold.
  { intros j r0. destruct (decide (j = i)) as [->|Hn]; [rewrite lookup_insert_eq|by rewrite lookup_insert_ne].
    intros [= _ ->]. done. }
  destruct (H i' r' (Hold _ _ Hi)) as [H1 H2]. split; [done|]. intros j r0 Hj. exact (H2 j r0 (Hold j r0 Hj)).
Qed.
Lemma slot_delete hs b i : slot_ok hs b → slot_ok (delete i hs) b.
Proof.
  intros H j r [_ Hj]%lookup_delete_Some. destruct (H j r Hj) as [H1 H2]. split; [done|].
  intros j' r' [_ Hj']%lookup_delete_Some. by eapply H2.
Qed.
Lemma slot_claim hs i r : slot_ok hs false → slot_ok (<[i := mkHandler r InRestart]> hs) true.
Proof.
  intros H. assert (∀ j r0, <[i := mkHandler r InRestart]> hs !! j = Some (mkHandler r0 InRestart) → j = i) as Hi.
  { intros j r0. destruct (decide (j = i)) as [->|Hn]; [done|]. rewrite lookup_insert_ne by done.
    intros Hj. by destruct (H j r0 Hj). }
  intros j r0 Hj. split; [done|]. intros j' r' Hj'. by rewrite (Hi _ _ Hj), (Hi _ _ Hj').
Qed.
Lemma slot_release hs b i r :
  hs !! i = Some (mkHandler r InRestart) → slot_ok hs b → slot_ok (delete i hs) false.
Proof.
  intros Hi H j r' [Hn Hj]%lookup_delete_Some. destruct (H i r Hi) as [_ H2]. by destruct (H2 j r' Hj).
Qed.

Lemma notifying_insert hs i h :
  hs !! i ≠ Some (mkHandler true Notifying) → notifying hs → notifying (<[i := h]> hs).
Proof.
  intros Hi (j & Hj). exists j. rewrite lookup_insert_ne; [done|]. by intros <-.
Qed.
Lemma notifying_delete hs i :
  hs !! i ≠ Some (mkHandler true Notifying) → notifying hs → notifying (delete i hs).
Proof. intros Hi (j & Hj). exists j. rewrite lookup_delete_ne; [done|]. by intros <-. Qed.

Lemma exclusive_late x :
  x = RecoveryWait ∨ x = Cleaning ∨ x = Finished → exclusive_stage x = true.
Proof. by intros [->|[->| ->]]. Qed.

(** The steps of handlers and tasks, which leave the stage of the server alone: the flags, the
    handlers and the counters that follow. *)
Lemma shutdown_ok_handlers s f hs n b t :
  shutdown_ok s →
  (server_shutting_down (sflags s) = true → server_shutting_down f = true) →
  (exclusive_stage (server s) = true → gate_free (handlers s) → gate_free hs) →
  (exclusive_stage (server s) = true → gate_free (handlers s) → n = jobs s ∨ jobs s = S n) →
  (exclusive_stage (server s) = true → gate_free (handlers s) → b = true → recovering s = true) →
  (server_shutting_down (sflags s) = true →
     shutdown_phase (sflags s) = 3 ∨ cleanup_retry_requested (sflags s) = true ∨ notifying (handlers s) →
     shutdown_phase f = 3 ∨ cleanup_retry_requested f = true ∨ notifying hs) →
  slot_ok hs (graceful_restart_in_progress f) →
  shutdown_ok (mkSystem f hs n b t (server s)).
Proof.
  intros [Hf Hg Hj Hr Hre Hs] H1 H2 H3 H4 H5 H6. split; cbn; try done.
  - destruct Hf as [?|?]; auto.
  - intros He. auto.
  - intros He. pose proof (exclusive_late _ He) as Hx. destruct (H3 Hx (Hg Hx)) as [->|E]; [auto|].
    rewrite (Hj He) in E. done.
  - intros He. assert (exclusive_stage (server s) = true) as Hx by (by apply exclusive_late; right).
    destruct b; [|done]. rewrite (H4 Hx (Hg Hx) eq_refl) in Hr. by apply Hr.
  - intros He. apply H5; [|auto]. destruct Hf as [Hf|Hf]; [by rewrite He in Hf|done].
Qed.

(** The steps of the server. *)
Lemma shutdown_ok_server s f x :
  shutdown_ok s →
  server_shutting_down f = true →
  (exclusive_stage x = true → exclusive_stage (server s) = true ∨ handlers s = ∅) →
  (x = RecoveryWait ∨ x = Cleaning ∨ x = Finished → jobs s = 0%nat) →
  (x = Cleaning ∨ x = Finished → recovering s = false) →
  (x = Failed → shutdown_phase f = 3) →
  graceful_restart_in_progress f = graceful_restart_in_progress (sflags s) →
  shutdown_ok (set_server x (set_flags (fun _ => f) s)).
Proof.
  intros [Hf Hg Hj Hr Hre Hs] H1 H2 H3 H4 H5 H6. split; cbn; try done.
  - by right.
  - intros He. destruct (H2 He) as [Hx| ->]; [by apply Hg|]. intros i h Hi. by rewrite lookup_empty in Hi.
  - intros He. left. auto.
  - by rewrite H6.
Qed.

(** The way to a retry is not touched by a handler that is not about to notify. *)
Ltac keep_retry Hi :=
  intros [?|[?|?]]; [by left|by right; left|right; right];
  first [done | by apply notifying_insert; [rewrite Hi|] | by apply notifying_delete; [rewrite Hi|]].

Ltac handler_step :=
  match goal with Hok : shutdown_ok ?s |- _ => apply (shutdown_ok_handlers s) end; cbn;
  auto using gate_free_insert, gate_free_delete, slot_insert, slot_delete;
  try match goal with Hi : handlers _ !! _ = _ |- _ → _ ∨ _ → _ => intros _; by keep_retry Hi end.

(** A step of the server to the flags [f], from the facts of its stage. *)
Ltac server_step s f :=
  match goal with Hok : shutdown_ok _, Hsv : server _ = _ |- _ =>
    pose proof (ok_flag s Hok) as Hflag; pose proof (ok_jobs s Hok) as Hidle;
    pose proof (ok_recovery s Hok) as Hquiet; rewrite Hsv in Hflag, Hidle, Hquiet;
    apply (shutdown_ok_server s f _ Hok);
    [ unfold begin_server_shutdown; rewrite ?mark_shutting; by destruct Hflag
    | rewrite Hsv; first [done | intros _; first [by left | by right]]
    | first [by intros [|[|]] | intros _; first [assumption | apply Hidle; tauto]]
    | first [by intros [|] | intros _; first [assumption | apply Hquiet; tauto]]
    | done
    | unfold begin_server_shutdown; by rewrite ?mark_slot ]
  end.

Lemma shutdown_ok_step s s' : shutdown_ok s → step s s' → shutdown_ok s'.
Proof.
  intros Hok Hstep. pose proof Hok as [Hf Hg Hj Hr Hre Hs].
  assert (exclusive_stage (server s) = true → server_shutting_down (sflags s) = true) as Hx
    by (intros He; destruct Hf as [Hf|]; [by rewrite Hf in He|done]).
  destruct Hstep as [s i r Hi|s i r Hi|s i r p Hi Hp|s i r p Hi Hp|s i Hi|s i Hi|s i r Hi
    |s i f Hi Hd Hc|s i Hi|s i Hi Hd|s i f Hi Hc|s i f Hi Hc|s i Hi|s i Hi|s i Hi
    |s n Hn|s|s Hsv|s n Hn|s Hsv|s Hsv|s Hsv Hh|s Hsv Hn|s Hsv Hn|s Hsv Hn|s Hsv|s Hsv|s Hsv|s Hsv Hc|s Hsv];
    unfold at_stage in *.
  (* the middleware *)
  - by handler_step.
  - by handler_step.
  - handler_step. intros He Hfree. apply gate_free_insert; [done|]. unfold mutation_passes in Hp.
    rewrite (Hx He), orb_true_l, orb_false_r in Hp. by destruct r; [|rewrite andb_false_r in Hp].
  - by handler_step.
  (* other mutations *)
  - handler_step; intros He Hfree; by specialize (Hfree i _ Hi).
  - handler_step; intros He Hfree; by specialize (Hfree i _ Hi).
  - by handler_step.
  (* the handler of a restart *)
  - apply claim_retry_spec in Hc as (C1 & C2 & _). handler_step; rewrite ?C1, ?C2; auto using slot_insert.
    intros _ _. right. right. exists i. by rewrite lookup_insert_eq.
  - by handler_step.
  - handler_step. intros He. by rewrite (Hx He) in Hd.
  - by handler_step.
  - unfold try_claim_graceful_restart in Hc. injection Hc as Hslot <-. apply negb_true_iff in Hslot.
    handler_step; rewrite ?manual_shutting, ?manual_slot; try done.
    + intros He Hfree. by specialize (Hfree i _ Hi).
    + intros Hd. unfold set_manual_shutdown_phase. cbn. rewrite Hd. by keep_retry Hi.
    + rewrite Hslot in Hs. by apply slot_claim.
  - handler_step; rewrite ?manual_shutting, ?manual_slot; try done.
    intros Hd. unfold set_manual_shutdown_phase. by rewrite Hd.
  - by handler_step.
  - handler_step; rewrite ?manual_shutting; try done.
    + intros Hd. unfold set_manual_shutdown_phase. rewrite Hd. by keep_retry Hi.
    + by eapply slot_release.
  (* tasks *)
  - by handler_step.
  - by handler_step.
  - handler_step. intros He. by destruct Hsv as [E|E]; rewrite E in He.
  - destruct (request_spec (sflags s)) as (R1 & R2 & R3 & R4). handler_step; rewrite ?R1, ?R2; try done.
    intros Hd [H3|[H3|H3]]; [right; left; auto|right; left; auto|by right; right].
  (* the server *)
  - server_step s (begin_server_shutdown (with_restart_requested false (sflags s))).
  - server_step s (sflags s).
  - server_step s (sflags s).
  - server_step s (sflags s).
  - server_step s (sflags s).
  - server_step s (with_phase 2 (sflags s)).
  - destruct Hsv as [Hsv|[Hsv|Hsv]]; server_step s (with_phase 3 (sflags s)).
  - server_step s (with_phase 3 (sflags s)).
  - server_step s (sflags s).
  - server_step s (mark_shutdown_draining (with_retry_requested false (sflags s))).
  - server_step s (mark_shutdown_draining (sflags s)).
Qed.

Lemma shutdown_ok_init : shutdown_ok system_init.
Proof.
  split; cbn; try done. by left.
Qed.

Lemma shutdown_ok_reachable s s' : rtc step s s' → shutdown_ok s → shutdown_ok s'.
Proof. induction 1; eauto using shutdown_ok_step. Qed.

(** ** A failed cleanup *)

(** A new request of [/admin/restart] in the failed phase makes the server retry. *)
Lemma retry_by_request s i :
  handlers s !! i = None → server_shutting_down (sflags s) = true → shutdown_phase (sflags s) = 3 →
  rtc step s (leave i (set_flags (with_retry_requested true)
    (set_handler i true Notifying (set_flags (with_phase 1)
      (set_handler i true Passed (set_handler i true (PhaseLoaded 3) (set_handler i true Holding s))))))).
Proof.
  intros Hi Hd Hp.
  assert (∀ r x s0, at_stage (set_handler i r x s0) i r x) as Hat
    by (intros r x s0; apply lookup_insert_eq).
  eapply rtc_l; [by apply (Arrives s i true)|].
  eapply rtc_l; [by apply (LoadsPhase _ i true), Hat|]. cbn [sflags set_handler]. rewrite Hp.
  eapply rtc_l; [apply (Passes _ i true 3); [apply Hat|by cbn]|].
  eapply rtc_l; [apply (SeesShutdown _ i (with_phase 1 (sflags s))); [apply Hat|done|]|].
  { cbn. unfold claim_retry. by rewrite Hp. }
  apply rtc_once, Notifies, Hat.
Qed.

(** The request that makes the server retry its cleanup can always be made. *)
Lemma retry_possible s :
  shutdown_ok s → server s = Failed →
  ∃ s', rtc step s s' ∧ server s' = Failed ∧ cleanup_retry_requested (sflags s') = true.
Proof.
  intros Hok Hs. destruct (ok_retry s Hok Hs) as [H3|[Hr|[i Hi]]].
  - assert (server_shutting_down (sflags s) = true) as Hd
      by (destruct (ok_flag s Hok) as [H|H]; congruence).
    eexists. split; [by apply (retry_by_request s (fresh (dom (handlers s)))); [apply not_elem_of_dom, is_fresh|..]|].
    done.
  - by exists s.
  - exists (leave i (set_flags (with_retry_requested true) s)). by split; [apply rtc_once, Notifies|].
Qed.

(** ** The sequence *)

Section SequenceLemmas.
Context {env : Environment}.

(** What the sequence leaves: the flag of the planned restart and the gate by the outcome, and
    whether the process shuts down as it found it. *)
Definition sequence_post (o : Owner) (shutting : bool) (outcome : GracefulRestartOutcome) (r : Restarting) : Prop :=
  server_shutting_down (flags r) = shutting ∧
  match outcome with
  | GracefulRestartOutcome.Ready => Admission.state (gate (world r)) = AdmissionState.Blocked
  | _ => has_runtime o = true → planned_restart_active (world r) = false
  end.

(** The node may change in any way, but not the flags. *)
Lemma wp_on_world {A E} (m : method World E A) (Q : result A E → Restarting → Prop) X r :
  (∀ a r', flags r' = flags r → Q a r') → wp (on_world m) Q X r.
Proof. intros HQ. unfold on_world, wp, attempt, on_field. destruct (m (world r)) as [[a|e] w]; by apply HQ. Qed.

Lemma wp_cancel_local o (outcome : GracefulRestartOutcome) b X r :
  outcome ≠ GracefulRestartOutcome.Ready → server_shutting_down (flags r) = b →
  wp (cancel_local o;; mret outcome) (sequence_post o b) X r.
Proof.
  intros Hn Hb. apply wp_bind. unfold cancel_local.
  destruct (has_runtime o) eqn:Ho; [apply wp_modify|]; (split; [done|]); by destruct outcome; rewrite ?Ho.
Qed.

Lemma wp_stop_prepared o mismatch peer b X r :
  server_shutting_down (flags r) = b → wp (stop_prepared o mismatch peer) (sequence_post o b) X r.
Proof.
  intros Hb. unfold stop_prepared. apply wp_bind, wp_modify, wp_bind, wp_on_world. intros [a|e] r' Hr.
  - apply wp_bind, wp_modify. split; [|done]. cbn. rewrite Hr. by unfold with_flags; cbn; rewrite manual_shutting.
  - assert (server_shutting_down (flags r') = b) as Hb' by (rewrite Hr; cbn; by rewrite manual_shutting).
    apply wp_bind. destruct (peer && has_runtime o); [apply wp_on_world; intros _ r'' Hr''|apply wp_ret];
      (apply wp_cancel_local; [by case_match|congruence]).
Qed.

Lemma wp_graceful_restart_sequence o mismatch b X r :
  server_shutting_down (flags r) = b →
  wp (graceful_restart_sequence o mismatch) (sequence_post o b) X r.
Proof.
  intros Hb. unfold graceful_restart_sequence.
  apply wp_bind. eapply (wp_mono _ (fun _ r' => server_shutting_down (flags r') = b) _ (fun _ _ => False));
    [by destruct (has_runtime o)| |done].
  intros _ r0 H0. apply wp_bind, wp_modify, wp_bind, wp_on_world. intros drained r1 H1.
  assert (server_shutting_down (flags r1) = b) as Hb1 by (by rewrite H1).
  assert (wp (prepared ← (if has_runtime o then on_world prepare_peer_for_planned_restart else mret (Ok false));
      match (prepared : result bool ProductionError) with
      | Err _ => on_world cancel_peer_planned_restart;; cancel_local o;;
                 mret GracefulRestartOutcome.PeerPreparationFailed
      | Ok peer_prepared => stop_prepared o mismatch peer_prepared
      end) (sequence_post o b) X r1) as Hrest.
  { apply wp_bind. destruct (has_runtime o); [apply wp_on_world|by apply wp_stop_prepared].
    intros [p|e] r2 H2; [apply wp_stop_prepared; congruence|].
    apply wp_bind, wp_on_world. intros _ r3 H3. apply wp_cancel_local; congruence. }
  destruct drained as [|[]]; try exact Hrest.
  apply wp_bind. unfold cancel_local. destruct (has_runtime o) eqn:Ho; [apply wp_modify|];
    (split; [done|]); by rewrite ?Ho.
Qed.

(** An accepted restart leaves the node blocked; any other answer leaves the slot of restarts
    free, the failed phase and no planned restart. *)
Lemma perform_graceful_restart_spec o mismatch r code r' :
  perform_graceful_restart o mismatch r = (code, r') →
  server_shutting_down (flags r') = server_shutting_down (flags r) ∧
  if decide (code = 202) then Admission.state (gate (world r')) = AdmissionState.Blocked
  else graceful_restart_in_progress (flags r') = false
    ∧ (server_shutting_down (flags r) = false → shutdown_phase (flags r') = 3)
    ∧ (has_runtime o = true → planned_restart_active (world r') = false).
Proof.
  unfold perform_graceful_restart. set (r0 := with_flags _ r).
  assert (server_shutting_down (flags r0) = server_shutting_down (flags r)) as H0 by apply manual_shutting.
  pose proof (wp_graceful_restart_sequence o mismatch _ (fun _ _ => False) r0 H0) as Hwp. revert Hwp. unfold wp.
  destruct (graceful_restart_sequence o mismatch r0) as [[outcome|[]] r1]. intros [Hf Ho].
  destruct outcome; intros [= <- <-]; cbn [flags with_flags world release_graceful_restart];
    (split; [cbn; rewrite ?manual_shutting; done|]); [done|..];
    (split_and!; [done|intros Hd; cbn|done]);
    unfold set_manual_shutdown_phase; rewrite Hf, Hd; done.
Qed.

End SequenceLemmas.

(** ** Properties *)

(** C26: In every interleaving of mutating requests, their jobs, the detector, restarts and the
    server's own end: while the server cleans up its children (and after), no accepted job and
    no recovery runs and no handler is past the gate; at most one handler is in the sequence of
    a planned restart; and a cleanup that failed can always be retried by a request. *)
Theorem cleanup_excludes_mutations s :
  rtc step system_init s →
  (server s = Cleaning ∨ server s = Finished →
     jobs s = 0%nat ∧ recovering s = false ∧ ∀ i h, handlers s !! i = Some h → mutating h = false) ∧
  (∀ i j, at_stage s i true InRestart → at_stage s j true InRestart → i = j) ∧
  (server s = Failed →
     ∃ s', rtc step s s' ∧ server s' = Failed ∧ cleanup_retry_requested (sflags s') = true).
Proof.
  intros Hr. assert (shutdown_ok s) as Hok by (eapply shutdown_ok_reachable, shutdown_ok_init; done).
  split_and!.
  - intros Hs. split_and!; [by apply (ok_jobs s Hok); tauto|by apply (ok_recovery s Hok)|].
    apply (ok_gate s Hok), exclusive_late. tauto.
  - intros i j Hi Hj. destruct (ok_slot s Hok j true Hj) as [_ H]. by eapply H.
  - by apply retry_possible.
Qed.

(** ** Concrete runs *)

Module DemoShutdown.

Definition flags_at (phase : Z) (shutting slot : bool) : Flags := mkFlags phase shutting slot false false.
(** A job that was accepted before the shutdown outlives the wait of the server. *)
Definition stuck : System := mkSystem (flags_at 3 true false) ∅ 1 false 0 Failed.
(** A restart stops the children while a job runs. *)
Definition beside_job : System :=
  mkSystem (flags_at 2 false true) {[ 1%nat := mkHandler true InRestart ]} 1 false 0 Serving.

Lemma step_to s s' x : step s s' → s' = x → rtc step s x.
Proof. intros H <-. by apply rtc_once. Qed.

Lemma job_accepted :
  rtc step system_init (mkSystem flags_init ∅ 1 false 0 Serving).
Proof.
  eapply rtc_l; [by apply (Arrives _ 0 false)|].
  eapply rtc_l; [by apply (LoadsPhase _ 0 false)|].
  eapply rtc_l; [by apply (Passes _ 0 false 0)|].
  eapply rtc_l; [by apply (AcceptsJob _ 0)|].
  eapply step_to; [by apply (Leaves _ 0 false)|by vm_compute].
Qed.

Lemma stuck_reached : rtc step system_init stuck.
Proof.
  etrans; [apply job_accepted|].
  eapply rtc_l; [by apply ServerStops|].
  eapply rtc_l; [by apply TasksAborted|].
  eapply rtc_l; [by apply GateTaken|].
  eapply step_to; [apply WaitTimedOut; cbn; tauto|by vm_compute].
Qed.

(** The planned restart does not look at the jobs that were accepted before it. *)
Example restart_beside_job :
  rtc step system_init beside_job ∧ jobs beside_job = 1%nat ∧ at_stage beside_job 1 true InRestart.
Proof.
  split; [|done]. etrans; [apply job_accepted|].
  eapply rtc_l; [by apply (Arrives _ 1 true)|].
  eapply rtc_l; [by apply (LoadsPhase _ 1 true)|].
  eapply rtc_l; [by apply (Passes _ 1 true 0)|].
  eapply rtc_l; [by apply (SeesNoShutdown _ 1)|].
  eapply rtc_l; [by eapply (RestartClaims _ 1)|].
  eapply step_to; [by apply (RestartStops _ 1)|by vm_compute].
Qed.

Definition owner : Owner := mkOwner true true.
Definition world_at (node : ClusterSnapshot) (g : Inner) : World :=
  mkWorld node g (target node, true) (mkTracker 1000000000 3 (mkPromotionStatus None 0 None false))
    (generation node) false false [].
Definition restart (env : Environment) (mismatch : bool) (w : World) : Z * Restarting :=
  graceful_restart (env:=env) None None 30000000000 owner mismatch (mkRestarting flags_init w).

(** A promotion drains for its own generation: the drain of the restart fails at once, which
    counts as drained, and the child is stopped with three requests in flight. *)
Definition draining_gate : Inner := mkInner AdmissionState.Draining false 3 8 (Some 5).
Example drain_error_taken_as_drained :
  let '(code, r) := restart (fun _ _ => Success) false (world_at distributed_coordinator draining_gate) in
  (code, in_flight (gate (world r)), head (calls (world r)))
  = (202, 3, Some (PeerStopWorker (generation distributed_coordinator), Success)).
Proof. by vm_compute. Qed.

(** The child's identity does not match: the answer of a ready coordinator is 500, not 409. *)
Definition foreign_child : Environment := fun _ c =>
  match c with Stop _ => Failure | _ => Success end.
Example mismatch_of_coordinator_not_recognised :
  (restart foreign_child true (world_at distributed_coordinator (mkInner AdmissionState.Serving false 0 8 None))).1
  = 500.
Proof. by vm_compute. Qed.
Example mismatch_of_worker_recognised :
  (restart foreign_child true (world_at distributed_worker (mkInner AdmissionState.Serving false 0 8 None))).1
  = 409.
Proof. by vm_compute. Qed.

End DemoShutdown.

Lemma cleanup_excludes_mutations_witness :
  server DemoShutdown.stuck = Failed ∧
  ∃ s', rtc step DemoShutdown.stuck s' ∧ server s' = Failed ∧ cleanup_retry_requested (sflags s') = true.
Proof.
  split; [done|].
  destruct (cleanup_excludes_mutations DemoShutdown.stuck DemoShutdown.stuck_reached) as (_ & _ & H).
  exact (H eq_refl).
Defined.
